(* ===== verification/_CoqProject ===== *)
-Q . S2P
Prelude.v
Effects.v
Types.v
Bus.v
Range.v
Mapper.v
Physical.v
Cache.v
CacheFill.v
Interrupts.v
Clock.v
ClockDev.v
Terminal.v
TerminalInv.v
TermClient.v
Spim.v
BoardDev.v
DecRtc.v
DecSerial.v
CPZero.v
ISA.v
CPU.v
Demo.v
CStrings.v
RemoteGdb.v
GdbStub.v
Options.v
Interactor.v
Pipeline.v
PipelineInv.v
PipelineSafe.v
Exec.v
Router.v
RouterInv.v
Flits.v
DMAC.v
DMACopy.v
DMAMem.v
CacheMem.v
DBuf.v
Accel.v
RemoteRam.v
SnaccModules.v
SnaccMad.v
SnaccCore.v
Snacc.v
AccDebug.v
CmaSort.v
CmaArray.v
CmaFlow.v
CmaConfig.v
CmaControl.v
Cma.v
NifServe.v
RtIf.v
Cube.v
Vmips.v
Remote.v
