(* ===== verification/Prelude.v ===== *)
(** * cube_sim: a verification development

    cube_sim is a cycle-accurate simulator, in C++, of a stacked system: a MIPS R3000
    processor with caches, a bus with memories and a DMA controller, and a network of
    routers with accelerators on the chips below.  This library models its components as
    executable functions and proves what makes them correct.

    ** How the program is modelled

    A C++ object is a [Record] of its fields; a method is an action of the monad [M] of
    Effects.v, which passes the state of the object, returns the calls of
    [client->exception] as events, and is [None] where the source has undefined behaviour
    (a null or dangling pointer, an index out of bounds, [front] of an empty queue, an
    [assert] that fails).  Objects behind pointers are keys of a map when they are shared.
    Integers are [Z]; [u32], [s32] and the others of this file are the wrap-around of
    their widths, written where the source's types wrap; a signed overflow is undefined in
    C++, and is [None] in the sums of the processor ([add_result] and the like of ISA.v).
    Where other signed counters and products are written as wrapping, the file says so.
    Virtual methods are type
    classes ([RangeOps], [MemPort], [HasConfig], [HasNif], [Overrides], [Host],
    [DebugPort]), and what a theorem asks of an implementation is a class or a record of
    laws ([RangeLaws], [word_bus], [NifLaws], [Tasks], [Neighbours], [Laws]).
    The cycle counter [machine->num_cycles] is the argument [now].  Messages to the
    terminal are left out.

    ** The files, and the parts of src/ they model

    - Prelude.v: record update, machine integers, bit-level tactics; Effects.v: the monad,
      its laws, the relation [keeps] and consecutive cycles ([cycles], [reaches]).
    - Types.v: accesstypes.h, excnames.h and the byte order conversions of mapper.cc.
    - Bus.v: busarbiter.cc.  Range.v: range.cc, the memory modules and devicemap.cc.
      Mapper.v: mapper.cc.  Physical.v: the mapper over memory modules as one
      byte-addressed memory.
    - Cache.v: cache.cc; CacheFill.v: its block transfers, on any memory that answers.
    - Interrupts.v: deviceint.cc, intctrl.cc.  CPZero.v: cpzero.cc with the TLB.
    - Clock.v: clock.cc and task.h, with the queue of deferred tasks and what it does to a
      client whose tasks keep the interface [Tasks].  ClockDev.v: clockdev.cc.
    - Terminal.v: terminalcontroller.cc, for a client that overrides its virtual methods
      ([Overrides]) and a host ([Host]).  TerminalInv.v: its invariant.  TermClient.v: what
      its two clients share.  Spim.v: spimconsole.cc.  DecSerial.v: decserial.cc.
    - BoardDev.v: haltdev.cc, testdev.cc, rs232c.cc, decstat.cc, deccsr.cc, and the state
      of the machine that the halt device sets.  DecRtc.v: decrtc.cc.
    - CStrings.v: the functions of the C library on strings of characters.  RemoteGdb.v:
      remotegdb.cc.  GdbStub.v: debug.cc with the debugger's functions of cpu.cc.
      Options.v: options.cc, optiontbl.h, fileutils.cc.  Interactor.v: interactor.cc.
    - ISA.v: the tables of ISA.h and the arithmetic of cpu.cc.  CPU.v: the processor
      (cpu.cc, fpu.cc).  Demo.v: a program run on it.  Pipeline.v, PipelineInv.v,
      PipelineSafe.v, Exec.v: forwarding, the invariant of the pipeline registers, that none
      is used after it was deleted, the instructions.
    - Router.v: router.cc.  RouterInv.v: its invariant and wormhole switching.  Flits.v:
      flit formats, acknowledgements, routing.
    - DMAC.v: dmac.cc.  DMACopy.v: its transfers against the interface [word_bus].
      DMAMem.v: the mapper implements the interface.  CacheMem.v: block transfers of the
      cache on the mapper.
    - DBuf.v: dbuf.cc.  Accel.v: accelerator.cc.  RemoteRam.v: remoteram.cc.  NifServe.v:
      the network interface against its specification [serve].
    - SnaccModules.v, SnaccMad.v: snaccmodules.cc (fixed-point numbers, arbiter,
      registers; the multiply-and-add unit).  SnaccCore.v: snacccore.cc.  Snacc.v:
      snacc.cc with snaccAddressMap.h.
    - AccDebug.v: debugutils.cc.  CmaArray.v, CmaSort.v, CmaFlow.v, CmaConfig.v: the
      processing elements of cmamodules.cc, the analysis of the data flow, and the
      configured array with its cycle.  CmaControl.v: the registers and the microcontroller
      of cmamodules.cc.  Cma.v: cma.cc.
    - RtIf.v: routerinterface.cc.  Cube.v: the machine of vmips.cc in cube mode, its
      components put together.  Vmips.v: the rest of vmips.cc, which treats the components
      as parameters: the options in use, the devices of the board, the building of
      accelerators, the other modes, the loop of the run.  Remote.v: runs of the whole
      network.

    How they meet: [Cube] holds the processor, the router interface and the accelerators
    and steps them as [vmips::step_cube] does; each of them reaches its memory through a
    [Mapper] over its own kind of range; the accelerators are [Accel] applied to a core
    (RemoteRam.v, Snacc.v, Cma.v), which a debugger (AccDebug.v) accesses as a range.  The
    devices that defer tasks (ClockDev.v, DecRtc.v, Terminal.v) hold a [Clock] whose tasks
    are names of the device's methods; ClockDev.v has one clock with the tasks of its device
    and of any others that leave the device alone ([Neighbours]).
    The debugger (GdbStub.v) drives the processor of CPU.v on any bus with a [DebugPort],
    which the mapper gives.

    ** What the theorems show

    - The processor: every cycle keeps the seven pipeline registers distinct and live and
      their pointers on live data, and does what it would do if none had been deleted
      ([step_keeps_pipeline]; calls into caches and memory may still be undefined, and so is
      an unaligned load into register 0); forwarded operands are those of the program order; the execution stage computes
      the instructions, undefined on signed overflow, and the latency of HI and LO; branches and jumps;
      products, quotients, shifts and unaligned merges on words.
    - Memory: translation of every address in every mode, against an independent
      description of segments and entries ([translation]); the mapper is a byte-addressed
      memory in the byte order of the target, keeps its ranges well formed, and is
      transparent in its search cache; latency and errors; the bus has one holder.
    - The cache: loads see stores, a miss is filled with the words of the memory,
      whatever its latencies ([fill_block]), victims
      are chosen and written back as the policy says.
    - The network: a port carries one packet at a time; flits carry their fields;
      acknowledgements are counted right for the lower channels; routing reaches.
    - Transfers: the DMA controller on the mapper terminates and copies exactly the
      block, for every latency, width and byte order; the network interface serves every
      message as its specification says; across the whole network a remote memory is a
      memory and a remote transfer is done and reported.
    - The SNACC accelerator: a core implements its instruction set ([isa_run], an
      abstract machine without stages), four cycles an instruction; a multiply-and-add
      operation ends with the sums the lanes, steps and mask say; the double buffers
      follow their registers; no two cores of an arbitrated mode use the shared buffer
      at once, and each that waits for it gets it; the fixed-point arithmetic saturates.
    - The CMA accelerator: a cycle of the configured array computes every element from
      its inputs in data-flow order, for every configuration that the analysis, which
      terminates, accepts; delayed stores arrive in their cycle, for delays below 15; a program runs until it is
      done; the operations on the words of the elements.
    - Time: deferred tasks run as tasks at absolute times do; the clock device ticks,
      in whole increments of the clock; the assertions of the terminal controller and of its
      clients fail in the cases the theorems name only (a host that does not take a byte, a
      keyboard read that is not ready); registers of the real-time clock, the serial lines and the consoles; the
      interrupts of the control register follow its lines ([interrupts_follow]).
    - The debugger: packets are read as they were sent, through noise and run lengths;
      the processor continues to the breakpoint and its registers are read as written.
    - The machine: options have the value that was assigned last, through files with
      quotes and comments; the devices of the board do not overlap ([board_apart]); the
      stack of accelerators is built when its names are in order ([stack_built]); the
      masters of the bus take turns ([masters_rotate]); the nested loops of the run are
      one action after another until the machine halts ([runs_one_by_one]); a session at
      the prompt is its commands, one after the other ([session]).
    - The theorems state the behaviour the code has.  Where that is not what a comment or
      the architecture says, the theorem says so ([access_errors], [reset_in_transfer],
      [exception_priorities], [jump_decode], [branch_decode], [ack_accounting],
      [double_buffering], [io_registers], [late_address_spec], [received_fields],
      [enabled_twice], [no_crashes], [bus_trace_crashes], [big_memory] and others).

    ** Bounds and fuel

    Loops of the source with a bound are recursion on it ([for_range], the bandwidth).
    The runs of components are unbounded ([reaches]: some number of cycles exists).  Only
    the clients of Cube.v poll with fuel; it is enough when the run does not end in
    [None], which is what [remote_memory] and [remote_dma] state, for little-endian
    machines with memories of one block, blocks of four words and a bus latency of one.
    Flit counters of type [int] are unbounded.  [mad_run] asks for addresses inside the
    memories, fewer than 2^31 rounds and a little-endian host; [core_executes] is for runs
    without multiply-and-add instructions and waits for the shared buffer, which the other
    two theorems are about.

    Shifts by 32 places or more are undefined, so the array's theorems ask for operands
    below; a delay of stores above 14 reads outside of the queue.  The analysis of the data flow has the size of
    its map as fuel, and the queue of tasks their number: both are shown to be enough.  A
    packet has at most PBUFSIZ characters and is waited for as long as there is input; the
    debugger's loops take any fuel above the number of steps that the theorem names.  A
    line of options has its length as fuel, and a file its own.  The clients of the
    terminals see the host as the answers of its calls ([Host]), in any order.

    ** Not modelled

    libopcodes_mips and stub-dis (third-party disassembler); the executable loader, which
    reads structures of the host's layout, and the driver vmipstool, which starts other
    programs; the settings of terminals and the listening socket, reduced to whether the
    calls of the host succeed; the printing and tracing of every class. *)

From Stdlib Require Export ZArith Lia Bool List.
From stdpp Require Export base tactics decidable option list numbers gmap.
#[global] Open Scope Z_scope.

(** ** Record update

    [r <| p := v |>] replaces the field [p] of the record [r].  The setter of a
    projection is computed from the eta expansion of the record, which each
    record declares as an instance of [Eta]. *)

Class Eta (R : Type) := eta_of : R → R.

Class Setter {R T : Type} (p : R → T) := setter_of : (T → T) → R → R.

Definition upd {R T : Type} (p : R → T) {S : Setter p} (f : T → T) (r : R) : R :=
  S f r.
Arguments upd {R T} p {S} f r /.

Ltac derive_setter :=
  match goal with
  | |- @Setter ?R ?T ?p =>
      let E := constr:(_ : Eta R) in
      let body := eval hnf in (E : R → R) in
      let s := constr:(fun (f : T → T) (r : R) =>
        ltac:(let e := eval cbv beta in (body r) in
              let e' := eval pattern (p r) in e in
              match e' with
              | ?g _ => let t := eval cbv beta in (g (f (p r))) in exact t
              end)) in
      exact s
  end.

#[export] Hint Extern 1 (Setter _) => derive_setter : typeclass_instances.

#[export] Instance setter_id {R} : Setter (@id R) := λ f r, f r.

Declare Scope rec_scope.
Delimit Scope rec_scope with rec.
Notation "r <| p := v |>" := (upd p (λ _, v) r)
  (at level 8, left associativity, p at level 99, v at level 200) : rec_scope.
Notation "r <| p ::= f |>" := (upd p f r)
  (at level 8, left associativity, p at level 99, f at level 200) : rec_scope.
#[global] Open Scope rec_scope.

(** ** Machine integers *)

(** The unsigned value of [z] on [w] bits. *)
Definition wrap (w z : Z) : Z := z mod 2 ^ w.
Definition u32 (z : Z) : Z := wrap 32 z.
Definition u16 (z : Z) : Z := wrap 16 z.
Definition u8 (z : Z) : Z := wrap 8 z.
Definition u64 (z : Z) : Z := wrap 64 z.

(** The two's complement reading of [z] on [w] bits. *)
Definition swrap (w z : Z) : Z :=
  if Z.testbit z (w - 1) then wrap w z - 2 ^ w else wrap w z.
Definition s32 (z : Z) : Z := swrap 32 z.
Definition s16 (z : Z) : Z := swrap 16 z.
Definition s8 (z : Z) : Z := swrap 8 z.

(** C's bitwise complement of an unsigned 32-bit word. *)
Definition lnot32 (z : Z) : Z := u32 (Z.lnot z).

(** A C integer used as a condition. *)
Definition nz (z : Z) : bool := negb (z =? 0).

(** A C condition used as an integer. *)
Definition b2z (b : bool) : Z := if b then 1 else 0.

Definition is_u (w z : Z) : Prop := 0 ≤ z < 2 ^ w.
Notation is_u32 := (is_u 32).
Notation is_u16 := (is_u 16).
Notation is_u8 := (is_u 8).

Lemma wrap_range w z : 0 ≤ w → is_u w (wrap w z).
Proof. intros; apply Z.mod_pos_bound; lia. Qed.

Lemma wrap_small w z : is_u w z → wrap w z = z.
Proof. intros; now apply Z.mod_small. Qed.

Lemma wrap_idem w z : 0 ≤ w → wrap w (wrap w z) = wrap w z.
Proof. intros; apply wrap_small, wrap_range; lia. Qed.

Lemma u32_range z : 0 ≤ u32 z < 4294967296.
Proof. apply (wrap_range 32 z); lia. Qed.
Lemma u16_range z : 0 ≤ u16 z < 65536.
Proof. apply (wrap_range 16 z); lia. Qed.
Lemma u8_range z : 0 ≤ u8 z < 256.
Proof. apply (wrap_range 8 z); lia. Qed.

Lemma u32_small z : 0 ≤ z < 4294967296 → u32 z = z.
Proof. apply (wrap_small 32). Qed.
Lemma u16_small z : 0 ≤ z < 65536 → u16 z = z.
Proof. apply (wrap_small 16). Qed.
Lemma u8_small z : 0 ≤ z < 256 → u8 z = z.
Proof. apply (wrap_small 8). Qed.

Lemma wrap_spec w i z : 0 ≤ w → 0 ≤ i →
  Z.testbit (wrap w z) i = (i <? w) && Z.testbit z i.
Proof.
  intros. unfold wrap. destruct (Z.ltb_spec i w); simpl.
  - now apply Z.mod_pow2_bits_low.
  - apply Z.mod_pow2_bits_high; lia.
Qed.

Lemma u32_spec i z : 0 ≤ i → Z.testbit (u32 z) i = (i <? 32) && Z.testbit z i.
Proof. intros; apply wrap_spec; lia. Qed.
Lemma u16_spec i z : 0 ≤ i → Z.testbit (u16 z) i = (i <? 16) && Z.testbit z i.
Proof. intros; apply wrap_spec; lia. Qed.
Lemma u8_spec i z : 0 ≤ i → Z.testbit (u8 z) i = (i <? 8) && Z.testbit z i.
Proof. intros; apply wrap_spec; lia. Qed.

(** A number with no bit at or above [w] is a [w]-bit word. *)
Lemma is_u_bits w z : 0 ≤ w → wrap w z = z → is_u w z.
Proof. intros Hw <-. now apply wrap_range. Qed.

Lemma testbit_high w z i : is_u w z → 0 ≤ w ≤ i → Z.testbit z i = false.
Proof.
  intros H Hi. rewrite <- (wrap_small w z H), wrap_spec by lia.
  destruct (Z.ltb_spec i w); [lia|reflexivity].
Qed.

Lemma land_is_u w a b : 0 ≤ w → is_u w b → is_u w (Z.land a b).
Proof.
  intros Hw Hb. apply is_u_bits; [done|]. apply Z.bits_inj'. intros i Hi.
  rewrite wrap_spec, !Z.land_spec by lia. destruct (Z.ltb_spec i w); simpl; [done|].
  rewrite (testbit_high w b) by (done || lia). now rewrite andb_false_r.
Qed.

Lemma lor_is_u w a b : 0 ≤ w → is_u w a → is_u w b → is_u w (Z.lor a b).
Proof.
  intros Hw Ha Hb. apply is_u_bits; [done|]. apply Z.bits_inj'. intros i Hi.
  rewrite wrap_spec, !Z.lor_spec by lia. destruct (Z.ltb_spec i w); simpl; [done|].
  now rewrite (testbit_high w a), (testbit_high w b) by (done || lia).
Qed.

Lemma lxor_is_u w a b : 0 ≤ w → is_u w a → is_u w b → is_u w (Z.lxor a b).
Proof.
  intros Hw Ha Hb. apply is_u_bits; [done|]. apply Z.bits_inj'. intros i Hi.
  rewrite wrap_spec, !Z.lxor_spec by lia. destruct (Z.ltb_spec i w); simpl; [done|].
  now rewrite (testbit_high w a), (testbit_high w b) by (done || lia).
Qed.

Lemma shiftr_is_u w a n : 0 ≤ n → is_u w a → is_u w (Z.shiftr a n).
Proof.
  intros Hn [H0 H1]. split; [now apply Z.shiftr_nonneg|].
  rewrite Z.shiftr_div_pow2 by done.
  assert (0 < 2 ^ n) by (apply Z.pow_pos_nonneg; lia).
  apply Z.le_lt_trans with a; [|done]. apply Z.div_le_upper_bound; nia.
Qed.

Lemma swrap_range w z : 0 < w → - 2 ^ (w - 1) ≤ swrap w z < 2 ^ (w - 1).
Proof.
  intros Hw. unfold swrap. pose proof (wrap_range w z ltac:(lia)) as [H0 H1].
  assert (E : 2 ^ w = 2 * 2 ^ (w - 1)).
  { rewrite <- Z.pow_succ_r by lia. f_equal; lia. }
  assert (Hb : Z.testbit z (w - 1) = (2 ^ (w - 1) <=? wrap w z)).
  { transitivity (Z.testbit (wrap w z) (w - 1)).
    { rewrite wrap_spec by lia. destruct (Z.ltb_spec (w - 1) w); [done|lia]. }
    rewrite Z.testbit_odd, Z.shiftr_div_pow2 by lia.
    assert (P : 0 < 2 ^ (w - 1)) by (apply Z.pow_pos_nonneg; lia).
    destruct (Z.leb_spec (2 ^ (w - 1)) (wrap w z)).
    - replace (wrap w z `div` 2 ^ (w - 1)) with 1; [done|].
      apply Z.div_unique with (wrap w z - 2 ^ (w - 1)); lia.
    - rewrite Z.div_small by lia. done. }
  rewrite Hb. destruct (Z.leb_spec (2 ^ (w - 1)) (wrap w z)); lia.
Qed.

Lemma s32_small z : 0 ≤ z < 2 ^ 31 → s32 z = z.
Proof.
  intros Hz. unfold s32, swrap, wrap. rewrite Z.mod_small by lia. destruct (Z.testbit _ _) eqn:Et; [|done].
  rewrite Z.testbit_true, Z.div_small in Et by lia. done.
Qed.

Lemma wrap_swrap w z : 0 ≤ w → wrap w (swrap w z) = wrap w z.
Proof.
  intros. unfold swrap. destruct (Z.testbit _ _).
  - unfold wrap. rewrite Zminus_mod, Z_mod_same_full, Z.sub_0_r, !Zmod_mod. done.
  - now apply wrap_idem.
Qed.

(** ** Bit-level reasoning

    [bitblast i] proves an equation between words built with the bitwise
    operators, shifts by constants and contiguous constant masks: it compares
    the bits at index [i], splitting on how [i] compares with the boundaries of
    the fields it meets. *)

Lemma tb_shiftl a n i : 0 ≤ i → 0 ≤ n →
  Z.testbit (Z.shiftl a n) i = (n <=? i) && Z.testbit a (i - n).
Proof.
  intros. rewrite Z.shiftl_spec by lia. destruct (Z.leb_spec n i); [done|].
  rewrite Z.testbit_neg_r by lia. done.
Qed.

Lemma tb_shiftr a n i : 0 ≤ i → Z.testbit (Z.shiftr a n) i = Z.testbit a (i + n).
Proof. intros. now rewrite Z.shiftr_spec. Qed.

Lemma tb_lnot a i : 0 ≤ i → Z.testbit (Z.lnot a) i = negb (Z.testbit a i).
Proof. apply Z.lnot_spec. Qed.

Lemma tb_mask k m i : 0 ≤ i → 0 ≤ m → 0 ≤ k →
  Z.testbit (Z.shiftl (Z.ones k) m) i = (m <=? i) && (i <? m + k).
Proof.
  intros. rewrite tb_shiftl by lia. destruct (Z.leb_spec m i); [|done]. simpl.
  rewrite Z.testbit_ones_nonneg by lia.
  destruct (Z.ltb_spec (i - m) k), (Z.ltb_spec i (m + k)); done || lia.
Qed.

Lemma tb_small w a i : is_u w a → 0 ≤ w →
  Z.testbit a i = (i <? w) && Z.testbit a i.
Proof.
  intros Ha Hw. destruct (Z.ltb_spec i w); [done|].
  rewrite (testbit_high w a) by (done || lia). done.
Qed.

(** The number of trailing zeros of a positive number. *)
Fixpoint tz (p : positive) : Z :=
  match p with xO p => 1 + tz p | _ => 0 end.

Ltac is_const c :=
  match c with
  | Z0 => idtac | Zpos ?p => is_pos p
  end
with is_pos p :=
  match p with xH => idtac | xO ?q => is_pos q | xI ?q => is_pos q end.

Ltac tb_const c i :=
  is_const c;
  lazymatch c with
  | Z0 => rewrite (Z.bits_0 i)
  | Zpos ?p =>
      let m := eval vm_compute in (tz p) in
      let k := eval vm_compute in (Z.log2 (Z.shiftr c m) + 1) in
      let H := fresh in
      assert (H : c = Z.shiftl (Z.ones k) m) by reflexivity;
      replace (Z.testbit c i) with (Z.testbit (Z.shiftl (Z.ones k) m) i)
        by (now rewrite H);
      clear H; rewrite (tb_mask k m i) by lia
  end.

Ltac bool_simpl :=
  rewrite ?andb_true_l, ?andb_true_r, ?andb_false_l, ?andb_false_r, ?orb_true_l, ?orb_true_r,
    ?orb_false_l, ?orb_false_r, ?xorb_false_l, ?xorb_false_r, ?andb_diag.

Ltac bit_step :=
  match goal with
  | |- context [?a <? ?b] => destruct (Z.ltb_spec a b); [|try (exfalso; lia)]; try (exfalso; lia); bool_simpl
  | |- context [?a <=? ?b] => destruct (Z.leb_spec a b); [|try (exfalso; lia)]; try (exfalso; lia); bool_simpl
  | |- context [Z.testbit (Z.land ?a ?b) ?i] => rewrite (Z.land_spec a b i)
  | |- context [Z.testbit (Z.lor ?a ?b) ?i] => rewrite (Z.lor_spec a b i)
  | |- context [Z.testbit (Z.lxor ?a ?b) ?i] => rewrite (Z.lxor_spec a b i)
  | |- context [Z.testbit (Z.lnot ?a) ?i] => rewrite (tb_lnot a i) by lia
  | |- context [Z.testbit (Z.shiftl ?a ?n) ?i] => rewrite (tb_shiftl a n i) by lia
  | |- context [Z.testbit (Z.shiftr ?a ?n) ?i] => rewrite (tb_shiftr a n i) by lia
  | |- context [Z.testbit (u32 ?a) ?i] => rewrite (u32_spec i a) by lia
  | |- context [Z.testbit (u16 ?a) ?i] => rewrite (u16_spec i a) by lia
  | |- context [Z.testbit (u8 ?a) ?i] => rewrite (u8_spec i a) by lia
  | |- context [Z.testbit ?c ?i] => tb_const c i
  end.

(** Bits above the width of a word in the context are zero. *)
Ltac bit_high :=
  match goal with
  | H : is_u ?w ?a |- context [Z.testbit ?a ?i] =>
      rewrite (testbit_high w a i) by (done || lia)
  end.

(** Bits of the same word at syntactically different, equal indices. *)
Ltac bit_same :=
  match goal with
  | |- context [Z.testbit ?a ?i] =>
      match goal with
      | |- context [Z.testbit a ?j] =>
          lazymatch j with context [i] => fail | _ => replace i with j by lia end
      end
  end.

Ltac bitblast i :=
  apply Z.bits_inj'; let Hi := fresh "Hi" in intros i Hi;
  repeat bit_step; repeat bit_high; bool_simpl; repeat bit_same; bool_simpl; try done.

(** Masking with the complement of the [n] low bits rounds down. *)
Lemma land_lnot32 a n : is_u32 a → 0 ≤ n →
  Z.land a (lnot32 (Z.shiftl 1 n - 1)) = (a / 2 ^ n) * 2 ^ n.
Proof.
  intros Ha Hn. unfold lnot32, u32, wrap. rewrite <- Z.land_ones by lia.
  rewrite (Z.land_comm (Z.lnot _)), Z.land_assoc, Z.land_ones by lia.
  rewrite Z.mod_small by exact Ha.
  replace (Z.shiftl 1 n - 1) with (Z.ones n) by (rewrite Z.ones_equiv, Z.shiftl_1_l; lia).
  rewrite <- Z.ldiff_land, Z.ldiff_ones_r by done.
  by rewrite Z.shiftl_mul_pow2, Z.shiftr_div_pow2.
Qed.

(** Intermediate wraps do not matter. *)
Lemma u32_add_l a b : u32 (u32 a + b) = u32 (a + b).
Proof. apply Zplus_mod_idemp_l. Qed.
Lemma u32_add_r a b : u32 (a + u32 b) = u32 (a + b).
Proof. apply Zplus_mod_idemp_r. Qed.
Lemma u32_sub_l a b : u32 (u32 a - b) = u32 (a - b).
Proof. apply Zminus_mod_idemp_l. Qed.
Lemma u32_sub_r a b : u32 (a - u32 b) = u32 (a - b).
Proof. apply Zminus_mod_idemp_r. Qed.
Lemma u32_idem a : u32 (u32 a) = u32 a.
Proof. apply wrap_idem. lia. Qed.
