(* ===== verification/Effects.v ===== *)
(** * Effects: the state, exception and undefined-behaviour monad

    Every C++ method that mutates its object is an action of [M S A], where [S]
    is the state the method can reach.  An action

    - returns a value and the new state,
    - may have called [client->exception(code, mode, coproc)] any number of
      times on the device that issued the request; the calls are returned in
      order as [exc_event]s and are delivered by the caller,
    - or has undefined behaviour in the source (a null or dangling pointer is
      dereferenced, an array is indexed out of bounds, an [assert] fails or
      [abort] is called): it is [None]. *)

From S2P Require Import Prelude.

Record exc_event := ExcEvent {
  ev_client : Z;   (* the [DeviceExc] the exception is delivered to *)
  ev_code : Z;     (* [excCode] of excnames.h *)
  ev_mode : Z;     (* access mode of accesstypes.h *)
  ev_coproc : Z
}.

#[export] Instance exc_event_eq_dec : EqDecision exc_event.
Proof. solve_decision. Defined.

Definition M (S A : Type) : Type := S → option (A * S * list exc_event).

Section Actions.
  Context {S : Type}.
  Implicit Types (A B : Type).

#[export] Instance M_ret : MRet (M S) := λ A a s, Some (a, s, []).
Definition bindM {A B} (m : M S A) (f : A → M S B) : M S B := λ s,
  match m s with
  | None => None
  | Some (a, s', e) =>
      match f a s' with
      | None => None
      | Some (b, s'', e') => Some (b, s'', e ++ e')
      end
  end.
#[export] Instance M_fmap : FMap (M S) := λ A B f m s,
  match m s with
  | None => None
  | Some (a, s', e) => Some (f a, s', e)
  end.

Definition crash {A} : M S A := λ _, None.
Definition gets {A} (f : S → A) : M S A := λ s, Some (f s, s, []).
Definition modify (f : S → S) : M S unit := λ s, Some ((), f s, []).
Definition assign {T} (p : S → T) {P : Setter p} (v : T) : M S unit :=
  λ s, Some ((), P (λ _, v) s, []).
Definition raise (client code mode coproc : Z) : M S unit :=
  λ s, Some ((), s, [ExcEvent client code mode coproc]).
Definition when (b : bool) (m : M S unit) : M S unit := if b then m else mret ().
Definition from_option {A} (o : option A) : M S A :=
  match o with Some a => mret a | None => crash end.

(** Run an action of a sub-object, the field [p] of the object. *)
Definition zoom {T A} (p : S → T) {P : Setter p} (m : M T A) : M S A := λ s,
  match m (p s) with
  | None => None
  | Some (a, t, e) => Some (a, P (λ _, t) s, e)
  end.

(** Run an action on what a pointer, a key of the field [p], points to. *)
Definition zoom_key {K T A} `{Countable K} (p : S → gmap K T) {P : Setter p} (k : K)
    (m : M T A) : M S A := λ s,
  match p s !! k with
  | None => None
  | Some t =>
      match m t with
      | None => None
      | Some (a, t', e) => Some (a, P (<[k := t']>) s, e)
      end
  end.

(** Run an action on the [i]-th element of an array, the field [p]. *)
Definition zoom_nth {T A} (p : S → list T) {P : Setter p} (i : Z) (m : M T A) : M S A :=
  λ s,
  if i <? 0 then None else
  match p s !! Z.to_nat i with
  | None => None
  | Some t =>
      match m t with
      | None => None
      | Some (a, t', e) => Some (a, P (<[Z.to_nat i := t']>) s, e)
      end
  end.

Fixpoint for_each {A} (l : list A) (f : A → M S unit) : M S unit :=
  match l with
  | [] => mret ()
  | a :: l => bindM (f a) (λ _, for_each l f)
  end.

End Actions.

Declare Scope m_scope.
Delimit Scope m_scope with m.
Notation "x ← y ; z" := (bindM y (λ x, z)) : m_scope.
Notation "' x ← y ; z" := (bindM y (λ x, z)) : m_scope.
Notation "y ;; z" := (bindM y (λ _, z)) : m_scope.
Notation "p <~ v" := (assign p v) (at level 70, no associativity) : m_scope.
#[global] Open Scope m_scope.

(** Array reads and writes: out of bounds is undefined behaviour. *)
Definition nthz {A} (l : list A) (i : Z) : option A :=
  if i <? 0 then None else l !! Z.to_nat i.
Definition setz {A} (l : list A) (i : Z) (a : A) : option (list A) :=
  if (i <? 0) || (Z.of_nat (length l) <=? i) then None
  else Some (<[Z.to_nat i := a]> l).
Definition aget {S A} (p : S → list A) (i : Z) : M S A :=
  l ← gets p; from_option (nthz l i).
Definition aset {S A} (p : S → list A) {P : Setter p} (i : Z) (a : A) : M S unit :=
  l ← gets p; l' ← from_option (setz l i a); assign p l'.

(** [for (i = lo; i < lo + n; i++) f(i)] *)
Definition for_range {S} (lo : Z) (n : nat) (f : Z → M S unit) : M S unit :=
  for_each (seqZ lo (Z.of_nat n)) f.

(** ** Unfolding the monad *)

Ltac munfold :=
  unfold for_range, aget, aset, from_option, bindM, mret, fmap, M_ret, M_fmap,
    crash, gets, modify, assign, raise, when, zoom, zoom_key, zoom_nth in *;
  cbn [upd setter_of] in *.

(** ** What every run of an action guarantees *)

(** [keeps R m]: whenever [m] returns, the old and the new states are related
    by [R].  An invariant [I] is the relation [inv I]. *)
Definition keeps {S A} (R : S → S → Prop) (m : M S A) : Prop :=
  ∀ s a s' e, m s = Some (a, s', e) → R s s'.
Definition inv {S} (I : S → Prop) : S → S → Prop := λ s s', I s → I s'.

#[export] Instance inv_preorder {S} (I : S → Prop) : PreOrder (inv I).
Proof. split; unfold inv; intros ?; auto. Qed.

(** [quiet m]: [m] calls [exception] on nobody. *)
Definition quiet {S A} (m : M S A) : Prop :=
  ∀ s a s' e, m s = Some (a, s', e) → e = [].

(** [wp m s Q]: from [s] the action is defined, and its outcome satisfies [Q]. *)
Definition wp {S A} (m : M S A) (s : S) (Q : A → S → list exc_event → Prop) : Prop :=
  match m s with Some (a, s', e) => Q a s' e | None => False end.

Create HintDb keeps.
#[export] Hint Constants Opaque : keeps.

Section Keeps.
  Context {S : Type} (R : S → S → Prop) {HR : PreOrder R}.

Lemma keeps_ret {A} (a : A) : keeps R (mret a).
Proof. intros s a' s' e [= <- <- <-]. reflexivity. Qed.
Lemma keeps_bind {A B} (m : M S A) (f : A → M S B) :
  keeps R m → (∀ a, keeps R (f a)) → keeps R (bindM m f).
Proof.
  intros Hm Hf s b s' e. unfold bindM.
  destruct (m s) as [[[a s1] e1]|] eqn:E1; [|done].
  destruct (f a s1) as [[[b' s2] e2]|] eqn:E2; [|done].
  intros [= <- <- <-]. transitivity s1; [eapply Hm|eapply Hf]; eauto.
Qed.
Lemma keeps_fmap {A B} (f : A → B) (m : M S A) : keeps R m → keeps R (f <$> m).
Proof.
  intros Hm s b s' e. unfold fmap, M_fmap.
  destruct (m s) as [[[a s1] e1]|] eqn:E1; [|done].
  intros [= <- <- <-]. eauto.
Qed.
Lemma keeps_crash {A} : keeps R (crash : M S A).
Proof. by intros s a s' e. Qed.
Lemma keeps_gets {A} (f : S → A) : keeps R (gets f).
Proof. intros s a s' e [= <- <- <-]. reflexivity. Qed.
Lemma keeps_raise c code mode cp : keeps R (raise c code mode cp).
Proof. intros s a s' e [= <- <- <-]. reflexivity. Qed.
Lemma keeps_when b (m : M S unit) : keeps R m → keeps R (when b m).
Proof. intros; destruct b; simpl; [done|apply keeps_ret]. Qed.
Lemma keeps_from_option {A} (o : option A) : keeps R (from_option o : M S A).
Proof. destruct o; [apply keeps_ret|apply keeps_crash]. Qed.
Lemma keeps_for_each {A} (l : list A) (f : A → M S unit) :
  (∀ a, keeps R (f a)) → keeps R (for_each l f).
Proof.
  intros Hf; induction l; simpl; [apply keeps_ret|].
  apply keeps_bind; auto.
Qed.
Lemma keeps_for_range lo n (f : Z → M S unit) :
  (∀ a, keeps R (f a)) → keeps R (for_range lo n f).
Proof. apply keeps_for_each. Qed.
Lemma keeps_aget {A} (p : S → list A) i : keeps R (aget p i).
Proof. apply keeps_bind; [apply keeps_gets|intros; apply keeps_from_option]. Qed.
Lemma keeps_modify f : (∀ s, R s (f s)) → keeps R (modify f).
Proof. intros H s a s' e [= <- <- <-]. auto. Qed.
Lemma keeps_assign {T} (p : S → T) {P : Setter p} v :
  (∀ s, R s (P (λ _, v) s)) → keeps R (p <~ v).
Proof. intros H s a s' e [= <- <- <-]. auto. Qed.
Lemma keeps_zoom {T A} (p : S → T) {P : Setter p} (R' : T → T → Prop) (m : M T A) :
  keeps R' m → (∀ s t, R' (p s) t → R s (P (λ _, t) s)) → keeps R (zoom p m).
Proof.
  intros Hm HRt s a s' e. unfold zoom.
  destruct (m (p s)) as [[[a1 t1] e1]|] eqn:E1; [|done].
  intros [= <- <- <-]. eauto.
Qed.
End Keeps.

#[export] Hint Resolve keeps_ret keeps_bind keeps_fmap keeps_crash keeps_gets keeps_raise
  keeps_when keeps_from_option keeps_for_each keeps_for_range keeps_aget : keeps.

Lemma wp_bind {S A B} (m : M S A) (f : A → M S B) s Q :
  wp m s (λ a s1 e1, wp (f a) s1 (λ b s2 e2, Q b s2 (e1 ++ e2))) → wp (bindM m f) s Q.
Proof.
  unfold wp, bindM. destruct (m s) as [[[a s1] e1]|]; [|done].
  by destruct (f a s1) as [[[b s2] e2]|].
Qed.

Lemma wp_mono {S A} (m : M S A) s (Q Q' : A → S → list exc_event → Prop) :
  wp m s Q → (∀ a s' e, Q a s' e → Q' a s' e) → wp m s Q'.
Proof. unfold wp. destruct (m s) as [[[a s1] e1]|]; auto. Qed.

Lemma mbind_Some {S A B} (m : M S A) (f : A → M S B) s b s'' e :
  bindM m f s = Some (b, s'', e) ↔
  ∃ a s' e1 e2, m s = Some (a, s', e1) ∧ f a s' = Some (b, s'', e2) ∧ e = e1 ++ e2.
Proof.
  unfold bindM. split.
  - destruct (m s) as [[[a s1] e1]|]; [|done].
    destruct (f a s1) as [[[b' s2] e2]|] eqn:E2; [|done].
    intros [= <- <- <-]. eauto 10.
  - intros (a & s' & e1 & e2 & -> & -> & ->). done.
Qed.

Lemma ret_bind {S A B} (a : A) (f : A → M S B) s : bindM (mret a) f s = f a s.
Proof. unfold bindM, mret, M_ret. by destruct (f a s) as [[[b s'] e]|]. Qed.

Lemma gets_bind {S A B} (f : S → A) (k : A → M S B) s : bindM (gets f) k s = k (f s) s.
Proof. unfold bindM, gets. by destruct (k _ _) as [[[? ?] ?]|]. Qed.

Lemma modify_bind {S B} (f : S → S) (k : () → M S B) s : bindM (modify f) k s = k () (f s).
Proof. unfold bindM, modify. by destruct (k _ _) as [[[? ?] ?]|]. Qed.

Lemma crash_bind {S A B} (k : A → M S B) s : bindM crash k s = None.
Proof. done. Qed.

Lemma raise_bind {S B} c code mode cp (k : () → M S B) s : bindM (raise c code mode cp) k s =
  match k () s with
  | Some (b, s', e) => Some (b, s', ExcEvent c code mode cp :: e)
  | None => None
  end.
Proof. done. Qed.

Lemma bind_assoc {S A B C} (m : M S A) (f : A → M S B) (g : B → M S C) s :
  bindM (bindM m f) g s = bindM m (λ a, bindM (f a) g) s.
Proof.
  unfold bindM. destruct (m s) as [[[a s1] e1]|]; [|done].
  destruct (f a s1) as [[[b s2] e2]|]; [|done].
  destruct (g b s2) as [[[c s3] e3]|]; [|done]. by rewrite app_assoc.
Qed.

(** A first action whose outcome is known. *)
Lemma bind_eq {S A B} (m : M S A) (f : A → M S B) s a s' :
  m s = Some (a, s', []) → bindM m f s = f a s'.
Proof. unfold bindM. intros ->. by destruct (f a s') as [[[? ?] ?]|]. Qed.

Lemma zoom_Some {S T A} (p : S → T) {P : Setter p} (m : M T A) s a s' e :
  zoom p m s = Some (a, s', e) →
  ∃ t, m (p s) = Some (a, t, e) ∧ s' = P (λ _, t) s.
Proof.
  unfold zoom. destruct (m (p s)) as [[[a1 t1] e1]|]; [|done].
  intros [= <- <- <-]. eauto.
Qed.

Lemma zoom_key_Some {S K T A} `{Countable K} (p : S → gmap K T) {P : Setter p} k
    (m : M T A) s a s' e :
  zoom_key p k m s = Some (a, s', e) →
  ∃ t t', p s !! k = Some t ∧ m t = Some (a, t', e) ∧ s' = P (<[k := t']>) s.
Proof.
  unfold zoom_key. destruct (p s !! k) as [t|]; [|done].
  destruct (m t) as [[[a1 t1] e1]|] eqn:?; [|done]. intros [= <- <- <-]. eauto.
Qed.

(** [minv H] splits a hypothesis that a sequence of actions returned. *)
Ltac minv1 H :=
  match type of H with
  | bindM _ _ _ = Some _ =>
      let a := fresh "a" in let s := fresh "s" in let e1 := fresh "e" in
      let e2 := fresh "e" in let H1 := fresh "H" in let H2 := fresh "H" in
      apply mbind_Some in H as (a & s & e1 & e2 & H1 & H2 & ->);
      minv1 H1; minv1 H2
  | mret _ _ = Some _ => injection H as <- <- <-
  | gets _ _ = Some _ => injection H as <- <- <-
  | modify _ _ = Some _ => injection H as <- <- <-
  | assign _ _ _ = Some _ => injection H as <- <- <-
  | raise _ _ _ _ _ = Some _ => injection H as <- <- <-
  | crash _ = Some _ => discriminate H
  | _ => idtac
  end.
Ltac minv H := minv1 H; cbn [upd app] in *.

Lemma nthz_Some {A} (l : list A) i a :
  nthz l i = Some a → 0 ≤ i < Z.of_nat (length l) ∧ l !! Z.to_nat i = Some a.
Proof.
  unfold nthz. destruct (Z.ltb_spec i 0); [done|]. intros E. split; [|done].
  apply lookup_lt_Some in E. lia.
Qed.

Lemma nthz_is_Some {A} (l : list A) i :
  0 ≤ i < Z.of_nat (length l) → is_Some (nthz l i).
Proof.
  intros. unfold nthz. destruct (Z.ltb_spec i 0); [lia|].
  apply lookup_lt_is_Some. lia.
Qed.

Lemma setz_Some {A} (l : list A) i a :
  0 ≤ i < Z.of_nat (length l) → setz l i a = Some (<[Z.to_nat i := a]> l).
Proof.
  intros. unfold setz. destruct (Z.ltb_spec i 0); [lia|].
  destruct (Z.leb_spec (Z.of_nat (length l)) i); [lia|done].
Qed.

(** Reads after a write. *)
Lemma setz_is_Some {A} (l : list A) i a l' :
  setz l i a = Some l' → 0 ≤ i < Z.of_nat (length l).
Proof.
  unfold setz. destruct (Z.ltb_spec i 0); [done|].
  destruct (Z.leb_spec (Z.of_nat (length l)) i); [done|lia].
Qed.

Lemma setz_length {A} (l : list A) i a l' : setz l i a = Some l' → length l' = length l.
Proof.
  intros Hs. pose proof (setz_is_Some _ _ _ _ Hs). rewrite setz_Some in Hs by done.
  injection Hs as <-. apply length_insert.
Qed.

Lemma nthz_setz {A} (l : list A) i a l' j :
  setz l i a = Some l' → nthz l' j = if j =? i then Some a else nthz l j.
Proof.
  intros Hs. pose proof (setz_is_Some _ _ _ _ Hs). rewrite setz_Some in Hs by done.
  injection Hs as <-. unfold nthz. destruct (Z.ltb_spec j 0), (Z.eqb_spec j i); try done; try lia.
  - subst. rewrite list_lookup_insert_eq by lia. done.
  - rewrite list_lookup_insert_ne by lia. done.
Qed.

Lemma nthz_None {A} (l : list A) i : nthz l i = None ↔ i < 0 ∨ Z.of_nat (length l) ≤ i.
Proof.
  unfold nthz. destruct (Z.ltb_spec i 0); [split; auto|].
  rewrite lookup_ge_None. lia.
Qed.

(** ** Consecutive cycles

    [next] is a cycle, and gives nothing when it fails; [reaches] holds of a state when
    the condition holds after finitely many cycles. *)
Section Cycles.
  Context {T : Type} (next : T → option T).

Fixpoint cycles (n : nat) (x : T) : option T :=
  match n with
  | O => Some x
  | S n => match next x with Some x' => cycles n x' | None => None end
  end.
Definition reaches (x : T) (Q : T → Prop) : Prop := ∃ n x', cycles n x = Some x' ∧ Q x'.

Lemma cycles_add m n x :
  cycles (m + n) x = match cycles m x with Some x' => cycles n x' | None => None end.
Proof. revert x. induction m as [|m IH]; intros x; simpl; [done|]. by destruct (next x). Qed.
Lemma reaches_here x (Q : T → Prop) : Q x → reaches x Q.
Proof. intros HQ. by exists 0%nat, x. Qed.
Lemma reaches_step x x' Q : next x = Some x' → reaches x' Q → reaches x Q.
Proof. intros E (n & x1 & Hn & HQ). exists (S n), x1. simpl. by rewrite E. Qed.
Lemma reaches_trans x P Q : reaches x P → (∀ x', P x' → reaches x' Q) → reaches x Q.
Proof.
  intros (n & x1 & Hr & HP) HQ. specialize (HQ _ HP). revert x Hr.
  induction n as [|n IH]; intros x Hr; simpl in Hr; [by injection Hr as ->|].
  destruct (next x) as [x2|] eqn:E; [|done]. eapply reaches_step; [exact E|]. by apply IH.
Qed.
End Cycles.

(** An action that raises nothing, as a cycle. *)
Definition quietly {S : Type} (m : M S unit) (s : S) : option S :=
  match m s with Some (_, s', []) => Some s' | _ => None end.

(** [keeps] goals follow the structure of the action; the assignments that
    matter to the relation, and the calls no hint covers, are left. *)
Ltac keeps1 :=
  lazymatch goal with
  | |- keeps _ (mret _) => apply (keeps_ret _)
  | |- keeps _ (bindM _ _) => apply (keeps_bind _); [|intros ?]
  | |- keeps _ (_ <$> _) => apply (keeps_fmap _)
  | |- keeps _ crash => apply keeps_crash
  | |- keeps _ (gets _) => apply (keeps_gets _)
  | |- keeps _ (raise _ _ _ _) => apply (keeps_raise _)
  | |- keeps _ (when _ _) => apply (keeps_when _)
  | |- keeps _ (from_option _) => apply (keeps_from_option _)
  | |- keeps _ (for_each _ _) => apply (keeps_for_each _); intros ?
  | |- keeps _ (for_range _ _ _) => apply (keeps_for_range _); intros ?
  | |- keeps _ (aget _ _) => apply (keeps_aget _)
  | |- keeps _ (modify _) => apply keeps_modify; try done
  | |- keeps _ (assign _ _) => apply keeps_assign; try done
  | |- keeps _ (if ?b then _ else _) => destruct b eqn:?
  | |- keeps _ (match ?x with _ => _ end) => destruct x eqn:?
  | |- keeps _ (let _ := _ in _) => cbv zeta
  | |- keeps _ (aset _ _ _) => unfold aset
  | |- PreOrder _ => typeclasses eauto
  end.
Ltac keeps_tac := repeat first [keeps1 | solve [eauto with keeps nocore]].
