(* ===== verification/Types.v ===== *)
(** * Types: access modes, exception codes and byte order

    The constants of accesstypes.h and excnames.h, and the byte order
    conversions of mapper.cc that every memory-mapped component shares. *)

From S2P Require Import Prelude.

(** ** accesstypes.h *)

Definition INSTFETCH : Z := 0.
Definition DATALOAD : Z := 1.
Definition DATASTORE : Z := 2.
Definition ANY : Z := 3.
Definition MEM_READ : Z := 1.
Definition MEM_WRITE : Z := 2.
Definition MEM_READ_WRITE : Z := 3.

(** ** excnames.h *)

Definition Int : Z := 0.
Definition Mod : Z := 1.
Definition TLBL : Z := 2.
Definition TLBS : Z := 3.
Definition AdEL : Z := 4.
Definition AdES : Z := 5.
Definition IBE : Z := 6.
Definition DBE : Z := 7.
Definition Sys : Z := 8.
Definition Bp : Z := 9.
Definition RI : Z := 10.
Definition CpU : Z := 11.
Definition Ov : Z := 12.
Definition Tr : Z := 13.

(** ** Byte order (mapper.cc) *)

(** [byteswapped] as the constructor of [Mapper] computes it. *)
Definition byteswapped_of (opt_bigendian host_bigendian : bool) : bool :=
  (opt_bigendian && negb host_bigendian) || (negb opt_bigendian && host_bigendian).

Definition swap_word (w : Z) : Z :=
  Z.lor (Z.lor (Z.lor (u32 (Z.shiftl (Z.land w 0xff) 24))
                      (Z.shiftl (Z.land (Z.shiftr w 8) 0xff) 16))
               (Z.shiftl (Z.land (Z.shiftr w 16) 0xff) 8))
        (Z.land (Z.shiftr w 24) 0xff).

Definition swap_halfword (h : Z) : Z :=
  u16 (Z.lor (Z.shiftl (Z.land h 0xff) 8) (Z.land (Z.shiftr h 8) 0xff)).

Section Conversions.
  Variable byteswapped : bool.

Definition mips_to_host_word (w : Z) : Z := if byteswapped then swap_word w else w.
Definition host_to_mips_word (w : Z) : Z := if byteswapped then swap_word w else w.
Definition mips_to_host_halfword (h : Z) : Z :=
  if byteswapped then swap_halfword h else h.
Definition host_to_mips_halfword (h : Z) : Z :=
  if byteswapped then swap_halfword h else h.

End Conversions.

(** ** The bytes of a word *)

(** The [k]-th byte of [w] in the order of memory of a machine of the given
    endianness, on [n] bytes. *)
Definition byte_of (big : bool) (n w k : Z) : Z :=
  Z.land (Z.shiftr w (8 * (if big then n - 1 - k else k))) 0xff.

(** The word whose bytes in memory are [b0 b1 b2 b3]. *)
Definition word_of_bytes (big : bool) (b0 b1 b2 b3 : Z) : Z :=
  if big then
    Z.lor (Z.lor (Z.lor (Z.shiftl b0 24) (Z.shiftl b1 16)) (Z.shiftl b2 8)) b3
  else
    Z.lor (Z.lor (Z.lor (Z.shiftl b3 24) (Z.shiftl b2 16)) (Z.shiftl b1 8)) b0.

Definition half_of_bytes (big : bool) (b0 b1 : Z) : Z :=
  if big then Z.lor (Z.shiftl b0 8) b1 else Z.lor (Z.shiftl b1 8) b0.

Lemma byte_range big n w k : is_u8 (byte_of big n w k).
Proof.
  unfold byte_of. change 0xff with (Z.ones 8). rewrite Z.land_ones by lia.
  apply (wrap_range 8); lia.
Qed.

Lemma swap_word_range w : is_u32 w → is_u32 (swap_word w).
Proof.
  intros. apply is_u_bits; [lia|]. change (wrap 32) with u32. unfold swap_word.
  bitblast i.
Qed.

Lemma swap_halfword_range w : is_u16 (swap_halfword w).
Proof. apply (wrap_range 16); lia. Qed.

Lemma swap_word_bytes w k : is_u32 w → 0 ≤ k < 4 →
  byte_of true 4 (swap_word w) k = byte_of false 4 w k.
Proof.
  intros Hw Hk. assert (k = 0 ∨ k = 1 ∨ k = 2 ∨ k = 3) as [ -> | [ -> | [ -> | -> ]]] by lia;
    unfold byte_of, swap_word; cbn [Z.mul Z.sub Z.add Z.opp Z.pos_sub Pos.mul]; bitblast i.
Qed.

Lemma swap_word_involutive w : is_u32 w → swap_word (swap_word w) = w.
Proof. intros Hw. unfold swap_word. bitblast i. Qed.

Lemma swap_halfword_involutive h : is_u16 h → swap_halfword (swap_halfword h) = h.
Proof. intros Hh. unfold swap_halfword. bitblast i. Qed.

Lemma host_mips_word bs w : is_u32 w → host_to_mips_word bs (mips_to_host_word bs w) = w.
Proof. destruct bs; simpl; [apply swap_word_involutive|done]. Qed.

Lemma host_mips_halfword bs h :
  is_u16 h → host_to_mips_halfword bs (mips_to_host_halfword bs h) = h.
Proof. destruct bs; simpl; [apply swap_halfword_involutive|done]. Qed.

(** A word is the word of its bytes. *)
Lemma word_of_byte_of big w : is_u32 w →
  word_of_bytes big (byte_of big 4 w 0) (byte_of big 4 w 1)
                    (byte_of big 4 w 2) (byte_of big 4 w 3) = w.
Proof.
  intros Hw. destruct big; unfold word_of_bytes, byte_of;
    cbn [Z.mul Z.sub Z.add Z.opp Z.pos_sub Pos.mul]; bitblast i.
Qed.

Lemma half_of_byte_of big h : is_u16 h →
  half_of_bytes big (byte_of big 2 h 0) (byte_of big 2 h 1) = h.
Proof.
  intros Hh. destruct big; unfold half_of_bytes, byte_of;
    cbn [Z.mul Z.sub Z.add Z.opp Z.pos_sub Pos.mul]; bitblast i.
Qed.

Lemma word_of_bytes_range big b0 b1 b2 b3 :
  is_u8 b0 → is_u8 b1 → is_u8 b2 → is_u8 b3 → is_u32 (word_of_bytes big b0 b1 b2 b3).
Proof.
  intros. apply is_u_bits; [lia|]. change (wrap 32) with u32.
  destruct big; unfold word_of_bytes; bitblast i.
Qed.

Lemma half_of_bytes_range big b0 b1 :
  is_u8 b0 → is_u8 b1 → is_u16 (half_of_bytes big b0 b1).
Proof.
  intros. apply is_u_bits; [lia|]. change (wrap 16) with u16.
  destruct big; unfold half_of_bytes; bitblast i.
Qed.

(** Writing a word the host's way after the conversion from the target's byte
    order leaves the bytes in the target's order. *)
Lemma mips_word_bytes big host w k : is_u32 w → 0 ≤ k < 4 →
  byte_of host 4 (mips_to_host_word (byteswapped_of big host) w) k = byte_of big 4 w k.
Proof.
  intros Hw Hk. pose proof (swap_word_bytes w k Hw Hk) as Hs.
  destruct big, host; simpl; try done.
  rewrite <- (swap_word_bytes (swap_word w)), swap_word_involutive;
    auto using swap_word_range.
Qed.

Lemma swap_halfword_bytes h k : is_u16 h → 0 ≤ k < 2 →
  byte_of true 2 (swap_halfword h) k = byte_of false 2 h k.
Proof.
  intros Hw Hk. assert (k = 0 ∨ k = 1) as [ -> | -> ] by lia;
    unfold byte_of, swap_halfword; cbn [Z.mul Z.sub Z.add Z.opp Z.pos_sub Pos.mul]; bitblast i.
Qed.

Lemma mips_half_bytes big host h k : is_u16 h → 0 ≤ k < 2 →
  byte_of host 2 (mips_to_host_halfword (byteswapped_of big host) h) k = byte_of big 2 h k.
Proof.
  intros Hw Hk. pose proof (swap_halfword_bytes h k Hw Hk) as Hs.
  destruct big, host; simpl; try done.
  rewrite <- (swap_halfword_bytes (swap_halfword h)), swap_halfword_involutive;
    auto using swap_halfword_range.
Qed.

Lemma mips_to_host_word_range bs w : is_u32 w → is_u32 (mips_to_host_word bs w).
Proof. destruct bs; simpl; auto using swap_word_range. Qed.

Lemma mips_to_host_halfword_range bs h : is_u16 h → is_u16 (mips_to_host_halfword bs h).
Proof. destruct bs; simpl; auto using swap_halfword_range. Qed.
