(* ===== verification/Bus.v ===== *)
(** * Bus: the bus arbiter (busarbiter.h, busarbiter.cc)

    One master holds the bus at a time; a master that releases it lets nobody
    take it again in the same cycle.  Clients are the pointers to the
    [DeviceExc] that own the requests. *)

From S2P Require Import Prelude Effects Types.

Module BusArbiter.

Record t := Mk {
  last_released_cycle : Z;      (* int32 *)
  bus_holder : option Z         (* DeviceExc*, [None] for nullptr *)
}.
#[global] Instance eta : Eta t := λ b, Mk (last_released_cycle b) (bus_holder b).

#[global] Instance t_eq_dec : EqDecision t.
Proof. solve_decision. Defined.

(** [BusArbiter::BusArbiter] *)
Definition BusArbiter : t := {| last_released_cycle := 0; bus_holder := None |}.

(** [acquire_bus], called in cycle [now] ([machine->num_cycles], a [uint32]:
    the comparison converts the [int32] field to unsigned). *)
Definition acquire_bus (now : Z) (client : Z) : M t bool :=
  last ← gets last_released_cycle;
  holder ← gets bus_holder;
  if u32 last =? now then mret false
  else match holder with
       | None => bus_holder <~ Some client;; mret true
       | Some h => mret (client =? h)
       end.

Definition release_bus (now : Z) (client : Z) : M t unit :=
  holder ← gets bus_holder;
  when (bool_decide (holder = Some client))
    (bus_holder <~ None;; last_released_cycle <~ s32 now).

(** ** Runs of the arbiter

    The calls the masters make in one run of the machine: in cycle [now], by a
    client. *)
Inductive call := Acquire (now client : Z) | Release (now client : Z) .

Definition do_call (c : call) (b : t) : option (option bool * t) :=
  match c with
  | Acquire now cl =>
      match acquire_bus now cl b with
      | Some (r, b', _) => Some (Some r, b') | None => None end
  | Release now cl =>
      match release_bus now cl b with
      | Some (_, b', _) => Some (None, b') | None => None end
  end.

(** The answers to a sequence of calls. *)
Fixpoint run (cs : list call) (b : t) : option (list (option bool) * t) :=
  match cs with
  | [] => Some ([], b)
  | c :: cs =>
      match do_call c b with
      | None => None
      | Some (r, b') =>
          match run cs b' with
          | None => None
          | Some (rs, b'') => Some (r :: rs, b'')
          end
      end
  end.

(** ** Lemmas *)

Lemma acquire_eq now cl b :
  acquire_bus now cl b =
    if u32 (last_released_cycle b) =? now then Some (false, b, [])
    else match bus_holder b with
         | None => Some (true, b <| bus_holder := Some cl |>, [])
         | Some h => Some (cl =? h, b, [])
         end.
Proof.
  unfold acquire_bus. munfold. destruct b as [l h]; simpl.
  destruct (u32 l =? now); [done|]. by destruct h.
Qed.

Lemma release_eq now cl b :
  release_bus now cl b =
    Some ((), if bool_decide (bus_holder b = Some cl)
              then Mk (s32 now) None else b, []).
Proof. unfold release_bus. munfold. by destruct (bool_decide _). Qed.

Lemma do_call_total c b : ∃ r b', do_call c b = Some (r, b').
Proof.
  destruct c; simpl.
  - rewrite acquire_eq. destruct (_ =? _); [eauto|]. destruct (bus_holder b); eauto.
  - rewrite release_eq. eauto.
Qed.

Lemma run_total cs : ∀ b, ∃ rs b', run cs b = Some (rs, b').
Proof.
  induction cs as [|c cs IH]; intros b; simpl; [eauto|].
  destruct (do_call_total c b) as (r & b1 & ->).
  destruct (IH b1) as (rs & b2 & ->). eauto.
Qed.

Definition is_release_by (h : Z) (c : call) : Prop :=
  match c with Release _ cl => cl = h | _ => False end.

(** While [h] holds the bus and does not release it, it stays the holder. *)
Lemma holder_stays h cs : ∀ b rs b',
  bus_holder b = Some h → Forall (λ c, ¬ is_release_by h c) cs →
  run cs b = Some (rs, b') → bus_holder b' = Some h.
Proof.
  induction cs as [|c cs IH]; intros b rs b' Hb Hcs Hrun; simpl in Hrun.
  { by injection Hrun as _ <-. }
  apply Forall_cons in Hcs as [Hc Hcs].
  destruct (do_call c b) as [[r b1]|] eqn:E; [|done].
  destruct (run cs b1) as [[rs1 b2]|] eqn:E2; [|done].
  injection Hrun as <- <-. apply (IH _ _ _) with (2 := Hcs) (3 := E2).
  destruct c as [now cl|now cl]; simpl in *.
  - rewrite acquire_eq, Hb in E. by destruct (_ =? _); injection E as <- <-.
  - rewrite release_eq in E. case_bool_decide as Hd; injection E as <- <-; [|done].
    congruence.
Qed.

(** ** Properties *)

(** C24 mutual exclusion on the bus: once the arbiter granted the bus to a client,
    no other client is granted it, whatever all masters call in between, as long
    as the holder does not release it. *)
Theorem mutual_exclusion (b : t) (c1 c2 now1 now2 : Z) (cs : list call)
    (b1 b2 b3 : t) (e1 e2 : list exc_event) rs
    (Hne : c1 ≠ c2)
    (H1 : acquire_bus now1 c1 b = Some (true, b1, e1))
    (Hcs : Forall (λ c, ¬ is_release_by c1 c) cs)
    (Hrun : run cs b1 = Some (rs, b2)) :
  acquire_bus now2 c2 b2 = Some (false, b2, []).
Proof.
  assert (Hb1 : bus_holder b1 = Some c1).
  { rewrite acquire_eq in H1. destruct (_ =? _); [done|].
    destruct (bus_holder b) eqn:E; [|by injection H1 as <- <-].
    injection H1 as Hc <- <-. apply Z.eqb_eq in Hc. congruence. }
  pose proof (holder_stays c1 cs _ _ _ Hb1 Hcs Hrun) as Hb2.
  rewrite acquire_eq, Hb2. destruct (_ =? _); [done|].
  by rewrite (proj2 (Z.eqb_neq c2 c1)) by congruence.
Qed.

Lemma mutual_exclusion_witness :
  acquire_bus 5 2 (Mk 3 (Some 1)) = Some (false, Mk 3 (Some 1), []).
Proof.
  apply (mutual_exclusion (Mk 3 None) 1 2 5 5 [Acquire 5 1; Release 5 2; Acquire 6 2]
    (Mk 3 (Some 1)) (Mk 3 (Some 1)) (Mk 3 None) [] []
    [Some true; None; Some false]); try reflexivity; [lia|].
  repeat constructor; simpl; lia.
Defined.

(** A bus that its holder releases rests for the cycle: every acquisition in
    the same cycle fails, and the first one in another cycle succeeds. *)
Theorem released_bus_rests (b b' : t) (now c c' : Z) (e : list exc_event)
    (Hnow : is_u32 now) (Hh : bus_holder b = Some c)
    (Hr : release_bus now c b = Some ((), b', e)) :
  acquire_bus now c' b' = Some (false, b', []) ∧
  ∀ later, later ≠ now →
    acquire_bus later c' b' = Some (true, b' <| bus_holder := Some c' |>, []).
Proof.
  rewrite release_eq, bool_decide_eq_true_2 in Hr by done. injection Hr as <- <-.
  assert (E : u32 (s32 now) = now).
  { unfold u32, s32. rewrite wrap_swrap by lia. by apply wrap_small. }
  split.
  - rewrite acquire_eq. simpl. by rewrite E, Z.eqb_refl.
  - intros later Hl. rewrite acquire_eq. simpl.
    by rewrite E, (proj2 (Z.eqb_neq now later)) by congruence.
Qed.

Lemma released_bus_rests_witness :
  acquire_bus 7 2 (Mk 7 None) = Some (false, Mk 7 None, []) ∧
  ∀ later, later ≠ 7 →
    acquire_bus later 2 (Mk 7 None) = Some (true, Mk 7 (Some 2), []).
Proof.
  apply (released_bus_rests (Mk 0 (Some 1)) (Mk 7 None) 7 1 2 []);
    [split; lia|reflexivity|reflexivity].
Defined.

End BusArbiter.
