(* ===== verification/Range.v ===== *)
(** * Range: ranges of mapped memory (range.h, range.cc, memorymodule.h,
      rommodule.h, devicemap.cc)

    A range is a base, an extent and the operations the mapper calls on it.
    The mapper only knows ranges through the virtual methods of [Range], so
    they are an interface here, [RangeOps], over the store [W] of the objects
    that the ranges point to.  [Ram] is the base class itself, backed by a
    block of host memory; [DeviceMap] derives the narrow accesses of a device
    from its word accesses. *)

From S2P Require Import Prelude Effects Types.

(** ** The interface of the mapper to its ranges

    [W] holds the objects, a range is the pointer ([Z]) to one of them. *)
Class RangeOps (W : Type) := {
  getBase : W → Z → Z;
  getExtent : W → Z → Z;
  setBase : Z → Z → M W unit;
  canRead : W → Z → Z → bool;                       (* range, offset *)
  canWrite : W → Z → Z → bool;
  r_fetch_word : Z → Z → Z → Z → M W Z;             (* range, offset, mode, client *)
  r_fetch_halfword : Z → Z → Z → M W Z;             (* range, offset, client *)
  r_fetch_byte : Z → Z → Z → M W Z;
  r_store_word : Z → Z → Z → Z → M W unit;          (* range, offset, data, client *)
  r_store_halfword : Z → Z → Z → Z → M W unit;
  r_store_byte : Z → Z → Z → Z → M W unit;
  r_ready : Z → Z → Z → Z → M W bool;               (* range, address, mode, client *)
  r_extra_latency : W → Z → Z
}.

(** Two stores give every range the same place in the address space. *)
Definition same_place {W} `{RangeOps W} (w w' : W) : Prop :=
  ∀ r, getBase w' r = getBase w r ∧ getExtent w' r = getExtent w r.

#[export] Instance same_place_preorder {W} `{RangeOps W} : PreOrder (same_place (W := W)).
Proof.
  split; [done|]. intros w1 w2 w3 H1 H2 r. destruct (H1 r), (H2 r). split; congruence.
Qed.

(** What every range promises: an access does not move any range. *)
Class RangeLaws (W : Type) `{RangeOps W} := {
  fetch_word_place r o m c : keeps same_place (r_fetch_word r o m c);
  fetch_halfword_place r o c : keeps same_place (r_fetch_halfword r o c);
  fetch_byte_place r o c : keeps same_place (r_fetch_byte r o c);
  store_word_place r o d c : keeps same_place (r_store_word r o d c);
  store_halfword_place r o d c : keeps same_place (r_store_halfword r o d c);
  store_byte_place r o d c : keeps same_place (r_store_byte r o d c);
  ready_place r a m c : keeps same_place (r_ready r a m c);
  setBase_place r b w w' e : setBase r b w = Some ((), w', e) →
    ∀ r', r' ≠ r → getBase w' r' = getBase w r' ∧ getExtent w' r' = getExtent w r'
}.
#[export] Hint Resolve fetch_word_place fetch_halfword_place fetch_byte_place store_word_place
  store_halfword_place store_byte_place ready_place : keeps.

(** ** [Range::incorporates] and [Range::overlaps]

    Both see the ranges through [getBase] and [getExtent]; sums are [uint32]. *)
Section Places.
  Context {W : Type} `{RangeOps W} (w : W).

Definition incorporates (r addr : Z) : bool :=
  let base := getBase w r in
  (base <=? addr) && (addr <? u32 (base + getExtent w r)).

Definition overlaps (r r2 : Z) : bool :=
  let end_ := u32 (getBase w r + getExtent w r) in
  let r_end := u32 (getBase w r2 + getExtent w r2) in
  if (getBase w r <=? getBase w r2) && (getBase w r2 <? end_) then true
  else if (getBase w r2 <=? getBase w r) && (getBase w r <? r_end) then true
  else if (getBase w r2 <=? getBase w r) && (end_ <=? r_end) then true
  else (getBase w r <=? getBase w r2) && (r_end <=? end_).

(** A range that does not reach the top of the address space. *)
Definition proper_range (r : Z) : Prop :=
  0 ≤ getBase w r ∧ 0 < getExtent w r ∧ getBase w r + getExtent w r < 2 ^ 32.

Lemma overlaps_spec r r2 : proper_range r → proper_range r2 →
  overlaps r r2 = true ↔ ∃ a, incorporates r a = true ∧ incorporates r2 a = true.
Proof.
  intros (B1 & E1 & T1) (B2 & E2 & T2). unfold overlaps, incorporates.
  rewrite !u32_small by lia.
  split.
  - intros Ho. exists (Z.max (getBase w r) (getBase w r2)).
    repeat match type of Ho with
    | context [?a <=? ?b] => destruct (Z.leb_spec a b)
    | context [?a <? ?b] => destruct (Z.ltb_spec a b)
    end; simpl in Ho; try done; rewrite !andb_true_iff, !Z.leb_le, !Z.ltb_lt; lia.
  - intros (a & H1 & H2).
    rewrite andb_true_iff, Z.leb_le, Z.ltb_lt in H1, H2.
    repeat match goal with
    | |- context [?a <=? ?b] => destruct (Z.leb_spec a b); simpl; try done; try lia
    | |- context [?a <? ?b] => destruct (Z.ltb_spec a b); simpl; try done; try lia
    end.
Qed.

End Places.

Lemma incorporates_place {W} `{RangeOps W} (w w' : W) r a :
  same_place w w' → incorporates w' r a = incorporates w r a.
Proof. intros Hp. unfold incorporates. by destruct (Hp r) as [-> ->]. Qed.

(** ** [Range] itself: a block of host memory *)
Module Ram.

Record t := Mk {
  base : Z;              (* uint32 *)
  extent : Z;            (* uint32 *)
  address : list Z;      (* the bytes of the host block [address] points to *)
  perms : Z;
  read_count : Z;        (* int *)
  write_count : Z;       (* int *)
  latency : Z            (* MemoryModule::latency, ROMModule::latency *)
}.
#[global] Instance eta : Eta t := λ r,
  Mk (base r) (extent r) (address r) (perms r) (read_count r) (write_count r) (latency r).

(** [MemoryModule (size, latency)] without an initial image: [size / 4] zero
    words. *)
Definition MemoryModule (size latency_ : Z) : t := {|
  base := 0; extent := size;
  address := replicate (Z.to_nat (4 * (size / 4))) 0;
  perms := MEM_READ_WRITE; read_count := 0; write_count := 0; latency := latency_
|}.

(** [ROMModule (fp, latency)], with the bytes of the file. *)
Definition ROMModule (data : list Z) (latency_ : Z) : t := {|
  base := 0; extent := Z.of_nat (length data); address := data;
  perms := MEM_READ_WRITE; read_count := 0; write_count := 0; latency := latency_
|}.

Section Host.
  (** [machine->host_bigendian] *)
  Variable host_bigendian : bool.

(** The word, and the halfword, at byte [i] of the block; [None] when it leaves
    the block. *)
Definition load_word (r : t) (i : Z) : option Z :=
  (b0 ← nthz (address r) i; b1 ← nthz (address r) (i + 1);
  b2 ← nthz (address r) (i + 2); b3 ← nthz (address r) (i + 3);
  Some (word_of_bytes host_bigendian b0 b1 b2 b3))%stdpp.

Definition load_half (r : t) (i : Z) : option Z :=
  (b0 ← nthz (address r) i; b1 ← nthz (address r) (i + 1);
  Some (half_of_bytes host_bigendian b0 b1))%stdpp.

Definition put_word (l : list Z) (i w : Z) : option (list Z) :=
  (l ← setz l i (byte_of host_bigendian 4 w 0);
  l ← setz l (i + 1) (byte_of host_bigendian 4 w 1);
  l ← setz l (i + 2) (byte_of host_bigendian 4 w 2);
  setz l (i + 3) (byte_of host_bigendian 4 w 3))%stdpp.

Definition put_half (l : list Z) (i h : Z) : option (list Z) :=
  (l ← setz l i (byte_of host_bigendian 2 h 0);
  setz l (i + 1) (byte_of host_bigendian 2 h 1))%stdpp.

Definition fetch_word (offset mode client : Z) : M t Z :=
  modify (λ r, r <| read_count ::= λ n, s32 (n + 1) |>);;
  r ← gets id; from_option (load_word r (4 * (offset / 4))).

Definition fetch_halfword (offset client : Z) : M t Z :=
  modify (λ r, r <| read_count ::= λ n, s32 (n + 1) |>);;
  r ← gets id; from_option (load_half r (2 * (offset / 2))).

Definition fetch_byte (offset client : Z) : M t Z :=
  modify (λ r, r <| read_count ::= λ n, s32 (n + 1) |>);;
  aget address offset.

Definition store_word (offset data client : Z) : M t unit :=
  modify (λ r, r <| write_count ::= λ n, s32 (n + 1) |>);;
  l ← gets address;
  l' ← from_option (put_word l (4 * (offset / 4)) data);
  address <~ l'.

Definition store_halfword (offset data client : Z) : M t unit :=
  modify (λ r, r <| write_count ::= λ n, s32 (n + 1) |>);;
  l ← gets address;
  l' ← from_option (put_half l (2 * (offset / 2)) data);
  address <~ l'.

Definition store_byte (offset data client : Z) : M t unit :=
  modify (λ r, r <| write_count ::= λ n, s32 (n + 1) |>);;
  aset address offset data.

End Host.

Definition can_read (r : t) (offset : Z) : bool := nz (Z.land (perms r) MEM_READ).
Definition can_write (r : t) (offset : Z) : bool := nz (Z.land (perms r) MEM_WRITE).
(** [Range::ready] and the [extra_latency] of the memory modules. *)
Definition ready (offset mode client : Z) : M t bool := mret true.
Definition extra_latency (r : t) : Z := latency r.

(** A store where pointers are keys of a map to memory ranges. *)
Notation store := (gmap Z t).

#[export] Instance store_ops (host_bigendian : bool) : RangeOps store := {|
  getBase w r := default 0 (base <$> w !! r);
  getExtent w r := default 0 (extent <$> w !! r);
  setBase r b := zoom_key id r (base <~ b);
  canRead w r o := default false ((λ x, can_read x o) <$> w !! r);
  canWrite w r o := default false ((λ x, can_write x o) <$> w !! r);
  r_fetch_word r o m c := zoom_key id r (fetch_word host_bigendian o m c);
  r_fetch_halfword r o c := zoom_key id r (fetch_halfword host_bigendian o c);
  r_fetch_byte r o c := zoom_key id r (fetch_byte o c);
  r_store_word r o d c := zoom_key id r (store_word host_bigendian o d c);
  r_store_halfword r o d c := zoom_key id r (store_halfword host_bigendian o d c);
  r_store_byte r o d c := zoom_key id r (store_byte o d c);
  r_ready r a m c := zoom_key id r (ready a m c);
  r_extra_latency w r := default 0 (extra_latency <$> w !! r)
|}.

(** ** Lemmas *)

(** The bytes are bytes. *)
Definition bytes_ok (l : list Z) : Prop := Forall is_u8 l.

Lemma bytes_ok_nthz l i b : bytes_ok l → nthz l i = Some b → is_u8 b.
Proof. intros Hl [_ Hb]%nthz_Some. eapply Forall_lookup_1 in Hb; eauto. Qed.

Lemma setz_ok l i b l' : setz l i b = Some l' → bytes_ok l → is_u8 b → bytes_ok l'.
Proof.
  intros Hs Hl Hb. rewrite setz_Some in Hs by eauto using setz_is_Some.
  injection Hs as <-. by apply Forall_insert.
Qed.

Section HostLemmas.
  Variable host : bool.

Lemma put_word_spec l i w l' : put_word host l i w = Some l' →
  length l' = length l ∧ 0 ≤ i ∧ i + 3 < Z.of_nat (length l) ∧
  (∀ k, 0 ≤ k < 4 → nthz l' (i + k) = Some (byte_of host 4 w k)) ∧
  (∀ j, j < i ∨ i + 4 ≤ j → nthz l' j = nthz l j) ∧
  (bytes_ok l → bytes_ok l').
Proof.
  unfold put_word. intros H.
  apply bind_Some in H as (l0 & H0 & H). apply bind_Some in H as (l1 & H1 & H).
  apply bind_Some in H as (l2 & H2 & H3).
  pose proof (setz_length _ _ _ _ H0). pose proof (setz_length _ _ _ _ H1).
  pose proof (setz_length _ _ _ _ H2). pose proof (setz_length _ _ _ _ H3).
  pose proof (setz_is_Some _ _ _ _ H0). pose proof (setz_is_Some _ _ _ _ H3).
  split_and!; try lia.
  - intros k Hk.
    rewrite (nthz_setz _ _ _ _ _ H3), (nthz_setz _ _ _ _ _ H2),
      (nthz_setz _ _ _ _ _ H1), (nthz_setz _ _ _ _ _ H0).
    assert (k = 0 ∨ k = 1 ∨ k = 2 ∨ k = 3) as [-> | [-> | [-> | ->]]] by lia;
      repeat (case (Z.eqb_spec _ _); intros; try lia); done.
  - intros j Hj.
    rewrite (nthz_setz _ _ _ _ _ H3), (nthz_setz _ _ _ _ _ H2),
      (nthz_setz _ _ _ _ _ H1), (nthz_setz _ _ _ _ _ H0).
    repeat (case (Z.eqb_spec _ _); intros; try lia); done.
  - intros Hl. eauto 10 using setz_ok, byte_range.
Qed.

Lemma put_word_total l i w : 0 ≤ i → i + 3 < Z.of_nat (length l) →
  ∃ l', put_word host l i w = Some l'.
Proof.
  intros. unfold put_word. do 4 (rewrite setz_Some by (rewrite ?length_insert; lia); simpl).
  eauto.
Qed.

Lemma put_half_spec l i h l' : put_half host l i h = Some l' →
  length l' = length l ∧ 0 ≤ i ∧ i + 1 < Z.of_nat (length l) ∧
  (∀ k, 0 ≤ k < 2 → nthz l' (i + k) = Some (byte_of host 2 h k)) ∧
  (∀ j, j < i ∨ i + 2 ≤ j → nthz l' j = nthz l j) ∧
  (bytes_ok l → bytes_ok l').
Proof.
  unfold put_half. intros H. apply bind_Some in H as (l0 & H0 & H1).
  pose proof (setz_length _ _ _ _ H0). pose proof (setz_length _ _ _ _ H1).
  pose proof (setz_is_Some _ _ _ _ H0). pose proof (setz_is_Some _ _ _ _ H1).
  split_and!; try lia.
  - intros k Hk. rewrite (nthz_setz _ _ _ _ _ H1), (nthz_setz _ _ _ _ _ H0).
    assert (k = 0 ∨ k = 1) as [-> | ->] by lia;
      repeat (case (Z.eqb_spec _ _); intros; try lia); done.
  - intros j Hj. rewrite (nthz_setz _ _ _ _ _ H1), (nthz_setz _ _ _ _ _ H0).
    repeat (case (Z.eqb_spec _ _); intros; try lia); done.
  - intros Hl. eauto 10 using setz_ok, byte_range.
Qed.

Lemma put_half_total l i h : 0 ≤ i → i + 1 < Z.of_nat (length l) →
  ∃ l', put_half host l i h = Some l'.
Proof.
  intros. unfold put_half. do 2 (rewrite setz_Some by (rewrite ?length_insert; lia); simpl).
  eauto.
Qed.

Lemma load_word_of_bytes r i w : is_u32 w →
  (∀ k, 0 ≤ k < 4 → nthz (address r) (i + k) = Some (byte_of host 4 w k)) →
  load_word host r i = Some w.
Proof.
  intros Hw Hb. unfold load_word.
  assert (E : nthz (address r) i = Some (byte_of host 4 w 0))
    by (rewrite <- Hb by lia; f_equal; lia).
  rewrite E, (Hb 1), (Hb 2), (Hb 3) by lia. simpl. by rewrite word_of_byte_of.
Qed.

Lemma load_half_of_bytes r i h : is_u16 h →
  (∀ k, 0 ≤ k < 2 → nthz (address r) (i + k) = Some (byte_of host 2 h k)) →
  load_half host r i = Some h.
Proof.
  intros Hw Hb. unfold load_half.
  assert (E : nthz (address r) i = Some (byte_of host 2 h 0))
    by (rewrite <- Hb by lia; f_equal; lia).
  rewrite E, (Hb 1) by lia. simpl. by rewrite half_of_byte_of.
Qed.

(** The equations of the accesses. *)
Lemma fetch_word_eq o m c r : fetch_word host o m c r =
  (λ w, (w, r <| read_count ::= λ n, s32 (n + 1) |>, [])) <$> load_word host r (4 * (o / 4)).
Proof.
  unfold fetch_word. munfold.
  change (load_word host (Ram.Mk _ _ _ _ _ _ _)) with (load_word host r).
  destruct (load_word _ _ _); done.
Qed.

Lemma fetch_halfword_eq o c r : fetch_halfword host o c r =
  (λ h, (h, r <| read_count ::= λ n, s32 (n + 1) |>, [])) <$> load_half host r (2 * (o / 2)).
Proof.
  unfold fetch_halfword. munfold.
  change (load_half host (Ram.Mk _ _ _ _ _ _ _)) with (load_half host r).
  destruct (load_half _ _ _); done.
Qed.

Lemma store_halfword_eq o d c r : store_halfword host o d c r =
  (λ l, ((), r <| write_count ::= λ n, s32 (n + 1) |> <| address := l |>, []))
    <$> put_half host (address r) (2 * (o / 2)) d.
Proof. unfold store_halfword. munfold. simpl. destruct (put_half _ _ _ _); done. Qed.

Lemma store_byte_eq o d c r : store_byte o d c r =
  (λ l, ((), r <| write_count ::= λ n, s32 (n + 1) |> <| address := l |>, []))
    <$> setz (address r) o d.
Proof. unfold store_byte. munfold. simpl. destruct (setz _ _ _); done. Qed.

Lemma fetch_byte_eq o c r : fetch_byte o c r =
  (λ b, (b, r <| read_count ::= λ n, s32 (n + 1) |>, [])) <$> nthz (address r) o.
Proof. unfold fetch_byte. munfold. simpl. destruct (nthz _ _); done. Qed.

Lemma store_word_eq o d c r : store_word host o d c r =
  (λ l, ((), r <| write_count ::= λ n, s32 (n + 1) |> <| address := l |>, []))
    <$> put_word host (address r) (4 * (o / 4)) d.
Proof. unfold store_word. munfold. simpl. destruct (put_word _ _ _ _); done. Qed.

End HostLemmas.

(** No access moves a range or changes its size. *)
Definition placed (r r' : t) : Prop := base r' = base r ∧ extent r' = extent r.
#[export] Instance placed_preorder : PreOrder placed.
Proof. split; [done|]. intros x y z [] []. split; congruence. Qed.

Lemma keeps_zoom_placed host {A} r (m : M t A) :
  keeps placed m → keeps (@same_place _ (store_ops host)) (zoom_key id r m).
Proof.
  intros Hm w a w' e (x & x' & E & E1 & ->)%zoom_key_Some r'.
  destruct (Hm _ _ _ _ E1) as [Hb He]. cbn. unfold setter_id, id in *.
  destruct (decide (r' = r)) as [->|].
  - rewrite lookup_insert_eq. unfold id in E. rewrite E. simpl. auto.
  - by rewrite lookup_insert_ne by done.
Qed.

#[export] Instance store_laws host : RangeLaws store (H := store_ops host).
Proof.
  split; cbn;
    try (intros; apply keeps_zoom_placed;
         unfold fetch_word, fetch_halfword, fetch_byte, store_word, store_halfword,
           store_byte, ready; keeps_tac; fail).
  intros r b w w' e (x & x' & E & E1 & ->)%zoom_key_Some r' Hr. cbn.
  unfold setter_id, id. by rewrite lookup_insert_ne.
Qed.

End Ram.

(** ** [DeviceMap]: narrow accesses on top of word accesses (devicemap.cc) *)
Module DeviceMap.
Section DeviceMap.
  Context {D : Type}.
  (** The device's own word accesses: offset, mode, client; offset, data,
      client. *)
  Variable fetch_word : Z → Z → Z → M D Z.
  Variable store_word : Z → Z → Z → M D unit.
  (** [machine->physmem->byteswapped] and [machine->cpu->is_bigendian()]. *)
  Variable byteswapped is_bigendian : bool.

Definition fetch_halfword (offset client : Z) : M D Z :=
  word_data ← fetch_word (Z.land offset (lnot32 0x03)) DATALOAD client;
  let word_data := host_to_mips_word byteswapped word_data in
  let halfword_offset_in_word := Z.shiftr (Z.land offset 0x02) 1 in
  let halfword_offset_in_word :=
    if negb is_bigendian then u32 (1 - halfword_offset_in_word)
    else halfword_offset_in_word in
  rv ← match halfword_offset_in_word with
       | 0 => mret (Z.land (Z.shiftr word_data 16) 0xffff)
       | 1 => mret (Z.land word_data 0xffff)
       | _ => crash
       end;
  mret (mips_to_host_halfword byteswapped rv).

Definition fetch_byte (offset client : Z) : M D Z :=
  word_data ← fetch_word (Z.land offset (lnot32 0x03)) DATALOAD client;
  let word_data := host_to_mips_word byteswapped word_data in
  let byte_offset_in_word := Z.land offset 0x03 in
  let byte_offset_in_word :=
    if negb is_bigendian then u32 (3 - byte_offset_in_word)
    else byte_offset_in_word in
  match byte_offset_in_word with
  | 0 => mret (Z.land (Z.shiftr word_data 24) 0xff)
  | 1 => mret (Z.land (Z.shiftr word_data 16) 0xff)
  | 2 => mret (Z.land (Z.shiftr word_data 8) 0xff)
  | 3 => mret (Z.land word_data 0xff)
  | _ => crash
  end.

Definition store_halfword (offset data client : Z) : M D unit :=
  let word_offset := Z.land offset 0xfffffffc in
  let halfword_offset_in_word := Z.shiftr (Z.land offset 0x02) 1 in
  let halfword_offset_in_word :=
    if negb is_bigendian then u32 (1 - halfword_offset_in_word)
    else halfword_offset_in_word in
  let data := host_to_mips_halfword byteswapped data in
  word_data ← match halfword_offset_in_word with
              | 0 => mret (Z.land (Z.shiftl data 16) 0xffff0000)
              | 1 => mret (Z.land data 0x0000ffff)
              | _ => crash
              end;
  store_word word_offset (mips_to_host_word byteswapped word_data) client.

Definition store_byte (offset data client : Z) : M D unit :=
  let word_offset := Z.land offset 0xfffffffc in
  let byte_offset_in_word := Z.land offset 0x03 in
  let byte_offset_in_word :=
    if negb is_bigendian then u32 (3 - byte_offset_in_word)
    else byte_offset_in_word in
  word_data ← match byte_offset_in_word with
              | 0 => mret (Z.land (Z.shiftl data 24) 0xff000000)
              | 1 => mret (Z.land (Z.shiftl data 16) 0x00ff0000)
              | 2 => mret (Z.land (Z.shiftl data 8) 0x0000ff00)
              | 3 => mret (Z.land data 0x000000ff)
              | _ => crash
              end;
  store_word word_offset (mips_to_host_word byteswapped word_data) client.

Definition can_read (offset : Z) : bool := true.
Definition can_write (offset : Z) : bool := true.

(** The two low bits of an offset. *)
Lemma land3 o : 0 ≤ o → Z.land o 3 = o mod 4.
Proof. intros. change 3 with (Z.ones 2). by rewrite Z.land_ones by lia. Qed.

Lemma byte_slot o : 0 ≤ o →
  (if negb is_bigendian then u32 (3 - Z.land o 3) else Z.land o 3)
  = if is_bigendian then o mod 4 else 3 - o mod 4.
Proof.
  intros. rewrite land3 by done. pose proof (Z.mod_pos_bound o 4 ltac:(lia)).
  destruct is_bigendian; simpl; [done|]. by rewrite u32_small by lia.
Qed.

(** [fetch_byte] reads the byte of the device's word that the target sees at
    the offset. *)
Lemma device_fetch_byte_eq o c : 0 ≤ o →
  ∀ d, fetch_byte o c d =
    (w ← fetch_word (Z.land o (lnot32 3)) DATALOAD c;
     mret (byte_of is_bigendian 4 (host_to_mips_word byteswapped w) (o mod 4))) d.
Proof.
  intros Ho d. unfold fetch_byte, bindM.
  destruct (fetch_word _ _ _ d) as [[[w d'] e]|]; [|done].
  cbv zeta. rewrite byte_slot by done. pose proof (Z.mod_pos_bound o 4 ltac:(lia)).
  assert (o mod 4 = 0 ∨ o mod 4 = 1 ∨ o mod 4 = 2 ∨ o mod 4 = 3) as Hk by lia.
  unfold byte_of.
  destruct Hk as [-> | [-> | [-> | ->]]]; destruct is_bigendian; reflexivity.
Qed.

(** [store_byte] gives the device a word with the byte at the offset set and
    the others zero. *)
Lemma device_store_byte_eq o b c : 0 ≤ o →
  ∀ d, ∃ w, store_byte o b c d =
    store_word (Z.land o 0xfffffffc) (mips_to_host_word byteswapped w) c d ∧
    is_u32 w ∧
    (is_u8 b → ∀ k, 0 ≤ k < 4 →
      byte_of is_bigendian 4 w k = if k =? o mod 4 then b else 0).
Proof.
  intros Ho d. unfold store_byte. cbv zeta. rewrite byte_slot by done.
  pose proof (Z.mod_pos_bound o 4 ltac:(lia)).
  assert (o mod 4 = 0 ∨ o mod 4 = 1 ∨ o mod 4 = 2 ∨ o mod 4 = 3) as Hk by lia.
  assert (L : ∀ n m, 0 ≤ n → 0 ≤ m < 2 ^ 32 → is_u32 (Z.land (Z.shiftl b n) m))
    by (intros; apply land_is_u; [lia|done]).
  assert (L0 : is_u32 (Z.land b 255)) by (apply land_is_u; [lia|split; lia]).
  destruct Hk as [-> | [-> | [-> | ->]]]; destruct is_bigendian; eexists;
    (split; [exact (ret_bind _ (λ wd, store_word _ (mips_to_host_word byteswapped wd) c) d)|]);
    (split; [first [apply L; lia | done]|]);
    intros Hb k Hk4; unfold byte_of;
    (assert (k = 0 ∨ k = 1 ∨ k = 2 ∨ k = 3) as [-> | [-> | [-> | ->]]] by lia);
    cbn [Z.eqb Pos.eqb Z.mul Z.sub Z.add Z.opp Z.pos_sub Pos.mul Pos.pred_double
         Z.pred_double Z.succ_double Pos.add]; bitblast i.
Qed.

End DeviceMap.
End DeviceMap.
