(* ===== verification/Mapper.v ===== *)
(** * Mapper: the physical memory system (mapper.h, mapper.cc)

    The mapper owns the ranges, finds the one that maps an address, enforces
    the latency of each access, converts the byte order and reports bus errors
    to the client.  It is proved against the interface [RangeOps]. *)

From S2P Require Import Prelude Effects Types Bus Range.

(** ** What a bus master sees of the memory system

    The cache, the processor and the DMA controller only use these methods of
    [Mapper]. *)
Class MemPort (B : Type) := {
  mem_ready : Z → Z → Z → Z → M B bool;             (* now, addr, mode, client *)
  mem_request_word : Z → Z → Z → Z → M B unit;      (* now, addr, mode, client *)
  mem_fetch_word : Z → Z → Z → Z → M B Z;           (* now, addr, mode, client *)
  mem_fetch_halfword : Z → Z → Z → M B Z;           (* now, addr, client *)
  mem_fetch_byte : Z → Z → Z → M B Z;
  mem_store_word : Z → Z → Z → Z → M B unit;        (* now, addr, data, client *)
  mem_store_halfword : Z → Z → Z → Z → M B unit;
  mem_store_byte : Z → Z → Z → Z → M B unit;
  mem_acquire_bus : Z → Z → M B bool;               (* now, client *)
  mem_release_bus : Z → Z → M B unit;
  mem_byteswapped : B → bool
}.

Module Mapper.

Record BusErrorInfo := MkBusErrorInfo {
  berr_valid : bool;
  berr_client : Z;
  berr_mode : Z;
  berr_addr : Z
}.

(** [RequestsKey]: requested_addr, mode, requester. *)
Definition RequestsKey : Type := Z * Z * Z.

(** [Mapper::RequestsHash] and [Mapper::RequestsKeyEqual], the hash and the
    equality the table is keyed with.  [size_t] is 64 bits wide; the requester
    is its address. *)
Definition RequestsHash (key : RequestsKey) : Z :=
  let '(requested_addr, mode, requester) := key in
  Z.lxor (Z.lxor (u64 (Z.shiftl requested_addr 32)) (u64 (s32 (Z.shiftl mode 28)))) requester.

Definition RequestsKeyEqual (a b : RequestsKey) : bool :=
  let '(aa, am, ar) := a in let '(ba, bm, br) := b in
  (aa =? ba) && (am =? bm) && (ar =? br).

Record t {W : Type} := Mk {
  byteswapped : bool;
  bus_latency : Z;                               (* uint32 *)
  access_requests_time : gmap RequestsKey Z;     (* uint32 *)
  bus_arbiter : BusArbiter.t;
  last_berr_info : option BusErrorInfo;          (* [None]: never written *)
  last_used_mapping : option Z;                  (* Range*, [None] for NULL *)
  ranges : list Z;
  opt_bigendian : bool;
  debug_mode : bool;
  store : W                                      (* the objects behind the ranges *)
}.
Arguments t : clear implicits.
#[global] Instance eta {W} : Eta (t W) := λ m,
  Mk W (byteswapped m) (bus_latency m) (access_requests_time m) (bus_arbiter m)
     (last_berr_info m) (last_used_mapping m) (ranges m) (opt_bigendian m) (debug_mode m)
     (store m).

(** [Mapper::Mapper] *)
Definition Mapper {W} (bigendian host_bigendian : bool) (latency : Z) (w : W) : t W := {|
  byteswapped := byteswapped_of bigendian host_bigendian;
  bus_latency := latency;
  access_requests_time := ∅;
  bus_arbiter := BusArbiter.BusArbiter;
  last_berr_info := None;
  last_used_mapping := None;
  ranges := [];
  opt_bigendian := bigendian;
  debug_mode := false;
  store := w
|}.

Section Mapper.
  Context {W : Type} `{RangeOps W}.
  (** [machine->num_cycles] *)
  Variable now : Z.

Definition acquire_bus (client : Z) : M (t W) bool :=
  zoom bus_arbiter (BusArbiter.acquire_bus now client).

Definition release_bus (client : Z) : M (t W) unit :=
  zoom bus_arbiter (BusArbiter.release_bus now client).

Definition bus_error (client mode addr : Z) : M (t W) unit :=
  last_berr_info <~ Some (MkBusErrorInfo true client mode addr);;
  raise client (if mode =? INSTFETCH then IBE else DBE) mode (-1).

(** The search of [find_mapping_range] through the list of ranges. *)
Fixpoint find_range (w : W) (p : Z) (l : list Z) : option Z :=
  match l with
  | [] => None
  | i :: l => if incorporates w i p then Some i else find_range w p l
  end.

Definition find_mapping_range (p : Z) : M (t W) (option Z) :=
  last ← gets last_used_mapping;
  w ← gets store;
  l ← gets ranges;
  let search : M (t W) (option Z) :=
    match find_range w p l with
    | Some i => last_used_mapping <~ Some i;; mret (Some i)
    | None => mret None
    end in
  match last with
  | Some r => if incorporates w r p then mret (Some r) else search
  | None => search
  end.

Definition ready (addr mode client : Z) : M (t W) bool :=
  debug ← gets debug_mode;
  if debug then mret true else
  table ← gets access_requests_time;
  match table !! (addr, mode, client) with
  | None => mret false
  | Some issue_time =>
      l ← find_mapping_range addr;
      when (bool_decide (l = None)) (bus_error client mode addr);;
      l ← from_option l;                        (* l->extra_latency() *)
      latency ← gets bus_latency;
      w ← gets store;
      if u32 (latency + r_extra_latency w l) <=? u32 (now - issue_time)
      then zoom store (r_ready l addr mode client)
      else mret false
  end.

Definition request_word (addr mode client : Z) : M (t W) unit :=
  table ← gets access_requests_time;
  match table !! (addr, mode, client) with
  | Some _ => mret ()
  | None => access_requests_time <~ <[(addr, mode, client) := now]> table
  end.

(** [add_range], [Range*]s being non-null; [error] reports and returns. *)
Definition add_range (r : Z) : M (t W) Z :=
  w ← gets store;
  l ← gets ranges;
  if existsb (overlaps w r) l then mret (-1)
  else ranges <~ l ++ [r];; mret 0.

Definition map_at_physical_address (r pa : Z) : M (t W) Z :=
  zoom store (setBase r pa);; add_range r.

(** The tail the accesses share once the range is known: [addr] must be
    ready, and its request is dropped. *)
Definition erase_request (addr mode client : Z) : M (t W) unit :=
  modify (λ m, m <| access_requests_time ::= delete (addr, mode, client) |>).

Definition fetch_word (addr mode client : Z) : M (t W) Z :=
  if negb (addr mod 4 =? 0) then
    raise client AdEL mode (-1);; mret 0xffffffff
  else
  l ← find_mapping_range addr;
  l ← from_option l;                            (* l->getBase() *)
  w ← gets store;
  let offset := u32 (addr - getBase w l) in
  if negb (canRead w l offset) then mret 0xffffffff
  else
  ok ← ready addr mode client;
  if negb ok then bus_error client mode addr;; mret 0xffffffff
  else
  erase_request addr mode client;;
  bs ← gets byteswapped;
  host_to_mips_word bs <$> zoom store (r_fetch_word l offset mode client).

Definition fetch_halfword (addr client : Z) : M (t W) Z :=
  if negb (addr mod 2 =? 0) then
    raise client AdEL DATALOAD (-1);; mret 0xffff
  else
  l ← find_mapping_range addr;
  l ← from_option l;                            (* l->getBase() *)
  w ← gets store;
  let offset := u32 (addr - getBase w l) in
  if negb (canRead w l offset) then mret 0xffff
  else
  ok ← ready addr DATALOAD client;
  if negb ok then bus_error client DATALOAD addr;; mret 0xffff
  else
  erase_request addr DATALOAD client;;
  bs ← gets byteswapped;
  host_to_mips_halfword bs <$> zoom store (r_fetch_halfword l offset client).

Definition fetch_byte (addr client : Z) : M (t W) Z :=
  l ← find_mapping_range addr;
  match l with
  | None => bus_error client DATALOAD addr;; mret 0xff
  | Some l =>
      w ← gets store;
      let offset := u32 (addr - getBase w l) in
      if negb (canRead w l offset) then mret 0xff
      else
      ok ← ready addr DATALOAD client;
      if negb ok then bus_error client DATALOAD addr;; mret 0xff
      else
      erase_request addr DATALOAD client;;
      zoom store (r_fetch_byte l offset client)
  end.

Definition store_word (addr data client : Z) : M (t W) unit :=
  if negb (addr mod 4 =? 0) then raise client AdES DATASTORE (-1)
  else
  l ← find_mapping_range addr;
  l ← from_option l;                            (* l->getBase() *)
  w ← gets store;
  let offset := u32 (addr - getBase w l) in
  if negb (canWrite w l offset) then mret ()
  else
  ok ← ready addr DATASTORE client;
  if negb ok then bus_error client DATASTORE addr
  else
  erase_request addr DATASTORE client;;
  bs ← gets byteswapped;
  zoom store (r_store_word l offset (mips_to_host_word bs data) client).

Definition store_halfword (addr data client : Z) : M (t W) unit :=
  if negb (addr mod 2 =? 0) then raise client AdES DATASTORE (-1)
  else
  l ← find_mapping_range addr;
  l ← from_option l;                            (* l->getBase() *)
  w ← gets store;
  let offset := u32 (addr - getBase w l) in
  if negb (canWrite w l offset) then mret ()
  else
  ok ← ready addr DATASTORE client;
  if negb ok then bus_error client DATASTORE addr
  else
  erase_request addr DATASTORE client;;
  bs ← gets byteswapped;
  zoom store (r_store_halfword l offset (mips_to_host_halfword bs data) client).

Definition store_byte (addr data client : Z) : M (t W) unit :=
  l ← find_mapping_range addr;
  match l with
  | None => bus_error client DATASTORE addr
  | Some l =>
      w ← gets store;
      let offset := u32 (addr - getBase w l) in
      if negb (canWrite w l offset) then mret ()
      else
      ok ← ready addr DATASTORE client;
      if negb ok then bus_error client DATASTORE addr
      else
      erase_request addr DATASTORE client;;
      zoom store (r_store_byte l offset data client)
  end.

Definition enable_debug_mode : M (t W) unit := debug_mode <~ true.
Definition disable_debug_mode : M (t W) unit := debug_mode <~ false.
Definition get_last_berr_info : M (t W) (option BusErrorInfo) := gets last_berr_info.

End Mapper.

#[export] Instance mem_port {W} `{RangeOps W} : MemPort (t W) := {|
  mem_ready := ready;
  mem_request_word := request_word;
  mem_fetch_word := fetch_word;
  mem_fetch_halfword := fetch_halfword;
  mem_fetch_byte := fetch_byte;
  mem_store_word := store_word;
  mem_store_halfword := store_halfword;
  mem_store_byte := store_byte;
  mem_acquire_bus := acquire_bus;
  mem_release_bus := release_bus;
  mem_byteswapped := byteswapped
|}.

(** ** Well-formed mappers *)

Section Lemmas.
  Context {W : Type} `{RangeOps W}.
  Implicit Types m : t W.

(** The ranges do not overlap, none reaches the top of the address space, and
    the cached range is one of them. *)
Record wf m : Prop := MkWf {
  wf_proper : ∀ r, r ∈ ranges m → proper_range (store m) r;
  wf_disjoint : ∀ i j r r', ranges m !! i = Some r → ranges m !! j = Some r' →
    i ≠ j → overlaps (store m) r r' = false;
  wf_last : ∀ r, last_used_mapping m = Some r → r ∈ ranges m
}.

Lemma find_range_Some (w : W) p l r :
  find_range w p l = Some r → r ∈ l ∧ incorporates w r p = true.
Proof.
  induction l as [|i l IH]; simpl; [done|].
  destruct (incorporates w i p) eqn:E; [intros [= ->]|intros [? ?]%IH];
    split; auto using list_elem_of_here, list_elem_of_further.
Qed.

Lemma find_range_None (w : W) p l :
  find_range w p l = None → ∀ r, r ∈ l → incorporates w r p = false.
Proof.
  induction l as [|i l IH]; simpl; [intros _ r []%elem_of_nil|].
  destruct (incorporates w i p) eqn:E; [done|].
  intros Hl r [->|Hr]%elem_of_cons; auto.
Qed.

Lemma wf_unique m r r' p : wf m → r ∈ ranges m → r' ∈ ranges m →
  incorporates (store m) r p = true → incorporates (store m) r' p = true → r = r'.
Proof.
  intros Hwf Hr Hr' Hp Hp'.
  pose proof (proj2 (overlaps_spec _ r r' (wf_proper m Hwf _ Hr) (wf_proper m Hwf _ Hr'))
    ltac:(eauto)) as Ho.
  apply list_elem_of_lookup in Hr as [i Hi], Hr' as [j Hj].
  destruct (decide (i = j)) as [->|Hij]; [congruence|].
  pose proof (wf_disjoint m Hwf i j r r' Hi Hj Hij). congruence.
Qed.

(** With non-overlapping ranges the one-entry cache of [find_mapping_range]
    cannot be observed: the answer is the range of the list. *)
Lemma find_mapping_range_eq m p : wf m →
  find_mapping_range p m =
    Some (find_range (store m) p (ranges m),
          match find_range (store m) p (ranges m) with
          | Some r => m <| last_used_mapping := Some r |>
          | None => m
          end, []).
Proof.
  intros Hwf. unfold find_mapping_range. munfold.
  destruct (last_used_mapping m) as [r|] eqn:El.
  - destruct (incorporates (store m) r p) eqn:Er.
    + assert (Hr : r ∈ ranges m) by (apply (wf_last m Hwf); done).
      destruct (find_range (store m) p (ranges m)) as [r'|] eqn:Ef.
      * apply find_range_Some in Ef as [Hr' Hi'].
        assert (r' = r) as -> by eauto using wf_unique.
        destruct m; simpl in *; subst; done.
      * pose proof (find_range_None _ _ _ Ef r Hr). congruence.
    + by destruct (find_range (store m) p (ranges m)).
  - by destruct (find_range (store m) p (ranges m)).
Qed.

Lemma wf_found m r p : wf m → find_range (store m) p (ranges m) = Some r →
  wf (m <| last_used_mapping := Some r |>).
Proof.
  intros [H1 H2 H3] [Hr _]%find_range_Some. split; simpl; try done.
  by intros r' [= <-].
Qed.

(** Well-formedness only looks at the ranges, their places and the cache. *)
Lemma wf_place m m' : wf m → same_place (store m) (store m') → ranges m' = ranges m →
  (∀ r, last_used_mapping m' = Some r → r ∈ ranges m) → wf m'.
Proof.
  intros [H1 H2 H3] Hp Hr Hl. split; rewrite ?Hr; [..|done].
  - intros r Hin. destruct (H1 r Hin) as (?&?&?), (Hp r) as [E1 E2].
    unfold proper_range. by rewrite E1, E2.
  - intros i j r r' Hi Hj Hij. specialize (H2 i j r r' Hi Hj Hij).
    destruct (Hp r) as [E1 E2], (Hp r') as [E1' E2'].
    unfold overlaps in *. by rewrite E1, E2, E1', E2'.
Qed.

Lemma find_range_place (w w' : W) p l :
  same_place w w' → find_range w' p l = find_range w p l.
Proof.
  intros Hp. induction l as [|i l IH]; simpl; [done|].
  by rewrite (incorporates_place w w'), IH.
Qed.

End Lemmas.

(** ** Every operation keeps the mapper well formed *)
Section Wf.
  Context {W : Type} `{RangeLaws W}.

Lemma keeps_find p : keeps (inv wf) (find_mapping_range (W := W) p).
Proof.
  intros m a m' e E Hwf. rewrite find_mapping_range_eq in E by done.
  injection E as <- <- <-. destruct (find_range _ _ _) eqn:Ef; [|done].
  by apply (wf_found m _ p).
Qed.

Lemma keeps_store {A} (a : M W A) :
  keeps same_place a → keeps (inv wf) (zoom (store (W := W)) a).
Proof.
  intros Ha. eapply keeps_zoom; [apply Ha|]. intros m w Hp Hwf.
  eapply wf_place; [done|apply Hp|done|]. simpl. apply (wf_last m Hwf).
Qed.

(** A change of the fields that well-formedness does not look at. *)
Lemma wf_other m m' : wf m → store m' = store m → ranges m' = ranges m →
  last_used_mapping m' = last_used_mapping m → wf (W := W) m'.
Proof.
  intros Hwf Hs Hr Hl. eapply wf_place; [done| |done|].
  - by rewrite Hs.
  - intros r. rewrite Hl. apply (wf_last m Hwf).
Qed.

Lemma keeps_bus_error c mode a : keeps (inv wf) (bus_error (W := W) c mode a).
Proof. unfold bus_error. keeps_tac. intros m Hwf. by apply (wf_other m). Qed.

Lemma keeps_erase a mode c : keeps (inv wf) (erase_request (W := W) a mode c).
Proof. unfold erase_request. keeps_tac. intros m Hwf. by apply (wf_other m). Qed.

#[local] Hint Resolve keeps_find keeps_store keeps_bus_error keeps_erase : keeps.

Lemma keeps_ready now a mode c : keeps (inv wf) (ready (W := W) now a mode c).
Proof. unfold ready. keeps_tac. Qed.
#[local] Hint Resolve keeps_ready : keeps.

Lemma keeps_access now a d mode c :
  keeps (inv wf) (fetch_word (W := W) now a mode c) ∧
  keeps (inv wf) (fetch_halfword (W := W) now a c) ∧
  keeps (inv wf) (fetch_byte (W := W) now a c) ∧
  keeps (inv wf) (store_word (W := W) now a d c) ∧
  keeps (inv wf) (store_halfword (W := W) now a d c) ∧
  keeps (inv wf) (store_byte (W := W) now a d c).
Proof.
  split_and!; unfold fetch_word, fetch_halfword, fetch_byte, store_word, store_halfword,
    store_byte; keeps_tac.
Qed.

Lemma keeps_bus now a mode c :
  keeps (inv wf) (request_word (W := W) now a mode c) ∧
  keeps (inv wf) (acquire_bus (W := W) now c) ∧
  keeps (inv wf) (release_bus (W := W) now c).
Proof.
  split_and!.
  - unfold request_word. keeps_tac. intros m Hwf. by apply (wf_other m).
  - intros m x m' e (b & _ & ->)%zoom_Some Hwf. by apply (wf_other m).
  - intros m x m' e (b & _ & ->)%zoom_Some Hwf. by apply (wf_other m).
Qed.

End Wf.

(** ** Errors and latency *)
Section Accesses.
  Context {W : Type} `{RangeOps W}.
  Implicit Types m : t W.

Definition range_at m (a : Z) : option Z := find_range (store m) a (ranges m).

Lemma find_bind {B} m a (k : option Z → M (t W) B) : wf m →
  (l ← find_mapping_range a; k l) m =
    k (range_at m a) (match range_at m a with
                      | Some r => m <| last_used_mapping := Some r |>
                      | None => m end).
Proof. intros Hwf. by rewrite (bind_eq _ _ _ _ _ (find_mapping_range_eq m a Hwf)). Qed.

(** An access that was never asked for is not ready. *)
Lemma ready_unasked now a mode c m :
  debug_mode m = false → access_requests_time m !! (a, mode, c) = None →
  ready now a mode c m = Some (false, m, []).
Proof.
  intros Hd Ht. unfold ready. rewrite gets_bind, Hd, gets_bind, Ht. done.
Qed.

Lemma ready_asked now a mode c m r t0 : wf m → debug_mode m = false →
  access_requests_time m !! (a, mode, c) = Some t0 → range_at m a = Some r →
  ready now a mode c m =
    (if u32 (bus_latency m + r_extra_latency (store m) r) <=? u32 (now - t0)
     then zoom store (r_ready r a mode c) else mret false)
      (m <| last_used_mapping := Some r |>).
Proof.
  intros Hwf Hd Ht Hr. unfold ready. rewrite gets_bind, Hd, gets_bind, Ht.
  rewrite find_bind, Hr by done. rewrite bool_decide_eq_false_2 by done.
  unfold when, from_option. rewrite !ret_bind, !gets_bind. done.
Qed.

End Accesses.

(** ** A concrete mapper: one 16-byte memory module at 0x1000 *)

Definition demo_store : gmap Z Ram.t :=
  {[ 1 := (Ram.MemoryModule 16 3) <| Ram.base := 4096 |> ]}.
Definition demo (reqs : gmap RequestsKey Z) : t (gmap Z Ram.t) :=
  (Mapper true false 8 demo_store) <| ranges := [1] |> <| access_requests_time := reqs |>.

Lemma demo_wf host reqs : wf (H := Ram.store_ops host) (demo reqs).
Proof.
  split.
  - intros r ->%list_elem_of_singleton. repeat split; vm_compute; congruence.
  - intros i j r r' [-> <-]%list_lookup_singleton_Some [-> <-]%list_lookup_singleton_Some.
    done.
  - done.
Qed.

(** The one-entry cache of [find_mapping_range] cannot be observed: the
    answer is the only range of the list that incorporates the address, [NULL]
    when there is none, and a later search gives the same answers as before. *)
Theorem find_mapping_range_transparent {W} `{RangeOps W} (m : t W) (p : Z) (Hwf : wf m) :
  ∃ o m', find_mapping_range p m = Some (o, m', []) ∧ wf m' ∧
    (∀ r, o = Some r ↔ r ∈ ranges m ∧ incorporates (store m) r p = true) ∧
    (∀ q, ∃ a m1 m2, find_mapping_range q m = Some (a, m1, []) ∧
                     find_mapping_range q m' = Some (a, m2, [])).
Proof.
  rewrite find_mapping_range_eq by done.
  set (m' := match find_range (store m) p (ranges m) with Some _ => _ | None => _ end).
  assert (Hm' : wf m').
  { unfold m'. destruct (find_range _ _ _) eqn:E; [by apply (wf_found m _ p)|done]. }
  eexists _, m'. split; [done|]. split; [done|]. split.
  - intros r. split; [apply find_range_Some|]. intros [Hin Hi].
    destruct (find_range (store m) p (ranges m)) as [r'|] eqn:E.
    + apply find_range_Some in E as [? ?]. f_equal. by eapply wf_unique.
    + pose proof (find_range_None _ _ _ E r Hin). congruence.
  - intros q. rewrite !find_mapping_range_eq by done.
    assert (store m' = store m ∧ ranges m' = ranges m) as [-> ->].
    { unfold m'. by destruct (find_range _ _ _). }
    eauto.
Qed.

Lemma find_mapping_range_transparent_witness :
  ∃ o m', find_mapping_range (H := Ram.store_ops false) 4100 (demo ∅) = Some (o, m', []) ∧
    (∀ r, o = Some r ↔
      r ∈ [1] ∧ incorporates (H := Ram.store_ops false) demo_store r 4100 = true).
Proof.
  destruct (find_mapping_range_transparent (H := Ram.store_ops false) (demo ∅) 4100
    (demo_wf false ∅)) as (o & m' & E & _ & Ho & _). exists o, m'. exact (conj E Ho).
Defined.

(** Every access, request and bus operation, and the search, keeps the
    mapper well formed (disjoint ranges below the top of the address space, a
    cached range that is mapped), for any ranges that stay in place. *)
Theorem accesses_keep_wf {W} `{RangeLaws W} (now a d mode c : Z) :
  keeps (inv wf) (find_mapping_range (W := W) a) ∧
  keeps (inv wf) (ready (W := W) now a mode c) ∧
  keeps (inv wf) (request_word (W := W) now a mode c) ∧
  keeps (inv wf) (fetch_word (W := W) now a mode c) ∧
  keeps (inv wf) (fetch_halfword (W := W) now a c) ∧
  keeps (inv wf) (fetch_byte (W := W) now a c) ∧
  keeps (inv wf) (store_word (W := W) now a d c) ∧
  keeps (inv wf) (store_halfword (W := W) now a d c) ∧
  keeps (inv wf) (store_byte (W := W) now a d c) ∧
  keeps (inv wf) (acquire_bus (W := W) now c) ∧
  keeps (inv wf) (release_bus (W := W) now c).
Proof.
  pose proof (keeps_access (W := W) now a d mode c). pose proof (keeps_bus (W := W) now a mode c).
  split_and!; try apply keeps_find; try apply keeps_ready; tauto.
Qed.

Lemma accesses_keep_wf_witness :
  keeps (inv (wf (H := Ram.store_ops true)))
    (fetch_word (W := gmap Z Ram.t) (H := Ram.store_ops true) 0 4 0 1).
Proof.
  apply (@accesses_keep_wf (gmap Z Ram.t) (Ram.store_ops true) (Ram.store_laws true) 0 4 0 0 1).
Defined.

(** The latency of the bus: a first request is stamped with the cycle it is
    made in and a repeated one does not restart the clock; the access is not
    ready until [bus_latency] plus the latency of its range have passed since,
    in unsigned 32-bit arithmetic, and from then on it is ready when the range
    is. *)
Theorem request_latency {W} `{RangeOps W} (m : t W) (asked again now a mode c r : Z)
    (Hwf : wf m) (Hd : debug_mode m = false) (Hr : range_at m a = Some r)
    (Hnew : access_requests_time m !! (a, mode, c) = None) :
  let m1 := m <| access_requests_time := <[(a, mode, c) := asked]> (access_requests_time m) |> in
  request_word asked a mode c m = Some ((), m1, []) ∧
  request_word again a mode c m1 = Some ((), m1, []) ∧
  ready now a mode c m1 =
    (if u32 (now - asked) <? u32 (bus_latency m + r_extra_latency (store m) r)
     then mret false else zoom store (r_ready r a mode c))
      (m1 <| last_used_mapping := Some r |>).
Proof.
  cbv zeta. set (m1 := m <| access_requests_time := _ |>).
  assert (E1 : access_requests_time m1 !! (a, mode, c) = Some asked)
    by (unfold m1; simpl; by rewrite lookup_insert_eq).
  split_and!.
  - unfold request_word. rewrite gets_bind, Hnew. done.
  - unfold request_word. rewrite gets_bind, E1. done.
  - rewrite (ready_asked now a mode c m1 r asked); [|by apply (wf_other m)|done..].
    change (bus_latency m1) with (bus_latency m). change (store m1) with (store m).
    rewrite Z.leb_antisym. by destruct (_ <? _).
Qed.

Lemma request_latency_witness :
  let m1 := demo {[ (4100, DATALOAD, 7) := 20 ]} in
  request_word (W := gmap Z Ram.t) 20 4100 DATALOAD 7 (demo ∅) = Some ((), m1, []) ∧
  request_word (W := gmap Z Ram.t) 25 4100 DATALOAD 7 m1 = Some ((), m1, []) ∧
  ready (H := Ram.store_ops false) 30 4100 DATALOAD 7 m1 =
    Some (false, m1 <| last_used_mapping := Some 1 |>, []).
Proof.
  destruct (request_latency (H := Ram.store_ops false) (demo ∅) 20 25 30 4100 DATALOAD 7 1
    (demo_wf false ∅) eq_refl eq_refl (lookup_empty _)) as (E1 & E2 & E3).
  split; [exact E1|]. split; [exact E2|exact E3].
Defined.

(** C34 the accesses that cannot be done: a misaligned word or halfword raises
    an address error at the client and touches nothing; an access that is not
    ready raises a bus error (instruction or data) and records it; a byte
    access to an unmapped address raises a data bus error, and a word or
    halfword access to one dereferences a null range. *)
Theorem access_errors {W} `{RangeOps W} (m : t W) (now a d mode c : Z) (Hwf : wf m) :
  (a mod 4 ≠ 0 →
     fetch_word now a mode c m = Some (0xffffffff, m, [ExcEvent c AdEL mode (-1)]) ∧
     store_word now a d c m = Some ((), m, [ExcEvent c AdES DATASTORE (-1)])) ∧
  (a mod 2 ≠ 0 →
     fetch_halfword now a c m = Some (0xffff, m, [ExcEvent c AdEL DATALOAD (-1)]) ∧
     store_halfword now a d c m = Some ((), m, [ExcEvent c AdES DATASTORE (-1)])) ∧
  (range_at m a = None →
     (a mod 4 = 0 → fetch_word now a mode c m = None ∧ store_word now a d c m = None) ∧
     (a mod 2 = 0 → fetch_halfword now a c m = None ∧ store_halfword now a d c m = None) ∧
     fetch_byte now a c m =
       Some (0xff, m <| last_berr_info := Some (MkBusErrorInfo true c DATALOAD a) |>,
             [ExcEvent c DBE DATALOAD (-1)]) ∧
     store_byte now a d c m =
       Some ((), m <| last_berr_info := Some (MkBusErrorInfo true c DATASTORE a) |>,
             [ExcEvent c DBE DATASTORE (-1)])) ∧
  (∀ r, range_at m a = Some r → debug_mode m = false →
     access_requests_time m !! (a, mode, c) = None → a mod 4 = 0 →
     canRead (store m) r (u32 (a - getBase (store m) r)) = true →
     fetch_word now a mode c m =
       Some (0xffffffff,
             m <| last_used_mapping := Some r |>
               <| last_berr_info := Some (MkBusErrorInfo true c mode a) |>,
             [ExcEvent c (if mode =? INSTFETCH then IBE else DBE) mode (-1)])).
Proof.
  split_and!; try intros Ha; unfold fetch_word, store_word, fetch_halfword, store_halfword,
    fetch_byte, store_byte.
  - rewrite (proj2 (Z.eqb_neq _ _)) by done. done.
  - rewrite (proj2 (Z.eqb_neq _ _)) by done. done.
  - rewrite !(find_bind m a), Ha by done.
    split_and!; try done; intros E; rewrite E; cbn [negb Z.eqb];
      rewrite !(find_bind m a), Ha by done; done.
  - intros Hr Hd Ht H4 Hc. rewrite H4. cbn [negb Z.eqb].
    rewrite find_bind, Hr by done. cbv beta iota. unfold from_option.
    rewrite ret_bind, gets_bind.
    change (store (m <| last_used_mapping := Some Ha |>)) with (store m).
    cbv zeta. rewrite Hc. cbn [negb].
    erewrite bind_eq; [|by apply ready_unasked]. done.
Qed.

Lemma access_errors_witness :
  fetch_word (H := Ram.store_ops false) 30 4102 DATALOAD 7 (demo ∅) =
    Some (0xffffffff, demo ∅, [ExcEvent 7 AdEL DATALOAD (-1)]) ∧
  fetch_word (H := Ram.store_ops false) 30 8192 DATALOAD 7 (demo ∅) = None.
Proof.
  split.
  - apply (access_errors (H := Ram.store_ops false) (demo ∅) 30 4102 0 DATALOAD 7
      (demo_wf false ∅)). vm_compute. congruence.
  - apply (access_errors (H := Ram.store_ops false) (demo ∅) 30 8192 0 DATALOAD 7
      (demo_wf false ∅)); reflexivity.
Defined.

End Mapper.
