(* ===== verification/Physical.v ===== *)
(** * Physical: the mapper over memory modules as a byte-addressed memory

    The abstract memory of the target is a partial map from physical addresses
    to bytes, [phys_byte].  With memory modules behind every range, the
    accesses of the mapper read and write it in the byte order of the target,
    whatever the byte order of the host. *)

From S2P Require Import Prelude Effects Types Bus Range Mapper.
Import Mapper.

Section Physical.
  (** [machine->host_bigendian] *)
  Variable host : bool.
#[local] Instance ops : RangeOps (gmap Z Ram.t) := Ram.store_ops host.
  Notation mapper := (t (gmap Z Ram.t)).
  Implicit Types m : mapper.

(** The range that maps an address. *)
Definition range_at m (a : Z) : option Z := find_range (store m) a (ranges m).

Definition phys_byte m (a : Z) : option Z :=
  match range_at m a with
  | None => None
  | Some r =>
      match store m !! r with
      | None => None
      | Some x => nthz (Ram.address x) (a - Ram.base x)
      end
  end.

(** A memory module as the constructors leave it: word aligned, all of its
    extent backed by host bytes. *)
Record module_ok (x : Ram.t) : Prop := {
  mod_base : Ram.base x mod 4 = 0;
  mod_len : Ram.extent x = Z.of_nat (length (Ram.address x));
  mod_size : Ram.extent x mod 4 = 0;
  mod_bytes : Ram.bytes_ok (Ram.address x);
  mod_perms : Ram.perms x = MEM_READ_WRITE
}.

Record ram_ok m : Prop := {
  ram_wf : wf m;
  ram_modules : ∀ r, r ∈ ranges m → ∃ x, store m !! r = Some x ∧ module_ok x;
  ram_order : byteswapped m = byteswapped_of (opt_bigendian m) host
}.

(** The client asked for the access long enough ago. *)
Definition granted (now addr mode client : Z) m : Prop :=
  debug_mode m = true ∨
  ∃ t r, access_requests_time m !! (addr, mode, client) = Some t ∧
    range_at m addr = Some r ∧
    u32 (bus_latency m + r_extra_latency (store m) r) ≤ u32 (now - t).

(** ** Lemmas *)

Lemma last_used_id m r : last_used_mapping m = Some r →
  m <| last_used_mapping := Some r |> = m.
Proof. destruct m; simpl; by intros ->. Qed.

Lemma store_id m r x : store m !! r = Some x →
  m <| store := <[r := x]> (store m) |> = m.
Proof. destruct m; simpl; intros. by rewrite insert_id. Qed.

Lemma range_at_found m r p : range_at (m <| last_used_mapping := Some r |>) p = range_at m p.
Proof. done. Qed.

Lemma ready_ram now addr mode c m r x : ram_ok m → range_at m addr = Some r →
  last_used_mapping m = Some r → store m !! r = Some x → granted now addr mode c m →
  ready now addr mode c m = Some (true, m, []).
Proof.
  intros Hok Hr Hlast Hx [Hd | (t & r' & Ht & Hr' & Hlat)]; unfold ready.
  - unfold bindM, gets at 1. rewrite Hd. done.
  - unfold bindM at 1, gets at 1. destruct (debug_mode m); [done|].
    unfold bindM at 1, gets at 1. rewrite Ht.
    unfold bindM at 1. rewrite find_mapping_range_eq by apply Hok.
    unfold range_at in Hr, Hr'. rewrite Hr. rewrite last_used_id by done.
    assert (r' = r) as -> by congruence.
    rewrite bool_decide_eq_false_2 by done.
    unfold bindM, when, from_option, gets, mret, M_ret.
    apply Z.leb_le in Hlat. rewrite Hlat. cbn [app]. unfold zoom. cbn -[u32].
    unfold zoom_key, id. rewrite Hx. cbn. unfold setter_id.
    destruct m; simpl in *. by rewrite insert_id.
Qed.

(** The place of an access inside its module. *)
Lemma module_place m r a : ram_ok m → range_at m a = Some r →
  ∃ x, store m !! r = Some x ∧ module_ok x ∧
    Ram.base x ≤ a < Ram.base x + Z.of_nat (length (Ram.address x)) ∧
    Ram.base x + Z.of_nat (length (Ram.address x)) < 2 ^ 32 ∧ 0 ≤ Ram.base x ∧
    getBase (store m) r = Ram.base x ∧
    (∀ a', Ram.base x ≤ a' < Ram.base x + Z.of_nat (length (Ram.address x)) →
       range_at m a' = Some r).
Proof.
  intros Hok Hr. pose proof (find_range_Some _ _ _ _ Hr) as [Hin Hinc].
  destruct (ram_modules m Hok r Hin) as (x & Hx & Hmod).
  destruct (wf_proper m (ram_wf m Hok) r Hin) as (H0 & H1 & H2).
  unfold incorporates in Hinc. cbn in *. rewrite Hx in *. cbn in *.
  rewrite andb_true_iff, Z.leb_le, Z.ltb_lt, u32_small in Hinc
    by (destruct Hmod; lia).
  exists x. destruct Hmod as [M1 M2 M3 M4 M5]. rewrite M2 in *.
  split_and!; try done; try lia; [by split; rewrite ?M2|].
  intros a' Ha'.
  assert (Hinc' : incorporates (store m) r a' = true).
  { unfold incorporates. cbn. rewrite Hx. cbn.
    rewrite andb_true_iff, Z.leb_le, Z.ltb_lt, M2, u32_small by lia. lia. }
  unfold range_at in *. destruct (find_range (store m) a' (ranges m)) as [r'|] eqn:E.
  - apply find_range_Some in E as [Hin' Hi']. f_equal.
    eapply wf_unique; eauto using ram_wf.
  - pose proof (find_range_None _ _ _ E r Hin). congruence.
Qed.

Lemma phys_byte_at m r x a : range_at m a = Some r → store m !! r = Some x →
  phys_byte m a = nthz (Ram.address x) (a - Ram.base x).
Proof. intros Hr Hx. unfold phys_byte. by rewrite Hr, Hx. Qed.

(** Replacing a module by one at the same place. *)
Lemma same_place_insert m r x x' : store m !! r = Some x → Ram.placed x x' →
  same_place (store m) (<[r := x']> (store m)).
Proof.
  intros Hx [Hb He] r'. cbn. destruct (decide (r' = r)) as [->|].
  - rewrite lookup_insert_eq, Hx. cbn. auto.
  - by rewrite lookup_insert_ne.
Qed.

(** The state after a granted access through range [r] that left the module
    [x'] behind. *)
Definition after (addr mode c : Z) (r : Z) (x' : Ram.t) m : mapper :=
  m <| last_used_mapping := Some r |>
    <| access_requests_time ::= delete (addr, mode, c) |>
    <| store ::= <[r := x']> |>.

Lemma after_ok addr mode c r x x' m a : ram_ok m → range_at m a = Some r →
  store m !! r = Some x → Ram.placed x x' → module_ok x' → ram_ok (after addr mode c r x' m).
Proof.
  intros Hok Hr Hx Hp Hm. pose proof (same_place_insert m r x x' Hx Hp) as Hsp.
  split; simpl.
  - eapply wf_place; [apply Hok|exact Hsp|done|]. simpl. intros ? [= <-].
    by eapply find_range_Some.
  - intros r' Hin. destruct (decide (r' = r)) as [->|].
    + exists x'. by rewrite lookup_insert_eq.
    + rewrite lookup_insert_ne by done. by apply Hok.
  - apply Hok.
Qed.

Lemma after_range_at addr mode c r x x' m p : store m !! r = Some x → Ram.placed x x' →
  range_at (after addr mode c r x' m) p = range_at m p.
Proof.
  intros Hx Hp. unfold range_at. simpl. apply (find_range_place (store m)).
  by eapply same_place_insert.
Qed.

Lemma after_phys_other addr mode c r x x' m p : store m !! r = Some x → Ram.placed x x' →
  (range_at m p = Some r →
     nthz (Ram.address x') (p - Ram.base x) = nthz (Ram.address x) (p - Ram.base x)) →
  phys_byte (after addr mode c r x' m) p = phys_byte m p.
Proof.
  intros Hx Hp Hn. unfold phys_byte. erewrite after_range_at by done.
  destruct (range_at m p) as [r'|] eqn:E; [|done]. simpl.
  destruct (decide (r' = r)) as [->|].
  - rewrite lookup_insert_eq, Hx. destruct Hp as [-> _]. auto.
  - by rewrite lookup_insert_ne.
Qed.

(** ** Accesses *)

Lemma range_at_wf m a : ram_ok m → find_mapping_range a m =
  Some (range_at m a, match range_at m a with
                      | Some r => m <| last_used_mapping := Some r |>
                      | None => m end, []).
Proof. intros Hok. apply find_mapping_range_eq, Hok. Qed.

Lemma granted_last now addr mode c r m : granted now addr mode c m →
  granted now addr mode c (m <| last_used_mapping := Some r |>).
Proof. done. Qed.

Lemma ram_ok_last r p m : ram_ok m → range_at m p = Some r →
  ram_ok (m <| last_used_mapping := Some r |>).
Proof.
  intros [H1 H2 H3] Hr. split; simpl; [|done|done]. by apply (wf_found m r p).
Qed.

(** A granted, mapped access reaches the module: [body] is what is left of the
    access then. *)
Lemma access_ram {A} now addr mode c m r x (body : M mapper A) (deny : M mapper A) :
  ram_ok m → range_at m addr = Some r → store m !! r = Some x →
  granted now addr mode c m →
  (ok ← ready now addr mode c; if negb ok then deny else erase_request addr mode c;; body)
    (m <| last_used_mapping := Some r |>) =
  body (m <| last_used_mapping := Some r |>
          <| access_requests_time ::= delete (addr, mode, c) |>).
Proof.
  intros Hok Hr Hx Hg. unfold bindM at 1.
  rewrite (ready_ram now addr mode c _ r x); eauto using ram_ok_last, granted_last.
  cbn [negb]. unfold bindM, erase_request, modify.
  by destruct (body _) as [[[? ?] ?]|].
Qed.

Lemma offset_of m r x a : ram_ok m → range_at m a = Some r → store m !! r = Some x →
  u32 (a - getBase (store m) r) = a - Ram.base x.
Proof.
  intros Hok Hr Hx. destruct (module_place m r a Hok Hr) as (x' & Hx' & Hm & ? & ? & ? & Hb & _).
  rewrite Hb. assert (x' = x) as -> by congruence. apply u32_small. lia.
Qed.

Lemma can_rw m r x o : store m !! r = Some x → module_ok x →
  canRead (store m) r o = true ∧ canWrite (store m) r o = true.
Proof.
  intros Hx Hm. cbn. rewrite Hx. cbn. unfold Ram.can_read, Ram.can_write.
  by rewrite (mod_perms x Hm).
Qed.

(** A well-formed module after a read. *)
Lemma module_read x : module_ok x →
  module_ok (x <| Ram.read_count ::= λ n, s32 (n + 1) |>).
Proof. by intros [? ? ? ? ?]. Qed.

Lemma module_write x l : module_ok x → length l = length (Ram.address x) →
  Ram.bytes_ok l →
  module_ok (x <| Ram.write_count ::= λ n, s32 (n + 1) |> <| Ram.address := l |>).
Proof. intros [? ? ? ? ?] ? ?. split; simpl; congruence. Qed.

(** An aligned access of [n] bytes does not leave the module. *)
Lemma aligned_inside m r x a n : ram_ok m → range_at m a = Some r → store m !! r = Some x →
  (n = 2 ∨ n = 4) → a mod n = 0 →
  let o := a - Ram.base x in
  n * (o / n) = o ∧ 0 ≤ o ∧ o + n ≤ Z.of_nat (length (Ram.address x)).
Proof.
  intros Hok Hr Hx Hn Ha. destruct (module_place m r a Hok Hr) as (x' & Hx' & Hm & ? & ? & ? & _).
  assert (x' = x) as -> by congruence. destruct Hm as [M1 M2 M3 _ _]. rewrite M2 in M3.
  cbv zeta. destruct Hn as [-> | ->].
  - assert (Ha4 : ∃ k, a = 2 * k) by (exists (a / 2); apply Z_div_exact_full_2; lia).
    assert (Hb : ∃ k, Ram.base x = 4 * k) by (eexists; apply Z_div_exact_full_2; [|done]; lia).
    assert (Hl : ∃ k, Z.of_nat (length (Ram.address x)) = 4 * k)
      by (eexists; apply Z_div_exact_full_2; [|done]; lia).
    destruct Ha4 as [ka ->], Hb as [kb Eb], Hl as [kl El]. rewrite Eb, El in *.
    replace (2 * ka - 4 * kb) with ((ka - 2 * kb) * 2) by lia. rewrite Z.div_mul by lia. lia.
  - assert (Ha4 : ∃ k, a = 4 * k) by (exists (a / 4); apply Z_div_exact_full_2; lia).
    assert (Hb : ∃ k, Ram.base x = 4 * k) by (eexists; apply Z_div_exact_full_2; [|done]; lia).
    assert (Hl : ∃ k, Z.of_nat (length (Ram.address x)) = 4 * k)
      by (eexists; apply Z_div_exact_full_2; [|done]; lia).
    destruct Ha4 as [ka ->], Hb as [kb Eb], Hl as [kl El]. rewrite Eb, El in *.
    replace (4 * ka - 4 * kb) with ((ka - kb) * 4) by lia. rewrite Z.div_mul by lia. lia.
Qed.

(** What a granted access leaves behind. *)
Definition same_memory m m' : Prop :=
  ram_ok m' ∧ (∀ a, phys_byte m' a = phys_byte m a) ∧ opt_bigendian m' = opt_bigendian m.

(** The target's view of the [n] bytes at [a]. *)
Definition word_at m (a w : Z) : Prop :=
  is_u32 w ∧ ∀ k, 0 ≤ k < 4 → phys_byte m (a + k) = Some (byte_of (opt_bigendian m) 4 w k).
Definition half_at m (a h : Z) : Prop :=
  is_u16 h ∧ ∀ k, 0 ≤ k < 2 → phys_byte m (a + k) = Some (byte_of (opt_bigendian m) 2 h k).

Lemma read_after addr mode c r x m : ram_ok m → range_at m addr = Some r →
  store m !! r = Some x →
  same_memory m (after addr mode c r (x <| Ram.read_count ::= λ n, s32 (n + 1) |>) m).
Proof.
  intros Hok Hr Hx. destruct (module_place m r addr Hok Hr) as (x' & Hx' & Hm & _).
  assert (x' = x) as -> by congruence.
  split; [|split; [|done]].
  - apply (after_ok _ _ _ _ x _ _ addr); auto using module_read. by split.
  - intros a. by apply (after_phys_other _ _ _ _ x); auto; split.
Qed.

Lemma zoom_after {A} addr mode c r x m (f : M Ram.t A) (g : M (gmap Z Ram.t) A) a x' e :
  g = zoom_key id r f → store m !! r = Some x → f x = Some (a, x', e) →
  zoom store g
    (m <| last_used_mapping := Some r |>
       <| access_requests_time ::= delete (addr, mode, c) |>)
  = Some (a, after addr mode c r x' m, e).
Proof.
  intros -> Hx Hf. unfold zoom. cbn. unfold zoom_key, id. rewrite Hx, Hf. done.
Qed.

(** A mapped access starts by finding its range. *)
Lemma find_ram {A} m a r (k : option Z → M mapper A) : ram_ok m → range_at m a = Some r →
  (l ← find_mapping_range a; k l) m = k (Some r) (m <| last_used_mapping := Some r |>).
Proof.
  intros Hok Hr. unfold bindM. rewrite range_at_wf by done. rewrite Hr.
  by destruct (k _ _) as [[[? ?] ?]|].
Qed.

Lemma fetch_word_mapped now a mode c m r x w y :
  ram_ok m → range_at m a = Some r → store m !! r = Some x → granted now a mode c m →
  a mod 4 = 0 → Ram.fetch_word host (a - Ram.base x) mode c x = Some (w, y, []) →
  fetch_word now a mode c m =
    Some (host_to_mips_word (byteswapped m) w, after a mode c r y m, []).
Proof.
  intros Hok Hr Hx Hg Ha Hf. unfold fetch_word. rewrite Ha. cbn [negb Z.eqb].
  rewrite (find_ram m a r) by done. unfold from_option. rewrite ret_bind, gets_bind. cbv zeta.
  change (store (m <| last_used_mapping := Some r |>)) with (store m).
  destruct (module_place m r a Hok Hr) as (x' & Hx' & Hm & _).
  assert (x' = x) as -> by congruence.
  destruct (can_rw m r x (u32 (a - getBase (store m) r)) Hx Hm) as [-> _]. cbn [negb].
  rewrite (access_ram now a mode c m r x) by done.
  rewrite gets_bind. erewrite offset_of by done. unfold fmap, M_fmap.
  erewrite zoom_after; [|reflexivity|exact Hx|exact Hf]. done.
Qed.

Lemma fetch_halfword_mapped now a c m r x w y :
  ram_ok m → range_at m a = Some r → store m !! r = Some x → granted now a DATALOAD c m →
  a mod 2 = 0 → Ram.fetch_halfword host (a - Ram.base x) c x = Some (w, y, []) →
  fetch_halfword now a c m =
    Some (host_to_mips_halfword (byteswapped m) w, after a DATALOAD c r y m, []).
Proof.
  intros Hok Hr Hx Hg Ha Hf. unfold fetch_halfword. rewrite Ha. cbn [negb Z.eqb].
  rewrite (find_ram m a r) by done. unfold from_option. rewrite ret_bind, gets_bind. cbv zeta.
  change (store (m <| last_used_mapping := Some r |>)) with (store m).
  destruct (module_place m r a Hok Hr) as (x' & Hx' & Hm & _).
  assert (x' = x) as -> by congruence.
  destruct (can_rw m r x (u32 (a - getBase (store m) r)) Hx Hm) as [-> _]. cbn [negb].
  rewrite (access_ram now a DATALOAD c m r x) by done.
  rewrite gets_bind. erewrite offset_of by done. unfold fmap, M_fmap.
  erewrite zoom_after; [|reflexivity|exact Hx|exact Hf]. done.
Qed.

Lemma fetch_byte_mapped now a c m r x w y :
  ram_ok m → range_at m a = Some r → store m !! r = Some x → granted now a DATALOAD c m →
  Ram.fetch_byte (a - Ram.base x) c x = Some (w, y, []) →
  fetch_byte now a c m = Some (w, after a DATALOAD c r y m, []).
Proof.
  intros Hok Hr Hx Hg Hf. unfold fetch_byte.
  rewrite (find_ram m a r), gets_bind by done. cbv zeta.
  change (store (m <| last_used_mapping := Some r |>)) with (store m).
  destruct (module_place m r a Hok Hr) as (x' & Hx' & Hm & _).
  assert (x' = x) as -> by congruence.
  destruct (can_rw m r x (u32 (a - getBase (store m) r)) Hx Hm) as [-> _]. cbn [negb].
  rewrite (access_ram now a DATALOAD c m r x) by done.
  erewrite offset_of by done. erewrite zoom_after; [|reflexivity|exact Hx|exact Hf]. done.
Qed.

Lemma store_mapped {A} now a c m r x y o (body : M mapper A) (deny ro : M mapper A) v :
  ram_ok m → range_at m a = Some r → store m !! r = Some x → granted now a DATASTORE c m →
  body (m <| last_used_mapping := Some r |>
          <| access_requests_time ::= delete (a, DATASTORE, c) |>) =
    Some (v, after a DATASTORE c r y m, []) →
  (if negb (canWrite (store m) r o) then ro
   else ok ← ready now a DATASTORE c;
        if negb ok then deny else erase_request a DATASTORE c;; body)
    (m <| last_used_mapping := Some r |>) = Some (v, after a DATASTORE c r y m, []).
Proof.
  intros Hok Hr Hx Hg Hf.
  destruct (module_place m r a Hok Hr) as (x' & Hx' & Hm & _).
  assert (x' = x) as -> by congruence.
  destruct (can_rw m r x o Hx Hm) as [_ ->]. cbn [negb].
  by rewrite (access_ram now a DATASTORE c m r x).
Qed.

Lemma store_word_mapped now a d c m r x y :
  ram_ok m → range_at m a = Some r → store m !! r = Some x → granted now a DATASTORE c m →
  a mod 4 = 0 →
  Ram.store_word host (a - Ram.base x) (mips_to_host_word (byteswapped m) d) c x
    = Some ((), y, []) →
  store_word now a d c m = Some ((), after a DATASTORE c r y m, []).
Proof.
  intros Hok Hr Hx Hg Ha Hf. unfold store_word. rewrite Ha. cbn [negb Z.eqb].
  rewrite (find_ram m a r) by done. unfold from_option. rewrite ret_bind, gets_bind. cbv zeta.
  change (store (m <| last_used_mapping := Some r |>)) with (store m).
  apply (store_mapped _ _ _ _ _ x); try done.
  rewrite gets_bind. erewrite offset_of by done. erewrite zoom_after; [|reflexivity|exact Hx|exact Hf]. done.
Qed.

Lemma store_halfword_mapped now a d c m r x y :
  ram_ok m → range_at m a = Some r → store m !! r = Some x → granted now a DATASTORE c m →
  a mod 2 = 0 →
  Ram.store_halfword host (a - Ram.base x) (mips_to_host_halfword (byteswapped m) d) c x
    = Some ((), y, []) →
  store_halfword now a d c m = Some ((), after a DATASTORE c r y m, []).
Proof.
  intros Hok Hr Hx Hg Ha Hf. unfold store_halfword. rewrite Ha. cbn [negb Z.eqb].
  rewrite (find_ram m a r) by done. unfold from_option. rewrite ret_bind, gets_bind. cbv zeta.
  change (store (m <| last_used_mapping := Some r |>)) with (store m).
  apply (store_mapped _ _ _ _ _ x); try done.
  rewrite gets_bind. erewrite offset_of by done. erewrite zoom_after; [|reflexivity|exact Hx|exact Hf]. done.
Qed.

Lemma store_byte_mapped now a d c m r x y :
  ram_ok m → range_at m a = Some r → store m !! r = Some x → granted now a DATASTORE c m →
  Ram.store_byte (a - Ram.base x) d c x = Some ((), y, []) →
  store_byte now a d c m = Some ((), after a DATASTORE c r y m, []).
Proof.
  intros Hok Hr Hx Hg Hf. unfold store_byte.
  rewrite (find_ram m a r), gets_bind by done. cbv zeta.
  change (store (m <| last_used_mapping := Some r |>)) with (store m).
  apply (store_mapped _ _ _ _ _ x); try done.
  erewrite offset_of by done. erewrite zoom_after; [|reflexivity|exact Hx|exact Hf]. done.
Qed.

(** The bytes of the module at an aligned access. *)
Lemma bytes_at m r x a n (P : Z → Z → Prop) : ram_ok m → range_at m a = Some r →
  store m !! r = Some x → (n = 2 ∨ n = 4) → a mod n = 0 →
  (∀ k, 0 ≤ k < n → ∀ b, phys_byte m (a + k) = Some b → P k b) →
  ∀ k, 0 ≤ k < n → ∀ b, nthz (Ram.address x) (a - Ram.base x + k) = Some b → P k b.
Proof.
  intros Hok Hr Hx Hn Ha HP k Hk b Hb. apply HP; [done|].
  destruct (aligned_inside m r x a n Hok Hr Hx Hn Ha) as (_ & ? & ?).
  destruct (module_place m r a Hok Hr) as (x' & Hx' & _ & ? & _ & _ & _ & Hall).
  assert (x' = x) as -> by congruence.
  rewrite (phys_byte_at m r x) by (done || apply Hall; lia).
  rewrite <- Hb. f_equal. lia.
Qed.

Lemma phys_inside m r x a n : ram_ok m → range_at m a = Some r → store m !! r = Some x →
  (n = 2 ∨ n = 4) → a mod n = 0 →
  ∀ k, 0 ≤ k < n → range_at m (a + k) = Some r ∧
    phys_byte m (a + k) = nthz (Ram.address x) (a - Ram.base x + k).
Proof.
  intros Hok Hr Hx Hn Ha k Hk.
  destruct (aligned_inside m r x a n Hok Hr Hx Hn Ha) as (_ & ? & ?).
  destruct (module_place m r a Hok Hr) as (x' & Hx' & _ & ? & _ & _ & _ & Hall).
  assert (x' = x) as -> by congruence. assert (Hr' : range_at m (a + k) = Some r) by (apply Hall; lia).
  split; [done|]. rewrite (phys_byte_at m r x) by done. f_equal. lia.
Qed.

Lemma phys_mapped m a b : phys_byte m a = Some b →
  ∃ r x, range_at m a = Some r ∧ store m !! r = Some x.
Proof.
  unfold phys_byte. destruct (range_at m a) as [r|] eqn:Hr; [|done].
  destruct (store m !! r) as [x|] eqn:Hx; [eauto|done].
Qed.

Lemma module_word m r x a w : ram_ok m → range_at m a = Some r → store m !! r = Some x →
  a mod 4 = 0 → word_at m a w →
  ∀ k, 0 ≤ k < 4 → nthz (Ram.address x) (a - Ram.base x + k) =
    Some (byte_of host 4 (mips_to_host_word (byteswapped m) w) k).
Proof.
  intros Hok Hr Hx Ha [Hw Hb] k Hk.
  rewrite (ram_order m Hok), mips_word_bytes, <- Hb by done.
  symmetry. by eapply (phys_inside m r x a 4); auto.
Qed.

Lemma module_half m r x a h : ram_ok m → range_at m a = Some r → store m !! r = Some x →
  a mod 2 = 0 → half_at m a h →
  ∀ k, 0 ≤ k < 2 → nthz (Ram.address x) (a - Ram.base x + k) =
    Some (byte_of host 2 (mips_to_host_halfword (byteswapped m) h) k).
Proof.
  intros Hok Hr Hx Ha [Hw Hb] k Hk.
  rewrite (ram_order m Hok), mips_half_bytes, <- Hb by done.
  symmetry. by eapply (phys_inside m r x a 2); auto.
Qed.

Lemma fetch_word_after now a mode c m w : ram_ok m → a mod 4 = 0 → word_at m a w →
  granted now a mode c m → ∃ r x, range_at m a = Some r ∧ store m !! r = Some x ∧
  let m' := after a mode c r (x <| Ram.read_count ::= λ n, s32 (n + 1) |>) m in
  fetch_word now a mode c m = Some (w, m', []) ∧ same_memory m m'.
Proof.
  intros Hok Ha Hw Hg. assert (Hb0 := proj2 Hw 0 ltac:(lia)). rewrite Z.add_0_r in Hb0.
  destruct (phys_mapped m a _ Hb0) as (r & x & Hr & Hx).
  destruct (aligned_inside m r x a 4 Hok Hr Hx ltac:(auto) Ha) as (Ho & _ & _).
  pose proof (Ram.fetch_word_eq host (a - Ram.base x) mode c x) as Hf.
  rewrite Ho, (Ram.load_word_of_bytes host x _ (mips_to_host_word (byteswapped m) w)) in Hf
    by (first [by apply mips_to_host_word_range, Hw | by eapply module_word]).
  exists r, x. split; [done|]. split; [done|]. split.
  - erewrite fetch_word_mapped by (done || exact Hf). rewrite host_mips_word by apply Hw. done.
  - by apply read_after.
Qed.

Lemma fetch_word_ram now a mode c m w : ram_ok m → a mod 4 = 0 → word_at m a w →
  granted now a mode c m →
  ∃ m', fetch_word now a mode c m = Some (w, m', []) ∧ same_memory m m'.
Proof.
  intros Hok Ha Hw Hg. destruct (fetch_word_after now a mode c m w Hok Ha Hw Hg) as (r & x & _ & _ & E). eauto.
Qed.

Lemma fetch_halfword_ram now a c m h : ram_ok m → a mod 2 = 0 → half_at m a h →
  granted now a DATALOAD c m →
  ∃ m', fetch_halfword now a c m = Some (h, m', []) ∧ same_memory m m'.
Proof.
  intros Hok Ha Hw Hg. assert (Hb0 := proj2 Hw 0 ltac:(lia)). rewrite Z.add_0_r in Hb0.
  destruct (phys_mapped m a _ Hb0) as (r & x & Hr & Hx).
  destruct (aligned_inside m r x a 2 Hok Hr Hx ltac:(auto) Ha) as (Ho & _ & _).
  pose proof (Ram.fetch_halfword_eq host (a - Ram.base x) c x) as Hf.
  rewrite Ho, (Ram.load_half_of_bytes host x _ (mips_to_host_halfword (byteswapped m) h)) in Hf
    by (first [by apply mips_to_host_halfword_range, Hw | by eapply module_half]).
  eexists. split.
  - erewrite fetch_halfword_mapped by (done || exact Hf). rewrite host_mips_halfword by apply Hw. done.
  - by apply read_after.
Qed.

Lemma fetch_byte_ram now a c m b : ram_ok m → phys_byte m a = Some b →
  granted now a DATALOAD c m →
  ∃ m', fetch_byte now a c m = Some (b, m', []) ∧ same_memory m m'.
Proof.
  intros Hok Hb Hg. destruct (phys_mapped m a _ Hb) as (r & x & Hr & Hx).
  pose proof (Ram.fetch_byte_eq (a - Ram.base x) c x) as Hf.
  rewrite <- (phys_byte_at m r x a Hr Hx), Hb in Hf.
  eexists. split.
  - by erewrite fetch_byte_mapped by (done || exact Hf).
  - by apply read_after.
Qed.

(** A store of [n] bytes [f] at [a]: only these bytes change. *)
Definition stored (m m' : mapper) (a n : Z) (f : Z → Z) : Prop :=
  ram_ok m' ∧ opt_bigendian m' = opt_bigendian m ∧
  (∀ k, 0 ≤ k < n → phys_byte m' (a + k) = Some (f k)) ∧
  (∀ p, p < a ∨ a + n ≤ p → phys_byte m' p = phys_byte m p).

(** The module that [n] bytes were written into. *)
Lemma write_after a c r x m n l f : ram_ok m → range_at m a = Some r →
  store m !! r = Some x → length l = length (Ram.address x) → Ram.bytes_ok l →
  (∀ k, 0 ≤ k < n → range_at m (a + k) = Some r ∧
     nthz l (a - Ram.base x + k) = Some (f k)) →
  (∀ j, j < a - Ram.base x ∨ a - Ram.base x + n ≤ j → nthz l j = nthz (Ram.address x) j) →
  stored m (after a DATASTORE c r
    (x <| Ram.write_count ::= λ n, s32 (n + 1) |> <| Ram.address := l |>) m) a n f.
Proof.
  intros Hok Hr Hx Hlen Hl Hin Hout. set (x' := x <|Ram.write_count ::= _|> <|Ram.address := l|>).
  destruct (module_place m r a Hok Hr) as (x0 & Hx0 & Hm & _).
  assert (x0 = x) as -> by congruence.
  assert (Hp : Ram.placed x x') by done.
  split; [|split; [done|split]].
  - apply (after_ok _ _ _ _ x _ _ a); auto. by apply module_write.
  - intros k Hk. destruct (Hin k Hk) as [Hr' Hn]. unfold phys_byte.
    rewrite (after_range_at _ _ _ _ x) by done. rewrite Hr'. simpl.
    rewrite lookup_insert_eq. simpl. rewrite <- Hn. f_equal. lia.
  - intros p Hp'. apply (after_phys_other _ _ _ _ x); [done..|].
    intros _. apply Hout. lia.
Qed.

Lemma store_word_after now a d c m r : ram_ok m → range_at m a = Some r → a mod 4 = 0 →
  is_u32 d → granted now a DATASTORE c m → ∃ x l, store m !! r = Some x ∧
  let m' := after a DATASTORE c r
    (x <| Ram.write_count ::= λ n, s32 (n + 1) |> <| Ram.address := l |>) m in
  store_word now a d c m = Some ((), m', []) ∧ stored m m' a 4 (byte_of (opt_bigendian m) 4 d).
Proof.
  intros Hok Hr Ha Hd Hg. destruct (module_place m r a Hok Hr) as (x & Hx & Hm & _).
  destruct (aligned_inside m r x a 4 Hok Hr Hx ltac:(auto) Ha) as (Ho & H0 & H1).
  destruct (Ram.put_word_total host (Ram.address x) (a - Ram.base x)
    (mips_to_host_word (byteswapped m) d)) as [l Hl]; [lia..|].
  exists x, l. split; [done|]. split.
  - apply (store_word_mapped now a d c m r x); try done.
    rewrite Ram.store_word_eq, Ho, Hl. done.
  - apply Ram.put_word_spec in Hl as (? & _ & _ & Hin & Hout & Hok').
    apply write_after; auto using mod_bytes.
    intros k Hk. split; [by eapply (phys_inside m r x a 4); auto|].
    rewrite Hin by done. by rewrite (ram_order m Hok), mips_word_bytes.
Qed.

Lemma store_word_ram now a d c m r : ram_ok m → range_at m a = Some r → a mod 4 = 0 →
  is_u32 d → granted now a DATASTORE c m →
  ∃ m', store_word now a d c m = Some ((), m', []) ∧
    stored m m' a 4 (byte_of (opt_bigendian m) 4 d).
Proof.
  intros Hok Hr Ha Hd Hg. destruct (store_word_after now a d c m r Hok Hr Ha Hd Hg) as (x & l & _ & E). eauto.
Qed.

Lemma store_halfword_ram now a d c m r : ram_ok m → range_at m a = Some r → a mod 2 = 0 →
  is_u16 d → granted now a DATASTORE c m →
  ∃ m', store_halfword now a d c m = Some ((), m', []) ∧
    stored m m' a 2 (byte_of (opt_bigendian m) 2 d).
Proof.
  intros Hok Hr Ha Hd Hg. destruct (module_place m r a Hok Hr) as (x & Hx & Hm & _).
  destruct (aligned_inside m r x a 2 Hok Hr Hx ltac:(auto) Ha) as (Ho & H0 & H1).
  destruct (Ram.put_half_total host (Ram.address x) (a - Ram.base x)
    (mips_to_host_halfword (byteswapped m) d)) as [l Hl]; [lia..|].
  eexists. split.
  - apply (store_halfword_mapped now a d c m r x); try done.
    rewrite Ram.store_halfword_eq, Ho, Hl. done.
  - apply Ram.put_half_spec in Hl as (? & _ & _ & Hin & Hout & Hok').
    apply write_after; auto using mod_bytes.
    intros k Hk. split; [by eapply (phys_inside m r x a 2); auto|].
    rewrite Hin by done. by rewrite (ram_order m Hok), mips_half_bytes.
Qed.

Lemma store_byte_ram now a d c m r : ram_ok m → range_at m a = Some r →
  is_u8 d → granted now a DATASTORE c m →
  ∃ m', store_byte now a d c m = Some ((), m', []) ∧ stored m m' a 1 (λ _, d).
Proof.
  intros Hok Hr Hd Hg. destruct (module_place m r a Hok Hr) as (x & Hx & Hm & Hpl & _).
  pose proof (setz_Some (Ram.address x) (a - Ram.base x) d ltac:(lia)) as Hl.
  eexists. split.
  - apply (store_byte_mapped now a d c m r x); try done.
    rewrite Ram.store_byte_eq, Hl. done.
  - apply write_after; auto.
    + by rewrite (setz_length _ _ _ _ Hl).
    + eauto using Ram.setz_ok, mod_bytes.
    + intros k Hk. assert (k = 0) as -> by lia. rewrite !Z.add_0_r. split; [done|].
      by rewrite (nthz_setz _ _ _ _ _ Hl), Z.eqb_refl.
    + intros j Hj. rewrite (nthz_setz _ _ _ _ _ Hl).
      destruct (Z.eqb_spec j (a - Ram.base x)); [lia|done].
Qed.

(** ** Building the memory *)

Lemma mapper_ram_ok (big : bool) (latency : Z) (w : gmap Z Ram.t) :
  ram_ok (Mapper.Mapper big host latency w).
Proof.
  split; [split|..]; simpl; try done; try (by intros r []%elem_of_nil).
Qed.

Lemma existsb_overlaps (w : gmap Z Ram.t) r l :
  existsb (overlaps w r) l = false → ∀ r', r' ∈ l → overlaps w r r' = false.
Proof.
  intros Hl r' [i Hi]%list_elem_of_lookup. apply not_true_iff_false. intros Ho.
  apply not_true_iff_false in Hl. apply Hl. apply existsb_exists.
  exists r'. split; [|done]. apply list_elem_of_In. by eapply list_elem_of_lookup_2.
Qed.

Lemma overlaps_sym (w : gmap Z Ram.t) r r' : proper_range w r → proper_range w r' →
  overlaps w r r' = overlaps w r' r.
Proof.
  intros H H'. apply eq_bool_prop_intro. split; intros Ho%Is_true_true;
    apply Is_true_true; apply overlaps_spec in Ho as (a & ? & ?); try done;
    apply overlaps_spec; eauto.
Qed.

(** Mapping a module that is not mapped yet: it is refused exactly when it
    overlaps one that is. *)
Lemma map_ram r x pa m : ram_ok m → store m !! r = Some x → r ∉ ranges m → module_ok x →
  pa mod 4 = 0 → 0 ≤ pa → 0 < Ram.extent x → pa + Ram.extent x < 2 ^ 32 →
  ∃ m', ram_ok m' ∧ same_place (<[r := x <| Ram.base := pa |>]> (store m)) (store m') ∧
    ((map_at_physical_address r pa m = Some (0, m', []) ∧ ranges m' = ranges m ++ [r]) ∨
     (map_at_physical_address r pa m = Some (-1, m', []) ∧ ranges m' = ranges m ∧
      ∃ r', r' ∈ ranges m ∧ overlaps (store m') r r' = true)).
Proof.
  intros Hok Hx Hr Hm Hpa H0 Hext Htop.
  set (x' := x <| Ram.base := pa |>). set (w' := <[r := x']> (store m)).
  assert (Hm' : module_ok x') by (destruct Hm; by split).
  assert (Hw : ∀ r', r' ∈ ranges m →
    getBase w' r' = getBase (store m) r' ∧ getExtent w' r' = getExtent (store m) r').
  { intros r' Hin. cbn. unfold w'. rewrite lookup_insert_ne by (intros ->; done). done. }
  assert (Hprop : ∀ r', r' ∈ ranges m → proper_range w' r').
  { intros r' Hin. destruct (Hw r' Hin) as [E1 E2].
    unfold proper_range. rewrite E1, E2. by apply (wf_proper m (ram_wf m Hok)). }
  assert (Hnew : proper_range w' r).
  { unfold proper_range. cbn. unfold w'. rewrite lookup_insert_eq. cbn. lia. }
  assert (Hmods : ∀ r', r' ∈ ranges m → ∃ x, w' !! r' = Some x ∧ module_ok x).
  { intros r' Hin. unfold w'. rewrite lookup_insert_ne by (intros ->; done).
    by apply Hok. }
  assert (Hdis : ∀ i j r1 r2, ranges m !! i = Some r1 → ranges m !! j = Some r2 → i ≠ j →
    overlaps w' r1 r2 = false).
  { intros i j r1 r2 Hi Hj Hij. rewrite <- (wf_disjoint m (ram_wf m Hok) i j r1 r2) by done.
    destruct (Hw r1) as [E1 E2]; [by eapply list_elem_of_lookup_2|].
    destruct (Hw r2) as [E3 E4]; [by eapply list_elem_of_lookup_2|].
    unfold overlaps. by rewrite E1, E2, E3, E4. }
  assert (Eq : map_at_physical_address r pa m =
    add_range r (m <| store := w' |>)).
  { assert (Es : zoom store (setBase r pa) m = Some ((), m <| store := w' |>, [])).
    { unfold zoom. cbn. unfold zoom_key, id. by rewrite Hx. }
    unfold map_at_physical_address. unfold bindM at 1. rewrite Es.
    by destruct (add_range r _) as [[[? ?] ?]|]. }
  rewrite Eq. unfold add_range. rewrite !gets_bind. simpl.
  destruct (existsb (overlaps w' r) (ranges m)) eqn:Ex.
  - exists (m <| store := w' |>). split; [|split; [done|right]].
    + split; [split|..]; simpl; auto; apply Hok.
    + split; [done|]. split; [done|]. apply existsb_exists in Ex as (r' & Hin & Ho).
      exists r'. split; [by apply list_elem_of_In|done].
  - exists (m <| store := w' |> <| ranges := ranges m ++ [r] |>).
    split; [|split; [done|by left]].
    pose proof (existsb_overlaps w' r (ranges m) Ex) as Hno.
    split; [split|..]; simpl; [| | | |apply Hok].
    + intros r' [Hin | ->%list_elem_of_singleton]%elem_of_app; auto.
    + intros i j r1 r2 Hi Hj Hij.
      apply lookup_app_Some in Hi as [Hi | [Hl1 Hi]];
      apply lookup_app_Some in Hj as [Hj | [Hl2 Hj]].
      * eauto.
      * apply list_lookup_singleton_Some in Hj as [_ <-].
        apply list_elem_of_lookup_2 in Hi. rewrite overlaps_sym; auto.
      * apply list_lookup_singleton_Some in Hi as [_ <-].
        apply list_elem_of_lookup_2 in Hj. auto.
      * apply list_lookup_singleton_Some in Hi as [? <-].
        apply list_lookup_singleton_Some in Hj as [? <-]. lia.
    + intros r' Hl. apply elem_of_app. left. by apply (wf_last m (ram_wf m Hok)).
    + intros r' [Hin | ->%list_elem_of_singleton]%elem_of_app; [by apply Hmods|].
      exists x'. unfold w'. by rewrite lookup_insert_eq.
Qed.

(** ** Properties *)

(** C6 the mapper reads memory modules as a byte-addressed memory in the byte
    order of the target: a granted access that is aligned and mapped returns
    the word, halfword or byte whose bytes are there, raises nothing and
    leaves the memory as it was, whatever the byte order of the host. *)
Theorem fetch_reads_memory (m : mapper) (now a mode c : Z) (Hok : ram_ok m) :
  (∀ w, a mod 4 = 0 → word_at m a w → granted now a mode c m →
     ∃ m', fetch_word now a mode c m = Some (w, m', []) ∧ same_memory m m') ∧
  (∀ h, a mod 2 = 0 → half_at m a h → granted now a DATALOAD c m →
     ∃ m', fetch_halfword now a c m = Some (h, m', []) ∧ same_memory m m') ∧
  (∀ b, phys_byte m a = Some b → granted now a DATALOAD c m →
     ∃ m', fetch_byte now a c m = Some (b, m', []) ∧ same_memory m m').
Proof.
  split_and!; intros; eauto using fetch_word_ram, fetch_halfword_ram, fetch_byte_ram.
Qed.

(** C15 a granted, aligned and mapped store writes the bytes of the datum in the
    byte order of the target and no other byte, and raises nothing. *)
Theorem store_writes_memory (m : mapper) (now a c r : Z) (Hok : ram_ok m)
    (Hr : range_at m a = Some r) (Hg : granted now a DATASTORE c m) :
  (∀ d, is_u32 d → a mod 4 = 0 →
     ∃ m', store_word now a d c m = Some ((), m', []) ∧
       stored m m' a 4 (byte_of (opt_bigendian m) 4 d)) ∧
  (∀ d, is_u16 d → a mod 2 = 0 →
     ∃ m', store_halfword now a d c m = Some ((), m', []) ∧
       stored m m' a 2 (byte_of (opt_bigendian m) 2 d)) ∧
  (∀ d, is_u8 d →
     ∃ m', store_byte now a d c m = Some ((), m', []) ∧ stored m m' a 1 (λ _, d)).
Proof.
  split_and!; intros; eauto using store_word_ram, store_halfword_ram, store_byte_ram.
Qed.

(** Mapping a memory module that is not mapped yet, at a word-aligned address
    and below the top of the address space, keeps the memory well formed; it is
    added at the end of the ranges and 0 is returned, or it is refused with -1
    and the ranges are unchanged because it overlaps one of them. *)
Theorem map_module (r pa : Z) (x : Ram.t) (m : mapper) (Hok : ram_ok m)
    (Hx : store m !! r = Some x) (Hr : r ∉ ranges m) (Hm : module_ok x)
    (Ha : pa mod 4 = 0) (H0 : 0 ≤ pa) (He : 0 < Ram.extent x)
    (Htop : pa + Ram.extent x < 2 ^ 32) :
  ∃ m', ram_ok m' ∧
    ((map_at_physical_address r pa m = Some (0, m', []) ∧ ranges m' = ranges m ++ [r]) ∨
     (map_at_physical_address r pa m = Some (-1, m', []) ∧ ranges m' = ranges m ∧
      ∃ r', r' ∈ ranges m ∧ overlaps (store m') r r' = true)).
Proof.
  destruct (map_ram r x pa m) as (m' & ? & _ & ?); eauto.
Qed.

End Physical.

(** ** Witnesses: the concrete mapper of Mapper.v on a little-endian host *)

Lemma demo_module : module_ok (Ram.MemoryModule 16 3).
Proof. split; try reflexivity. repeat constructor; lia. Qed.

Lemma demo_ram_ok reqs : ram_ok false (demo reqs).
Proof.
  split; [apply demo_wf| |done].
  intros r ->%list_elem_of_singleton. eexists. split; [reflexivity|].
  split; try reflexivity. repeat constructor; lia.
Qed.

Lemma fetch_reads_memory_witness : ∃ m',
  fetch_word (H := Ram.store_ops false) 40 4100 DATALOAD 7
    (demo {[ (4100, DATALOAD, 7) := 20 ]}) = Some (0, m', []).
Proof.
  destruct (fetch_reads_memory false (demo {[ (4100, DATALOAD, 7) := 20 ]}) 40 4100 DATALOAD 7
    (demo_ram_ok _)) as [Hw _].
  destruct (Hw 0) as (m' & E & _); [reflexivity| | |exists m'; exact E].
  - split; [split; lia|]. intros k Hk.
    assert (k = 0 ∨ k = 1 ∨ k = 2 ∨ k = 3) as [-> | [-> | [-> | ->]]] by lia; reflexivity.
  - right. exists 20, 1. split; [reflexivity|]. split; [reflexivity|]. vm_compute. congruence.
Defined.

Lemma store_writes_memory_witness : ∃ m',
  store_word (H := Ram.store_ops false) 40 4100 0x12345678 7
    (demo {[ (4100, DATASTORE, 7) := 20 ]}) = Some ((), m', []) ∧
  phys_byte false m' 4100 = Some 0x12.
Proof.
  destruct (store_writes_memory false (demo {[ (4100, DATASTORE, 7) := 20 ]}) 40 4100 7 1
    (demo_ram_ok _)) as [Hw _]; [reflexivity| |].
  - right. exists 20, 1. split; [reflexivity|]. split; [reflexivity|]. vm_compute. congruence.
  - destruct (Hw 0x12345678) as (m' & E & _ & _ & Hb & _); [split; lia|reflexivity|].
    exists m'. split; [exact E|]. apply (Hb 0). lia.
Defined.

Lemma map_module_witness : ∃ m',
  ram_ok false m' ∧
  map_at_physical_address (H := Ram.store_ops false) 1 4096
    (Mapper.Mapper true false 8 {[ 1 := Ram.MemoryModule 16 3 ]}) = Some (0, m', []).
Proof.
  destruct (map_module false 1 4096 (Ram.MemoryModule 16 3)
    (Mapper.Mapper true false 8 {[ 1 := Ram.MemoryModule 16 3 ]}))
    as (m' & Hok & [[E _] | [E _]]).
  - apply mapper_ram_ok.
  - reflexivity.
  - apply not_elem_of_nil.
  - apply demo_module.
  - reflexivity.
  - lia.
  - reflexivity.
  - reflexivity.
  - exists m'. split; [exact Hok|exact E].
  - exfalso. vm_compute in E. discriminate E.
Defined.
