(* ===== verification/Cache.v ===== *)
(** * Cache: the set-associative write-back cache (cache.h, cache.cc,
      cacheinstr.h)

    The cache fills and writes back one block at a time through the memory port
    of the bus, one word per call of [step].  It is proved against [MemPort]. *)

From S2P Require Import Prelude Effects Types Mapper.

Module Cache.

(** ** cacheinstr.h *)
Definition DCACHE_OPCODE_START : Z := 0x10.
Definition ICACHE_OP_IDX_INV : Z := 0x01.
Definition ICACHE_OP_HIT_INV : Z := 0x09.
Definition ICACHE_OP_IDX_LTAG : Z := 0x04.
Definition ICACHE_OP_IDX_STAG : Z := 0x05.
Definition DCACHE_OP_IDX_INV : Z := 0x11.
Definition DCACHE_OP_IDX_WB : Z := 0x12.
Definition DCACHE_OP_IDX_WBINV : Z := 0x13.
Definition DCACHE_OP_IDX_LTAG : Z := 0x14.
Definition DCACHE_OP_IDX_STAG : Z := 0x15.
Definition DCACHE_OP_IDX_FWB : Z := 0x16.
Definition DCACHE_OP_IDX_FWBINV : Z := 0x17.
Definition DCACHE_OP_SETLINE : Z := 0x18.
Definition DCACHE_OP_HIT_INV : Z := 0x19.
Definition DCACHE_OP_HIT_WB : Z := 0x1A.
Definition DCACHE_OP_HIT_WBINV : Z := 0x1B.
Definition DCACHE_OP_CHANGE : Z := 0x1C.
Definition DCACHE_OP_RCHANGE : Z := 0x1D.
Definition DCACHE_OP_HIT_FWB : Z := 0x1E.
Definition DCACHE_OP_HIT_FWBINV : Z := 0x1F.

(** ** cache.h *)
Inductive stat := CACHE_IDLE | CACHE_WB | CACHE_FETCH | CACHE_OP_WB.
#[global] Instance stat_eq_dec : EqDecision stat.
Proof. solve_decision. Defined.

Record Entry := MkEntry {
  valid : bool;
  dirty : bool;
  last_access : Z;     (* int *)
  tag : Z;             (* uint32 *)
  data : list Z        (* uint32[word_size] *)
}.
#[global] Instance Entry_eta : Eta Entry := λ e,
  MkEntry (valid e) (dirty e) (last_access e) (tag e) (data e).

Record CacheOpState := MkOp {
  counter : Z;         (* unsigned *)
  requested_addr : Z;
  op_way : Z;
  op_index : Z;
  op_mode : Z;
  last_invalidate : bool;
  op_client : Z
}.
#[global] Instance Op_eta : Eta CacheOpState := λ o,
  MkOp (counter o) (requested_addr o) (op_way o) (op_index o) (op_mode o)
       (last_invalidate o) (op_client o).

(** The pointer [cache_op_state]: never set (the constructor leaves it
    uninitialised), to a live object, or to a deleted one. *)
Inductive op_ptr := Wild | Live (o : CacheOpState) | Deleted (o : CacheOpState).

Record t := Mk {
  block_count : Z;
  block_size : Z;
  way_size : Z;
  word_size : Z;
  offset_len : Z;
  index_len : Z;
  cache_miss_counts : Z;
  cache_hit_counts : Z;
  cache_wb_counts : Z;
  blocks : list (list Entry);          (* [way][index] *)
  isisolated : bool;
  status : stat;
  next_status : stat;
  last_state_update_time : Z;          (* int *)
  cache_op_state : op_ptr
}.
#[global] Instance t_eta : Eta t := λ c,
  Mk (block_count c) (block_size c) (way_size c) (word_size c) (offset_len c) (index_len c)
     (cache_miss_counts c) (cache_hit_counts c) (cache_wb_counts c) (blocks c)
     (isisolated c) (status c) (next_status c) (last_state_update_time c) (cache_op_state c).

(** [Cache::Cache] in cycle [now].  [fresh w i] is what the allocator left in
    the tag and the data of the entry; the source does not initialise them. *)
Definition Cache (now : Z) (fresh : Z → Z → Z * list Z)
    (block_count_ block_size_ way_size_ : Z) : t := {|
  block_count := block_count_;
  block_size := block_size_;
  way_size := way_size_;
  word_size := block_size_ / 4;
  offset_len := Z.log2 block_size_;
  index_len := Z.log2 block_count_;
  cache_miss_counts := 0; cache_hit_counts := 0; cache_wb_counts := 0;
  blocks :=
    (λ w, (λ i, MkEntry false false (s32 now) (fst (fresh w i)) (snd (fresh w i)))
            <$> seqZ 0 block_count_) <$> seqZ 0 way_size_;
  isisolated := false;
  status := CACHE_IDLE; next_status := CACHE_IDLE;
  last_state_update_time := 0;
  cache_op_state := Wild
|}.

(** ** Address fields *)

(** [addr_separete]: tag, index and offset. *)
Definition addr_separete (c : t) (addr : Z) : Z * Z * Z :=
  (Z.shiftr addr (offset_len c + index_len c),
   Z.shiftr (Z.land addr (Z.shiftl 1 (index_len c + offset_len c) - 1)) (offset_len c),
   Z.land addr (Z.shiftl 1 (offset_len c) - 1)).

(** A cache together with the bus it is connected to. *)
Record sys {B : Type} := MkSys { self : t; physmem : B }.
Arguments sys : clear implicits.
#[global] Instance sys_eta {B} : Eta (sys B) := λ s, MkSys B (self s) (physmem s).

Definition op_counter_set (n : Z) (p : op_ptr) : op_ptr :=
  match p with Live o => Live (o <| counter := n |>) | _ => p end.

Section Own.
  (** [machine->num_cycles], [machine->host_bigendian] *)
  Variable now : Z.
  Variable host : bool.

(** [blocks[way][index]] *)
Definition block_at (c : t) (way index : Z) : option Entry :=
  (row ← nthz (blocks c) way; nthz row index)%stdpp.

Definition get_block (way index : Z) : M t Entry :=
  c ← gets id; from_option (block_at c way index).

Definition set_block (way index : Z) (f : Entry → Entry) : M t unit :=
  row ← aget blocks way;
  e ← from_option (nthz row index);
  row' ← from_option (setz row index (f e));
  aset blocks way row'.

Definition calc_addr (way index : Z) : M t Z :=
  c ← gets id;
  e ← get_block way index;
  mret (u32 (u32 (Z.shiftl (tag e) (offset_len c + index_len c))
             + Z.shiftl index (offset_len c))).

(** The loop of [cache_hit] from [way] on, [n] ways left. *)
Fixpoint hit_way (tg index way : Z) (n : nat) : M t (option Z) :=
  match n with
  | O => mret None
  | S n =>
      e ← get_block way index;
      if (tag e =? tg) && valid e then mret (Some way)
      else hit_way tg index (way + 1) n
  end.

(** [cache_hit]: the index, way and offset of a hit. *)
Definition cache_hit (addr : Z) : M t (option (Z * Z * Z)) :=
  c ← gets id;
  let '(tg, index, offset) := addr_separete c addr in
  w ← hit_way tg index 0 (Z.to_nat (way_size c));
  mret ((λ w, (index, w, offset)) <$> w).

Definition ready (addr : Z) : M t bool :=
  h ← cache_hit addr; mret (bool_decide (is_Some h)).

(** The search of [request_block]: the first way that is not valid, with
    [true], or the least recently used one. *)
Fixpoint find_way (index way lru : Z) (n : nat) : M t (Z * bool) :=
  match n with
  | O => mret (lru, false)
  | S n =>
      e_lru ← get_block lru index;
      e ← get_block way index;
      let lru := if last_access e <? last_access e_lru then way else lru in
      if negb (valid e) then mret (way, true)
      else find_way index (way + 1) lru n
  end.

(** The search of the set-line operation. *)
Fixpoint find_line (index way lru : Z) (n : nat) : M t Z :=
  match n with
  | O => mret lru
  | S n =>
      e ← get_block way index;
      if negb (valid e) then mret way
      else
      e_lru ← get_block lru index;
      let lru := if last_access e <? last_access e_lru then way else lru in
      find_line index (way + 1) lru n
  end.

Definition cache_isolate (flag : bool) : M t unit := isisolated <~ flag.

(** ** Reads and writes of a cached block *)

(** What every access does with the block it hits; [valid] is known from the
    hit. *)
Definition hit_block (addr : Z) : M t (option (Z * Z * Z * Entry)) :=
  h ← cache_hit addr;
  match h with
  | None => mret None
  | Some (index, way, offset) =>
      modify (λ c, c <| cache_hit_counts ::= λ n, s32 (n + 1) |>);;
      entry ← get_block way index;
      if negb (valid entry) then mret None
      else mret (Some (index, way, offset, entry))
  end.

Definition fetch_word (addr mode client : Z) : M t Z :=
  if negb (addr mod 4 =? 0) then raise client AdEL mode (-1);; mret 0xffffffff
  else
  h ← hit_block addr;
  match h with
  | None => mret 0xffffffff
  | Some (index, way, offset, entry) =>
      set_block way index (λ e, e <| last_access := s32 now |>);;
      from_option (nthz (data entry) (Z.shiftr offset 2))
  end.

(** The [n]-th halfword and byte of a word in host memory. *)
Definition host_half (w n : Z) : Z :=
  Z.land (Z.shiftr w (16 * (if host then 1 - n else n))) 0xffff.
Definition host_byte (w n : Z) : Z := byte_of host 4 w n.
Definition host_set_half (w n h : Z) : Z :=
  let s := 16 * (if host then 1 - n else n) in
  Z.lor (Z.land w (Z.lxor 0xffffffff (Z.shiftl 0xffff s))) (Z.shiftl (u16 h) s).
Definition host_set_byte (w n b : Z) : Z :=
  let s := 8 * (if host then 3 - n else n) in
  Z.lor (Z.land w (Z.lxor 0xffffffff (Z.shiftl 0xff s))) (Z.shiftl (u8 b) s).

Definition store_word (addr d client : Z) : M t unit :=
  if negb (addr mod 4 =? 0) then raise client AdES DATASTORE (-1)
  else
  h ← hit_block addr;
  match h with
  | None => mret ()
  | Some (index, way, offset, entry) =>
      l ← from_option (setz (data entry) (Z.shiftr offset 2) d);
      set_block way index
        (λ e, e <| data := l |> <| dirty := true |> <| last_access := s32 now |>)
  end.

Section Swapped.
  (** [physmem->byteswapped] *)
  Variable byteswapped : bool.

Definition fetch_halfword (addr client : Z) : M t Z :=
  if negb (addr mod 2 =? 0) then raise client AdEL DATALOAD (-1);; mret 0xffff
  else
  h ← hit_block addr;
  match h with
  | None => mret 0xffff
  | Some (index, way, offset, entry) =>
      let n := Z.land (Z.shiftr offset 1) 0x1 in
      let n := if byteswapped then u32 (1 - n) else n in
      set_block way index (λ e, e <| last_access := s32 now |>);;
      w ← from_option (nthz (data entry) (Z.shiftr offset 2));
      mret (host_half w n)
  end.

Definition fetch_byte (addr client : Z) : M t Z :=
  h ← hit_block addr;
  match h with
  | None => mret 0xff
  | Some (index, way, offset, entry) =>
      let n := Z.land offset 0x3 in
      let n := if byteswapped then u32 (3 - n) else n in
      set_block way index (λ e, e <| last_access := s32 now |>);;
      w ← from_option (nthz (data entry) (Z.shiftr offset 2));
      mret (host_byte w n)
  end.

Definition store_halfword (addr d client : Z) : M t unit :=
  if negb (addr mod 2 =? 0) then raise client AdES DATASTORE (-1)
  else
  h ← hit_block addr;
  match h with
  | None => mret ()
  | Some (index, way, offset, entry) =>
      let n := Z.land (Z.shiftr offset 1) 0x1 in
      let n := if byteswapped then u32 (1 - n) else n in
      w ← from_option (nthz (data entry) (Z.shiftr offset 2));
      l ← from_option (setz (data entry) (Z.shiftr offset 2) (host_set_half w n d));
      set_block way index
        (λ e, e <| data := l |> <| dirty := true |> <| last_access := s32 now |>)
  end.

Definition store_byte (addr d client : Z) : M t unit :=
  h ← hit_block addr;
  match h with
  | None => mret ()
  | Some (index, way, offset, entry) =>
      let n := Z.land offset 0x3 in
      let n := if byteswapped then u32 (3 - n) else n in
      w ← from_option (nthz (data entry) (Z.shiftr offset 2));
      l ← from_option (setz (data entry) (Z.shiftr offset 2) (host_set_byte w n d));
      set_block way index
        (λ e, e <| data := l |> <| dirty := true |> <| last_access := s32 now |>)
  end.

End Swapped.
End Own.

(** ** Block transfers over the bus *)
Section Bus.
  Context {B : Type} `{MemPort B}.
  Variable now : Z.

(** [cache_op_state->...] of a live object. *)
Definition op : M (sys B) CacheOpState :=
  s ← gets self;
  match cache_op_state s with
  | Live o => mret o
  | Wild | Deleted _ => crash
  end.

Definition set_counter (n : Z) : M (sys B) unit :=
  modify (λ s, s <| self ::= λ c, c <| cache_op_state ::= op_counter_set n |> |>).

(** [delete cache_op_state; physmem->release_bus(cache_op_state->client)]: the
    client is read from the object just deleted, which still holds it. *)
Definition delete_release : M (sys B) unit :=
  o ← op;
  modify (λ s, s <| self ::= λ c, c <| cache_op_state := Deleted o |> |>);;
  zoom physmem (mem_release_bus now (op_client o)).

Definition set_next (st : stat) : M (sys B) unit :=
  modify (λ s, s <| self ::= λ c, c <| next_status := st |> |>).

(** [--cache_op_state->counter], an [unsigned]. *)
Definition dec_counter : M (sys B) Z :=
  o ← op;
  let n := u32 (counter o - 1) in
  set_counter n;; mret n.

(** The first visit of a transfer asks for every word of the block. *)
Definition request_all (o : CacheOpState) (addr mode : Z) : M (sys B) unit :=
  ws ← gets (λ s, word_size (self s));
  when (counter o =? ws)
    (for_range 0 (Z.to_nat ws)
       (λ i, zoom physmem (mem_request_word now (u32 (addr + 4 * i)) mode (op_client o)))).

Definition cache_wb : M (sys B) unit :=
  o ← op;
  let way := op_way o in let index := op_index o in
  ws ← gets (λ s, word_size (self s));
  base ← zoom self (calc_addr way index);
  let wb_addr := u32 (base + u32 (u32 (ws - counter o) * 4)) in
  request_all o wb_addr DATASTORE;;
  rdy ← zoom physmem (mem_ready now wb_addr DATASTORE (op_client o));
  when rdy
    (e ← zoom self (get_block way index);
     w ← from_option (nthz (data e) (u32 (ws - counter o)));
     bs ← gets (λ s, mem_byteswapped (physmem s));
     zoom physmem (mem_store_word now wb_addr (host_to_mips_word bs w) (op_client o));;
     n ← dec_counter;
     when (n =? 0)
       (st ← gets (λ s, status (self s));
        (if bool_decide (st = CACHE_OP_WB) then
           zoom self (set_block way index (λ e, e <| dirty := false |>));;
           when (last_invalidate o)
             (zoom self (set_block way index (λ e, e <| valid := false |>)));;
           set_next CACHE_IDLE;;
           delete_release
         else
           set_next CACHE_FETCH;;
           set_counter ws);;
        modify (λ s, s <| self ::= λ c, c <| cache_wb_counts ::= λ n, s32 (n + 1) |> |>))).

Definition cache_fetch : M (sys B) unit :=
  o ← op;
  c ← gets self;
  let ws := word_size c in
  let fetch_addr :=
    u32 (Z.land (requested_addr o) (lnot32 (Z.shiftl 1 (offset_len c) - 1))
         + u32 (u32 (ws - counter o) * 4)) in
  let way := op_way o in let index := op_index o in
  let mode := if op_mode o =? INSTFETCH then INSTFETCH else DATALOAD in
  request_all o fetch_addr mode;;
  rdy ← zoom physmem (mem_ready now fetch_addr mode (op_client o));
  when rdy
    (w ← zoom physmem (mem_fetch_word now fetch_addr mode (op_client o));
     bs ← gets (λ s, mem_byteswapped (physmem s));
     e ← zoom self (get_block way index);
     l ← from_option (setz (data e) (u32 (ws - counter o)) (host_to_mips_word bs w));
     zoom self (set_block way index (λ e, e <| data := l |>));;
     n ← dec_counter;
     when (n =? 0)
       (set_next CACHE_IDLE;;
        let '(tg, _, _) := addr_separete c fetch_addr in
        zoom self (set_block way index
          (λ e, e <| tag := tg |> <| valid := true |> <| dirty := false |>));;
        delete_release)).

Definition step : M (sys B) unit :=
  modify (λ s,
    if u32 (last_state_update_time (self s)) <? now
    then s <| self ::= λ c, c <| status := next_status c |>
                             <| last_state_update_time := s32 now |> |>
    else s);;
  st ← gets (λ s, status (self s));
  match st with
  | CACHE_WB | CACHE_OP_WB => cache_wb
  | CACHE_FETCH => cache_fetch
  | CACHE_IDLE => mret ()
  end.

Definition reset_stat : M (sys B) unit :=
  st ← gets (λ s, status (self s));
  when (negb (bool_decide (st = CACHE_IDLE)))
    (modify (λ s, s <| self ::= λ c, c <| status := CACHE_IDLE |> |>);;
     o ← op;
     zoom physmem (mem_release_bus now (op_client o));;
     modify (λ s, s <| self ::= λ c, c <| cache_op_state := Deleted o |> |>)).

(** [new CacheOpState{word_size, addr, way, index, mode, last_invalidate, client}] *)
Definition new_op (addr way index mode : Z) (last_inv : bool) (client : Z) : M (sys B) unit :=
  modify (λ s, s <| self ::= λ c, c <| cache_op_state :=
    Live (MkOp (word_size c) addr way index mode last_inv client) |> |>).

Definition request_block (addr mode client : Z) : M (sys B) unit :=
  c ← gets self;
  let '(tg, index, offset) := addr_separete c addr in
  if negb (bool_decide (status c = CACHE_IDLE)) then mret () else
  granted ← zoom physmem (mem_acquire_bus now client);
  when granted
    ('(way, find) ← zoom self (find_way index 0 0 (Z.to_nat (way_size c)));
     (if negb find then
        e ← zoom self (get_block way index);
        set_next (if negb (isisolated c) && negb (mode =? INSTFETCH) && dirty e
                  then CACHE_WB else CACHE_FETCH)
      else set_next CACHE_FETCH);;
     new_op addr way index mode false client;;
     modify (λ s, s <| self ::= λ c, c <| cache_miss_counts ::= λ n, s32 (n + 1) |> |>)).

(** The operation itself, the bus granted: the index and way it found ([None]
    when the source leaves them uninitialised), the mode and the
    [last_invalidate] of the write-back it may start. *)
Definition run_cache_op (opcode addr : Z) : M (sys B) (option (Z * Z) * Z * bool) :=
  c ← gets self;
  let '(tg, idx, _) := addr_separete c addr in
  let missed := Some (idx, way_size c) in
  let inval (mode : Z) : M (sys B) (option (Z * Z) * Z * bool) :=
    h ← zoom self (cache_hit addr);
    match h with
    | Some (index, way, _) =>
        zoom self (set_block way index (λ e, e <| valid := false |>));;
        mret (Some (index, way), mode, false)
    | None => mret (missed, mode, false)
    end in
  let writeback (last_inv : bool) : M (sys B) (option (Z * Z) * Z * bool) :=
    h ← zoom self (cache_hit addr);
    match h with
    | Some (index, way, _) =>
        e ← zoom self (get_block way index);
        (if dirty e then set_next CACHE_OP_WB
         else when ((opcode =? DCACHE_OP_HIT_FWB) || (opcode =? DCACHE_OP_HIT_INV))
                (set_next CACHE_OP_WB));;
        mret (Some (index, way), DATALOAD, last_inv)
    | None => mret (missed, DATALOAD, last_inv)
    end in
  if opcode =? DCACHE_OP_SETLINE then
    h ← zoom self (cache_hit addr);
    match h with
    | Some (index, way, _) => mret (Some (index, way), DATALOAD, false)
    | None =>
        way ← zoom self (find_line idx 0 0 (Z.to_nat (way_size c)));
        e ← zoom self (get_block way idx);
        (if dirty e then set_next CACHE_OP_WB
         else zoom self (set_block way idx
                (λ e, e <| valid := true |> <| tag := tg |> <| dirty := false |>)));;
        mret (Some (idx, way), DATALOAD, false)
    end
  else if opcode =? ICACHE_OP_HIT_INV then inval INSTFETCH
  else if opcode =? DCACHE_OP_HIT_INV then inval DATALOAD
  else if (opcode =? DCACHE_OP_HIT_WBINV) || (opcode =? DCACHE_OP_HIT_FWBINV)
       then writeback true
  else if (opcode =? DCACHE_OP_HIT_WB) || (opcode =? DCACHE_OP_HIT_FWB)
       then writeback false
  else mret (None, DATALOAD, false).   (* "not implemented" messages, or no case *)

(** [exec_cache_op]: [false] when it stalls the processor. *)
Definition exec_cache_op (opcode addr client : Z) : M (sys B) bool :=
  c ← gets self;
  if negb (bool_decide (status c = CACHE_IDLE)) then mret false else
  granted ← zoom physmem (mem_acquire_bus now client);
  if negb granted then mret false else
  '(found, mode, last_inv) ← run_cache_op opcode addr;
  ns ← gets (λ s, next_status (self s));
  if bool_decide (ns = CACHE_OP_WB)
  then '(index, way) ← from_option found;
       new_op addr way index mode last_inv client;; mret false
  else mret true.

End Bus.

(** [report_prof]: the access count, and the counts its two ratios divide. *)
Definition report_prof (c : t) : Z * (Z * Z) * (Z * Z) :=
  let cache_access := u32 (cache_miss_counts c + cache_hit_counts c) in
  (cache_access, (cache_miss_counts c, cache_access),
   (cache_wb_counts c, cache_miss_counts c)).

(** ** Well-formed caches *)

Record wf (c : t) : Prop := {
  wf_ways : Z.of_nat (length (blocks c)) = way_size c;
  wf_way_pos : 0 < way_size c;
  wf_rows : ∀ w row, blocks c !! w = Some row →
    Z.of_nat (length row) = block_count c ∧
    ∀ i e, row !! i = Some e → Z.of_nat (length (data e)) = word_size c;
  wf_index : 0 ≤ index_len c ∧ 2 ^ index_len c ≤ block_count c;
  wf_offset : 2 ≤ offset_len c ∧ 2 ^ offset_len c ≤ 4 * word_size c;
  wf_word_size : word_size c < 2 ^ 30
}.

Definition in_range (c : t) (way index : Z) : Prop :=
  0 ≤ way < way_size c ∧ 0 ≤ index < 2 ^ index_len c.

Definition tag_of (c : t) (addr : Z) : Z := fst (fst (addr_separete c addr)).
Definition index_of (c : t) (addr : Z) : Z := snd (fst (addr_separete c addr)).
Definition offset_of (c : t) (addr : Z) : Z := snd (addr_separete c addr).

Lemma land_low a k : 0 ≤ k → Z.land a (Z.shiftl 1 k - 1) = a mod 2 ^ k.
Proof.
  intros. rewrite Z.shiftl_1_l, <- Z.land_ones by done. f_equal.
  rewrite Z.ones_equiv. lia.
Qed.

(** The fields in arithmetic. *)
Lemma addr_fields c a : wf c →
  tag_of c a = a / 2 ^ (offset_len c + index_len c) ∧
  index_of c a = (a / 2 ^ offset_len c) mod 2 ^ index_len c ∧
  offset_of c a = a mod 2 ^ offset_len c.
Proof.
  intros Hwf. destruct (wf_index c Hwf), (wf_offset c Hwf).
  unfold tag_of, index_of, offset_of, addr_separete; cbn [fst snd].
  rewrite !land_low, !Z.shiftr_div_pow2 by lia. split_and!; try done.
  rewrite Z.pow_add_r by lia. rewrite (Z.mul_comm (2 ^ index_len c)).
  rewrite Z.rem_mul_r by (try apply Z.pow_nonzero; try apply Z.pow_pos_nonneg; lia).
  rewrite (Z.mul_comm (2 ^ offset_len c)).
  rewrite Z.div_add by (apply Z.pow_nonzero; lia).
  rewrite Z.div_small by (apply Z.mod_pos_bound, Z.pow_pos_nonneg; lia). lia.
Qed.

Lemma fields_range c a : wf c →
  0 ≤ index_of c a < 2 ^ index_len c ∧ 0 ≤ offset_of c a < 2 ^ offset_len c ∧
  0 ≤ Z.shiftr (offset_of c a) 2 < word_size c.
Proof.
  intros Hwf. destruct (wf_index c Hwf), (wf_offset c Hwf).
  destruct (addr_fields c a Hwf) as (_ & -> & ->).
  assert (0 < 2 ^ index_len c) by (apply Z.pow_pos_nonneg; lia).
  assert (0 < 2 ^ offset_len c) by (apply Z.pow_pos_nonneg; lia).
  pose proof (Z.mod_pos_bound (a / 2 ^ offset_len c) (2 ^ index_len c) ltac:(lia)).
  pose proof (Z.mod_pos_bound a (2 ^ offset_len c) ltac:(lia)).
  split; [done|split; [done|]]. rewrite Z.shiftr_div_pow2 by lia. change (2 ^ 2) with 4.
  split; [apply Z.div_pos; lia|]. apply Z.div_lt_upper_bound; lia.
Qed.

(** The address that the fields of a block stand for. *)
Lemma fields_addr c a : wf c → 0 ≤ a →
  a = tag_of c a * 2 ^ (offset_len c + index_len c) + index_of c a * 2 ^ offset_len c
      + offset_of c a.
Proof.
  intros Hwf Ha. destruct (wf_index c Hwf), (wf_offset c Hwf).
  destruct (addr_fields c a Hwf) as (-> & -> & ->).
  rewrite Z.pow_add_r by lia. rewrite <- Z.div_div by
    (try apply Z.pow_nonzero; try apply Z.pow_pos_nonneg; lia).
  set (b := 2 ^ offset_len c). set (n := 2 ^ index_len c).
  assert (0 < b) by (apply Z.pow_pos_nonneg; lia).
  assert (0 < n) by (apply Z.pow_pos_nonneg; lia).
  pose proof (Z.div_mod a b ltac:(lia)). pose proof (Z.div_mod (a / b) n ltac:(lia)). nia.
Qed.

Lemma block_at_ok c way index : wf c → in_range c way index →
  ∃ e, block_at c way index = Some e ∧ Z.of_nat (length (data e)) = word_size c.
Proof.
  intros Hwf [Hw Hi]. unfold block_at.
  destruct (nthz_is_Some (blocks c) way) as [row Hrow]; [rewrite (wf_ways c Hwf); lia|].
  rewrite Hrow. simpl. apply nthz_Some in Hrow as [_ Hrow].
  destruct (wf_rows c Hwf _ _ Hrow) as [Hlen Hdata].
  destruct (wf_index c Hwf).
  destruct (nthz_is_Some row index) as [e He]; [lia|].
  exists e. split; [done|]. apply nthz_Some in He as [_ He]. eauto.
Qed.

Lemma get_block_eq c way index e : block_at c way index = Some e →
  get_block way index c = Some (e, c, []).
Proof. intros He. unfold get_block. rewrite gets_bind. unfold id. by rewrite He. Qed.

(** [set_block] as a pure update. *)
Definition upd_block (way index : Z) (f : Entry → Entry) (c : t) : t :=
  c <| blocks ::= alter (alter f (Z.to_nat index)) (Z.to_nat way) |>.

Lemma set_block_eq c way index e f : block_at c way index = Some e →
  set_block way index f c = Some ((), upd_block way index f c, []).
Proof.
  unfold block_at. intros He. apply bind_Some in He as (row & Hrow & He).
  unfold set_block, aget. rewrite bind_assoc, gets_bind. rewrite Hrow. unfold from_option.
  rewrite ret_bind, He, ret_bind.
  pose proof (nthz_Some _ _ _ Hrow) as [Hw Hrow']. pose proof (nthz_Some _ _ _ He) as [Hi He'].
  rewrite setz_Some by done. rewrite ret_bind. unfold aset. rewrite gets_bind, setz_Some by done.
  unfold from_option. rewrite ret_bind. unfold assign, upd_block. cbn [upd]. unfold setter_of.
  do 3 f_equal. destruct c; simpl in *. f_equal.
  apply list_eq. intros j. destruct (decide (j = Z.to_nat way)) as [->|].
  - rewrite list_lookup_insert_eq, list_lookup_alter_eq, Hrow' by lia. simpl. f_equal.
    apply list_eq. intros k. destruct (decide (k = Z.to_nat index)) as [->|].
    + rewrite list_lookup_insert_eq, list_lookup_alter_eq, He' by lia. done.
    + by rewrite list_lookup_insert_ne, list_lookup_alter_ne.
  - by rewrite list_lookup_insert_ne, list_lookup_alter_ne.
Qed.

Lemma block_at_upd c way index f w i : 0 ≤ way → 0 ≤ index →
  block_at (upd_block way index f c) w i =
    if (w =? way) && (i =? index) then f <$> block_at c w i else block_at c w i.
Proof.
  intros Hw Hi. unfold block_at, upd_block, nthz. simpl.
  destruct (Z.ltb_spec w 0); simpl; [by destruct (_ && _)|].
  destruct (Z.eqb_spec w way) as [->|Hne]; simpl.
  - rewrite list_lookup_alter_eq. destruct (blocks c !! Z.to_nat way) as [row|]; simpl;
      [|by destruct (_ =? _)].
    destruct (Z.ltb_spec i 0); [by destruct (_ =? _)|].
    destruct (Z.eqb_spec i index) as [->|].
    + by rewrite list_lookup_alter_eq.
    + by rewrite list_lookup_alter_ne by lia.
  - by rewrite list_lookup_alter_ne by lia.
Qed.

Lemma wf_upd c way index f : wf c →
  (∀ e, block_at c way index = Some e → length (data (f e)) = length (data e)) →
  0 ≤ way → 0 ≤ index → wf (upd_block way index f c).
Proof.
  intros [H1 H2 H3 H4 H5 H6] Hf Hw Hi. split; simpl; try done.
  - by rewrite length_alter.
  - intros w row Hrow. rewrite list_lookup_alter in Hrow. case_decide as Hd.
    + subst. apply fmap_Some in Hrow as (row0 & Hrow0 & ->).
      destruct (H3 _ _ Hrow0) as [Hl He]. rewrite length_alter. split; [done|].
      intros i e Hie. rewrite list_lookup_alter in Hie. case_decide as Hd'; [|eauto].
      subst. apply fmap_Some in Hie as (e0 & He0 & ->).
      rewrite Hf; [eauto|]. unfold block_at, nthz.
      destruct (Z.ltb_spec way 0); [lia|]. rewrite Hrow0. simpl.
      destruct (Z.ltb_spec index 0); [lia|]. done.
    + eauto.
Qed.

(** ** Hits *)

(** The first of the [n] ways from [way] on that [P] accepts. *)
Fixpoint first_way (P : Z → bool) (way : Z) (n : nat) : option Z :=
  match n with
  | O => None
  | S n => if P way then Some way else first_way P (way + 1) n
  end.

Lemma first_way_Some P n : ∀ way w, first_way P way n = Some w →
  way ≤ w < way + Z.of_nat n ∧ P w = true ∧ ∀ v, way ≤ v < w → P v = false.
Proof.
  induction n as [|n IH]; intros way w; simpl; [done|].
  destruct (P way) eqn:E.
  - intros [= <-]. split; [lia|]. split; [done|]. intros; lia.
  - intros (? & ? & Hall)%IH. split; [lia|]. split; [done|].
    intros v Hv. destruct (decide (v = way)) as [->|]; [done|]. apply Hall. lia.
Qed.

Lemma first_way_None P n : ∀ way, first_way P way n = None →
  ∀ v, way ≤ v < way + Z.of_nat n → P v = false.
Proof.
  induction n as [|n IH]; intros way; simpl; [intros; lia|].
  destruct (P way) eqn:E; [done|]. intros HN v Hv.
  destruct (decide (v = way)) as [->|]; [done|]. apply (IH (way + 1)); [done|lia].
Qed.

Lemma first_way_ext P Q n : ∀ way, (∀ v, way ≤ v < way + Z.of_nat n → P v = Q v) →
  first_way P way n = first_way Q way n.
Proof.
  induction n as [|n IH]; intros way HPQ; simpl; [done|].
  rewrite (HPQ way) by lia. destruct (Q way); [done|]. apply IH. intros; apply HPQ; lia.
Qed.

Definition holds (c : t) (tg index way : Z) : bool :=
  match block_at c way index with
  | Some e => (tag e =? tg) && valid e
  | None => false
  end.

(** The way [addr] hits in, if any. *)
Definition hit (c : t) (addr : Z) : option Z :=
  first_way (holds c (tag_of c addr) (index_of c addr)) 0 (Z.to_nat (way_size c)).

Lemma hit_way_eq c tg index n : wf c → ∀ way, 0 ≤ way → way + Z.of_nat n ≤ way_size c →
  0 ≤ index < 2 ^ index_len c →
  hit_way tg index way n c = Some (first_way (holds c tg index) way n, c, []).
Proof.
  intros Hwf. induction n as [|n IH]; intros way Hw Hn Hi; [done|].
  destruct (block_at_ok c way index Hwf) as (e & He & _); [split; lia|].
  simpl. rewrite (bind_eq _ _ _ _ _ (get_block_eq c way index e He)).
  unfold holds at 1. rewrite He. destruct (_ && _); [done|]. apply IH; lia.
Qed.

Lemma cache_hit_eq c addr : wf c →
  cache_hit addr c =
    Some ((λ w, (index_of c addr, w, offset_of c addr)) <$> hit c addr, c, []).
Proof.
  intros Hwf. unfold cache_hit. rewrite gets_bind. unfold id.
  pose proof (fields_range c addr Hwf) as (Hi & _ & _). unfold hit, index_of, tag_of, offset_of in *.
  destruct (addr_separete c addr) as [[tg index] offset]. cbn [fst snd] in *.
  pose proof (wf_way_pos c Hwf).
  erewrite bind_eq by (apply hit_way_eq; auto; lia). done.
Qed.

Lemma ready_eq c addr : wf c →
  ready addr c = Some (bool_decide (is_Some (hit c addr)), c, []).
Proof.
  intros Hwf. unfold ready. rewrite (bind_eq _ _ _ _ _ (cache_hit_eq c addr Hwf)).
  unfold mret, M_ret. do 3 f_equal. apply bool_decide_ext. rewrite fmap_is_Some. done.
Qed.

Lemma hit_range c addr w : hit c addr = Some w → 0 ≤ w < way_size c.
Proof. intros (? & _)%first_way_Some. lia. Qed.

Lemma hit_holds c addr w : hit c addr = Some w →
  ∃ e, block_at c w (index_of c addr) = Some e ∧ tag e = tag_of c addr ∧ valid e = true.
Proof.
  intros (_ & Hh & _)%first_way_Some. unfold holds in Hh.
  destruct (block_at c w _) as [e|]; [|done].
  apply andb_true_iff in Hh as [Ht Hv]. apply Z.eqb_eq in Ht. eauto.
Qed.

Definition count_hit (c : t) : t := c <| cache_hit_counts ::= λ n, s32 (n + 1) |>.

Lemma hit_block_miss c addr : wf c → hit c addr = None →
  hit_block addr c = Some (None, c, []).
Proof.
  intros Hwf Hh. unfold hit_block. rewrite (bind_eq _ _ _ _ _ (cache_hit_eq c addr Hwf)), Hh.
  done.
Qed.

Lemma hit_block_hit c addr w e : wf c → hit c addr = Some w →
  block_at c w (index_of c addr) = Some e →
  hit_block addr c = Some (Some (index_of c addr, w, offset_of c addr, e), count_hit c, []).
Proof.
  intros Hwf Hh He. unfold hit_block.
  rewrite (bind_eq _ _ _ _ _ (cache_hit_eq c addr Hwf)), Hh. cbn [fmap option_fmap option_map].
  erewrite bind_eq by reflexivity.
  erewrite bind_eq by (apply (get_block_eq (count_hit c)); exact He).
  destruct (hit_holds c addr w Hh) as (e' & He' & _ & Hv). rewrite He in He'.
  injection He' as <-. by rewrite Hv.
Qed.

(** A change that keeps the shape, the tags and the validity of the blocks
    keeps the hits. *)
Lemma hit_upd c c' addr : 
  offset_len c' = offset_len c → index_len c' = index_len c → way_size c' = way_size c →
  (∀ w, holds c' (tag_of c addr) (index_of c addr) w = holds c (tag_of c addr) (index_of c addr) w) →
  hit c' addr = hit c addr.
Proof.
  intros Ho Hi Hw Hh. unfold hit, tag_of, index_of, addr_separete in *.
  rewrite Ho, Hi, Hw in *. apply first_way_ext. intros. apply Hh.
Qed.

(** ** The words of the cache *)

(** The word the cache holds for [addr], if it hits. *)
Definition word_in (c : t) (addr : Z) : option Z :=
  match hit c addr with
  | None => None
  | Some w =>
      match block_at c w (index_of c addr) with
      | None => None
      | Some e => nthz (data e) (Z.shiftr (offset_of c addr) 2)
      end
  end.

Lemma hit_word c addr w : wf c → hit c addr = Some w →
  ∃ e v, block_at c w (index_of c addr) = Some e ∧
    nthz (data e) (Z.shiftr (offset_of c addr) 2) = Some v ∧ word_in c addr = Some v.
Proof.
  intros Hwf Hh. pose proof (fields_range c addr Hwf) as (Hi & _ & Ho).
  destruct (block_at_ok c w (index_of c addr) Hwf) as (e & He & Hl).
  { split; [by eapply hit_range|done]. }
  destruct (nthz_is_Some (data e) (Z.shiftr (offset_of c addr) 2)) as [v Hv]; [lia|].
  exists e, v. unfold word_in. rewrite Hh, He. done.
Qed.

(** The state after a hit that applied [f] to the block. *)
Definition touched (c : t) (addr w : Z) (f : Entry → Entry) : t :=
  upd_block w (index_of c addr) f (count_hit c).

(** The access times, the dirty bits and the data of a block do not decide
    hits. *)
Definition same_id (f : Entry → Entry) : Prop :=
  ∀ e, tag (f e) = tag e ∧ valid (f e) = valid e.

Lemma hit_touched c addr w f b : same_id f → 0 ≤ w → 0 ≤ index_of c addr →
  hit (touched c addr w f) b = hit c b.
Proof.
  intros Hf Hw Hi. apply hit_upd; try done. intros v. unfold holds, touched.
  rewrite block_at_upd by done. change (block_at (count_hit c)) with (block_at c).
  destruct (_ && _); [|done]. destruct (block_at c v _) as [e|]; [|done]. simpl.
  by destruct (Hf e) as [-> ->].
Qed.

Lemma wf_touched c addr w f : wf c → 0 ≤ w →
  (∀ e, block_at c w (index_of c addr) = Some e → length (data (f e)) = length (data e)) →
  wf (touched c addr w f).
Proof.
  intros Hwf Hw Hf. pose proof (fields_range c addr Hwf) as (Hi & _ & _).
  apply wf_upd; [|done|done|lia].
  destruct Hwf as [H1 H2 H3 H4 H5 H6]. by split.
Qed.

Lemma word_touched c addr w f b : wf c → hit c addr = Some w → same_id f →
  word_in (touched c addr w f) b =
    match hit c b with
    | None => None
    | Some v =>
        match block_at c v (index_of c b) with
        | None => None
        | Some e =>
            nthz (data (if (v =? w) && (index_of c b =? index_of c addr) then f e else e))
              (Z.shiftr (offset_of c b) 2)
        end
    end.
Proof.
  intros Hwf Hh Hf. pose proof (fields_range c addr Hwf) as (Hi & _ & _).
  pose proof (hit_range c addr w Hh). unfold word_in.
  rewrite hit_touched by (done || lia). destruct (hit c b) as [v|]; [|done].
  change (index_of (touched c addr w f) b) with (index_of c b).
  change (offset_of (touched c addr w f) b) with (offset_of c b).
  unfold touched. rewrite block_at_upd by lia. change (block_at (count_hit c)) with (block_at c).
  destruct (block_at c v _) as [e|]; [|by destruct (_ && _)].
  by destruct (_ && _).
Qed.

(** Touching a block without changing its data. *)
Lemma word_touched_same c addr w f b : wf c → hit c addr = Some w → same_id f →
  (∀ e, data (f e) = data e) → word_in (touched c addr w f) b = word_in c b.
Proof.
  intros Hwf Hh Hf Hd. rewrite word_touched by done. unfold word_in.
  destruct (hit c b); [|done]. destruct (block_at c _ _); [|done].
  destruct (_ && _); [|done]. by rewrite Hd.
Qed.

(** Two word addresses with the same fields are equal. *)
Lemma same_word c a b : wf c → 0 ≤ a → 0 ≤ b → tag_of c a = tag_of c b →
  index_of c a = index_of c b →
  Z.shiftr (offset_of c a) 2 = Z.shiftr (offset_of c b) 2 → a / 4 = b / 4.
Proof.
  intros Hwf Ha Hb Ht Hi Ho. rewrite !Z.shiftr_div_pow2 in Ho by lia. change (2 ^ 2) with 4 in Ho.
  pose proof (fields_addr c a Hwf Ha) as Ea. pose proof (fields_addr c b Hwf Hb) as Eb.
  destruct (wf_offset c Hwf) as [H2 _], (wf_index c Hwf) as [H3 _].
  rewrite Ht, Hi in Ea.
  set (k := tag_of c b * 2 ^ (offset_len c + index_len c) + index_of c b * 2 ^ offset_len c) in *.
  assert (Hk : ∃ q, k = q * 4).
  { exists (tag_of c b * 2 ^ (offset_len c + index_len c - 2)
            + index_of c b * 2 ^ (offset_len c - 2)).
    unfold k. replace (offset_len c + index_len c) with ((offset_len c + index_len c - 2) + 2) at 1 by lia.
    replace (offset_len c) with ((offset_len c - 2) + 2) at 2 by lia.
    rewrite !Z.pow_add_r by lia. change (2 ^ 2) with 4. lia. }
  destruct Hk as [q Hq]. rewrite Ea, Eb. rewrite Hq in *.
  rewrite !(Z.add_comm (q * 4)), !Z.div_add by lia. by rewrite Ho.
Qed.

(** A write of [v] in the word of [addr]. *)
Lemma word_written c addr w f e l b v : wf c → 0 ≤ addr → 0 ≤ b → hit c addr = Some w →
  same_id f → block_at c w (index_of c addr) = Some e → data (f e) = l →
  setz (data e) (Z.shiftr (offset_of c addr) 2) v = Some l →
  word_in (touched c addr w f) b =
    if (b / 4 =? addr / 4) then Some v else word_in c b.
Proof.
  intros Hwf Ha Hb Hh Hf He Hl Hs. rewrite word_touched by done. unfold word_in.
  destruct (Z.eqb_spec (b / 4) (addr / 4)) as [Hba|Hba].
  - assert (Ef : tag_of c b = tag_of c addr ∧ index_of c b = index_of c addr ∧
      Z.shiftr (offset_of c b) 2 = Z.shiftr (offset_of c addr) 2).
    { destruct (addr_fields c b Hwf) as (-> & -> & ->), (addr_fields c addr Hwf) as (-> & -> & ->).
      destruct (wf_offset c Hwf) as [H2 _], (wf_index c Hwf) as [H3 _].
      remember (offset_len c - 2) as k eqn:Ek.
      assert (offset_len c = 2 + k) as -> by lia.
      rewrite <- Z.add_assoc, !(Z.pow_add_r 2 2) by lia. change (2 ^ 2) with 4.
      assert (0 < 2 ^ k) by (apply Z.pow_pos_nonneg; lia).
      assert (0 < 2 ^ (k + index_len c)) by (apply Z.pow_pos_nonneg; lia).
      rewrite <- !Z.div_div by lia. rewrite Hba. split; [done|]. split; [done|].
      rewrite !Z.shiftr_div_pow2 by lia. change (2 ^ 2) with 4.
      rewrite !Z.rem_mul_r by lia. rewrite Hba.
      rewrite !(Z.mul_comm 4), !Z.div_add by lia.
      rewrite !(Z.div_small (_ mod 4) 4) by (apply Z.mod_pos_bound; lia). done. }
    destruct Ef as (E1 & E2 & E3).
    assert (Hh' : hit c b = Some w) by (rewrite <- Hh; unfold hit; by rewrite E1, E2).
    rewrite Hh', E2, He, !Z.eqb_refl. cbn [andb]. rewrite Hl, E3.
    by rewrite (nthz_setz _ _ _ _ _ Hs), Z.eqb_refl.
  - destruct (hit c b) as [v'|] eqn:Hb'; [|done].
    destruct (block_at c v' (index_of c b)) as [e'|] eqn:Ee; [|done].
    destruct (Z.eqb_spec v' w) as [->|]; [|done].
    destruct (Z.eqb_spec (index_of c b) (index_of c addr)) as [Ei|]; [|done]. cbn [andb].
    rewrite Ei, He in Ee. injection Ee as <-. rewrite Hl.
    rewrite (nthz_setz _ _ _ _ _ Hs).
    destruct (Z.eqb_spec (Z.shiftr (offset_of c b) 2) (Z.shiftr (offset_of c addr) 2)) as [Eo|]; [|done].
    destruct Hba. apply (same_word c); auto.
    destruct (hit_holds c b w Hb') as (e1 & He1 & <- & _).
    destruct (hit_holds c addr w Hh) as (e2 & He2 & <- & _). rewrite Ei in He1. congruence.
Qed.

(** ** Accesses that hit *)

Lemma fetch_word_hit now a mode cl c w v : wf c → a mod 4 = 0 → hit c a = Some w →
  word_in c a = Some v →
  fetch_word now a mode cl c =
    Some (v, touched c a w (λ e, e <| last_access := s32 now |>), []).
Proof.
  intros Hwf Ha Hh Hv. destruct (hit_word c a w Hwf Hh) as (e & v' & He & Hn & Hw).
  unfold fetch_word. rewrite Ha. cbn [negb Z.eqb].
  rewrite (bind_eq _ _ _ _ _ (hit_block_hit c a w e Hwf Hh He)).
  erewrite bind_eq by (eapply (set_block_eq (count_hit c)); exact He).
  rewrite Hn. unfold from_option. assert (v' = v) as -> by congruence. done.
Qed.

Lemma store_word_hit now a d cl c w : wf c → a mod 4 = 0 → hit c a = Some w →
  ∃ e l, block_at c w (index_of c a) = Some e ∧
    setz (data e) (Z.shiftr (offset_of c a) 2) d = Some l ∧
    store_word now a d cl c =
      Some ((), touched c a w
        (λ e, e <| data := l |> <| dirty := true |> <| last_access := s32 now |>), []).
Proof.
  intros Hwf Ha Hh. pose proof (fields_range c a Hwf) as (Hi & _ & Ho).
  destruct (block_at_ok c w (index_of c a) Hwf) as (e & He & Hl).
  { split; [by eapply hit_range|done]. }
  eexists e, _. split; [done|]. split; [apply setz_Some; lia|].
  unfold store_word. rewrite Ha. cbn [negb Z.eqb].
  rewrite (bind_eq _ _ _ _ _ (hit_block_hit c a w e Hwf Hh He)).
  rewrite setz_Some by lia. unfold from_option. rewrite ret_bind.
  erewrite (set_block_eq (count_hit c)) by exact He. done.
Qed.

(** The bytes of a cached word, in the order of the target: [byteswapped] and
    the order of the host cancel out. *)
Lemma host_byte_target (host bs : bool) w k : 0 ≤ k < 4 →
  host_byte host w (if bs then u32 (3 - k) else k) = byte_of (xorb bs host) 4 w k.
Proof.
  intros Hk. unfold host_byte, byte_of. f_equal. f_equal.
  destruct bs, host; simpl xorb; cbv iota; rewrite ?u32_small by lia; lia.
Qed.

Lemma host_half_target (host bs : bool) w k : 0 ≤ k < 2 →
  host_half host w (if bs then u32 (1 - k) else k) =
    Z.land (Z.shiftr w (16 * (if xorb bs host then 1 - k else k))) 0xffff.
Proof.
  intros Hk. unfold host_half. f_equal. f_equal.
  destruct bs, host; simpl xorb; cbv iota; rewrite ?u32_small by lia; lia.
Qed.

Lemma byte_of_set_byte (host bs : bool) w b j k : is_u32 w → is_u8 b → 0 ≤ j < 4 → 0 ≤ k < 4 →
  byte_of (xorb bs host) 4 (host_set_byte host w (if bs then u32 (3 - j) else j) b) k =
    if k =? j then b else byte_of (xorb bs host) 4 w k.
Proof.
  intros Hw Hb Hj Hk.
  assert (Es : 8 * (if host then 3 - (if bs then u32 (3 - j) else j)
                    else (if bs then u32 (3 - j) else j))
             = 8 * (if xorb bs host then 3 - j else j)).
  { destruct bs, host; simpl xorb; cbv iota; rewrite ?u32_small by lia; lia. }
  unfold host_set_byte. rewrite Es. unfold byte_of.
  change (4 - 1 - k) with (3 - k).
  assert (Hj' : j = 0 ∨ j = 1 ∨ j = 2 ∨ j = 3) by lia.
  assert (Hk' : k = 0 ∨ k = 1 ∨ k = 2 ∨ k = 3) by lia.
  destruct Hj' as [-> | [-> | [-> | ->]]], Hk' as [-> | [-> | [-> | ->]]], (xorb bs host); cbn -[Z.testbit Z.land Z.lor Z.lxor Z.shiftl Z.shiftr u8];
  bitblast i.
Qed.

Lemma land3_mod o : Z.land o 3 = o mod 4.
Proof. change 3 with (Z.ones 2). by rewrite Z.land_ones by lia. Qed.

Lemma offset_mod4 c a : wf c → offset_of c a mod 4 = a mod 4.
Proof.
  intros Hwf. destruct (addr_fields c a Hwf) as (_ & _ & ->).
  destruct (wf_offset c Hwf). replace (offset_len c) with (2 + (offset_len c - 2)) by lia.
  rewrite Z.pow_add_r by lia. change (2 ^ 2) with 4.
  assert (0 < 2 ^ (offset_len c - 2)) by (apply Z.pow_pos_nonneg; lia).
  rewrite Z.rem_mul_r by lia. rewrite Z.mul_comm, Z.mod_add by lia. apply Z.mod_mod. lia.
Qed.

Lemma fetch_byte_hit now (host bs : bool) a cl c w v : wf c → hit c a = Some w →
  word_in c a = Some v →
  fetch_byte now host bs a cl c =
    Some (byte_of (xorb bs host) 4 v (a mod 4),
          touched c a w (λ e, e <| last_access := s32 now |>), []).
Proof.
  intros Hwf Hh Hv. destruct (hit_word c a w Hwf Hh) as (e & v' & He & Hn & Hw).
  unfold fetch_byte.
  rewrite (bind_eq _ _ _ _ _ (hit_block_hit c a w e Hwf Hh He)). cbv zeta.
  erewrite bind_eq by (eapply (set_block_eq (count_hit c)); exact He).
  rewrite Hn. unfold from_option. rewrite ret_bind. assert (v' = v) as -> by congruence.
  rewrite land3_mod, offset_mod4 by done. rewrite host_byte_target by (apply Z.mod_pos_bound; lia).
  done.
Qed.

Lemma store_byte_hit now (host bs : bool) a b cl c w v : wf c → hit c a = Some w →
  word_in c a = Some v →
  ∃ e l, block_at c w (index_of c a) = Some e ∧
    setz (data e) (Z.shiftr (offset_of c a) 2)
      (host_set_byte host v (if bs then u32 (3 - a mod 4) else a mod 4) b) = Some l ∧
    store_byte now host bs a b cl c =
      Some ((), touched c a w
        (λ e, e <| data := l |> <| dirty := true |> <| last_access := s32 now |>), []).
Proof.
  intros Hwf Hh Hv. pose proof (fields_range c a Hwf) as (Hi & _ & Ho).
  destruct (hit_word c a w Hwf Hh) as (e & v' & He & Hn & Hw).
  assert (v' = v) as -> by congruence. pose proof (nthz_Some _ _ _ Hn) as [Hr _].
  eexists e, _. split; [done|]. split; [apply setz_Some; lia|].
  unfold store_byte.
  rewrite (bind_eq _ _ _ _ _ (hit_block_hit c a w e Hwf Hh He)). cbv zeta.
  rewrite Hn. unfold from_option at 1. rewrite ret_bind.
  rewrite setz_Some by lia. unfold from_option. rewrite ret_bind.
  rewrite land3_mod, offset_mod4 by done.
  erewrite (set_block_eq (count_hit c)) by exact He. done.
Qed.

(** ** The cache and its bus *)
Section Zoom.
  Context {B : Type}.

Lemma zoom_self {A} (m : M t A) (c : t) (b : B) x c' e : m c = Some (x, c', e) →
  zoom self m (MkSys B c b) = Some (x, MkSys B c' b, e).
Proof. unfold zoom. simpl. by intros ->. Qed.

Lemma zoom_mem {A} (m : M B A) (c : t) (b : B) x b' e : m b = Some (x, b', e) →
  zoom physmem m (MkSys B c b) = Some (x, MkSys B c b', e).
Proof. unfold zoom. simpl. by intros ->. Qed.

Lemma op_live (c : t) (b : B) o : cache_op_state c = Live o →
  op (MkSys B c b) = Some (o, MkSys B c b, []).
Proof. intros Ho. unfold op. rewrite gets_bind. simpl. by rewrite Ho. Qed.

End Zoom.

(** ** Properties *)

(** C17 a store that hits is read back by the next load of the same word, every
    other cached word keeps its value, the block becomes dirty, and nothing is
    raised; a store that misses is dropped and a load that misses answers all
    ones, the cache unchanged. *)
Theorem cache_store_load (c : t) (now now' a d client client' mode : Z) (Hwf : wf c)
    (Ha : 0 ≤ a) (H4 : a mod 4 = 0) :
  (∀ w, hit c a = Some w → ∃ c' c'',
     store_word now a d client c = Some ((), c', []) ∧ wf c' ∧
     fetch_word now' a mode client' c' = Some (d, c'', []) ∧ wf c'' ∧
     (∀ b, 0 ≤ b → hit c'' b = hit c b ∧
        word_in c'' b = if b / 4 =? a / 4 then Some d else word_in c b) ∧
     (∃ e, block_at c'' w (index_of c a) = Some e ∧ dirty e = true ∧
           last_access e = s32 now')) ∧
  (hit c a = None →
     store_word now a d client c = Some ((), c, []) ∧
     fetch_word now a mode client c = Some (0xffffffff, c, [])).
Proof.
  split.
  - intros w Hh. destruct (store_word_hit now a d client c w Hwf H4 Hh) as (e & l & He & Hl & Es).
    set (f := λ e, e <| data := l |> <| dirty := true |> <| last_access := s32 now |>) in Es.
    pose proof (hit_range c a w Hh) as Hw.
    pose proof (fields_range c a Hwf) as (Hi & _ & _).
    assert (Hwf1 : wf (touched c a w f)).
    { apply wf_touched; [done|lia|]. intros e' He'. assert (e' = e) as -> by congruence.
      by apply (setz_length _ _ _ _ Hl). }
    assert (Hid : same_id f) by done.
    assert (Hh1 : ∀ b, hit (touched c a w f) b = hit c b)
      by (intros; apply hit_touched; [done|lia|lia]).
    assert (Hw1 : ∀ b, 0 ≤ b → word_in (touched c a w f) b =
              if b / 4 =? a / 4 then Some d else word_in c b)
      by (intros; by eapply word_written).
    set (g := λ e, e <| last_access := s32 now' |>).
    exists (touched c a w f), (touched (touched c a w f) a w g).
    split; [done|]. split; [done|]. split; [|split; [|split]].
    + apply fetch_word_hit; [done|done|by rewrite Hh1|]. by rewrite Hw1, Z.eqb_refl by done.
    + apply wf_touched; [done|lia|done].
    + intros b Hb. split.
      * rewrite hit_touched by (done || lia || exact (proj1 Hi)). apply Hh1.
      * rewrite word_touched_same by (done || by rewrite Hh1). auto.
    + unfold touched at 1. rewrite block_at_upd by (lia || exact (proj1 Hi)).
      change (index_of (touched c a w f) a) with (index_of c a).
      rewrite !Z.eqb_refl. change (block_at (count_hit ?x)) with (block_at x).
      cbn [andb]. unfold touched. rewrite block_at_upd, !Z.eqb_refl by lia.
      change (block_at (count_hit c)) with (block_at c). rewrite He. by eexists.
  - intros Hh. unfold store_word, fetch_word. rewrite H4. cbn [negb Z.eqb].
    by rewrite !(bind_eq _ _ _ _ _ (hit_block_miss c a Hwf Hh)).
Qed.

(** The bytes of a cached word follow the byte order of the target
    ([bigendian] is [byteswapped] xor the order of the host): a byte load
    returns the byte of the cached word that the target sees at the address,
    and a byte store changes that byte of the word and nothing else in the
    cache. *)
Theorem cache_bytes (c : t) (now : Z) (host bs : bool) (a client w v : Z) (Hwf : wf c)
    (Ha : 0 ≤ a) (Hh : hit c a = Some w) (Hv : word_in c a = Some v) (Hv32 : is_u32 v) :
  (∃ c', fetch_byte now host bs a client c =
           Some (byte_of (xorb bs host) 4 v (a mod 4), c', []) ∧ wf c' ∧
         ∀ b, word_in c' b = word_in c b) ∧
  (∀ d, is_u8 d → ∃ c' v', store_byte now host bs a d client c = Some ((), c', []) ∧ wf c' ∧
     word_in c' a = Some v' ∧
     (∀ k, 0 ≤ k < 4 → byte_of (xorb bs host) 4 v' k =
        if k =? a mod 4 then d else byte_of (xorb bs host) 4 v k) ∧
     (∀ b, 0 ≤ b → b / 4 ≠ a / 4 → word_in c' b = word_in c b)).
Proof.
  pose proof (hit_range c a w Hh) as Hw. split.
  - eexists. split; [by apply fetch_byte_hit|]. split; [apply wf_touched; [done|lia|done]|].
    intros b. by apply word_touched_same.
  - intros d Hd. destruct (store_byte_hit now host bs a d client c w v Hwf Hh Hv)
      as (e & l & He & Hl & Es).
    eexists _, _. split; [exact Es|]. split; [|split; [|split]].
    + apply wf_touched; [done|lia|]. intros e' He'. assert (e' = e) as -> by congruence.
      by apply (setz_length _ _ _ _ Hl).
    + erewrite word_written by done. by rewrite Z.eqb_refl.
    + intros k Hk. apply byte_of_set_byte; auto. apply Z.mod_pos_bound. lia.
    + intros b Hb Hne. erewrite word_written by done.
      by rewrite (proj2 (Z.eqb_neq _ _) Hne).
Qed.

(** The force-write-back operations on a clean block that hits: [FWB] starts
    the write-back and stalls the processor; [FWBINV] neither writes back nor
    invalidates, and does not stall. *)
Theorem force_writeback {B} `{MemPort B} (c : t) (b b' : B) (now addr client w : Z) (e : Entry)
    (Hwf : wf c) (Hst : status c = CACHE_IDLE) (Hnx : next_status c = CACHE_IDLE)
    (Hb : mem_acquire_bus now client b = Some (true, b', []))
    (Hh : hit c addr = Some w) (He : block_at c w (index_of c addr) = Some e)
    (Hd : dirty e = false) :
  (∃ c', exec_cache_op now DCACHE_OP_HIT_FWB addr client (MkSys B c b) =
           Some (false, MkSys B c' b', []) ∧ next_status c' = CACHE_OP_WB ∧ blocks c' = blocks c) ∧
  exec_cache_op now DCACHE_OP_HIT_FWBINV addr client (MkSys B c b) =
    Some (true, MkSys B c b', []).
Proof.
  pose proof (cache_hit_eq c addr Hwf) as Ech. rewrite Hh in Ech. simpl in Ech.
  pose proof (zoom_self _ c b' _ _ _ Ech) as E1.
  pose proof (zoom_self _ c b' _ _ _ (get_block_eq c w _ e He)) as E2.
  assert (Erun : ∀ opcode, exec_cache_op now opcode addr client (MkSys B c b) =
    ('(found, mode, last_inv) ← run_cache_op opcode addr;
     ns ← gets (λ s, next_status (self s));
     if bool_decide (ns = CACHE_OP_WB)
     then '(index, way) ← from_option found;
          new_op addr way index mode last_inv client;; mret false
     else mret true) (MkSys B c b')).
  { intros opcode. unfold exec_cache_op. rewrite gets_bind. simpl self.
    rewrite bool_decide_eq_true_2 by done. cbn [negb].
    by rewrite (bind_eq _ _ _ _ _ (zoom_mem _ c b _ _ _ Hb)). }
  rewrite !Erun. unfold run_cache_op. rewrite !bind_assoc, !gets_bind. simpl self.
  destruct (addr_separete c addr) as [[tg idx] off].
  cbn [Z.eqb Pos.eqb DCACHE_OP_HIT_FWB DCACHE_OP_HIT_FWBINV DCACHE_OP_SETLINE ICACHE_OP_HIT_INV
    DCACHE_OP_HIT_INV DCACHE_OP_HIT_WBINV DCACHE_OP_HIT_WB orb].
  rewrite !bind_assoc, !(bind_eq _ _ _ _ _ E1), !bind_assoc, !(bind_eq _ _ _ _ _ E2), Hd.
  cbn [when orb]. split.
  - eexists. split; [reflexivity|]. done.
  - rewrite bind_assoc, !ret_bind, gets_bind. simpl. by rewrite Hnx.
Qed.

(** An exception that resets the cache in the middle of a transfer: the bus
    is released, but the next state is kept, so the cache goes back to the
    transfer in the next cycle and uses the deleted request; an exception in
    the cycle in which a transfer ended deletes the request twice. *)
Theorem reset_in_transfer {B} `{MemPort B} (c : t) (o : CacheOpState) (b b' : B)
    (now later : Z) (Hst : status c ≠ CACHE_IDLE) :
  (cache_op_state c = Live o → mem_release_bus now (op_client o) b = Some ((), b', []) →
   next_status c ≠ CACHE_IDLE → u32 (last_state_update_time c) < later →
     ∃ c', reset_stat now (MkSys B c b) = Some ((), MkSys B c' b', []) ∧
       status c' = CACHE_IDLE ∧ ∀ b'', step later (MkSys B c' b'') = None) ∧
  (cache_op_state c = Deleted o → reset_stat now (MkSys B c b) = None).
Proof.
  split.
  - intros Ho Hr Hnx Hl. eexists. split; [|split].
    + unfold reset_stat. rewrite gets_bind. simpl self.
      rewrite bool_decide_eq_false_2 by done. cbn [negb when].
      erewrite bind_eq by reflexivity. unfold op. rewrite bind_assoc, gets_bind.
      simpl. rewrite Ho, ret_bind.
      by rewrite (bind_eq _ _ _ _ _ (zoom_mem _ _ b _ _ _ Hr)).
    + done.
    + intros b''. unfold step. erewrite bind_eq by reflexivity. rewrite gets_bind. simpl.
      apply Z.ltb_lt in Hl. rewrite Hl. simpl.
      by destruct (next_status c).
  - intros Ho. unfold reset_stat. rewrite gets_bind. simpl self.
    rewrite bool_decide_eq_false_2 by done. cbn [negb when].
    erewrite bind_eq by reflexivity. unfold op. rewrite bind_assoc, gets_bind. simpl.
    by rewrite Ho.
Qed.

(** ** Witnesses: a two-way cache of two 8-byte blocks over a port that answers
    every word with its address *)

#[local] Instance demo_port : MemPort unit := {|
  mem_ready _ _ _ _ := mret true;
  mem_request_word _ _ _ _ := mret ();
  mem_fetch_word _ addr _ _ := mret addr;
  mem_fetch_halfword _ addr _ := mret (u16 addr);
  mem_fetch_byte _ addr _ := mret (u8 addr);
  mem_store_word _ _ _ _ := mret ();
  mem_store_halfword _ _ _ _ := mret ();
  mem_store_byte _ _ _ _ := mret ();
  mem_acquire_bus _ _ := mret true;
  mem_release_bus _ _ := mret ();
  mem_byteswapped _ := true
|}.

Definition demo_entry (v d : bool) (tg w : Z) : Entry := MkEntry v d 0 tg [w; w].
Definition demo_cache (e00 e01 : Entry) : t :=
  (Cache.Cache 0 (λ _ _, (0, [0; 0])) 2 8 2)
    <| blocks := [[e00; e01]; [demo_entry false false 0 0; demo_entry false false 0 0]] |>.

Lemma demo_cache_wf v d tg w v' d' tg' w' :
  wf (demo_cache (demo_entry v d tg w) (demo_entry v' d' tg' w')).
Proof.
  split; try (vm_compute; split; congruence); try done.
  intros k row Hk. destruct k as [|[|k]]; simpl in Hk; [..|done]; injection Hk as <-;
    (split; [done|]); intros [|[|i]] e Hi; simpl in Hi; try done; by injection Hi as <-.
Qed.

(** Address 24 is tag 1, index 1; the cache holds it in way 0. *)
Definition demo_hit : t := demo_cache (demo_entry false false 0 0) (demo_entry true false 1 0x11223344).

Lemma cache_store_load_witness : ∃ c' c'',
  store_word 5 24 99 7 demo_hit = Some ((), c', []) ∧
  fetch_word 6 24 DATALOAD 7 c' = Some (99, c'', []).
Proof.
  destruct (cache_store_load demo_hit 5 6 24 99 7 7 DATALOAD (demo_cache_wf _ _ _ _ _ _ _ _))
    as [Hs _]; [lia|reflexivity|].
  destruct (Hs 0 eq_refl) as (c' & c'' & E1 & _ & E2 & _). exists c', c''. exact (conj E1 E2).
Defined.

Lemma cache_bytes_witness : ∃ c',
  fetch_byte 5 false true 25 7 demo_hit = Some (0x22, c', []).
Proof.
  destruct (cache_bytes demo_hit 5 false true 25 7 0 0x11223344 (demo_cache_wf _ _ _ _ _ _ _ _))
    as [(c' & E & _) _]; [lia|reflexivity|reflexivity|split; lia|].
  exists c'. exact E.
Defined.

Lemma force_writeback_witness :
  exec_cache_op 5 DCACHE_OP_HIT_FWBINV 24 7 (MkSys unit demo_hit ()) =
    Some (true, MkSys unit demo_hit (), []).
Proof.
  exact (proj2 (force_writeback demo_hit () () 5 24 7 0 (demo_entry true false 1 0x11223344)
    (demo_cache_wf _ _ _ _ _ _ _ _) eq_refl eq_refl eq_refl eq_refl eq_refl eq_refl)).
Defined.

Lemma reset_in_transfer_witness : ∃ c',
  reset_stat 5 (MkSys unit (demo_hit <| status := CACHE_FETCH |> <| next_status := CACHE_FETCH |>
    <| cache_op_state := Live (MkOp 2 20 1 0 DATALOAD false 7) |>) ()) =
    Some ((), MkSys unit c' (), []) ∧ step 6 (MkSys unit c' ()) = None.
Proof.
  destruct (reset_in_transfer (demo_hit <| status := CACHE_FETCH |> <| next_status := CACHE_FETCH |>
    <| cache_op_state := Live (MkOp 2 20 1 0 DATALOAD false 7) |>)
    (MkOp 2 20 1 0 DATALOAD false 7) () () 5 6) as [Hr _]; [discriminate|].
  destruct Hr as (c' & E & _ & Hs); [reflexivity|reflexivity|discriminate|reflexivity|].
  exists c'. exact (conj E (Hs ())).
Defined.

End Cache.
