(* ===== verification/CacheFill.v ===== *)
(** * CacheFill: block transfers and properties of the cache *)

From S2P Require Import Prelude Effects Types Mapper Cache.
Import Cache.

(** ** A memory port that answers, in time *)
Section Fill.
  Context {B : Type} `{MemPort B}.

(** A block of [ws] words at [a] that the cache reads in consecutive cycles. In [I now k n]
    the cycle is [now], [k] words have been served, and [n] visits at most are still going to
    find the next word not ready; in [R now k n] moreover every word has been asked for.
    A word may be fetched in a visit that finds it ready, and is then [v k]; in the others
    nothing is known of a fetch. After the last word the bus may be released. *)
Record serves (ws a mode client : Z) (bs : bool) (v : Z → Z) (I R : Z → Z → nat → B → Prop) (F : B → Prop) : Prop := {
  sv_request : ∀ now n b, I now 0 n b → ∃ b',
    for_range 0 (Z.to_nat ws) (λ i, mem_request_word now (u32 (a + 4 * i)) mode client) b = Some ((), b', []) ∧
    R now 0 n b';
  sv_again : ∀ now k n b, 0 < k < ws → I now k n b → R now k n b;
  sv_visit : ∀ now k n b, 0 ≤ k < ws → R now k n b → ∃ rdy b1,
    mem_ready now (u32 (a + 4 * k)) mode client b = Some (rdy, b1, []) ∧
    if (rdy : bool) then ∃ b2, mem_fetch_word now (u32 (a + 4 * k)) mode client b1 = Some (v k, b2, []) ∧
      mem_byteswapped b2 = bs ∧ I (u32 (now + 1)) (k + 1) n b2
    else ∃ n', n = S n' ∧ I (u32 (now + 1)) k n' b1;
  sv_release : ∀ now n b, I (u32 (now + 1)) ws n b → ∃ b', mem_release_bus now client b = Some ((), b', []) ∧ F b'
}.

(** [cache_fetch] once in each of [n] cycles. *)
Fixpoint fetch_run (n : nat) (now : Z) : M (sys B) unit :=
  match n with
  | O => mret ()
  | S n => cache_fetch now;; fetch_run n (u32 (now + 1))
  end.

Context (ws a mode client : Z) (bs : bool) (v : Z → Z) (I R : Z → Z → nat → B → Prop) (F : B → Prop).
Context (Hs : serves ws a mode client bs v I R F).

Lemma for_each_physmem (f g : Z → M B unit) (l : list Z) : (∀ i, i ∈ l → g i = f i) → ∀ (c : t) b b',
  for_each l f b = Some ((), b', []) →
  for_each l (λ i, zoom physmem (g i)) (MkSys B c b) = Some ((), MkSys B c b', []).
Proof.
  induction l as [|i l IH]; intros Hl c b b' E; cbn [for_each] in *; [by injection E as <-|].
  unfold bindM in E at 1. destruct (f i b) as [[[[] b1] e1]|] eqn:E1; [|done].
  destruct (for_each l f b1) as [[[[] b2] e2]|] eqn:E2; [|done]. injection E as <- [-> ->]%app_nil.
  rewrite (bind_eq _ _ _ () (MkSys B c b1)).
  - apply IH; [|done]. intros j Hj. apply Hl. by right.
  - unfold zoom. cbn. by rewrite (Hl i), E1 by (by left).
Qed.

(** The state of the cache when [k] words have been read into the block that the
    request chose. *)
Record filling (c0 c : t) (o : CacheOpState) (e0 : Entry) (k : Z) : Prop := {
  fl_wf : wf c;
  fl_shape : word_size c = word_size c0 ∧ offset_len c = offset_len c0 ∧
    index_len c = index_len c0 ∧ way_size c = way_size c0;
  fl_op : cache_op_state c = Live (o <| counter := ws - k |>);
  fl_block : ∃ l, block_at c (op_way o) (op_index o) = Some (e0 <| data := l |>) ∧
    Z.of_nat (length l) = ws ∧
    ∀ i, 0 ≤ i < k → nthz l i = Some (host_to_mips_word bs (v i));
  fl_other : ∀ w i, (w ≠ op_way o ∨ i ≠ op_index o) → block_at c w i = block_at c0 w i
}.

(** What [cache_fetch] does after the last word. *)
Definition finish (now : Z) (o : CacheOpState) (tg : Z) : M (sys B) unit :=
  set_next CACHE_IDLE;;
  zoom self (set_block (op_way o) (op_index o)
    (λ e, e <| tag := tg |> <| valid := true |> <| dirty := false |>));;
  delete_release now.

Lemma addr_separete_shape c c' x : offset_len c' = offset_len c → index_len c' = index_len c →
  addr_separete c' x = addr_separete c x.
Proof. intros H1 H2. unfold addr_separete. by rewrite H1, H2. Qed.

Lemma fill_step now c0 c o e0 k b :
  ws = word_size c0 → 0 ≤ op_way o → 0 ≤ op_index o →
  a = Z.land (requested_addr o) (lnot32 (Z.shiftl 1 (offset_len c0) - 1)) →
  mode = (if op_mode o =? INSTFETCH then INSTFETCH else DATALOAD) → client = op_client o →
  filling c0 c o e0 k → 0 ≤ k < ws → ∀ n, I now k n b →
  (∃ n' b', n = S n' ∧ cache_fetch now (MkSys B c b) = Some ((), MkSys B c b', []) ∧ I (u32 (now + 1)) k n' b') ∨
  ∃ c' b', filling c0 c' o e0 (k + 1) ∧ I (u32 (now + 1)) (k + 1) n b' ∧ next_status c' = next_status c ∧
    status c' = status c ∧ last_state_update_time c' = last_state_update_time c ∧
    cache_fetch now (MkSys B c b) =
      when (k + 1 =? ws) (finish now o (tag_of c0 (u32 (a + 4 * k)))) (MkSys B c' b').
Proof.
  intros Hws Hw Hx Ha Hmode Hcl [Hwf (S1 & S2 & S3 & S4) Hop (l & Hblk & Hlen & Hl) Hoth] Hk n Hb.
  pose proof (wf_word_size c Hwf) as Hmax.
  assert (Hk4 : u32 (ws - (ws - k)) = k) by (rewrite u32_small by lia; lia).
  assert (Hloop : ∃ b1, request_all now (o <| counter := ws - k |>) (u32 (a + 4 * k)) mode
      (MkSys B c b) = Some ((), MkSys B c b1, []) ∧ R now k n b1).
  { unfold request_all. rewrite gets_bind. simpl. rewrite S1, <- Hws.
    destruct (Z.eqb_spec (ws - k) ws); simpl; [|exists b; split; [done|apply (sv_again _ _ _ _ _ _ _ _ _ Hs); [lia|done]]].
    assert (k = 0) as -> by lia. rewrite <- Hcl.
    destruct (sv_request _ _ _ _ _ _ _ _ _ Hs now n b Hb) as (b1 & E & Hb1). exists b1. split; [|done].
    eapply for_each_physmem; [|exact E]. intros i Hi%elem_of_seqZ. cbv beta. rewrite u32_add_l. do 2 f_equal. lia. }
  destruct Hloop as (b1 & Eloop & Hb1).
  destruct (sv_visit _ _ _ _ _ _ _ _ _ Hs now k n b1 Hk Hb1) as (rdy & b2 & Er & Hvisit).
  assert (Ea : u32 (a + u32 (k * 4)) = u32 (a + 4 * k)) by (rewrite u32_add_r; f_equal; lia).
  unfold cache_fetch. rewrite (bind_eq _ _ _ _ _ (op_live c b _ Hop)). rewrite gets_bind.
  cbv zeta. simpl op_way. simpl op_index. simpl op_mode. simpl requested_addr.
  simpl counter. simpl op_client. simpl self.
  rewrite S1, S2, <- Hws, <- Ha, <- Hmode, <- Hcl, Hk4, Ea, (bind_eq _ _ _ _ _ Eloop).
  rewrite (bind_eq _ _ _ _ _ (zoom_mem _ c b1 _ _ _ Er)).
  destruct rdy; [right|left; destruct Hvisit as (n' & -> & Hn'); by exists n', b2].
  destruct Hvisit as (b3 & Ef & Ebs & Hb3). simpl when.
  set (l' := <[Z.to_nat k := host_to_mips_word bs (v k)]> l).
  set (c1 := upd_block (op_way o) (op_index o) (λ e, e <| data := l' |>) c).
  set (c2 := c1 <| cache_op_state ::= op_counter_set (ws - (k + 1)) |>).
  assert (Hset : setz l k (host_to_mips_word bs (v k)) = Some l') by (apply setz_Some; lia).
  assert (Hwf1 : wf c1).
  { apply wf_upd; auto. intros e He. rewrite Hblk in He. injection He as <-. simpl.
    unfold l'. by rewrite length_insert. }
  exists c2, b3. split; [|split; [done|split; [done|split; [done|split; [done|]]]]].
  - split; [by destruct Hwf1|done| | |].
    + unfold c2, c1. simpl. rewrite Hop. done.
    + exists l'. split; [|split].
      * change (block_at c2) with (block_at c1). unfold c1.
        by rewrite block_at_upd, !Z.eqb_refl, Hblk.
      * unfold l'. by rewrite length_insert.
      * intros i Hi. rewrite (nthz_setz _ _ _ _ _ Hset).
        destruct (Z.eqb_spec i k) as [->|]; [done|]. apply Hl. lia.
    + intros w i Hne. change (block_at c2) with (block_at c1). unfold c1.
      rewrite block_at_upd by done. rewrite <- (Hoth w i Hne).
      destruct (Z.eqb_spec w (op_way o)), (Z.eqb_spec i (op_index o)); try done. destruct Hne; congruence.
  - rewrite (bind_eq _ _ _ _ _ (zoom_mem _ c b2 _ _ _ Ef)). rewrite gets_bind. simpl physmem.
    rewrite Ebs.
    rewrite (bind_eq _ _ _ _ _ (zoom_self _ c b3 _ _ _ (get_block_eq _ _ _ _ Hblk))).
    simpl data. rewrite Hset. unfold from_option. rewrite ret_bind.
    rewrite (bind_eq _ _ _ _ _ (zoom_self _ c b3 _ _ _ (set_block_eq _ _ _ _ _ Hblk))).
    fold c1.
    assert (Ed : dec_counter (MkSys B c1 b3) = Some (ws - (k + 1), MkSys B c2 b3, [])).
    { unfold dec_counter.
      rewrite (bind_eq _ _ _ _ _ (op_live c1 b3 (o <| counter := ws - k |>) Hop)).
      simpl counter. rewrite (u32_small (ws - k - 1)) by lia.
      replace (ws - k - 1) with (ws - (k + 1)) by lia. done. }
    rewrite (bind_eq _ _ _ _ _ Ed).
    replace (ws - (k + 1) =? 0) with (k + 1 =? ws)
      by (destruct (Z.eqb_spec (k + 1) ws), (Z.eqb_spec (ws - (k + 1)) 0); done || lia).
    rewrite S2, S3. done.
Qed.

(** The cache after the last word. *)
Lemma fill_finish now c0 c o e0 b tg n :
  client = op_client o → 0 ≤ op_way o → 0 ≤ op_index o →
  filling c0 c o e0 ws → I (u32 (now + 1)) ws n b →
  ∃ c' b' l, finish now o tg (MkSys B c b) = Some ((), MkSys B c' b', []) ∧ F b' ∧ wf c' ∧
    (word_size c' = word_size c0 ∧ offset_len c' = offset_len c0 ∧
     index_len c' = index_len c0 ∧ way_size c' = way_size c0) ∧
    next_status c' = CACHE_IDLE ∧ status c' = status c ∧
    last_state_update_time c' = last_state_update_time c ∧
    cache_op_state c' = Deleted (o <| counter := 0 |>) ∧
    block_at c' (op_way o) (op_index o) = Some (MkEntry true false (last_access e0) tg l) ∧
    (∀ i, 0 ≤ i < ws → nthz l i = Some (host_to_mips_word bs (v i))) ∧
    (∀ w i, (w ≠ op_way o ∨ i ≠ op_index o) → block_at c' w i = block_at c0 w i).
Proof.
  intros Hcl Hw Hx [Hwf Hsh Hop (l & Hblk & Hlen & Hl) Hoth] Hb.
  rewrite Z.sub_diag in Hop.
  destruct (sv_release _ _ _ _ _ _ _ _ _ Hs now n b Hb) as (b' & Er & HF).
  set (f := λ e, e <| tag := tg |> <| valid := true |> <| dirty := false |>).
  set (c1 := c <| next_status := CACHE_IDLE |>).
  set (c2 := upd_block (op_way o) (op_index o) f c1).
  set (c3 := c2 <| cache_op_state := Deleted (o <| counter := 0 |>) |>).
  assert (Hwf2 : wf c2).
  { apply wf_upd; [|done|done|done]. by destruct Hwf. }
  pose proof (λ w i, block_at_upd c1 (op_way o) (op_index o) f w i Hw Hx) as Hup.
  fold c2 in Hup.
  exists c3, b', l. split_and!; try done; try apply Hsh.
  - unfold finish. erewrite bind_eq by reflexivity.
    rewrite (bind_eq _ _ _ _ _ (zoom_self _ c1 b _ _ _ (set_block_eq c1 _ _ _ f Hblk))).
    unfold delete_release.
    rewrite (bind_eq _ _ _ _ _ (op_live c2 b _ Hop)).
    erewrite bind_eq by reflexivity. unfold zoom. simpl. rewrite Hcl in Er. by rewrite Er.
  - by destruct Hwf2.
  - transitivity (block_at c2 (op_way o) (op_index o)); [done|]. rewrite Hup, !Z.eqb_refl.
    change (block_at c1) with (block_at c). by rewrite Hblk.
  - intros w i Hne. transitivity (block_at c2 w i); [done|]. rewrite Hup.
    change (block_at c1) with (block_at c). rewrite <- (Hoth w i Hne).
    destruct (Z.eqb_spec w (op_way o)), (Z.eqb_spec i (op_index o)); try done. destruct Hne; congruence.
Qed.

Lemma fill_steps c0 o e0 : ws = word_size c0 → 0 ≤ op_way o → 0 ≤ op_index o →
  a = Z.land (requested_addr o) (lnot32 (Z.shiftl 1 (offset_len c0) - 1)) →
  mode = (if op_mode o =? INSTFETCH then INSTFETCH else DATALOAD) → client = op_client o →
  ∀ todo now k n c b, (Z.to_nat (ws - k) + n = todo)%nat → filling c0 c o e0 k → 0 ≤ k < ws → I now k n b →
  ∃ visits c' b' l, (Z.to_nat (ws - k) ≤ visits ≤ todo)%nat ∧
    fetch_run visits now (MkSys B c b) = Some ((), MkSys B c' b', []) ∧ F b' ∧ wf c' ∧
    (word_size c' = word_size c0 ∧ offset_len c' = offset_len c0 ∧
     index_len c' = index_len c0 ∧ way_size c' = way_size c0) ∧
    next_status c' = CACHE_IDLE ∧ status c' = status c ∧
    last_state_update_time c' = last_state_update_time c ∧
    cache_op_state c' = Deleted (o <| counter := 0 |>) ∧
    block_at c' (op_way o) (op_index o) =
      Some (MkEntry true false (last_access e0) (tag_of c0 (u32 (a + 4 * (ws - 1)))) l) ∧
    (∀ i, 0 ≤ i < ws → nthz l i = Some (host_to_mips_word bs (v i))) ∧
    (∀ w i, (w ≠ op_way o ∨ i ≠ op_index o) → block_at c' w i = block_at c0 w i).
Proof.
  intros Hws Hw Hx Ha Hm Hcl todo. induction todo as [|todo IH]; [lia|].
  intros now k n c b Htodo Hf Hk Hb.
  destruct (fill_step now c0 c o e0 k b Hws Hw Hx Ha Hm Hcl Hf Hk n Hb)
    as [(n' & b1 & -> & E1 & Hb1)|(c1 & b1 & Hf1 & Hb1 & Hn1 & Hst1 & Ht1 & E1)].
  - destruct (IH (u32 (now + 1)) k n' c b1) as (visits & c' & b' & l & Hv & E2 & Hrest); [lia|done..|].
    exists (S visits), c', b', l. split; [lia|]. split; [|exact Hrest]. simpl. by rewrite (bind_eq _ _ _ _ _ E1).
  - destruct (Z.eqb_spec (k + 1) ws) as [Hk1|Hk1]; simpl when in E1.
    + rewrite Hk1 in Hf1, Hb1.
      destruct (fill_finish now c0 c1 o e0 b1 (tag_of c0 (u32 (a + 4 * k))) n Hcl Hw Hx Hf1 Hb1)
        as (c' & b' & l & E2 & HF & H1 & H2 & H3 & H4 & H5 & H6 & H7 & H8 & H9).
      exists 1%nat, c', b', l. rewrite E2 in E1. replace (ws - 1) with k by lia.
      rewrite <- Hst1, <- Ht1. split_and!; try done; try lia; try apply H2.
      simpl. by rewrite (bind_eq _ _ _ _ _ E1).
    + destruct (IH (u32 (now + 1)) (k + 1) n c1 b1) as (visits & c' & b' & l & Hv & E2 & HF & H1 & H2 & H3 & H4 & H5 & Hrest);
        [lia|done|lia|done|].
      exists (S visits), c', b', l. rewrite <- Hst1, <- Ht1. split_and!; try done; try lia; try apply H2; try apply Hrest.
      simpl. by rewrite (bind_eq _ _ _ _ _ E1).
Qed.

End Fill.

(** ** Requests *)

(** A block was requested for [addr], which misses, and no word of it has come
    yet. *)
Record miss_pending (c : t) (o : CacheOpState) (addr : Z) : Prop := {
  mp_wf : wf c;
  mp_op : cache_op_state c = Live o;
  mp_counter : counter o = word_size c;
  mp_addr : requested_addr o = addr;
  mp_index : op_index o = index_of c addr;
  mp_way : 0 ≤ op_way o < way_size c;
  mp_miss : hit c addr = None;
  mp_u32 : is_u32 addr;
  mp_pow2 : 4 * word_size c = 2 ^ offset_len c
}.

Lemma find_way_spec c index n : wf c → 0 ≤ index < 2 ^ index_len c → ∀ way lru,
  0 ≤ way → way + Z.of_nat n ≤ way_size c → 0 ≤ lru < way_size c →
  ∃ w found, find_way index way lru n c = Some ((w, found), c, []) ∧ 0 ≤ w < way_size c ∧
    (found = true →
       (∃ e, block_at c w index = Some e ∧ valid e = false) ∧
       ∀ v e, way ≤ v < w → block_at c v index = Some e → valid e = true) ∧
    (found = false →
       ∀ v e ew, v = lru ∨ way ≤ v < way + Z.of_nat n → block_at c v index = Some e →
         block_at c w index = Some ew →
         last_access ew ≤ last_access e ∧ (way ≤ v < way + Z.of_nat n → valid e = true)).
Proof.
  intros Hwf Hi. induction n as [|n IH]; intros way lru Hw Hn Hl; simpl find_way.
  { exists lru, false. split_and!; try done; try lia. intros _ v e ew [-> | ?] He Hew; [|lia].
    split; [|lia]. assert (e = ew) as -> by congruence. lia. }
  destruct (block_at_ok c lru index Hwf) as (el & Hel & _); [by split|].
  destruct (block_at_ok c way index Hwf) as (e & He & _); [split; lia|].
  rewrite (bind_eq _ _ _ _ _ (get_block_eq c lru index el Hel)).
  rewrite (bind_eq _ _ _ _ _ (get_block_eq c way index e He)).
  destruct (valid e) eqn:Hv; simpl negb; cbv iota.
  - set (lru' := if last_access e <? last_access el then way else lru).
    assert (Hl' : 0 ≤ lru' < way_size c) by (unfold lru'; destruct (_ <? _); lia).
    destruct (IH (way + 1) lru') as (w & found & E & Hwr & Ht & Hf); [lia..|].
    exists w, found. split; [done|]. split; [done|]. split.
    + intros Hfd. destruct (Ht Hfd) as [H1 H2]. split; [done|].
      intros v ev Hvr Hev. destruct (decide (v = way)) as [->|]; [congruence|].
      apply (H2 v); [lia|done].
    + intros Hfd v ev ew Hvr Hev Hew.
      assert (Hmin : last_access ew ≤ last_access el ∧ last_access ew ≤ last_access e).
      { assert (Hlru : ∃ x, block_at c lru' index = Some x ∧ last_access x ≤ last_access el ∧
          last_access x ≤ last_access e).
        { unfold lru'. destruct (Z.ltb_spec (last_access e) (last_access el)); eexists;
            (split; [eassumption|]); lia. }
        destruct Hlru as (x & Hx & ? & ?).
        destruct (Hf Hfd lru' x ew (or_introl eq_refl) Hx Hew) as [? _]. lia. }
      destruct (decide (v = way)) as [->|Hne].
      { assert (ev = e) as -> by congruence. split; [lia|done]. }
      destruct (decide (way + 1 ≤ v < way + 1 + Z.of_nat n)) as [Hin|Hout].
      { destruct (Hf Hfd v ev ew (or_intror Hin) Hev Hew). split; [done|auto]. }
      destruct Hvr as [-> | Hvr]; [|lia]. assert (ev = el) as -> by congruence. split; [lia|lia].
  - exists way, true. split; [done|]. split; [lia|]. split; [|done].
    intros _. split; [eauto|]. intros; lia.
Qed.

Section Request.
  Context {B : Type} `{MemPort B}.

(** The block the cache will replace is the first free one of the set, else the
    least recently used one. *)
Definition replaces (c : t) (index w : Z) : Prop :=
  (∃ e, block_at c w index = Some e ∧ valid e = false ∧
     ∀ v ev, 0 ≤ v < w → block_at c v index = Some ev → valid ev = true) ∨
  (∃ e, block_at c w index = Some e ∧
     ∀ v ev, 0 ≤ v < way_size c → block_at c v index = Some ev →
       valid ev = true ∧ last_access e ≤ last_access ev).

Lemma request_block_granted now addr mode client (c : t) (b b' : B) :
  wf c → status c = CACHE_IDLE → mem_acquire_bus now client b = Some (true, b', []) →
  ∃ w e, 0 ≤ w < way_size c ∧ block_at c w (index_of c addr) = Some e ∧
    replaces c (index_of c addr) w ∧
    request_block now addr mode client (MkSys B c b) =
      Some ((), MkSys B (c
        <| next_status := if valid e && negb (isisolated c) && negb (mode =? INSTFETCH) && dirty e
                          then CACHE_WB else CACHE_FETCH |>
        <| cache_op_state :=
             Live (MkOp (word_size c) addr w (index_of c addr) mode false client) |>
        <| cache_miss_counts ::= λ n, s32 (n + 1) |>) b', []).
Proof.
  intros Hwf Hst Hacq. pose proof (fields_range c addr Hwf) as (Hi & _ & _).
  pose proof (wf_way_pos c Hwf) as Hpos.
  destruct (find_way_spec c (index_of c addr) (Z.to_nat (way_size c)) Hwf Hi 0 0)
    as (w & found & E & Hw & Ht & Hf); [lia..|].
  destruct (block_at_ok c w (index_of c addr) Hwf) as (e & He & _); [by split|].
  exists w, e. split; [done|]. split; [done|].
  assert (Hval : valid e = negb found ∧ replaces c (index_of c addr) w).
  { destruct found.
    - destruct (Ht eq_refl) as [(e' & He' & Hv) Hlt].
      assert (e' = e) as -> by congruence. split; [done|]. left. exists e. auto.
    - split; [apply (Hf eq_refl w e e); auto; lia|]. right. exists e. split; [done|].
      intros v ev Hv Hev. destruct (Hf eq_refl v ev e) as [H1 H2]; auto; [lia|].
      split; [apply H2; lia|done]. }
  destruct Hval as [Hval Hrep]. split; [done|].
  unfold request_block. rewrite gets_bind. cbn [self].
  unfold index_of in *. destruct (addr_separete c addr) as [[tg index] offset].
  cbn [fst snd] in *. rewrite bool_decide_eq_true_2 by done. cbn [negb].
  rewrite (bind_eq _ _ _ _ _ (zoom_mem _ c b _ _ _ Hacq)). simpl when.
  rewrite (bind_eq _ _ _ _ _ (zoom_self _ c b' _ _ _ E)).
  rewrite Hval. destruct found; cbn [negb andb].
  - done.
  - rewrite bind_assoc. rewrite (bind_eq _ _ _ _ _ (zoom_self _ c b' _ _ _ (get_block_eq _ _ _ _ He))).
    done.
Qed.

End Request.

(** ** Properties *)

(** An idle cache that is granted the bus starts to replace, for the
    requested address, the first free way of its set, or, when every way is
    valid, a least recently used one; it goes through a write-back first
    exactly when the victim is valid and dirty, the cache is not isolated and
    the access is not an instruction fetch; no block changes yet. *)
Theorem request_replaces {B} `{MemPort B} (c : t) (b b' : B) (now addr mode client : Z)
    (Hwf : wf c) (Hst : status c = CACHE_IDLE) (Hu : is_u32 addr) (Hm : hit c addr = None)
    (Hp : 4 * word_size c = 2 ^ offset_len c)
    (Hb : mem_acquire_bus now client b = Some (true, b', [])) :
  ∃ c' w e o, request_block now addr mode client (MkSys B c b) = Some ((), MkSys B c' b', []) ∧
    miss_pending c' o addr ∧ op_way o = w ∧ op_mode o = mode ∧ op_client o = client ∧
    replaces c (index_of c addr) w ∧ block_at c w (index_of c addr) = Some e ∧
    (next_status c' = CACHE_WB ↔
       valid e = true ∧ dirty e = true ∧ isisolated c = false ∧ mode ≠ INSTFETCH) ∧
    (next_status c' ≠ CACHE_WB → next_status c' = CACHE_FETCH) ∧ blocks c' = blocks c.
Proof.
  destruct (request_block_granted now addr mode client c b b' Hwf Hst Hb)
    as (w & e & Hw & He & Hrep & E).
  eexists _, w, e, _. split; [exact E|]. split.
  { split; try done. by destruct Hwf. }
  split_and!; try done; simpl.
  - destruct (valid e), (isisolated c), (Z.eqb_spec mode INSTFETCH), (dirty e); simpl;
      split; intuition congruence.
  - destruct (_ && _); done.
Qed.

(** The first address of the block of [addr]. *)
Notation block_base c addr := (addr / 2 ^ offset_len c * 2 ^ offset_len c).

Lemma block_fields c addr j : wf c → 0 ≤ j < 2 ^ offset_len c →
  tag_of c (block_base c addr + j) = tag_of c addr ∧ index_of c (block_base c addr + j) = index_of c addr ∧
  offset_of c (block_base c addr + j) = j.
Proof.
  intros Hwf Hj. destruct (wf_offset c Hwf) as [Ho _], (wf_index c Hwf) as [Hi _].
  assert (Hin : (block_base c addr + j) / 2 ^ offset_len c = addr / 2 ^ offset_len c).
  { rewrite Z.add_comm, Z.div_add, Z.div_small by lia. lia. }
  destruct (addr_fields c (block_base c addr + j) Hwf) as (-> & -> & ->).
  destruct (addr_fields c addr Hwf) as (-> & -> & _).
  rewrite Z.pow_add_r by lia. assert (0 < 2 ^ index_len c) by (apply Z.pow_pos_nonneg; lia).
  rewrite <- !Z.div_div, Hin by lia. split_and!; try done.
  rewrite Z.add_comm, Z.mod_add, Z.mod_small; lia.
Qed.
Lemma block_in_word c addr : wf c → is_u32 addr → 4 * word_size c = 2 ^ offset_len c →
  0 ≤ block_base c addr ∧ block_base c addr + 2 ^ offset_len c ≤ 2 ^ 32.
Proof.
  intros Hwf [Hu0 Hu1] Hp2. destruct (wf_offset c Hwf) as [Ho _].
  assert (Hpow : 0 < 2 ^ offset_len c) by (apply Z.pow_pos_nonneg; lia).
  assert (0 ≤ addr / 2 ^ offset_len c) by (apply Z.div_pos; lia). split; [nia|].
  destruct (decide (offset_len c ≤ 32)) as [Hle|].
  - assert (E32 : 2 ^ 32 = 2 ^ (32 - offset_len c) * 2 ^ offset_len c)
      by (rewrite <- Z.pow_add_r by lia; f_equal; lia).
    assert (addr / 2 ^ offset_len c < 2 ^ (32 - offset_len c)) by (apply Z.div_lt_upper_bound; lia).
    nia.
  - pose proof (wf_word_size c Hwf).
    assert (2 ^ 32 < 2 ^ offset_len c) by (apply Z.pow_lt_mono_r; lia). lia.
Qed.
(** After the fill, the addresses of the block hit in its way. *)
Lemma filled_hit c c' o addr e x : miss_pending c o addr →
  offset_len c' = offset_len c → index_len c' = index_len c → way_size c' = way_size c →
  block_at c' (op_way o) (op_index o) = Some e → valid e = true → tag e = tag_of c addr →
  (∀ w i, w ≠ op_way o ∨ i ≠ op_index o → block_at c' w i = block_at c w i) →
  tag_of c x = tag_of c addr → index_of c x = index_of c addr → hit c' x = Some (op_way o).
Proof.
  intros Hp S2 S3 S4 Hblk Hv Htag Hoth Hx1 Hx2.
  destruct Hp as [Hwf _ _ _ Hidx Hway Hmiss _ _]. pose proof (wf_way_pos c Hwf).
  assert (Hsh : tag_of c' x = tag_of c x ∧ index_of c' x = index_of c x)
    by (unfold tag_of, index_of; by rewrite (addr_separete_shape c c')).
  unfold hit. destruct Hsh as (-> & ->). rewrite Hx1, Hx2, S4.
  destruct (first_way _ 0 _) as [w|] eqn:Ew.
  - apply first_way_Some in Ew as (Hw1 & Hw2 & _). f_equal.
    destruct (decide (w = op_way o)) as [|Hne]; [done|]. exfalso.
    unfold holds in Hw2. rewrite Hoth in Hw2 by auto.
    pose proof (first_way_None _ _ _ Hmiss w) as Hno. unfold holds in Hno.
    rewrite Hno in Hw2; [done|lia].
  - pose proof (first_way_None _ _ _ Ew (op_way o)) as Hno. unfold holds in Hno.
    rewrite <- Hidx, Hblk, Hv, Htag in Hno. simpl in Hno. rewrite Z.eqb_refl in Hno.
    discriminate Hno. lia.
Qed.

(** The fill of a block: from a pending miss, visits of [cache_fetch], one in each cycle, load
    the block and end the transfer, one visit for each word and one for each time the memory was
    not ready: the address then hits in the chosen way, no other way is touched, the bus is
    released, and each word of the block is the one the memory returned, converted once more by
    [host_to_mips_word]. *)
Lemma fill_runs {B} `{MemPort B} (c : t) (o : CacheOpState) (b : B) (addr now : Z) (bs : bool)
    (v : Z → Z) (I R : Z → Z → nat → B → Prop) (F : B → Prop) (n : nat)
    (Hp : miss_pending c o addr)
    (Hs : serves (word_size c) (addr / 2 ^ offset_len c * 2 ^ offset_len c)
            (if op_mode o =? INSTFETCH then INSTFETCH else DATALOAD) (op_client o) bs v I R F)
    (Hb : I now 0 n b) :
  ∃ visits c' b', word_size c ≤ Z.of_nat visits ≤ word_size c + Z.of_nat n ∧
    fetch_run visits now (MkSys B c b) = Some ((), MkSys B c' b', []) ∧ F b' ∧ wf c' ∧
    ready addr c' = Some (true, c', []) ∧ hit c' addr = Some (op_way o) ∧
    (∀ i, 0 ≤ i < word_size c →
       word_in c' (addr / 2 ^ offset_len c * 2 ^ offset_len c + 4 * i) =
         Some (host_to_mips_word bs (v i))) ∧
    (∀ w i, w ≠ op_way o ∨ i ≠ op_index o → block_at c' w i = block_at c w i) ∧
    next_status c' = CACHE_IDLE.
Proof.
  pose proof Hp as [Hwf Hop Hcnt Haddr Hidx Hway _ Hu Hp2].
  destruct (wf_offset c Hwf) as [Ho2 _]. pose proof (fields_range c addr Hwf) as (Hir & _ & _).
  destruct (block_at_ok c (op_way o) (op_index o) Hwf) as (e0 & He0 & Hl0);
    [rewrite Hidx; by split|].
  pose proof (block_in_word c addr Hwf Hu Hp2) as Halt.
  pose proof (block_fields c addr) as Hfields.
  set (a := block_base c addr) in *. set (ws := word_size c) in *.
  assert (Hws : 0 < ws) by (assert (0 < 2 ^ offset_len c) by (apply Z.pow_pos_nonneg; lia); lia).
  assert (Hf : filling ws bs v c c o e0 0).
  { split; [done|done| | |done].
    - rewrite Hop, Z.sub_0_r, <- Hcnt. by destruct o.
    - exists (data e0). split; [by destruct e0|]. split; [done|]. intros; lia. }
  destruct (fill_steps ws a _ _ bs v I R F Hs c o e0) with (todo := (Z.to_nat (ws - 0) + n)%nat)
      (now := now) (k := 0) (n := n) (c := c) (b := b)
    as (visits & c' & b' & l & Hv & E & HF & Hwf' & (S1 & S2 & S3 & S4) & Hnx & _ & _ & _ & Hblk & Hl & Hoth);
    try done; try lia.
  { unfold a. rewrite Haddr. symmetry. apply land_lnot32; [done|lia]. }
  rewrite (u32_small (a + 4 * (ws - 1))) in Hblk by lia.
  assert (Ht : tag_of c (a + 4 * (ws - 1)) = tag_of c addr) by (apply Hfields; [done|lia]).
  rewrite Ht in Hblk.
  pose proof (λ x, filled_hit c c' o addr _ x Hp S2 S3 S4 Hblk eq_refl eq_refl Hoth) as Hhold.
  exists visits, c', b'. split; [lia|]. split; [done|]. split; [done|]. split; [done|].
  split; [|split; [by apply Hhold|split; [|done]]].
  - rewrite ready_eq by done. rewrite Hhold by done. done.
  - intros i Hi. destruct (Hfields (4 * i)) as (F1 & F2 & F3); [done|lia|].
    unfold word_in. rewrite Hhold by done.
    assert (Hsh : index_of c' (a + 4 * i) = index_of c (a + 4 * i) ∧ offset_of c' (a + 4 * i) = offset_of c (a + 4 * i))
      by (unfold index_of, offset_of; by rewrite (addr_separete_shape c c')).
    destruct Hsh as (-> & ->).
    rewrite F2, F3, <- Hidx, Hblk. simpl data. rewrite Z.shiftr_div_pow2 by lia.
    change (2 ^ 2) with 4. rewrite Z.mul_comm, Z.div_mul by lia. by apply Hl.
Qed.

(** ** Witnesses *)
#[local] Existing Instance demo_port.

Lemma request_replaces_witness : ∃ c' o,
  request_block 5 16 DATALOAD 7 (MkSys unit demo_hit ()) = Some ((), MkSys unit c' (), []) ∧
  miss_pending c' o 16 ∧ next_status c' = CACHE_FETCH.
Proof.
  destruct (request_replaces demo_hit () () 5 16 DATALOAD 7 (demo_cache_wf _ _ _ _ _ _ _ _))
    as (c' & w & e & o & E & Hp & _ & _ & _ & Hr & He & [Hw _] & Hn & _);
    [reflexivity|split; lia|reflexivity|reflexivity|reflexivity|].
  exists c', o. split; [exact E|]. split; [exact Hp|]. apply Hn. intros Hc.
  destruct (Hw Hc) as (Hv & Hd & _). destruct (hit_range demo_hit 24 0 eq_refl).
  revert Hd. assert (Hc' : next_status c' = CACHE_FETCH).
  { vm_compute in E. injection E as <-. reflexivity. }
  congruence.
Defined.
