(* ===== verification/Interrupts.v ===== *)
(** * Interrupts: interrupt lines and their controller (deviceint.h,
      deviceint.cc, intctrl.h, intctrl.cc) *)

From S2P Require Import Prelude Effects Types.

Module DeviceInt.

(** deviceint.h: the bits of the IP field of the Cause register. *)
Definition IRQ7 : Z := 0x8000.
Definition IRQ6 : Z := 0x4000.
Definition IRQ5 : Z := 0x2000.
Definition IRQ4 : Z := 0x1000.
Definition IRQ3 : Z := 0x0800.
Definition IRQ2 : Z := 0x0400.
Definition IRQ1 : Z := 0x0200.
Definition IRQ0 : Z := 0x0100.

Record t := Mk {
  lines_connected : Z;     (* uint32 *)
  lines_asserted : Z       (* uint32 *)
}.
#[global] Instance eta : Eta t := λ d, Mk (lines_connected d) (lines_asserted d).

(** [DeviceInt::DeviceInt] *)
Definition DeviceInt : t := Mk 0 0.

Definition num2irq (num : Z) : Z :=
  match num with
  | 0 => IRQ0 | 1 => IRQ1 | 2 => IRQ2 | 3 => IRQ3
  | 4 => IRQ4 | 5 => IRQ5 | 6 => IRQ6 | 7 => IRQ7
  | _ => 0
  end.

(** The reports of the two functions only print. *)
Definition assertInt (line : Z) : M t unit :=
  c ← gets lines_connected;
  when (nz (Z.land line c)) (modify (λ d, d <| lines_asserted ::= λ a, Z.lor a line |>)).

Definition deassertInt (line : Z) : M t unit :=
  c ← gets lines_connected;
  when (nz (Z.land line c))
    (modify (λ d, d <| lines_asserted ::= λ a, Z.land a (lnot32 line) |>)).

End DeviceInt.

Module IntCtrl.
Import DeviceInt.

(** The controller points to its devices, which live in a store. *)
Record t := Mk {
  devs : list Z;                       (* std::vector<DeviceInt *> *)
  devices : gmap Z DeviceInt.t
}.
#[global] Instance eta : Eta t := λ c, Mk (devs c) (devices c).

Fixpoint or_lines (l : list Z) (w : gmap Z DeviceInt.t) (IP : Z) : option Z :=
  match l with
  | [] => Some IP
  | i :: l =>
      match w !! i with
      | None => None
      | Some d => or_lines l w (Z.lor IP (lines_asserted d))
      end
  end.

Definition calculateIP : M t Z :=
  c ← gets id; from_option (or_lines (devs c) (devices c) 0).

Definition connectLine (line dev : Z) : M t unit :=
  zoom_key devices dev (modify (λ d, d <| lines_connected ::= λ x, Z.lor x line |>));;
  l ← gets devs;
  if bool_decide (dev ∈ l) then mret () else devs <~ l ++ [dev].

(** ** Lemmas *)

(** Every device of the controller exists. *)
Definition wf (c : t) : Prop := ∀ i, i ∈ devs c → is_Some (devices c !! i).

Lemma or_lines_bit w l : (∀ i, i ∈ l → is_Some (w !! i)) → ∀ IP, ∃ r, or_lines l w IP = Some r ∧
  ∀ n, 0 ≤ n → Z.testbit r n = true ↔
    Z.testbit IP n = true ∨ ∃ i d, i ∈ l ∧ w !! i = Some d ∧ Z.testbit (lines_asserted d) n = true.
Proof.
  induction l as [|i l IH]; intros Hl IP; simpl.
  - exists IP. split; [done|]. intros n _. split; [by left|].
    intros [H | (i & d & []%elem_of_nil & _)]; done.
  - destruct (Hl i) as [d Hd]; [apply list_elem_of_here|]. rewrite Hd.
    assert (Hl' : ∀ j, j ∈ l → is_Some (w !! j)) by (intros; apply Hl; by apply list_elem_of_further).
    destruct (IH Hl' (Z.lor IP (lines_asserted d))) as (r & -> & Hr).
    exists r. split; [done|]. intros n Hn. rewrite Hr, Z.lor_spec, orb_true_iff by done. split.
    + intros [[H | H] | (j & d' & Hj & Hd' & Ht)].
      * by left.
      * right. exists i, d. split; [apply list_elem_of_here|done].
      * right. exists j, d'. split; [by apply list_elem_of_further|done].
    + intros [H | (j & d' & [-> | Hj]%elem_of_cons & Hd' & Ht)].
      * by left; left.
      * left. right. congruence.
      * right. eauto.
Qed.

(** ** Properties *)

(** The pending interrupts of the controller are exactly the lines that some
    connected device asserts: a line shared by several devices stays pending
    until the last of them deasserts it. *)
Theorem calculateIP_lines (c : t) (Hwf : wf c) :
  ∃ IP, calculateIP c = Some (IP, c, []) ∧
    ∀ n, 0 ≤ n → Z.testbit IP n = true ↔
      ∃ i d, i ∈ devs c ∧ devices c !! i = Some d ∧ Z.testbit (lines_asserted d) n = true.
Proof.
  destruct (or_lines_bit (devices c) (devs c) Hwf 0) as (r & E & Hr).
  exists r. split.
  - unfold calculateIP. rewrite gets_bind. unfold id. by rewrite E.
  - intros n Hn. rewrite Hr by done. rewrite Z.bits_0. split; [intros [? | ?]; done|by right].
Qed.

Lemma calculateIP_lines_witness : ∃ IP,
  calculateIP (Mk [1; 2] {[ 1 := DeviceInt.Mk IRQ3 IRQ3; 2 := DeviceInt.Mk IRQ7 0 ]}) =
    Some (IP, Mk [1; 2] {[ 1 := DeviceInt.Mk IRQ3 IRQ3; 2 := DeviceInt.Mk IRQ7 0 ]}, []) ∧
  Z.testbit IP 11 = true.
Proof.
  destruct (calculateIP_lines
    (Mk [1; 2] {[ 1 := DeviceInt.Mk IRQ3 IRQ3; 2 := DeviceInt.Mk IRQ7 0 ]})) as (IP & E & H).
  - intros i [-> | [-> | []%elem_of_nil]%elem_of_cons]%elem_of_cons; eexists; reflexivity.
  - exists IP. split; [exact E|]. apply H; [lia|].
    exists 1, (DeviceInt.Mk IRQ3 IRQ3). split; [apply list_elem_of_here|]. split; reflexivity.
Defined.

End IntCtrl.
