(* ===== verification/Clock.v ===== *)
(** * Clock: simulated time and its deferred tasks (clock.h, clock.cc, task.h)

    The tasks wait in groups; each group knows how long after the group before it is due.
    A task that is executed may defer tasks itself, itself included: the queue changes
    while the clock is passing through it. *)

From S2P Require Import Prelude Effects.

Module Clock.

(** ** Times *)
Record timespec := TS { tv_sec : Z; tv_nsec : Z }.
Definition BILLION : Z := 1000000000.
Definition timespecadd (v u : timespec) : timespec :=
  let s := tv_sec v + tv_sec u in let n := tv_nsec v + tv_nsec u in
  if BILLION <=? n then TS (s + 1) (n - BILLION) else TS s n.
Definition timespecsub (v u : timespec) : timespec :=
  let s := tv_sec v - tv_sec u in let n := tv_nsec v - tv_nsec u in
  if n <? 0 then TS (s - 1) (n + BILLION) else TS s n.
(** [TIMEVAL_TO_TIMESPEC]; a [timeval] is its seconds and microseconds. *)
Definition timeval_to_timespec (tv : Z * Z) : timespec := TS tv.1 (tv.2 * 1000).

(** ** The clock *)
Record DeferredTasks {T : Type} := MkGroup { nanoseconds_left : Z; tasks : list T }.
Arguments DeferredTasks : clear implicits.
#[global] Instance group_eta {T} : Eta (DeferredTasks T) := λ g, MkGroup T (nanoseconds_left g) (tasks g).

Record t {T : Type} := Mk {
  time : timespec;
  then_ : timespec;
  spill_ns : Z;                                  (* long *)
  deferred_tasks : list (DeferredTasks T)        (* std::list *)
}.
Arguments t : clear implicits.
#[global] Instance eta {T} : Eta (t T) := λ c, Mk T (time c) (then_ c) (spill_ns c) (deferred_tasks c).

Definition assert_that {S} (b : bool) : M S unit := when (negb b) crash.

(** [Clock::Clock], with its assertions. *)
Definition Clock {T} (start_time : timespec) : option (t T) :=
  if (0 <=? tv_sec start_time) && (0 <=? tv_nsec start_time)
  then Some (Mk T start_time (TS (-1) 0) 0 []) else None.

(** [DeferredTasks::DeferredTasks] *)
Definition new_group {T} (ns : Z) (task : T) : option (DeferredTasks T) :=
  if 0 <? ns then Some (MkGroup T ns [task]) else None.
Definition add_task {T} (task : T) (g : DeferredTasks T) : DeferredTasks T := g <| tasks ::= λ l, l ++ [task] |>.
(** [pass_time] where the group does not come due. *)
Definition shorten {T} (ns : Z) (g : DeferredTasks T) : option (DeferredTasks T) :=
  if (0 <? ns) && (ns <? nanoseconds_left g) then Some (g <| nanoseconds_left ::= λ n, n - ns |>) else None.

(** The search of [add_deferred_task]. *)
Fixpoint insert_task {T} (task : T) (ns : Z) (l : list (DeferredTasks T)) : option (list (DeferredTasks T)) :=
  match l with
  | [] => (λ g, [g]) <$> new_group ns task
  | g :: l =>
      let wait_time := ns in
      let ns := ns - nanoseconds_left g in
      if ns <? 0 then
        match new_group wait_time task, shorten wait_time g with
        | Some n, Some g => Some (n :: g :: l)
        | _, _ => None
        end
      else if ns =? 0 then Some (add_task task g :: l)
      else cons g <$> insert_task task ns l
  end.
Definition add_deferred_task {T} (task : T) (ns : Z) : M (t T) unit :=
  assert_that (0 <? ns);;
  l ← gets deferred_tasks; l' ← from_option (insert_task task ns l); deferred_tasks <~ l'.
Definition get_time {T} : M (t T) timespec := gets time.
Definition set_time {T} (new_time : timespec) : M (t T) unit :=
  assert_that ((0 <=? tv_sec new_time) && (0 <=? tv_nsec new_time));; time <~ new_time.

Section Passing.
  (** What the tasks can reach, the clock in it, and [Task::task]. *)
  Context {T W : Type} (clock : W → t T) {P : Setter clock} (task : T → M W unit).
  Notation M := (Effects.M W).

(** [pass_time] of the first group. *)
Definition pass_time (ns : Z) : M Z :=
  assert_that (0 <? ns);;
  l ← gets (λ s, deferred_tasks (clock s));
  match l with
  | [] => crash
  | g :: l =>
      assert_that (0 <? nanoseconds_left g);;
      let left := nanoseconds_left g - ns in
      zoom clock (deferred_tasks <~ g <| nanoseconds_left := left |> :: l);;
      when (left <=? 0) (for_each (tasks g) task);;
      mret left
  end.
Definition pop_front : M unit :=
  l ← gets (λ s, deferred_tasks (clock s));
  match l with [] => crash | _ :: l => zoom clock (deferred_tasks <~ l) end.
(** The loop of [increment_time]; the front of an empty list is fetched, but not used. *)
Fixpoint expire (fuel : nat) (ns : Z) : M unit :=
  match fuel with
  | O => crash
  | S fuel =>
      l ← gets (λ s, deferred_tasks (clock s));
      match l with [] => mret () | _ =>
        left ← pass_time ns;
        when (left <=? 0) pop_front;;
        if 0 <=? left then mret () else expire fuel (- left)
      end
  end.
Definition increment_time (ns : Z) : M unit :=
  assert_that (0 <? ns);;
  now ← gets (λ s, time (clock s));
  zoom clock (time <~ timespecadd now (TS 0 ns));;
  l ← gets (λ s, deferred_tasks (clock s));
  expire (S (length (l ≫= tasks))) ns.

(** [current0] is the first reading of the host's time, when there is one; [current] the
    other. *)
Definition pass_realtime (current0 current : Z * Z) (timeratio : Z) : M unit :=
  assert_that (0 <? timeratio);;
  c ← gets clock;
  let then0 := if tv_sec (then_ c) =? -1 then timeval_to_timespec current0 else then_ c in
  let now := timespecsub (timeval_to_timespec current) then0 in
  zoom clock (then_ <~ then0);;
  for_range 0 (Z.to_nat (tv_sec now)) (λ _, increment_time (BILLION / timeratio));;
  spill ← gets (λ s, spill_ns (clock s));
  let increase := Z.quot (tv_nsec now + spill) timeratio in
  (if increase =? 0 then zoom clock (spill_ns <~ tv_nsec now + spill)
   else zoom clock (spill_ns <~ 0);; increment_time increase);;
  zoom clock (then_ <~ timeval_to_timespec current).

End Passing.

End Clock.

(** ** Tasks that may be cancelled (task.h) *)
Module CancelableTask.

(** [needed] and [cancel] of the object; [real_task] is the virtual method. *)
Definition cancel : M bool unit := modify (λ _, false).
Definition task {S} (needed : bool) (real_task : M S unit) : M S unit := when needed real_task.

End CancelableTask.

(** ** The queue at absolute times *)
Module Deferred.
Import Clock.

Section Queue.
  Context {T : Type}.
  Implicit Types (l : list (DeferredTasks T)) (q : list (Z * T)).

(** When each task is due, the first group being due its own time after [base]. *)
Fixpoint absolute (base : Z) l : list (Z * T) :=
  match l with
  | [] => []
  | g :: l => ((λ k, (base + nanoseconds_left g, k)) <$> tasks g) ++ absolute (base + nanoseconds_left g) l
  end.
(** A task behind all that are due at the same time or before. *)
Fixpoint insert (due : Z) (k : T) q : list (Z * T) :=
  match q with
  | [] => [(due, k)]
  | x :: q => if x.1 <=? due then x :: insert due k q else (due, k) :: x :: q
  end.
Definition wf l : Prop := Forall (λ g, 0 < nanoseconds_left g ∧ tasks g ≠ []) l.
Definition after (b : Z) q : Prop := Forall (λ x, b < x.1) q.
Definition due_by (now : Z) q : list (Z * T) := filter (λ x, x.1 ≤ now) q.
Definition later (now : Z) q : list (Z * T) := filter (λ x, now < x.1) q.
Definition defer (now : Z) (adds : list (T * Z)) q : list (Z * T) :=
  foldl (λ q a, insert (now + a.2) a.1 q) q adds.

Lemma insert_app due k q1 q2 : Forall (λ x, x.1 ≤ due) q1 → insert due k (q1 ++ q2) = q1 ++ insert due k q2.
Proof.
  intros H. induction H as [|x q1 Hx _ IH]; [done|]. cbn [app insert].
  by rewrite (proj2 (Z.leb_le _ _) Hx), IH.
Qed.
Lemma insert_before due k q : after due q → insert due k q = (due, k) :: q.
Proof. intros [|x q' Hx _]; [done|]. cbn [insert]. by rewrite (proj2 (Z.leb_gt _ _) Hx). Qed.
Lemma absolute_after b l : wf l → after b (absolute b l).
Proof.
  intros H. revert b. induction H as [|g l [Hg _] _ IH]; intros b; [constructor|]. cbn [absolute]. apply Forall_app. split.
  - apply Forall_fmap, Forall_true. intros k. cbn. lia.
  - eapply Forall_impl; [apply IH|]. intros x Hx. cbn in Hx |- *. lia.
Qed.
Lemma group_due b d (ks : list T) : Forall (λ x : Z * T, x.1 ≤ d) ((λ k, (b, k)) <$> ks) ↔ ks = [] ∨ b ≤ d.
Proof.
  rewrite Forall_fmap. split.
  - intros [|k ks' H _]; [by left|by right].
  - intros [->|H]; [constructor|]. by apply Forall_true.
Qed.

(** Deferring inserts at the absolute time. *)
Lemma insert_task_eq task ns l : wf l → 0 < ns →
  ∃ l', insert_task task ns l = Some l' ∧ wf l' ∧ ∀ b, absolute b l' = insert (b + ns) task (absolute b l).
Proof.
  intros H. revert ns. induction H as [|g l [Hg Hgt] Hl IH]; intros ns Hns; cbn [insert_task].
  { unfold new_group. rewrite (proj2 (Z.ltb_lt _ _) Hns). eexists. split; [done|].
    split; [by repeat constructor|]. intros b. done. }
  destruct (Z.ltb_spec (ns - nanoseconds_left g) 0) as [H0|H0].
  - unfold new_group, shorten. rewrite !(proj2 (Z.ltb_lt _ _)) by lia. eexists. split; [done|].
    split; [repeat constructor; (done || cbn; lia)|]. intros b. cbn [absolute tasks nanoseconds_left fmap list_fmap app upd setter_of].
    replace (b + ns + (nanoseconds_left g - ns)) with (b + nanoseconds_left g) by lia.
    rewrite insert_before; [done|]. apply Forall_app. split.
    + apply Forall_fmap, Forall_true. intros k. cbn. lia.
    + eapply Forall_impl; [by apply absolute_after|]. intros x Hx. cbn in Hx |- *. lia.
  - destruct (Z.eqb_spec (ns - nanoseconds_left g) 0) as [H1|H1].
    + eexists. split; [done|]. split; [constructor; [split; [done|cbn; by destruct (tasks g)]|done]|]. intros b. cbn [absolute]. replace ns with (nanoseconds_left g) by lia.
      rewrite insert_app by (apply group_due; right; lia). rewrite insert_before by (by apply absolute_after).
      cbn [add_task tasks nanoseconds_left upd setter_of]. rewrite fmap_app, <- app_assoc. done.
    + destruct (IH (ns - nanoseconds_left g) ltac:(lia)) as (l' & -> & Hw & Ha). eexists. split; [done|].
      split; [by constructor|]. intros b. cbn [absolute]. rewrite Ha, insert_app by (apply group_due; right; lia).
      do 2 f_equal. lia.
Qed.
(** While the first group is due, tasks are deferred behind it. *)
Lemma insert_task_due task ns g l : nanoseconds_left g ≤ 0 → 0 < ns →
  insert_task task ns (g :: l) = cons g <$> insert_task task (ns - nanoseconds_left g) l.
Proof.
  intros Hg Hns. cbn [insert_task]. rewrite (proj2 (Z.ltb_ge _ _)), (proj2 (Z.eqb_neq _ _)) by lia. done.
Qed.

(** The deferrals of a task that is executed. *)
Fixpoint add_all (adds : list (T * Z)) l : option (list (DeferredTasks T)) :=
  match adds with
  | [] => Some l
  | (k, ns) :: adds => match insert_task k ns l with Some l' => add_all adds l' | None => None end
  end.
Definition delays (adds : list (T * Z)) : Prop := Forall (λ a, 0 < a.2) adds.

Lemma add_all_due adds g l : delays adds → nanoseconds_left g ≤ 0 → wf l →
  ∃ l', add_all adds (g :: l) = Some (g :: l') ∧ wf l' ∧
    ∀ b, absolute (b + nanoseconds_left g) l' = defer b adds (absolute (b + nanoseconds_left g) l).
Proof.
  intros H Hg. revert l. induction H as [|[k ns] adds Hns _ IH]; intros l Hl; [by exists l|].
  cbn [add_all snd] in *. rewrite insert_task_due by done.
  destruct (insert_task_eq k (ns - nanoseconds_left g) l Hl ltac:(lia)) as (l1 & -> & Hw & Ha).
  destruct (IH l1 Hw) as (l' & E & Hw' & Ha'). exists l'. split; [exact E|]. split; [done|].
  intros b. rewrite Ha', Ha. cbn [defer foldl fst snd].
  by replace (b + nanoseconds_left g + (ns - nanoseconds_left g)) with (b + ns) by lia.
Qed.

Lemma insert_due now due k q : now < due →
  due_by now (insert due k q) = due_by now q.
Proof.
  unfold due_by, later.
  intros Hd. induction q as [|x q IH]; cbn [insert]; [by rewrite filter_cons_False by (apply Z.lt_nge; exact Hd)|].
  destruct (x.1 <=? due).
  - rewrite !filter_cons. by rewrite IH.
  - by rewrite filter_cons_False by (apply Z.lt_nge; exact Hd).
Qed.
Lemma insert_later now due k q : now < due →
  later now (insert due k q) = insert due k (later now q).
Proof.
  unfold due_by, later.
  intros Hd. induction q as [|x q IH]; cbn [insert]; [by rewrite filter_cons_True by done|].
  destruct (Z.leb_spec x.1 due) as [Hx|Hx].
  - rewrite !filter_cons, IH. case_decide; [|done]. cbn [insert]. by rewrite (proj2 (Z.leb_le _ _) Hx).
  - rewrite filter_cons_True by done. rewrite (filter_cons_True _ x) by lia. cbn [insert].
    by rewrite (proj2 (Z.leb_gt _ _) Hx).
Qed.
Lemma defer_due now adds q : delays adds →
  due_by now (defer now adds q) = due_by now q ∧
  later now (defer now adds q) = defer now adds (later now q).
Proof.
  intros H. revert q. induction H as [|[k ns] adds Hns _ IH]; intros q; [done|]. cbn [defer foldl fst snd] in *.
  destruct (IH (insert (now + ns) k q)) as [IH1 IH2]. unfold defer in *.
  rewrite IH1, IH2, insert_due, insert_later by lia. done.
Qed.
(** What is deferred is in the queue, at its time. *)
Lemma defer_entries now adds q : defer now adds q ≡ₚ q ++ ((λ a, (now + a.2, a.1)) <$> adds).
Proof.
  assert (Hi : ∀ d k q, insert d k q ≡ₚ (d, k) :: q).
  { intros d k. induction q0 as [|x q0 IH]; [done|]. cbn [insert]. destruct (_ <=? _); [|done]. by rewrite IH, Permutation_swap. }
  revert q. induction adds as [|[k ns] adds IH]; intros q; cbn [defer foldl fmap list_fmap fst snd]; [by rewrite app_nil_r|].
  unfold defer in IH. rewrite IH, Hi. cbn. by rewrite Permutation_middle.
Qed.
Lemma defer_perm now adds q : (defer now adds q).*2 ≡ₚ q.*2 ++ adds.*1.
Proof. rewrite defer_entries, fmap_app, <- list_fmap_compose. done. Qed.
(** The queue tells what was deferred. *)
Lemma add_all_inj g l adds adds' (q : list (DeferredTasks T)) : nanoseconds_left g ≤ 0 → wf l → delays adds → delays adds' →
  add_all adds (g :: l) = Some q → add_all adds' (g :: l) = Some q → adds ≡ₚ adds'.
Proof.
  intros Hg Hl Ha Ha' E E'.
  destruct (add_all_due adds g l Ha Hg Hl) as (l1 & E1 & _ & H1), (add_all_due adds' g l Ha' Hg Hl) as (l2 & E2 & _ & H2).
  rewrite E in E1. rewrite E' in E2. rewrite E1 in E2. injection E2 as <-.
  specialize (H1 0). rewrite H2 in H1.
  pose proof (defer_entries 0 adds (absolute (0 + nanoseconds_left g) l)) as P1.
  rewrite <- H1, (defer_entries 0 adds') in P1. apply (inj (app _)) in P1.
  apply (fmap_Permutation (λ x, (x.2, x.1))) in P1. rewrite <- !list_fmap_compose in P1.
  assert (Hid : ∀ l : list (T * Z), ((λ x, (x.2, x.1)) ∘ (λ a, (0 + a.2, a.1))) <$> l = l).
  { intros l0. rewrite <- (list_fmap_id l0) at 2. apply list_fmap_ext. by intros _ [] _. }
  rewrite !Hid in P1. by symmetry.
Qed.
Lemma absolute_shift b d l : absolute (b + d) l = (λ x, (x.1 + d, x.2)) <$> absolute b l.
Proof.
  revert b. induction l as [|g l IH]; intros b; [done|]. cbn [absolute].
  rewrite fmap_app, <- list_fmap_compose, <- IH. f_equal; [apply list_fmap_ext; intros; cbn; f_equal; lia|f_equal; lia].
Qed.
Lemma defer_app now a1 a2 q : defer now (a1 ++ a2) q = defer now a2 (defer now a1 q).
Proof. apply foldl_app. Qed.

Lemma after_filter now q : after now q →
  due_by now q = [] ∧ later now q = q.
Proof.
  unfold due_by, later.
  intros H. induction H as [|x q Hx _ [IH1 IH2]]; [done|].
  rewrite filter_cons_False, filter_cons_True, IH1, IH2 by (done || by apply Z.lt_nge). done.
Qed.
Lemma filter_group now b (ks : list T) q : b ≤ now →
  due_by now (((λ k, (b, k)) <$> ks) ++ q) = ((λ k, (b, k)) <$> ks) ++ due_by now q ∧
  later now (((λ k, (b, k)) <$> ks) ++ q) = later now q.
Proof.
  unfold due_by, later.
  intros Hb. induction ks as [|k ks [IH1 IH2]]; [done|]. cbn [fmap list_fmap app].
  rewrite filter_cons_True, filter_cons_False, IH1, IH2 by (done || by apply Z.le_ngt). done.
Qed.
Lemma length_absolute b l : length (absolute b l) = length (l ≫= tasks).
Proof.
  revert b. induction l as [|g l IH]; intros b; [done|]. cbn. by rewrite !length_app, length_fmap, IH.
Qed.


(** The tasks that wait. *)
Lemma absolute_tasks b l : (absolute b l).*2 = l ≫= tasks.
Proof.
  revert b. induction l as [|g l IH]; intros b; [done|]. cbn [absolute mbind list_bind].
  rewrite fmap_app, IH, <- list_fmap_compose. change (snd ∘ (λ k, (b + nanoseconds_left g, k))) with (@id T).
  by rewrite list_fmap_id.
Qed.
Lemma add_all_tasks adds l l' : wf l → delays adds → add_all adds l = Some l' →
  wf l' ∧ l' ≫= tasks ≡ₚ (l ≫= tasks) ++ adds.*1.
Proof.
  intros Hw H. revert l Hw. induction H as [|[k ns] adds Hns _ IH]; intros l Hw; cbn [add_all].
  { intros [= <-]. by rewrite app_nil_r. }
  destruct (insert_task_eq k ns l Hw Hns) as (l1 & -> & Hw1 & Ha). intros E. destruct (IH l1 Hw1 E) as [Hw' Hp].
  split; [done|]. rewrite Hp, <- !(absolute_tasks 0), Ha.
  pose proof (defer_perm 0 [(k, ns)] (absolute 0 l)) as Hd. cbn [defer foldl fst snd fmap list_fmap] in Hd.
  rewrite Z.add_0_l in *. rewrite Hd, <- app_assoc. done.
Qed.

End Queue.

(** What the clock relies on: in a state that is good for the pending tasks, each of them
    can be executed, touches the clock only to defer tasks, and leaves a state that is
    good for the others and those. *)
Class Tasks {T W : Type} (clock : W → t T) {P : Setter clock} (task : T → M W unit)
    (good : list T → W → Prop) : Prop := {
  clock_set f s : clock (P f s) = f (clock s);
  good_perm ks ks' s : ks ≡ₚ ks' → good ks s → good ks' s;
  good_clock ks c s : good ks s → good ks (P (λ _, c) s);
  task_defers k ks s g l : good (k :: ks) s → deferred_tasks (clock s) = g :: l → nanoseconds_left g ≤ 0 → wf l →
    ∃ s' e adds, task k s = Some ((), s', e) ∧ delays adds ∧ time (clock s') = time (clock s) ∧
      add_all adds (g :: l) = Some (deferred_tasks (clock s')) ∧ good (ks ++ adds.*1) s'
}.

Section Passing.
  Context {T W : Type} (clock : W → t T) {P : Setter clock} (task : T → M W unit) (good : list T → W → Prop)
    {HT : Tasks clock task good}.

Definition set_queue (q : list (DeferredTasks T)) (s : W) : W := P (λ _, (clock s) <| deferred_tasks := q |>) s.

(** The tasks are executed in order, the clock's queue changing in between; with what they
    defer. *)
Inductive executes : list T → list (T * Z) → W → W → list exc_event → Prop :=
| executes_nil s : executes [] [] s s []
| executes_queue ks adds q s s' e :
    executes ks adds (set_queue q s) s' e → executes ks adds s s' e
| executes_task k ks adds adds' s s1 s' e e' g l :
    task k s = Some ((), s1, e) → deferred_tasks (clock s) = g :: l → nanoseconds_left g ≤ 0 → wf l → delays adds →
    add_all adds (g :: l) = Some (deferred_tasks (clock s1)) →
    executes ks adds' s1 s' e' → executes (k :: ks) (adds ++ adds') s s' (e ++ e').
Lemma executes_app ks1 ks2 a1 a2 s1 s2 s3 e1 e2 :
  executes ks1 a1 s1 s2 e1 → executes ks2 a2 s2 s3 e2 → executes (ks1 ++ ks2) (a1 ++ a2) s1 s3 (e1 ++ e2).
Proof.
  intros H1 H2. induction H1 as [s|ks adds q s s' e H IH|k ks adds adds' s s1 s' e e' g l Hk Hd Hg Hl Hp Ha H IH]; [done|by eapply executes_queue, IH|].
  rewrite <- !app_assoc. cbn [app]. by eapply executes_task; eauto.
Qed.

Lemma group_runs ks rest s g l : good (ks ++ rest) s → deferred_tasks (clock s) = g :: l → nanoseconds_left g ≤ 0 → wf l →
  ∃ s' e adds l', for_each ks task s = Some ((), s', e) ∧ delays adds ∧ executes ks adds s s' e ∧
    time (clock s') = time (clock s) ∧ deferred_tasks (clock s') = g :: l' ∧ wf l' ∧ good (rest ++ adds.*1) s' ∧
    ∀ now, absolute (now + nanoseconds_left g) l' = defer now adds (absolute (now + nanoseconds_left g) l).
Proof.
  intros HI Hd Hg. revert rest s l HI Hd. induction ks as [|k ks IH]; intros rest s l HI Hd Hl.
  { exists s, [], [], l. rewrite app_nil_r. split; [done|]. split; [constructor|]. split; [constructor|]. by repeat split. }
  destruct (task_defers k (ks ++ rest) s g l HI Hd Hg Hl) as (s1 & e1 & a1 & E1 & Hp1 & Ht1 & Ha1 & HI1).
  destruct (add_all_due a1 g l Hp1 Hg Hl) as (l1 & Ha1' & Hl1 & Habs1). rewrite Ha1 in Ha1'. injection Ha1' as Hd1.
  rewrite <- app_assoc in HI1.
  destruct (IH (rest ++ a1.*1) s1 l1 HI1 Hd1 Hl1) as (s2 & e2 & a2 & l2 & E2 & Hp2 & Hx & Ht2 & Hd2 & Hl2 & HI2 & Habs2).
  exists s2, (e1 ++ e2), (a1 ++ a2), l2. cbn [for_each]. unfold bindM. rewrite E1, E2. split; [done|].
  split; [by apply Forall_app|]. split; [by eapply executes_task|].
  split; [congruence|]. split; [done|]. split; [done|]. split; [by rewrite fmap_app, app_assoc|].
  intros now. by rewrite Habs2, Habs1, defer_app.
Qed.

Lemma set_queue_eq q s : deferred_tasks (clock (set_queue q s)) = q ∧ time (clock (set_queue q s)) = time (clock s).
Proof. unfold set_queue. by rewrite !clock_set. Qed.

(** The first group: it waits, or its tasks are executed and it is dropped. *)
Lemma pass_time_eq ns s g l : deferred_tasks (clock s) = g :: l → 0 < ns → wf (g :: l) →
  let left := nanoseconds_left g - ns in
  if left <=? 0 then ∀ rest, good (tasks g ++ rest) s →
    ∃ s1 e adds l', pass_time clock task ns s = Some (left, s1, e) ∧ delays adds ∧ executes (tasks g) adds s s1 e ∧
      time (clock s1) = time (clock s) ∧ deferred_tasks (clock s1) = g <| nanoseconds_left := left |> :: l' ∧ wf l' ∧
      good (rest ++ adds.*1) s1 ∧ ∀ now, absolute (now + left) l' = defer now adds (absolute (now + left) l)
  else pass_time clock task ns s = Some (left, set_queue (g <| nanoseconds_left := left |> :: l) s, []).
Proof.
  intros Hd Hns Hl left. inversion Hl as [|g0 l0 [Hg Hgt] Hl']; subst g0 l0.
  assert (E : pass_time clock task ns s =
    (when (left <=? 0) (for_each (tasks g) task);; mret left) (set_queue (g <| nanoseconds_left := left |> :: l) s)).
  { unfold pass_time, assert_that. rewrite (proj2 (Z.ltb_lt _ _) Hns). cbn [negb when]. rewrite ret_bind, gets_bind, Hd.
    rewrite (proj2 (Z.ltb_lt _ _) Hg). cbn [negb when]. rewrite ret_bind. by erewrite bind_eq. }
  rewrite E. destruct (set_queue_eq (g <| nanoseconds_left := left |> :: l) s) as [Hq Hqt].
  destruct (Z.leb_spec left 0) as [Hle|Hgt']; [|done]. cbn [when].
  intros rest HI. apply (good_clock _ ((clock s) <| deferred_tasks := g <| nanoseconds_left := left |> :: l |>)) in HI.
  change (good (tasks g ++ rest) (set_queue (g <| nanoseconds_left := left |> :: l) s)) in HI.
  destruct (group_runs (tasks g) rest _ _ l HI Hq Hle Hl') as (s1 & e & adds & l' & E1 & Hp & Hx & Ht & Hd1 & Hl1 & HI1 & Ha).
  exists s1, e, adds, l'. unfold bindM. rewrite E1. unfold mret, M_ret. rewrite app_nil_r. split; [done|]. split; [done|].
  split; [by eapply executes_queue|]. split; [congruence|]. split; [done|]. by split.
Qed.

Lemma expire_eq fuel ns s now : wf (deferred_tasks (clock s)) → 0 < ns →
  let q := absolute (now - ns) (deferred_tasks (clock s)) in
  (length (due_by now q) < fuel)%nat → good q.*2 s →
  ∃ s' e adds, expire clock task fuel ns s = Some ((), s', e) ∧ delays adds ∧ wf (deferred_tasks (clock s')) ∧
    executes (due_by now q).*2 adds s s' e ∧ time (clock s') = time (clock s) ∧
    absolute now (deferred_tasks (clock s')) = defer now adds (later now q) ∧ good (absolute now (deferred_tasks (clock s'))).*2 s'.
Proof.
  revert ns s. induction fuel as [|fuel IH]; intros ns s Hl Hns q Hf HI; [lia|]. cbn [expire]. rewrite gets_bind.
  subst q. destruct (deferred_tasks (clock s)) as [|g l] eqn:Hd.
  { exists s, [], []. rewrite Hd. repeat split; try done; constructor. }
  pose proof (pass_time_eq ns s g l Hd Hns Hl) as Hp. cbv zeta in Hp. cbn [absolute] in *.
  remember (nanoseconds_left g - ns) as left eqn:Hleft.
  replace (now - ns + nanoseconds_left g) with (now + left) in * by lia.
  inversion Hl as [|g0 l0 [Hg Hgt] Hl']; subst g0 l0.
  destruct (Z.leb_spec left 0) as [Hle|Hpos].
  - rewrite fmap_app, <- list_fmap_compose in HI. change (snd ∘ (λ k, (now + left, k))) with (@id T) in HI.
    rewrite list_fmap_id in HI.
    destruct (Hp _ HI) as (s1 & e1 & a1 & l1 & E1 & Hp1 & Hx1 & Ht1 & Hd1 & Hl1 & HI1 & Ha1).
    apply (good_clock _ ((clock s1) <| deferred_tasks := l1 |>)) in HI1.
    change (good ((absolute (now + left) l).*2 ++ a1.*1) (set_queue l1 s1)) in HI1.
    apply (good_perm _ (absolute (now + left) l1).*2) in HI1; [|by rewrite Ha1, defer_perm].
    assert (E2 : pop_front clock s1 = Some ((), set_queue l1 s1, [])) by (unfold pop_front; by rewrite gets_bind, Hd1).
    destruct (set_queue_eq l1 s1) as [Hq Hqt].
    destruct (filter_group now (now + left) (tasks g) (absolute (now + left) l) ltac:(lia)) as [F1 F2]. rewrite F1, F2 in *.
    rewrite fmap_app, <- list_fmap_compose. change (snd ∘ (λ k, (now + left, k))) with (@id T). rewrite list_fmap_id.
    unfold bindM at 1. rewrite E1. rewrite (proj2 (Z.leb_le _ _) Hle). cbn [when]. rewrite (bind_eq _ _ _ _ _ E2).
    destruct (Z.leb_spec 0 left) as [H0|H0].
    + assert (left = 0) as H00 by lia. clear Hleft. subst left. rewrite Z.add_0_r in *.
      destruct (after_filter now (absolute now l) (absolute_after now l Hl')) as [G1 G2]. rewrite G1, G2, app_nil_r.
      exists (set_queue l1 s1), (e1 ++ []), a1. rewrite Hq, Hqt. split; [done|]. split; [done|]. split; [done|].
      split; [|split; [done|split; [|done]]].
      * rewrite <- (app_nil_r a1), <- (app_nil_r (tasks g)).
        eapply executes_app; [done|]. apply (executes_queue _ _ l1), executes_nil.
      * specialize (Ha1 now). by rewrite !Z.add_0_r in Ha1.
    + destruct (defer_due now a1 (absolute (now + left) l) Hp1) as [D1 D2].
      specialize (IH (- left) (set_queue l1 s1)). rewrite Hq, Hqt, Z.sub_opp_r, Ha1 in IH. cbv zeta in IH.
      destruct IH as (s' & e & a2 & E3 & Hp3 & Hw3 & Hx3 & Ht3 & Ha3 & HI3); [done|lia| |by rewrite <- Ha1|].
      { rewrite D1. rewrite length_app, length_fmap in Hf.
        destruct (tasks g); [done|]. cbn [length] in Hf. lia. }
      exists s', (e1 ++ e), (a1 ++ a2). rewrite E3. split; [done|]. split; [by apply Forall_app|]. split; [done|].
      split; [|split; [congruence|split; [|done]]].
      * rewrite D1 in Hx3. eapply executes_app; [done|]. by eapply executes_queue.
      * by rewrite Ha3, D2, defer_app.
  - unfold bindM at 1. rewrite Hp, (proj2 (Z.leb_gt _ _) Hpos). cbn [when]. rewrite ret_bind, (proj2 (Z.leb_le _ _)) by lia.
    destruct (set_queue_eq (g <| nanoseconds_left := left |> :: l) s) as [Hq Hqt].
    assert (Hl1 : wf (g <| nanoseconds_left := left |> :: l)) by (by constructor).
    destruct (after_filter now _ (absolute_after now _ Hl1)) as [G1 G2]. cbn [absolute nanoseconds_left tasks upd setter_of] in G1, G2.
    rewrite G1, G2. eexists _, [], []. split; [done|]. rewrite Hq, Hqt. cbn [absolute nanoseconds_left tasks upd setter_of]. split; [constructor|]. split; [done|].
    split; [apply (executes_queue _ _ _ _ _ _ (executes_nil _))|]. split; [done|]. split; [done|].
    apply (good_clock _ ((clock s) <| deferred_tasks := g <| nanoseconds_left := left |> :: l |>)) in HI.
    exact HI.
Qed.

Lemma increment_runs ns now (s : W) : wf (deferred_tasks (clock s)) → 0 < ns →
  good (absolute (now - ns) (deferred_tasks (clock s))).*2 s →
  let q := absolute (now - ns) (deferred_tasks (clock s)) in
  let s0 := P (λ _, (clock s) <| time := timespecadd (time (clock s)) (TS 0 ns) |>) s in
  ∃ s' e adds, increment_time clock task ns s = Some ((), s', e) ∧ wf (deferred_tasks (clock s')) ∧
    time (clock s') = timespecadd (time (clock s)) (TS 0 ns) ∧
    executes (due_by now q).*2 adds s0 s' e ∧ delays adds ∧
    absolute now (deferred_tasks (clock s')) = defer now adds (later now q) ∧
    good (absolute now (deferred_tasks (clock s'))).*2 s'.
Proof.
  intros Hw Hns Hg q s0. assert (Hc : clock s0 = (clock s) <| time := timespecadd (time (clock s)) (TS 0 ns) |>)
    by (unfold s0; by rewrite clock_set).
  assert (Hd : deferred_tasks (clock s0) = deferred_tasks (clock s)) by (by rewrite Hc).
  destruct (expire_eq (S (length (deferred_tasks (clock s) ≫= tasks))) ns s0 now) as (s' & e & adds & E & Hp & Hw' & Hx & Ht & Ha & HI);
    rewrite ?Hd; [done|done| |by apply good_clock|].
  { apply Nat.lt_succ_r. rewrite <- (length_absolute (now - ns)). apply length_filter. }
  rewrite Hd in Hx, Ha. exists s', e, adds. split; [|rewrite Ht, Hc; by repeat split].
  unfold increment_time, assert_that. rewrite (proj2 (Z.ltb_lt _ _) Hns). cbn [negb when]. rewrite ret_bind, gets_bind.
  rewrite (bind_eq _ _ _ () s0) by done. by rewrite gets_bind, Hd.
Qed.
Lemma add_deferred_task_run k ns (c : t T) q : 0 < ns → insert_task k ns (deferred_tasks c) = Some q →
  add_deferred_task k ns c = Some ((), c <| deferred_tasks := q |>, []).
Proof.
  intros Hns E. unfold add_deferred_task, assert_that. rewrite (proj2 (Z.ltb_lt _ _) Hns). cbn [negb when].
  by rewrite ret_bind, gets_bind, E.
Qed.
Lemma add_deferred_task_eq k ns (c : t T) : wf (deferred_tasks c) → 0 < ns →
  ∃ l, add_deferred_task k ns c = Some ((), c <| deferred_tasks := l |>, []) ∧ wf l ∧
    ∀ now, absolute now l = insert (now + ns) k (absolute now (deferred_tasks c)).
Proof.
  intros Hw Hns. destruct (insert_task_eq k ns _ Hw Hns) as (l' & E & Hw' & Ha). exists l'. split; [|by split].
  by apply add_deferred_task_run.
Qed.

(** C21 deferred tasks: in any state of the queue a task is deferred to the time from the present
    that is asked for, behind the tasks of the same time; and when time passes, exactly
    the tasks that come due are executed, in the order of their times and, at the same
    time, of their deferral, whatever the tasks defer themselves meanwhile; what they defer
    is timed from the new present, and nothing is executed early, twice or never. *)
Theorem deferred_tasks_run (s : W) (ns now : Z) (Hw : wf (deferred_tasks (clock s))) (Hns : 0 < ns)
    (Hg : good (absolute (now - ns) (deferred_tasks (clock s))).*2 s) :
  (∀ k, ∃ c, add_deferred_task k ns (clock s) = Some ((), c, []) ∧ wf (deferred_tasks c) ∧
     absolute now (deferred_tasks c) = insert (now + ns) k (absolute now (deferred_tasks (clock s)))) ∧
  let q := absolute (now - ns) (deferred_tasks (clock s)) in
  let s0 := P (λ _, (clock s) <| time := timespecadd (time (clock s)) (TS 0 ns) |>) s in
  ∃ s' e adds, increment_time clock task ns s = Some ((), s', e) ∧ wf (deferred_tasks (clock s')) ∧
    time (clock s') = timespecadd (time (clock s)) (TS 0 ns) ∧
    executes (due_by now q).*2 adds s0 s' e ∧ delays adds ∧
    absolute now (deferred_tasks (clock s')) = defer now adds (later now q) ∧
    good (absolute now (deferred_tasks (clock s'))).*2 s'.
Proof.
  split; [|by apply increment_runs].
  intros k. destruct (add_deferred_task_eq k ns (clock s) Hw Hns) as (l & E & Hl & Ha).
  eexists. split; [exact E|]. by split; [|apply Ha].
Qed.

End Passing.

(** Tasks that note their numbers; the first one defers the second, five nanoseconds
    later, each time. *)
Record noted := Note { at_clock : t Z; executed : list Z }.
#[global] Instance noted_eta : Eta noted := λ s, Note (at_clock s) (executed s).
Definition note (k : Z) : M noted unit :=
  modify (λ s, s <| executed ::= λ l, l ++ [k] |>);; when (k =? 1) (zoom at_clock (add_deferred_task 2 5)).
#[global] Instance note_tasks : Tasks at_clock note (λ _ _, True).
Proof.
  split; [by intros f []|done|done|]. intros k ks s g l _ Hd Hg Hl. unfold note. destruct (k =? 1).
  - destruct (add_all_due [(2, 5)] g l) as (l' & E & _); [by repeat constructor|done..|].
    exists (Note ((at_clock s) <| deferred_tasks := g :: l' |>) (executed s ++ [k])), [], [(2, 5)].
    cbn [add_all] in E |- *. destruct (insert_task 2 5 (g :: l)) as [q|] eqn:Hi; [|done]. injection E as ->.
    split; [|split; [by apply Forall_singleton|done]].
    cbn [when]. unfold add_deferred_task. munfold. cbn. by rewrite Hd, Hi.
  - exists (Note (at_clock s) (executed s ++ [k])), [], []. cbn [add_all at_clock]. rewrite <- Hd. repeat split; constructor.
Qed.

(** 20 nanoseconds pass where the first task waits 10 and a third one 30: the second one is
    to wait five from the end of them on, and the third one waits five more. *)
Lemma deferred_tasks_run_witness :
  let s := Note (Mk Z (TS 0 0) (TS (-1) 0) 0 [MkGroup Z 10 [1]; MkGroup Z 20 [3]]) [] in
  increment_time at_clock note 20 s =
    Some ((), Note (Mk Z (TS 0 20) (TS (-1) 0) 0 [MkGroup Z 5 [2]; MkGroup Z 5 [3]]) [1], []) ∧
  ∃ s' e adds, increment_time at_clock note 20 s = Some ((), s', e) ∧
    absolute 20 (deferred_tasks (at_clock s')) = defer 20 adds (later 20 (absolute 0 (deferred_tasks (at_clock s)))).
Proof.
  intros s. split; [by vm_compute|].
  assert (Hw : wf (deferred_tasks (at_clock s))) by (by repeat constructor).
  destruct (deferred_tasks_run at_clock note (λ _ _, True) s 20 20 Hw eq_refl I) as [_ (s' & e & adds & E & _ & _ & _ & _ & Ha & _)].
  by exists s', e, adds.
Defined.

End Deferred.
