(* ===== verification/ClockDev.v ===== *)
(** * ClockDev: the high resolution clock device (clockdev.h, clockdev.cc)

    A device on the clock: at each interval a trigger makes it ready, asserts its interrupt
    and defers the next trigger. Other objects of the machine have tasks on the same clock. *)

From S2P Require Import Prelude Effects Types Interrupts Clock.
Import Clock.

Module ClockDevice.
Import DeviceInt.

Definition CTL_IE : Z := 0x2.
Definition CTL_RDY : Z := 0x1.
Definition UNREADY : Z := 0.
Definition READY : Z := CTL_RDY.

Record t := Mk {
  lines : DeviceInt.t;                       (* the base class *)
  clock_trigger : option Z;                  (* the address of a [ClockTrigger] *)
  clock_state : Z;
  interrupt_enabled : bool
}.
#[global] Instance eta : Eta t := λ d, Mk (lines d) (clock_trigger d) (clock_state d) (interrupt_enabled d).

(** The tasks on the clock: the triggers of the device, by their address, and those of other
    objects. *)
Notation Task O := (Z + O)%type.

(** The device, the clock it points to, and its triggers: those of them that were
    cancelled, and the address of the next one.  Triggers are never reused.  The other objects
    with tasks on the clock are the [rest]. *)
Record sys {O R : Type} := MkSys {
  self : t; clock : Clock.t (Task O); cancelled : gset Z; next_trigger : Z; rest : R
}.
Arguments sys : clear implicits.
Arguments MkSys {O R}.
#[global] Instance sys_eta {O R} : Eta (sys O R) := λ s, MkSys (self s) (clock s) (cancelled s) (next_trigger s) (rest s).

Section Device.
  Context {O R : Type}.
  Notation M := (Effects.M (sys O R)).
  (** What the tasks of the other objects do to the clock and to these objects. *)
  Variable other : O → Effects.M (Clock.t (Task O) * R) unit.
  (** The constants of the object. *)
  Variables (irq frequency_ns : Z).

(** [clock_trigger = new ClockTrigger(this); clock->add_deferred_task(clock_trigger, frequency_ns)] *)
Definition new_trigger : M unit :=
  k ← gets next_trigger;
  next_trigger <~ k + 1;;
  zoom self (clock_trigger <~ Some k);;
  zoom clock (add_deferred_task (inl k) frequency_ns).

Definition ready_clock : M unit :=
  zoom self (clock_state <~ READY);;
  d ← gets self;
  when (interrupt_enabled d) (zoom self (zoom lines (assertInt irq)));;
  new_trigger.
Definition unready_clock : M unit :=
  zoom self (clock_state <~ UNREADY);; zoom self (zoom lines (deassertInt irq)).

(** [ClockTrigger::task] *)
Definition trigger (k : Z) : M unit :=
  n ← gets (λ s, bool_decide (k ∉ cancelled s)); CancelableTask.task n ready_clock.
Definition task (k : Task O) : M unit :=
  match k with
  | inl k => trigger k
  | inr o => λ s,
      match other o (clock s, rest s) with
      | Some (_, (c, x), e) => Some ((), s <| clock := c |> <| rest := x |>, e)
      | None => None
      end
  end.

(** [ClockDevice::ClockDevice], with its assertions, on the clock [c]. *)
Definition ClockDevice (c : Clock.t (Task O)) (next : Z) (x : R) : option (sys O R) :=
  if (0 <? frequency_ns) && negb (irq =? IRQ0) && negb (irq =? IRQ1) then
    match new_trigger (MkSys (Mk DeviceInt None UNREADY false) c ∅ next x) with
    | Some (_, s, _) => Some s
    | None => None
    end
  else None.
(** [~ClockDevice] *)
Definition destroy : M unit :=
  d ← gets self;
  match clock_trigger d with
  | None => crash
  | Some k => modify (λ s, s <| cancelled ::= λ c, {[k]} ∪ c |>);; zoom self (clock_trigger <~ None)
  end.

(** [real_time] is the time of the host, in seconds and microseconds. *)
Definition fetch_word (real_time : Z * Z) (offset mode client : Z) : M Z :=
  s ← gets id;
  let now := time (clock s) in
  let k := offset / 4 in
  if k =? 0 then mret (u32 real_time.1)
  else if k =? 1 then mret (u32 real_time.2)
  else if k =? 2 then mret (u32 (tv_sec now))
  else if k =? 3 then mret (u32 (Z.quot (tv_nsec now) 1000))
  else if k =? 4 then
    let word := Z.lor (if interrupt_enabled (self s) then CTL_RDY else 0) (clock_state (self s)) in
    unready_clock;; mret word
  else crash.
Definition store_word (offset data client : Z) : M unit :=
  s ← gets id;
  let now := time (clock s) in
  let k := offset / 4 in
  if (k =? 0) || (k =? 1) then mret ()
  else if k =? 2 then
    if s32 data <? 0 then mret () else zoom clock (set_time (TS data (tv_nsec now)))
  else if k =? 3 then
    if s32 data <? 0 then mret () else zoom clock (set_time (TS (tv_sec now) data))
  else if k =? 4 then
    zoom self (interrupt_enabled <~ nz (Z.land data CTL_IE));;
    d ← gets self;
    when (interrupt_enabled d && (clock_state d =? READY)) (zoom self (zoom lines (assertInt irq)))
  else crash.

(** ** Properties *)

(** The device when a trigger has made it ready, with the queue [q]. *)
Definition raised (d : t) : t :=
  d <| clock_state := READY |>
    <| lines ::= λ l, if interrupt_enabled d && nz (Z.land irq (lines_connected l))
                      then l <| lines_asserted ::= λ a, Z.lor a irq |> else l |>.
Definition readied (s : sys O R) (q : list (DeferredTasks (Task O))) : sys O R :=
  s <| self ::= λ d, raised d <| clock_trigger := Some (next_trigger s) |> |>
    <| clock ::= λ c, c <| deferred_tasks := q |> |> <| next_trigger ::= λ k, k + 1 |>.

Lemma ready_clock_eq (s : sys O R) q : 0 < frequency_ns →
  insert_task (inl (next_trigger s)) frequency_ns (deferred_tasks (clock s)) = Some q →
  ready_clock s = Some ((), readied s q, []).
Proof.
  intros Hf Hq. unfold ready_clock, new_trigger, add_deferred_task, assert_that, assertInt.
  rewrite (proj2 (Z.ltb_lt _ _) Hf). destruct s as [[[c a] tr st ie] [? ? ? l] can n x]. cbn in Hq.
  unfold readied, raised. munfold. cbn. destruct ie; cbn; [destruct (nz _); cbn|]; by rewrite Hq.
Qed.

(** What the other objects promise, in states that are good for their tasks that wait: a task
    is executed, defers tasks of these objects to the future, and leaves such a state. *)
Class Neighbours (good : list O → R → Prop) : Prop := {
  nb_perm os os' x : os ≡ₚ os' → good os x → good os' x;
  nb_defers o os c x g l : good (o :: os) x → deferred_tasks c = g :: l → nanoseconds_left g ≤ 0 → Deferred.wf l →
    ∃ c' x' e adds, other o (c, x) = Some ((), (c', x'), e) ∧ Deferred.delays adds ∧ time c' = time c ∧
      Deferred.add_all ((λ a, (inr a.1, a.2)) <$> adds) (g :: l) = Some (deferred_tasks c') ∧ good (os ++ adds.*1) x'
}.

Context (good : list O → R → Prop) {HN : Neighbours good} (Hf : 0 < frequency_ns).
Implicit Types (s : sys O R) (q : list (Z * Task O)).

Definition others_of (ks : list (Task O)) : list O := omap (λ k, match k with inl _ => None | inr o => Some o end) ks.
Definition all_good (ks : list (Task O)) s : Prop := good (others_of ks) (rest s).

Lemma others_app ks ks' : others_of (ks ++ ks') = others_of ks ++ others_of ks'.
Proof. apply omap_app. Qed.
Lemma others_inr (adds : list (O * Z)) : others_of ((λ a, (inr a.1, a.2) : Task O * Z) <$> adds).*1 = adds.*1.
Proof. unfold others_of. induction adds as [|a adds IH]; [done|]. cbn. f_equal. exact IH. Qed.

(** What a task does: a live trigger makes the device ready, the others leave it alone. *)
Definition live (c : gset Z) (k : Task O) : option Z := match k with inl k => if bool_decide (k ∈ c) then None else Some k | inr _ => None end.
Record idle s s' : Prop := {
  idle_self : self s' = self s;
  idle_cancelled : cancelled s' = cancelled s;
  idle_next : next_trigger s' = next_trigger s
}.
Record ticked s s' : Prop := {
  ticked_self : self s' = raised (self s) <| clock_trigger := Some (next_trigger s) |>;
  ticked_cancelled : cancelled s' = cancelled s;
  ticked_next : next_trigger s' = next_trigger s + 1
}.
Definition triggers (adds : list (Task O * Z)) : list (Z * Z) :=
  omap (λ a, match a.1 with inl k => Some (k, a.2) | inr _ => None end) adds.

Lemma task_run k ks s g l : all_good (k :: ks) s → deferred_tasks (clock s) = g :: l → nanoseconds_left g ≤ 0 → Deferred.wf l →
  ∃ s' e adds, task k s = Some ((), s', e) ∧ Deferred.delays adds ∧ time (clock s') = time (clock s) ∧
    Deferred.add_all adds (g :: l) = Some (deferred_tasks (clock s')) ∧ all_good (ks ++ adds.*1) s' ∧
    match live (cancelled s) k with
    | None => idle s s' ∧ triggers adds = []
    | Some _ => ticked s s' ∧ triggers adds = [(next_trigger s, frequency_ns)]
    end.
Proof.
  intros HG Hd Hg Hl. destruct k as [k|o]; cbn [task live].
  - unfold trigger, CancelableTask.task. rewrite gets_bind. destruct (decide (k ∈ cancelled s)) as [Hk|Hk].
    + rewrite bool_decide_eq_false_2, bool_decide_eq_true_2 by tauto. cbn [when].
      exists s, [], []. split_and!; try done; [constructor|by rewrite Hd|by rewrite app_nil_r].
    + rewrite bool_decide_eq_true_2, bool_decide_eq_false_2 by tauto. cbn [when].
      destruct (Deferred.add_all_due [(inl (next_trigger s) : Task O, frequency_ns)] g l) as (l' & E & _); [by repeat constructor|done..|].
      cbn [Deferred.add_all] in E. destruct (insert_task _ _ _) as [q|] eqn:Hi; [|done]. injection E as ->.
      rewrite <- Hd in Hi. exists (readied s (g :: l')), [], [(inl (next_trigger s), frequency_ns)].
      split; [by apply ready_clock_eq|]. split; [by repeat constructor|]. split; [done|]. split.
      { cbn [Deferred.add_all]. by rewrite <- Hd, Hi. }
      split; [|by split]. unfold all_good in *. rewrite others_app. cbn. by rewrite app_nil_r.
  - destruct (nb_defers o (others_of ks) (clock s) (rest s) g l HG Hd Hg Hl) as (c' & x' & e & adds & -> & Ha & Ht & Hadd & HG').
    eexists _, _, ((λ a, (inr a.1, a.2)) <$> adds). split; [done|]. split; [unfold Deferred.delays; by apply Forall_fmap|]. split; [done|]. split; [exact Hadd|]. split.
    { unfold all_good. rewrite others_app, others_inr. exact HG'. }
    split; [done|]. clear. by induction adds.
Qed.

#[local] Instance device_tasks : Deferred.Tasks clock task all_good.
Proof.
  split; [by intros f []| |done|].
  - intros ks ks' s Hp. unfold all_good, others_of. apply nb_perm. by apply omap_Permutation.
  - intros k ks s g l HG Hd Hg Hl. destruct (task_run k ks s g l HG Hd Hg Hl) as (s' & e & adds & H1 & H2 & H3 & H4 & H5 & _).
    by exists s', e, adds.
Qed.

(** The tasks that come due, of which at most one is a live trigger. *)
Lemma triggers_perm adds adds' : adds ≡ₚ adds' → triggers adds ≡ₚ triggers adds'.
Proof. apply omap_Permutation. Qed.
Lemma executes_run ks adds s s' e rest_ : Deferred.executes clock task ks adds s s' e → all_good (ks ++ rest_) s →
  match omap (live (cancelled s)) ks with
  | [] => idle s s' ∧ triggers adds = []
  | [_] => ticked s s' ∧ triggers adds = [(next_trigger s, frequency_ns)]
  | _ => True
  end.
Proof.
  intros H. revert rest_. induction H as [s|ks adds q s s' e H IH|k ks adds adds' s s1 s' e e' g l Hk Hd Hg Hl Hp Ha H IH]; intros rest_ HG.
  { by repeat split. }
  { specialize (IH rest_ HG). change (cancelled (Deferred.set_queue clock q s)) with (cancelled s) in IH.
    destruct (omap (live (cancelled s)) ks) as [|? [|? ?]]; [| |done]; by destruct IH as [[I1 I2 I3] ?]. }
  destruct (task_run k (ks ++ rest_) s g l HG Hd Hg Hl) as (s2 & e2 & a2 & E2 & Hp2 & _ & Ha2 & HG2 & Hlive).
  rewrite Hk in E2. injection E2 as <- <-.
  pose proof (triggers_perm _ _ (Deferred.add_all_inj g l adds a2 _ Hg Hl Hp Hp2 Ha Ha2)) as Hperm.
  rewrite <- app_assoc in HG2. specialize (IH _ HG2). cbn [omap list_omap]. unfold triggers. rewrite omap_app.
  fold (triggers adds) (triggers adds'). destruct (live (cancelled s) k) as [k'|]; destruct Hlive as [[L1 L2 L3] Lt]; rewrite Lt in Hperm.
  - apply Permutation_singleton_r in Hperm. rewrite L2 in IH. destruct (omap _ ks) as [|? ?]; [|done].
    destruct IH as [[I1 I2 I3] ->]. rewrite Hperm. split; [split; congruence|done].
  - apply Permutation_nil_r in Hperm. rewrite Hperm. rewrite L2, L3 in IH.
    destruct (omap _ ks) as [|? [|? ?]]; [| |done]; destruct IH as [[I1 I2 I3] ->]; (split; [split|done]); rewrite ?L1, ?L3 in *; congruence.
Qed.

(** The live triggers of the queue, with their times. *)
Definition live_at (c : gset Z) q : list (Z * Z) := omap (λ x, pair x.1 <$> live c x.2) q.
Lemma live_at_tasks c q : omap (live c) q.*2 = (live_at c q).*2.
Proof. unfold live_at. induction q as [|x q IH]; [done|]. cbn. destruct (live c x.2); cbn; by rewrite IH. Qed.
Lemma live_at_cons c d k q : live_at c ((d, k) :: q) = match live c k with Some k' => (d, k') :: live_at c q | None => live_at c q end.
Proof. unfold live_at. cbn. by destruct (live c k). Qed.
Lemma live_at_filter c (P : Z * Z → Prop) (P' : Z * Task O → Prop) `{!∀ x, Decision (P x)} `{!∀ x, Decision (P' x)} q :
  (∀ d k k', P (d, k) ↔ P' (d, k')) → live_at c (filter P' q) = filter P (live_at c q).
Proof.
  intros HP. induction q as [|[d k] q IH]; [done|]. rewrite filter_cons, live_at_cons.
  destruct (live c k) as [k'|] eqn:E.
  - rewrite filter_cons. destruct (decide (P' (d, k))) as [Hy|Hn];
      [rewrite decide_True by (by apply (HP d k' k))|rewrite decide_False by (by rewrite (HP d k' k))]; [|exact IH].
    by rewrite live_at_cons, E, IH.
  - destruct (decide (P' (d, k))); [|exact IH]. by rewrite live_at_cons, E.
Qed.
Lemma live_at_adds c now adds : live_at c ((λ a, (now + a.2, a.1)) <$> adds) =
  omap (λ t, if bool_decide (t.1 ∈ c) then None else Some (now + t.2, t.1)) (triggers adds).
Proof.
  unfold live_at, triggers. induction adds as [|[[k|o] ns] adds IH]; [done| |exact IH]. cbn.
  destruct (bool_decide (k ∈ c)); cbn; by rewrite IH.
Qed.
Lemma live_at_shift c d q : live_at c ((λ x, (x.1 + d, x.2)) <$> q) = (λ x, (x.1 + d, x.2)) <$> live_at c q.
Proof.
  unfold live_at. induction q as [|x q IH]; [done|]. cbn. destruct (live c x.2); cbn; by rewrite IH.
Qed.

Lemma shift_singleton (l : list (Z * Z)) ns d k : (λ x, (x.1 + ns, x.2)) <$> l ≡ₚ [(d, k)] → l = [(d - ns, k)].
Proof.
  intros H%Permutation_singleton_r. destruct l as [|[d' k'] [|? ?]]; try done. cbn in H. injection H as Hd ->.
  do 2 f_equal. lia.
Qed.

(** The device's own trigger is the only one that waits; it comes due in [left] nanoseconds. *)
Record armed (left : Z) s : Prop := {
  armed_left : 0 < left;
  armed_queue : Deferred.wf (deferred_tasks (clock s));
  armed_good : all_good (deferred_tasks (clock s) ≫= tasks) s;
  armed_trigger : ∃ k, clock_trigger (self s) = Some k ∧
    live_at (cancelled s) (Deferred.absolute 0 (deferred_tasks (clock s))) = [(left, k)];
  armed_next k : k ∈ cancelled s → k < next_trigger s
}.

(** One increment. *)
Lemma increment_armed left s ns : armed left s → 0 < ns →
  ∃ s' e, increment_time clock task ns s = Some ((), s', e) ∧
    if ns <? left then self s' = self s ∧ armed (left - ns) s'
    else self s' = raised (self s) <| clock_trigger := Some (next_trigger s) |> ∧ armed frequency_ns s'.
Proof.
  intros [Hl Hw HG (k & Hk & Hlive) Hnext] Hns.
  destruct (Deferred.increment_runs clock task all_good ns ns s Hw Hns) as (s' & e & adds & E & Hw' & _ & Hx & _ & Hq & HG').
  { by rewrite Deferred.absolute_tasks. }
  rewrite Z.sub_diag in Hx, Hq. rewrite Deferred.absolute_tasks in HG'.
  set (q := Deferred.absolute 0 (deferred_tasks (clock s))) in *. exists s', e. split; [done|].
  assert (Hdue : live_at (cancelled s) (Deferred.due_by ns q) = filter (λ x, x.1 ≤ ns) [(left, k)])
    by (rewrite <- Hlive; by apply live_at_filter).
  assert (Hlater : live_at (cancelled s) (Deferred.later ns q) = filter (λ x, ns < x.1) [(left, k)])
    by (rewrite <- Hlive; by apply live_at_filter).
  assert (HG0 : all_good ((Deferred.due_by ns q).*2 ++ (Deferred.later ns q).*2) s).
  { unfold all_good in *. eapply nb_perm; [|exact HG]. unfold others_of. apply omap_Permutation.
    rewrite <- (Deferred.absolute_tasks 0), <- fmap_app. apply fmap_Permutation. fold q.
    rewrite <- (filter_app_complement (λ x, x.1 ≤ ns) q) at 1. apply Permutation_app_head.
    unfold Deferred.later. rewrite (list_filter_iff (λ x : Z * Task O, ¬ x.1 ≤ ns) (λ x, ns < x.1)); [done|]. intros x. lia. }
  apply (executes_run _ _ _ _ _ _ Hx) in HG0. cbn [cancelled upd setter_of] in HG0. rewrite live_at_tasks, Hdue in HG0.
  assert (Hq' : ∀ c, (λ x, (x.1 + ns, x.2)) <$> live_at c (Deferred.absolute 0 (deferred_tasks (clock s'))) ≡ₚ
    live_at c (Deferred.later ns q) ++ omap (λ t, if bool_decide (t.1 ∈ c) then None else Some (ns + t.2, t.1)) (triggers adds)).
  { intros c. rewrite <- live_at_shift, <- Deferred.absolute_shift, Z.add_0_l, Hq, <- live_at_adds. unfold live_at.
    rewrite <- omap_app. apply omap_Permutation, Deferred.defer_entries. }
  rewrite filter_cons in Hdue, Hlater, HG0. cbn [fst] in *. destruct (Z.ltb_spec ns left) as [H|H].
  - rewrite decide_False in HG0 by lia. rewrite decide_True in Hlater by lia. cbn in HG0.
    destruct HG0 as [[I1 I2 I3] Htr]. split; [done|]. specialize (Hq' (cancelled s)). rewrite Htr, Hlater in Hq'.
    apply shift_singleton in Hq'. split; [lia|done|done| |by rewrite I2, I3]. exists k. by rewrite I1, I2.
  - rewrite decide_True in HG0 by lia. rewrite decide_False in Hlater by lia. cbn in HG0.
    destruct HG0 as [[I1 I2 I3] Htr]. split; [done|]. specialize (Hq' (cancelled s)). rewrite Htr, Hlater in Hq'.
    assert (Hnew : next_trigger s ∉ cancelled s) by (intros Hin; apply Hnext in Hin; lia).
    cbn [omap list_omap fst snd] in Hq'. rewrite bool_decide_eq_false_2 in Hq' by done. apply shift_singleton in Hq'.
    split; [done|done|done| |].
    + exists (next_trigger s). rewrite I1, I2. split; [done|]. etrans; [exact Hq'|]. do 2 f_equal. lia.
    + intros j Hj. rewrite I2 in Hj. apply Hnext in Hj. cbn in I3. lia.
Qed.

(** [n] increments of [d] nanoseconds, as the machine's cycles make them. *)
Definition increments (d : Z) (n : nat) : M unit := for_each (replicate n ()) (λ _, increment_time clock task d).

Lemma increments_wait d j left s : armed left s → 0 < d → Z.of_nat j * d < left →
  ∃ s' e, increments d j s = Some ((), s', e) ∧ self s' = self s ∧ armed (left - Z.of_nat j * d) s'.
Proof.
  revert left s. induction j as [|j IH]; intros left s Ha Hd Hj.
  { exists s, []. replace (left - Z.of_nat 0 * d) with left by lia. by split. }
  destruct (increment_armed left s d Ha Hd) as (s1 & e1 & E1 & H1).
  rewrite (proj2 (Z.ltb_lt d left)) in H1 by lia. destruct H1 as [H1 Ha1].
  destruct (IH (left - d) s1 Ha1 Hd) as (s' & e & E & H2 & H3); [lia|].
  exists s', (e1 ++ e). unfold increments in *. cbn [replicate for_each]. unfold bindM. rewrite E1, E. split; [done|].
  split; [congruence|]. by replace (left - Z.of_nat (S j) * d) with (left - d - Z.of_nat j * d) by lia.
Qed.
Lemma increments_add d j k s s1 e1 : increments d j s = Some ((), s1, e1) →
  increments d (j + k) s = match increments d k s1 with Some (u, s', e) => Some (u, s', e1 ++ e) | None => None end.
Proof.
  unfold increments. revert s s1 e1. induction j as [|j IH]; intros s s1 e1 E; cbn [replicate for_each Nat.add] in *.
  { injection E as <- <-. by destruct (for_each _ _ _) as [[[? ?] ?]|]. }
  unfold bindM in E |- *. destruct (increment_time _ _ _ s) as [[[[] s0] e0]|]; [|done].
  destruct (for_each (replicate j ()) _ s0) as [[[[] s2] e2]|] eqn:E2; [|done]. injection E as <- <-.
  rewrite (IH s0 s2 e2 E2). destruct (for_each _ _ s2) as [[[? ?] ?]|]; [|done]. by rewrite app_assoc.
Qed.

(** C23 clock ticks, on a clock that other objects have tasks on too: while time passes in
    increments of [d] nanoseconds, the clock device becomes ready, once, in exactly the increment
    that completes the time left, with its interrupt asserted if interrupts are enabled, and not
    before, whatever the other tasks defer meanwhile; then its whole interval is left from the
    end of that increment on, so that the next tick comes after as many increments as it takes to
    cover the interval. (The interval from tick to tick is therefore the configured one rounded
    up to whole increments, and not the regular one of the class's comment.) *)
Theorem clock_ticks (left d : Z) s (Ha : armed left s) (Hd : 0 < d) :
  let n := Z.to_nat ((left - 1) / d) in
  (∀ j, (j ≤ n)%nat → ∃ s' e, increments d j s = Some ((), s', e) ∧ self s' = self s ∧ armed (left - Z.of_nat j * d) s') ∧
  ∃ s' e, increments d (S n) s = Some ((), s', e) ∧ armed frequency_ns s' ∧ ∃ k,
    self s' = raised (self s) <| clock_trigger := Some k |>.
Proof.
  intros n. pose proof (armed_left _ _ Ha) as Hl.
  assert (Hn : Z.of_nat n = (left - 1) / d) by (apply Z2Nat.id, Z.div_pos; lia).
  pose proof (Z.div_mod (left - 1) d ltac:(lia)). pose proof (Z.mod_pos_bound (left - 1) d ltac:(lia)).
  assert (Hw : ∀ j, (j ≤ n)%nat → ∃ s' e, increments d j s = Some ((), s', e) ∧ self s' = self s ∧ armed (left - Z.of_nat j * d) s')
    by (intros j Hj; apply increments_wait; [done..|nia]).
  split; [exact Hw|]. destruct (Hw n ltac:(done)) as (s1 & e1 & E1 & H1 & Ha1).
  destruct (increment_armed _ s1 d Ha1 Hd) as (s' & e & E & Hs). rewrite (proj2 (Z.ltb_ge d _)) in Hs by nia.
  destruct Hs as [Hs Ha']. exists s', (e1 ++ e). split; [|split; [done|rewrite <- H1; by eexists]].
  replace (S n) with (n + 1)%nat by lia. rewrite (increments_add d n 1 s s1 e1 E1).
  unfold increments. cbn [replicate for_each]. unfold bindM. rewrite E. cbn. by rewrite app_nil_r.
Qed.

End Device.

(** Another object whose only task counts its executions and defers itself by 7 nanoseconds,
    as a keyboard poll does. *)
Definition poll (o : ()) : Effects.M (Clock.t (Task ()) * Z) unit := λ s,
  match insert_task (inr ()) 7 (deferred_tasks s.1) with
  | Some q => Some ((), (s.1 <| deferred_tasks := q |>, s.2 + 1), [])
  | None => None
  end.
#[global] Instance poll_neighbours : Neighbours poll (λ _ _, True).
Proof.
  split; [done|]. intros o os c x g l _ Hd Hg Hl.
  destruct (Deferred.add_all_due [(inr () : Task (), 7)] g l) as (l' & E & _); [by repeat constructor|done..|].
  cbn [Deferred.add_all] in E. destruct (insert_task _ _ _) as [q|] eqn:Hi; [|done]. injection E as ->.
  exists (c <| deferred_tasks := g :: l' |>), (x + 1), [], [((), 7)]. unfold poll. cbn [fst snd]. rewrite Hd, Hi.
  split; [done|]. split; [by repeat constructor|]. split; [done|]. split; [|done]. cbn [fmap list_fmap Deferred.add_all fst snd]. by rewrite Hi.
Qed.

(** An interval of 25 nanoseconds and increments of 10, with the poll on the clock: the third
    increment makes the device ready. *)
Lemma clock_ticks_witness :
  let s := MkSys (Mk (DeviceInt.Mk IRQ7 0) (Some 0) UNREADY true)
    (Clock.Mk (Task ()) (TS 0 0) (TS (-1) 0) 0 [MkGroup _ 7 [inr ()]; MkGroup _ 18 [inl 0]]) ∅ 1 0 in
  (∃ s' e, increments poll IRQ7 25 10 2 s = Some ((), s', e) ∧ self s' = self s) ∧
  ∃ s' e, increments poll IRQ7 25 10 3 s = Some ((), s', e) ∧ clock_state (self s') = READY ∧
    lines_asserted (lines (self s')) = IRQ7.
Proof.
  intros s.
  assert (Ha : armed (λ _ _, True) 25 s).
  { split; [lia|repeat constructor; discriminate|exact I|exists 0; split; reflexivity|].
    intros k Hk. by apply not_elem_of_empty in Hk. }
  destruct (clock_ticks poll IRQ7 25 (λ _ _, True) eq_refl 25 10 s Ha eq_refl) as [H1 (s2 & e2 & E2 & _ & k & H2)]. split.
  - destruct (H1 2%nat) as (s1 & e1 & E1 & Hs & _); [vm_compute; lia|]. exists s1, e1. exact (conj E1 Hs).
  - exists s2, e2. split; [exact E2|]. rewrite H2. split; reflexivity.
Defined.

End ClockDevice.
