(* ===== verification/Terminal.v ===== *)
(** * Terminal: terminals of the host as simulated lines (terminalcontroller.h,
      terminalcontroller.cc)

    Keyboards are polled and displays become ready again by tasks on the clock.  The
    devices that derive from the controller override some of its methods. *)

From S2P Require Import Prelude Effects Clock.
Import Clock.

(** ** The host's calls *)
Module Host.

(** [read(fd, &c, 1)], the byte if there is one; [write(fd, &c, 1)], whether it returns one;
    [select(max_fd, &set, NULL, NULL, &zero)], the set afterwards and the result. *)
Class Host (H : Type) : Type := {
  read : Z → H → option Z * H;
  write : Z → Z → H → bool * H;
  select : H → Z → gset Z → gset Z * Z
}.
(** What the controller relies on: a descriptor that is reported was asked for.  A write may
    fail, or write nothing. *)
Class Laws (H : Type) {HH : Host H} : Prop := {
  select_subset h max_fd set : (select h max_fd set).1 ⊆ set
}.
Definition takes_bytes {H : Type} {HH : Host H} (h : H) : Prop := ∀ fd c, (write fd c h).1 = true.
Definition call {H A} (f : H → A * H) : M H A := λ h, let '(a, h') := f h in Some (a, h', []).

(** A host for examples: what was typed on each descriptor and not read, what was written. *)
Record buffers := Buffers { input : gmap Z (list Z); output : gmap Z (list Z) }.
Definition typed (h : buffers) (fd : Z) : list Z := default [] (input h !! fd).
#[global] Instance buffered : Host buffers := {|
  read fd h := match typed h fd with
    | [] => (None, h)
    | c :: l => (Some c, Buffers (<[fd := l]> (input h)) (output h))
    end;
  write fd c h := (true, Buffers (input h) (<[fd := default [] (output h !! fd) ++ [c]]> (output h)));
  select h max_fd set := let s := filter (λ fd, fd < max_fd ∧ typed h fd ≠ []) set in (s, Z.of_nat (size s))
|}.
#[global] Instance buffered_laws : Laws buffers.
Proof. split. intros h m s. cbn. set_solver. Qed.

End Host.

Module TerminalController.

Definition MAX_TERMINALS : Z := 16.
Inductive State := UNREADY | READY.
#[global] Instance State_eq_dec : EqDecision State.
Proof. solve_decision. Defined.
(** [READY = CTL_RDY] *)
Definition state_word (s : State) : Z := match s with UNREADY => 0 | READY => 1 end.

Record LineState := MkLine {
  tty_fd : Z;                      (* int; -1: not connected *)
  keyboard_repoll : option Z;      (* the address of the task *)
  display_delay : option Z;
  keyboard_char : Z;               (* char *)
  keyboard_state : State;
  display_state : State
}.
#[global] Instance line_eta : Eta LineState := λ l,
  MkLine (tty_fd l) (keyboard_repoll l) (display_delay l) (keyboard_char l) (keyboard_state l) (display_state l).

Record t := Mk {
  keyboard_poll : option Z;
  max_fd : Z;                      (* int *)
  unready_keyboards : gset Z;      (* fd_set *)
  lines : list LineState           (* LineState[MAX_TERMINALS] *)
}.
#[global] Instance eta : Eta t := λ c, Mk (keyboard_poll c) (max_fd c) (unready_keyboards c) (lines c).

(** The tasks: their class and their address.  Addresses are not used again. *)
Inductive task_class := KeyboardPoll | KeyboardRepoll (line : Z) | DisplayDelay (line : Z) | ClockTrigger.
Notation Task := (task_class * Z)%type.

(** The controller, what the derived class adds to it, the clock, the tasks that were
    cancelled and the address of the next one, the host, and how often the attention key
    was given to the machine. *)
Record sys {D H : Type} := MkSys {
  term : t;
  dev : D;
  clock : Clock.t Task;
  cancelled : gset Z;
  next_task : Z;
  host : H;
  attn_keys : Z
}.
Arguments sys : clear implicits.
#[global] Instance sys_eta {D H} : Eta (sys D H) := λ s,
  MkSys D H (term s) (dev s) (clock s) (cancelled s) (next_task s) (host s) (attn_keys s).

Definition line_of (c : t) (line : Z) : option LineState :=
  if (0 <=? line) && (line <? MAX_TERMINALS) then nthz (lines c) line else None.
(** [line_connected] *)
Definition connected (c : t) (line : Z) : bool :=
  match line_of c line with Some l => negb (tty_fd l =? -1) | None => false end.

Section Controller.
  Context {D H : Type} {HH : Host.Host H}.
  Notation M := (Effects.M (sys D H)).
  (** The constants of the object. *)
  Variables keyboard_poll_ns keyboard_repoll_ns display_ready_delay_ns : Z.

Definition line_connected (line : Z) : M bool := gets (λ s, connected (term s) line).
Definition on_line {A} (line : Z) (m : Effects.M LineState A) : M A := zoom term (zoom_nth lines line m).
Definition new_task (k : task_class) (ns : Z) : M Z :=
  n ← gets next_task;
  next_task <~ n + 1;;
  zoom clock (add_deferred_task (k, n) ns);;
  mret n.
Definition cancel (n : Z) : M unit := modify (λ s, s <| cancelled ::= λ c, {[n]} ∪ c |>).
Definition assert_line (line : Z) (f : LineState → bool) : M unit :=
  l ← on_line line (gets id); assert_that (f l).

(** *** The lines *)
Definition ready_display (line : Z) : M unit :=
  c ← line_connected line; assert_that c;;
  assert_line line (λ l, bool_decide (display_state l = UNREADY));;
  assert_line line (λ l, bool_decide (is_Some (display_delay l)));;
  on_line line (display_delay <~ None;; display_state <~ READY).
Definition unready_display (line data : Z) : M unit :=
  c ← line_connected line; assert_that c;;
  l ← on_line line (gets id);
  if bool_decide (display_state l = UNREADY) then mret () else
  ok ← zoom host (Host.call (Host.write (tty_fd l) (wrap 8 data))); assert_that ok;;
  assert_line line (λ l, bool_decide (display_delay l = None));;
  on_line line (display_state <~ UNREADY);;
  n ← new_task (DisplayDelay line) display_ready_delay_ns;
  on_line line (display_delay <~ Some n).
Definition unready_keyboard (line : Z) : M unit :=
  c ← line_connected line; assert_that c;;
  assert_line line (λ l, bool_decide (keyboard_state l = READY));;
  l ← on_line line (gets id);
  match keyboard_repoll l with
  | None => crash
  | Some n =>
      zoom term (modify (λ c, c <| unready_keyboards ::= λ u, {[tty_fd l]} ∪ u |>));;
      on_line line (keyboard_state <~ UNREADY);;
      cancel n;;
      on_line line (keyboard_repoll <~ None)
  end.
(** The attention key is 0x1f; [machine->attn_key] is told. *)
Definition ready_keyboard (line : Z) : M unit :=
  c ← line_connected line; assert_that c;;
  on_line line (keyboard_state <~ READY);;
  l ← on_line line (gets id);
  zoom term (modify (λ c, c <| unready_keyboards ::= λ u, u ∖ {[tty_fd l]} |>));;
  r ← zoom host (Host.call (Host.read (tty_fd l)));
  (match r with Some c => on_line line (keyboard_char <~ swrap 8 c) | None => mret () end);;
  l ← on_line line (gets id);
  when (keyboard_char l =? 0x1f)
    (on_line line (keyboard_char <~ 0);; modify (λ s, s <| attn_keys ::= λ n, n + 1 |>)).

(** *** Connections *)
Section Terminals.
  (** [isatty], and whether [tcgetattr] and [tcsetattr] succeed. *)
  Variables isatty tcgetattr tcsetattr : Z → bool.

Definition prepare_tty (line : Z) : M bool :=
  c ← line_connected line; assert_that c;;
  l ← on_line line (gets id);
  mret (negb (isatty (tty_fd l)) || tcsetattr (tty_fd l)).
Definition connect_terminal (fd line : Z) : M bool :=
  c ← line_connected line;
  if (c : bool) then mret false else
  assert_line line (λ l, bool_decide (keyboard_repoll l = None));;
  assert_line line (λ l, bool_decide (display_delay l = None));;
  if isatty fd && negb (tcgetattr fd) then mret false else
  on_line line (tty_fd <~ fd);;
  ok ← prepare_tty line;
  if negb ok then on_line line (tty_fd <~ -1);; mret false else
  on_line line (keyboard_char <~ 0;; keyboard_state <~ UNREADY;; display_state <~ READY);;
  zoom term (modify (λ c, c <| unready_keyboards ::= λ u, {[fd]} ∪ u |>));;
  m ← gets (λ s, max_fd (term s));
  when (m <? fd + 1) (zoom term (max_fd <~ fd + 1));;
  c ← line_connected line; assert_that c;;
  mret true.
(** The descriptors of the lines; [max_fd] afterwards. *)
Definition highest_fd (l : list LineState) : Z := foldl (λ m l, if m <? tty_fd l then tty_fd l else m) (-1) l.
Definition remove_terminal (line : Z) : M unit :=
  assert_that ((0 <=? line) && (line <? MAX_TERMINALS));;
  l ← on_line line (gets id);
  if tty_fd l =? -1 then
    assert_that (bool_decide (keyboard_repoll l = None));; assert_that (bool_decide (display_delay l = None))
  else
    on_line line (tty_fd <~ -1);;
    zoom term (modify (λ c, c <| unready_keyboards ::= λ u, u ∖ {[tty_fd l]} |>));;
    (match keyboard_repoll l with Some n => cancel n;; on_line line (keyboard_repoll <~ None) | None => mret () end);;
    (match display_delay l with Some n => cancel n;; on_line line (display_delay <~ None) | None => mret () end);;
    zoom term (modify (λ c, c <| max_fd := let m := highest_fd (lines c) in if m =? -1 then -1 else m + 1 |>)).
Definition all_lines (f : Z → M unit) : M unit := for_range 0 (Z.to_nat MAX_TERMINALS) f.
Definition reinitialize_terminals : M unit :=
  all_lines (λ i,
    c ← line_connected i;
    when c (ok ← prepare_tty i; when (negb ok) (remove_terminal i))).

End Terminals.

Definition TerminalController (c : Clock.t Task) (d : D) (h : H) (next : Z) : option (sys D H) :=
  if (0 <? keyboard_poll_ns) && (0 <? keyboard_repoll_ns) && (0 <? display_ready_delay_ns) then
    let l := MkLine (-1) None None 0 UNREADY READY in
    match (n ← new_task KeyboardPoll keyboard_poll_ns; zoom term (keyboard_poll <~ Some n))
            (MkSys D H (Mk None (-1) ∅ (replicate 16 l)) d c ∅ next h 0) with
    | Some (_, s, _) => Some s
    | None => None
    end
  else None.
Definition destroy : M unit :=
  all_lines remove_terminal;;
  p ← gets (λ s, keyboard_poll (term s));
  match p with Some n => cancel n | None => mret () end.

(** *** The tasks *)
Section Tasks.
  (** The methods that the derived class overrides, and its own task. *)
  Variables (v_ready_keyboard v_ready_display : Z → M unit) (clock_trigger : M unit).

Definition repoll_keyboard (line : Z) : M unit :=
  c ← line_connected line; assert_that c;;
  assert_line line (λ l, bool_decide (keyboard_state l = READY));;
  v_ready_keyboard line;;
  n ← new_task (KeyboardRepoll line) keyboard_repoll_ns;
  on_line line (keyboard_repoll <~ Some n).
Definition poll_line (to_read : gset Z) (i : Z) : M unit :=
  l ← on_line i (gets id);
  when (negb (tty_fd l =? -1) && bool_decide (tty_fd l ∈ to_read))
    (assert_that (bool_decide (keyboard_repoll l = None));;
     assert_that (bool_decide (keyboard_state l = UNREADY));;
     n ← new_task (KeyboardRepoll i) keyboard_repoll_ns;
     on_line i (keyboard_repoll <~ Some n);;
     v_ready_keyboard i).
Definition poll_keyboards : M unit :=
  n ← new_task KeyboardPoll keyboard_poll_ns;
  zoom term (keyboard_poll <~ Some n);;
  s ← gets id;
  if max_fd (term s) =? -1 then mret () else
  let '(to_read, read_count) := Host.select (host s) (max_fd (term s)) (unready_keyboards (term s)) in
  if read_count =? 0 then mret () else all_lines (poll_line to_read).

Definition real_task (k : task_class) : M unit :=
  match k with
  | KeyboardPoll => poll_keyboards
  | KeyboardRepoll line => repoll_keyboard line
  | DisplayDelay line => v_ready_display line
  | ClockTrigger => clock_trigger
  end.
Definition task (k : Task) : M unit :=
  n ← gets (λ s, bool_decide (k.2 ∉ cancelled s)); CancelableTask.task n (real_task k.1).

End Tasks.
End Controller.
End TerminalController.
