(* ===== verification/TerminalInv.v ===== *)
(** * TerminalInv: the assertions of the terminal controller never fail

    The invariant ties the state of each line to the tasks that wait in the clock's queue;
    it is kept by what the machine does with the lines and by every task, with whatever
    the derived device adds. *)

From S2P Require Import Prelude Effects Clock Terminal.
Import Clock TerminalController.

Module TerminalInv.

Section Invariant.
  Context {D Hst : Type}.
  (** How many of the lines the device may connect. *)
  Variable used : Z.
  Implicit Types (P : list Task) (s : sys D Hst).

(** The tasks that will have an effect. *)
Definition live P s (k : Task) : Prop := k ∈ P ∧ k.2 ∉ cancelled s.
Definition of_line (k : task_class) : option Z :=
  match k with KeyboardRepoll i | DisplayDelay i => Some i | _ => None end.

Record line_ok (U : gset Z) (L : Task → Prop) (i : Z) (l : LineState) : Prop := {
  line_repoll n : keyboard_repoll l = Some n ↔ L (KeyboardRepoll i, n);
  line_delay n : display_delay l = Some n ↔ L (DisplayDelay i, n);
  line_keyboard : keyboard_repoll l = None ↔ tty_fd l = -1 ∨ keyboard_state l = UNREADY;
  line_display : display_delay l = None ↔ tty_fd l = -1 ∨ display_state l = READY;
  line_polled : tty_fd l ≠ -1 → (tty_fd l ∈ U ↔ keyboard_state l = UNREADY) ∧ i < used
}.
(** The tasks are told apart by their addresses, and those are below the next one. *)
Definition ids P (ca : gset Z) (next : Z) : Prop := NoDup P.*2 ∧ ∀ n, n ∈ P.*2 ∨ n ∈ ca → n < next.
Record good P s : Prop := {
  good_lines : length (lines (term s)) = 16%nat;
  good_line i l : nthz (lines (term s)) i = Some l → line_ok (unready_keyboards (term s)) (live P s) i l;
  good_fds i j l m : nthz (lines (term s)) i = Some l → nthz (lines (term s)) j = Some m →
    tty_fd l = tty_fd m → tty_fd l ≠ -1 → i = j;
  good_known k i : live P s k → of_line k.1 = Some i → 0 ≤ i < MAX_TERMINALS;
  good_ids : ids P (cancelled s) (next_task s)
}.

(** ** How the live tasks change *)
Lemma live_new P s s' k0 k : cancelled s' = cancelled s → k0.2 ∉ cancelled s →
  live (P ++ [k0]) s' k ↔ live P s k ∨ k = k0.
Proof. unfold live. intros -> H. rewrite elem_of_app, list_elem_of_singleton. naive_solver. Qed.
Lemma live_pop P s s' k0 k : cancelled s' = cancelled s → NoDup (k0 :: P).*2 →
  live P s' k ↔ live (k0 :: P) s k ∧ k ≠ k0.
Proof.
  unfold live. intros ->. cbn [fmap list_fmap]. rewrite NoDup_cons, list_elem_of_fmap. intros [H _]. rewrite elem_of_cons.
  split; [|naive_solver]. intros [Hk Hc]. split; [by split; [right|]|]. intros ->. apply H. by exists k0.
Qed.
Lemma live_cancel P s s' k0 k : cancelled s' = {[k0.2]} ∪ cancelled s → NoDup P.*2 → k0 ∈ P →
  live P s' k ↔ live P s k ∧ k ≠ k0.
Proof.
  unfold live. intros -> Hn Hk0. rewrite not_elem_of_union, not_elem_of_singleton.
  split; [intros [H1 [H2 H3]]; split; [done|congruence]|]. intros [[H1 H2] H3]. split; [done|]. split; [|done].
  intros H4. apply H3. apply list_elem_of_lookup in H1 as [i Hi]. apply list_elem_of_lookup in Hk0 as [j Hj].
  assert (i = j) as ->; [|congruence]. eapply NoDup_lookup; [exact Hn| |]; rewrite list_lookup_fmap; [by rewrite Hi|]. rewrite Hj; cbn; by rewrite H4.
Qed.

Lemma ids_new P ca next k : ids P ca next → ids (P ++ [(k, next)]) ca (next + 1).
Proof.
  intros [H1 H2]. split.
  - rewrite fmap_app. apply NoDup_app. split; [exact H1|]. split; [|apply NoDup_singleton].
    intros n Hn Hn2. cbn in Hn2. apply list_elem_of_singleton in Hn2. subst n. specialize (H2 next (or_introl Hn)). lia.
  - intros n. rewrite fmap_app, elem_of_app. cbn. rewrite list_elem_of_singleton. intros H.
    assert (n = next ∨ n < next); [|lia]. destruct H as [[H|H]|H]; eauto.
Qed.
Lemma ids_pop P ca next k : ids (k :: P) ca next → ids P ca next.
Proof.
  intros [H1 H2]. split; [cbn in H1; by apply NoDup_cons in H1 as [_ H1]|].
  intros n [Hn|Hn]; apply H2; [left; by right|by right].
Qed.
Lemma ids_cancel P ca next n : ids P ca next → n ∈ P.*2 → ids P ({[n]} ∪ ca) next.
Proof. intros [H1 H2] Hn. split; [done|]. intros m [Hm|Hm]; [by apply H2; left|]. set_solver. Qed.
Lemma ids_fresh P ca next : ids P ca next → next ∉ P.*2 ∧ next ∉ ca.
Proof. intros [_ H]. split; intros Hn; specialize (H next ltac:(eauto)); lia. Qed.

(** ** One line changes *)
Lemma nthz_lines P s i l : good P s → nthz (lines (term s)) i = Some l → 0 ≤ i < 16.
Proof. intros H Hi. apply nthz_Some in Hi as [Hi _]. rewrite (good_lines _ _ H) in Hi. lia. Qed.
Lemma nthz_line_insert (l : list LineState) i j x : 0 ≤ i < Z.of_nat (length l) →
  nthz (<[Z.to_nat i := x]> l) j = if j =? i then Some x else nthz l j.
Proof. intros Hi. apply (nthz_setz l i x). by apply setz_Some. Qed.

Lemma good_step P s P' s' i l l' : good P s → nthz (lines (term s)) i = Some l →
  lines (term s') = <[Z.to_nat i := l']> (lines (term s)) →
  line_ok (unready_keyboards (term s')) (live P' s') i l' →
  (∀ fd, fd ≠ tty_fd l → fd ≠ tty_fd l' → fd ∈ unready_keyboards (term s') ↔ fd ∈ unready_keyboards (term s)) →
  (tty_fd l' ≠ -1 → ∀ j m, j ≠ i → nthz (lines (term s)) j = Some m → tty_fd m ≠ tty_fd l') →
  (∀ k j, of_line k.1 = Some j → j ≠ i → live P' s' k ↔ live P s k) →
  ids P' (cancelled s') (next_task s') → good P' s'.
Proof.
  intros Hg Hl Hs Hok HU Hfd Hk Hn. pose proof (nthz_lines _ _ _ _ Hg Hl) as Hi.
  assert (HN : ∀ j, nthz (lines (term s')) j = if j =? i then Some l' else nthz (lines (term s)) j).
  { intros j. rewrite Hs. apply nthz_line_insert. rewrite (good_lines _ _ Hg). lia. }
  split; [by rewrite Hs, length_insert, (good_lines _ _ Hg)| | | |done].
  - intros j m. rewrite HN. destruct (Z.eqb_spec j i) as [->|Hj]; [by intros [= <-]|]. intros Hm.
    destruct (good_line _ _ Hg j m Hm) as [H1 H2 H3 H4 H5]. split; try done.
    + intros n. by rewrite H1, Hk.
    + intros n. by rewrite H2, Hk.
    + intros Hc. rewrite HU; [by apply H5| |].
      * intros E. apply Hj. by eapply (good_fds _ _ Hg).
      * intros E. rewrite E in Hc. by eapply Hfd.
  - intros j1 j2 m1 m2. rewrite !HN. destruct (Z.eqb_spec j1 i) as [->|H1], (Z.eqb_spec j2 i) as [->|H2]; try done.
    + intros [= <-] Hm E Hc. by destruct (Hfd Hc j2 m2 H2 Hm).
    + intros Hm [= <-] E Hc. rewrite E in Hc. by destruct (Hfd Hc j1 m1 H1 Hm).
    + apply (good_fds _ _ Hg).
  - intros k j Hkl Hj. destruct (Z.eq_dec j i) as [->|Hne]; [done|]. eapply (good_known _ _ Hg); [by eapply Hk|done].
Qed.

(** A task that concerns no line, or none any more. *)
Lemma good_other P s k : good (k :: P) s → k.2 ∈ cancelled s ∨ of_line k.1 = None → good P s.
Proof.
  intros [H1 H2 H3 H4 H5] Hk.
  assert (HL : ∀ k' i, of_line k'.1 = Some i → live P s k' ↔ live (k :: P) s k').
  { intros k' i Hi. rewrite (live_pop P s s k) by (done || apply H5). split; [tauto|]. intros H. split; [done|]. intros ->.
    destruct Hk as [Hk|Hk]; [by apply H|congruence]. }
  split; [done| |done| |by eapply ids_pop].
  - intros i l Hl. destruct (H2 i l Hl) as [L1 L2 L3 L4 L5]. split; try done; intros n; [rewrite L1|rewrite L2]; by rewrite HL.
  - intros k' i Hl Hi. eapply H4; [by eapply HL|done].
Qed.
Lemma good_new P s s' k : good P s → term s' = term s → cancelled s' = cancelled s → next_task s' = next_task s + 1 →
  of_line k = None → good (P ++ [(k, next_task s)]) s'.
Proof.
  intros [H1 H2 H3 H4 H5] Ht Hc Hn Hk.
  assert (HL : ∀ k' i, of_line k'.1 = Some i → live (P ++ [(k, next_task s)]) s' k' ↔ live P s k').
  { intros k' i Hi. rewrite (live_new P s s' (k, next_task s)) by (done || exact (proj2 (ids_fresh _ _ _ H5))). naive_solver congruence. }
  split; rewrite ?Ht; try done.
  - intros i l Hl. destruct (H2 i l Hl) as [L1 L2 L3 L4 L5]. split; try done; intros n; [rewrite L1|rewrite L2]; by rewrite HL.
  - intros k' i Hl Hi. eapply H4; [by eapply HL|done].
  - rewrite Hc, Hn. by apply ids_new.
Qed.

(** ** The changes of a line, with those of its tasks *)
Definition with_repoll (n : option Z) (st : State) (c : Z) (l : LineState) : LineState :=
  l <| keyboard_repoll := n |> <| keyboard_state := st |> <| keyboard_char := c |>.
Definition with_delay (n : option Z) (st : State) (l : LineState) : LineState := l <| display_delay := n |> <| display_state := st |>.

(** A line whose descriptor stays is still told apart. *)
Lemma fds_kept P s i l : good P s → nthz (lines (term s)) i = Some l →
  tty_fd l ≠ -1 → ∀ j m, j ≠ i → nthz (lines (term s)) j = Some m → tty_fd m ≠ tty_fd l.
Proof. intros Hg Hl Hc j m Hj Hm E. apply Hj. eapply (good_fds _ _ Hg); [done..|by rewrite E]. Qed.

Lemma good_take_repoll P s P' s' i l n c : good P s → nthz (lines (term s)) i = Some l → keyboard_repoll l = Some n →
  lines (term s') = <[Z.to_nat i := with_repoll None UNREADY c l]> (lines (term s)) →
  unready_keyboards (term s') = {[tty_fd l]} ∪ unready_keyboards (term s) →
  (∀ k, live P' s' k ↔ live P s k ∧ k ≠ (KeyboardRepoll i, n)) →
  ids P' (cancelled s') (next_task s') → good P' s'.
Proof.
  intros Hg Hl Hn Hs HU HL Hi. destruct (good_line _ _ Hg i l Hl) as [L1 L2 L3 L4 L5].
  eapply (good_step P s P' s' i l); [done|done|exact Hs| | |exact (fds_kept _ _ _ _ Hg Hl)| |done].
  - rewrite HU. split; cbn.
    + intros m. rewrite HL, <- L1, Hn. naive_solver.
    + intros m. rewrite HL, <- L2. naive_solver.
    + rewrite Hn in L3. naive_solver.
    + done.
    + intros Hc. split; [set_solver|by apply L5].
  - intros fd H1 _. rewrite HU. set_solver.
  - intros k j Hk Hj. rewrite HL. naive_solver.
Qed.
Lemma good_put_repoll P s s' i l c : good P s → nthz (lines (term s)) i = Some l → tty_fd l ≠ -1 → keyboard_repoll l = None →
  lines (term s') = <[Z.to_nat i := with_repoll (Some (next_task s)) READY c l]> (lines (term s)) →
  unready_keyboards (term s') = unready_keyboards (term s) ∖ {[tty_fd l]} →
  cancelled s' = cancelled s → next_task s' = next_task s + 1 →
  good (P ++ [(KeyboardRepoll i, next_task s)]) s'.
Proof.
  intros Hg Hl Hc Hn Hs HU Hca Hnx. destruct (good_line _ _ Hg i l Hl) as [L1 L2 L3 L4 L5].
  pose proof (live_new P s s' (KeyboardRepoll i, next_task s)) as HL.
  specialize (λ k, HL k Hca (proj2 (ids_fresh _ _ _ (good_ids _ _ Hg)))).
  eapply (good_step P s _ s' i l); [done|done|exact Hs| | |exact (fds_kept _ _ _ _ Hg Hl)| |rewrite Hca, Hnx; apply ids_new, Hg].
  - rewrite HU. split; cbn.
    + intros m. rewrite HL, <- L1, Hn. naive_solver.
    + intros m. rewrite HL, <- L2. naive_solver.
    + naive_solver.
    + done.
    + intros _. split; [set_solver|by apply L5].
  - intros fd H1 _. rewrite HU. set_solver.
  - intros k j Hk Hj. rewrite HL. naive_solver.
Qed.
Lemma good_take_delay P s P' s' i l n : good P s → nthz (lines (term s)) i = Some l → display_delay l = Some n →
  lines (term s') = <[Z.to_nat i := with_delay None READY l]> (lines (term s)) →
  unready_keyboards (term s') = unready_keyboards (term s) →
  (∀ k, live P' s' k ↔ live P s k ∧ k ≠ (DisplayDelay i, n)) →
  ids P' (cancelled s') (next_task s') → good P' s'.
Proof.
  intros Hg Hl Hn Hs HU HL Hi. destruct (good_line _ _ Hg i l Hl) as [L1 L2 L3 L4 L5].
  eapply (good_step P s P' s' i l); [done|done|exact Hs| | |exact (fds_kept _ _ _ _ Hg Hl)| |done].
  - rewrite HU. split; cbn; try done.
    + intros m. rewrite HL, <- L1. naive_solver.
    + intros m. rewrite HL, <- L2, Hn. naive_solver.
    + naive_solver.
  - intros fd H1 _. by rewrite HU.
  - intros k j Hk Hj. rewrite HL. naive_solver.
Qed.
Lemma good_put_delay P s s' i l : good P s → nthz (lines (term s)) i = Some l → tty_fd l ≠ -1 → display_delay l = None →
  lines (term s') = <[Z.to_nat i := with_delay (Some (next_task s)) UNREADY l]> (lines (term s)) →
  unready_keyboards (term s') = unready_keyboards (term s) →
  cancelled s' = cancelled s → next_task s' = next_task s + 1 →
  good (P ++ [(DisplayDelay i, next_task s)]) s'.
Proof.
  intros Hg Hl Hc Hn Hs HU Hca Hnx. destruct (good_line _ _ Hg i l Hl) as [L1 L2 L3 L4 L5].
  pose proof (live_new P s s' (DisplayDelay i, next_task s)) as HL.
  specialize (λ k, HL k Hca (proj2 (ids_fresh _ _ _ (good_ids _ _ Hg)))).
  eapply (good_step P s _ s' i l); [done|done|exact Hs| | |exact (fds_kept _ _ _ _ Hg Hl)| |rewrite Hca, Hnx; apply ids_new, Hg].
  - rewrite HU. split; cbn; try done.
    + intros m. rewrite HL, <- L1. naive_solver.
    + intros m. rewrite HL, <- L2, Hn. naive_solver.
    + naive_solver.
  - intros fd H1 _. by rewrite HU.
  - intros k j Hk Hj. rewrite HL. naive_solver.
Qed.
Lemma good_drop P s s' i l l' : good P s → nthz (lines (term s)) i = Some l → keyboard_repoll l = None → display_delay l = None →
  tty_fd l' = -1 → keyboard_repoll l' = None → display_delay l' = None →
  lines (term s') = <[Z.to_nat i := l']> (lines (term s)) →
  unready_keyboards (term s') = unready_keyboards (term s) ∖ {[tty_fd l]} →
  cancelled s' = cancelled s → next_task s' = next_task s → good P s'.
Proof.
  intros Hg Hl Hr Hd Hf' Hr' Hd' Hs HU Hca Hnx. destruct (good_line _ _ Hg i l Hl) as [L1 L2 L3 L4 L5].
  assert (HL : ∀ k, live P s' k ↔ live P s k) by (intros k; unfold live; by rewrite Hca).
  eapply (good_step P s _ s' i l); [done|done|exact Hs| | | | |rewrite Hca, Hnx; apply Hg].
  - rewrite HU. split; rewrite ?Hr', ?Hd', ?Hf'; [| |split; [by left|done]|split; [by left|done]|done].
    + intros m. by rewrite HL, <- L1, Hr.
    + intros m. by rewrite HL, <- L2, Hd.
  - intros fd H1 _. rewrite HU. set_solver.
  - by rewrite Hf'.
  - intros k j Hk Hj. apply HL.
Qed.
Lemma good_connect P s s' i l fd : good P s → nthz (lines (term s)) i = Some l → tty_fd l = -1 → fd ≠ -1 → i < used →
  (∀ j m, nthz (lines (term s)) j = Some m → tty_fd m ≠ fd) →
  lines (term s') = <[Z.to_nat i := MkLine fd None None 0 UNREADY READY]> (lines (term s)) →
  unready_keyboards (term s') = {[fd]} ∪ unready_keyboards (term s) →
  cancelled s' = cancelled s → next_task s' = next_task s → good P s'.
Proof.
  intros Hg Hl Hc Hfd Hi Hnew Hs HU Hca Hnx. destruct (good_line _ _ Hg i l Hl) as [L1 L2 L3 L4 L5].
  assert (HL : ∀ k, live P s' k ↔ live P s k) by (intros k; unfold live; by rewrite Hca).
  assert (Hr : keyboard_repoll l = None) by (apply L3; by left). assert (Hd : display_delay l = None) by (apply L4; by left).
  eapply (good_step P s _ s' i l); [done|done|exact Hs| | | | |rewrite Hca, Hnx; apply Hg].
  - rewrite HU. split; cbn.
    + intros m. by rewrite HL, <- L1, Hr.
    + intros m. by rewrite HL, <- L2, Hd.
    + split; [by right|done].
    + split; [by right|done].
    + intros _. split; [set_solver|done].
  - cbn. intros fd' H1 H2. rewrite HU. set_solver.
  - intros _ j m _ Hm. by eapply Hnew.
  - intros k j Hk Hj. apply HL.
Qed.

End Invariant.

(** ** Runs of the operations *)
Section Operations.
  Context {D Hst : Type} {HH : Host.Host Hst} {HHL : Host.Laws Hst}.
  Notation M := (Effects.M (sys D Hst)).
  Implicit Types (P : list Task) (s : sys D Hst).

(** The queue of the clock, or what is left of it while its first group is executed. *)
Definition accepts (l : list (DeferredTasks Task)) : Prop :=
  Deferred.wf l ∨ ∃ g l', l = g :: l' ∧ nanoseconds_left g ≤ 0 ∧ Deferred.wf l'.
Lemma accepts_insert k ns l : accepts l → 0 < ns → ∃ q, insert_task k ns l = Some q ∧ accepts q.
Proof.
  intros [Hw|(g & l' & -> & Hg & Hw)] Hns.
  - destruct (Deferred.insert_task_eq k ns l Hw Hns) as (q & E & Hq & _). exists q. split; [done|by left].
  - rewrite Deferred.insert_task_due by done.
    destruct (Deferred.insert_task_eq k (ns - nanoseconds_left g) l' Hw ltac:(lia)) as (q & -> & Hq & _).
    exists (g :: q). split; [done|]. right. by exists g, q.
Qed.

(** What a run did to the clock: nothing but to defer tasks. *)
Record queued (adds : list (Task * Z)) s s' : Prop := {
  queued_time : time (clock s') = time (clock s);
  queued_add : Deferred.add_all adds (deferred_tasks (clock s)) = Some (deferred_tasks (clock s'));
  queued_delays : Deferred.delays adds;
  queued_accepts : accepts (deferred_tasks (clock s'))
}.
Lemma queued_refl s s' : accepts (deferred_tasks (clock s)) → clock s' = clock s → queued [] s s'.
Proof. intros H E. split; rewrite ?E; try done. constructor. Qed.
Lemma add_all_app (a1 a2 : list (Task * Z)) l l' :
  Deferred.add_all a1 l = Some l' → Deferred.add_all (a1 ++ a2) l = Deferred.add_all a2 l'.
Proof.
  revert l. induction a1 as [|[k ns] a1 IH]; intros l; cbn [Deferred.add_all app]; [by intros [= ->]|].
  destruct (insert_task k ns l); [apply IH|done].
Qed.
Lemma queued_trans a1 a2 s1 s2 s3 : queued a1 s1 s2 → queued a2 s2 s3 → queued (a1 ++ a2) s1 s3.
Proof.
  intros [H1 H2 H3 H4] [K1 K2 K3 K4]. split; [congruence|by rewrite (add_all_app _ _ _ _ H2)|by apply Forall_app|done].
Qed.
Lemma queued_clock adds s s' s1 s1' : queued adds s s' → clock s1 = clock s → clock s1' = clock s' → queued adds s1 s1'.
Proof. intros [H1 H2 H3 H4] E E'. split; by rewrite ?E, ?E'. Qed.

Lemma new_task_run k ns s : accepts (deferred_tasks (clock s)) → 0 < ns →
  ∃ c, new_task k ns s = Some (next_task s, s <| next_task := next_task s + 1 |> <| clock := c |>, []) ∧
    queued [((k, next_task s), ns)] s (s <| next_task := next_task s + 1 |> <| clock := c |>).
Proof.
  intros Ha Hns. destruct (accepts_insert (k, next_task s) ns _ Ha Hns) as (q & E & Hq).
  exists ((clock s) <| deferred_tasks := q |>). split.
  - unfold new_task. rewrite gets_bind.
    rewrite (bind_eq _ _ _ () (s <| next_task := next_task s + 1 |>)) by done.
    rewrite (bind_eq _ _ _ () (s <| next_task := next_task s + 1 |> <| clock := (clock s) <| deferred_tasks := q |> |>)); [done|].
    unfold zoom. change (clock (s <| next_task := next_task s + 1 |>)) with (clock s).
    by rewrite (Deferred.add_deferred_task_run _ _ _ _ Hns E).
  - destruct s as [? ? [? ? ? l] ? ? ? ?]. split; [done|cbn in E |- *; by rewrite E|by apply Forall_singleton|done].
Qed.

Definition set_line (i : Z) (l : LineState) s : sys D Hst := s <| term ::= λ c, c <| lines ::= <[Z.to_nat i := l]> |> |>.
Lemma on_line_run {A} i (m : Effects.M LineState A) l l' a s :
  nthz (lines (term s)) i = Some l → m l = Some (a, l', []) → on_line i m s = Some (a, set_line i l' s, []).
Proof.
  intros Hl Hm. apply nthz_Some in Hl as [Hi Hl]. unfold on_line, zoom, zoom_nth.
  destruct (Z.ltb_spec i 0); [lia|]. by rewrite Hl, Hm.
Qed.
Lemma on_line_bind {A B} i (m : Effects.M LineState A) (f : A → M B) l l' a s :
  nthz (lines (term s)) i = Some l → m l = Some (a, l', []) →
  bindM (on_line i m) f s = f a (set_line i l' s).
Proof. intros Hl Hm. by apply bind_eq, (on_line_run i m l). Qed.
Lemma set_line_id i l s : nthz (lines (term s)) i = Some l → set_line i l s = s.
Proof.
  intros Hl. apply nthz_Some in Hl as [Hi Hl]. destruct s as [[? ? ? ls] ? ? ? ? ? ?]. unfold set_line. cbn in *.
  by rewrite list_insert_id.
Qed.
Lemma get_line {B} i (f : LineState → M B) l s : nthz (lines (term s)) i = Some l →
  bindM (on_line i (gets id)) f s = f l s.
Proof.
  intros Hl. rewrite (on_line_bind i (gets id) f l l l s Hl eq_refl). by rewrite (set_line_id i l s Hl).
Qed.
Lemma nthz_set_line i l l' s : nthz (lines (term s)) i = Some l → nthz (lines (term (set_line i l' s))) i = Some l'.
Proof. intros Hl. apply nthz_Some in Hl as [Hi _]. cbn. rewrite nthz_line_insert by done. by rewrite Z.eqb_refl. Qed.
Lemma set_line_twice i l l' s : set_line i l' (set_line i l s) = set_line i l' s.
Proof. destruct s as [[? ? ? ls] ? ? ? ? ? ?]. unfold set_line. cbn. by rewrite list_insert_insert_eq. Qed.

Lemma connected_line s i l : 0 ≤ i < 16 → nthz (lines (term s)) i = Some l → connected (term s) i = negb (tty_fd l =? -1).
Proof.
  intros Hi Hl. unfold connected, line_of, MAX_TERMINALS.
  destruct (Z.leb_spec 0 i), (Z.ltb_spec i 16); try lia. cbn [andb]. by rewrite Hl.
Qed.
Lemma assert_connected {B} s i l (f : M B) : 0 ≤ i < 16 → nthz (lines (term s)) i = Some l → tty_fd l ≠ -1 →
  bindM (line_connected i) (λ c, assert_that c;; f)%m s = f s.
Proof.
  intros Hi Hl Hc. unfold line_connected, assert_that. rewrite gets_bind, (connected_line s i l) by done.
  rewrite (proj2 (Z.eqb_neq _ _) Hc). cbn [negb when]. by rewrite ret_bind.
Qed.
Lemma assert_line_bind {B} s i l (p : LineState → bool) (f : M B) : nthz (lines (term s)) i = Some l → p l = true →
  bindM (assert_line i p) (λ _, f) s = f s.
Proof.
  intros Hl Hp. unfold assert_line, assert_that. rewrite bind_assoc, (get_line i _ l) by done.
  rewrite Hp. cbn [negb when]. by rewrite ret_bind.
Qed.

(** Nothing but the lines and the host changed. *)
Definition quiet s s' : Prop := clock s' = clock s ∧ cancelled s' = cancelled s ∧ next_task s' = next_task s.

Lemma ready_keyboard_run i l s : 0 ≤ i < 16 → nthz (lines (term s)) i = Some l → tty_fd l ≠ -1 →
  ∃ s' c, ready_keyboard i s = Some ((), s', []) ∧ quiet s s' ∧
    lines (term s') = <[Z.to_nat i := l <| keyboard_state := READY |> <| keyboard_char := c |>]> (lines (term s)) ∧
    unready_keyboards (term s') = unready_keyboards (term s) ∖ {[tty_fd l]}.
Proof.
  intros Hi Hl Hc. unfold ready_keyboard. rewrite (assert_connected _ i l) by done.
  rewrite (on_line_bind i _ _ l (l <| keyboard_state := READY |>) () s Hl eq_refl).
  rewrite (get_line i _ (l <| keyboard_state := READY |>)) by (by eapply nthz_set_line).
  set (l1 := l <| keyboard_state := READY |>).
  set (s1 := (set_line i l1 s) <| term ::= λ c, c <| unready_keyboards ::= λ u, u ∖ {[tty_fd l]} |> |>).
  rewrite (bind_eq _ _ _ () s1) by done.
  assert (Hl1 : nthz (lines (term s1)) i = Some l1) by (by apply (nthz_set_line i l l1 s)).
  assert (HR : ∃ r h, zoom host (Host.call (Host.read (tty_fd l1))) s1 = Some (r, s1 <| host := h |>, [])).
  { unfold zoom, Host.call. destruct (Host.read _ _) as [r h]. by exists r, h. }
  destruct HR as (r & h & HR). rewrite (bind_eq _ _ _ _ _ HR).
  set (c := match r with Some c => swrap 8 c | None => keyboard_char l end).
  assert (HW : ∃ s2, (match r with Some c => on_line i (keyboard_char <~ swrap 8 c) | None => mret () end) (s1 <| host := h |>) = Some ((), s2, []) ∧
    s2 = set_line i (l1 <| keyboard_char := c |>) (s1 <| host := h |>)).
  { destruct r as [x|]; (eexists; split; [|done]).
    - by apply (on_line_run i _ l1).
    - subst c. replace (l1 <| keyboard_char := keyboard_char l |>) with l1 by (by destruct l).
      by rewrite set_line_id by exact Hl1. }
  destruct HW as (s2 & HW & Hs2). rewrite (bind_eq _ _ _ _ _ HW).
  assert (Hl2 : nthz (lines (term s2)) i = Some (l1 <| keyboard_char := c |>)) by (subst s2; by apply (nthz_set_line i l1)).
  rewrite (get_line i _ _ _ Hl2). change (keyboard_char (l1 <| keyboard_char := c |>)) with c.
  assert (Hlines : ∀ c', lines (term (set_line i (l1 <| keyboard_char := c' |>) s2)) =
    <[Z.to_nat i := l1 <| keyboard_char := c' |>]> (lines (term s))).
  { intros c'. subst s2. cbn. by rewrite !list_insert_insert_eq. }
  destruct (c =? 0x1f); cbn [when].
  - rewrite (on_line_bind i _ _ _ (l1 <| keyboard_char := c |> <| keyboard_char := 0 |>) () s2 Hl2 eq_refl).
    eexists _, 0. split; [done|]. split; [by subst s2|]. split; [exact (Hlines 0)|by subst s2].
  - exists s2, c. split; [done|]. split; [by subst s2|]. split; [|by subst s2].
    rewrite <- (Hlines c). by rewrite set_line_id.
Qed.

(** *** The machine's side *)
Variables keyboard_poll_ns keyboard_repoll_ns display_ready_delay_ns used : Z.
Hypotheses (Hpoll : 0 < keyboard_poll_ns) (Hrepoll : 0 < keyboard_repoll_ns) (Hdelay : 0 < display_ready_delay_ns).
Notation good := (good used).

Lemma good_quiet P s s' : good P s → term s' = term s → cancelled s' = cancelled s → next_task s' = next_task s → good P s'.
Proof.
  intros [H1 H2 H3 H4 H5] Ht Hc Hn. split; rewrite ?Ht, ?Hc, ?Hn; try done.
  - intros i l Hl. destruct (H2 i l Hl) as [L1 L2 L3 L4 L5]. split; try done; intros n; [rewrite L1|rewrite L2]; unfold live; by rewrite Hc.
  - intros k i Hk. apply H4. unfold live in *. by rewrite <- Hc.
Qed.

Lemma connected_Some P s i : good P s → connected (term s) i = true →
  ∃ l, nthz (lines (term s)) i = Some l ∧ tty_fd l ≠ -1 ∧ 0 ≤ i < 16.
Proof.
  intros Hg. unfold connected, line_of, MAX_TERMINALS. destruct (Z.leb_spec 0 i), (Z.ltb_spec i 16); try done. cbn [andb].
  destruct (nthz (lines (term s)) i) as [l|]; [|done]. intros H1. exists l. split; [done|]. split; [|done].
  by destruct (Z.eqb_spec (tty_fd l) (-1)).
Qed.

Lemma unready_keyboard_run P s i l : good P s → nthz (lines (term s)) i = Some l → tty_fd l ≠ -1 → keyboard_state l = READY →
  ∃ s', unready_keyboard i s = Some ((), s', []) ∧ good P s' ∧ clock s' = clock s.
Proof.
  intros Hg Hl Hc Hk. pose proof (nthz_lines _ _ _ _ _ Hg Hl) as Hi. pose proof (good_line _ _ _ Hg i l Hl) as [L1 L2 L3 L4 L5].
  destruct (keyboard_repoll l) as [n|] eqn:Hn; [|destruct (proj1 L3 eq_refl); congruence].
  unfold unready_keyboard. rewrite (assert_connected _ i l) by done.
  rewrite (assert_line_bind _ i l) by (done || by rewrite Hk). rewrite (get_line i _ l) by done. rewrite Hn.
  set (s1 := s <| term ::= λ c, c <| unready_keyboards ::= λ u, {[tty_fd l]} ∪ u |> |>).
  rewrite (bind_eq _ _ _ () s1) by done.
  set (l1 := l <| keyboard_state := UNREADY |>).
  rewrite (on_line_bind i _ _ l l1 () s1 Hl) by done.
  set (s2 := set_line i l1 s1). rewrite (bind_eq _ _ _ () (s2 <| cancelled ::= λ c, {[n]} ∪ c |>)) by done.
  assert (Hl2 : nthz (lines (term (s2 <| cancelled ::= λ c, {[n]} ∪ c |>))) i = Some l1) by (by apply (nthz_set_line i l l1 s1)).
  rewrite (on_line_run i _ l1 (l1 <| keyboard_repoll := None |>) () _ Hl2) by done.
  eexists. split; [done|]. split; [|done].
  eapply (good_take_repoll used P s P _ i l n (keyboard_char l)); [done|done|done| |done| |].
  - cbn. rewrite list_insert_insert_eq. by destruct l.
  - intros k. eapply live_cancel; [done|apply Hg|]. by apply (proj1 (L1 n)).
  - apply ids_cancel; [apply Hg|]. apply list_elem_of_fmap. exists (KeyboardRepoll i, n). split; [done|]. by apply (proj1 (L1 n)).
Qed.

(** Whether the byte for a display is discarded, as the display is not ready, or taken by the host. *)
Definition displays s l (data : Z) : bool :=
  bool_decide (display_state l = UNREADY) || (Host.write (tty_fd l) (wrap 8 data) (host s)).1.

(** The assertion on the result of the write. *)
Lemma unready_display_fails P s i l data : good P s → nthz (lines (term s)) i = Some l → tty_fd l ≠ -1 →
  displays s l data = false → unready_display display_ready_delay_ns i data s = None.
Proof.
  intros Hg Hl Hc [Hd Hw]%orb_false_iff. pose proof (nthz_lines _ _ _ _ _ Hg Hl) as Hi.
  unfold unready_display. rewrite (assert_connected _ i l) by done. rewrite (get_line i _ l) by done. rewrite Hd.
  unfold zoom, Host.call, bindM. destruct (Host.write _ _ _) as [ok h]. cbn in Hw. by subst ok.
Qed.
Lemma unready_keyboard_fails P s i l : good P s → nthz (lines (term s)) i = Some l → tty_fd l ≠ -1 →
  keyboard_state l = UNREADY → unready_keyboard i s = None.
Proof.
  intros Hg Hl Hc Hk. pose proof (nthz_lines _ _ _ _ _ Hg Hl) as Hi. unfold unready_keyboard.
  rewrite (assert_connected _ i l) by done. unfold assert_line. by rewrite !bind_assoc, (get_line i _ l), Hk by done.
Qed.
Lemma unready_display_run P s i l data : good P s → accepts (deferred_tasks (clock s)) →
  nthz (lines (term s)) i = Some l → tty_fd l ≠ -1 → displays s l data = true →
  ∃ s' adds, unready_display display_ready_delay_ns i data s = Some ((), s', []) ∧ queued adds s s' ∧ good (P ++ adds.*1) s'.
Proof.
  intros Hg Ha Hl Hc Hok. pose proof (nthz_lines _ _ _ _ _ Hg Hl) as Hi. pose proof (good_line _ _ _ Hg i l Hl) as [L1 L2 L3 L4 L5].
  unfold displays in Hok. unfold unready_display. rewrite (assert_connected _ i l) by done. rewrite (get_line i _ l) by done.
  case_bool_decide as Hd.
  { exists s, []. split; [done|]. rewrite app_nil_r. split; [by apply queued_refl|done]. }
  assert (Hn : display_delay l = None) by (apply L4; right; by destruct (display_state l)).
  assert (HW : ∃ h, zoom host (Host.call (Host.write (tty_fd l) (wrap 8 data))) s = Some (true, s <| host := h |>, [])).
  { unfold zoom, Host.call. cbn [orb] in Hok.
    destruct (Host.write _ _ _) as [ok h]. cbn in Hok. subst ok. by exists h. }
  destruct HW as [h HW]. rewrite (bind_eq _ _ _ _ _ HW). set (s1 := s <| host := h |>).
  unfold assert_that at 1. cbn [negb when]. rewrite ret_bind.
  rewrite (assert_line_bind _ i l) by (done || by rewrite Hn).
  set (l1 := l <| display_state := UNREADY |>). rewrite (on_line_bind i _ _ l l1 () s1 Hl) by done.
  set (s2 := set_line i l1 s1).
  destruct (new_task_run (DisplayDelay i) display_ready_delay_ns s2) as (c & E & Hq); [done|done|].
  rewrite (bind_eq _ _ _ _ _ E). clear E. set (s3 := s2 <| next_task := next_task s2 + 1 |> <| clock := c |>) in *.
  assert (Hl3 : nthz (lines (term s3)) i = Some l1) by (by apply (nthz_set_line i l l1 s1)).
  rewrite (on_line_run i _ l1 (l1 <| display_delay := Some (next_task s) |>) () s3 Hl3) by done.
  eexists _, _. split; [done|]. split; [eapply queued_clock; [exact Hq|done|done]|].
  eapply (good_put_delay used P s _ i l); try done. cbn. rewrite list_insert_insert_eq. by destruct l.
Qed.

(** *** The tasks, with what the derived class adds *)
Variable clock_trigger_ns : Z.
Hypothesis Htrigger : 0 < clock_trigger_ns.
(** An override runs the method of the controller, and then changes its own part only; its
    own trigger is a task of its own. *)
Class Overrides (v_ready_keyboard v_ready_display : Z → M unit) (trigger : M unit) : Prop := {
  over_keyboard i s s' : i < used → ready_keyboard i s = Some ((), s', []) →
    ∃ d, v_ready_keyboard i s = Some ((), s' <| dev := d |>, []);
  over_display i s s' : i < used → ready_display i s = Some ((), s', []) →
    ∃ d, v_ready_display i s = Some ((), s' <| dev := d |>, []);
  over_trigger s s' n : new_task ClockTrigger clock_trigger_ns s = Some (n, s', []) →
    ∃ d, trigger s = Some ((), s' <| dev := d |>, [])
}.
Context (v_ready_keyboard v_ready_display : Z → M unit) (trigger : M unit)
  {HO : Overrides v_ready_keyboard v_ready_display trigger}.
Notation poll_line := (poll_line keyboard_repoll_ns v_ready_keyboard).
Notation poll_keyboards := (poll_keyboards keyboard_poll_ns keyboard_repoll_ns v_ready_keyboard).
Notation repoll_keyboard := (repoll_keyboard keyboard_repoll_ns v_ready_keyboard).
Notation task := (task keyboard_poll_ns keyboard_repoll_ns v_ready_keyboard v_ready_display trigger).

(** The line of a task that is executed. *)
Lemma task_line P s k i : good P s → live P s k → of_line k.1 = Some i →
  ∃ l, nthz (lines (term s)) i = Some l ∧ 0 ≤ i < 16.
Proof.
  intros Hg Hk Hi. pose proof (good_known _ _ _ Hg k i Hk Hi) as H. unfold MAX_TERMINALS in H.
  destruct (nthz_is_Some (lines (term s)) i) as [l Hl]; [rewrite (good_lines _ _ _ Hg); lia|]. by exists l.
Qed.

Lemma repoll_keyboard_run P s i n : good ((KeyboardRepoll i, n) :: P) s → accepts (deferred_tasks (clock s)) → n ∉ cancelled s →
  ∃ s' adds, repoll_keyboard i s = Some ((), s', []) ∧ queued adds s s' ∧ good (P ++ adds.*1) s'.
Proof.
  intros Hg Ha Hn. assert (HL : live ((KeyboardRepoll i, n) :: P) s (KeyboardRepoll i, n)) by (split; [by left|done]).
  destruct (task_line _ s (KeyboardRepoll i, n) i Hg HL eq_refl) as (l & Hl & Hi).
  pose proof (good_line _ _ _ Hg i l Hl) as [L1 L2 L3 L4 L5]. apply L1 in HL.
  assert (Hc : tty_fd l ≠ -1) by (intros Hc; rewrite (proj2 L3) in HL; [done|by left]).
  assert (Hk : keyboard_state l = READY) by (destruct (keyboard_state l) eqn:Hk; [rewrite (proj2 L3) in HL; [done|by right]|done]).
  unfold TerminalController.repoll_keyboard. rewrite (assert_connected _ i l) by done.
  rewrite (assert_line_bind _ i l) by (done || by rewrite Hk).
  destruct (ready_keyboard_run i l s Hi Hl Hc) as (s1 & c & E1 & (Q1 & Q2 & Q3) & Hs1 & HU1).
  destruct (over_keyboard i s s1 (proj2 (L5 Hc)) E1) as [d E2]. rewrite (bind_eq _ _ _ _ _ E2).
  destruct (new_task_run (KeyboardRepoll i) keyboard_repoll_ns (s1 <| dev := d |>)) as (ck & E & Hq); [by cbn; rewrite Q1|done|].
  rewrite (bind_eq _ _ _ _ _ E). clear E. set (s2 := s1 <| dev := d |> <| next_task := _ |> <| clock := ck |>) in *.
  set (l1 := l <| keyboard_state := READY |> <| keyboard_char := c |>) in *.
  assert (Hl2 : nthz (lines (term s2)) i = Some l1).
  { cbn. rewrite Hs1, nthz_line_insert; [by rewrite Z.eqb_refl|]. rewrite (good_lines _ _ _ Hg). lia. }
  rewrite (on_line_run i _ l1 (l1 <| keyboard_repoll := Some (next_task s1) |>) () s2) by done.
  eexists _, _. split; [done|]. split; [eapply queued_clock; [exact Hq|by cbn; rewrite Q1|done]|].
  set (s0 := set_line i (with_repoll None UNREADY (keyboard_char l) l) (s <| term ::= λ c, c <| unready_keyboards ::= λ u, {[tty_fd l]} ∪ u |> |>)).
  assert (Hg0 : good P s0).
  { eapply (good_take_repoll used _ s P s0 i l n); [done|done|done|done|done| |by eapply ids_pop, Hg].
    intros k. apply live_pop; [done|apply Hg]. }
  cbn. rewrite Q3. change (next_task s) with (next_task s0).
  eapply (good_put_repoll used P s0 _ i (with_repoll None UNREADY (keyboard_char l) l) c); try done.
  - eapply nthz_set_line. exact Hl.
  - cbn. rewrite Hs1, !list_insert_insert_eq. by destruct l.
  - cbn. rewrite HU1. set_solver.
  - cbn. by rewrite Q3.
Qed.

Lemma ready_display_run P s i n : good ((DisplayDelay i, n) :: P) s → n ∉ cancelled s →
  ∃ s', v_ready_display i s = Some ((), s', []) ∧ clock s' = clock s ∧ good P s'.
Proof.
  intros Hg Hn. assert (HL : live ((DisplayDelay i, n) :: P) s (DisplayDelay i, n)) by (split; [by left|done]).
  destruct (task_line _ s (DisplayDelay i, n) i Hg HL eq_refl) as (l & Hl & Hi).
  pose proof (good_line _ _ _ Hg i l Hl) as [L1 L2 L3 L4 L5]. apply L2 in HL.
  assert (Hc : tty_fd l ≠ -1) by (intros Hc; rewrite (proj2 L4) in HL; [done|by left]).
  assert (Hk : display_state l = UNREADY) by (destruct (display_state l) eqn:Hk; [done|rewrite (proj2 L4) in HL; [done|by right]]).
  set (s1 := set_line i (with_delay None READY l) s).
  assert (E : ready_display i s = Some ((), s1, [])).
  { unfold ready_display. rewrite (assert_connected _ i l) by done.
    rewrite (assert_line_bind _ i l) by (done || by rewrite Hk). rewrite (assert_line_bind _ i l) by (done || by rewrite HL).
    by rewrite (on_line_run i _ l (with_delay None READY l) () s). }
  destruct (over_display i s s1 (proj2 (L5 Hc)) E) as [d E2]. exists (s1 <| dev := d |>). split; [done|]. split; [done|].
  eapply (good_take_delay used _ s P _ i l n); [done|done|done|done|done| |by eapply ids_pop, Hg].
  intros k. apply live_pop; [done|apply Hg].
Qed.

(** The lines from [i] on that were polled still wait for input. *)
Definition polled (to_read : gset Z) (i : Z) s : Prop :=
  ∀ j l, i ≤ j → nthz (lines (term s)) j = Some l → tty_fd l ≠ -1 → tty_fd l ∈ to_read → keyboard_state l = UNREADY.

Lemma poll_line_run P s to_read i : good P s → accepts (deferred_tasks (clock s)) → 0 ≤ i < 16 → polled to_read i s →
  ∃ s' adds, poll_line to_read i s = Some ((), s', []) ∧ queued adds s s' ∧ good (P ++ adds.*1) s' ∧ polled to_read (i + 1) s'.
Proof.
  intros Hg Ha Hi Hp. destruct (nthz_is_Some (lines (term s)) i) as [l Hl]; [rewrite (good_lines _ _ _ Hg); lia|].
  unfold TerminalController.poll_line. rewrite (get_line i _ l) by done.
  destruct (Z.eqb_spec (tty_fd l) (-1)) as [Hc|Hc]; cbn [negb andb when].
  { exists s, []. rewrite app_nil_r. split; [done|]. split; [by apply queued_refl|]. split; [done|]. intros j m Hj. apply Hp. lia. }
  case_bool_decide as Hr; cbn [when].
  2:{ exists s, []. rewrite app_nil_r. split; [done|]. split; [by apply queued_refl|]. split; [done|]. intros j m Hj. apply Hp. lia. }
  pose proof (good_line _ _ _ Hg i l Hl) as [L1 L2 L3 L4 L5]. assert (Hk : keyboard_state l = UNREADY) by (eapply Hp; done || lia).
  assert (Hn : keyboard_repoll l = None) by (apply L3; by right). unfold assert_that. rewrite Hn, Hk. cbn [negb when].
  rewrite !bool_decide_true by done. cbn [negb when]. rewrite !ret_bind.
  destruct (new_task_run (KeyboardRepoll i) keyboard_repoll_ns s) as (ck & E & Hq); [done|done|].
  rewrite (bind_eq _ _ _ _ _ E). clear E. set (s1 := s <| next_task := _ |> <| clock := ck |>) in *.
  set (l1 := l <| keyboard_repoll := Some (next_task s) |>).
  assert (Hl1 : nthz (lines (term s1)) i = Some l) by done.
  rewrite (on_line_bind i _ _ l l1 () s1 Hl1) by done.
  destruct (ready_keyboard_run i l1 (set_line i l1 s1) Hi) as (s2 & c & E1 & (Q1 & Q2 & Q3) & Hs2 & HU2); [by eapply nthz_set_line|done|].
  destruct (over_keyboard i _ s2 (proj2 (L5 Hc)) E1) as [d E2]. rewrite E2.
  assert (Hs : lines (term (s2 <| dev := d |>)) = <[Z.to_nat i := with_repoll (Some (next_task s)) READY c l]> (lines (term s))).
  { cbn. rewrite Hs2. cbn. rewrite list_insert_insert_eq. by destruct l. }
  eexists _, _. split; [done|]. split; [eapply queued_clock; [exact Hq|done|exact Q1]|]. split.
  - cbn. eapply (good_put_repoll used P s _ i l c); done.
  - intros j m Hj. rewrite Hs, nthz_line_insert by (rewrite (good_lines _ _ _ Hg); lia).
    rewrite (proj2 (Z.eqb_neq j i)) by lia. apply Hp. lia.
Qed.
Lemma poll_lines_run P s to_read i n : good P s → accepts (deferred_tasks (clock s)) → 0 ≤ i → i + Z.of_nat n ≤ 16 → polled to_read i s →
  ∃ s' adds, for_range i n (poll_line to_read) s = Some ((), s', []) ∧ queued adds s s' ∧ good (P ++ adds.*1) s'.
Proof.
  unfold for_range. revert P s i. induction n as [|n IH]; intros P s i Hg Ha Hi Hn Hp.
  { exists s, []. rewrite app_nil_r. split; [done|]. split; [by apply queued_refl|done]. }
  rewrite seqZ_cons by lia. cbn [for_each]. replace (Z.pred (Z.of_nat (S n))) with (Z.of_nat n) by lia.
  destruct (poll_line_run P s to_read i Hg Ha ltac:(lia) Hp) as (s1 & a1 & E1 & Q1 & Hg1 & Hp1).
  rewrite (bind_eq _ _ _ _ _ E1).
  destruct (IH _ s1 (i + 1) Hg1 (queued_accepts _ _ _ Q1) ltac:(lia) ltac:(lia) Hp1) as (s2 & a2 & E2 & Q2 & Hg2).
  exists s2, (a1 ++ a2). split; [exact E2|]. split; [by eapply queued_trans|]. by rewrite fmap_app, app_assoc.
Qed.
Lemma poll_keyboards_run P s : good P s → accepts (deferred_tasks (clock s)) →
  ∃ s' adds, poll_keyboards s = Some ((), s', []) ∧ queued adds s s' ∧ good (P ++ adds.*1) s'.
Proof.
  intros Hg Ha. unfold TerminalController.poll_keyboards.
  destruct (new_task_run KeyboardPoll keyboard_poll_ns s) as (ck & E & Hq); [done|done|].
  rewrite (bind_eq _ _ _ _ _ E). clear E. set (s1 := s <| next_task := _ |> <| clock := ck |>) in *.
  rewrite (bind_eq _ _ _ () (s1 <| term ::= λ c, c <| keyboard_poll := Some (next_task s) |> |>)) by done.
  set (s2 := s1 <| term ::= _ |>). rewrite gets_bind. unfold id.
  assert (Hg2 : good (P ++ [(KeyboardPoll, next_task s)]) s2).
  { assert (Hg1 : good (P ++ [(KeyboardPoll, next_task s)]) s1) by (by eapply good_new).
    destruct Hg1 as [H1 H2 H3 H4 H5]. by split. }
  assert (Hq2 : queued [((KeyboardPoll, next_task s), keyboard_poll_ns)] s s2) by (by eapply queued_clock).
  pose proof (queued_accepts _ _ _ Hq2) as Ha2.
  destruct (max_fd (term s2) =? -1); [by eexists s2, _|].
  destruct (Host.select _ _ _) as [to_read read_count] eqn:Hsel. destruct (read_count =? 0); [by eexists s2, _|].
  destruct (poll_lines_run _ s2 to_read 0 (Z.to_nat MAX_TERMINALS) Hg2 Ha2) as (s3 & a3 & E3 & Q3 & Hg3); [done|done| |].
  - intros j l _ Hl Hc Hr. apply (good_line _ _ _ Hg2 j l Hl); [done|].
    pose proof (Host.select_subset (host s2) (max_fd (term s2)) (unready_keyboards (term s2))) as Hsub.
    rewrite Hsel in Hsub. by apply Hsub.
  - eexists s3, _. split; [exact E3|]. split; [by eapply queued_trans|]. by rewrite fmap_app, app_assoc.
Qed.

(** So the clock may rely on the tasks. *)
#[local] Instance controller_tasks : Deferred.Tasks clock task good.
Proof.
  split; [by intros f []| | |].
  - intros ks ks' s Hp [H1 H2 H3 H4 [H5 H6]].
    assert (HL : ∀ k, live ks' s k ↔ live ks s k) by (intros k; unfold live; by rewrite Hp).
    split; [done| |done| |].
    + intros i l Hl. destruct (H2 i l Hl) as [L1 L2 L3 L4 L5]. split; try done; intros n; [rewrite L1|rewrite L2]; by rewrite HL.
    + intros k i Hk. apply H4. by apply HL.
    + split; [by rewrite <- Hp|]. intros n. rewrite <- Hp. apply H6.
  - intros ks c s [H1 H2 H3 H4 H5]. by split.
  - intros [k n] ks s g l Hg Hd Hgl Hl. assert (Ha : accepts (deferred_tasks (clock s))) by (right; by exists g, l).
    assert (HR : ∃ s' adds, task (k, n) s = Some ((), s', []) ∧ queued adds s s' ∧ good (ks ++ adds.*1) s').
    { unfold TerminalController.task, CancelableTask.task. rewrite gets_bind. case_bool_decide as Hn; cbn [when snd fst].
      2:{ exists s, []. rewrite app_nil_r. split; [done|]. split; [by apply queued_refl|].
          apply (good_other used ks s (k, n) Hg). left. cbn in *. by destruct (decide (n ∈ cancelled s)). }
      destruct k as [|i|i|]; cbn [real_task].
      - apply poll_keyboards_run; [|done]. apply (good_other used ks s _ Hg). by right.
      - by apply (repoll_keyboard_run ks s i n).
      - destruct (ready_display_run ks s i n Hg Hn) as (s' & E & Hc & Hg'). exists s', []. rewrite app_nil_r.
        split; [done|]. split; [by apply queued_refl|done].
      - destruct (new_task_run ClockTrigger clock_trigger_ns s) as (ck & E & Hq); [done|done|].
        destruct (over_trigger _ _ _ E) as [d E2]. eexists _, _. split; [exact E2|]. split; [by eapply queued_clock|].
        cbn. eapply good_new; try done. apply (good_other used ks s _ Hg). by right. }
    destruct HR as (s' & adds & E & [Q1 Q2 Q3 Q4] & Hg'). exists s', [], adds. rewrite <- Hd. split; [exact E|]. split; [exact Q3|]. split; [exact Q1|]. by split.
Qed.

(** *** Connections *)
Definition of_opt (o : option Z) : gset Z := match o with Some n => {[n]} | None => ∅ end.

(** The tasks of a line may be cancelled one after the other. *)
Lemma clear_repoll P s i l : good P s → nthz (lines (term s)) i = Some l →
  ∃ s1 l1, good P s1 ∧ nthz (lines (term s1)) i = Some l1 ∧ lines (term s1) = <[Z.to_nat i := l1]> (lines (term s)) ∧
    keyboard_repoll l1 = None ∧ display_delay l1 = display_delay l ∧ tty_fd l1 = tty_fd l ∧
    unready_keyboards (term s1) ∖ {[tty_fd l]} = unready_keyboards (term s) ∖ {[tty_fd l]} ∧
    cancelled s1 = of_opt (keyboard_repoll l) ∪ cancelled s ∧ next_task s1 = next_task s.
Proof.
  intros Hg Hl. destruct (keyboard_repoll l) as [n|] eqn:Hn.
  2:{ exists s, l. apply nthz_Some in Hl as Hl'. rewrite list_insert_id by apply Hl'. cbn. rewrite union_empty_l_L. by split_and!. }
  pose proof (proj1 (line_repoll _ _ _ _ _ (good_line _ _ _ Hg i l Hl) n) Hn) as HL.
  set (l1 := with_repoll None UNREADY (keyboard_char l) l).
  set (s1 := (set_line i l1 (s <| term ::= λ c, c <| unready_keyboards ::= λ u, {[tty_fd l]} ∪ u |> |>)) <| cancelled ::= λ c, {[n]} ∪ c |>).
  exists s1, l1. split; [|split; [by apply (nthz_set_line i l l1 s)|]].
  - eapply (good_take_repoll used P s P s1 i l n); [done|done|done|done|done| |].
    + intros k. eapply live_cancel; [done|apply Hg|apply HL].
    + apply ids_cancel; [apply Hg|]. apply list_elem_of_fmap. exists (KeyboardRepoll i, n). split; [done|apply HL].
  - split_and!; try done. cbn. set_solver.
Qed.
Lemma clear_delay P s i l : good P s → nthz (lines (term s)) i = Some l →
  ∃ s1 l1, good P s1 ∧ nthz (lines (term s1)) i = Some l1 ∧ lines (term s1) = <[Z.to_nat i := l1]> (lines (term s)) ∧
    keyboard_repoll l1 = keyboard_repoll l ∧ display_delay l1 = None ∧ tty_fd l1 = tty_fd l ∧
    unready_keyboards (term s1) = unready_keyboards (term s) ∧
    cancelled s1 = of_opt (display_delay l) ∪ cancelled s ∧ next_task s1 = next_task s.
Proof.
  intros Hg Hl. destruct (display_delay l) as [n|] eqn:Hn.
  2:{ exists s, l. apply nthz_Some in Hl as Hl'. rewrite list_insert_id by apply Hl'. cbn. rewrite union_empty_l_L. by split_and!. }
  pose proof (proj1 (line_delay _ _ _ _ _ (good_line _ _ _ Hg i l Hl) n) Hn) as HL.
  set (l1 := with_delay None READY l). set (s1 := (set_line i l1 s) <| cancelled ::= λ c, {[n]} ∪ c |>).
  exists s1, l1. split; [|split; [by apply (nthz_set_line i l l1 s)|by split_and!]].
  eapply (good_take_delay used P s P s1 i l n); [done|done|done|done|done| |].
  - intros k. eapply live_cancel; [done|apply Hg|apply HL].
  - apply ids_cancel; [apply Hg|]. apply list_elem_of_fmap. exists (DisplayDelay i, n). split; [done|apply HL].
Qed.
Lemma good_remove P s s' i l : good P s → nthz (lines (term s)) i = Some l →
  lines (term s') = <[Z.to_nat i := l <| tty_fd := -1 |> <| keyboard_repoll := None |> <| display_delay := None |>]> (lines (term s)) →
  unready_keyboards (term s') = unready_keyboards (term s) ∖ {[tty_fd l]} →
  cancelled s' = of_opt (display_delay l) ∪ (of_opt (keyboard_repoll l) ∪ cancelled s) → next_task s' = next_task s → good P s'.
Proof.
  intros Hg Hl Hs HU Hca Hnx.
  destruct (clear_repoll P s i l Hg Hl) as (s1 & l1 & Hg1 & Hl1 & Hs1 & R1 & D1 & F1 & U1 & C1 & N1).
  destruct (clear_delay P s1 i l1 Hg1 Hl1) as (s2 & l2 & Hg2 & Hl2 & Hs2 & R2 & D2 & F2 & U2 & C2 & N2).
  apply (good_drop used P s2 s' i l2 (l <| tty_fd := -1 |> <| keyboard_repoll := None |> <| display_delay := None |>)); try done; try congruence.
  by rewrite Hs, Hs2, Hs1, !list_insert_insert_eq.
Qed.

Lemma cancel_run (o : option Z) (f : LineState → LineState) (m : Effects.M LineState unit) i l s :
  nthz (lines (term s)) i = Some l → m l = Some ((), f l, []) → (o = None → f l = l) →
  (match o with Some n => cancel n;; on_line i m | None => mret () end) s =
    Some ((), set_line i (f l) (s <| cancelled ::= λ c, of_opt o ∪ c |>), []).
Proof.
  intros Hl Hm Ho. destruct o as [n|].
  - unfold cancel. rewrite modify_bind. by apply (on_line_run i m l).
  - rewrite Ho by done. rewrite set_line_id by done. cbn. destruct s. cbn. by rewrite union_empty_l_L.
Qed.
Lemma remove_terminal_run P s i : good P s → 0 ≤ i < 16 →
  ∃ s', remove_terminal i s = Some ((), s', []) ∧ clock s' = clock s ∧ good P s'.
Proof.
  intros Hg Hi. destruct (nthz_is_Some (lines (term s)) i) as [l Hl]; [rewrite (good_lines _ _ _ Hg); lia|].
  pose proof (good_line _ _ _ Hg i l Hl) as [L1 L2 L3 L4 L5].
  unfold remove_terminal, assert_that, MAX_TERMINALS.
  rewrite (proj2 (Z.leb_le 0 i)), (proj2 (Z.ltb_lt i 16)) by lia. cbn [andb negb when]. rewrite ret_bind, (get_line i _ l) by done.
  destruct (Z.eqb_spec (tty_fd l) (-1)) as [Hc|Hc].
  { rewrite (bool_decide_true (keyboard_repoll l = None)) by (apply L3; by left).
    rewrite (bool_decide_true (display_delay l = None)) by (apply L4; by left). by exists s. }
  set (l1 := l <| tty_fd := -1 |>). rewrite (on_line_bind i _ _ l l1 () s Hl) by done.
  set (s1 := (set_line i l1 s) <| term ::= λ c, c <| unready_keyboards ::= λ u, u ∖ {[tty_fd l]} |> |>).
  rewrite (bind_eq _ _ _ () s1) by done.
  assert (Hl1 : nthz (lines (term s1)) i = Some l1) by (by apply (nthz_set_line i l l1 s)).
  set (l2 := l1 <| keyboard_repoll := None |>). set (s2 := set_line i l2 (s1 <| cancelled ::= λ c, of_opt (keyboard_repoll l) ∪ c |>)).
  rewrite (bind_eq _ _ _ () s2).
  2:{ apply (cancel_run _ (λ l, l <| keyboard_repoll := None |>) _ i l1 s1 Hl1); [done|]. intros Hn. unfold l1. destruct l. cbn in Hn |- *. by rewrite Hn. }
  assert (Hl2 : nthz (lines (term s2)) i = Some l2) by (by apply (nthz_set_line i l1 l2 s1)).
  set (l3 := l2 <| display_delay := None |>). set (s3 := set_line i l3 (s2 <| cancelled ::= λ c, of_opt (display_delay l) ∪ c |>)).
  rewrite (bind_eq _ _ _ () s3).
  2:{ apply (cancel_run _ (λ l, l <| display_delay := None |>) _ i l2 s2 Hl2); [done|]. intros Hn. unfold l2, l1. destruct l. cbn in Hn |- *. by rewrite Hn. }
  eexists. split; [done|]. split; [done|].
  eapply (good_remove P s _ i l Hg Hl); [|done|done|done]. cbn. by rewrite !list_insert_insert_eq.
Qed.

Lemma connect_terminal_run isatty tcgetattr tcsetattr P s i fd : good P s → 0 ≤ i < used → i < 16 → fd ≠ -1 →
  (∀ j m, nthz (lines (term s)) j = Some m → tty_fd m ≠ fd) →
  ∃ b s', connect_terminal isatty tcgetattr tcsetattr fd i s = Some (b, s', []) ∧ clock s' = clock s ∧ good P s'.
Proof.
  intros Hg Hi Hi' Hfd Hnew. destruct (nthz_is_Some (lines (term s)) i) as [l Hl]; [rewrite (good_lines _ _ _ Hg); lia|].
  pose proof (good_line _ _ _ Hg i l Hl) as [L1 L2 L3 L4 L5]. unfold connect_terminal, line_connected.
  rewrite gets_bind, (connected_line s i l) by (done || lia).
  destruct (Z.eqb_spec (tty_fd l) (-1)) as [Hc|Hc]; cbn [negb]; [|by exists false, s].
  rewrite !(assert_line_bind _ i l) by (done || (apply bool_decide_true; by (apply L3 || apply L4); left)).
  destruct (isatty fd && negb (tcgetattr fd)); [by exists false, s|].
  set (l1 := l <| tty_fd := fd |>). rewrite (on_line_bind i _ _ l l1 () s Hl) by done. set (s1 := set_line i l1 s).
  assert (Hl1 : nthz (lines (term s1)) i = Some l1) by (by apply (nthz_set_line i l l1 s)).
  assert (E1 : prepare_tty isatty tcsetattr i s1 = Some (negb (isatty fd) || tcsetattr fd, s1, [])).
  { unfold prepare_tty. rewrite (assert_connected _ i l1) by (done || lia). by rewrite (get_line i _ l1). }
  rewrite (bind_eq _ _ _ _ _ E1). destruct (negb (isatty fd) || tcsetattr fd); cbn [negb].
  2:{ rewrite (on_line_bind i _ _ l1 (l1 <| tty_fd := -1 |>) () s1 Hl1) by done. eexists false, _. split; [done|]. split; [done|].
      unfold s1. rewrite set_line_twice. unfold l1. replace (l <| tty_fd := fd |> <| tty_fd := -1 |>) with l by (destruct l; cbn in Hc |- *; by rewrite Hc).
      by rewrite set_line_id. }
  set (l2 := MkLine fd None None 0 UNREADY READY).
  assert (Hl2 : l1 <| keyboard_char := 0 |> <| keyboard_state := UNREADY |> <| display_state := READY |> = l2).
  { assert (keyboard_repoll l = None) by (apply L3; by left). assert (display_delay l = None) by (apply L4; by left).
    unfold l1. destruct l. cbn in *. by subst. }
  rewrite (on_line_bind i _ _ l1 l2 () s1 Hl1) by (by rewrite <- Hl2). unfold s1. rewrite set_line_twice.
  set (s2 := (set_line i l2 s) <| term ::= λ c, c <| unready_keyboards ::= λ u, {[fd]} ∪ u |> |>).
  rewrite (bind_eq _ _ _ () s2) by done. rewrite gets_bind.
  assert (HW : ∃ m, when (max_fd (term s2) <? fd + 1) (zoom term (max_fd <~ fd + 1)) s2 =
    Some ((), s2 <| term ::= λ c, c <| max_fd := m |> |>, [])).
  { destruct (max_fd (term s2) <? fd + 1); [by eexists|]. exists (max_fd (term s2)). cbn. by destruct s as [[] ? ? ? ? ? ?]. }
  destruct HW as [m HW]. rewrite (bind_eq _ _ _ _ _ HW).
  assert (Hl3 : nthz (lines (term (s2 <| term ::= λ c, c <| max_fd := m |> |>))) i = Some l2) by (by apply (nthz_set_line i l l2 s)).
  rewrite (assert_connected _ i l2) by (done || lia). eexists true, _. split; [done|]. split; [done|].
  eapply (good_connect used P s _ i l fd); done || apply Hi.
Qed.

(** *** The assertions never fail *)
Definition pending s : list Task := deferred_tasks (clock s) ≫= tasks.
Definition safe s : Prop := Deferred.wf (deferred_tasks (clock s)) ∧ good (pending s) s.

Lemma safe_run s s' adds : safe s → queued adds s s' → good (pending s ++ adds.*1) s' → safe s'.
Proof.
  intros [Hw Hg] [Q1 Q2 Q3 Q4] Hg'. destruct (Deferred.add_all_tasks _ _ _ Hw Q3 Q2) as [Hw' Hp].
  split; [done|]. by eapply (Deferred.good_perm (Tasks := controller_tasks)).
Qed.
Lemma safe_quiet s s' : safe s → clock s' = clock s → good (pending s) s' → safe s'.
Proof. intros [Hw Hg] E Hg'. unfold safe, pending. by rewrite E. Qed.

Lemma constructor_safe c (d : D) h next : deferred_tasks c = [] →
  ∃ s, TerminalController keyboard_poll_ns keyboard_repoll_ns display_ready_delay_ns c d h next = Some s ∧ safe s.
Proof.
  intros Hc. unfold TerminalController. rewrite !(proj2 (Z.ltb_lt _ _)) by done. cbn [andb].
  set (l0 := MkLine _ _ _ _ _ _). set (s0 := MkSys D Hst _ _ _ _ _ _ _).
  assert (Hl0 : ∀ i l, nthz (lines (term s0)) i = Some l → l = l0).
  { intros i l Hl. apply nthz_Some in Hl as [_ Hl]. change (replicate 16 l0 !! Z.to_nat i = Some l) in Hl.
    by apply lookup_replicate in Hl as [-> _]. }
  assert (Hg0 : good [] s0).
  { split; [done| | |by intros k i [Hk _]; apply not_elem_of_nil in Hk|].
    - intros i l ->%Hl0. split; cbn.
      + intros n. split; [done|]. intros [Hk _]. by apply not_elem_of_nil in Hk.
      + intros n. split; [done|]. intros [Hk _]. by apply not_elem_of_nil in Hk.
      + split; [by left|done].
      + split; [by left|done].
      + done.
    - by intros i j l m ->%Hl0.
    - split; [constructor|]. intros n [Hn|Hn]; [by apply not_elem_of_nil in Hn|by apply not_elem_of_empty in Hn]. }
  assert (Hs0 : safe s0) by (unfold safe, pending; cbn; rewrite Hc; split; [constructor|done]).
  destruct (new_task_run KeyboardPoll keyboard_poll_ns s0) as (ck & E & Hq); [left; apply Hs0|done|].
  rewrite (bind_eq _ _ _ _ _ E). eexists. split; [done|].
  eapply (safe_run s0); [done|by eapply queued_clock|]. cbn.
  assert (Hg1 : good (pending s0 ++ [(KeyboardPoll, next)]) (s0 <| next_task := next_task s0 + 1 |> <| clock := ck |>))
    by (apply (good_new used (pending s0) s0); done || apply Hs0).
  destruct Hg1 as [H1 H2 H3 H4 H5]. by split.
Qed.

Lemma increment_safe s ns : safe s → 0 < ns → ∃ s' e, increment_time clock task ns s = Some ((), s', e) ∧ safe s'.
Proof.
  intros [Hw Hg] Hns. destruct (Deferred.increment_runs clock task good ns ns s Hw Hns) as (s' & e & adds & E & Hw' & _ & _ & _ & _ & Hg').
  { by rewrite Deferred.absolute_tasks. }
  exists s', e. split; [done|]. split; [done|]. by rewrite Deferred.absolute_tasks in Hg'.
Qed.
Lemma unready_display_safe s i l data : safe s → nthz (lines (term s)) i = Some l → tty_fd l ≠ -1 →
  displays s l data = true →
  ∃ s', unready_display display_ready_delay_ns i data s = Some ((), s', []) ∧ safe s'.
Proof.
  intros Hs Hl Hc Hd. pose proof Hs as [Hw Hg].
  destruct (unready_display_run _ s i l data Hg (or_introl Hw) Hl Hc Hd) as (s' & adds & E & Hq & Hg').
  exists s'. split; [done|]. by eapply safe_run.
Qed.
Lemma unready_keyboard_safe s i l : safe s → nthz (lines (term s)) i = Some l → tty_fd l ≠ -1 → keyboard_state l = READY →
  ∃ s', unready_keyboard i s = Some ((), s', []) ∧ safe s'.
Proof.
  intros Hs Hl Hc Hk. pose proof Hs as [Hw Hg].
  destruct (unready_keyboard_run _ s i l Hg Hl Hc Hk) as (s' & E & Hg' & Hck). exists s'. split; [done|]. by eapply safe_quiet.
Qed.


End Operations.

(** The controller by itself, and a device that adds a task of its own. *)
#[global] Instance plain_overrides used ns :
  Overrides (D := unit) (Hst := Host.buffers) used ns ready_keyboard ready_display (_ ← new_task ClockTrigger ns; mret ()).
Proof.
  split.
  - intros i s s' _ E. exists (). rewrite E. by destruct s' as [? [] ? ? ? ? ?].
  - intros i s s' _ E. exists (). rewrite E. by destruct s' as [? [] ? ? ? ? ?].
  - intros s s' n E. exists (). rewrite (bind_eq _ _ _ _ _ E). by destruct s' as [? [] ? ? ? ? ?].
Qed.


End TerminalInv.
