(* ===== verification/TermClient.v ===== *)
(** * TermClient: what the devices on the terminal controller share

    A device's own part changes without touching the controller, and a device's operation
    keeps the controller's invariant when each of its steps does. *)

From S2P Require Import Prelude Effects Clock Terminal TerminalInv.
Import Clock TerminalController.

Module TermClient.

Section Client.
  Context {D Hst : Type} {HH : Host.Host Hst} {HHL : Host.Laws Hst}.
  (** The number of lines the device uses. *)
  Variable used : Z.
  Hypothesis used_lines : used ≤ 16.
  Notation sys := (TerminalController.sys D Hst).
  Notation M := (Effects.M sys).
  Notation safe := (TerminalInv.safe used).

(** Steps that change the device's part only. *)
Definition devs_only (m : M unit) : Prop := ∀ s, ∃ d, m s = Some ((), s <| dev := d |>, []).
Lemma devs_id (s : sys) : s <| dev := dev s |> = s.
Proof. by destruct s. Qed.
Lemma zoom_dev (m : Effects.M D unit) : (∀ d, ∃ d', m d = Some ((), d', [])) → devs_only (zoom dev m).
Proof. intros Hm s. destruct (Hm (dev s)) as [d E]. exists d. unfold zoom. by rewrite E. Qed.
Lemma modify_dev f : devs_only (zoom dev (modify f)).
Proof. by apply zoom_dev; eauto. Qed.
Lemma assign_dev {T} (p : D → T) {P : Setter p} v : devs_only (zoom dev (p <~ v)).
Proof. apply zoom_dev. intros d. by eexists. Qed.
Lemma when_dev b m : devs_only m → devs_only (when b m).
Proof. intros Hm s. destruct b; [apply Hm|]. exists (dev s). by rewrite devs_id. Qed.

Lemma safe_dev (s : sys) (d : D) : safe s → safe (s <| dev := d |>).
Proof. intros [Hw [H1 H2 H3 H4 H5]]. split; [done|by split]. Qed.

(** What returns in a safe state, in one. *)
Definition keeps_safe {A} (m : M A) (s : sys) : Prop := ∃ a s', m s = Some (a, s', []) ∧ safe s'.
Lemma keeps_safe_bind {A B} (m : M A) (f : A → M B) s : keeps_safe m s → (∀ a s', safe s' → keeps_safe (f a) s') → keeps_safe (bindM m f) s.
Proof.
  intros (a & s1 & E & Hs1) Hf. destruct (Hf a s1 Hs1) as (b & s2 & E2 & Hs2). exists b, s2.
  by rewrite (bind_eq _ _ _ _ _ E).
Qed.
Lemma keeps_safe_ret {A} (a : A) s : safe s → keeps_safe (mret a) s.
Proof. intros Hs. by exists a, s. Qed.
Lemma keeps_safe_devs m s : devs_only m → safe s → keeps_safe m s.
Proof. intros Hm Hs. destruct (Hm s) as [d E]. eexists (), _. split; [exact E|]. by apply safe_dev. Qed.
Lemma keeps_safe_gets {A} (f : sys → A) s : safe s → keeps_safe (gets f) s.
Proof. intros Hs. by exists (f s), s. Qed.

Lemma line_Some (s : sys) i : safe s → 0 ≤ i < used →
  ∃ l, nthz (lines (term s)) i = Some l ∧ connected (term s) i = negb (tty_fd l =? -1).
Proof.
  intros [_ Hg] Hi. destruct (nthz_is_Some (lines (term s)) i) as [l Hl]; [rewrite (TerminalInv.good_lines _ _ _ Hg); lia|].
  exists l. split; [done|]. apply TerminalInv.connected_line; [lia|done].
Qed.
Lemma get_line_run (s : sys) i l : nthz (lines (term s)) i = Some l → on_line i (gets id) s = Some (l, s, []).
Proof. intros Hl. rewrite (TerminalInv.on_line_run i _ l l l s Hl) by done. by rewrite TerminalInv.set_line_id. Qed.
Lemma get_line_safe (s : sys) i : safe s → 0 ≤ i < used → keeps_safe (on_line i (gets id)) s.
Proof. intros Hs Hi. destruct (line_Some s i Hs Hi) as (l & Hl & _). exists l, s. split; [by apply get_line_run|done]. Qed.

End Client.

(** The steps of an operation, one by one. *)
Ltac keeps_safe_step :=
  lazymatch goal with
  | |- keeps_safe _ (bindM _ _) _ => apply keeps_safe_bind; [|intros ? ? ?]
  | |- keeps_safe _ (mret _) _ => apply keeps_safe_ret
  | |- keeps_safe _ (gets _) _ => apply keeps_safe_gets
  | |- keeps_safe _ (on_line _ (gets id)) _ => apply get_line_safe
  | |- keeps_safe _ _ _ => apply keeps_safe_devs
  | |- devs_only (when _ _) => apply when_dev
  | |- devs_only (zoom _ (modify _)) => apply modify_dev
  | |- devs_only (zoom _ (assign _ _)) => apply assign_dev
  end.

End TermClient.
