(* ===== verification/Spim.v ===== *)
(** * Spim: the SPIM-compatible console (spimconsole.h, spimconsole.cc, spimconsreg.h)

    Two terminals and a clock of one second behind nine registers, a client of the
    terminal controller: it overrides four of its methods and adds a task of its own. *)

From S2P Require Import Prelude Effects Types Interrupts Clock Terminal TerminalInv TermClient.
Import Clock TerminalController TermClient.

Module SpimConsole.
Import DeviceInt.

Definition CTL_IE : Z := 0x2.
Definition CTL_RDY : Z := 0x1.
Definition KEYBOARD_POLL_NS : Z := 400 * 1000.
Definition KEYBOARD_REPOLL_NS : Z := 40 * 1000 * 1000.
Definition DISPLAY_READY_DELAY_NS : Z := 40 * 1000 * 1000.
Definition CLOCK_TRIGGER_NS : Z := 1000 * 1000 * 1000.

(** What the console adds to the controller and its bases. *)
Record t := Mk {
  ints : DeviceInt.t;
  trigger : option Z;
  display_interrupt_enable : bool * bool;        (* bool[2] *)
  keyboard_interrupt_enable : bool * bool;
  clock_interrupt : bool;
  clock_state : State
}.
#[global] Instance eta : Eta t := λ d,
  Mk (ints d) (trigger d) (display_interrupt_enable d) (keyboard_interrupt_enable d) (clock_interrupt d) (clock_state d).

(** An element of a [bool[2]]; the two cases with which one is written. *)
Definition pick (p : bool * bool) (line : Z) : option bool :=
  if line =? 0 then Some p.1 else if line =? 1 then Some p.2 else None.
Definition put (p : bool * bool) (line : Z) (b : bool) : bool * bool :=
  if line =? 0 then (b, p.2) else (p.1, b).

Definition display_irq (line : Z) : Z := if line =? 0 then IRQ4 else IRQ6.
Definition keyboard_irq (line : Z) : Z := if line =? 0 then IRQ3 else IRQ5.
Section Console.
  Context {Hst : Type} {HH : Host.Host Hst}.
  Notation sys := (TerminalController.sys t Hst).
  Notation M := (Effects.M sys).

Definition assert_irq (irq : Z) : M unit := zoom dev (zoom ints (assertInt irq)).
Definition deassert_irq (irq : Z) : M unit := zoom dev (zoom ints (deassertInt irq)).

Definition unready_display (line data : Z) : M unit :=
  TerminalController.unready_display DISPLAY_READY_DELAY_NS line data;; deassert_irq (display_irq line).
Definition ready_display (line : Z) : M unit :=
  TerminalController.ready_display line;;
  d ← gets dev; b ← from_option (pick (display_interrupt_enable d) line);
  when b (assert_irq (display_irq line)).
Definition unready_keyboard (line : Z) : M unit :=
  TerminalController.unready_keyboard line;; deassert_irq (keyboard_irq line).
Definition ready_keyboard (line : Z) : M unit :=
  TerminalController.ready_keyboard line;;
  d ← gets dev; b ← from_option (pick (keyboard_interrupt_enable d) line);
  when b (assert_irq (keyboard_irq line)).
Definition unready_clock : M unit := zoom dev (clock_state <~ UNREADY);; deassert_irq IRQ2.
Definition ready_clock : M unit :=
  zoom dev (clock_state <~ READY);;
  n ← new_task ClockTrigger CLOCK_TRIGGER_NS;
  zoom dev (trigger <~ Some n);;
  d ← gets dev; when (clock_interrupt d) (assert_irq IRQ2).

(** [SpimConsoleDevice::SpimConsoleDevice] on the clock [c]. *)
Definition SpimConsoleDevice (c : Clock.t Task) (h : Hst) (next : Z) : option sys :=
  match TerminalController KEYBOARD_POLL_NS KEYBOARD_REPOLL_NS DISPLAY_READY_DELAY_NS c
          (Mk DeviceInt None (false, false) (false, false) false UNREADY) h next with
  | None => None
  | Some s =>
      match (n ← new_task ClockTrigger CLOCK_TRIGGER_NS; zoom dev (trigger <~ Some n)) s with
      | Some (_, s, _) => Some s
      | None => None
      end
  end.
(** [~SpimConsoleDevice], then that of the controller. *)
Definition destroy : M unit :=
  d ← gets dev;
  match trigger d with None => crash | Some n => cancel n end;; TerminalController.destroy.

Section Registers.
  Variable byteswapped : bool.

Definition line_at (line : Z) : M LineState := on_line line (gets id).
(** The registers of line [line]. *)
Definition fetch_keyboard_control (line : Z) : M Z :=
  d ← gets dev; ie ← from_option (pick (keyboard_interrupt_enable d) line);
  let word := if ie : bool then CTL_IE else 0 in
  c ← line_connected line; l ← line_at line;
  let word := if c : bool then Z.lor word (state_word (keyboard_state l)) else word in
  when (negb ie) (deassert_irq (keyboard_irq line));; mret word.
Definition fetch_keyboard_data (line : Z) : M Z :=
  c ← line_connected line;
  if c : bool then unready_keyboard line;; l ← line_at line; mret (u32 (keyboard_char l)) else mret 0.
Definition fetch_display_control (line : Z) : M Z :=
  d ← gets dev; ie ← from_option (pick (display_interrupt_enable d) line);
  let word := if ie : bool then CTL_IE else 0 in
  c ← line_connected line; l ← line_at line;
  let word := Z.lor word (if c : bool then state_word (display_state l) else CTL_RDY) in
  when (negb ie) (deassert_irq (display_irq line));; mret word.
Definition fetch_word (offset mode client : Z) : M Z :=
  let k := offset / 4 in
  word ← (if k =? 0 then fetch_keyboard_control 0
          else if k =? 1 then fetch_keyboard_data 0
          else if k =? 2 then fetch_display_control 0
          else if k =? 3 then mret 0
          else if k =? 4 then fetch_keyboard_control 1
          else if k =? 5 then fetch_keyboard_data 1
          else if k =? 6 then fetch_display_control 1
          else if k =? 7 then mret 0
          else if k =? 8 then
            d ← gets dev;
            let word := Z.lor (if clock_interrupt d then CTL_IE else 0) (state_word (clock_state d)) in
            unready_clock;; mret word
          else crash);
  mret (host_to_mips_word byteswapped word).

(** The keyboard of the first line is taken for ready when its display is. *)
Definition store_keyboard_control (line data : Z) (ready : LineState → State) : M unit :=
  let ie := nz (Z.land data CTL_IE) in
  zoom dev (modify (λ d, d <| keyboard_interrupt_enable ::= λ p, put p line ie |>));;
  c ← line_connected line; l ← line_at line;
  when (c && ie && bool_decide (ready l = READY)) (assert_irq (keyboard_irq line)).
Definition store_display_control (line data : Z) : M unit :=
  let ie := nz (Z.land data CTL_IE) in
  zoom dev (modify (λ d, d <| display_interrupt_enable ::= λ p, put p line ie |>));;
  c ← line_connected line; l ← line_at line;
  when (c && ie && bool_decide (display_state l = READY)) (assert_irq (display_irq line)).
Definition store_display_data (line data : Z) : M unit :=
  c ← line_connected line; when c (unready_display line data).
Definition store_word (offset odata client : Z) : M unit :=
  let data := host_to_mips_word byteswapped odata in
  let k := offset / 4 in
  if k =? 0 then store_keyboard_control 0 data display_state
  else if k =? 1 then mret ()
  else if k =? 2 then store_display_control 0 data
  else if k =? 3 then store_display_data 0 data
  else if k =? 4 then store_keyboard_control 1 data keyboard_state
  else if k =? 5 then mret ()
  else if k =? 6 then store_display_control 1 data
  else if k =? 7 then store_display_data 1 data
  else if k =? 8 then
    zoom dev (clock_interrupt <~ nz (Z.land data CTL_IE));;
    d ← gets dev;
    when (clock_interrupt d && bool_decide (clock_state d = READY)) (assert_irq IRQ2)
  else crash.
End Registers.

(** ** The console is a client of the controller *)
  Context {HHL : Host.Laws Hst}.
Lemma assert_irq_dev irq : devs_only (assert_irq irq).
Proof.
  intros s. unfold assert_irq, assertInt. munfold. destruct (nz _); [by eexists|]. exists (dev s). by destruct s as [? [] ? ? ? ? ?].
Qed.
Lemma deassert_irq_dev irq : devs_only (deassert_irq irq).
Proof.
  intros s. unfold deassert_irq, deassertInt. munfold. destruct (nz _); [by eexists|]. exists (dev s). by destruct s as [? [] ? ? ? ? ?].
Qed.
Lemma pick_Some p i (s : sys) : i < 2 → connected (term s) i = true → is_Some (pick p i).
Proof.
  unfold connected, line_of, pick. intros Hi Hc. destruct (Z.leb_spec 0 i); [|done].
  destruct (Z.eqb_spec i 0), (Z.eqb_spec i 1); (lia || by eexists).
Qed.
(** A method of the controller for a line, then an interrupt. *)
Lemma override (m : M unit) (p : t → bool * bool) i irq s s' : i < 2 → (connected (term s) i = false → m s = None) →
  m s = Some ((), s', []) →
  ∃ d, (m;; d ← gets dev; b ← from_option (pick (p d) i); when b (assert_irq irq)) s = Some ((), s' <| dev := d |>, []).
Proof.
  intros Hi Hm E. assert (Hc : connected (term s) i = true) by (destruct (connected (term s) i); [done|by rewrite Hm in E]).
  destruct (pick_Some (p (dev s')) i s Hi Hc) as [b Hb].
  rewrite (bind_eq _ _ _ _ _ E), gets_bind, Hb. cbn [from_option]. rewrite ret_bind. apply when_dev, assert_irq_dev.
Qed.
#[global] Instance console_overrides : TerminalInv.Overrides 2 CLOCK_TRIGGER_NS ready_keyboard ready_display ready_clock.
Proof.
  split.
  - intros i s s' Hi E. apply override; [done| |done]. intros Hc. unfold TerminalController.ready_keyboard, line_connected. by rewrite gets_bind, Hc.
  - intros i s s' Hi E. apply override; [done| |done]. intros Hc. unfold TerminalController.ready_display, line_connected. by rewrite gets_bind, Hc.
  - intros s s' n E. unfold ready_clock.
    assert (E' : new_task ClockTrigger CLOCK_TRIGGER_NS (s <| dev := (dev s) <| clock_state := READY |> |>) =
      Some (n, s' <| dev := (dev s) <| clock_state := READY |> |>, [])).
    { unfold new_task in *. rewrite gets_bind in *. cbn [next_task] in *.
      rewrite (bind_eq _ _ _ () (s <| next_task := next_task s + 1 |>)) in E by done.
      rewrite (bind_eq _ _ _ () (s <| dev := (dev s) <| clock_state := READY |> |> <| next_task := next_task s + 1 |>)) by done.
      unfold bindM, zoom in *. cbn [clock upd setter_of] in *. destruct (add_deferred_task _ _ _) as [[[[] c] e]|]; [|done].
      unfold mret, M_ret in *. by injection E as <- <- ->. }
    rewrite (bind_eq _ _ _ () (s <| dev := (dev s) <| clock_state := READY |> |>)) by done.
    rewrite (bind_eq _ _ _ _ _ E'). set (d := (dev s) <| clock_state := READY |>).
    rewrite (bind_eq _ _ _ () (s' <| dev := d <| trigger := Some n |> |>)) by done. rewrite gets_bind.
    destruct (when_dev (clock_interrupt d) _ (assert_irq_dev IRQ2) (s' <| dev := d <| trigger := Some n |> |>)) as [d' E2].
    exists d'. exact E2.
Qed.

(** The console's part of the invariant: that of the controller. *)
  Notation task := (TerminalController.task KEYBOARD_POLL_NS KEYBOARD_REPOLL_NS ready_keyboard ready_display ready_clock).
  Notation safe := (TerminalInv.safe 2).

  Notation keeps_safe := (TermClient.keeps_safe 2).

Lemma line_at_safe (s : sys) i : safe s → 0 ≤ i < 2 → keeps_safe (line_at i) s.
Proof. intros Hs Hi. unfold line_at. by apply get_line_safe. Qed.
Lemma pick_safe p i (s : sys) : safe s → 0 ≤ i < 2 → keeps_safe (from_option (pick p i)) s.
Proof.
  intros Hs Hi. unfold pick. destruct (Z.eqb_spec i 0); [by apply keeps_safe_ret|].
  destruct (Z.eqb_spec i 1); [by apply keeps_safe_ret|lia].
Qed.

Ltac keeps_safe :=
  repeat first [ done | lazymatch goal with
    | |- keeps_safe (line_at _) _ => apply line_at_safe
    | |- keeps_safe (from_option _) _ => apply pick_safe
    | |- devs_only (assert_irq _) => apply assert_irq_dev
    | |- devs_only (deassert_irq _) => apply deassert_irq_dev
    | |- _ => keeps_safe_step
    end ].

Lemma fetch_keyboard_control_safe (s : sys) i : safe s → 0 ≤ i < 2 → keeps_safe (fetch_keyboard_control i) s.
Proof. intros Hs Hi. unfold fetch_keyboard_control, line_connected. keeps_safe. Qed.
Lemma fetch_display_control_safe (s : sys) i : safe s → 0 ≤ i < 2 → keeps_safe (fetch_display_control i) s.
Proof. intros Hs Hi. unfold fetch_display_control, line_connected. keeps_safe. Qed.
Lemma store_keyboard_control_safe (s : sys) i data r : safe s → 0 ≤ i < 2 → keeps_safe (store_keyboard_control i data r) s.
Proof. intros Hs Hi. unfold store_keyboard_control, line_connected. keeps_safe. Qed.
Lemma store_display_control_safe (s : sys) i data : safe s → 0 ≤ i < 2 → keeps_safe (store_display_control i data) s.
Proof. intros Hs Hi. unfold store_display_control, line_connected. keeps_safe. Qed.
Lemma store_display_data_safe (s : sys) i data : safe s → Host.takes_bytes (host s) → 0 ≤ i < 2 →
  keeps_safe (store_display_data i data) s.
Proof.
  intros Hs Hh Hi. destruct (line_Some 2 ltac:(lia) s i Hs Hi) as (l & Hl & Hc). unfold store_display_data, line_connected.
  destruct (Z.eqb_spec (tty_fd l) (-1)) as [He|He]; cbn [negb] in Hc.
  { exists (), s. by rewrite gets_bind, Hc. }
  destruct (TerminalInv.unready_display_safe KEYBOARD_POLL_NS KEYBOARD_REPOLL_NS DISPLAY_READY_DELAY_NS 2 eq_refl eq_refl eq_refl CLOCK_TRIGGER_NS
    eq_refl ready_keyboard ready_display ready_clock s i l data Hs Hl He) as (s1 & E & Hs1);
    [unfold TerminalInv.displays; by rewrite Hh, orb_true_r|].
  unfold keeps_safe. setoid_rewrite gets_bind. rewrite Hc. cbn [when].
  apply keeps_safe_bind; [by exists (), s1|]. intros. keeps_safe.
Qed.

(** The keyboard whose data is read. *)
Definition data_register (offset : Z) : option Z :=
  if offset / 4 =? 1 then Some 0 else if offset / 4 =? 5 then Some 1 else None.
Definition no_data (s : sys) (line : Z) : bool :=
  connected (term s) line && match nthz (lines (term s)) line with Some l => bool_decide (keyboard_state l = UNREADY) | None => false end.

Lemma fetch_keyboard_data_safe (s : sys) i : safe s → 0 ≤ i < 2 →
  if no_data s i then fetch_keyboard_data i s = None else keeps_safe (fetch_keyboard_data i) s.
Proof.
  intros Hs Hi. destruct (line_Some 2 ltac:(lia) s i Hs Hi) as (l & Hl & Hc). unfold no_data, fetch_keyboard_data. rewrite Hl.
  destruct (Z.eqb_spec (tty_fd l) (-1)) as [He|He]; cbn [negb] in Hc; rewrite Hc; cbn [andb].
  { exists 0, s. unfold line_connected. by rewrite gets_bind, Hc. }
  unfold line_connected. case_bool_decide as Hk.
  - assert (E : TerminalController.unready_keyboard i s = None).
    { unfold TerminalController.unready_keyboard. rewrite (TerminalInv.assert_connected _ i l) by (done || lia).
      unfold assert_line. rewrite !bind_assoc, (TerminalInv.get_line i _ l) by done. by rewrite Hk. }
    rewrite gets_bind, Hc. unfold unready_keyboard, bindM. by rewrite E.
  - destruct (TerminalInv.unready_keyboard_safe 2 s i l Hs Hl He) as (s1 & E & Hs1); [by destruct (keyboard_state l)|].
    unfold keeps_safe. setoid_rewrite gets_bind. rewrite Hc.
    apply keeps_safe_bind; [|intros; keeps_safe]. apply keeps_safe_bind; [by exists (), s1|]. intros. keeps_safe.
Qed.

Ltac register :=
  repeat first [ done | lazymatch goal with
    | |- if no_data ?s ?i then _ else _ =>
        let H := fresh in pose proof (fetch_keyboard_data_safe s i ltac:(done) ltac:(lia)) as H;
        destruct (no_data s i); [unfold bindM at 1; by rewrite H|apply keeps_safe_bind; [exact H|intros ? ? ?]]
    | |- keeps_safe (bindM _ _) _ => apply keeps_safe_bind; [|intros ? ? ?]
    | |- keeps_safe (fetch_keyboard_control _) _ => apply fetch_keyboard_control_safe; [done|lia]
    | |- keeps_safe (fetch_display_control _) _ => apply fetch_display_control_safe; [done|lia]
    | |- keeps_safe (store_keyboard_control _ _ _) _ => apply store_keyboard_control_safe; [done|lia]
    | |- keeps_safe (store_display_control _ _) _ => apply store_display_control_safe; [done|lia]
    | |- keeps_safe (store_display_data _ _) _ => apply store_display_data_safe; [done|done|lia]
    | |- keeps_safe unready_clock _ => unfold unready_clock
    | |- _ => progress keeps_safe
    end ].

(** The console: whatever time passes and whichever of its registers the machine reads or
    writes, in any order, while the host takes the bytes that are written, every call returns
    and no assertion fails, but one: the data of a connected keyboard is only to be read when
    there is some. *)
Theorem console_safe (byteswapped : bool) (s : sys) (Hs : safe s) (Hh : Host.takes_bytes (host s)) :
  (∀ ns, 0 < ns → ∃ s' e, increment_time clock task ns s = Some ((), s', e) ∧ safe s') ∧
  ∀ offset, 0 ≤ offset < 36 →
    (∀ data client, keeps_safe (store_word byteswapped offset data client) s) ∧
    (∀ mode client,
       if match data_register offset with Some line => no_data s line | None => false end
       then fetch_word byteswapped offset mode client s = None
       else keeps_safe (fetch_word byteswapped offset mode client) s).
Proof.
  split; [intros ns Hns; by apply (TerminalInv.increment_safe KEYBOARD_POLL_NS KEYBOARD_REPOLL_NS DISPLAY_READY_DELAY_NS 2 eq_refl eq_refl eq_refl CLOCK_TRIGGER_NS eq_refl ready_keyboard ready_display ready_clock)|]. intros offset Ho.
  assert (Hk : 0 ≤ offset / 4 < 9) by (split; [apply Z.div_pos; lia|apply Z.div_lt_upper_bound; lia]).
  unfold data_register, store_word, fetch_word. generalize dependent (offset / 4). intros k Hk.
  assert (H : k = 0 ∨ k = 1 ∨ k = 2 ∨ k = 3 ∨ k = 4 ∨ k = 5 ∨ k = 6 ∨ k = 7 ∨ k = 8) by lia.
  destruct H as [->|[->|[->|[->|[->|[->|[->|[->| ->]]]]]]]]; cbn [Z.eqb Pos.eqb]; (split; [intros data client|intros mode client]).
  all: register.
Qed.

End Console.
End SpimConsole.
