(* ===== verification/BoardDev.v ===== *)
(** * BoardDev: the small devices of the board (haltdev.cc, testdev.cc, rs232c.cc, decstat.cc,
      deccsr.cc, decrtc.cc, with their headers)

    Register files behind the words of a device map: the halt switch, the test memory, the
    serial output of the chip, and three devices of the DECstation 5000/200, its error
    address register, its control and status register with the interrupts behind it, and
    its real-time clock. *)

From S2P Require Import Prelude Effects Types Interrupts Mapper Clock.
Import Clock.

(** ** The state of the machine (vmips.h) *)
Module MachineState.

Inductive state := HALT | RUN | DEBUG | INTERACT.
#[global] Instance state_eq_dec : EqDecision state.
Proof. solve_decision. Defined.
Definition halt : M state unit := modify (λ _, HALT).
Definition attn_key : M state unit := modify (λ _, INTERACT).
Definition halted (s : state) : bool := bool_decide (s = HALT).

End MachineState.

(** ** The halt device *)
Module HaltDevice.
Import MachineState.

(** On the state of the machine; the default cases are assertions. *)
Definition fetch_word (offset mode client : Z) : M state Z :=
  if offset / 4 =? 0 then mret 0 else crash.
Definition store_word (offset data client : Z) : M state unit :=
  if offset / 4 =? 0 then when (nz data) halt else crash.

(** The device does what its header says on the word it answers for: reads are ignored, and
    a word other than zero halts the machine. *)
Lemma halts (offset data mode client : Z) (s : state) (Ho : 0 ≤ offset < 4) :
  fetch_word offset mode client s = Some (0, s, []) ∧
  store_word offset data client s = Some ((), if data =? 0 then s else HALT, []).
Proof.
  unfold fetch_word, store_word. rewrite Z.div_small by done. split; [done|]. unfold nz. by destruct (data =? 0).
Qed.

End HaltDevice.

(** ** The test device *)
Module TestDev.

Record t := Mk { words : list Z }.            (* uint32[extent / 4] *)
#[global] Instance eta : Eta t := λ d, Mk (words d).
Definition extent : Z := 0x100.
Definition TestDev : t := Mk (replicate (Z.to_nat (extent / 4)) 0).

Section Order.
  Variable byteswapped : bool.
Definition fetch_word (offset mode client : Z) : M t Z :=
  rv ← aget words (offset / 4); mret (mips_to_host_word byteswapped rv).
Definition store_word (offset odata client : Z) : M t unit :=
  aset words (offset / 4) (host_to_mips_word byteswapped odata).

(** A memory of words: what was stored last at a word is fetched from it, in either byte
    order, and nothing else changes. *)
Lemma store_fetch (d : t) (o o' w mode client : Z) (Hd : length (words d) = 64%nat) (Ho : 0 ≤ o < extent) (Ho' : 0 ≤ o' < extent)
    (Hw : is_u32 w) :
  ∃ d', store_word o w client d = Some ((), d', []) ∧ length (words d') = 64%nat ∧
    (if o' / 4 =? o / 4 then fetch_word o' mode client d' = Some (w, d', [])
     else ∃ v, fetch_word o' mode client d = Some (v, d, []) ∧ fetch_word o' mode client d' = Some (v, d', [])).
Proof.
  unfold extent in *.
  assert (Hi : ∀ x, 0 ≤ x < 256 → 0 ≤ x / 4 < Z.of_nat (length (words d))).
  { intros x Hx. rewrite Hd. split; [apply Z.div_pos; lia|apply Z.div_lt_upper_bound; lia]. }
  unfold store_word, fetch_word, aset, aget.
  pose proof (setz_Some (words d) (o / 4) (host_to_mips_word byteswapped w) (Hi o Ho)) as El. set (l := <[_ := _]> _) in El.
  exists (Mk l). split; [munfold; by rewrite El|]. split; [cbn; by rewrite (setz_length _ _ _ _ El)|].
  munfold. cbn. rewrite (nthz_setz _ _ _ _ _ El). destruct (o' / 4 =? o / 4).
  - pose proof (host_mips_word byteswapped w Hw) as E. unfold host_to_mips_word, mips_to_host_word in *. by rewrite E.
  - destruct (nthz_is_Some (words d) (o' / 4) (Hi o' Ho')) as [v ->]. by eexists.
Qed.
End Order.

End TestDev.

(** ** The serial output of the chip: what was printed *)
Module Rs232c.

Definition fetch_word (offset mode client : Z) : M (list Z) Z := mret 2.
Definition store_word (offset data client : Z) : M (list Z) unit :=
  let c := Z.land data 0x00FF0000 in
  when ((offset =? 0) && (0 <? c)) (modify (λ out, out ++ [Z.shiftr c 16])).

(** Storing the bytes of a text in the third byte of the first word prints it, but for its
    zero bytes. *)
Lemma prints (l out : list Z) (client : Z) (Hl : Forall is_u8 l) :
  for_each l (λ b, store_word 0 (Z.shiftl b 16) client) out = Some ((), out ++ filter (λ b, b ≠ 0) l, []).
Proof.
  revert out. induction Hl as [|b l Hb _ IH]; intros out; [by rewrite app_nil_r|]. cbn [for_each].
  assert (Hc : Z.land (Z.shiftl b 16) 0x00FF0000 = Z.shiftl b 16) by bitblast i.
  assert (Hs : Z.shiftr (Z.shiftl b 16) 16 = b) by (rewrite Z.shiftr_shiftl_l by lia; apply Z.shiftl_0_r).
  destruct Hb as [Hb0 Hb1]. unfold store_word at 1. rewrite Hc, Hs. cbn [Z.eqb andb]. rewrite filter_cons.
  unfold store_word in IH. rewrite (Z.shiftl_mul_pow2 b 16) by lia. destruct (Z.ltb_spec 0 (b * 2 ^ 16)), (decide (b ≠ 0)); try lia.
  - rewrite (bind_eq _ _ _ () (out ++ [b])) by done. rewrite IH. by rewrite <- app_assoc.
  - rewrite (bind_eq _ _ _ () out) by done. apply IH.
Qed.

End Rs232c.

(** ** The error address register *)
Module DECStat.

Record t := Mk { chksyn_reg : Z; erradr_reg : Z }.       (* not initialised *)
#[global] Instance eta : Eta t := λ d, Mk (chksyn_reg d) (erradr_reg d).

Definition ERRADR_VALID : Z := 0x80000000.
Definition ERRADR_CPU : Z := 0x40000000.
Definition ERRADR_WRITE : Z := 0x20000000.
Definition ERRADR_ADDRESS : Z := 0x07FFFFFF.

(** The address as the register has it. *)
Definition late_address (addr : Z) : Z :=
  let a := Z.shiftr addr 2 in
  Z.land (u32 (Z.lor (Z.land a (Z.lnot 0x0fff)) (Z.land a 0x0fff + 5))) ERRADR_ADDRESS.

Section Device.
  Variables (byteswapped : bool) (cpu : Z).

(** [berr] is what the mapper's [get_last_berr_info] gives. *)
Definition fetch_word (berr : Mapper.BusErrorInfo) (offset mode client : Z) : M t Z :=
  rv ← (if negb (nz (Z.land offset 0x80000)) then gets chksyn_reg else
    (if Mapper.berr_valid berr then
       let e := ERRADR_VALID in
       let e := if Mapper.berr_mode berr =? DATASTORE then Z.lor e ERRADR_WRITE else e in
       let e := if Mapper.berr_client berr =? cpu then Z.lor e ERRADR_CPU else e in
       erradr_reg <~ Z.lor e (late_address (Mapper.berr_addr berr))
     else modify (λ d, d <| erradr_reg ::= λ e, Z.land e (lnot32 ERRADR_VALID) |>));;
    gets erradr_reg);
  mret (mips_to_host_word byteswapped rv).
Definition store_word (offset data client : Z) : M t unit :=
  if negb (nz (Z.land offset 0x80000)) then chksyn_reg <~ 0 else erradr_reg <~ 0.

End Device.

(** The register tells an error at the fifth word after the one that was accessed, as the
    machine did, except at the end of a block of 4096 words: there the carry of the sum is
    or'ed into the number of the block. *)
Lemma late_address_spec (addr : Z) (Ha : is_u32 addr) :
  let a := Z.shiftr addr 2 in
  late_address addr = (if a mod 4096 <? 4091 then a + 5 else Z.lor (a / 4096) 1 * 4096 + (a mod 4096 - 4091)) mod 2 ^ 27.
Proof.
  intros a. unfold late_address, is_u in *. fold a.
  assert (Ha' : 0 ≤ a < 2 ^ 30).
  { unfold a. rewrite Z.shiftr_div_pow2 by lia. split; [apply Z.div_pos; lia|apply Z.div_lt_upper_bound; lia]. }
  change ERRADR_ADDRESS with (Z.ones 27). rewrite Z.land_ones by lia.
  assert (Hlow : Z.land a 0x0fff = a mod 4096) by (change 0x0fff with (Z.ones 12); by rewrite Z.land_ones by lia).
  assert (Hhigh : Z.land a (Z.lnot 0x0fff) = Z.shiftl (a / 4096) 12).
  { change (a / 4096) with (a / 2 ^ 12). rewrite <- Z.shiftr_div_pow2 by lia. change 0x0fff with (Z.ones 12).
    rewrite <- Z.ldiff_land. by rewrite Z.ldiff_ones_r by lia. }
  rewrite Hlow, Hhigh. pose proof (Z.mod_pos_bound a 4096 ltac:(lia)) as Hm.
  pose proof (Z.div_mod a 4096 ltac:(lia)) as Hdm. assert (0 ≤ a / 4096) by (apply Z.div_pos; lia).
  assert (Hor : ∀ x y, 0 ≤ x → 0 ≤ y < 4096 → Z.lor (Z.shiftl x 12) y = x * 4096 + y).
  { intros x y Hx Hy. rewrite <- Z.add_nocarry_lxor, Z.add_comm || idtac.
    assert (Hl : Z.land (Z.shiftl x 12) y = 0); [|pose proof (Z.add_lor_land (Z.shiftl x 12) y); rewrite Z.shiftl_mul_pow2 in * by lia; lia].
    apply Z.bits_inj'. intros i Hi. rewrite Z.bits_0, Z.land_spec, tb_shiftl by lia. destruct (Z.leb_spec 12 i); [|done].
    rewrite (testbit_high 12 y) by (unfold is_u; lia). by rewrite andb_false_r. }
  assert (Hu : ∀ z, u32 z mod 2 ^ 27 = z mod 2 ^ 27).
  { intros z. unfold u32, wrap. apply Z.mod_mod_divide. by exists (2 ^ 5). }
  rewrite Hu. destruct (Z.ltb_spec (a mod 4096) 4091).
  - rewrite Hor by lia. f_equal. lia.
  - replace (a mod 4096 + 5) with (Z.lor (Z.shiftl 1 12) (a mod 4096 - 4091)) by (rewrite Hor by lia; lia).
    rewrite Z.lor_assoc, <- Z.shiftl_lor, Hor; [done|apply Z.lor_nonneg; lia|lia].
Qed.

(** The processor stored at the last word of such a block. *)
Example carried : late_address 0x7ffc = 0x1004 ∧ Z.shiftr 0x7ffc 2 + 5 = 0x2004.
Proof. by vm_compute. Qed.

End DECStat.

(** ** The control and status register *)
Module DECCSR.
Import DeviceInt.

Definition CSR_IOINTEN : Z := 0x00ff0000.
Definition CSR_RW_BITS : Z := 0x00ffff00.
Definition CSR_LEDS : Z := 0x000000ff.
Definition SystemInterfaceCSRInt : Z := Z.shiftl 1 7.

(** Nothing but the base class is initialised. *)
Record t := Mk { lines : DeviceInt.t; robits : Z; rwbits : Z; ioint : Z; leds : Z }.
#[global] Instance eta : Eta t := λ d, Mk (lines d) (robits d) (rwbits d) (ioint d) (leds d).

Section Device.
  Variable irq : Z.

Definition pending (d : t) : bool := nz (Z.land (Z.shiftr (Z.land (rwbits d) CSR_IOINTEN) 16) (ioint d)).
Definition interrupt_check : M t unit :=
  p ← gets pending; zoom lines (if p : bool then DeviceInt.assertInt irq else DeviceInt.deassertInt irq).
Definition update_status_reg : M t Z := gets (λ d, Z.lor (Z.lor (robits d) (rwbits d)) (ioint d)).
Definition update_control_reg (data : Z) : M t unit :=
  rwbits <~ Z.land data CSR_RW_BITS;; leds <~ Z.land data CSR_LEDS;; interrupt_check.
Definition fetch_word (offset mode client : Z) : M t Z := update_status_reg.
Definition store_word (offset data client : Z) : M t unit := update_control_reg data.
(** A line of the slots behind the register; [ioint] and [line] are bytes. *)
Definition assertInt (line : Z) : M t unit := modify (λ d, d <| ioint ::= λ i, Z.lor i line |>);; interrupt_check.
Definition deassertInt (line : Z) : M t unit := modify (λ d, d <| ioint ::= λ i, Z.land i (Z.lnot line) |>);; interrupt_check.

(** Whether the processor is interrupted. *)
Definition told (d : t) : bool := nz (Z.land (lines_asserted (lines d)) irq).
Definition connected (d : t) : Prop := nz (Z.land irq (lines_connected (lines d))) = true.

(** An interrupt is pending when a slot has asserted its line and the line is enabled. *)
Lemma pending_spec (d : t) (Hi : is_u8 (ioint d)) :
  pending d = true ↔ ∃ k, 0 ≤ k < 8 ∧ Z.testbit (rwbits d) (16 + k) = true ∧ Z.testbit (ioint d) k = true.
Proof.
  unfold pending, nz. set (w := Z.land _ (ioint d)).
  assert (Hw : ∀ k, 0 ≤ k → Z.testbit w k = (k <? 8) && (Z.testbit (rwbits d) (16 + k) && Z.testbit (ioint d) k)).
  { intros k Hk. unfold w. rewrite Z.land_spec, tb_shiftr, Z.land_spec by done.
    change CSR_IOINTEN with (Z.shiftl (Z.ones 8) 16). rewrite tb_mask by lia. replace (k + 16) with (16 + k) by lia.
    destruct (Z.leb_spec 16 (16 + k)), (Z.ltb_spec (16 + k) (16 + 8)), (Z.ltb_spec k 8); try lia; cbn [andb];
      by rewrite ?andb_true_r, ?andb_false_r. }
  destruct (Z.eqb_spec w 0) as [E|E]; cbn [negb]; split; try done.
  - intros (k & Hk & H1 & H2). specialize (Hw k ltac:(lia)). rewrite E, Z.bits_0, H1, H2 in Hw.
    by rewrite (proj2 (Z.ltb_lt k 8)) in Hw by lia.
  - intros _. destruct (decide (Exists (λ k, Z.testbit w k = true) (seqZ 0 8))) as [(k & Hk & Ht)%Exists_exists|Hn].
    + apply elem_of_seqZ in Hk. exists k. split; [lia|]. rewrite Hw in Ht by lia.
      apply andb_true_iff in Ht as [_ Ht]. by apply andb_true_iff in Ht.
    + exfalso. apply E, Z.bits_inj'. intros k Hk. rewrite Z.bits_0. destruct (Z.testbit w k) eqn:Ht; [|done].
      exfalso. apply Hn, Exists_exists. exists k. split; [|done]. apply elem_of_seqZ.
      destruct (Z.lt_ge_cases k 8); [lia|]. rewrite Hw, (proj2 (Z.ltb_ge k 8)) in Ht by lia. done.
Qed.

Lemma interrupt_check_told (d : t) : connected d →
  ∃ l, interrupt_check d = Some ((), d <| lines := l |>, []) ∧ lines_connected l = lines_connected (lines d) ∧
    told (d <| lines := l |>) = pending d.
Proof.
  unfold connected, interrupt_check, told, DeviceInt.assertInt, DeviceInt.deassertInt. intros Hc. rewrite gets_bind.
  destruct (pending d); munfold; rewrite Hc; (eexists; split; [reflexivity|]); (split; [done|]); cbn; unfold nz in *.
  - destruct (Z.eqb_spec (Z.land irq (lines_connected (lines d))) 0); [done|]. apply negb_true_iff, Z.eqb_neq. intros E.
    rewrite Z.land_lor_distr_l, Z.land_diag in E. apply Z.lor_eq_0_iff in E as [_ ->]. done.
  - apply negb_false_iff, Z.eqb_eq, Z.bits_inj'. intros i Hi. rewrite Z.bits_0, !Z.land_spec. unfold lnot32.
    rewrite u32_spec, tb_lnot by done. by destruct (Z.testbit (lines_asserted (lines d)) i), (i <? 32), (Z.testbit irq i).
Qed.

(** After every operation of the device that changes a line or an enable, the processor is
    interrupted exactly when an enabled line is asserted. *)
Lemma interrupts_follow (d : t) (Hc : connected d) :
  (∀ offset data client, ∃ d', store_word offset data client d = Some ((), d', []) ∧ connected d' ∧ told d' = pending d' ∧
     rwbits d' = Z.land data CSR_RW_BITS ∧ ioint d' = ioint d) ∧
  (∀ line, ∃ d', assertInt line d = Some ((), d', []) ∧ connected d' ∧ told d' = pending d' ∧
     rwbits d' = rwbits d ∧ ioint d' = Z.lor (ioint d) line) ∧
  (∀ line, ∃ d', deassertInt line d = Some ((), d', []) ∧ connected d' ∧ told d' = pending d' ∧
     rwbits d' = rwbits d ∧ ioint d' = Z.land (ioint d) (Z.lnot line)).
Proof.
  assert (H : ∀ d1, lines d1 = lines d → ∃ d', interrupt_check d1 = Some ((), d', []) ∧ connected d' ∧ told d' = pending d' ∧
    rwbits d' = rwbits d1 ∧ ioint d' = ioint d1).
  { intros d1 E. destruct (interrupt_check_told d1) as (l & E1 & E2 & E3); [unfold connected; by rewrite E|].
    exists (d1 <| lines := l |>). split; [done|]. split; [unfold connected; cbn; by rewrite E2, E|]. done. }
  split_and!.
  - intros offset data client. unfold store_word, update_control_reg.
    rewrite (bind_eq _ _ _ () (d <| rwbits := Z.land data CSR_RW_BITS |>)) by done.
    rewrite (bind_eq _ _ _ () (d <| rwbits := Z.land data CSR_RW_BITS |> <| leds := Z.land data CSR_LEDS |>)) by done.
    destruct (H (d <| rwbits := Z.land data CSR_RW_BITS |> <| leds := Z.land data CSR_LEDS |>)) as (d' & E); [done|].
    exists d'. exact E.
  - intros line. unfold assertInt. rewrite modify_bind.
    destruct (H (d <| ioint ::= λ i, Z.lor i line |>)) as (d' & E); [done|]. exists d'. exact E.
  - intros line. unfold deassertInt. rewrite modify_bind.
    destruct (H (d <| ioint ::= λ i, Z.land i (Z.lnot line) |>)) as (d' & E); [done|]. exists d'. exact E.
Qed.
End Device.

End DECCSR.
