(* ===== verification/DecRtc.v ===== *)
(** * DecRtc: the real-time clock of the DECstation (decrtc.h, decrtc.cc, decrtcreg.h)

    Sixty-four byte registers with write masks; the time registers are the host's date at
    the simulated time, and a periodic interrupt is raised by tasks on the clock. *)

From S2P Require Import Prelude Effects Types Interrupts Clock.
Import Clock.

(** ** [gmtime]: the date of a number of seconds after 1970 *)
Module Calendar.

Record tm := Tm { tm_sec : Z; tm_min : Z; tm_hour : Z; tm_wday : Z; tm_mon : Z; tm_year : Z }.
(** The years of a cycle of 400, which begin in March; day [doe] of the cycle. *)
Definition year_of_cycle (doe : Z) : Z := (doe - doe / 1460 + doe / 36524 - doe / 146096) / 365.
Definition day_of_year (doe : Z) : Z :=
  let y := year_of_cycle doe in doe - (365 * y + y / 4 - y / 100).
(** The month, January being 0. *)
Definition month_of_day (doy : Z) : Z := let mp := (5 * doy + 2) / 153 in if mp <? 10 then mp + 2 else mp - 10.
Definition gmtime (t : Z) : tm :=
  let days := t / 86400 in
  let z := days + 719468 in
  let mon := month_of_day (day_of_year (z mod 146097)) in
  let year := year_of_cycle (z mod 146097) + z / 146097 * 400 + if mon <=? 1 then 1 else 0 in
  Tm (t mod 60) (t / 60 mod 60) (t / 3600 mod 24) ((4 + days) mod 7) mon (year - 1900).

(** The last second of 1999, and the first of the leap day after. *)
Example end_of_1999 : gmtime 946684799 = Tm 59 59 23 5 11 99 ∧ gmtime 951782400 = Tm 0 0 0 2 1 100.
Proof. by vm_compute. Qed.

Lemma day_range doe : 0 ≤ doe < 146097 → 0 ≤ day_of_year doe < 366.
Proof. intros H. unfold day_of_year, year_of_cycle. Z.to_euclidean_division_equations; lia. Qed.
Lemma month_range doe : 0 ≤ doe < 146097 → 0 ≤ month_of_day (day_of_year doe) < 12.
Proof.
  intros H%day_range. unfold month_of_day. destruct (Z.ltb_spec ((5 * day_of_year doe + 2) / 153) 10);
    Z.to_euclidean_division_equations; lia.
Qed.
Lemma gmtime_range t : let d := gmtime t in
  0 ≤ tm_sec d < 60 ∧ 0 ≤ tm_min d < 60 ∧ 0 ≤ tm_hour d < 24 ∧ 0 ≤ tm_wday d < 7 ∧ 0 ≤ tm_mon d < 12.
Proof.
  cbn. split_and!; try (apply Z.mod_pos_bound; lia); apply month_range, Z.mod_pos_bound; lia.
Qed.

End Calendar.

Module DECRTC.
Import DeviceInt Calendar.

Definition int_freqs : list Z :=
  [0; 3906250; 7812500; 122070; 244141; 488281; 976562; 1953125; 3906250; 7812500; 15625000; 31250000; 62500000; 125000000;
   250000000; 500000000].
Definition RTC_SEC : Z := 0.
Definition RTC_MIN : Z := 2.
Definition RTC_HOUR : Z := 4.
Definition RTC_DOW : Z := 6.
Definition RTC_DAY : Z := 7.
Definition RTC_MON : Z := 8.
Definition RTC_YEAR : Z := 9.
Definition RTC_REGA : Z := 10.
Definition RTC_REGB : Z := 11.
Definition RTC_REGC : Z := 12.
Definition RTC_REGD : Z := 13.
Definition REGA_UIP : Z := 0x80.
Definition REGA_RSX : Z := 0x0f.
Definition REGB_PIE : Z := 0x40.

(** A pointer to a [ClockTrigger], which the constructor does not initialise. *)
Inductive pointer := Garbage | Null | At (k : Z).
Record t := Mk {
  lines : DeviceInt.t;                      (* the base class *)
  clock_trigger : pointer;
  rtc_reg : list Z;                         (* uint8[64] *)
  frequency_ns : Z;                         (* uint32 *)
  interrupt_enable : bool
}.
#[global] Instance eta : Eta t := λ d, Mk (lines d) (clock_trigger d) (rtc_reg d) (frequency_ns d) (interrupt_enable d).
(** [write_masks], which the constructor fills. *)
Definition write_mask (reg_no : Z) : Z :=
  if reg_no =? RTC_REGA then 0x7f else if reg_no =? RTC_REGB then 0xd7
  else if (reg_no =? RTC_REGC) || (reg_no =? RTC_REGD) then 0 else 0xff.

(** The device, the clock it points to, its triggers that were cancelled, and the address of
    the next one. *)
Record sys := MkSys { self : t; clock : Clock.t Z; cancelled : gset Z; next_trigger : Z }.
#[global] Instance sys_eta : Eta sys := λ s, MkSys (self s) (clock s) (cancelled s) (next_trigger s).
Notation M := (Effects.M sys).

Definition DECRTCDevice : t :=
  Mk DeviceInt Garbage (<[10%nat := 0x20]> (replicate 64 0)) 0 false.
Definition get_host_time : M tm := gets (λ s, gmtime (tv_sec (time (clock s)))).
Definition set_reg (reg_no v : Z) : M unit := zoom self (aset rtc_reg reg_no (u8 v)).
Definition update_host_time : M unit :=
  h ← get_host_time;
  set_reg RTC_SEC (tm_sec h);; set_reg RTC_MIN (tm_min h);; set_reg RTC_HOUR (tm_hour h);;
  set_reg RTC_DOW (1 + tm_wday h);; set_reg RTC_MON (1 + tm_mon h);; set_reg RTC_YEAR (Z.rem (tm_year h) 100).

Section Device.
  Variables (byteswapped : bool) (irq : Z).

Definition ready_clock : M unit :=
  d ← gets self;
  when (interrupt_enable d) (zoom self (zoom lines (assertInt irq)));;
  if 0 <? frequency_ns d then
    k ← gets next_trigger;
    next_trigger <~ k + 1;;
    zoom self (clock_trigger <~ At k);;
    zoom clock (add_deferred_task k (frequency_ns d))
  else zoom self (clock_trigger <~ Null).
Definition unready_clock : M unit := zoom self (zoom lines (deassertInt irq)).
(** [ClockTrigger::task] *)
Definition task (k : Z) : M unit :=
  n ← gets (λ s, bool_decide (k ∉ cancelled s)); CancelableTask.task n ready_clock.
(** [~DECRTCDevice]; a pointer that was never set is followed. *)
Definition destroy : M unit :=
  d ← gets self;
  match clock_trigger d with
  | Garbage => crash
  | Null => mret ()
  | At k => modify (λ s, s <| cancelled ::= λ c, {[k]} ∪ c |>)
  end.

(** The "update in progress" of the last two milliseconds of every second. *)
Definition update_in_progress : M unit :=
  c ← gets (λ s, time (clock s)); a ← zoom self (aget rtc_reg RTC_REGA);
  set_reg RTC_REGA (if 1000000000 <? tv_nsec c + (244 + 1948) * 1000 then Z.lor a REGA_UIP else Z.land a (Z.lnot REGA_UIP)).
Definition fetch_word (offset mode client : Z) : M Z :=
  let reg_no := offset / 4 in
  when (reg_no =? RTC_REGA) update_in_progress;;
  when (reg_no <? 10) update_host_time;;
  rv ← (if reg_no <? 64 then zoom self (aget rtc_reg reg_no) else mret 0);
  when (reg_no =? RTC_REGC) unready_clock;;
  mret (mips_to_host_word byteswapped rv).
(** What the write masks leave of a register. *)
Definition masked (reg_no old data : Z) : Z :=
  Z.lor (Z.land old (Z.lnot (write_mask reg_no))) (Z.land (u8 data) (write_mask reg_no)).
Definition store_word (offset odata client : Z) : M unit :=
  let data := host_to_mips_word byteswapped odata in
  b ← zoom self (aget rtc_reg RTC_REGB);
  let old_interrupt_enable := nz (Z.land b REGB_PIE) in
  let reg_no := offset / 4 in
  when (reg_no <? 64) (old ← zoom self (aget rtc_reg reg_no); set_reg reg_no (masked reg_no old data));;
  if reg_no =? RTC_REGA then
    a ← zoom self (aget rtc_reg RTC_REGA);
    f ← from_option (nthz int_freqs (Z.land a REGA_RSX));
    zoom self (frequency_ns <~ f)
  else if reg_no =? RTC_REGB then
    b ← zoom self (aget rtc_reg RTC_REGB);
    let new_interrupt_enable := nz (Z.land b REGB_PIE) in
    (if negb old_interrupt_enable && new_interrupt_enable then ready_clock
     else when (old_interrupt_enable && negb new_interrupt_enable) unready_clock);;
    zoom self (interrupt_enable <~ new_interrupt_enable)
  else mret ().

(** ** Properties *)

(** The registers are bytes, and the third and fourth of the control registers are never
    written. *)
Record wf (d : t) : Prop := {
  wf_length : length (rtc_reg d) = 64%nat;
  wf_bytes : Forall is_u8 (rtc_reg d);
  wf_flags : nthz (rtc_reg d) RTC_REGC = Some 0 ∧ nthz (rtc_reg d) RTC_REGD = Some 0;
  wf_frequency : 0 ≤ frequency_ns d
}.
Lemma wf_new : wf DECRTCDevice.
Proof. split; [done| |done|done]. apply Forall_insert; [apply Forall_replicate|]; unfold is_u; lia. Qed.

Section Queue.
  (** What is known of the clock's queue: a task can be deferred on it. *)
  Variable ok : list (DeferredTasks Z) → Prop.
  Hypothesis ok_insert : ∀ k ns l, ok l → 0 < ns → ∃ q, insert_task k ns l = Some q ∧ ok q.
Definition good (s : sys) : Prop := wf (self s) ∧ ok (deferred_tasks (clock s)).
(** What returns from a good state, in one. *)
Definition returns {A} (m : M A) (s : sys) (Q : A → sys → Prop) : Prop := ∃ a s', m s = Some (a, s', []) ∧ good s' ∧ Q a s'.
Lemma returns_bind {A B} (m : M A) (f : A → M B) s Q Q' :
  returns m s Q → (∀ a s', good s' → Q a s' → returns (f a) s' Q') → returns (bindM m f) s Q'.
Proof.
  intros (a & s1 & E & Hg & HQ) Hf. destruct (Hf a s1 Hg HQ) as (b & s2 & E2 & H2). exists b, s2.
  by rewrite (bind_eq _ _ _ _ _ E).
Qed.
Lemma returns_ret {A} (a : A) s (Q : A → sys → Prop) : good s → Q a s → returns (mret a) s Q.
Proof. intros. by exists a, s. Qed.
Lemma returns_mono {A} (m : M A) s (Q Q' : A → sys → Prop) : returns m s Q → (∀ a s', good s' → Q a s' → Q' a s') → returns m s Q'.
Proof. intros (a & s1 & E & Hg & HQ) H. exists a, s1. auto. Qed.

Definition with_regs (l : list Z) (s : sys) : sys := s <| self ::= λ d, d <| rtc_reg := l |> |>.
Definition reg (s : sys) (r : Z) : option Z := nthz (rtc_reg (self s)) r.
Lemma reg_Some s r : good s → 0 ≤ r < 64 → ∃ v, reg s r = Some v ∧ is_u8 v.
Proof.
  intros [[H1 H2 _ _] _] Hr. destruct (nthz_is_Some (rtc_reg (self s)) r) as [v Hv]; [lia|]. exists v. split; [done|].
  apply nthz_Some in Hv as [_ Hv]. by eapply Forall_lookup_1 in Hv.
Qed.
Lemma get_reg s r v : reg s r = Some v → zoom self (aget rtc_reg r) s = Some (v, s, []).
Proof. unfold reg. intros Hv. unfold zoom, aget. rewrite gets_bind, Hv. by destruct s. Qed.
(** A write; the flags are only written with zero. *)
Lemma set_reg_run s r v : good s → 0 ≤ r < 64 → (r = RTC_REGC ∨ r = RTC_REGD → u8 v = 0) →
  returns (set_reg r v) s (λ _ s', s' = with_regs (<[Z.to_nat r := u8 v]> (rtc_reg (self s))) s ∧
    ∀ r', reg s' r' = if r' =? r then Some (u8 v) else reg s r').
Proof.
  intros [[H1 H2 [H3 H4] H5] Hq] Hr Hz. set (l := <[_ := _]> _).
  assert (El : setz (rtc_reg (self s)) r (u8 v) = Some l) by (apply setz_Some; rewrite H1; lia).
  exists (), (with_regs l s). split.
  { unfold set_reg, zoom, aset. rewrite gets_bind, El. by destruct s. }
  assert (Hn : ∀ r', nthz l r' = if r' =? r then Some (u8 v) else nthz (rtc_reg (self s)) r') by (intros; by apply nthz_setz).
  split; [|split; [done|exact Hn]]. split; [|done]. split; cbn [self rtc_reg with_regs upd setter_of].
  - by rewrite (setz_length _ _ _ _ El).
  - apply Forall_insert; [done|]. apply u8_range.
  - rewrite !Hn. split; (case_match; [f_equal; apply Hz; lia|done]).
  - done.
Qed.

(** *** The date *)
Definition time_reg (h : tm) (r : Z) : option Z :=
  if r =? RTC_SEC then Some (tm_sec h) else if r =? RTC_MIN then Some (tm_min h) else if r =? RTC_HOUR then Some (tm_hour h)
  else if r =? RTC_DOW then Some (1 + tm_wday h) else if r =? RTC_MON then Some (1 + tm_mon h)
  else if r =? RTC_YEAR then Some (Z.rem (tm_year h) 100) else None.
Lemma update_host_time_run s : good s →
  returns update_host_time s (λ _ s', clock s' = clock s ∧
    ∀ r, reg s' r = match time_reg (gmtime (tv_sec (time (clock s)))) r with Some v => Some (u8 v) | None => reg s r end).
Proof.
  intros Hg. unfold update_host_time, get_host_time. unfold returns. setoid_rewrite gets_bind.
  set (h := gmtime _).
  assert (Hw : ∀ s r v, good s → 0 ≤ r < 10 → returns (set_reg r v) s (λ _ s', clock s' = clock s ∧
    ∀ r', reg s' r' = if r' =? r then Some (u8 v) else reg s r')).
  { intros s0 r v Hg0 Hr. eapply returns_mono; [apply set_reg_run; [done|lia|unfold RTC_REGC, RTC_REGD; lia]|].
    intros ? ? _ [-> H]. by split. }
  do 5 (eapply returns_bind; [apply Hw; [done|by vm_compute]|]; intros _ ? ? [? ?]).
  eapply returns_mono; [apply Hw; [done|by vm_compute]|]. intros _ s9 _ [Hc Hr]. split; [congruence|]. intros r.
  unfold time_reg. rewrite Hr.
  repeat match goal with H : ∀ r', reg ?s r' = _ |- context [reg ?s r] => rewrite (H r) end.
  repeat match goal with |- context [r =? ?k] => destruct (Z.eqb_spec r k) as [->|?] end; done.
Qed.

(** *** Ticks *)
Lemma ready_clock_run s : good s → ∃ s' adds, ready_clock s = Some ((), s', []) ∧ Deferred.delays adds ∧
  time (clock s') = time (clock s) ∧ Deferred.add_all adds (deferred_tasks (clock s)) = Some (deferred_tasks (clock s')) ∧
  good s' ∧ rtc_reg (self s') = rtc_reg (self s) ∧
  lines (self s') = (lines (self s)) <| lines_asserted ::= λ a,
     if interrupt_enable (self s) && nz (Z.land irq (lines_connected (lines (self s)))) then Z.lor a irq else a |> ∧
  adds = if 0 <? frequency_ns (self s) then [(next_trigger s, frequency_ns (self s))] else [].
Proof.
  intros [Hw Hq]. set (d1 := (self s) <| lines ::= λ l, l <| lines_asserted ::= λ a,
     if interrupt_enable (self s) && nz (Z.land irq (lines_connected l)) then Z.lor a irq else a |> |>).
  assert (Hw1 : ∀ p, wf (d1 <| clock_trigger := p |>)) by (intros p; destruct Hw; by split).
  assert (E1 : when (interrupt_enable (self s)) (zoom self (zoom lines (assertInt irq))) s = Some ((), s <| self := d1 |>, [])).
  { unfold d1, assertInt. destruct s as [[[c a] tr rr f ie] ck ca n]. munfold. cbn.
    destruct ie; cbn; [destruct (nz _)|]; done. }
  unfold ready_clock. rewrite gets_bind, (bind_eq _ _ _ _ _ E1).
  destruct (Z.ltb_spec 0 (frequency_ns (self s))) as [Hf|Hf].
  - destruct (ok_insert (next_trigger s) (frequency_ns (self s)) (deferred_tasks (clock s)) Hq Hf) as (q & Hi & Ha).
    exists (s <| self := d1 <| clock_trigger := At (next_trigger s) |> |> <| next_trigger := next_trigger s + 1 |>
      <| clock ::= λ c, c <| deferred_tasks := q |> |>), [(next_trigger s, frequency_ns (self s))].
    split.
    { unfold add_deferred_task, assert_that. destruct s as [d [c1 c2 c3 c4] ca n]. cbn in Hf, Hi.
      rewrite gets_bind. munfold. cbn. rewrite (proj2 (Z.ltb_lt _ _) Hf). cbn. by rewrite Hi. }
    split; [by repeat constructor|]. split; [done|]. split; [cbn [Deferred.add_all]; by rewrite Hi|].
    split; [split; [apply Hw1|exact Ha]|]. split; [done|]. split; [|done]. unfold d1. by destruct (self s) as [[]].
  - exists (s <| self := d1 <| clock_trigger := Null |> |>), []. split; [by destruct s|]. split; [constructor|]. split; [done|].
    split; [done|]. split; [split; [apply Hw1|exact Hq]|]. split; [done|]. split; [|done]. unfold d1. by destruct (self s) as [[]].
Qed.
Lemma unready_clock_run s : good s → returns unready_clock s (λ _ s', clock s' = clock s ∧ rtc_reg (self s') = rtc_reg (self s)).
Proof.
  intros [Hw Hq]. unfold unready_clock, deassertInt.
  destruct s as [[[c a] tr rr f ie] ck ca n]. unfold returns. munfold. cbn.
  destruct (nz _); eexists (), _; (split; [reflexivity|]); (split; [split; [destruct Hw; by split|exact Hq]|done]).
Qed.

(** *** The registers *)
Lemma fetch_word_run offset mode client s : good s → 0 ≤ offset →
  returns (fetch_word offset mode client) s (λ v s', clock s' = clock s ∧
    (∀ x, time_reg (gmtime (tv_sec (time (clock s)))) (offset / 4) = Some x → v = mips_to_host_word byteswapped (u8 x)) ∧
    (offset / 4 = RTC_REGC ∨ 64 ≤ offset / 4 → v = mips_to_host_word byteswapped 0)).
Proof.
  intros Hg Ho. assert (Hr : 0 ≤ offset / 4) by (apply Z.div_pos; lia). unfold fetch_word. generalize dependent (offset / 4).
  intros r Hr. set (h := gmtime _).
  eapply (returns_bind _ _ _ (λ _ s', clock s' = clock s)).
  { destruct (r =? RTC_REGA); cbn [when]; [|by apply returns_ret]. unfold update_in_progress.
    destruct (reg_Some s RTC_REGA Hg ltac:(by vm_compute)) as (a & Ha & _).
    unfold returns. setoid_rewrite gets_bind. setoid_rewrite (bind_eq _ _ _ _ _ (get_reg _ _ _ Ha)).
    eapply returns_mono; [apply set_reg_run; [done|by vm_compute|unfold RTC_REGA, RTC_REGC, RTC_REGD; lia]|].
    by intros _ ? _ [-> _]. }
  intros _ s1 Hg1 Hc1.
  eapply (returns_bind _ _ _ (λ _ s', clock s' = clock s ∧ ∀ x, time_reg h r = Some x → reg s' r = Some (u8 x))).
  { destruct (Z.ltb_spec r 10) as [H10|H10]; cbn [when].
    - eapply returns_mono; [by apply update_host_time_run|]. intros _ s2 _ [Hc2 H]. rewrite Hc1 in *. split; [done|].
      intros x Hx. by rewrite H; fold h; rewrite Hx.
    - apply returns_ret; [done|]. split; [done|]. intros x Hx. unfold time_reg in Hx.
      repeat case_match; unfold RTC_SEC, RTC_MIN, RTC_HOUR, RTC_DOW, RTC_MON, RTC_YEAR in *; try done; lia. }
  intros _ s2 Hg2 [Hc2 H2].
  eapply (returns_bind _ _ _ (λ v s', clock s' = clock s ∧ (∀ x, time_reg h r = Some x → v = u8 x) ∧ (r = RTC_REGC ∨ 64 ≤ r → v = 0))).
  { destruct (Z.ltb_spec r 64) as [H64|H64].
    - destruct (reg_Some s2 r Hg2 ltac:(lia)) as (v & Hv & _). exists v, s2. split; [by apply get_reg|]. split; [done|].
      split; [done|]. split; [intros x Hx; apply H2 in Hx; congruence|]. intros [->|H]; [|lia].
      destruct Hg2 as [[_ _ [E _] _] _]. unfold reg in Hv. congruence.
    - apply returns_ret; [done|]. split; [done|]. split; [|done]. intros x Hx. unfold time_reg in Hx.
      repeat case_match; unfold RTC_SEC, RTC_MIN, RTC_HOUR, RTC_DOW, RTC_MON, RTC_YEAR in *; try done; lia. }
  intros v s3 Hg3 (Hc3 & H3 & H3').
  eapply (returns_bind _ _ _ (λ _ s', clock s' = clock s)).
  { destruct (r =? RTC_REGC); cbn [when]; [|by apply returns_ret].
    eapply returns_mono; [by apply unready_clock_run|]. intros _ s4 _ [H _]. congruence. }
  intros _ s4 Hg4 Hc4. apply returns_ret; [done|]. split; [done|]. split; [intros x Hx|intros Hx]; f_equal; auto.
Qed.
Lemma masked_flags r old data : r = RTC_REGC ∨ r = RTC_REGD → old = 0 → u8 (masked r old data) = 0.
Proof. intros [->| ->] ->; unfold masked; cbn; by rewrite Z.land_0_r. Qed.
Lemma rate_frequency a : ∃ f, nthz int_freqs (Z.land a REGA_RSX) = Some f ∧ 0 ≤ f.
Proof.
  change REGA_RSX with (Z.ones 4). rewrite Z.land_ones by lia. pose proof (Z.mod_pos_bound a (2 ^ 4) ltac:(lia)) as H.
  destruct (nthz_is_Some int_freqs (a mod 2 ^ 4)) as [f Hf]; [exact H|]. exists f. split; [done|].
  apply nthz_Some in Hf as [_ Hf]. assert (Hp : Forall (λ f, 0 ≤ f) int_freqs) by (repeat constructor; done).
  by eapply Forall_lookup_1 in Hp.
Qed.
Lemma store_word_run offset odata client s : good s → 0 ≤ offset →
  returns (store_word offset odata client) s (λ _ s', time (clock s') = time (clock s) ∧
    ∀ r old, reg s r = Some old → reg s' r =
      Some (if r =? offset / 4 then u8 (masked r old (host_to_mips_word byteswapped odata)) else old)).
Proof.
  intros Hg Ho. assert (Hr : 0 ≤ offset / 4) by (apply Z.div_pos; lia). unfold store_word. generalize dependent (offset / 4).
  intros r Hr. set (data := host_to_mips_word _ _).
  destruct (reg_Some s RTC_REGB Hg ltac:(by vm_compute)) as (b0 & Hb0 & _).
  unfold returns at 1. setoid_rewrite (bind_eq _ _ _ _ _ (get_reg _ _ _ Hb0)). set (ie0 := nz (Z.land b0 REGB_PIE)).
  set (written := λ (s' : sys), ∀ r' old, reg s r' = Some old → reg s' r' = Some (if r' =? r then u8 (masked r' old data) else old)).
  eapply (returns_bind _ _ _ (λ _ s', clock s' = clock s ∧ written s')).
  { destruct (Z.ltb_spec r 64) as [H64|H64]; cbn [when].
    - destruct (reg_Some s r Hg ltac:(lia)) as (old & Hold & _).
      unfold returns. setoid_rewrite (bind_eq _ _ _ _ _ (get_reg _ _ _ Hold)).
      eapply returns_mono; [apply set_reg_run; [done|lia|]|].
      + intros HCD. apply masked_flags; [done|]. destruct Hg as [[_ _ [E1 E2] _] _]. unfold reg in Hold. destruct HCD as [->| ->]; congruence.
      + intros _ s1 _ [-> H]. split; [done|]. intros r' old' Hr'. rewrite H. destruct (Z.eqb_spec r' r) as [->|]; [congruence|done].
    - apply returns_ret; [done|]. split; [done|]. intros r' old' Hr'. destruct (Z.eqb_spec r' r) as [->|]; [|done].
      destruct Hg as [[Hl _ _ _] _]. unfold reg in Hr'. apply nthz_Some in Hr' as [? Hr']. rewrite Hl in *. lia. }
  intros _ s1 Hg1 [Hc1 H1].
  assert (Hw : ∀ s' : sys, rtc_reg (self s') = rtc_reg (self s1) → written s').
  { intros s' E r' old Hr'. unfold reg. rewrite E. by apply H1. }
  destruct (r =? RTC_REGA).
  { destruct (reg_Some s1 RTC_REGA Hg1 ltac:(by vm_compute)) as (a & Ha & _). destruct (rate_frequency a) as (f & Hf & Hf0).
    unfold returns. setoid_rewrite (bind_eq _ _ _ _ _ (get_reg _ _ _ Ha)). rewrite Hf. cbn [from_option]. setoid_rewrite ret_bind.
    eexists (), _. split; [reflexivity|]. split; [destruct Hg1 as [[] ?]; by split|]. split; [by rewrite Hc1|by apply Hw]. }
  destruct (r =? RTC_REGB); [|apply returns_ret; [done|]; split; [by rewrite Hc1|by apply Hw]].
  destruct (reg_Some s1 RTC_REGB Hg1 ltac:(by vm_compute)) as (b & Hb & _).
  unfold returns. setoid_rewrite (bind_eq _ _ _ _ _ (get_reg _ _ _ Hb)). set (ie := nz (Z.land b REGB_PIE)).
  eapply (returns_bind _ _ _ (λ _ s', time (clock s') = time (clock s) ∧ rtc_reg (self s') = rtc_reg (self s1))).
  { destruct (negb ie0 && ie).
    - destruct (ready_clock_run s1 Hg1) as (s2 & adds & E & _ & Ht & _ & Hg2 & Hreg & _). exists (), s2. by rewrite Ht, Hc1.
    - destruct (ie0 && negb ie); cbn [when]; [|apply returns_ret; [done|by rewrite Hc1]].
      eapply returns_mono; [by apply unready_clock_run|]. intros _ s2 _ [Hc2 H2]. by rewrite Hc2, Hc1. }
  intros _ s2 Hg2 [Hc2 H2]. eexists (), _. split; [reflexivity|]. split; [destruct Hg2 as [[] ?]; by split|].
  split; [done|]. by apply Hw.
Qed.
End Queue.

(** The clock's queue, as it is between its passes or in one. *)
Definition in_pass (l : list (DeferredTasks Z)) : Prop :=
  Deferred.wf l ∨ ∃ g l', l = g :: l' ∧ nanoseconds_left g ≤ 0 ∧ Deferred.wf l'.
Lemma wf_insert k ns l : Deferred.wf (T:=Z) l → 0 < ns → ∃ q, insert_task k ns l = Some q ∧ Deferred.wf q.
Proof. intros Hl Hns. destruct (Deferred.insert_task_eq k ns l Hl Hns) as (q & E & Hw & _). by exists q. Qed.
Lemma in_pass_insert k ns l : in_pass l → 0 < ns → ∃ q, insert_task k ns l = Some q ∧ in_pass q.
Proof.
  intros [Hl|(g & l' & -> & Hg & Hl)] Hns.
  - destruct (wf_insert k ns l Hl Hns) as (q & E & Hw). exists q. split; [done|by left].
  - rewrite Deferred.insert_task_due by done. destruct (wf_insert k (ns - nanoseconds_left g) l' Hl ltac:(lia)) as (q & -> & Hw).
    exists (g :: q). split; [done|]. right. by exists g, q.
Qed.

(** The clock may rely on the triggers, whatever registers were written in between. *)
#[local] Instance triggers_tick : Deferred.Tasks clock task (λ _ s, wf (self s)).
Proof.
  split; [by intros f []|done|done|]. intros k ks s g l Hw Hd Hg Hl. unfold task, CancelableTask.task.
  destruct (bool_decide (k ∉ cancelled s)) eqn:Hk.
  - destruct (ready_clock_run in_pass in_pass_insert s) as (s' & adds & E & H1 & H2 & H3 & H4 & _); [split; [done|right; by exists g, l]|].
    exists s', [], adds. rewrite gets_bind, Hk. cbn [when]. rewrite <- Hd. split; [done|]. split; [done|]. split; [done|].
    split; [done|apply H4].
  - exists s, [], []. rewrite gets_bind, Hk. cbn [when]. split; [done|]. split; [constructor|]. split; [done|].
    split; [by rewrite Hd|done].
Qed.

(** The real-time clock: whatever time passes and whichever word of the device is read or
    written, in any order, every call returns.  A time register reads as the date at the
    simulated time, in the ranges of the chip (the day of the month, which is not
    refreshed, is not among them); a write changes the bits of the mask of its own register
    and no other; and register C, which should say what the interrupt was, reads as zero
    always. *)
Theorem rtc_registers (s : sys) (Hw : wf (self s)) (Hq : Deferred.wf (deferred_tasks (clock s))) :
  let good := good (Deferred.wf (T := Z)) in
  let h := gmtime (tv_sec (time (clock s))) in
  (∀ ns, 0 < ns → ∃ s' e, increment_time clock task ns s = Some ((), s', e) ∧ good s') ∧
  ∀ offset, 0 ≤ offset →
    (∀ mode client, ∃ v s', fetch_word offset mode client s = Some (v, s', []) ∧ good s' ∧
       (∀ x, time_reg h (offset / 4) = Some x → v = mips_to_host_word byteswapped (u8 x)) ∧
       (offset / 4 = RTC_REGC ∨ 64 ≤ offset / 4 → v = mips_to_host_word byteswapped 0)) ∧
    (∀ odata client, ∃ s', store_word offset odata client s = Some ((), s', []) ∧ good s' ∧
       ∀ r old, reg s r = Some old → reg s' r =
         Some (if r =? offset / 4 then u8 (masked r old (host_to_mips_word byteswapped odata)) else old)).
Proof.
  intros good h. split.
  { intros ns Hns. destruct (Deferred.increment_runs clock task (λ _ s, wf (self s)) ns ns s Hq Hns Hw) as (s' & e & _ & E & Hq' & _ & _ & _ & _ & Hw').
    exists s', e. split; [done|by split]. }
  intros offset Ho. split.
  - intros mode client. destruct (fetch_word_run Deferred.wf offset mode client s) as (v & s' & E & Hg & _ & H); [by split|done|].
    by exists v, s'.
  - intros odata client. destruct (store_word_run Deferred.wf wf_insert offset odata client s) as ([] & s' & E & Hg & _ & H); [by split|done|].
    by exists s'.
Qed.
End Device.

(** Periodic interrupts that are disabled and enabled again before the trigger of the first
    time is due: both triggers go on, and defer themselves again. *)
Example enabled_twice :
  let s := MkSys (DECRTCDevice <| frequency_ns := 1000 |>) (Clock.Mk Z (TS 0 0) (TS (-1) 0) 0 []) ∅ 0 in
  let b := RTC_REGB * 4 in
  let queue m := match m s with Some (_, s', _) => Some (deferred_tasks (clock s')) | None => None end in
  queue (store_word false IRQ3 b REGB_PIE 0;; increment_time clock (task IRQ3) 500;;
         store_word false IRQ3 b 0 0;; store_word false IRQ3 b REGB_PIE 0;; increment_time clock (task IRQ3) 5000)%m =
  Some [MkGroup Z 1000 [2; 3]].
Proof. by vm_compute. Qed.

End DECRTC.
