(* ===== verification/DecSerial.v ===== *)
(** * DecSerial: the serial lines of the DECstation (decserial.h, decserial.cc,
      decserialreg.h)

    Four lines of the terminal controller behind five registers; the device interrupts
    through a line of the control and status register.  It is a client of the terminal
    controller, as the console of Spim.v is. *)

From S2P Require Import Prelude Effects Types Interrupts Clock Terminal TerminalInv TermClient BoardDev.
Import Clock TerminalController TermClient.

Module DECSerial.

Definition KEYBOARD_POLL_NS : Z := 100.
Definition KEYBOARD_REPOLL_NS : Z := 100.
Definition DISPLAY_READY_DELAY_NS : Z := 100.
Definition DZ_CSR : Z := 0x00.
Definition DZ_CSR_TRDY : Z := 0x8000.
Definition DZ_CSR_TIE : Z := 0x4000.
Definition DZ_CSR_TLINE : Z := 0x0300.
Definition DZ_CSR_RDONE : Z := 0x0080.
Definition DZ_CSR_RIE : Z := 0x0040.
Definition DZ_CSR_MSE : Z := 0x0020.
Definition DZ_CSR_CLR : Z := 0x0010.
Definition DZ_RBUF : Z := 0x08.
Definition DZ_RBUF_DVAL : Z := 0x8000.
Definition DZ_LPR : Z := 0x08.
Definition DZ_TCR : Z := 0x10.
Definition DZ_MSR : Z := 0x18.
Definition DZ_TDR : Z := 0x18.

(** What the device adds to the controller, and the CSR device of the machine.  [rbuf],
    [msr] and the two flags are not initialised. *)
Record t := Mk {
  csr : Z; rbuf : Z; lpr : Z; tcr : Z; msr : Z;                  (* uint32 *)
  keyboard_interrupt_enable : bool;
  display_interrupt_enable : bool;
  deccsr_device : DECCSR.t
}.
#[global] Instance eta : Eta t := λ d,
  Mk (csr d) (rbuf d) (lpr d) (tcr d) (msr d) (keyboard_interrupt_enable d) (display_interrupt_enable d) (deccsr_device d).

Definition TCR_LINE_ENABLED (Tcr Line : Z) : bool := nz (Z.land Tcr (Z.shiftl 1 Line)).
Definition CSR_TLINE (Line : Z) : Z := Z.shiftl (Z.land Line 0x03) 8.
Definition RBUF_RLINE (Line : Z) : Z := Z.shiftl (Z.land Line 0x03) 8.
Definition NUM_LINES : Z := 4.

Section Serial.
  Context {Hst : Type} {HH : Host.Host Hst}.
  Notation sys := (TerminalController.sys t Hst).
  Notation M := (Effects.M sys).
  (** The byte order of the machine and of its memory, the line of the device in the CSR
      and that of the CSR in the processor, and whether the machine has a CSR. *)
  Variables (bigendian byteswapped : bool) (deccsr_irq csr_irq : Z) (have_deccsr : bool).

Definition master_clear : M unit :=
  zoom dev (modify (λ d, d <| csr := 0 |> <| rbuf ::= λ r, Z.land r (Z.lnot DZ_RBUF_DVAL) |> <| lpr := 0 |> <| tcr := 0 |>)).
(** [DECSerialDevice::DECSerialDevice] on the clock [c]; [d] is what was in its memory. *)
Definition DECSerialDevice (c : Clock.t Task) (d : t) (h : Hst) (next : Z) : option sys :=
  match TerminalController KEYBOARD_POLL_NS KEYBOARD_REPOLL_NS DISPLAY_READY_DELAY_NS c d h next with
  | None => None
  | Some s => match master_clear s with Some (_, s, _) => Some s | None => None end
  end.

Definition assertCSRInt : M unit :=
  assert_that have_deccsr;; zoom dev (zoom deccsr_device (DECCSR.assertInt csr_irq deccsr_irq)).
Definition deassertCSRInt : M unit :=
  assert_that have_deccsr;; zoom dev (zoom deccsr_device (DECCSR.deassertInt csr_irq deccsr_irq)).

(** The tests of a line, on the state. *)
Definition line_is (s : sys) (line : Z) (f : LineState → bool) : bool :=
  connected (term s) line && match nthz (lines (term s)) line with Some l => f l | None => false end.
Definition receiver_done (s : sys) (line : Z) : bool := line_is s line (λ l, bool_decide (keyboard_state l = READY)).
Definition transmitter_ready (s : sys) (line : Z) : bool :=
  line_is s line (λ l, bool_decide (display_state l = READY)) && TCR_LINE_ENABLED (tcr (dev s)) line.
Definition keyboardInterruptReadyForLine (s : sys) (line : Z) : bool := keyboard_interrupt_enable (dev s) && receiver_done s line.
Definition displayInterruptReadyForLine (s : sys) (line : Z) : bool := display_interrupt_enable (dev s) && transmitter_ready s line.

Definition unready_display (line data : Z) : M unit :=
  TerminalController.unready_display DISPLAY_READY_DELAY_NS line data;; deassertCSRInt.
Definition ready_display (line : Z) : M unit :=
  TerminalController.ready_display line;; r ← gets (λ s, displayInterruptReadyForLine s line); when r assertCSRInt.
Definition unready_keyboard (line : Z) : M unit := TerminalController.unready_keyboard line;; deassertCSRInt.
Definition ready_keyboard (line : Z) : M unit :=
  TerminalController.ready_keyboard line;; r ← gets (λ s, keyboardInterruptReadyForLine s line); when r assertCSRInt.

(** The scan of the lines of a read of the CSR; one line after the other is or'ed into the
    line number. *)
Definition scan_line (s : sys) (csr line : Z) : Z :=
  let csr := if receiver_done s line then Z.lor csr DZ_CSR_RDONE else csr in
  if transmitter_ready s line then Z.lor (Z.lor csr DZ_CSR_TRDY) (CSR_TLINE line) else csr.
Definition fetch_csr : M Z :=
  s ← gets id;
  let c := Z.land (csr (dev s)) (Z.lnot (Z.lor (Z.lor DZ_CSR_RDONE DZ_CSR_TRDY) DZ_CSR_TLINE)) in
  let c := if nz (Z.land c DZ_CSR_MSE) then foldl (scan_line s) c (seqZ 0 NUM_LINES) else c in
  zoom dev (csr <~ c);; mret c.
(** The first line with a character, from [line] on, in [n] lines. *)
Fixpoint receive (n : nat) (line : Z) : M unit :=
  match n with
  | O => mret ()
  | S n =>
      r ← gets (λ s, receiver_done s line);
      if (r : bool) then
        unready_keyboard line;;
        l ← on_line line (gets id);
        zoom dev (rbuf <~ Z.lor (u32 (Z.lor (keyboard_char l) DZ_RBUF_DVAL)) (RBUF_RLINE line))
      else receive n (line + 1)
  end.
Definition fetch_rbuf : M Z :=
  zoom dev (modify (λ d, d <| rbuf ::= λ r, Z.land r (Z.lnot DZ_RBUF_DVAL) |>));;
  receive (Z.to_nat NUM_LINES) 0;;
  gets (λ s, rbuf (dev s)).
Definition fetch_word (offset mode client : Z) : M Z :=
  let k := Z.land offset 0x18 in
  rv ← (if k =? DZ_CSR then fetch_csr else if k =? DZ_RBUF then fetch_rbuf
        else if k =? DZ_TCR then gets (λ s, tcr (dev s)) else if k =? DZ_MSR then gets (λ s, msr (dev s)) else mret 0);
  mret (mips_to_host_word byteswapped (if bigendian then u32 (Z.shiftl rv 16) else rv)).

Definition store_csr (data16 : Z) : M unit :=
  zoom dev (csr <~ data16);;
  when (nz (Z.land data16 DZ_CSR_CLR)) master_clear;;
  zoom dev (modify (λ d, d <| display_interrupt_enable := nz (Z.land (csr d) DZ_CSR_TIE) |>
                           <| keyboard_interrupt_enable := nz (Z.land (csr d) DZ_CSR_RIE) |>)).
(** What is transmitted goes to the console's line, whatever the CSR selects. *)
Definition store_tdr (data16 : Z) : M unit :=
  c ← line_connected 3; when c (unready_display 3 (Z.land data16 0xff)).
Definition any_source_is_ready (s : sys) : bool :=
  existsb (λ line, displayInterruptReadyForLine s line || keyboardInterruptReadyForLine s line) (seqZ 0 NUM_LINES).
Definition check_interrupt : M unit :=
  s ← gets id;
  if negb (nz (Z.land (csr (dev s)) (Z.lor DZ_CSR_RIE DZ_CSR_TIE))) then deassertCSRInt
  else if any_source_is_ready s then assertCSRInt else deassertCSRInt.
Definition store_word (offset odata client : Z) : M unit :=
  let data := host_to_mips_word byteswapped odata in
  let data := if bigendian then Z.shiftr data 16 else data in
  let data16 := Z.land data 0x0ffff in
  let k := Z.land offset 0x18 in
  (if k =? DZ_CSR then store_csr data16
   else if k =? DZ_LPR then zoom dev (lpr <~ data16)
   else if k =? DZ_TCR then zoom dev (tcr <~ data16)
   else if k =? DZ_TDR then store_tdr data16 else mret ());;
  check_interrupt.

(** ** Properties *)
  Context {HHL : Host.Laws Hst}.
  Hypothesis csr_present : have_deccsr = true.
  Notation safe := (TerminalInv.safe 4).
  Notation keeps_safe := (TermClient.keeps_safe 4).
  (** A device with no task of its own: the last task of the controller's client is never
      deferred. *)
  Notation no_trigger := (_ ← new_task ClockTrigger 1; mret ())%m.
  Notation task := (TerminalController.task KEYBOARD_POLL_NS KEYBOARD_REPOLL_NS ready_keyboard ready_display no_trigger).

Lemma interrupt_check_total d : ∃ l, DECCSR.interrupt_check csr_irq d = Some ((), d <| DECCSR.lines := l |>, []).
Proof.
  unfold DECCSR.interrupt_check, DeviceInt.assertInt, DeviceInt.deassertInt. rewrite gets_bind. munfold.
  destruct (DECCSR.pending d); destruct (nz _); eexists; by destruct d as [[] ? ? ? ?].
Qed.
Lemma csr_dev (b : bool) : devs_only (if b then assertCSRInt else deassertCSRInt).
Proof.
  intros s. unfold assertCSRInt, deassertCSRInt, assert_that. rewrite csr_present. cbn [negb when].
  destruct b; rewrite ret_bind; unfold zoom, DECCSR.assertInt, DECCSR.deassertInt; rewrite modify_bind;
    match goal with |- context [DECCSR.interrupt_check _ ?d] => destruct (interrupt_check_total d) as (l & ->) end; by eexists.
Qed.
Lemma assert_csr_dev : devs_only assertCSRInt.
Proof. apply (csr_dev true). Qed.
Lemma deassert_csr_dev : devs_only deassertCSRInt.
Proof. apply (csr_dev false). Qed.
#[local] Instance serial_overrides : TerminalInv.Overrides 4 1 ready_keyboard ready_display no_trigger.
Proof.
  split.
  - intros i s s' _ E. unfold ready_keyboard. rewrite (bind_eq _ _ _ _ _ E), gets_bind. apply when_dev, assert_csr_dev.
  - intros i s s' _ E. unfold ready_display. rewrite (bind_eq _ _ _ _ _ E), gets_bind. apply when_dev, assert_csr_dev.
  - intros s s' n E. exists (dev s'). rewrite (bind_eq _ _ _ _ _ E). by rewrite devs_id.
Qed.

(** *** Interrupts *)
Definition wants (s : sys) : bool :=
  nz (Z.land (csr (dev s)) (Z.lor DZ_CSR_RIE DZ_CSR_TIE)) && any_source_is_ready s.
Definition with_csr (c : DECCSR.t) (s : sys) : sys := s <| dev ::= λ d, d <| deccsr_device := c |> |>.
Lemma check_interrupt_run (s : sys) : nz deccsr_irq = true →
  ∃ c, check_interrupt s = Some ((), with_csr c s, []) ∧ nz (Z.land (DECCSR.ioint c) deccsr_irq) = wants s.
Proof.
  intros Hirq. assert (E : check_interrupt s = (if wants s then assertCSRInt else deassertCSRInt) s).
  { unfold check_interrupt, wants. rewrite gets_bind. change (id s) with s. destruct (nz (Z.land _ _)); [|done]. cbn [negb andb]. by destruct (any_source_is_ready s). }
  rewrite E. unfold assertCSRInt, deassertCSRInt, assert_that. rewrite csr_present. cbn [negb when].
  destruct (wants s); rewrite ret_bind; unfold zoom, DECCSR.assertInt, DECCSR.deassertInt; rewrite modify_bind;
    match goal with |- context [DECCSR.interrupt_check _ ?d] => destruct (interrupt_check_total d) as (l & ->) end;
    (eexists; split; [by destruct s as [? [? ? ? ? ? ? ? []] ? ? ? ? ?]|]); cbn; unfold nz in *.
  - apply negb_true_iff, Z.eqb_neq. intros E2. rewrite Z.land_lor_distr_l, Z.land_diag in E2.
    apply Z.lor_eq_0_iff in E2 as [_ E2]. by rewrite E2 in Hirq.
  - apply negb_false_iff, Z.eqb_eq, Z.bits_inj'. intros i Hi. rewrite Z.bits_0, !Z.land_spec, Z.lnot_spec by done.
    by destruct (Z.testbit (DECCSR.ioint _) i), (Z.testbit deccsr_irq i).
Qed.

(** *** The registers *)
Lemma line_is_Some (s : sys) i f : safe s → 0 ≤ i < 4 → line_is s i f = true →
  ∃ l, nthz (lines (term s)) i = Some l ∧ tty_fd l ≠ -1 ∧ f l = true.
Proof.
  intros Hs Hi H. destruct (line_Some 4 ltac:(lia) s i Hs Hi) as (l & Hl & Hc). unfold line_is in H. rewrite Hl, Hc in H.
  apply andb_true_iff in H as [H1 H2]. exists l. split; [done|]. split; [|done]. by destruct (Z.eqb_spec (tty_fd l) (-1)).
Qed.
(** What reading a character changes. *)
Lemma keyboard_read (s s' : sys) i l : 0 ≤ i < 16 → nthz (lines (term s)) i = Some l → tty_fd l ≠ -1 → keyboard_state l = READY →
  TerminalController.unready_keyboard i s = Some ((), s', []) →
  dev s' = dev s ∧ ∀ j, nthz (lines (term s')) j =
    if j =? i then Some (l <| keyboard_state := UNREADY |> <| keyboard_repoll := None |>) else nthz (lines (term s)) j.
Proof.
  intros Hi Hl Hc Hk. unfold TerminalController.unready_keyboard. rewrite (TerminalInv.assert_connected _ i l) by done.
  rewrite (TerminalInv.assert_line_bind _ i l) by (done || by rewrite Hk). rewrite (TerminalInv.get_line i _ l) by done.
  destruct (keyboard_repoll l) as [n|]; [|done].
  set (s1 := s <| term ::= λ c, c <| unready_keyboards ::= λ u, {[tty_fd l]} ∪ u |> |>). rewrite (bind_eq _ _ _ () s1) by done.
  set (l1 := l <| keyboard_state := UNREADY |>).
  rewrite (TerminalInv.on_line_bind i _ _ l l1 () s1 Hl) by done.
  set (s2 := TerminalInv.set_line i l1 s1). set (s3 := s2 <| cancelled ::= λ c, {[n]} ∪ c |>).
  rewrite (bind_eq _ _ _ () s3) by done.
  assert (Hl3 : nthz (lines (term s3)) i = Some l1) by (by apply (TerminalInv.nthz_set_line i l l1 s1)).
  rewrite (TerminalInv.on_line_run i _ l1 (l1 <| keyboard_repoll := None |>) () s3 Hl3) by done. intros [= <-].
  split; [done|]. intros j. apply nthz_Some in Hl as [Hl _]. cbn [TerminalInv.set_line term lines s3 s2 s1 upd setter_of].
  rewrite list_insert_insert_eq. by apply TerminalInv.nthz_line_insert.
Qed.

(** The line that is read. *)
Fixpoint first_ready (s : sys) (n : nat) (line : Z) : option Z :=
  match n with O => None | S n => if receiver_done s line then Some line else first_ready s n (line + 1) end.
Definition received (line : Z) (l : LineState) : Z := Z.lor (u32 (Z.lor (keyboard_char l) DZ_RBUF_DVAL)) (RBUF_RLINE line).
Lemma receive_run n line (s : sys) : safe s → 0 ≤ line → line + Z.of_nat n ≤ 4 →
  ∃ s', receive n line s = Some ((), s', []) ∧ safe s' ∧
    match first_ready s n line with
    | None => s' = s
    | Some i => 0 ≤ i < 4 ∧ ∃ l, nthz (lines (term s)) i = Some l ∧ receiver_done s i = true ∧ rbuf (dev s') = received i l ∧
        ∀ j, receiver_done s' j = if j =? i then false else receiver_done s j
    end.
Proof.
  revert line. induction n as [|n IH]; intros line Hs H0 Hn; cbn [receive first_ready]; [by exists s|].
  unfold receive; fold receive. rewrite gets_bind. destruct (receiver_done s line) eqn:Hr; [|apply IH; [done|lia..]].
  destruct (line_is_Some s line _ Hs ltac:(lia) Hr) as (l & Hl & Hc & Hk%bool_decide_eq_true).
  destruct (TerminalInv.unready_keyboard_safe 4 s line l Hs Hl Hc Hk) as (s1 & E1 & Hs1).
  destruct (keyboard_read s s1 line l ltac:(lia) Hl Hc Hk E1) as [Hd1 Hl1].
  destruct (deassert_csr_dev s1) as [d2 E2].
  set (s2 := s1 <| dev := d2 |>) in *.
  rewrite (bind_eq _ _ _ () s2) by (unfold unready_keyboard; by rewrite (bind_eq _ _ _ _ _ E1)).
  assert (Hll : nthz (lines (term s2)) line = Some (l <| keyboard_state := UNREADY |> <| keyboard_repoll := None |>))
    by (change (term s2) with (term s1); by rewrite Hl1, Z.eqb_refl).
  rewrite (bind_eq _ _ _ _ _ (get_line_run s2 line _ Hll)). eexists. split; [reflexivity|]. split; [by apply (safe_dev 4 s2), safe_dev|]. split; [lia|].
  exists l. split; [done|]. split; [done|]. split; [done|]. intros j.
  unfold receiver_done, line_is, connected, line_of. cbn [term upd setter_of dev]. rewrite Hl1.
  destruct (Z.eqb_spec j line) as [->|]; [|done]. rewrite bool_decide_false by done. by rewrite andb_false_r.
Qed.
Lemma store_tdr_safe (s : sys) data16 : safe s → Host.takes_bytes (host s) → keeps_safe (store_tdr data16) s.
Proof.
  intros Hs Hh. destruct (line_Some 4 ltac:(lia) s 3 Hs ltac:(lia)) as (l & Hl & Hc). unfold store_tdr, line_connected, TermClient.keeps_safe.
  setoid_rewrite gets_bind. rewrite Hc. destruct (Z.eqb_spec (tty_fd l) (-1)) as [He|He]; cbn [negb when]; [by exists (), s|].
  apply keeps_safe_bind; [|intros; by apply keeps_safe_devs; [apply deassert_csr_dev|]].
  destruct (TerminalInv.unready_display_safe KEYBOARD_POLL_NS KEYBOARD_REPOLL_NS DISPLAY_READY_DELAY_NS 4 eq_refl eq_refl eq_refl 1
    eq_refl ready_keyboard ready_display no_trigger s 3 l (Z.land data16 0xff) Hs Hl He) as (s1 & E & Hs1);
    [unfold TerminalInv.displays; by rewrite Hh, orb_true_r|]. by exists (), s1.
Qed.

(** A word of the device as the processor sees it. *)
Definition as_read (v : Z) : Z := mips_to_host_word byteswapped (if bigendian then u32 (Z.shiftl v 16) else v).

Ltac register := repeat first [ done | apply store_tdr_safe | keeps_safe_step ].

(** The serial lines: whatever time passes and whichever register the machine reads or
    writes, in any order, while the host takes the bytes that are written, every call returns
    and no assertion fails.  After a write the
    device's interrupt line is asserted exactly when an interrupt is enabled and a line
    that it is enabled for is ready; a read of the receiver's buffer takes the character of
    the first line that has one, and leaves the other lines alone. *)
Theorem serial_lines (s : sys) (Hs : safe s) (Hh : Host.takes_bytes (host s)) (Hirq : nz deccsr_irq = true) :
  (∀ ns, 0 < ns → ∃ s' e, increment_time clock task ns s = Some ((), s', e) ∧ safe s') ∧
  (∀ offset odata client, ∃ s', store_word offset odata client s = Some ((), s', []) ∧ safe s' ∧
     nz (Z.land (DECCSR.ioint (deccsr_device (dev s'))) deccsr_irq) = wants s') ∧
  (∀ offset mode client, keeps_safe (fetch_word offset mode client) s) ∧
  ∃ s', fetch_word DZ_RBUF DATALOAD 0 s =
      Some (as_read match first_ready s 4 0 with
            | None => Z.land (rbuf (dev s)) (Z.lnot DZ_RBUF_DVAL)
            | Some i => default 0 (received i <$> nthz (lines (term s)) i)
            end, s', []) ∧
    ∀ j, receiver_done s' j = if bool_decide (first_ready s 4 0 = Some j) then false else receiver_done s j.
Proof.
  assert (Hread : ∃ s', fetch_rbuf s = Some (match first_ready s 4 0 with
            | None => Z.land (rbuf (dev s)) (Z.lnot DZ_RBUF_DVAL)
            | Some i => default 0 (received i <$> nthz (lines (term s)) i)
            end, s', []) ∧ safe s' ∧
    ∀ j, receiver_done s' j = if bool_decide (first_ready s 4 0 = Some j) then false else receiver_done s j).
  { unfold fetch_rbuf. set (s0 := s <| dev ::= λ d, d <| rbuf ::= λ r, Z.land r (Z.lnot DZ_RBUF_DVAL) |> |>).
    rewrite (bind_eq _ _ _ () s0) by done. assert (Hs0 : safe s0) by (by apply safe_dev).
    destruct (receive_run 4 0 s0 Hs0 ltac:(lia) ltac:(lia)) as (s1 & E & Hs1 & H).
    rewrite (bind_eq _ _ _ () s1) by exact E. change (first_ready s0 4 0) with (first_ready s 4 0) in H.
    destruct (first_ready s 4 0) as [i|].
    - destruct H as (Hi & l & Hl & Hr & Hv & Hrest). exists s1. change (term s0) with (term s) in Hl. rewrite Hl.
      split; [unfold gets; cbn; by rewrite Hv|]. split; [done|]. intros j. rewrite Hrest.
      destruct (Z.eqb_spec j i) as [->|Hj]; [by rewrite bool_decide_true|]. rewrite bool_decide_false by congruence. done.
    - subst s1. exists s0. split; [done|]. split; [done|]. intros j. done. }
  split_and!.
  - intros ns Hns. by apply (TerminalInv.increment_safe KEYBOARD_POLL_NS KEYBOARD_REPOLL_NS DISPLAY_READY_DELAY_NS 4 eq_refl eq_refl eq_refl 1 eq_refl ready_keyboard ready_display no_trigger).
  - intros offset odata client. unfold store_word. set (data16 := Z.land _ 0x0ffff).
    match goal with |- context [bindM ?m _] => assert (H : keeps_safe m s) end.
    { repeat case_match; unfold store_csr, master_clear; register. }
    destruct H as ([] & s1 & E & Hs1). destruct (check_interrupt_run s1 Hirq) as (c & Ec & Hw). exists (with_csr c s1).
    split; [by rewrite (bind_eq _ _ _ _ _ E)|]. split; [by apply safe_dev|]. exact Hw.
  - intros offset mode client. unfold fetch_word. apply keeps_safe_bind; [|intros; by apply keeps_safe_ret].
    destruct (_ =? _); [unfold fetch_csr; register|]. destruct (_ =? _); [|repeat case_match; register].
    destruct Hread as (s' & E & Hs' & _). by eexists _, s'.
  - destruct Hread as (s' & E & Hs' & H). exists s'. split; [|done]. unfold fetch_word. change (Z.land DZ_RBUF 0x18) with DZ_RBUF.
    cbn [DZ_RBUF DZ_CSR Z.eqb Pos.eqb]. by rewrite (bind_eq _ _ _ _ _ E).
Qed.
End Serial.

(** The fields of the receiver's buffer: what was typed, if it is an ASCII character; the
    character is signed, and another one overwrites the number of the line. *)
Lemma received_fields i l : 0 ≤ i < 4 → -128 ≤ keyboard_char l < 128 →
  Z.land (received i l) 0xff = u8 (keyboard_char l) ∧ Z.testbit (received i l) 15 = true ∧
  Z.land (Z.shiftr (received i l) 8) 3 = if keyboard_char l <? 0 then 3 else i.
Proof.
  intros Hi Hc. unfold received. generalize dependent (keyboard_char l). intros c Hc.
  assert (H : forallb (λ i, forallb (λ c, let r := Z.lor (u32 (Z.lor c DZ_RBUF_DVAL)) (RBUF_RLINE i) in
    (Z.land r 0xff =? u8 c) && Z.testbit r 15 && (Z.land (Z.shiftr r 8) 3 =? if c <? 0 then 3 else i)) (seqZ (-128) 256)) (seqZ 0 4) = true)
    by (by vm_compute).
  rewrite forallb_forall in H. specialize (H i). rewrite <- list_elem_of_In, elem_of_seqZ in H. specialize (H ltac:(lia)).
  rewrite forallb_forall in H. specialize (H c). rewrite <- list_elem_of_In, elem_of_seqZ in H. specialize (H ltac:(lia)).
  cbv zeta in H. apply andb_true_iff in H as [[H1%Z.eqb_eq H2]%andb_true_iff H3%Z.eqb_eq]. done.
Qed.

(** Two displays that may transmit, of the second and the third line: the line that the
    scan reports is the fourth. *)
Example scan_two_lines : Z.land (Z.shiftr (Z.lor (CSR_TLINE 1) (CSR_TLINE 2)) 8) 3 = 3.
Proof. done. Qed.

End DECSerial.
