(* ===== verification/CPZero.v ===== *)
(** * CPZero: the system control coprocessor and the TLB (cpzero.h, cpzero.cc,
      cpzeroreg.h, tlbentry.h)

    Exceptions go to the client as events; the pending interrupts of the
    interrupt controller, [intc->calculateIP()], are the argument [HwIP] (0 when
    there is no controller). *)

From S2P Require Import Prelude Effects Types.

Module CPZero.

(** ** cpzeroreg.h *)
Definition KSEG_SELECT_MASK : Z := 0xe0000000.
Definition KUSEG : Z := 0.
Definition KERNEL_SPACE_MASK : Z := 0x80000000.
Definition KSEG0 : Z := 0x80000000.
Definition KSEG0_CONST_TRANSLATION : Z := 0x80000000.
Definition KSEG1 : Z := 0xa0000000.
Definition KSEG1_CONST_TRANSLATION : Z := 0xa0000000.
Definition KSEG2 : Z := 0xc0000000.
Definition KSEG2_top : Z := 0xe0000000.

Definition Index : Z := 0.
Definition Random : Z := 1.
Definition EntryLo : Z := 2.
Definition Context : Z := 4.
Definition BadVAddr : Z := 8.
Definition EntryHi : Z := 10.
Definition Status : Z := 12.
Definition Cause : Z := 13.
Definition EPC : Z := 14.
Definition PRId : Z := 15.
Definition CPUID : Z := 20.

Definition Index_Index_MASK : Z := 0x00003f00.
Definition Index_MASK : Z := 0x80003f00.
Definition Random_Random_MASK : Z := 0x00003f00.
Definition Random_MASK : Z := 0x00003f00.
Definition Random_UPPER_BOUND : Z := 63.
Definition Random_LOWER_BOUND : Z := 8.
Definition EntryLo_PFN_MASK : Z := 0xfffff000.
Definition EntryLo_N_MASK : Z := 0x00000800.
Definition EntryLo_D_MASK : Z := 0x00000400.
Definition EntryLo_V_MASK : Z := 0x00000200.
Definition EntryLo_G_MASK : Z := 0x00000100.
Definition EntryLo_MASK : Z := 0xffffff00.
Definition Context_BadVPN_MASK : Z := 0x001ffffc.
Definition Context_MASK : Z := 0xfffffffc.
Definition BadVAddr_MASK : Z := 0xffffffff.
Definition EntryHi_VPN_MASK : Z := 0xfffff000.
Definition EntryHi_ASID_MASK : Z := 0x00000fc0.
Definition EntryHi_MASK : Z := 0xffffffc0.
Definition Status_CU3_MASK : Z := 0x80000000.
Definition Status_CU2_MASK : Z := 0x40000000.
Definition Status_CU1_MASK : Z := 0x20000000.
Definition Status_CU0_MASK : Z := 0x10000000.
Definition Status_DS_BEV_MASK : Z := 0x00400000.
Definition Status_DS_TS_MASK : Z := 0x00200000.
Definition Status_DS_SwC_MASK : Z := 0x00020000.
Definition Status_DS_IsC_MASK : Z := 0x00010000.
Definition Status_IM_MASK : Z := 0x0000ff00.
Definition Status_KU_IE_MASK : Z := 0x0000003f.
Definition Status_KUc_MASK : Z := 0x00000002.
Definition Status_IEc_MASK : Z := 0x00000001.
Definition Status_MASK : Z := 0xf27fff3f.
Definition Cause_BD_MASK : Z := 0x80000000.
Definition Cause_CE_MASK : Z := 0x30000000.
Definition Cause_IP_MASK : Z := 0x0000ff00.
Definition Cause_IP_Ext_MASK : Z := 0x0000fc00.
Definition Cause_IP_SW_MASK : Z := 0x00000300.
Definition Cause_ExcCode_MASK : Z := 0x0000007c.
Definition Cause_MASK : Z := 0xb000ff7c.
Definition EPC_MASK : Z := 0xffffffff.
Definition PRId_MASK : Z := 0x0000ffff.
Definition CPUID_MASK : Z := 0xffffffff.

(** The masks of the R4k and R6k registers that are 0 are written 0. *)
Definition read_masks : list Z := [
  Index_MASK; Random_MASK; EntryLo_MASK; 0; Context_MASK;
  0; 0; 0; BadVAddr_MASK; 0;
  EntryHi_MASK; 0; Status_MASK; Cause_MASK; EPC_MASK;
  PRId_MASK; 0; 0; 0; 0;
  CPUID_MASK; 0; 0; 0; 0; 0; 0; 0; 0; 0;
  0; 0 ].

Definition write_masks : list Z := [
  Index_MASK; 0; EntryLo_MASK; 0; Z.land Context_MASK (lnot32 Context_BadVPN_MASK);
  0; 0; 0; 0; 0;
  EntryHi_MASK; 0; Status_MASK;
  Z.land Cause_MASK (lnot32 Cause_IP_Ext_MASK); 0; 0; 0; 0;
  0; 0; 0; 0; 0; 0; 0; 0; 0;
  0; 0; 0; 0; 0 ].

(** ** tlbentry.h *)
Record TLBEntry := MkTLB { entryHi : Z; entryLo : Z }.

Definition vpn (e : TLBEntry) : Z := Z.land (entryHi e) EntryHi_VPN_MASK.
Definition asid (e : TLBEntry) : Z := u16 (Z.land (entryHi e) EntryHi_ASID_MASK).
Definition pfn (e : TLBEntry) : Z := Z.land (entryLo e) EntryLo_PFN_MASK.
Definition noncacheable (e : TLBEntry) : bool := nz (Z.land (entryLo e) EntryLo_N_MASK).
Definition tlb_dirty (e : TLBEntry) : bool := nz (Z.land (entryLo e) EntryLo_D_MASK).
Definition tlb_valid (e : TLBEntry) : bool := nz (Z.land (entryLo e) EntryLo_V_MASK).
Definition global_ (e : TLBEntry) : bool := nz (Z.land (entryLo e) EntryLo_G_MASK).

(** ** cpzero.h *)
Definition TLB_ENTRIES : Z := 64.

(** The constructor does not initialise [reg] nor [tlb]: their first contents are
    the allocator's. *)
Record t := Mk {
  tlb : list TLBEntry;         (* TLBEntry[64] *)
  reg : list Z;                (* uint32[32] *)
  cpuid : Z;                   (* int *)
  tlb_miss_user : bool
}.
#[global] Instance eta : Eta t := λ c, Mk (tlb c) (reg c) (cpuid c) (tlb_miss_user c).

(** [reg[r]]; the indices are 5-bit fields or constants. *)
Definition rget (l : list Z) (r : Z) : Z := nth (Z.to_nat r) l 0.
Definition rset (r v : Z) (l : list Z) : list Z := <[Z.to_nat r := v]> l.
Definition get (r : Z) : M t Z := gets (λ c, rget (reg c) r).
Definition put (r v : Z) : M t unit := modify (λ c, c <| reg ::= rset r v |>).

Definition reset : M t unit :=
  cause ← get Cause;
  put Cause (Z.land cause (lnot32 Cause_IP_MASK));;
  put Random (Z.shiftl Random_UPPER_BOUND 8);;
  status ← get Status;
  put Status
    (Z.land (Z.lor status Status_DS_BEV_MASK)
       (lnot32 (Z.lor (Z.lor (Z.lor Status_KUc_MASK Status_IEc_MASK) Status_DS_SwC_MASK)
                      Status_DS_TS_MASK)));;
  put PRId 0x00000230;;
  id_ ← gets cpuid;
  put CPUID (u32 id_).

Definition kernel_mode (c : t) : bool := negb (nz (Z.land (rget (reg c) Status) Status_KUc_MASK)).

Definition load_addr_trans_excp_info (va : Z) : M t unit :=
  put BadVAddr va;;
  ctx ← get Context;
  put Context (Z.lor (Z.land ctx (lnot32 Context_BadVPN_MASK))
                     (Z.shiftr (Z.land va 0x7ffff000) 10));;
  hi ← get EntryHi;
  put EntryHi (Z.lor (Z.land va EntryHi_VPN_MASK) (Z.land hi (lnot32 EntryHi_VPN_MASK))).

(** [find_matching_tlb_entry]: the first entry that matches, -1 if none. *)
Definition tlb_matches (vp asid_ : Z) (e : TLBEntry) : bool :=
  (vpn e =? vp) && (global_ e || (asid e =? asid_)).

Fixpoint find_tlb (vp asid_ : Z) (x : Z) (l : list TLBEntry) : Z :=
  match l with
  | [] => -1
  | e :: l => if tlb_matches vp asid_ e then x else find_tlb vp asid_ (x + 1) l
  end.

Definition find_matching_tlb_entry (c : t) (vp asid_ : Z) : Z := find_tlb vp asid_ 0 (tlb c).

(** The entry [tlb_translate] and [tlbp_emulate] look up for an address. *)
Definition match_of (c : t) (vaddr : Z) : option TLBEntry :=
  let asid_ := Z.land (rget (reg c) EntryHi) EntryHi_ASID_MASK in
  let index := find_matching_tlb_entry c (Z.land vaddr EntryHi_VPN_MASK) asid_ in
  if index =? -1 then None else nthz (tlb c) index.

(** The physical address, and [*cacheable] when the source writes it. *)
Definition tlb_translate (seg vaddr mode client : Z) : M t (Z * option bool) :=
  m ← gets (λ c, match_of c vaddr);
  tlb_miss_user <~ false;;
  let miss :=
    tlb_miss_user <~ ((seg =? KUSEG) && bool_decide (m = None));;
    load_addr_trans_excp_info vaddr;;
    raise client (if mode =? DATASTORE then TLBS else TLBL) mode (-1);;
    mret (0xffffffff, None) in
  match m with
  | Some e =>
      if tlb_valid e then
        if (mode =? DATASTORE) && negb (tlb_dirty e) then
          load_addr_trans_excp_info vaddr;;
          raise client Mod DATASTORE (-1);;
          mret (0xffffffff, None)
        else
          mret (Z.lor (pfn e) (Z.land vaddr (lnot32 EntryHi_VPN_MASK)),
                Some (negb (noncacheable e)))
      else miss
  | None => miss
  end.

Definition address_trans (vaddr mode client : Z) : M t (Z * option bool) :=
  k ← gets kernel_mode;
  if (k : bool) then
    let seg := Z.land vaddr KSEG_SELECT_MASK in
    if seg =? KSEG0 then mret (vaddr, Some true)
    else if seg =? KSEG1 then mret (vaddr, Some false)
    else if (seg =? KSEG2) || (seg =? KSEG2_top) then tlb_translate KSEG2 vaddr mode client
    else tlb_translate KUSEG vaddr mode client
  else if nz (Z.land vaddr KERNEL_SPACE_MASK) then
    raise client (if mode =? DATASTORE then AdES else AdEL) mode (-1);;
    mret (0xffffffff, None)
  else tlb_translate KUSEG vaddr mode client.

Definition getIP (HwIP : Z) (c : t) : Z :=
  Z.lor (Z.land (rget (reg c) Cause) Cause_IP_SW_MASK) HwIP.

Definition read_reg (HwIP r : Z) : M t Z :=
  (if r =? Cause then
     ip ← gets (getIP HwIP);
     cause ← get Cause;
     put Cause (Z.lor (Z.land cause (lnot32 Cause_IP_MASK)) ip)
   else mret ());;
  v ← get r;
  mret (Z.land v (rget read_masks r)).

Definition write_reg (r data : Z) : M t unit :=
  v ← get r;
  put r (Z.lor (Z.land v (Z.land (rget read_masks r) (lnot32 (rget write_masks r))))
               (Z.land data (rget write_masks r))).

Definition cpCond : bool := true.

Definition tlbr_emulate : M t unit :=
  idx ← get Index;
  e ← aget tlb (Z.shiftr (Z.land idx Index_Index_MASK) 8);
  put EntryHi (Z.land (entryHi e) (rget write_masks EntryHi));;
  idx ← get Index;
  e ← aget tlb (Z.shiftr (Z.land idx Index_Index_MASK) 8);
  put EntryLo (Z.land (entryLo e) (rget write_masks EntryLo)).

Definition tlb_write (HwIP index : Z) : M t unit :=
  hi ← read_reg HwIP EntryHi;
  lo ← read_reg HwIP EntryLo;
  aset tlb index (MkTLB hi lo).

Definition tlbwi_emulate (HwIP : Z) : M t unit :=
  idx ← get Index; tlb_write HwIP (Z.shiftr (Z.land idx Index_Index_MASK) 8).

Definition tlbwr_emulate (HwIP : Z) : M t unit :=
  rnd ← get Random; tlb_write HwIP (Z.shiftr (Z.land rnd Random_Random_MASK) 8).

Definition tlbp_emulate : M t unit :=
  hi ← get EntryHi;
  c ← gets id;
  let idx := find_matching_tlb_entry c (Z.land hi EntryHi_VPN_MASK)
               (Z.land hi EntryHi_ASID_MASK) in
  put Index (if negb (idx =? -1) then u32 (Z.shiftl idx 8) else 0x80000000).

Definition rfe_emulate : M t unit :=
  s ← get Status;
  put Status (Z.lor (Z.land s 0xfffffff0) (Z.land (Z.shiftr s 2) 0x0f)).

(** [%] is the remainder that truncates. *)
Definition adjust_random : M t unit :=
  rnd ← get Random;
  let r := s32 (Z.shiftr rnd 8) in
  let r := - (Z.rem (Random_UPPER_BOUND - r + 1) (Random_UPPER_BOUND - Random_LOWER_BOUND + 1)
              - Random_UPPER_BOUND) in
  put Random (u32 (Z.shiftl r 8)).

Definition enter_exception (HwIP pc excCode ce : Z) (dly : bool) : M t unit :=
  put EPC pc;;
  s ← get Status;
  put Status (Z.lor (Z.land s (lnot32 Status_KU_IE_MASK))
                    (Z.shiftl (Z.land s Status_KU_IE_MASK) 2));;
  c ← get Cause;
  put Cause (Z.land c (lnot32 (Z.lor (Z.lor Cause_BD_MASK Cause_CE_MASK) Cause_ExcCode_MASK)));;
  when (excCode =? CpU)
    (c ← get Cause; put Cause (Z.lor c (Z.shiftl (Z.land ce 0x3) 28)));;
  c ← get Cause;
  put Cause (Z.land c (lnot32 Cause_IP_MASK));;
  ip ← gets (getIP HwIP);
  c ← get Cause;
  put Cause (Z.lor c (Z.lor (Z.lor ip (Z.shiftl (b2z dly) 31)) (u32 (Z.shiftl excCode 2)))).

Definition use_boot_excp_address (c : t) : bool :=
  nz (Z.land (rget (reg c) Status) Status_DS_BEV_MASK).
Definition caches_isolated (c : t) : bool :=
  nz (Z.land (rget (reg c) Status) Status_DS_IsC_MASK).
Definition caches_swapped (c : t) : bool :=
  nz (Z.land (rget (reg c) Status) Status_DS_SwC_MASK).

(** [fatal_error] for another coprocessor. *)
Definition cop_usable (coprocno : Z) : M t bool :=
  s ← get Status;
  match coprocno with
  | 3 => mret (nz (Z.land s Status_CU3_MASK))
  | 2 => mret (nz (Z.land s Status_CU2_MASK))
  | 1 => mret (nz (Z.land s Status_CU1_MASK))
  | 0 => mret (nz (Z.land s Status_CU0_MASK))
  | _ => crash
  end.

Definition interrupts_enabled (c : t) : bool :=
  nz (Z.land (rget (reg c) Status) Status_IEc_MASK).

Definition interrupt_pending (HwIP : Z) (c : t) : bool :=
  if negb (interrupts_enabled c) then false
  else nz (Z.land (getIP HwIP c) (Z.land (rget (reg c) Status) Status_IM_MASK)).

Definition read_debug_info (c : t) : Z * Z * Z :=
  (rget (reg c) Status, rget (reg c) BadVAddr, rget (reg c) Cause).

Definition write_debug_info (status bad cause : Z) : M t unit :=
  put Status status;; put BadVAddr bad;; put Cause cause.

(** [debug_tlb_translate]: whether a mapping was found, and [*paddr]. *)
Definition debug_tlb_translate (c : t) (vaddr : Z) : bool * Z :=
  if negb (kernel_mode c) && nz (Z.land vaddr KERNEL_SPACE_MASK) then (false, 0xffffffff)
  else if kernel_mode c && (Z.land vaddr KSEG_SELECT_MASK =? KSEG0)
  then (true, u32 (vaddr - KSEG0_CONST_TRANSLATION))
  else if kernel_mode c && (Z.land vaddr KSEG_SELECT_MASK =? KSEG1)
  then (true, u32 (vaddr - KSEG1_CONST_TRANSLATION))
  else
    match match_of c vaddr with
    | Some e =>
        if negb (tlb_valid e) then (false, 0xffffffff)
        else (true, Z.lor (pfn e) (Z.land vaddr (lnot32 EntryHi_VPN_MASK)))
    | None => (false, 0xffffffff)
    end.

(** ** Well-formed states *)

Record wf (c : t) : Prop := {
  wf_tlb : length (tlb c) = 64%nat;
  wf_len : length (reg c) = 32%nat;
  wf_reg : ∀ r, is_u32 (rget (reg c) r)
}.

Lemma rget_rset l r v r' : 0 ≤ r → 0 ≤ r' → (Z.to_nat r < length l)%nat →
  rget (rset r v l) r' = if r' =? r then v else rget l r'.
Proof.
  intros Hr Hr' Hlen. unfold rget, rset. destruct (Z.eqb_spec r' r) as [->|Hne].
  - rewrite nth_lookup, list_lookup_insert_eq by done. done.
  - rewrite !nth_lookup, list_lookup_insert_ne by lia. done.
Qed.

Lemma length_rset l r v : length (rset r v l) = length l.
Proof. apply length_insert. Qed.

Lemma wf_put c r v : wf c → 0 ≤ r < 32 → is_u32 v → wf (c <| reg := rset r v (reg c) |>).
Proof.
  intros [H1 H2 H3] Hr Hv. split; simpl; [done|by rewrite length_rset|].
  intros r'. destruct (decide (0 ≤ r')).
  - rewrite rget_rset by lia. by destruct (_ =? _).
  - unfold rget, rset. destruct (Z.to_nat r') eqn:E; [|lia].
    change (is_u32 (rget (rset r v (reg c)) 0)). rewrite rget_rset by lia.
    destruct (_ =? _); [done|]. apply H3.
Qed.

Lemma rget_eq l r v : length l = 32%nat → 0 ≤ r < 32 → rget (rset r v l) r = v.
Proof. intros Hl Hr. rewrite rget_rset by lia. by rewrite Z.eqb_refl. Qed.

Lemma rget_ne l r v r' : 0 ≤ r → 0 ≤ r' → r' ≠ r → rget (rset r v l) r' = rget l r'.
Proof.
  intros Hr Hr' Hne. unfold rget, rset. rewrite !nth_lookup, list_lookup_insert_ne by lia. done.
Qed.

(** Reading one register after writing others: the indices are constants. *)
Ltac reg_side :=
  first [ by rewrite ?length_rset | done | vm_compute; split; congruence
        | vm_compute; congruence | lia ].
Ltac rget_simpl := repeat first [rewrite rget_eq by reg_side | rewrite rget_ne by reg_side].

Lemma enter_exception_eq HwIP pc excCode ce dly c :
  enter_exception HwIP pc excCode ce dly c =
  let r0 := rset EPC pc (reg c) in
  let r1 := rset Status (Z.lor (Z.land (rget r0 Status) (lnot32 Status_KU_IE_MASK))
                          (Z.shiftl (Z.land (rget r0 Status) Status_KU_IE_MASK) 2)) r0 in
  let r2 := rset Cause (Z.land (rget r1 Cause)
              (lnot32 (Z.lor (Z.lor Cause_BD_MASK Cause_CE_MASK) Cause_ExcCode_MASK))) r1 in
  let r3 := if excCode =? CpU
            then rset Cause (Z.lor (rget r2 Cause) (Z.shiftl (Z.land ce 0x3) 28)) r2 else r2 in
  let r4 := rset Cause (Z.land (rget r3 Cause) (lnot32 Cause_IP_MASK)) r3 in
  Some ((), c <| reg := rset Cause (Z.lor (rget r4 Cause)
    (Z.lor (Z.lor (Z.lor (Z.land (rget r4 Cause) Cause_IP_SW_MASK) HwIP)
                  (Z.shiftl (b2z dly) 31)) (u32 (Z.shiftl excCode 2)))) r4 |>, []).
Proof. unfold enter_exception. destruct (excCode =? CpU); reflexivity. Qed.

Lemma rfe_eq c : rfe_emulate c =
  Some ((), c <| reg := rset Status (Z.lor (Z.land (rget (reg c) Status) 0xfffffff0)
                    (Z.land (Z.shiftr (rget (reg c) Status) 2) 0x0f)) (reg c) |>, []).
Proof. reflexivity. Qed.

Lemma nz_land_bit a k : 0 ≤ k → nz (Z.land a (2 ^ k)) = Z.testbit a k.
Proof.
  intros Hk. unfold nz. destruct (Z.eqb_spec (Z.land a (2 ^ k)) 0) as [E|E]; simpl.
  - assert (Hb : Z.testbit (Z.land a (2 ^ k)) k = false) by (rewrite E; apply Z.bits_0).
    rewrite Z.land_spec, Z.pow2_bits_true, andb_true_r in Hb by done. done.
  - destruct (Z.testbit a k) eqn:Hb; [done|]. destruct E. apply Z.bits_inj'. intros n Hn.
    rewrite Z.land_spec, Z.bits_0, Z.pow2_bits_eqb by done.
    destruct (Z.eqb_spec k n) as [<-|]; [by rewrite Hb|by rewrite andb_false_r].
Qed.

(** The Status and Cause registers that exception entry leaves. *)
Lemma enter_exception_regs HwIP pc excCode ce dly c : wf c →
  ∃ c', enter_exception HwIP pc excCode ce dly c = Some ((), c', []) ∧
    tlb c' = tlb c ∧ cpuid c' = cpuid c ∧ length (reg c') = 32%nat ∧
    rget (reg c') EPC = pc ∧
    rget (reg c') Status =
      Z.lor (Z.land (rget (reg c) Status) (lnot32 Status_KU_IE_MASK))
            (Z.shiftl (Z.land (rget (reg c) Status) Status_KU_IE_MASK) 2) ∧
    (let k := Z.land (rget (reg c) Cause)
                (lnot32 (Z.lor (Z.lor Cause_BD_MASK Cause_CE_MASK) Cause_ExcCode_MASK)) in
     let k := if excCode =? CpU then Z.lor k (Z.shiftl (Z.land ce 0x3) 28) else k in
     let k := Z.land k (lnot32 Cause_IP_MASK) in
     rget (reg c') Cause =
       Z.lor k (Z.lor (Z.lor (Z.lor (Z.land k Cause_IP_SW_MASK) HwIP) (Z.shiftl (b2z dly) 31))
                      (u32 (Z.shiftl excCode 2)))) ∧
    (∀ r, 0 ≤ r → r ≠ EPC → r ≠ Status → r ≠ Cause → rget (reg c') r = rget (reg c) r).
Proof.
  intros [H1 H2 H3]. eexists. split; [apply enter_exception_eq|].
  cbn [tlb cpuid reg upd setter_of].
  split; [done|]. split; [done|].
  split; [by destruct (excCode =? CpU); rewrite !length_rset|].
  split; [by destruct (excCode =? CpU); rget_simpl|].
  split; [by destruct (excCode =? CpU); rget_simpl|].
  split; [by destruct (excCode =? CpU); rget_simpl|].
  intros r Hr R1 R2 R3. destruct (excCode =? CpU); by rget_simpl.
Qed.

(** ** Properties *)

(** C25 exception entry and return: entry saves the address in EPC, enters
    kernel mode with interrupts disabled, and describes the exception in Cause
    (code, branch delay, coprocessor of an unusable one); the return restores
    the kernel/user and interrupt bits of before, and neither changes the
    other Status bits from 8 up, nor the other registers. *)
Theorem exception_entry_return (c : t) (h pc excCode ce : Z) (dly : bool) (Hwf : wf c)
    (Hcode : 0 ≤ excCode < 32) :
  ∃ c1 c2, enter_exception (Z.land h Cause_IP_MASK) pc excCode ce dly c = Some ((), c1, []) ∧
    rfe_emulate c1 = Some ((), c2, []) ∧
    rget (reg c1) EPC = pc ∧ kernel_mode c1 = true ∧ interrupts_enabled c1 = false ∧
    Z.land (rget (reg c1) Cause) Cause_ExcCode_MASK = Z.shiftl excCode 2 ∧
    Z.testbit (rget (reg c1) Cause) 31 = dly ∧
    Z.land (rget (reg c1) Cause) Cause_CE_MASK =
      (if excCode =? CpU then Z.shiftl (Z.land ce 3) 28 else 0) ∧
    Z.land (rget (reg c2) Status) 0x0f = Z.land (rget (reg c) Status) 0x0f ∧
    Z.shiftr (rget (reg c2) Status) 8 = Z.shiftr (rget (reg c) Status) 8 ∧
    (∀ r, 0 ≤ r → r ≠ EPC → r ≠ Status → r ≠ Cause → rget (reg c2) r = rget (reg c) r).
Proof.
  destruct (enter_exception_regs (Z.land h Cause_IP_MASK) pc excCode ce dly c Hwf)
    as (c1 & E & Ht & Hi & Hl & Hepc & Hs & Hc & Ho). cbv zeta in Hc.
  pose proof (wf_reg c Hwf Status) as Hs32.
  eexists c1, _. split; [done|]. split; [apply rfe_eq|]. split; [done|].
  unfold kernel_mode, interrupts_enabled.
  change Status_KUc_MASK with (2 ^ 1). change Status_IEc_MASK with (2 ^ 0).
  rewrite !nz_land_bit, Hs, Hc by lia.
  assert (Hc5 : is_u 5 excCode) by exact Hcode.
  cbn [reg upd setter_of]. unfold lnot32, Status_KU_IE_MASK, Cause_ExcCode_MASK, Cause_IP_MASK,
    Cause_BD_MASK, Cause_CE_MASK, Cause_IP_SW_MASK, CpU in *.
  split; [repeat bit_step; done|]. split; [repeat bit_step; done|].
  split; [|split; [|split; [|split; [|split]]]].
  - destruct (excCode =? 11), dly; cbn [b2z]; bitblast i.
  - destruct (excCode =? 11), dly; cbn [b2z]; repeat bit_step; repeat bit_high; done.
  - destruct (excCode =? 11), dly; cbn [b2z]; bitblast i.
  - rget_simpl. bitblast i.
  - rget_simpl. bitblast i.
  - intros r Hr R1 R2 R3.
    rget_simpl. auto.
Qed.

(** The pending software interrupts do not survive an exception: whatever
    IP1 and IP0 were, after the entry the IP field of Cause only shows the lines
    of the interrupt controller. *)
Theorem exception_drops_software_ip (c : t) (h pc excCode ce : Z) (dly : bool) (Hwf : wf c)
    (Hcode : 0 ≤ excCode < 32) :
  ∃ c1, enter_exception (Z.land h Cause_IP_Ext_MASK) pc excCode ce dly c = Some ((), c1, []) ∧
    Z.land (rget (reg c1) Cause) Cause_IP_MASK = Z.land h Cause_IP_Ext_MASK ∧
    getIP (Z.land h Cause_IP_Ext_MASK) c1 = Z.land h Cause_IP_Ext_MASK.
Proof.
  destruct (enter_exception_regs (Z.land h Cause_IP_Ext_MASK) pc excCode ce dly c Hwf)
    as (c1 & E & _ & _ & _ & _ & _ & Hc & _). cbv zeta in Hc.
  assert (Hc5 : is_u 5 excCode) by exact Hcode.
  exists c1. split; [done|]. unfold getIP. rewrite Hc. unfold lnot32, Cause_ExcCode_MASK,
    Cause_IP_MASK, Cause_IP_Ext_MASK, Cause_BD_MASK, Cause_CE_MASK, Cause_IP_SW_MASK, CpU in *.
  split; destruct (excCode =? 11), dly; cbn [b2z]; bitblast i.
Qed.

(** The Random register counts down from 63 to 8 and around: from a value in
    these bounds, the [n]-th step leaves [8 + (R - 8 - n) mod 56], so it stays in
    the bounds, and it comes back after 56 steps. *)
Theorem random_cycle (c : t) (R : Z) (n : nat) (Hwf : wf c)
    (HR : Random_LOWER_BOUND ≤ R ≤ Random_UPPER_BOUND)
    (Hr : rget (reg c) Random = Z.shiftl R 8) :
  ∃ c', for_each (replicate n ()) (λ _, adjust_random) c = Some ((), c', []) ∧ wf c' ∧
    rget (reg c') Random = Z.shiftl (8 + (R - 8 - Z.of_nat n) mod 56) 8 ∧
    ∀ r, 0 ≤ r → r ≠ Random → rget (reg c') r = rget (reg c) r.
Proof.
  unfold Random_LOWER_BOUND, Random_UPPER_BOUND in HR.
  revert c R Hwf HR Hr. induction n as [|n IH]; intros c R Hwf HR Hr.
  - exists c. rewrite Z.sub_0_r, Z.mod_small by lia.
    replace (8 + (R - 8)) with R by lia. by split_and!.
  - set (R' := 8 + (R - 9) mod 56).
    assert (HR' : 8 ≤ R' ≤ 63) by (unfold R'; pose proof (Z.mod_pos_bound (R - 9) 56); lia).
    set (c1 := c <| reg := rset Random (Z.shiftl R' 8) (reg c) |>).
    assert (E : adjust_random c = Some ((), c1, [])).
    { unfold adjust_random. unfold get. rewrite gets_bind, Hr.
      rewrite Z.shiftr_shiftl_l, Z.sub_diag, Z.shiftl_0_r by lia.
      assert (Es : s32 R = R).
      { unfold s32, swrap. destruct (Z.testbit R (32 - 1)) eqn:Hb.
        - rewrite (testbit_high 6 R) in Hb by (try split; lia). done.
        - apply u32_small. lia. }
      rewrite Es. cbv zeta. unfold Random_UPPER_BOUND, Random_LOWER_BOUND.
      assert (ER : - (Z.rem (63 - R + 1) (63 - 8 + 1) - 63) = R').
      { unfold R'. rewrite Z.rem_mod_nonneg by lia. change (63 - 8 + 1) with 56.
        destruct (decide (R = 8)) as [->|]; [reflexivity|].
        rewrite !Z.mod_small by lia. lia. }
      rewrite ER. rewrite u32_small; [done|]. rewrite Z.shiftl_mul_pow2 by lia. lia. }
    assert (Hwf1 : wf c1).
    { apply wf_put; [done|vm_compute; split; congruence|].
      split; rewrite Z.shiftl_mul_pow2 by lia; lia. }
    assert (Hr1 : rget (reg c1) Random = Z.shiftl R' 8).
    { unfold c1. cbn [reg upd setter_of]. destruct Hwf as [H1 H2 H3]. by rget_simpl. }
    destruct (IH c1 R' Hwf1 HR' Hr1) as (c2 & E2 & Hwf2 & Hr2 & Ho).
    exists c2. split; [cbn [replicate for_each]; by rewrite (bind_eq _ _ _ _ _ E)|].
    split; [done|]. split.
    + rewrite Hr2. do 2 f_equal. unfold R'.
      replace (8 + (R - 9) mod 56 - 8 - Z.of_nat n) with ((R - 9) mod 56 - Z.of_nat n) by lia.
      rewrite Zminus_mod_idemp_l. f_equal. lia.
    + intros r H0 Hne. rewrite Ho by done. unfold c1. cbn [reg upd setter_of].
      by rget_simpl.
Qed.

(** ** Address translation *)

(** Fields of words as quotients and remainders. *)
Lemma land_field x n w : 0 ≤ n → 0 ≤ w → Z.land x (Z.shiftl (Z.ones w) n) = x / 2 ^ n mod 2 ^ w * 2 ^ n.
Proof.
  intros Hn Hw. rewrite <- Z.land_ones, <- Z.shiftr_div_pow2, <- Z.shiftl_mul_pow2 by done.
  apply Z.bits_inj'. intros i Hi. rewrite Z.land_spec, !Z.shiftl_spec by done.
  destruct (Z.ltb_spec i n).
  - by rewrite !(Z.testbit_neg_r _ (i - n)), andb_false_r by lia.
  - rewrite Z.land_spec, Z.shiftr_spec by lia. by replace (i - n + n) with i by lia.
Qed.
Lemma lor_field a b n : 0 ≤ n → 0 ≤ b < 2 ^ n → Z.lor (a * 2 ^ n) b = a * 2 ^ n + b.
Proof.
  intros Hn Hb. rewrite <- Z.add_lor_land. rewrite <- (Z.add_0_r (Z.lor _ _)) at 1. f_equal. symmetry.
  apply Z.bits_inj'. intros i Hi. rewrite Z.bits_0, Z.land_spec, Z.mul_pow2_bits by done.
  destruct (Z.ltb_spec i n).
  - by rewrite Z.testbit_neg_r by lia.
  - by rewrite (testbit_high n b), andb_false_r by (done || lia).
Qed.

Lemma land_vpn x : Z.land x EntryHi_VPN_MASK = x / 4096 mod 2 ^ 20 * 4096.
Proof. exact (land_field x 12 20 ltac:(lia) ltac:(lia)). Qed.
Lemma land_asid x : Z.land x EntryHi_ASID_MASK = x / 64 mod 64 * 64.
Proof. exact (land_field x 6 6 ltac:(lia) ltac:(lia)). Qed.
Lemma land_offset x : Z.land x (lnot32 EntryHi_VPN_MASK) = x mod 4096.
Proof. exact (Z.land_ones x 12 ltac:(lia)). Qed.
Lemma page_small va : is_u32 va → va / 4096 mod 2 ^ 20 = va / 4096.
Proof. intros [H0 H1]. apply Z.mod_small. change (2 ^ 32) with 4294967296 in H1. Z.to_euclidean_division_equations; lia. Qed.

Lemma entry_hi_miss va hi : is_u32 va →
  Z.lor (Z.land va EntryHi_VPN_MASK) (Z.land hi (lnot32 EntryHi_VPN_MASK)) = va / 4096 * 4096 + hi mod 4096.
Proof.
  intros Hva. rewrite land_vpn, land_offset, page_small by done.
  apply (lor_field _ _ 12); [lia|]. apply Z.mod_pos_bound. lia.
Qed.
Lemma context_miss va ctx : is_u32 va → is_u32 ctx →
  Z.lor (Z.land ctx (lnot32 Context_BadVPN_MASK)) (Z.shiftr (Z.land va 0x7ffff000) 10) =
    ctx / 2 ^ 21 * 2 ^ 21 + va / 4096 mod 2 ^ 19 * 4 + ctx mod 4.
Proof.
  intros Hva Hctx.
  assert (Hm : 0 ≤ va / 4096 mod 2 ^ 19 < 2 ^ 19) by (apply Z.mod_pos_bound; lia).
  assert (H4 : 0 ≤ ctx mod 4 < 4) by (apply Z.mod_pos_bound; lia).
  rewrite <- Z.add_assoc, <- (lor_field (ctx / 2 ^ 21) _ 21) by lia.
  change (va / 4096 mod 2 ^ 19 * 4) with (va / 4096 mod 2 ^ 19 * 2 ^ 2).
  rewrite <- (lor_field (va / 4096 mod 2 ^ 19) (ctx mod 4) 2) by (exact H4 || lia). change 4 with (2 ^ 2).
  change 4096 with (2 ^ 12). rewrite <- !Z.land_ones, <- !Z.shiftr_div_pow2, <- !Z.shiftl_mul_pow2 by lia.
  unfold lnot32, Context_BadVPN_MASK. change (Z.ones 19) with 0x7ffff. change (Z.ones 2) with 3. bitblast i.
Qed.

Lemma load_info_eq va c : wf c → is_u32 va →
  ∃ c', load_addr_trans_excp_info va c = Some ((), c', []) ∧ wf c' ∧ tlb c' = tlb c ∧
    cpuid c' = cpuid c ∧ tlb_miss_user c' = tlb_miss_user c ∧
    rget (reg c') BadVAddr = va ∧
    rget (reg c') EntryHi = va / 4096 * 4096 + rget (reg c) EntryHi mod 4096 ∧
    rget (reg c') Context = rget (reg c) Context / 2 ^ 21 * 2 ^ 21 + va / 4096 mod 2 ^ 19 * 4 +
      rget (reg c) Context mod 4 ∧
    (∀ r, 0 ≤ r → r ≠ BadVAddr → r ≠ EntryHi → r ≠ Context → rget (reg c') r = rget (reg c) r).
Proof.
  intros Hwf Hva. pose proof (wf_reg c Hwf) as H3. pose proof (wf_len c Hwf) as H2.
  pose proof (H3 EntryHi) as Hhi32. pose proof (H3 Context) as Hctx32.
  set (x := Z.lor (Z.land (rget (reg c) Context) (lnot32 Context_BadVPN_MASK))
                  (Z.shiftr (Z.land va 0x7ffff000) 10)).
  set (y := Z.lor (Z.land va EntryHi_VPN_MASK)
                  (Z.land (rget (reg c) EntryHi) (lnot32 EntryHi_VPN_MASK))).
  set (c0 := c <| reg := rset BadVAddr va (reg c) |>).
  set (c1 := c0 <| reg := rset Context x (reg c0) |>).
  exists (c1 <| reg := rset EntryHi y (reg c1) |>). split.
  { unfold load_addr_trans_excp_info, c1, c0, x, y.
    unfold bindM, put, get, modify, gets. cbn [reg upd setter_of app]. by rget_simpl. }
  assert (Hx : is_u32 x).
  { apply is_u_bits; [lia|]. change (wrap 32) with u32. unfold x, lnot32, Context_BadVPN_MASK.
    bitblast i. }
  assert (Hy : is_u32 y).
  { apply is_u_bits; [lia|]. change (wrap 32) with u32. unfold y, lnot32, EntryHi_VPN_MASK.
    bitblast i. }
  assert (Hwf0 : wf c0) by (apply wf_put; auto; vm_compute; split; congruence).
  assert (Hwf1 : wf c1) by (apply wf_put; auto; vm_compute; split; congruence).
  split; [apply wf_put; auto; vm_compute; split; congruence|].
  cbn [tlb cpuid tlb_miss_user reg upd setter_of c1 c0].
  split; [done|]. split; [done|]. split; [done|].
  split; [by rget_simpl|]. split; [|split].
  - rget_simpl. unfold y. by apply entry_hi_miss.
  - rget_simpl. unfold x. by apply context_miss.
  - intros r Hr R1 R2 R3. by rget_simpl.
Qed.

(** The segment that goes through the TLB for [vaddr], if any. *)
Definition mapped_seg (c : t) (vaddr : Z) : option Z :=
  if kernel_mode c then
    let seg := Z.land vaddr KSEG_SELECT_MASK in
    if (seg =? KSEG0) || (seg =? KSEG1) then None
    else if (seg =? KSEG2) || (seg =? KSEG2_top) then Some KSEG2 else Some KUSEG
  else if nz (Z.land vaddr KERNEL_SPACE_MASK) then None else Some KUSEG.

Lemma address_trans_mapped c seg vaddr mode client : mapped_seg c vaddr = Some seg →
  address_trans vaddr mode client c = tlb_translate seg vaddr mode client c.
Proof.
  unfold mapped_seg, address_trans. rewrite gets_bind. destruct (kernel_mode c).
  - cbv zeta. destruct (_ =? KSEG0); [done|]. destruct (_ =? KSEG1); [done|]. cbn [orb].
    destruct (_ || _); by intros [= <-].
  - destruct (nz _); [done|]. by intros [= <-].
Qed.

Lemma paddr_offset pfn_ va : Z.lor (Z.land pfn_ EntryLo_PFN_MASK) (Z.land va (lnot32 EntryHi_VPN_MASK)) =
  pfn_ / 4096 mod 2 ^ 20 * 4096 + va mod 4096.
Proof.
  change EntryLo_PFN_MASK with EntryHi_VPN_MASK. rewrite land_vpn, land_offset.
  apply (lor_field _ _ 12); [lia|]. apply Z.mod_pos_bound. lia.
Qed.

(** ** Address translation of the architecture

    The segments are ranges of addresses, the fields of an entry numbers, and the entry that
    decides is the first of the TLB for the page and the address space. *)
Definition e_page (e : TLBEntry) : Z := entryHi e / 2 ^ 12 mod 2 ^ 20.
Definition e_space (e : TLBEntry) : Z := entryHi e / 2 ^ 6 mod 2 ^ 6.
Definition e_frame (e : TLBEntry) : Z := entryLo e / 2 ^ 12 mod 2 ^ 20.
Definition e_noncacheable (e : TLBEntry) : bool := Z.testbit (entryLo e) 11.
Definition e_dirty (e : TLBEntry) : bool := Z.testbit (entryLo e) 10.
Definition e_valid (e : TLBEntry) : bool := Z.testbit (entryLo e) 9.
Definition e_global (e : TLBEntry) : bool := Z.testbit (entryLo e) 8.
Definition user_mode (c : t) : bool := Z.testbit (rget (reg c) Status) 1.
Definition space (c : t) : Z := rget (reg c) EntryHi / 2 ^ 6 mod 2 ^ 6.

Definition maps (c : t) (va : Z) (e : TLBEntry) : Prop :=
  e_page e = va / 2 ^ 12 ∧ (e_global e = true ∨ e_space e = space c).
Definition chosen (c : t) (va : Z) (i : nat) (e : TLBEntry) : Prop :=
  tlb c !! i = Some e ∧ maps c va e ∧ ∀ j e', (j < i)%nat → tlb c !! j = Some e' → ¬ maps c va e'.
Definition goes_through_tlb (c : t) (va : Z) : Prop :=
  va < 0x80000000 ∨ user_mode c = false ∧ 0xc0000000 ≤ va.

Inductive outcome :=
  | Direct (cacheable : bool) | Hit (paddr : Z) (cacheable : bool)
  | AddressError | Refill | Invalid | Modified.

Inductive translation (c : t) (va : Z) (store : bool) : outcome → Prop :=
  | T_kseg0 : user_mode c = false → 0x80000000 ≤ va < 0xa0000000 → translation c va store (Direct true)
  | T_kseg1 : user_mode c = false → 0xa0000000 ≤ va < 0xc0000000 → translation c va store (Direct false)
  | T_kernel_only : user_mode c = true → 0x80000000 ≤ va → translation c va store AddressError
  | T_refill : goes_through_tlb c va → (∀ e, e ∈ tlb c → ¬ maps c va e) → translation c va store Refill
  | T_invalid i e : goes_through_tlb c va → chosen c va i e → e_valid e = false → translation c va store Invalid
  | T_modified i e : goes_through_tlb c va → chosen c va i e → e_valid e = true → store = true →
      e_dirty e = false → translation c va store Modified
  | T_hit i e : goes_through_tlb c va → chosen c va i e → e_valid e = true →
      (store = true → e_dirty e = true) →
      translation c va store (Hit (e_frame e * 2 ^ 12 + va mod 2 ^ 12) (negb (e_noncacheable e))).

(** The registers after a fault at [va]. *)
Definition faulted (va : Z) (user_refill : bool) (c c' : t) : Prop :=
  wf c' ∧ tlb c' = tlb c ∧ cpuid c' = cpuid c ∧ tlb_miss_user c' = user_refill ∧
  rget (reg c') BadVAddr = va ∧
  rget (reg c') EntryHi = va / 4096 * 4096 + rget (reg c) EntryHi mod 4096 ∧
  rget (reg c') Context = rget (reg c) Context / 2 ^ 21 * 2 ^ 21 + va / 4096 mod 2 ^ 19 * 4 +
    rget (reg c) Context mod 4 ∧
  ∀ r, 0 ≤ r → r ≠ BadVAddr → r ≠ EntryHi → r ≠ Context → rget (reg c') r = rget (reg c) r.

(** What the processor sees of an outcome. *)
Definition answers (c : t) (va mode client : Z) (r : option (Z * option bool * t * list exc_event)) (o : outcome) : Prop :=
  let store := mode =? DATASTORE in
  let fault code c' := r = Some ((0xffffffff, None), c', [ExcEvent client code mode (-1)]) in
  match o with
  | Direct cacheable => r = Some ((va, Some cacheable), c, [])
  | Hit paddr cacheable => r = Some ((paddr, Some cacheable), c <| tlb_miss_user := false |>, [])
  | AddressError => fault (if store then AdES else AdEL) c
  | Refill => ∃ c', fault (if store then TLBS else TLBL) c' ∧ faulted va (va <? 0x80000000) c c'
  | Invalid => ∃ c', fault (if store then TLBS else TLBL) c' ∧ faulted va false c c'
  | Modified => ∃ c', fault Mod c' ∧ faulted va false c c'
  end.

Lemma chosen_unique c va i e i' e' : chosen c va i e → chosen c va i' e' → e = e'.
Proof.
  intros (Hi & Hm & Hn) (Hi' & Hm' & Hn'). destruct (Nat.lt_trichotomy i i') as [Hl|[->|Hl]].
  - by destruct (Hn' _ _ Hl Hi).
  - congruence.
  - by destruct (Hn _ _ Hl Hi').
Qed.
Lemma chosen_none c va i e : chosen c va i e → ¬ ∀ e, e ∈ tlb c → ¬ maps c va e.
Proof. intros (Hi & Hm & _) Hn. exact (Hn e (list_elem_of_lookup_2 _ _ _ Hi) Hm). Qed.

Lemma translation_unique c va store o o' : translation c va store o → translation c va store o' → o = o'.
Proof.
  assert (Hno : ∀ i e, chosen c va i e → (∀ e, e ∈ tlb c → ¬ maps c va e) → False)
    by (intros i e H; by apply chosen_none in H).
  unfold goes_through_tlb. intros H H'. destruct H, H'; try done;
    try match goal with H : chosen _ _ _ ?e, H' : chosen _ _ _ ?e' |- _ =>
      pose proof (chosen_unique _ _ _ _ _ _ H H'); subst e' end;
    try (exfalso; eauto; fail); try congruence;
    exfalso; unfold goes_through_tlb in *; intuition (congruence || lia).
Qed.

(** The code's bit tests, on the fields. *)
Lemma bit_mask x k m : 0 ≤ k → m = 2 ^ k → nz (Z.land x m) = Z.testbit x k.
Proof. intros Hk ->. by apply nz_land_bit. Qed.
Lemma e_valid_eq e : tlb_valid e = e_valid e. Proof. by apply bit_mask. Qed.
Lemma e_dirty_eq e : tlb_dirty e = e_dirty e. Proof. by apply bit_mask. Qed.
Lemma e_noncacheable_eq e : noncacheable e = e_noncacheable e. Proof. by apply bit_mask. Qed.
Lemma e_global_eq e : global_ e = e_global e. Proof. by apply bit_mask. Qed.
Lemma kernel_mode_eq c : kernel_mode c = negb (user_mode c).
Proof. unfold kernel_mode. f_equal. by apply bit_mask. Qed.

Lemma maps_matches c va e : is_u32 va →
  tlb_matches (Z.land va EntryHi_VPN_MASK) (Z.land (rget (reg c) EntryHi) EntryHi_ASID_MASK) e = true ↔ maps c va e.
Proof.
  intros Hva. unfold tlb_matches, maps, vpn, asid, e_page, e_space, space.
  rewrite andb_true_iff, orb_true_iff, !Z.eqb_eq, !land_vpn, !land_asid, e_global_eq, (page_small va) by done.
  change (2 ^ 12) with 4096. change (2 ^ 6) with 64.
  assert (H6 : ∀ x, 0 ≤ x mod 64 < 64) by (intros; apply Z.mod_pos_bound; lia).
  pose proof (H6 (entryHi e / 64)). pose proof (H6 (rget (reg c) EntryHi / 64)).
  rewrite u16_small by lia. split; intros [? [?|?]]; (split; [lia|]); (by left) || (right; lia).
Qed.

Lemma find_tlb_first vp a l x : 0 ≤ x →
  find_tlb vp a x l = -1 ∧ (∀ e, e ∈ l → tlb_matches vp a e = false) ∨
  ∃ i e, find_tlb vp a x l = x + Z.of_nat i ∧ l !! i = Some e ∧ tlb_matches vp a e = true ∧
    ∀ j e', (j < i)%nat → l !! j = Some e' → tlb_matches vp a e' = false.
Proof.
  revert x. induction l as [|h l IH]; intros x Hx; cbn [find_tlb].
  { left. split; [done|]. intros e He. by apply not_elem_of_nil in He. }
  destruct (tlb_matches vp a h) eqn:Hh.
  { right. exists 0%nat, h. split_and!; [lia|done..|]. intros; lia. }
  destruct (IH (x + 1)) as [[E Hn]|(i & e & E & Hi & Hm & Hn)]; [lia| |].
  - left. split; [done|]. intros e [->|He]%elem_of_cons; eauto.
  - right. exists (S i), e. split_and!; [lia|done..|]. intros [|j] e' Hj He'; [by injection He' as <-|].
    apply (Hn j); [lia|done].
Qed.

Lemma match_of_first c va : is_u32 va →
  match_of c va = None ∧ (∀ e, e ∈ tlb c → ¬ maps c va e) ∨ ∃ i e, match_of c va = Some e ∧ chosen c va i e.
Proof.
  intros Hva. unfold match_of, find_matching_tlb_entry.
  assert (Hf : ∀ e, tlb_matches (Z.land va EntryHi_VPN_MASK) (Z.land (rget (reg c) EntryHi) EntryHi_ASID_MASK) e = false →
    ¬ maps c va e) by (intros e He Hm; apply maps_matches in Hm; congruence).
  edestruct find_tlb_first as [[-> Hn]|(i & e & -> & Hi & Hm & Hn)]; [done|left|right].
  - split; [done|]. eauto.
  - exists i, e. rewrite Z.add_0_l. destruct (Z.eqb_spec (Z.of_nat i) (-1)); [lia|]. unfold nthz.
    destruct (Z.ltb_spec (Z.of_nat i) 0); [lia|]. rewrite Nat2Z.id. split; [done|].
    split; [done|]. split; [by apply maps_matches|]. eauto.
Qed.

(** The segments. *)
Lemma segment_range va : is_u32 va → Z.land va KSEG_SELECT_MASK = va / 2 ^ 29 * 2 ^ 29.
Proof.
  intros [H0 H1]. etrans; [exact (land_field va 29 3 ltac:(lia) ltac:(lia))|]. f_equal. apply Z.mod_small.
  change (2 ^ 32) with 4294967296 in H1. change (2 ^ 29) with 536870912. Z.to_euclidean_division_equations; lia.
Qed.
Lemma address_trans_segments c va mode client : is_u32 va →
  address_trans va mode client c =
    if user_mode c then
      if 0x80000000 <=? va then
        Some ((0xffffffff, None), c, [ExcEvent client (if mode =? DATASTORE then AdES else AdEL) mode (-1)])
      else tlb_translate KUSEG va mode client c
    else if va <? 0x80000000 then tlb_translate KUSEG va mode client c
    else if va <? 0xa0000000 then Some ((va, Some true), c, [])
    else if va <? 0xc0000000 then Some ((va, Some false), c, [])
    else tlb_translate KSEG2 va mode client c.
Proof.
  intros Hva. unfold address_trans. rewrite gets_bind, kernel_mode_eq. destruct Hva as [H0 H1].
  change (2 ^ 32) with 4294967296 in H1. destruct (user_mode c); cbn [negb].
  - rewrite (bit_mask va 31) by done. rewrite Z.testbit_eqb by lia. change (2 ^ 31) with 2147483648.
    destruct (Z.leb_spec 2147483648 va).
    + replace (va / 2147483648) with 1 by (Z.to_euclidean_division_equations; lia). done.
    + replace (va / 2147483648) with 0 by (Z.to_euclidean_division_equations; lia). done.
  - cbv zeta. rewrite segment_range by (split; [lia|exact H1]). change (2 ^ 29) with 536870912.
    unfold KSEG0, KSEG1, KSEG2, KSEG2_top.
    repeat match goal with
    | |- context [?a =? ?b] => destruct (Z.eqb_spec a b)
    | |- context [?a <? ?b] => destruct (Z.ltb_spec a b)
    end; cbn [orb]; try done; exfalso; Z.to_euclidean_division_equations; lia.
Qed.

Lemma fault_eq va b c : wf c → is_u32 va →
  ∃ c', load_addr_trans_excp_info va (c <| tlb_miss_user := b |>) = Some ((), c', []) ∧ faulted va b c c'.
Proof.
  intros Hwf Hva. assert (Hwfb : wf (c <| tlb_miss_user := b |>)) by (destruct Hwf; by split).
  destruct (load_info_eq va _ Hwfb Hva) as (c' & E & H). exists c'. split; [exact E|exact H].
Qed.

Lemma tlb_translate_outcome c seg va mode client (Hwf : wf c) (Hva : is_u32 va)
    (Hseg : seg = KUSEG ∧ va < 0x80000000 ∨ seg = KSEG2 ∧ user_mode c = false ∧ 0xc0000000 ≤ va) :
  ∃ o, translation c va (mode =? DATASTORE) o ∧ answers c va mode client (tlb_translate seg va mode client c) o.
Proof.
  assert (Ht : goes_through_tlb c va) by (unfold goes_through_tlb; destruct Hseg; tauto).
  assert (Hu : (seg =? KUSEG) = (va <? 0x80000000)).
  { destruct Hseg as [[-> ?]|(-> & _ & ?)]; [by destruct (Z.ltb_spec va 0x80000000); [|lia]|].
    by destruct (Z.ltb_spec va 0x80000000); [lia|]. }
  unfold tlb_translate. rewrite gets_bind.
  destruct (match_of_first c va Hva) as [[-> Hn]|(i & e & -> & Hc)].
  { exists Refill. split; [by apply T_refill|]. rewrite bool_decide_eq_true_2, andb_true_r, Hu by done.
    destruct (fault_eq va (va <? 0x80000000) c Hwf Hva) as (c' & E & H). exists c'. split; [|exact H].
    erewrite bind_eq by reflexivity. erewrite bind_eq by reflexivity. by rewrite (bind_eq _ _ _ _ _ E). }
  destruct (fault_eq va false c Hwf Hva) as (c' & E & H).
  rewrite e_valid_eq, e_dirty_eq, bool_decide_eq_false_2, andb_false_r by done.
  destruct (e_valid e) eqn:Hv.
  - destruct ((mode =? DATASTORE) && negb (e_dirty e)) eqn:Hd.
    + apply andb_true_iff in Hd as [Hm Hd]. apply negb_true_iff in Hd. exists Modified. split; [by apply (T_modified _ _ _ i e)|].
      exists c'. split; [|exact H]. apply Z.eqb_eq in Hm. erewrite bind_eq by reflexivity. by rewrite (bind_eq _ _ _ _ _ E), Hm.
    + eexists. split; [apply (T_hit _ _ _ i e Ht Hc Hv)|].
      * intros Hm. rewrite Hm in Hd. by destruct (e_dirty e).
      * erewrite bind_eq by reflexivity. unfold pfn. by rewrite paddr_offset, e_noncacheable_eq.
  - exists Invalid. split; [by apply (T_invalid _ _ _ i e)|]. exists c'. split; [|exact H].
    erewrite bind_eq by reflexivity. erewrite bind_eq by reflexivity. by rewrite (bind_eq _ _ _ _ _ E).
Qed.

(** C18 address translation: every access has exactly one outcome of the architecture, and it
    is the one [address_trans] gives. The kernel's addresses below 0xa0000000 and 0xc0000000
    (kseg0 and kseg1) are not mapped and keep their value, cached and uncached; a user access
    to the kernel's half is an address error, which leaves BadVAddr as it is; everywhere else
    the first TLB entry for the page and the address space decides: none is a refill, an invalid
    one a TLB fault, a store to a clean page the Mod fault, and otherwise the frame and the
    offset of the entry are the address. A TLB fault raises one exception and writes the address
    to BadVAddr, its page to EntryHi (the address space kept) and to Context (the table's base
    kept), notes a refill of the user's half for the choice of the vector, and leaves every
    other register and the TLB alone. *)
Theorem address_translation (c : t) (va mode client : Z) (Hwf : wf c) (Hva : is_u32 va) :
  ∃ o, translation c va (mode =? DATASTORE) o ∧ (∀ o', translation c va (mode =? DATASTORE) o' → o' = o) ∧
    answers c va mode client (address_trans va mode client c) o.
Proof.
  assert (H : ∃ o, translation c va (mode =? DATASTORE) o ∧ answers c va mode client (address_trans va mode client c) o).
  { rewrite address_trans_segments by done.
    destruct (user_mode c) eqn:Hu; [destruct (Z.leb_spec 0x80000000 va)|
      destruct (Z.ltb_spec va 0x80000000); [|destruct (Z.ltb_spec va 0xa0000000); [|destruct (Z.ltb_spec va 0xc0000000)]]].
    - exists AddressError. split; [by apply T_kernel_only|done].
    - apply tlb_translate_outcome; [done..|by left].
    - apply tlb_translate_outcome; [done..|by left].
    - exists (Direct true). split; [by apply T_kseg0|done].
    - exists (Direct false). split; [by apply T_kseg1|done].
    - apply tlb_translate_outcome; [done..|by right]. }
  destruct H as (o & Ho & Ha). exists o. split; [done|]. split; [|done].
  intros o' Ho'. by apply (translation_unique c va (mode =? DATASTORE)).
Qed.

(** ** The TLB *)

Lemma find_tlb_spec vp a l : ∀ x i e, 0 ≤ i → nthz l i = Some e → tlb_matches vp a e = true →
  (∀ j e', 0 ≤ j < i → nthz l j = Some e' → tlb_matches vp a e' = false) →
  find_tlb vp a x l = x + i.
Proof.
  induction l as [|h l IH]; intros x i e Hi He Hm Hno; simpl.
  { unfold nthz in He. destruct (i <? 0); [done|]. by rewrite lookup_nil in He. }
  destruct (decide (i = 0)) as [->|Hne].
  - unfold nthz in He. simpl in He. injection He as ->. rewrite Hm. lia.
  - rewrite (Hno 0 h) by (lia || done).
    assert (Hsh : ∀ j, 0 ≤ j → nthz (h :: l) (j + 1) = nthz l j).
    { intros j Hj. unfold nthz. destruct (Z.ltb_spec (j + 1) 0), (Z.ltb_spec j 0); try lia.
      replace (Z.to_nat (j + 1)) with (S (Z.to_nat j)) by lia. done. }
    rewrite (IH (x + 1) (i - 1) e); [lia|lia| |done|].
    + rewrite <- Hsh by lia. by replace (i - 1 + 1) with i by lia.
    + intros j e' Hj He'. apply (Hno (j + 1)); [lia|]. by rewrite Hsh by lia.
Qed.

(** Refilling the TLB: after an indexed write, an address of the page in
    EntryHi, in its address space or global, matches the entry just written
    when no entry before it matches, so a valid one translates it to the
    frame of EntryLo with the offset kept. *)
Theorem tlb_refill (c : t) (HwIP i vaddr mode client seg : Z) (Hwf : wf c) (Hva : is_u32 vaddr)
    (Hi : 0 ≤ i < TLB_ENTRIES) (Hidx : Z.shiftr (Z.land (rget (reg c) Index) Index_Index_MASK) 8 = i)
    (Hpage : Z.land vaddr EntryHi_VPN_MASK = Z.land (rget (reg c) EntryHi) EntryHi_VPN_MASK)
    (Hseg : mapped_seg c vaddr = Some seg)
    (Hno : ∀ j e, 0 ≤ j < i → nthz (tlb c) j = Some e →
       tlb_matches (Z.land vaddr EntryHi_VPN_MASK)
         (Z.land (rget (reg c) EntryHi) EntryHi_ASID_MASK) e = false)
    (Hv : nz (Z.land (rget (reg c) EntryLo) EntryLo_V_MASK) = true)
    (Hd : nz (Z.land (rget (reg c) EntryLo) EntryLo_D_MASK) = true) :
  ∃ c', tlbwi_emulate HwIP c = Some ((), c', []) ∧ wf c' ∧
    address_trans vaddr mode client c' =
      Some ((Z.lor (Z.land (rget (reg c) EntryLo) EntryLo_PFN_MASK) (Z.land vaddr 0xfff),
             Some (negb (nz (Z.land (rget (reg c) EntryLo) EntryLo_N_MASK)))),
            c' <| tlb_miss_user := false |>, []).
Proof.
  set (hi := rget (reg c) EntryHi) in *. set (lo := rget (reg c) EntryLo) in *.
  set (e := MkTLB (Z.land hi EntryHi_MASK) (Z.land lo EntryLo_MASK)).
  pose proof (wf_reg c Hwf EntryHi) as Hhi32. fold hi in Hhi32.
  pose proof (wf_reg c Hwf EntryLo) as Hlo32. fold lo in Hlo32.
  assert (Hset : setz (tlb c) i e = Some (<[Z.to_nat i := e]> (tlb c))).
  { apply setz_Some. rewrite (wf_tlb c Hwf). unfold TLB_ENTRIES in Hi. lia. }
  set (c' := c <| tlb := <[Z.to_nat i := e]> (tlb c) |>).
  assert (E : tlbwi_emulate HwIP c = Some ((), c', [])).
  { unfold tlbwi_emulate, get. rewrite gets_bind, Hidx. unfold tlb_write.
    erewrite bind_eq by reflexivity. erewrite bind_eq by reflexivity.
    unfold aset. rewrite gets_bind. fold hi lo. change (MkTLB _ _) with e. by rewrite Hset. }
  exists c'. split; [done|]. split.
  { destruct Hwf. split; simpl; [by rewrite length_insert|done|done]. }
  assert (Hland : ∀ a m k, Z.land m k = k → Z.land (Z.land a m) k = Z.land a k).
  { intros a m k Hk. by rewrite <- Z.land_assoc, Hk. }
  assert (Ematch : tlb_matches (Z.land vaddr EntryHi_VPN_MASK) (Z.land hi EntryHi_ASID_MASK) e = true).
  { unfold tlb_matches, vpn, asid, e, entryHi. rewrite !Hland by reflexivity.
    rewrite Hpage, Z.eqb_refl.
    rewrite u16_small, Z.eqb_refl, orb_true_r; [done|].
    assert (is_u 12 (Z.land hi EntryHi_ASID_MASK)) as [? ?]; [|lia].
    apply land_is_u; [lia|]. split; vm_compute; congruence. }
  assert (Em : match_of c' vaddr = Some e).
  { unfold match_of, find_matching_tlb_entry. change (reg c') with (reg c). fold hi.
    rewrite (find_tlb_spec _ _ (tlb c') 0 i e); [|lia| |done|].
    - rewrite Z.add_0_l. destruct (Z.eqb_spec i (-1)); [lia|].
      change (tlb c') with (<[Z.to_nat i := e]> (tlb c)).
      by rewrite (nthz_setz _ _ _ _ _ Hset), Z.eqb_refl.
    - change (tlb c') with (<[Z.to_nat i := e]> (tlb c)).
      by rewrite (nthz_setz _ _ _ _ _ Hset), Z.eqb_refl.
    - intros j e' Hj He'. change (tlb c') with (<[Z.to_nat i := e]> (tlb c)) in He'.
      rewrite (nthz_setz _ _ _ _ _ Hset) in He'. destruct (Z.eqb_spec j i); [lia|]. eauto. }
  assert (Hl : ∀ k, Z.land EntryLo_MASK k = k → Z.land (entryLo e) k = Z.land lo k)
    by (intros; unfold e, entryLo; by apply Hland).
  assert (Hseg' : mapped_seg c' vaddr = Some seg) by done.
  rewrite (address_trans_mapped c' seg) by done. unfold tlb_translate.
  rewrite gets_bind, Em. erewrite bind_eq by reflexivity.
  unfold tlb_valid, tlb_dirty, noncacheable, pfn.
  rewrite !Hl, Hv, Hd by reflexivity. cbn [negb]. rewrite andb_false_r.
  do 4 f_equal.
Qed.

(** The coprocessor registers: a write sets the writable bits and keeps the
    read-only ones, so a read after it returns the written value on the
    writable bits and the old one on the others; no other register changes. *)
Theorem register_access (c : t) (HwIP r data : Z) (Hwf : wf c) (Hr : 0 ≤ r < 32)
    (Hc : r ≠ Cause) :
  ∃ c' v, write_reg r data c = Some ((), c', []) ∧ read_reg HwIP r c' = Some (v, c', []) ∧
    (∀ i, 0 ≤ i → Z.testbit v i =
       if Z.testbit (rget write_masks r) i then Z.testbit data i
       else Z.testbit (rget read_masks r) i && Z.testbit (rget (reg c) r) i) ∧
    ∀ r', 0 ≤ r' → r' ≠ r → rget (reg c') r' = rget (reg c) r'.
Proof.
  assert (Hsub : Z.land (rget write_masks r) (rget read_masks r) = rget write_masks r).
  { assert (Hall : forallb (λ r, Z.land (rget write_masks r) (rget read_masks r) =? rget write_masks r)
      (seqZ 0 32) = true) by reflexivity.
    apply Z.eqb_eq. rewrite forallb_forall in Hall. apply (Hall r).
    apply list_elem_of_In, elem_of_seqZ. lia. }
  set (v0 := Z.lor (Z.land (rget (reg c) r) (Z.land (rget read_masks r) (lnot32 (rget write_masks r))))
               (Z.land data (rget write_masks r))).
  exists (c <| reg := rset r v0 (reg c) |>), (Z.land v0 (rget read_masks r)).
  split; [reflexivity|]. split; [|split].
  - unfold read_reg. rewrite (proj2 (Z.eqb_neq _ _) Hc). rewrite ret_bind. unfold get.
    rewrite gets_bind. cbn [reg upd setter_of]. by rewrite rget_eq by (done || apply Hwf).
  - intros i Hi. assert (Hb : Z.testbit (rget write_masks r) i && Z.testbit (rget read_masks r) i =
      Z.testbit (rget write_masks r) i) by (rewrite <- Z.land_spec, Hsub; done).
    unfold v0. rewrite Z.land_spec, Z.lor_spec, !Z.land_spec.
    unfold lnot32. rewrite u32_spec, tb_lnot by done.
    destruct (Z.testbit (rget write_masks r) i) eqn:Ew; simpl in Hb |- *.
    + rewrite Hb. by rewrite !andb_false_r, !andb_true_r.
    + rewrite !andb_false_r, orb_false_r, andb_true_r.
      destruct (Z.ltb_spec i 32); simpl; [by destruct (Z.testbit (rget (reg c) r) i), (Z.testbit (rget read_masks r) i)|].
      rewrite andb_false_r, andb_false_r. simpl.
      rewrite (testbit_high 32 (rget (reg c) r)) by (lia || apply Hwf). by rewrite andb_false_r.
  - intros r' H0 Hne. cbn [reg upd setter_of]. by rewrite rget_ne by (done || lia).
Qed.

(** The debugger's translation finds what the processor's does in the mapped
    segments, for pages that are valid, but takes kseg0 to other addresses. *)
Theorem debug_translation (c : t) (vaddr client : Z) (Hwf : wf c) (Hva : is_u32 vaddr) :
  (∀ seg e, mapped_seg c vaddr = Some seg → match_of c vaddr = Some e → tlb_valid e = true →
     ∃ p ch c', address_trans vaddr DATALOAD client c = Some ((p, Some ch), c', []) ∧
       debug_tlb_translate c vaddr = (true, p)) ∧
  (kernel_mode c = true → Z.land vaddr KSEG_SELECT_MASK = KSEG0 →
     address_trans vaddr DATALOAD client c = Some ((vaddr, Some true), c, []) ∧
     debug_tlb_translate c vaddr = (true, u32 (vaddr - 0x80000000)) ∧
     u32 (vaddr - 0x80000000) ≠ vaddr).
Proof.
  split.
  - intros seg e Hseg He Hv.
    assert (Ht : address_trans vaddr DATALOAD client c =
      Some ((Z.lor (pfn e) (Z.land vaddr (lnot32 EntryHi_VPN_MASK)), Some (negb (noncacheable e))), c <| tlb_miss_user := false |>, [])).
    { rewrite (address_trans_mapped c seg) by done. unfold tlb_translate.
      rewrite gets_bind, He. erewrite bind_eq by reflexivity. by rewrite Hv. }
    eexists _, _, _. split; [exact Ht|]. unfold debug_tlb_translate. rewrite He, Hv.
    revert Hseg. unfold mapped_seg. destruct (kernel_mode c); cbn [negb andb].
    + cbv zeta. destruct (_ =? KSEG0); [done|]. by destruct (_ =? KSEG1).
    + by destruct (nz _).
  - intros Hk Hs. split; [unfold address_trans; by rewrite gets_bind, Hk, Hs|].
    unfold debug_tlb_translate. rewrite Hk, Hs. split; [done|].
    unfold u32, wrap. intros E. destruct Hva as [H0 H1].
    pose proof (Z_div_mod_eq_full (vaddr - 2147483648) (2 ^ 32)) as Hdm. rewrite E in Hdm.
    assert (2147483648 = - (2 ^ 32 * ((vaddr - 2147483648) / 2 ^ 32))) by lia. lia.
Qed.

(** ** Witnesses: a coprocessor in kernel mode with one valid page, 0x3000 for
    0x5000, in entry 2 of the TLB *)

Lemma rget_forall l r : Forall is_u32 l → is_u32 (rget l r).
Proof.
  intros Hl. unfold rget. rewrite nth_lookup.
  destruct (l !! Z.to_nat r) eqn:E; simpl; [|split; lia]. by eapply Forall_lookup_1 in Hl.
Qed.

Definition demo_regs : list Z := rset Index 0x300 (rset EntryHi 0x5000 (rset EntryLo 0x7700
  (rset Random (Z.shiftl 9 8) (rset Cause 0x300 (replicate 32 0))))).
Definition demo_cp0 : t :=
  Mk (<[2%nat := MkTLB 0x5000 0x3700]> (replicate 64 (MkTLB 0 0))) demo_regs 0 false.

Lemma demo_cp0_wf : wf demo_cp0.
Proof.
  split; try reflexivity. intros r. apply rget_forall.
  apply Forall_forall. intros x Hx.
  assert (Hall : forallb (λ z, (0 <=? z) && (z <? 2 ^ 32)) demo_regs = true) by reflexivity.
  rewrite forallb_forall in Hall. specialize (Hall x ltac:(by apply list_elem_of_In)).
  apply andb_true_iff in Hall as [H0 H1]. apply Z.leb_le in H0. apply Z.ltb_lt in H1. by split.
Qed.

Lemma exception_entry_return_witness : ∃ c1 c2,
  enter_exception (Z.land 0x400 Cause_IP_MASK) 0x80001000 Sys 0 true demo_cp0 = Some ((), c1, []) ∧
  rfe_emulate c1 = Some ((), c2, []) ∧ kernel_mode c1 = true ∧
  Z.land (rget (reg c2) Status) 0x0f = Z.land (rget (reg demo_cp0) Status) 0x0f.
Proof.
  destruct (exception_entry_return demo_cp0 0x400 0x80001000 Sys 0 true demo_cp0_wf)
    as (c1 & c2 & E1 & E2 & _ & Hk & _ & _ & _ & _ & Hs & _); [vm_compute; split; congruence|].
  exists c1, c2. repeat split; assumption.
Defined.

Lemma exception_drops_software_ip_witness : ∃ c1,
  enter_exception (Z.land 0x400 Cause_IP_Ext_MASK) 0x80001000 Int 0 false demo_cp0 =
    Some ((), c1, []) ∧
  getIP 0 demo_cp0 = 0x300 ∧ Z.land (rget (reg c1) Cause) Cause_IP_MASK = 0x400.
Proof.
  destruct (exception_drops_software_ip demo_cp0 0x400 0x80001000 Int 0 false demo_cp0_wf)
    as (c1 & E & Hc & _); [vm_compute; split; congruence|].
  exists c1. split; [exact E|]. split; [reflexivity|]. rewrite Hc. reflexivity.
Defined.

Lemma random_cycle_witness : ∃ c',
  for_each (replicate 2 ()) (λ _, adjust_random) demo_cp0 = Some ((), c', []) ∧
  rget (reg c') Random = Z.shiftl 63 8.
Proof.
  destruct (random_cycle demo_cp0 9 2 demo_cp0_wf) as (c' & E & _ & Hr & _);
    [vm_compute; split; congruence|reflexivity|].
  exists c'. split; [exact E|]. rewrite Hr. reflexivity.
Defined.

Lemma address_translation_witness :
  translation demo_cp0 0x5123 true (Hit 0x3123 true) ∧
  address_trans 0x5123 DATASTORE 7 demo_cp0 =
    Some ((0x3123, Some true), demo_cp0 <| tlb_miss_user := false |>, []).
Proof.
  assert (Hc : chosen demo_cp0 0x5123 2 (MkTLB 0x5000 0x3700)).
  { split; [reflexivity|]. split; [split; [reflexivity|left; reflexivity]|].
    intros [|[|j]] e' Hj He'; [| |lia]; injection He' as <-; intros [H _]; discriminate H. }
  assert (Ht : translation demo_cp0 0x5123 true (Hit 0x3123 true)).
  { refine (T_hit _ _ _ 2 (MkTLB 0x5000 0x3700) _ Hc eq_refl _); [left; reflexivity|intros _; reflexivity]. }
  split; [exact Ht|].
  destruct (address_translation demo_cp0 0x5123 DATASTORE 7 demo_cp0_wf) as (o & _ & Ho & Ha); [split; lia|].
  rewrite <- (Ho _ Ht) in Ha. exact Ha.
Defined.

Lemma tlb_refill_witness : ∃ c',
  tlbwi_emulate 0 (demo_cp0 <| tlb := replicate 64 (MkTLB 0 0) |>) = Some ((), c', []) ∧ wf c'.
Proof.
  destruct (tlb_refill (demo_cp0 <| tlb := replicate 64 (MkTLB 0 0) |>) 0 3 0x5123 DATALOAD 7 KUSEG)
    as (c' & E & Hwf & _); try reflexivity.
  - destruct demo_cp0_wf. split; [reflexivity|assumption|assumption].
  - split; lia.
  - vm_compute. split; congruence.
  - intros j e Hj He. apply nthz_Some in He as [_ He].
    apply lookup_replicate in He as [-> _]. reflexivity.
  - exists c'. exact (conj E Hwf).
Defined.

Lemma register_access_witness : ∃ c' v,
  write_reg Status 0xffffffff demo_cp0 = Some ((), c', []) ∧
  read_reg 0 Status c' = Some (v, c', []).
Proof.
  destruct (register_access demo_cp0 0 Status 0xffffffff demo_cp0_wf) as (c' & v & E1 & E2 & _);
    [vm_compute; split; congruence|discriminate|].
  exists c', v. exact (conj E1 E2).
Defined.

Lemma debug_translation_witness :
  debug_tlb_translate demo_cp0 0x80000010 = (true, 0x10).
Proof.
  destruct (debug_translation demo_cp0 0x80000010 7 demo_cp0_wf) as [_ Hk]; [split; lia|].
  exact (proj1 (proj2 (Hk eq_refl eq_refl))).
Defined.

End CPZero.
