(* ===== verification/ISA.v ===== *)
(** * ISA: instruction fields, the decoding tables of ISA.h and the arithmetic
      of the execution unit (cpu.h, ISA.h, cpu.cc)

    The sums and differences of the execution unit are [None] where they overflow [int32].
    The products of the portable multiplication, which are [int]s too, are written with the
    two's complement wrap-around that every compiler for the hosts gives them. *)

From S2P Require Import Prelude Types.

Module ISA.

(** ** cpu.h: instruction fields *)
Definition NOP_INSTR : Z := 0.
Definition NONE_REG : Z := 32.
Definition RA_REG : Z := 31.

Definition opcode (i : Z) : Z := Z.land (Z.shiftr i 26) 0x3f.
Definition rs (i : Z) : Z := Z.land (Z.shiftr i 21) 0x1f.
Definition rt (i : Z) : Z := Z.land (Z.shiftr i 16) 0x1f.
Definition rd (i : Z) : Z := Z.land (Z.shiftr i 11) 0x1f.
Definition immed (i : Z) : Z := Z.land i 0xffff.
Definition s_immed (i : Z) : Z := s16 (Z.land i 0xffff).
Definition shamt (i : Z) : Z := Z.land (Z.shiftr i 6) 0x1f.
Definition funct (i : Z) : Z := Z.land i 0x3f.
Definition jumptarg (i : Z) : Z := Z.land i 0x03ffffff.

(** ** ISA.h: operation codes *)
Definition OP_SPECIAL : Z := 0.
Definition OP_BCOND : Z := 1.
Definition OP_J : Z := 2.
Definition OP_JAL : Z := 3.
Definition OP_BEQ : Z := 4.
Definition OP_BNE : Z := 5.
Definition OP_BLEZ : Z := 6.
Definition OP_BGTZ : Z := 7.
Definition OP_ADDI : Z := 8.
Definition OP_ADDIU : Z := 9.
Definition OP_SLTI : Z := 10.
Definition OP_SLTIU : Z := 11.
Definition OP_ANDI : Z := 12.
Definition OP_ORI : Z := 13.
Definition OP_XORI : Z := 14.
Definition OP_LUI : Z := 15.
Definition OP_COP0 : Z := 16.
Definition OP_COP1 : Z := 17.
Definition OP_COP2 : Z := 18.
Definition OP_COP3 : Z := 19.
Definition OP_LB : Z := 32.
Definition OP_LH : Z := 33.
Definition OP_LWL : Z := 34.
Definition OP_LW : Z := 35.
Definition OP_LBU : Z := 36.
Definition OP_LHU : Z := 37.
Definition OP_LWR : Z := 38.
Definition OP_SB : Z := 40.
Definition OP_SH : Z := 41.
Definition OP_SWL : Z := 42.
Definition OP_SW : Z := 43.
Definition OP_SWR : Z := 46.
Definition OP_CACHE : Z := 47.
Definition OP_LWC0 : Z := 48.
Definition OP_LWC1 : Z := 49.
Definition OP_LWC2 : Z := 50.
Definition OP_LWC3 : Z := 51.
Definition OP_SWC0 : Z := 56.
Definition OP_SWC1 : Z := 57.
Definition OP_SWC2 : Z := 58.
Definition OP_SWC3 : Z := 59.
Definition FUNCT_SLL : Z := 0.
Definition FUNCT_SRL : Z := 2.
Definition FUNCT_SRA : Z := 3.
Definition FUNCT_SLLV : Z := 4.
Definition FUNCT_SRLV : Z := 6.
Definition FUNCT_SRAV : Z := 7.
Definition FUNCT_JR : Z := 8.
Definition FUNCT_JALR : Z := 9.
Definition FUNCT_SYSCALL : Z := 12.
Definition FUNCT_BREAK : Z := 13.
Definition FUNCT_MFHI : Z := 16.
Definition FUNCT_MTHI : Z := 17.
Definition FUNCT_MFLO : Z := 18.
Definition FUNCT_MTLO : Z := 19.
Definition FUNCT_MULT : Z := 24.
Definition FUNCT_MULTU : Z := 25.
Definition FUNCT_DIV : Z := 26.
Definition FUNCT_DIVU : Z := 27.
Definition FUNCT_ADD : Z := 32.
Definition FUNCT_ADDU : Z := 33.
Definition FUNCT_SUB : Z := 34.
Definition FUNCT_SUBU : Z := 35.
Definition FUNCT_AND : Z := 36.
Definition FUNCT_OR : Z := 37.
Definition FUNCT_XOR : Z := 38.
Definition FUNCT_NOR : Z := 39.
Definition FUNCT_SLT : Z := 42.
Definition FUNCT_SLTU : Z := 43.
Definition FUNCT_TLBR : Z := 1.
Definition FUNCT_TLBWI : Z := 2.
Definition FUNCT_TLBWR : Z := 6.
Definition FUNCT_TLBP : Z := 8.
Definition FUNCT_RFE : Z := 16.
Definition BCOND_BLTZ : Z := 0.
Definition BCOND_BGEZ : Z := 1.
Definition BCONDE_BLTZAL : Z := 16.
Definition BCONDE_BGEZAL : Z := 17.
Definition COP_OP_MFC : Z := 0.
Definition COP_OP_MTC : Z := 4.
Definition COP_OP_BC : Z := 8.
Definition COP_BCF : Z := 0.
Definition COP_BCT : Z := 1.
Definition CPZERO_OP_SUSPEND : Z := 5.

(** ** ISA.h: decoding tables

    An entry is a pointer to one of the field functions; [NULL] is never
    called for the operation codes that other tables handle. *)
Inductive operand_decodepr := Rs | Rt | Rd | No | Ra | Null.

Definition call_decode (d : operand_decodepr) (i : Z) : option Z :=
  match d with
  | Rs => Some (rs i) | Rt => Some (rt i) | Rd => Some (rd i)
  | No => Some NONE_REG | Ra => Some RA_REG | Null => None
  end.

(** [table[i]], for an index that is a field of the instruction. *)
Definition dec_at (l : list operand_decodepr) (i : Z) : operand_decodepr :=
  nth (Z.to_nat i) l Null.
Definition flag_at (l : list bool) (i : Z) : bool := nth (Z.to_nat i) l false.

Definition firstSrcDecSpecialTable : list operand_decodepr := [
  Rt; No; Rt; Rt; Rt; No; Rt; Rt;
  Rs; Rs; No; No; No; No; No; No;
  No; Rd; No; Rd; No; No; No; No;
  Rs; Rs; Rs; Rs; No; No; No; No;
  Rs; Rs; Rs; Rs; Rs; Rs; Rs; Rs;
  No; No; Rs; Rs; No; No; No; No;
  No; No; No; No; No; No; No; No;
  No; No; No; No; No; No; No; No ].

Definition firstSrcDecBcondTable : list operand_decodepr := [
  Rs; Rs; No; No; No; No; No; No;
  No; No; No; No; No; No; No; No;
  Rs; Rs; No; No; No; No; No; No;
  No; No; No; No; No; No; No; No ].

Definition firstSrcDecTable : list operand_decodepr := [
  Null; Null; No; No; Rs; Rs; Rs; Rs;
  Rs; Rs; Rs; Rs; Rs; Rs; Rs; No;
  Null; Null; Null; Null; No; No; No; No;
  No; No; No; No; No; No; No; No;
  Rs; Rs; Rs; Rs; Rs; Rs; Rs; No;
  Rs; Rs; Rs; Rs; No; No; Rs; Rs;
  No; No; No; No; No; No; No; No;
  No; No; No; No; No; No; No; No ].

Definition secondSrcDecSpecialTable : list operand_decodepr := [
  No; No; No; No; Rs; No; Rs; Rs;
  No; No; No; No; No; No; No; No;
  No; No; No; No; No; No; No; No;
  Rt; Rt; Rt; Rt; No; No; No; No;
  Rt; Rt; Rt; Rt; Rt; Rt; Rt; Rt;
  No; No; Rt; Rt; No; No; No; No;
  No; No; No; No; No; No; No; No;
  No; No; No; No; No; No; No; No ].

Definition secondSrcDecTable : list operand_decodepr := [
  Null; No; No; No; Rt; Rt; No; No;
  No; No; No; No; No; No; No; No;
  No; No; No; No; No; No; No; No;
  No; No; No; No; No; No; No; No;
  No; No; No; No; No; No; No; No;
  No; No; No; No; No; No; No; No;
  No; No; No; No; No; No; No; No;
  No; No; No; No; No; No; No; No ].

Definition dstDecSpecialTable : list operand_decodepr := [
  Rd; No; Rd; Rd; Rd; No; Rd; Rd;
  No; Ra; No; No; No; No; No; No;
  Rd; No; Rd; No; No; No; No; No;
  No; No; No; No; No; No; No; No;
  Rd; Rd; Rd; Rd; Rd; Rd; Rd; Rd;
  No; No; Rd; Rd; No; No; No; No;
  No; No; No; No; No; No; No; No;
  No; No; No; No; No; No; No; No ].

Definition dstDecTable : list operand_decodepr := [
  Null; No; No; Ra; No; No; No; No;
  Rt; Rt; Rt; Rt; Rt; Rt; Rt; Rt;
  Null; Null; Null; Null; No; No; No; No;
  No; No; No; No; No; No; No; No;
  Rt; Rt; Rt; Rt; Rt; Rt; Rt; No;
  No; No; No; No; No; No; No; No;
  No; No; No; No; No; No; No; No;
  No; No; No; No; No; No; No; No ].

Section Flags.
Local Abbreviation T := true.
Local Abbreviation F := false.

Definition shamt_flag : list bool := [
  T; F; T; T; F; F; F; F;
  F; F; F; F; F; F; F; F;
  F; F; F; F; F; F; F; F;
  F; F; F; F; F; F; F; F;
  F; F; F; F; F; F; F; F;
  F; F; F; F; F; F; F; F;
  F; F; F; F; F; F; F; F;
  F; F; F; F; F; F; F; F ].

Definition s_imm_flag : list bool := [
  F; T; F; F; T; T; T; T;
  T; T; T; T; F; F; F; F;
  F; F; F; F; F; F; F; F;
  F; F; F; F; F; F; F; F;
  T; T; T; T; T; T; T; F;
  T; T; T; T; F; F; T; F;
  F; F; F; F; F; F; F; F;
  F; F; F; F; F; F; F; F ].

Definition imm_flag : list bool := [
  F; F; F; F; F; F; F; F;
  F; F; F; F; T; T; T; T;
  F; F; F; F; F; F; F; F;
  F; F; F; F; F; F; F; F;
  F; F; F; F; F; F; F; F;
  F; F; F; F; F; F; F; F;
  F; F; F; F; F; F; F; F;
  F; F; F; F; F; F; F; F ].

Definition mem_write_flag : list bool := [
  F; F; F; F; F; F; F; F;
  F; F; F; F; F; F; F; F;
  F; F; F; F; F; F; F; F;
  F; F; F; F; F; F; F; F;
  F; F; F; F; F; F; F; F;
  T; T; T; T; F; F; T; F;
  F; F; F; F; F; F; F; F;
  F; F; F; F; F; F; F; F ].

Definition mem_read_flag : list bool := [
  F; F; F; F; F; F; F; F;
  F; F; F; F; F; F; F; F;
  F; F; F; F; F; F; F; F;
  F; F; F; F; F; F; F; F;
  T; T; T; T; T; T; T; F;
  F; F; F; F; F; F; F; F;
  F; F; F; F; F; F; F; F;
  F; F; F; F; F; F; F; F ].

Definition RI_flag : list bool := [
  F; F; F; F; F; F; F; F;
  F; F; F; F; F; F; F; F;
  F; F; F; F; T; T; T; T;
  T; T; T; T; T; T; T; T;
  F; F; F; F; F; F; F; T;
  F; F; F; F; T; T; F; F;
  F; F; F; F; T; T; T; T;
  F; F; F; F; T; T; T; T ].

Definition RI_special_flag : list bool := [
  F; T; F; F; F; T; F; F;
  F; F; T; T; F; F; T; T;
  F; F; F; F; T; T; T; T;
  F; F; F; F; T; T; T; T;
  F; F; F; F; F; F; F; F;
  T; T; F; F; T; T; T; T;
  T; T; T; T; T; T; T; T;
  T; T; T; T; T; T; T; T ].

Definition RI_cache_op_flag : list bool := [
  T; F; T; T; F; F; T; T;
  T; F; T; T; T; T; T; T;
  T; F; F; F; F; F; F; F;
  F; F; F; F; F; F; F; F ].

Definition mul_div_flag : list bool := [
  F; F; F; F; F; F; F; F;
  F; F; F; F; F; F; F; F;
  T; T; T; T; F; F; F; F;
  T; T; T; T; F; F; F; F;
  F; F; F; F; F; F; F; F;
  F; F; F; F; F; F; F; F;
  F; F; F; F; F; F; F; F;
  F; F; F; F; F; F; F; F ].

Definition cop_flag : list bool := [
  F; F; F; F; F; F; F; F;
  F; F; F; F; F; F; F; F;
  T; T; T; T; F; F; F; F;
  F; F; F; F; F; F; F; F;
  F; F; F; F; F; F; F; F;
  F; F; F; F; F; F; F; F;
  F; F; F; F; F; F; F; F;
  F; F; F; F; F; F; F; F ].

End Flags.

(** [std::map<int, int>]; [operator[]] inserts 0 for the other keys. *)
Definition mul_div_delay (f : Z) : Z :=
  if (f =? FUNCT_MTLO) || (f =? FUNCT_MTHI) then 2
  else if (f =? FUNCT_MULTU) || (f =? FUNCT_MULT) then 3
  else if (f =? FUNCT_DIV) || (f =? FUNCT_DIVU) then 9
  else 0.

(** ** cpu.cc: shifts *)

Definition srl (a b : Z) : Z :=
  if b =? 0 then a
  else if b =? 32 then 0
  else Z.land (Z.shiftr a b) (s32 (s32 (Z.shiftl 1 (32 - b)) - 1)).

Definition sra (a b : Z) : Z :=
  if b =? 0 then a
  else Z.lor (Z.shiftr a b)
         (s32 (Z.land (Z.shiftr a 31) 0x01 *
               s32 (Z.shiftl (s32 (s32 (Z.shiftl 1 b) - 1)) (32 - b)))).

(** ** cpu.cc: 64-bit products, (hi, lo) *)

(** [HAVE_LONG_LONG] *)
Definition mult64 (n m : Z) : Z * Z :=
  let result := u64 (n * m) in (u32 (Z.shiftr result 32), u32 result).

Definition mult64s (n m : Z) : Z * Z :=
  let result := n * m in (u32 (Z.shiftr result 32), u32 result).

(** The portable branches: [uint16] operands are promoted to [int], whose
    products are taken to wrap (C++ leaves an overflow undefined), and [p] makes the divisions unsigned. *)
Definition mult64_portable (n m : Z) : Z * Z :=
  let p := 65536 in
  let w := u16 (Z.land (Z.shiftr n 16) 0xffff) in
  let x := u16 (Z.land n 0xffff) in
  let y := u16 (Z.land (Z.shiftr m 16) 0xffff) in
  let z := u16 (Z.land m 0xffff) in
  let zx := u32 (s32 (z * x)) in
  let zw := u32 (s32 (z * w)) in
  let yx := u32 (s32 (y * x)) in
  let yw := u32 (s32 (y * w)) in
  let c := u16 (zx mod p) in
  let b := u16 (u32 (zw + zx / p) mod p) in
  let a := u16 (u32 (zw + zx / p) / p) in
  let f := u16 (yx mod p) in
  let e := u16 (u32 (yw + yx / p) mod p) in
  let d := u16 (u32 (yw + yx / p) / p) in
  let h := u16 (u32 (b + f) mod p) in
  let g := u16 (u32 (u32 (a + e) + u32 (b + f) / p) mod p) in
  let i := u16 (u32 (d + u32 (u32 (a + e) + u32 (b + f) / p) / p)) in
  (u32 (Z.lor (s32 (Z.shiftl i 16)) g), u32 (Z.lor (s32 (Z.shiftl h 16)) c)).

Definition mult64s_portable (n m : Z) : Z * Z :=
  let result_sign := xorb (n <? 0) (m <? 0) in
  let n_abs := if n <? 0 then s32 (- n) else n in
  let m_abs := if m <? 0 then s32 (- m) else m in
  let '(hi, lo) := mult64_portable (u32 n_abs) (u32 m_abs) in
  if result_sign then
    let hi := lnot32 hi in
    let lo := lnot32 lo in
    if nz (Z.land lo 0x80000000) then
      let lo := u32 (lo + 1) in
      if negb (nz (Z.land lo 0x80000000)) then (u32 (hi + 1), lo) else (hi, lo)
    else (hi, u32 (lo + 1))
  else (hi, lo).

(** ** cpu.cc: the operations of [funct_exec]

    The operands are the two 32-bit words the instruction reads. The sums and differences are
    taken in [int32], where an overflow is undefined: [None]. The result of ADD and SUB is a
    word, or [Some None] for the overflow exception. *)
Definition int32_value (v : Z) : option Z := if (- 2 ^ 31 <=? v) && (v <? 2 ^ 31) then Some v else None.

Definition add_result (ua ub : Z) : option (option Z) :=
  let a := s32 ua in let b := s32 ub in
  (sum ← int32_value (a + b);
   if ((a <? 0) && (b <? 0) && negb (sum <? 0)) || ((0 <=? a) && (0 <=? b) && negb (0 <=? sum))
   then Some None else Some (Some (u32 sum)))%stdpp.

Definition sub_result (ua ub : Z) : option (option Z) :=
  let a := s32 ua in let b := s32 ub in
  (diff ← int32_value (a - b);
   if ((a <? 0) && negb (b <? 0) && negb (diff <? 0)) || (negb (a <? 0) && (b <? 0) && (diff <? 0))
   then Some None else Some (Some (u32 diff)))%stdpp.

Definition addu_result (ua ub : Z) : option (option Z) :=
  (sum ← int32_value (s32 ua + s32 ub); Some (Some (u32 sum)))%stdpp.
Definition subu_result (ua ub : Z) : option (option Z) :=
  (diff ← int32_value (s32 ua - s32 ub); Some (Some (u32 diff)))%stdpp.

(** Quotient and remainder; [None] traps ([/ 0], [INT_MIN / -1]). *)
Definition div_result (ua ub : Z) : option (Z * Z) :=
  let a := s32 ua in let b := s32 ub in
  if (b =? 0) || ((a =? - 2 ^ 31) && (b =? -1)) then None
  else Some (u32 (Z.quot a b), u32 (Z.rem a b)).

Definition divu_result (a b : Z) : option (Z * Z) :=
  if b =? 0 then None else Some (a / b, a mod b).

(** ** cpu.cc: unaligned loads and stores; [None] is [fatal_error] *)

Section Endian.
  Variable opt_bigendian : bool.

Definition lwr (regval memval offset : Z) : option Z :=
  if opt_bigendian then
    match offset with
    | 0 => Some (Z.lor (Z.land regval 0xffffff00) (Z.shiftr (Z.land memval 0xff000000) 24))
    | 1 => Some (Z.lor (Z.land regval 0xffff0000) (Z.shiftr (Z.land memval 0xffff0000) 16))
    | 2 => Some (Z.lor (Z.land regval 0xff000000) (Z.shiftr (Z.land memval 0xffffff00) 8))
    | 3 => Some memval
    | _ => None
    end
  else
    match offset with
    | 0 => Some memval
    | 1 => Some (Z.lor (Z.land regval 0xff000000) (Z.shiftr (Z.land memval 0xffffff00) 8))
    | 2 => Some (Z.lor (Z.land regval 0xffff0000) (Z.shiftr (Z.land memval 0xffff0000) 16))
    | 3 => Some (Z.lor (Z.land regval 0xffffff00) (Z.shiftr (Z.land memval 0xff000000) 24))
    | _ => None
    end.

Definition lwl (regval memval offset : Z) : option Z :=
  if opt_bigendian then
    match offset with
    | 0 => Some memval
    | 1 => Some (Z.lor (u32 (Z.shiftl (Z.land memval 0xffffff) 8)) (Z.land regval 0xff))
    | 2 => Some (Z.lor (u32 (Z.shiftl (Z.land memval 0xffff) 16)) (Z.land regval 0xffff))
    | 3 => Some (Z.lor (u32 (Z.shiftl (Z.land memval 0xff) 24)) (Z.land regval 0xffffff))
    | _ => None
    end
  else
    match offset with
    | 0 => Some (Z.lor (u32 (Z.shiftl (Z.land memval 0xff) 24)) (Z.land regval 0xffffff))
    | 1 => Some (Z.lor (u32 (Z.shiftl (Z.land memval 0xffff) 16)) (Z.land regval 0xffff))
    | 2 => Some (Z.lor (u32 (Z.shiftl (Z.land memval 0xffffff) 8)) (Z.land regval 0xff))
    | 3 => Some memval
    | _ => None
    end.

Definition swl (regval memval offset : Z) : option Z :=
  if opt_bigendian then
    match offset with
    | 0 => Some regval
    | 1 => Some (Z.lor (Z.land memval 0xff000000) (Z.land (Z.shiftr regval 8) 0xffffff))
    | 2 => Some (Z.lor (Z.land memval 0xffff0000) (Z.land (Z.shiftr regval 16) 0xffff))
    | 3 => Some (Z.lor (Z.land memval 0xffffff00) (Z.land (Z.shiftr regval 24) 0xff))
    | _ => None
    end
  else
    match offset with
    | 0 => Some (Z.lor (Z.land memval 0xffffff00) (Z.land (Z.shiftr regval 24) 0xff))
    | 1 => Some (Z.lor (Z.land memval 0xffff0000) (Z.land (Z.shiftr regval 16) 0xffff))
    | 2 => Some (Z.lor (Z.land memval 0xff000000) (Z.land (Z.shiftr regval 8) 0xffffff))
    | 3 => Some regval
    | _ => None
    end.

Definition swr (regval memval offset : Z) : option Z :=
  if opt_bigendian then
    match offset with
    | 0 => Some (Z.lor (Z.land (u32 (Z.shiftl regval 24)) 0xff000000) (Z.land memval 0xffffff))
    | 1 => Some (Z.lor (Z.land (u32 (Z.shiftl regval 16)) 0xffff0000) (Z.land memval 0xffff))
    | 2 => Some (Z.lor (Z.land (u32 (Z.shiftl regval 8)) 0xffffff00) (Z.land memval 0xff))
    | 3 => Some regval
    | _ => None
    end
  else
    match offset with
    | 0 => Some regval
    | 1 => Some (Z.lor (Z.land (u32 (Z.shiftl regval 8)) 0xffffff00) (Z.land memval 0xff))
    | 2 => Some (Z.lor (Z.land (u32 (Z.shiftl regval 16)) 0xffff0000) (Z.land memval 0xffff))
    | 3 => Some (Z.lor (Z.land (u32 (Z.shiftl regval 24)) 0xff000000) (Z.land memval 0xffffff))
    | _ => None
    end.

End Endian.

(** ** cpu.cc: exception priorities *)

Definition prio : list (Z * Z * Z) := [    (* priority, excCode, mode *)
  (1, AdEL, INSTFETCH);
  (2, TLBL, INSTFETCH); (2, TLBS, INSTFETCH);
  (3, IBE, ANY);
  (4, Ov, ANY); (4, Tr, ANY); (4, Sys, ANY);
  (4, Bp, ANY); (4, RI, ANY); (4, CpU, ANY);
  (5, AdEL, DATALOAD); (5, AdES, ANY);
  (6, TLBL, DATALOAD); (6, TLBS, DATALOAD);
  (6, TLBL, DATASTORE); (6, TLBS, DATASTORE);
  (7, Mod, ANY);
  (8, DBE, ANY);
  (9, Int, ANY);
  (0, ANY, ANY) ].

Fixpoint search_prio (l : list (Z * Z * Z)) (excCode mode : Z) : Z :=
  match l with
  | [] => 0
  | (priority, code, m) :: l =>
      if priority =? 0 then 0
      else if ((excCode =? code) || (code =? ANY)) && ((mode =? m) || (m =? ANY)) then priority
      else search_prio l excCode mode
  end.

Definition exception_priority (excCode mode : Z) : Z := search_prio prio excCode mode.

(** ** Lemmas *)

Lemma u32_s32 z : u32 (s32 z) = u32 z.
Proof. apply (wrap_swrap 32). lia. Qed.

Lemma u32_lor a b : u32 (Z.lor a b) = Z.lor (u32 a) (u32 b).
Proof. bitblast i. Qed.

Lemma u32_land a b : u32 (Z.land a b) = Z.land (u32 a) (u32 b).
Proof. bitblast i. Qed.

(** A signed word in terms of the unsigned one. *)
Lemma s32_eq a : is_u32 a → s32 a = if a <? 2 ^ 31 then a else a - 2 ^ 32.
Proof.
  intros Ha. unfold s32, swrap. rewrite (wrap_small 32 a) by done.
  assert (Hb : Z.testbit a (32 - 1) = negb (a <? 2 ^ 31)).
  { rewrite Z.testbit_odd, Z.shiftr_div_pow2 by lia. unfold is_u in Ha. change (32 - 1) with 31.
    destruct (Z.ltb_spec a (2 ^ 31)).
    - by rewrite Z.div_small by lia.
    - replace (a / 2 ^ 31) with 1; [done|]. apply Z.div_unique with (a - 2 ^ 31); lia. }
  rewrite Hb. by destruct (a <? 2 ^ 31).
Qed.

Lemma s32_wrap z : s32 z = s32 (u32 z).
Proof.
  unfold s32, swrap. rewrite u32_spec by lia. simpl (31 <? 32).
  replace (wrap 32 (u32 z)) with (wrap 32 z); [done|]. symmetry. apply wrap_idem. lia.
Qed.

Lemma s32_signed z : - 2 ^ 31 ≤ z < 2 ^ 31 → s32 z = z.
Proof.
  intros Hz. rewrite s32_wrap, s32_eq by apply (wrap_range 32 z ltac:(lia)).
  unfold u32, wrap. destruct (decide (0 ≤ z)).
  - rewrite Z.mod_small by lia. destruct (Z.ltb_spec z (2 ^ 31)); lia.
  - replace (z mod 2 ^ 32) with (z + 2 ^ 32)
      by (apply Z.mod_unique with (-1); lia).
    destruct (Z.ltb_spec (z + 2 ^ 32) (2 ^ 31)); lia.
Qed.

Lemma s32_range z : - 2 ^ 31 ≤ s32 z < 2 ^ 31.
Proof. apply (swrap_range 32). lia. Qed.

Lemma u32_s32_small z : is_u32 z → u32 (s32 z) = z.
Proof. intros. rewrite u32_s32. by apply (wrap_small 32). Qed.

Lemma hi_lo r hi lo : is_u32 hi → is_u32 lo → u64 r = hi * 2 ^ 32 + lo →
  u32 (Z.shiftr r 32) = hi ∧ u32 r = lo.
Proof.
  intros Hh Hl E. unfold is_u in *. unfold u64, u32, wrap in *.
  rewrite Z.shiftr_div_pow2 by lia. pose proof (Z_div_mod_eq_full r (2 ^ 64)). split.
  - symmetry. apply Z.mod_unique with (r / 2 ^ 64); [lia|].
    symmetry. apply Z.div_unique with lo; lia.
  - symmetry. apply Z.mod_unique with (r / 2 ^ 64 * 2 ^ 32 + hi); lia.
Qed.

Lemma mult64s_hi_lo n m hi lo : is_u32 hi → is_u32 lo → u64 (n * m) = hi * 2 ^ 32 + lo →
  mult64s n m = (hi, lo).
Proof. intros Hh Hl E. unfold mult64s. by destruct (hi_lo (n * m) hi lo Hh Hl E) as [-> ->]. Qed.

(** Both halves of the product of two words, as it is computed. *)
Lemma mult64_spec n m : is_u32 n → is_u32 m →
  ∃ hi lo, mult64 n m = (hi, lo) ∧ is_u32 hi ∧ is_u32 lo ∧ n * m = hi * 2 ^ 32 + lo.
Proof.
  intros Hn Hm. unfold is_u in *.
  assert (Hnm : 0 ≤ n * m < 2 ^ 64) by nia.
  exists (n * m / 2 ^ 32), ((n * m) mod 2 ^ 32).
  pose proof (Z.mod_pos_bound (n * m) (2 ^ 32) ltac:(lia)).
  assert (Hq : 0 ≤ n * m / 2 ^ 32 < 2 ^ 32).
  { split; [apply Z.div_pos; lia|]. apply Z.div_lt_upper_bound; lia. }
  pose proof (Z_div_mod_eq_full (n * m) (2 ^ 32)). split_and!; try lia.
  assert (Hu : u64 (n * m) = n * m) by (by apply (wrap_small 64)).
  unfold mult64. cbv zeta. rewrite Hu.
  destruct (hi_lo (n * m) (n * m / 2 ^ 32) ((n * m) mod 2 ^ 32)) as [-> ->]; try done.
  rewrite Hu. lia.
Qed.

Lemma half_range z : 0 ≤ z < 65536 → u16 z = z.
Proof. apply u16_small. Qed.

Lemma pack_halves a b : is_u16 a → is_u16 b →
  u32 (Z.lor (s32 (Z.shiftl a 16)) b) = a * 65536 + b.
Proof.
  intros Ha Hb. rewrite u32_lor, u32_s32, <- u32_lor.
  assert (E : Z.lor (Z.shiftl a 16) b = a * 65536 + b).
  { assert (Hz : Z.land (Z.shiftl a 16) b = 0) by bitblast i.
    pose proof (Z.add_lor_land (Z.shiftl a 16) b) as E. rewrite Hz in E.
    pose proof (Z.shiftl_mul_pow2 a 16 ltac:(lia)). lia. }
  rewrite E. unfold is_u in *. apply u32_small. lia.
Qed.

Lemma divmod_split t p : 0 < p → ∃ q r, t / p = q ∧ t mod p = r ∧ t = p * q + r ∧ 0 ≤ r < p.
Proof.
  intros Hp. exists (t / p), (t mod p). split_and!; try done.
  - apply Z_div_mod_eq_full.
  - apply Z.mod_pos_bound, Hp.
  - apply Z.mod_pos_bound, Hp.
Qed.

Lemma mult64_portable_spec n m : is_u32 n → is_u32 m →
  ∃ hi lo, mult64_portable n m = (hi, lo) ∧ is_u32 hi ∧ is_u32 lo ∧ n * m = hi * 2 ^ 32 + lo.
Proof.
  intros Hn Hm. unfold mult64_portable. cbv zeta.
  assert (Hhalf : ∀ v, is_u32 v → u16 (Z.land (Z.shiftr v 16) 0xffff) = v / 65536 ∧
    u16 (Z.land v 0xffff) = v mod 65536 ∧ 0 ≤ v / 65536 < 65536).
  { intros v Hv. unfold is_u in *. change 0xffff with (Z.ones 16).
    rewrite !Z.land_ones, Z.shiftr_div_pow2 by lia. change (2 ^ 16) with 65536.
    assert (0 ≤ v / 65536 < 65536) by (split; [apply Z.div_pos|apply Z.div_lt_upper_bound]; lia).
    pose proof (Z.mod_pos_bound v 65536 ltac:(lia)).
    by rewrite (Z.mod_small (v / 65536)), !u16_small by lia. }
  destruct (Hhalf n Hn) as (-> & -> & Hw), (Hhalf m Hm) as (-> & -> & Hy).
  revert Hw Hy.
  destruct (divmod_split n 65536) as (w & x & -> & -> & En & Hx); [lia|].
  destruct (divmod_split m 65536) as (y & z & -> & -> & Em & Hz); [lia|]. intros Hw Hy.
  unfold is_u in *.
  assert (Hp : ∀ s t, 0 ≤ s < 65536 → 0 ≤ t < 65536 → 0 ≤ s * t ≤ 65535 * 65535) by (intros; nia).
  pose proof (Hp z x Hz Hx). pose proof (Hp z w Hz Hw).
  pose proof (Hp y x Hy Hx). pose proof (Hp y w Hy Hw). clear Hp.
  rewrite !u32_s32_small by (split; lia).
  destruct (divmod_split (z * x) 65536) as (q1 & c & -> & -> & E1 & Hc); [lia|].
  destruct (divmod_split (y * x) 65536) as (q2 & f & -> & -> & E2 & Hf); [lia|].
  rewrite !(u32_small (_ + q1)), !(u32_small (_ + q2)) by lia.
  destruct (divmod_split (z * w + q1) 65536) as (a & b & -> & -> & E3 & Hb); [lia|].
  destruct (divmod_split (y * w + q2) 65536) as (d & e & -> & -> & E4 & He); [lia|].
  rewrite (u16_small a), (u16_small b), (u16_small c), (u16_small d), (u16_small e),
    (u16_small f), !(u32_small (b + f)), !(u32_small (a + e)) by lia.
  destruct (divmod_split (b + f) 65536) as (k & h & -> & -> & E5 & Hh); [lia|].
  rewrite !(u32_small (a + e + k)) by lia.
  destruct (divmod_split (a + e + k) 65536) as (j & g & -> & -> & E6 & Hg); [lia|].
  rewrite (u32_small (d + j)), (u16_small h), (u16_small g) by lia.
  assert (Enm : n * m = 65536 ^ 3 * (d + j) + 65536 ^ 2 * g + 65536 * h + c).
  { rewrite En, Em. transitivity (65536 ^ 2 * (y * w) + 65536 * (z * w + y * x) + z * x); [ring|].
    lia. }
  assert (0 ≤ n * m < 2 ^ 64) by nia.
  rewrite (u16_small (d + j)) by lia.
  rewrite !pack_halves by (split; lia).
  eexists _, _. split; [reflexivity|]. split_and!; lia.
Qed.

Lemma top_bit v : is_u32 v → nz (Z.land v 0x80000000) = (2 ^ 31 <=? v).
Proof.
  intros Hv. assert (E : Z.land v 0x80000000 = 2 ^ 31 * (v / 2 ^ 31)).
  { by rewrite Z.mul_comm, <- (land_lnot32 v 31) by (done || lia). }
  unfold is_u in Hv. rewrite E. unfold nz. destruct (Z.leb_spec (2 ^ 31) v).
  - replace (v / 2 ^ 31) with 1; [done|]. apply Z.div_unique with (v - 2 ^ 31); lia.
  - by rewrite Z.div_small by lia.
Qed.

Lemma top_bit_sign v : is_u32 v → nz (Z.land v 0x80000000) = (s32 v <? 0).
Proof.
  intros Hv. rewrite top_bit, s32_eq by done. unfold is_u in Hv.
  destruct (Z.leb_spec (2 ^ 31) v), (Z.ltb_spec v (2 ^ 31)); lia.
Qed.

(** The negation of a double word, word by word. *)
Lemma negate_hi_lo hi lo : is_u32 hi → is_u32 lo →
  let lo' := lnot32 lo in
  (if nz (Z.land lo' 0x80000000) then
     let lo := u32 (lo' + 1) in
     if negb (nz (Z.land lo 0x80000000)) then (u32 (lnot32 hi + 1), lo) else (lnot32 hi, lo)
   else (lnot32 hi, u32 (lo' + 1))) =
  (if lo =? 0 then u32 (- hi) else u32 (- hi - 1), u32 (- lo)).
Proof.
  intros Hh Hl. cbv zeta. unfold is_u in *.
  assert (Hn : ∀ v, 0 ≤ v < 2 ^ 32 → lnot32 v = 2 ^ 32 - 1 - v).
  { intros v Hv. unfold lnot32. change (Z.lnot v) with (Z.pred (- v)). unfold u32, wrap.
    symmetry. apply Z.mod_unique with (-1); lia. }
  rewrite !Hn by lia. rewrite (top_bit (2 ^ 32 - 1 - lo)) by (split; lia).
  assert (Hneg : ∀ v, 0 ≤ v < 2 ^ 32 → u32 (2 ^ 32 - 1 - v + 1) = u32 (- v)).
  { intros v Hv. unfold u32, wrap. replace (2 ^ 32 - 1 - v + 1) with (- v + 1 * 2 ^ 32) by lia.
    by rewrite Z_mod_plus_full. }
  assert (Hneg1 : u32 (- hi - 1) = 2 ^ 32 - 1 - hi).
  { unfold u32, wrap. symmetry. apply Z.mod_unique with (-1); lia. }
  rewrite !Hneg, Hneg1 by lia. rewrite (top_bit (u32 (- lo))) by apply u32_range.
  destruct (Z.eqb_spec lo 0) as [->|Hne]; [done|].
  assert (E : u32 (- lo) = 2 ^ 32 - lo).
  { unfold u32, wrap. symmetry. apply Z.mod_unique with (-1); lia. }
  rewrite E. destruct (Z.leb_spec (2 ^ 31) (2 ^ 32 - 1 - lo)); [|done].
  destruct (Z.leb_spec (2 ^ 31) (2 ^ 32 - lo)); [done|lia].
Qed.

Lemma shifts_eq (a b : Z) (Ha : is_u32 a) (Hb : 0 ≤ b < 32) :
  u32 (srl (s32 a) b) = Z.shiftr a b ∧ u32 (sra (s32 a) b) = u32 (Z.shiftr (s32 a) b).
Proof.
  assert (Hones : ∀ k, 0 ≤ k ≤ 31 → s32 (s32 (Z.shiftl 1 k) - 1) = Z.ones k).
  { intros k Hk. rewrite Z.shiftl_1_l, Z.ones_equiv.
    assert (1 ≤ 2 ^ k) by (pose proof (Z.pow_pos_nonneg 2 k); lia).
    assert (2 ^ k ≤ 2 ^ 31) by (apply Z.pow_le_mono_r; lia).
    rewrite s32_wrap, <- (u32_sub_l (s32 _)), u32_s32, u32_sub_l, <- s32_wrap.
    rewrite s32_signed by lia. lia. }
  assert (Hbit : ∀ i, 0 ≤ i → Z.testbit (s32 a) i = Z.testbit a (if i <? 32 then i else 31)).
  { intros i Hi. unfold s32, swrap. rewrite (wrap_small 32 a) by done.
    change (32 - 1) with 31. destruct (Z.testbit a 31) eqn:E.
    - replace (a - 2 ^ 32) with (Z.lor a (Z.lnot (Z.ones 32))).
      + rewrite Z.lor_spec, tb_lnot, Z.testbit_ones_nonneg by lia.
        destruct (Z.ltb_spec i 32); cbn [negb]; [by rewrite orb_false_r|by rewrite orb_true_r, E].
      + assert (Hz : Z.land a (Z.lnot (Z.ones 32)) = 0).
        { rewrite <- Z.ldiff_land, Z.ldiff_ones_r by lia. unfold is_u in Ha.
          by rewrite Z.shiftr_div_pow2, Z.div_small by lia. }
        pose proof (Z.add_lor_land a (Z.lnot (Z.ones 32))) as Hs. rewrite Hz in Hs.
        change (Z.lnot (Z.ones 32)) with (- 2 ^ 32) in *. lia.
    - destruct (Z.ltb_spec i 32); [done|]. rewrite E. by apply (testbit_high 32). }
  split.
  - unfold srl. destruct (Z.eqb_spec b 0) as [->|Hb0].
    { rewrite u32_s32_small by done. by rewrite Z.shiftr_0_r. }
    destruct (Z.eqb_spec b 32); [lia|]. rewrite Hones by lia.
    apply Z.bits_inj'. intros i Hi.
    rewrite u32_spec, Z.land_spec, !Z.shiftr_spec, Z.testbit_ones_nonneg by lia.
    rewrite Hbit by lia. destruct (Z.ltb_spec i 32); simpl.
    + destruct (Z.ltb_spec i (32 - b)), (Z.ltb_spec (i + b) 32); try lia;
        rewrite ?andb_true_r, ?andb_false_r; [done|].
      by rewrite (testbit_high 32 a) by (done || lia).
    + by rewrite (testbit_high 32 a) by (done || lia).
  - unfold sra. destruct (Z.eqb_spec b 0) as [->|Hb0]; [by rewrite Z.shiftr_0_r|].
    rewrite Hones by lia. rewrite u32_lor, u32_s32.
    assert (Hs : Z.land (Z.shiftr (s32 a) 31) 1 = Z.b2z (Z.testbit a 31)).
    { change 1 with (Z.ones 1) at 1. rewrite Z.land_ones by lia. change (2 ^ 1) with 2.
      rewrite <- Z.bit0_mod, Z.shiftr_spec by lia. by rewrite Hbit by lia. }
    rewrite Hs. rewrite <- u32_lor. apply Z.bits_inj'. intros i Hi.
    rewrite !u32_spec, Z.lor_spec, !Z.shiftr_spec by lia.
    destruct (Z.ltb_spec i 32); [|done]. cbn [andb]. rewrite Hbit by lia.
    destruct (Z.testbit a 31) eqn:E; cbn [Z.b2z].
    + rewrite Z.mul_1_l.
      rewrite <- (Z.mod_pow2_bits_low (s32 _) 32 i) by lia. change (s32 ?x mod 2 ^ 32) with (u32 (s32 x)).
      rewrite u32_s32, u32_spec by lia. destruct (Z.ltb_spec i 32); [|lia]. cbn [andb].
      rewrite tb_mask by lia.
      destruct (Z.ltb_spec (i + b) 32), (Z.leb_spec (32 - b) i), (Z.ltb_spec i (32 - b + b));
        try lia; cbn [andb]; rewrite ?orb_false_r, ?orb_true_r; congruence.
    + rewrite Z.mul_0_l, Z.bits_0, orb_false_r. done.
Qed.

Lemma int32_value_eq v : int32_value v = if decide (- 2 ^ 31 ≤ v < 2 ^ 31) then Some v else None.
Proof.
  unfold int32_value. destruct (decide _); destruct (Z.leb_spec (- 2 ^ 31) v), (Z.ltb_spec v (2 ^ 31)); done || lia.
Qed.

Lemma u32_s32_add a b : u32 (s32 a + s32 b) = u32 (a + b).
Proof. by rewrite <- u32_add_l, u32_s32, u32_add_l, <- u32_add_r, u32_s32, u32_add_r. Qed.
Lemma u32_s32_sub a b : u32 (s32 a - s32 b) = u32 (a - b).
Proof. by rewrite <- u32_sub_l, u32_s32, u32_sub_l, <- u32_sub_r, u32_s32, u32_sub_r. Qed.

(** The overflow tests look at a value that has not overflowed. *)
Lemma add_sub_eq a b :
  (add_result a b = if decide (- 2 ^ 31 ≤ s32 a + s32 b < 2 ^ 31) then Some (Some (u32 (a + b))) else None) ∧
  (sub_result a b = if decide (- 2 ^ 31 ≤ s32 a - s32 b < 2 ^ 31) then Some (Some (u32 (a - b))) else None) ∧
  addu_result a b = add_result a b ∧ subu_result a b = sub_result a b.
Proof.
  unfold add_result, sub_result, addu_result, subu_result. rewrite !int32_value_eq, <- u32_s32_add, <- u32_s32_sub.
  split_and!.
  all: repeat match goal with |- context [decide ?P] => destruct (decide P) end; try done; cbn [mbind option_bind];
    repeat match goal with
    | |- context [?x <? ?y] => destruct (Z.ltb_spec x y)
    | |- context [?x <=? ?y] => destruct (Z.leb_spec x y)
    end; cbn [andb orb negb]; done || lia.
Qed.

(** ** Properties *)

(** C32 the 64-bit products: the high and low words of the full product, unsigned
    and signed, and the portable 16-bit algorithms, compiled where there is no
    64-bit type, compute the same words. *)
Theorem products_correct (n m : Z) (Hn : is_u32 n) (Hm : is_u32 m) :
  (∃ hi lo, mult64 n m = (hi, lo) ∧ is_u32 hi ∧ is_u32 lo ∧ n * m = hi * 2 ^ 32 + lo) ∧
  mult64_portable n m = mult64 n m ∧
  mult64s_portable (s32 n) (s32 m) = mult64s (s32 n) (s32 m).
Proof.
  split; [by apply mult64_spec|]. split.
  { destruct (mult64_spec n m Hn Hm) as (hi & lo & -> & Hh & Hl & E).
    destruct (mult64_portable_spec n m Hn Hm) as (hi' & lo' & -> & Hh' & Hl' & E').
    unfold is_u in *. f_equal; lia. }
  assert (Habs : ∀ v, let a := if s32 v <? 0 then s32 (- s32 v) else s32 v in u32 a = Z.abs (s32 v)).
  { intros v. cbv zeta. pose proof (s32_range v). destruct (Z.ltb_spec (s32 v) 0).
    - rewrite u32_s32, u32_small by lia. lia.
    - rewrite u32_small by lia. lia. }
  unfold mult64s_portable. rewrite !Habs.
  pose proof (s32_range n) as Rn. pose proof (s32_range m) as Rm.
  destruct (mult64_portable_spec (Z.abs (s32 n)) (Z.abs (s32 m))) as (hi & lo & -> & Hh & Hl & E);
    [split; lia|split; lia|].
  pose proof (negate_hi_lo hi lo Hh Hl) as Hneg. cbv zeta in Hneg.
  rewrite Hneg. clear Hneg Habs. symmetry. rewrite <- Z.abs_mul in E.
  unfold is_u in *.
  destruct (xorb (s32 n <? 0) (s32 m <? 0)) eqn:Hx.
  - assert (E' : s32 n * s32 m = - (hi * 2 ^ 32 + lo)).
    { rewrite <- E. destruct (Z.ltb_spec (s32 n) 0), (Z.ltb_spec (s32 m) 0); simpl in Hx; try done;
        rewrite Z.abs_neq by nia; lia. }
    assert (Hw : ∀ h l, is_u32 h → is_u32 l → (∃ q, s32 n * s32 m = q * 2 ^ 64 + (h * 2 ^ 32 + l)) →
      mult64s (s32 n) (s32 m) = (h, l)).
    { intros h l Hh' Hl' [q Hq]. apply mult64s_hi_lo; [done..|]. unfold u64, wrap, is_u in *.
      symmetry. apply Z.mod_unique with q; lia. }
    apply Hw; [destruct (lo =? 0); apply u32_range|apply u32_range|]. rewrite E'.
    unfold u32, wrap.
    pose proof (Z_div_mod_eq_full (- lo) (2 ^ 32)). pose proof (Z_div_mod_eq_full (- hi) (2 ^ 32)).
    pose proof (Z_div_mod_eq_full (- hi - 1) (2 ^ 32)).
    destruct (Z.eqb_spec lo 0) as [->|Hne].
    + exists (- hi / 2 ^ 32). rewrite Z.mod_0_l by lia. lia.
    + assert (- lo / 2 ^ 32 = -1) by (symmetry; apply Z.div_unique with (2 ^ 32 - lo); lia).
      exists ((- hi - 1) / 2 ^ 32). lia.
  - assert (E' : s32 n * s32 m = hi * 2 ^ 32 + lo).
    { rewrite <- E. destruct (Z.ltb_spec (s32 n) 0), (Z.ltb_spec (s32 m) 0); simpl in Hx; try done;
        rewrite Z.abs_eq by nia; lia. }
    apply mult64s_hi_lo; [done..|]. rewrite E'. apply (wrap_small 64). split; lia.
Qed.

Lemma products_correct_witness :
  mult64s_portable (s32 0x80000000) (s32 0xfffffffd) = mult64s (s32 0x80000000) (s32 0xfffffffd).
Proof.
  assert (H1 : is_u32 0x80000000) by (split; lia).
  assert (H2 : is_u32 0xfffffffd) by (split; lia).
  exact (proj2 (proj2 (products_correct 0x80000000 0xfffffffd H1 H2))).
Defined.

(** The right shifts of the execution unit, which are written with the signed
    shift of C, are the logical and the arithmetic shift of the word. *)
Theorem shifts_correct (a b : Z) (Ha : is_u32 a) (Hb : 0 ≤ b < 32) :
  u32 (srl (s32 a) b) = Z.shiftr a b ∧ u32 (sra (s32 a) b) = u32 (Z.shiftr (s32 a) b).
Proof. by apply shifts_eq. Qed.

Lemma shifts_correct_witness :
  u32 (srl (s32 0x80000010) 4) = 0x08000001 ∧ u32 (sra (s32 0x80000010) 4) = 0xf8000001.
Proof.
  assert (H1 : is_u32 0x80000010) by (split; lia).
  assert (H2 : 0 ≤ 4 < 32) by lia.
  exact (shifts_correct 0x80000010 4 H1 H2).
Defined.

(** C35 addition and subtraction, with and without the test for overflow, write the word of
    the sum or difference when its signed value fits the word, and are undefined when it does
    not: the code takes it in [int32] before it looks for an overflow, so that no execution that
    is defined signals one, where the architecture has an exception for ADD and SUB and the
    wrapped word for ADDU and SUBU. Division truncates, with a remainder of the sign of the
    dividend, and traps on a zero divisor and on the one quotient that does not fit. *)
Theorem arithmetic_correct (a b : Z) (Ha : is_u32 a) (Hb : is_u32 b) :
  (add_result a b = if decide (- 2 ^ 31 ≤ s32 a + s32 b < 2 ^ 31) then Some (Some (u32 (a + b))) else None) ∧
  (sub_result a b = if decide (- 2 ^ 31 ≤ s32 a - s32 b < 2 ^ 31) then Some (Some (u32 (a - b))) else None) ∧
  addu_result a b = add_result a b ∧ subu_result a b = sub_result a b ∧
  (div_result a b = None ↔ b = 0 ∨ (a = 0x80000000 ∧ b = 0xffffffff)) ∧
  (∀ q r, div_result a b = Some (q, r) →
    s32 a = s32 b * s32 q + s32 r ∧ Z.abs (s32 r) < Z.abs (s32 b) ∧ 0 ≤ s32 r * s32 a) ∧
  (divu_result a b = None ↔ b = 0) ∧
  ∀ q r, divu_result a b = Some (q, r) → a = b * q + r ∧ 0 ≤ r < b.
Proof.
  pose proof (s32_range a) as Ra. pose proof (s32_range b) as Rb.
  destruct (add_sub_eq a b) as (Eadd & Esub & Eaddu & Esubu).
  split; [exact Eadd|]. split; [exact Esub|]. split; [exact Eaddu|]. split; [exact Esubu|].
  split; [|split; [|split]].
  - unfold div_result. cbv zeta. unfold is_u in *.
    assert (Eb0 : s32 b = 0 ↔ b = 0) by (rewrite s32_eq by done; destruct (Z.ltb_spec b (2 ^ 31)); lia).
    assert (Eb1 : s32 b = -1 ↔ b = 0xffffffff) by (rewrite s32_eq by done; destruct (Z.ltb_spec b (2 ^ 31)); lia).
    assert (Ea : s32 a = - 2 ^ 31 ↔ a = 0x80000000) by (rewrite s32_eq by done; destruct (Z.ltb_spec a (2 ^ 31)); lia).
    destruct (Z.eqb_spec (s32 b) 0), (Z.eqb_spec (s32 a) (- 2 ^ 31)), (Z.eqb_spec (s32 b) (-1));
      simpl; split; intros; try done; try tauto; try lia.
  - intros q r. unfold div_result. cbv zeta. destruct (Z.eqb_spec (s32 b) 0); [done|].
    destruct (_ && _) eqn:Hov; simpl; [done|]. intros [= <- <-].
    rewrite <- !s32_wrap.
    pose proof (Z.quot_rem' (s32 a) (s32 b)) as Hqr.
    pose proof (Z.rem_bound_abs (s32 a) (s32 b) ltac:(lia)) as Hra.
    assert (Hsgn : 0 ≤ Z.rem (s32 a) (s32 b) * s32 a) by (apply Z.rem_sign_mul; lia).
    assert (Hq : - 2 ^ 31 ≤ Z.quot (s32 a) (s32 b) < 2 ^ 31).
    { apply andb_false_iff in Hov. rewrite !Z.eqb_neq in Hov.
      pose proof (Z.mul_quot_le (Z.abs (s32 a)) (Z.abs (s32 b)) ltac:(lia) ltac:(lia)) as Hle.
      rewrite Z.quot_abs in Hle by done.
      destruct (decide (s32 b = 1)) as [->|]; [by rewrite Z.quot_1_r|].
      destruct (decide (Z.abs (s32 b) = 1)); [|nia].
      assert (s32 b = -1) as Hb1 by lia. rewrite Hb1 in *.
      change (-1) with (- (1)) in *. rewrite Z.quot_opp_r, Z.quot_1_r by lia. lia. }
    rewrite (s32_signed (Z.quot _ _)), (s32_signed (Z.rem _ _)) by lia. split_and!; [lia|lia|done].
  - unfold divu_result. by destruct (Z.eqb_spec b 0).
  - intros q r. unfold divu_result, is_u in *. destruct (Z.eqb_spec b 0); [done|]. intros [= <- <-].
    split; [apply Z_div_mod_eq_full|apply Z.mod_pos_bound; lia].
Qed.

Lemma arithmetic_correct_witness :
  add_result 0x7fffffff 1 = None ∧ sub_result 5 7 = Some (Some 0xfffffffe) ∧
  s32 0xfffffff9 = s32 2 * s32 0xfffffffd + s32 0xffffffff.
Proof.
  assert (H1 : is_u32 0x7fffffff) by (split; lia).
  assert (H2 : is_u32 1) by (split; lia).
  assert (H3 : is_u32 5) by (split; lia).
  assert (H4 : is_u32 7) by (split; lia).
  assert (H5 : is_u32 0xfffffff9) by (split; lia).
  assert (H6 : is_u32 2) by (split; lia).
  split; [exact (proj1 (arithmetic_correct 0x7fffffff 1 H1 H2))|].
  split; [exact (proj1 (proj2 (arithmetic_correct 5 7 H3 H4)))|].
  destruct (arithmetic_correct 0xfffffff9 2 H5 H6) as (_ & _ & _ & _ & _ & H & _).
  exact (proj1 (H 0xfffffffd 0xffffffff eq_refl)).
Defined.

(** Byte [j] of the eight bytes of the words [w0] and [w1], in the order of
    memory, and the word at offset [k] of them. *)
Definition byte2 (big : bool) (w0 w1 j : Z) : Z :=
  if j <? 4 then byte_of big 4 w0 j else byte_of big 4 w1 (j - 4).

Definition unaligned_word (big : bool) (w0 w1 k : Z) : Z :=
  word_of_bytes big (byte2 big w0 w1 k) (byte2 big w0 w1 (k + 1))
    (byte2 big w0 w1 (k + 2)) (byte2 big w0 w1 (k + 3)).

(** The pair of instructions that loads, or stores, the word at offset [k]: the
    one for its first byte works on the first word, the other one on the word
    of its last byte. *)
Definition load_pair (big : bool) (reg w0 w1 k : Z) : option Z :=
  let last := if k =? 0 then w0 else w1 in
  if big then (r ← lwl big reg w0 k; lwr big r last ((k + 3) mod 4))%stdpp
  else (r ← lwr big reg w0 k; lwl big r last ((k + 3) mod 4))%stdpp.

Definition store_pair (big : bool) (reg w0 w1 k : Z) : option (Z * Z) :=
  let first_ := if big then swl big else swr big in
  let second := if big then swr big else swl big in
  (w0' ← first_ reg w0 k;
   if k =? 0 then w0'' ← second reg w0' 3; Some (w0'', w1)
   else w1' ← second reg w1 (k - 1); Some (w0', w1'))%stdpp.

Ltac unaligned i := cbv -[Z.lor Z.land Z.shiftl Z.shiftr u32 is_u]; bitblast i.

(** The unaligned accesses: in either byte order the pair of unaligned loads
    assembles the four bytes at the address, whatever the register held, and
    the pair of unaligned stores writes those four bytes and no other. *)
Theorem unaligned_pairs (big : bool) (reg w0 w1 k : Z) (Hr : is_u32 reg) (H0 : is_u32 w0)
    (H1 : is_u32 w1) (Hk : 0 ≤ k < 4) :
  load_pair big reg w0 w1 k = Some (unaligned_word big w0 w1 k) ∧
  ∃ w0' w1', store_pair big reg w0 w1 k = Some (w0', w1') ∧
    unaligned_word big w0' w1' k = reg ∧
    ∀ j, 0 ≤ j < 8 → ¬ (k ≤ j < k + 4) → byte2 big w0' w1' j = byte2 big w0 w1 j.
Proof.
  assert (Hcase : k = 0 ∨ k = 1 ∨ k = 2 ∨ k = 3) by lia.
  assert (Hj : ∀ P : Z → Prop, (∀ j, 0 ≤ j < 8 → P j) ↔
    P 0 ∧ P 1 ∧ P 2 ∧ P 3 ∧ P 4 ∧ P 5 ∧ P 6 ∧ P 7).
  { intros P. split; [intros HP; split_and!; apply HP; lia|].
    intros HP j Hj. assert (j = 0 ∨ j = 1 ∨ j = 2 ∨ j = 3 ∨ j = 4 ∨ j = 5 ∨ j = 6 ∨ j = 7) by lia.
    naive_solver. }
  split.
  - destruct big, Hcase as [-> | [-> | [-> | ->]]]; cbv -[Z.lor Z.land Z.shiftl Z.shiftr u32 is_u];
      f_equal; bitblast i.
  - destruct big, Hcase as [-> | [-> | [-> | ->]]]; eexists _, _; (split; [reflexivity|]);
      (split; [unaligned i|]);
      match goal with |- ∀ j, _ → @?P j => apply (proj2 (Hj P)) end;
      cbv beta; split_and!; intros Hout; try (exfalso; lia); clear Hout; unaligned i.
Qed.

Lemma unaligned_pairs_witness :
  load_pair true 0 0x00112233 0x44556677 1 = Some 0x11223344.
Proof.
  assert (H0 : is_u32 0x00112233) by (split; lia).
  assert (H1 : is_u32 0x44556677) by (split; lia).
  assert (Hr : is_u32 0) by (split; lia).
  assert (Hk : 0 ≤ 1 < 4) by lia.
  exact (proj1 (unaligned_pairs true 0 0x00112233 0x44556677 1 Hr H0 H1 Hk)).
Defined.

(** The table of the priorities as it is laid out: an entry stands for its
    exception code. *)
Fixpoint documented_prio (l : list (Z * Z * Z)) (excCode mode : Z) : Z :=
  match l with
  | [] => 0
  | (priority, code, m) :: l =>
      if (excCode =? code) && ((mode =? m) || (m =? ANY)) then priority
      else documented_prio l excCode mode
  end.

(** The priority of an exception: the code [TLBS] equals the mark [ANY], so its
    entries match every exception of their access mode.  Exceptions without an
    access mode have the priority of the table; those of fetches have 1 or 2,
    the bus error included; those of data accesses that the table ranks below
    the TLB exceptions have the priority of these. *)
Theorem exception_priorities (code : Z) :
  exception_priority code ANY = documented_prio prio code ANY ∧
  exception_priority code INSTFETCH = (if code =? AdEL then 1 else 2) ∧
  ∀ mode, mode = DATALOAD ∨ mode = DATASTORE →
    exception_priority code mode =
      let p := documented_prio prio code mode in if (p =? 0) || (6 <=? p) then 6 else p.
Proof.
  destruct (decide (0 ≤ code < 14)) as [Hc|Hc].
  - assert (Hall : forallb (λ code,
      (exception_priority code ANY =? documented_prio prio code ANY) &&
      (exception_priority code INSTFETCH =? (if code =? AdEL then 1 else 2)) &&
      forallb (λ mode, exception_priority code mode =?
        let p := documented_prio prio code mode in if (p =? 0) || (6 <=? p) then 6 else p)
        [DATALOAD; DATASTORE]) (seqZ 0 14) = true) by reflexivity.
    rewrite forallb_forall in Hall. specialize (Hall code). rewrite !andb_true_iff in Hall.
    destruct Hall as [[H1 H2] H3]; [apply list_elem_of_In, elem_of_seqZ; lia|].
    apply Z.eqb_eq in H1, H2. split_and!; [done..|].
    rewrite forallb_forall in H3. intros mode Hm. apply Z.eqb_eq, H3. simpl. naive_solver.
  - assert (Hne : ∀ c, 0 ≤ c < 14 → (code =? c) = false) by (intros; apply Z.eqb_neq; lia).
    unfold exception_priority, prio, search_prio, documented_prio.
    rewrite !Hne by (vm_compute; split; congruence).
    split_and!; [done..|]. by intros mode [-> | ->].
Qed.

Lemma exception_priorities_witness :
  exception_priority DBE DATASTORE = 6 ∧ documented_prio prio DBE DATASTORE = 8.
Proof.
  destruct (exception_priorities DBE) as (_ & _ & H).
  split; [exact (H DATASTORE (or_intror eq_refl))|reflexivity].
Defined.

End ISA.
