(* ===== verification/CPU.v ===== *)
(** * CPU: the five-stage pipelined processor (cpu.h, cpu.cc, fpu.cc, and the
      coprocessor instructions of cpzero.cc)

    The pipeline registers live in a heap, because the operands of an
    instruction are pointers into the registers of older instructions, into the
    register file or into its own.  Exceptions that the memory system and the
    coprocessor report to the processor are delivered to [exception], which only
    buffers them. *)

From S2P Require Import Prelude Effects Types Mapper Cache CPZero ISA.

Module CPU.
Import ISA.

(** ** cpu.h *)
Definition PIPELINE_STAGES : Z := 5.
Definition IF_STAGE : Z := 0.
Definition ID_STAGE : Z := 1.
Definition EX_STAGE : Z := 2.
Definition MEM_STAGE : Z := 3.
Definition WB_STAGE : Z := 4.

Record ExcInfo := MkExc {
  excCode : Z;      (* uint16 *)
  exc_mode : Z;     (* int *)
  coprocno : Z      (* int *)
}.

(** A [uint32 *]: NULL, an element of [CPU::reg], or a field of the pipeline
    register at an address. *)
Inductive uptr :=
  | PNull
  | PReg (r : Z)
  | PResult (p : Z)
  | PMem (p : Z)
  | PShamt (p : Z)
  | PImm (p : Z).

Record PipelineRegs := MkP {
  pl_instr : Z;            (* uint32 *)
  pl_pc : Z;               (* uint32 *)
  alu_src_a : uptr;
  alu_src_b : uptr;
  w_reg_data : uptr;
  w_mem_data : uptr;
  lwrl_reg_prev : uptr;
  src_a : Z;               (* uint16 *)
  src_b : Z;
  dst : Z;
  result : Z;              (* uint32 *)
  r_mem_data : Z;
  imm : Z;
  shamt_ : Z;
  mem_read_op : bool;
  delay_slot : bool;
  excBuf : list ExcInfo
}.
#[global] Instance PipelineRegs_eta : Eta PipelineRegs := λ p,
  MkP (pl_instr p) (pl_pc p) (alu_src_a p) (alu_src_b p) (w_reg_data p) (w_mem_data p)
      (lwrl_reg_prev p) (src_a p) (src_b p) (dst p) (result p) (r_mem_data p) (imm p)
      (shamt_ p) (mem_read_op p) (delay_slot p) (excBuf p).

(** [PipelineRegs::PipelineRegs] at address [this]. *)
Definition PipelineRegs_ctor (this pc_ instr_ : Z) : PipelineRegs :=
  MkP instr_ pc_ (PShamt this) (PShamt this) PNull PNull PNull NONE_REG NONE_REG NONE_REG
      0 0 0 0 false false [].

(** The option values the processor caches. *)
Record config := MkConfig {
  opt_fpu : bool;
  opt_haltbreak : bool;
  opt_haltibe : bool;
  opt_bigendian : bool;
  opt_icacheway : Z;
  opt_dcacheway : Z;
  opt_icachebnum : Z;
  opt_dcachebnum : Z;
  opt_icachebsize : Z;
  opt_dcachebsize : Z;
  mem_bandwidth : Z
}.

(** [bus] is the memory system behind [mem], with the devices of the machine;
    [halted] and [stall_count] are the machine's.  The tracing data is left out:
    tracing never starts, since nothing calls [start_tracing]. *)
Record t {B : Type} := Mk {
  pc : Z;
  reg : list Z;                    (* uint32[32] *)
  instr : Z;
  hi : Z;
  lo : Z;
  hi_temp : Z;
  lo_temp : Z;
  hi_write : bool;
  lo_write : bool;
  PL_REGS : list (option Z);       (* PipelineRegs*[5] *)
  late_preg : Z;
  late_late_preg : Z;
  heap : gmap Z PipelineRegs;
  next_addr : Z;                   (* of the allocator *)
  cpzero : CPZero.t;
  icache : option Cache.t;
  dcache : option Cache.t;
  bus : B;
  mul_div_remain : Z;              (* int *)
  cop_remain : Z;                  (* int *)
  suspend : bool;
  exc_signal : option ExcInfo;
  exception_pending : bool;
  halted : bool;
  stall_count : Z
}.
Arguments t : clear implicits.
#[global] Instance eta {B} : Eta (t B) := λ s,
  Mk B (pc s) (reg s) (instr s) (hi s) (lo s) (hi_temp s) (lo_temp s) (hi_write s) (lo_write s)
     (PL_REGS s) (late_preg s) (late_late_preg s) (heap s) (next_addr s) (cpzero s)
     (icache s) (dcache s) (bus s) (mul_div_remain s) (cop_remain s) (suspend s)
     (exc_signal s) (exception_pending s) (halted s) (stall_count s).

(** ** The exception that ends an instruction

    The loop of [exc_handle] never updates [max_prio]. *)
Fixpoint select_exc (max_prio : Z) (cur : option ExcInfo) (buf : list ExcInfo) : option ExcInfo :=
  match buf with
  | [] => cur
  | e :: buf =>
      select_exc max_prio
        (if max_prio <? exception_priority (excCode e) (exc_mode e) then Some e else cur) buf
  end.

Inductive cache_sel := ICache | DCache.

Section CPU.
  Context {B : Type} `{MemPort B}.
  (** [intc->calculateIP()]: the lines asserted by the devices. *)
  Variable calculateIP : B → Z.
  Variable cfg : config.
  (** [machine->num_cycles], [machine->host_bigendian], this processor as a
      client of the bus *)
  Variable now : Z.
  Variable host : bool.
  Variable me : Z.
  (** What is read from the automatic [cacheable] when a translation raised an
      exception and did not write it. *)
  Variable junk : bool.
  Notation M := (M (t B)).
  Implicit Types (p i : Z).

(** ** Objects *)

(** [CPU::exception] *)
Definition exception (code mode coproc : Z) : M unit :=
  exc_signal <~ Some (MkExc code mode coproc);;
  exception_pending <~ true.

Definition on_exception (e : exc_event) (s : t B) : t B :=
  if ev_client e =? me then
    s <| exc_signal := Some (MkExc (ev_code e) (ev_mode e) (ev_coproc e)) |>
      <| exception_pending := true |>
  else s.

(** Run a call into another object; the exceptions it sends to this processor
    are calls of [exception]. *)
Definition deliver {A} (m : M A) : M A := λ s,
  match m s with
  | None => None
  | Some (a, s', e) =>
      Some (a, foldl (flip on_exception) s' e, filter (λ e, ev_client e ≠ me) e)
  end.

Definition on_cpzero {A} (m : Effects.M CPZero.t A) : M A := deliver (zoom cpzero m).
Definition on_mem {A} (m : Effects.M B A) : M A := deliver (zoom bus m).
Definition hw_ip : M Z := gets (λ s, calculateIP (bus s)).

Definition cache_of (w : cache_sel) (s : t B) : option Cache.t :=
  match w with ICache => icache s | DCache => dcache s end.
Definition set_cache (w : cache_sel) (c : Cache.t) (s : t B) : t B :=
  match w with ICache => s <| icache := Some c |> | DCache => s <| dcache := Some c |> end.

Definition in_cache {A} (w : cache_sel) (m : Effects.M (Cache.sys B) A) : M A :=
  deliver (λ s,
    match cache_of w s with
    | None => None
    | Some c =>
        match m (Cache.MkSys B c (bus s)) with
        | None => None
        | Some (a, r, e) => Some (a, (set_cache w (Cache.self r) s) <| bus := Cache.physmem r |>, e)
        end
    end).
Definition on_cache {A} (w : cache_sel) (m : Effects.M Cache.t A) : M A :=
  in_cache w (zoom Cache.self m).

(** ** Pipeline registers *)
Definition new_preg (pc_ instr_ : Z) : M Z :=
  p ← gets next_addr;
  modify (λ s, s <| heap ::= <[p := PipelineRegs_ctor p pc_ instr_]> |>);;
  next_addr <~ p + 1;;
  mret p.
Definition delete_preg (p : Z) : M unit :=
  h ← gets heap;
  _ ← from_option (h !! p);
  modify (λ s, s <| heap ::= delete p |>).

Definition stage (i : Z) : M Z := o ← aget PL_REGS i; from_option o.
Definition set_stage (i : Z) (o : option Z) : M unit := aset PL_REGS i o.
Definition field {A} (p : Z) (f : PipelineRegs → A) : M A := zoom_key heap p (gets f).
Definition setf (p : Z) (f : PipelineRegs → PipelineRegs) : M unit := zoom_key heap p (modify f).

(** [PL_REGS[i] = new PipelineRegs(pc_, instr_)] *)
Definition new_stage (i pc_ instr_ : Z) : M Z :=
  p ← new_preg pc_ instr_; set_stage i (Some p);; mret p.

(** [*ptr] *)
Definition deref (u : uptr) : M Z :=
  match u with
  | PNull => crash
  | PReg r => aget reg r
  | PResult p => field p result
  | PMem p => field p r_mem_data
  | PShamt p => field p shamt_
  | PImm p => field p imm
  end.

Definition buffer_signal (p : Z) : M unit :=
  o ← gets exc_signal; e ← from_option o; setf p (λ r, r <| excBuf ::= λ l, l ++ [e] |>).

(** [if (exception_pending) { preg->excBuf.emplace_back(exc_signal); ... }] *)
Definition store_exception (p : Z) : M unit :=
  b ← gets exception_pending;
  when b (buffer_signal p;; exception_pending <~ false).

Definition volatilize_pipeline : M unit :=
  pc_ ← gets pc;
  for_range 0 5 (λ i, _ ← new_stage i (u32 (pc_ + 4)) NOP_INSTR; mret ());;
  p ← new_preg (u32 (pc_ + 4)) NOP_INSTR; late_preg <~ p;;
  p ← new_preg (u32 (pc_ + 4)) NOP_INSTR; late_late_preg <~ p.

(** [CPU::CPU], run on the memory of the new object: only the members listed are
    initialised. *)
Definition CPU (cp0 : CPZero.t) : M unit :=
  cpzero <~ cp0;;
  mul_div_remain <~ 0;;
  suspend <~ false;;
  icache <~ None;;
  dcache <~ None;;
  aset reg 0 0;;
  exception_pending <~ false;;
  volatilize_pipeline.

(** [fresh] is the uninitialised memory of the blocks of the new caches. *)
Definition reset (fresh : Z → Z → Z * list Z) : M unit :=
  aset reg 0 0;;
  pc <~ 0xbfc00000 - 4;;
  on_cpzero CPZero.reset;;
  icache <~ Some (Cache.Cache now fresh (opt_icachebnum cfg) (opt_icachebsize cfg) (opt_icacheway cfg));;
  dcache <~ Some (Cache.Cache now fresh (opt_dcachebnum cfg) (opt_dcachebsize cfg) (opt_dcacheway cfg));;
  volatilize_pipeline.

(** ** Exceptions *)
Definition exc_handle (p : Z) : M unit :=
  buf ← field p excBuf;
  if bool_decide (buf = []) then mret ()
  else
    e ← from_option (select_exc (-1) None buf);
    when (opt_haltbreak cfg && (excCode e =? Bp)) (halted <~ true);;
    when (opt_haltibe cfg && (excCode e =? IBE)) (halted <~ true);;
    d ← field p delay_slot;
    pc_ ← field p pl_pc;
    let epc := if (d : bool) then u32 (pc_ - 4) else pc_ in
    in_cache ICache (Cache.reset_stat now);;
    in_cache DCache (Cache.reset_stat now);;
    on_mem (mem_release_bus now me);;
    ip ← hw_ip;
    on_cpzero (CPZero.enter_exception ip epc (excCode e) (coprocno e) false);;
    c ← gets cpzero;
    let base := if CPZero.use_boot_excp_address c then 0xbfc00100 else 0x80000000 in
    let vector := if ((excCode e =? TLBL) || (excCode e =? TLBS)) && CPZero.tlb_miss_user c
                  then 0x000 else 0x080 in
    pc <~ u32 (base + vector - 4);;
    volatilize_pipeline.

(** ** IF: [fetch], which returns [fetch_miss] *)
Definition fetch (data_miss : bool) : M bool :=
  swapped ← gets (λ s, CPZero.caches_swapped (cpzero s));
  let cache := if (swapped : bool) then DCache else ICache in
  pc_ ← gets pc;
  ' (real_pc, cacheable) ←
    (if nz (pc_ mod 4) then exception AdEL ANY (-1);; mret (0, None)
     else on_cpzero (CPZero.address_trans pc_ INSTFETCH me));
  pend ← gets exception_pending;
  if (pend : bool) then
    p ← new_stage IF_STAGE pc_ NOP_INSTR;
    buffer_signal p;; exception_pending <~ false;;
    mret true
  else
    let cacheable := default junk cacheable in
    miss ←
      (if cacheable then
         r ← on_cache cache (Cache.ready real_pc);
         when (negb r && negb data_miss) (in_cache cache (Cache.request_block now real_pc INSTFETCH me));;
         mret (negb r)
       else
         got ← on_mem (mem_acquire_bus now me);
         if (got : bool) then
           r ← on_mem (mem_ready now real_pc INSTFETCH me);
           when (negb r && negb data_miss) (on_mem (mem_request_word now real_pc INSTFETCH me));;
           mret (negb r)
         else mret true);
    if (miss : bool) then mret true
    else
      fetch_instr ←
        (if cacheable then on_cache cache (Cache.fetch_word now real_pc INSTFETCH me)
         else w ← on_mem (mem_fetch_word now real_pc INSTFETCH me);
              on_mem (mem_release_bus now me);; mret w);
      _ ← new_stage IF_STAGE pc_ fetch_instr;
      pend ← gets exception_pending;
      when pend
        (p ← new_stage IF_STAGE pc_ NOP_INSTR;
         buffer_signal p;; exception_pending <~ false);;
      mret false.

(** ** ID: [pre_decode], which returns [data_hazard] *)

(** Where the value of register [src] will be read, and whether a load still has
    to deliver it. *)
Definition forward (src : Z) : M (uptr * bool) :=
  ex ← stage EX_STAGE; d ← field ex dst;
  if src =? d then
    ld ← field ex mem_read_op; u ← field ex w_reg_data; mret (u, ld)
  else
    mm ← stage MEM_STAGE; d ← field mm dst;
    if src =? d then u ← field mm w_reg_data; mret (u, false)
    else
      wb ← stage WB_STAGE; d ← field wb dst;
      if src =? d then u ← field wb w_reg_data; mret (u, false)
      else mret (PReg src, false).

(** The value of register [r] for the memory stage: only the youngest older
    instruction is consulted. *)
Definition forward_ex (r : Z) : M uptr :=
  ex ← stage EX_STAGE; d ← field ex dst;
  if r =? d then field ex w_reg_data else mret (PReg r).

Definition is_cop (op : Z) : bool :=
  (op =? OP_COP0) || (op =? OP_COP1) || (op =? OP_COP2) || (op =? OP_COP3).

Definition reserved (i : Z) : bool :=
  if opcode i =? OP_SPECIAL then flag_at RI_special_flag (funct i)
  else ((opcode i =? OP_CACHE) && flag_at RI_cache_op_flag (rt i)) || flag_at RI_flag (opcode i).

Definition decode_src_a (i : Z) : option Z :=
  let op := opcode i in
  if op =? OP_SPECIAL then call_decode (dec_at firstSrcDecSpecialTable (funct i)) i
  else if op =? OP_BCOND then call_decode (dec_at firstSrcDecBcondTable (rt i)) i
  else if is_cop op then Some (if rs i =? COP_OP_MTC then rt i else NONE_REG)
  else call_decode (dec_at firstSrcDecTable op) i.

Definition decode_src_b (i : Z) : option Z :=
  let op := opcode i in
  if op =? OP_SPECIAL then call_decode (dec_at secondSrcDecSpecialTable (funct i)) i
  else call_decode (dec_at secondSrcDecTable op) i.

Definition decode_dst (i : Z) : option Z :=
  let op := opcode i in
  (d ← (if op =? OP_SPECIAL then call_decode (dec_at dstDecSpecialTable (funct i)) i
        else if is_cop op then Some (if rs i =? COP_OP_MFC then rt i else NONE_REG)
        else if op =? OP_BCOND then
          Some (if (rt i =? BCONDE_BLTZAL) || (rt i =? BCONDE_BGEZAL) then RA_REG else NONE_REG)
        else call_decode (dec_at dstDecTable op) i);
   Some (if d =? 0 then NONE_REG else d))%stdpp.

Definition uses_shamt (i : Z) : bool := (opcode i =? OP_SPECIAL) && flag_at shamt_flag (funct i).
Definition uses_imm (i : Z) : bool :=
  negb (opcode i =? OP_SPECIAL) && (flag_at imm_flag (opcode i) || flag_at s_imm_flag (opcode i)).

(** Everything of [pre_decode] but its last statement; the instruction's
    register and [data_hazard]. *)
Definition decode_operands : M (Z * bool) :=
  id ← stage ID_STAGE;
  i ← field id pl_instr;
  let op := opcode i in
  when (reserved i)
    (exception RI ANY (-1);; setf id (λ r, r <| pl_instr := NOP_INSTR |>));;
  a ← from_option (decode_src_a i); setf id (λ r, r <| src_a := a |>);;
  b ← from_option (decode_src_b i); setf id (λ r, r <| src_b := b |>);;
  d ← from_option (decode_dst i); setf id (λ r, r <| dst := d |>);;
  (* value A *)
  hazard_a ←
    (if negb (a =? NONE_REG) then
       ' (u, h) ← forward a; setf id (λ r, r <| alu_src_a := u |>);; mret h
     else mret false);
  (* shamt and imm *)
  (if op =? OP_SPECIAL then
     when (flag_at shamt_flag (funct i)) (setf id (λ r, r <| shamt_ := shamt i |>))
   else if flag_at imm_flag op then setf id (λ r, r <| imm := immed i |>)
   else when (flag_at s_imm_flag op) (setf id (λ r, r <| imm := u32 (s_immed i) |>)));;
  (* value B *)
  hazard_b ←
    (if negb (b =? NONE_REG) then
       ' (u, h) ← forward b; setf id (λ r, r <| alu_src_b := u |>);; mret h
     else
       when (uses_shamt i) (setf id (λ r, r <| alu_src_b := PShamt id |>));;
       when (uses_imm i) (setf id (λ r, r <| alu_src_b := PImm id |>));;
       mret false);
  (* LWL, LWR *)
  when ((op =? OP_LWL) || (op =? OP_LWR))
    (u ← forward_ex d; setf id (λ r, r <| lwrl_reg_prev := u |>));;
  (* register data *)
  when (negb (d =? NONE_REG))
    (if flag_at mem_read_flag op then
       setf id (λ r, r <| mem_read_op := true |> <| w_reg_data := PMem id |>)
     else setf id (λ r, r <| w_reg_data := PResult id |>));;
  (* memory data *)
  when (flag_at mem_write_flag op)
    (u ← forward_ex (rt i); setf id (λ r, r <| w_mem_data := u |>));;
  mret (id, hazard_a || hazard_b).

Definition pre_decode : M bool :=
  ' (id, data_hazard) ← decode_operands;
  store_exception id;;
  mret data_hazard.

(** ** ID: control transfers and coprocessor instructions *)
Definition id_deref (f : PipelineRegs → uptr) : M Z :=
  id ← stage ID_STAGE; u ← field id f; deref u.
Definition id_field {A} (f : PipelineRegs → A) : M A := id ← stage ID_STAGE; field id f.
Definition ex_deref (f : PipelineRegs → uptr) : M Z :=
  ex ← stage EX_STAGE; u ← field ex f; deref u.
Definition ex_field {A} (f : PipelineRegs → A) : M A := ex ← stage EX_STAGE; field ex f.
Definition ex_result (v : Z) : M unit := ex ← stage EX_STAGE; setf ex (λ r, r <| result := v |>).
Definition id_result (v : Z) : M unit := id ← stage ID_STAGE; setf id (λ r, r <| result := v |>).
Definition delay_next : M unit :=
  p ← stage IF_STAGE; setf p (λ r, r <| delay_slot := true |>).

(** [CPU::branch], for the branches of coprocessor 0. *)
Definition branch (instr_ current_pc : Z) : M unit :=
  pc <~ u32 (current_pc + s32 (Z.shiftl (s_immed instr_) 2));;
  delay_next.

(** The minus binds tighter than the bitwise or. *)
Definition jump_target (pc_ instr_ : Z) : Z :=
  Z.lor (Z.land (u32 (pc_ + 4)) 0xf0000000) (u32 (u32 (Z.shiftl (jumptarg instr_) 2) - 4)).

Definition j_exec : M unit :=
  p ← id_field pl_pc; i ← id_field pl_instr;
  pc <~ jump_target p i;; delay_next.
Definition jal_exec : M unit :=
  p ← id_field pl_pc; i ← id_field pl_instr;
  pc <~ jump_target p i;; id_result (u32 (p + 8));; delay_next.

(** [pc = preg->pc + (preg->imm << 2)] *)
Definition branch_target (p im : Z) : Z := u32 (p + u32 (Z.shiftl im 2)).
Definition branch_if (taken : bool) : M unit :=
  when taken
    (p ← id_field pl_pc; im ← id_field imm;
     pc <~ branch_target p im;; delay_next).

Definition beq_exec : M unit :=
  a ← id_deref alu_src_a; b ← id_deref alu_src_b; branch_if (a =? b).
Definition bne_exec : M unit :=
  a ← id_deref alu_src_a; b ← id_deref alu_src_b; branch_if (negb (a =? b)).
Definition blez_exec : M unit :=
  a ← id_deref alu_src_a; branch_if ((a =? 0) || nz (Z.land a 0x80000000)).
Definition bgtz_exec : M unit :=
  a ← id_deref alu_src_a; branch_if (negb (a =? 0) && (Z.land a 0x80000000 =? 0)).
Definition bltz_exec : M unit := a ← id_deref alu_src_a; branch_if (s32 a <? 0).
Definition bgez_exec : M unit := a ← id_deref alu_src_a; branch_if (0 <=? s32 a).
Definition bltzal_exec : M unit :=
  a ← id_deref alu_src_a;
  when (s32 a <? 0)
    (p ← id_field pl_pc; im ← id_field imm;
     pc <~ u32 (p + 4 + u32 (Z.shiftl im 2));; delay_next);;
  p ← id_field pl_pc; id_result (u32 (p + 8)).
Definition bgezal_exec : M unit :=
  a ← id_deref alu_src_a; branch_if (0 <=? s32 a);;
  p ← id_field pl_pc; id_result (u32 (p + 8)).
Definition jr_exec : M unit :=
  a ← id_deref alu_src_a; pc <~ u32 (a - 4);; delay_next.
(** Never called: [funct_ctrl] has [jal_exec] in the place of it. *)
Definition jalr_exec : M unit :=
  a ← id_deref alu_src_a; pc <~ u32 (a - 4);;
  p ← id_field pl_pc; id_result (u32 (p + 8));; delay_next.

Definition bcond_exec : M unit :=
  i ← id_field pl_instr;
  match rt i with
  | 0 => bltz_exec | 1 => bgez_exec | 16 => bltzal_exec | 17 => bgezal_exec | _ => mret ()
  end.
Definition funct_ctrl : M unit :=
  i ← id_field pl_instr;
  match funct i with 8 => jr_exec | 9 => jal_exec | _ => mret () end.

(** cpzero.cc *)
Definition mfc0_emulate (p : Z) : M unit :=
  i ← field p pl_instr; ip ← hw_ip;
  v ← on_cpzero (CPZero.read_reg ip (rd i));
  setf p (λ r, r <| result := v |> <| dst := rt i |> <| w_reg_data := PResult p |>).
Definition mtc0_emulate (i : Z) : M unit :=
  v ← aget reg (rt i); on_cpzero (CPZero.write_reg (rd i) v).
Definition bc0x_emulate (i pc_ : Z) : M unit :=
  match rt i with
  | 0 => when (negb CPZero.cpCond) (branch i pc_)
  | 1 => when CPZero.cpCond (branch i pc_)
  | 2 | 3 => mret ()
  | _ => exception RI ANY (-1)
  end.
Definition cpzero_emulate (p : Z) : M unit :=
  i ← field p pl_instr; pc_ ← field p pl_pc; ip ← hw_ip;
  if 15 <? rs i then
    match funct i with
    | 1 => on_cpzero CPZero.tlbr_emulate
    | 2 => on_cpzero (CPZero.tlbwi_emulate ip)
    | 6 => on_cpzero (CPZero.tlbwr_emulate ip)
    | 8 => on_cpzero CPZero.tlbp_emulate
    | 16 => on_cpzero CPZero.rfe_emulate
    | _ => exception RI ANY 0
    end
  else
    match rs i with
    | 0 => mfc0_emulate p
    | 4 => mtc0_emulate i
    | 8 => bc0x_emulate i pc_
    | _ => exception RI ANY 0
    end.

Definition cpzero_exec : M unit :=
  id ← stage ID_STAGE; cpzero_emulate id;;
  c ← gets cpzero; on_cache DCache (Cache.cache_isolate (CPZero.caches_isolated c)).

Definition cop_unimpl (n : Z) : M unit :=
  _ ← on_cpzero (CPZero.cop_usable n); exception CpU ANY n.

(** fpu.cc: [FPU::cpone_emulate] *)
Definition fpu_cpone_emulate : M unit := exception CpU ANY 1.

(** [cpone_exec] takes the register from the member [instr], which is not the
    instruction. *)
Definition cpone_exec : M unit :=
  id ← stage ID_STAGE;
  if opt_fpu cfg then fpu_cpone_emulate
  else
    u ← on_cpzero (CPZero.cop_usable 1);
    i ← field id pl_instr;
    if (u : bool) && (rs i =? 2) && (rd i =? 0) then
      m ← gets instr;
      setf id (λ r, r <| dst := rt m |> <| result := 0 |> <| w_reg_data := PResult id |>)
    else cop_unimpl 1.

(** The table of [decode]. *)
Definition ctrl_table (op : Z) : option (M unit) :=
  match op with
  | 0 => Some funct_ctrl | 1 => Some bcond_exec | 2 => Some j_exec | 3 => Some jal_exec
  | 4 => Some beq_exec | 5 => Some bne_exec | 6 => Some blez_exec | 7 => Some bgtz_exec
  | 16 => Some cpzero_exec | 17 => Some cpone_exec
  | 18 => Some (cop_unimpl 2) | 19 => Some (cop_unimpl 3)
  | _ => None
  end.

Definition decode : M unit :=
  id ← stage ID_STAGE;
  i ← field id pl_instr;
  let op := opcode i in
  susp ← gets suspend; cr ← gets cop_remain;
  let run :=
    (match ctrl_table op with Some f => f | None => mret () end;; store_exception id) in
  if (susp : bool) && (cr =? 0) then suspend <~ false;; run
  else if flag_at cop_flag op && negb susp then
    suspend <~ true;; cop_remain <~ CPZERO_OP_SUSPEND
  else if susp then mret ()
  else run.

(** ** EX *)

(** [pre_execute], which returns [interlock] *)
Definition pre_execute : M bool :=
  i ← ex_field pl_instr; m ← gets mul_div_remain;
  mret ((opcode i =? OP_SPECIAL) && flag_at mul_div_flag (funct i) && (0 <? m)).

Definition alu2 (f : Z → Z → Z) : M unit :=
  a ← ex_deref alu_src_a; b ← ex_deref alu_src_b; ex_result (f a b).
Definition lui_exec : M unit := b ← ex_deref alu_src_b; ex_result (u32 (Z.shiftl b 16)).
Definition sll_exec : M unit := alu2 (λ a b, u32 (Z.shiftl a (Z.land b 0x1f))).
Definition srl_exec : M unit := alu2 (λ a b, u32 (srl (s32 a) (Z.land b 0x1f))).
Definition sra_exec : M unit := alu2 (λ a b, u32 (sra (s32 a) (Z.land b 0x1f))).
Definition and_exec : M unit := alu2 Z.land.
Definition or_exec : M unit := alu2 Z.lor.
Definition xor_exec : M unit := alu2 Z.lxor.
Definition nor_exec : M unit := alu2 (λ a b, lnot32 (Z.lor a b)).
Definition slt_exec : M unit := alu2 (λ a b, if s32 a <? s32 b then 1 else 0).
Definition sltu_exec : M unit := alu2 (λ a b, if a <? b then 1 else 0).
(** The sums and differences: [None] is a signed overflow of C++, undefined; [Some None] is
    the exception of ADD and SUB. *)
Definition ov_exec (f : Z → Z → option (option Z)) : M unit :=
  a ← ex_deref alu_src_a; b ← ex_deref alu_src_b;
  match f a b with
  | None => crash
  | Some None => exception Ov ANY (-1)
  | Some (Some v) => ex_result v
  end.
Definition addu_exec : M unit := ov_exec addu_result.
Definition subu_exec : M unit := ov_exec subu_result.
Definition add_exec : M unit := ov_exec add_result.
Definition sub_exec : M unit := ov_exec sub_result.

Definition write_hi_lo (r : Z * Z) : M unit :=      (* (hi, lo) *)
  hi_temp <~ fst r;; lo_temp <~ snd r;; hi_write <~ true;; lo_write <~ true.
Definition mult_exec : M unit :=
  a ← ex_deref alu_src_a; b ← ex_deref alu_src_b; write_hi_lo (mult64s (s32 a) (s32 b)).
Definition multu_exec : M unit :=
  a ← ex_deref alu_src_a; b ← ex_deref alu_src_b; write_hi_lo (mult64 a b).
Definition div_exec : M unit :=
  a ← ex_deref alu_src_a; b ← ex_deref alu_src_b;
  ' (q, r) ← from_option (div_result a b); write_hi_lo (r, q).
Definition divu_exec : M unit :=
  a ← ex_deref alu_src_a; b ← ex_deref alu_src_b;
  ' (q, r) ← from_option (divu_result a b); write_hi_lo (r, q).
Definition mfhi_exec : M unit := v ← gets hi; ex_result v.
Definition mflo_exec : M unit := v ← gets lo; ex_result v.
Definition mthi_exec : M unit := a ← ex_deref alu_src_a; hi_temp <~ a;; hi_write <~ true.
Definition mtlo_exec : M unit := a ← ex_deref alu_src_a; lo_temp <~ a;; lo_write <~ true.
Definition syscall_exec : M unit := exception Sys ANY (-1).
Definition break_exec : M unit := exception Bp ANY (-1).

Definition funct_table (f : Z) : option (M unit) :=
  match f with
  | 0 | 4 => Some sll_exec | 2 | 6 => Some srl_exec | 3 | 7 => Some sra_exec
  | 12 => Some syscall_exec | 13 => Some break_exec
  | 16 => Some mfhi_exec | 17 => Some mthi_exec | 18 => Some mflo_exec | 19 => Some mtlo_exec
  | 24 => Some mult_exec | 25 => Some multu_exec | 26 => Some div_exec | 27 => Some divu_exec
  | 32 => Some add_exec | 33 => Some addu_exec | 34 => Some sub_exec | 35 => Some subu_exec
  | 36 => Some and_exec | 37 => Some or_exec | 38 => Some xor_exec | 39 => Some nor_exec
  | 42 => Some slt_exec | 43 => Some sltu_exec
  | _ => None
  end.
Definition funct_exec : M unit :=
  i ← ex_field pl_instr;
  match funct_table (funct i) with Some f => f | None => mret () end.

(** The table of [execute]; its last two rows have seven entries, so the stores
    of coprocessor registers start at 55. *)
Definition exec_table (op : Z) : option (M unit) :=
  match op with
  | 0 => Some funct_exec
  | 8 => Some add_exec | 9 => Some addu_exec | 10 => Some slt_exec | 11 => Some sltu_exec
  | 12 => Some and_exec | 13 => Some or_exec | 14 => Some xor_exec | 15 => Some lui_exec
  | 32 | 33 | 34 | 35 | 36 | 37 | 38 | 40 | 41 | 42 | 43 | 46 | 47 => Some addu_exec
  | 48 | 55 => Some (cop_unimpl 1)
  | 49 | 56 => Some (cop_unimpl 2)
  | 50 | 57 => Some (cop_unimpl 3)
  | _ => None
  end.

Definition execute : M unit :=
  ex ← stage EX_STAGE;
  i ← field ex pl_instr;
  match exec_table (opcode i) with Some f => f | None => mret () end;;
  when ((opcode i =? OP_SPECIAL) && flag_at mul_div_flag (funct i))
    (mul_div_remain <~ mul_div_delay (funct i));;
  store_exception ex.

(** ** MEM *)

Definition cache_op_mux (opcode_ : Z) : M cache_sel :=
  swapped ← gets (λ s, CPZero.caches_swapped (cpzero s));
  mret (if (swapped : bool)
        then if Cache.DCACHE_OPCODE_START <=? opcode_ then ICache else DCache
        else if Cache.DCACHE_OPCODE_START <=? opcode_ then DCache else ICache).

(** The data cache of an access. *)
Definition data_cache : M cache_sel :=
  swapped ← gets (λ s, CPZero.caches_swapped (cpzero s));
  mret (if (swapped : bool) then ICache else DCache).

Definition is_half (op : Z) : bool := (op =? OP_LH) || (op =? OP_LHU) || (op =? OP_SH).
Definition is_word (op : Z) : bool := (op =? OP_LW) || (op =? OP_SW).
Definition is_partial (op : Z) : bool :=
  (op =? OP_LWL) || (op =? OP_LWR) || (op =? OP_SWL) || (op =? OP_SWR).
Definition word_align (a : Z) : Z := Z.land a (lnot32 3).

(** [pre_mem_access], which returns [data_miss] *)
Definition pre_mem_access : M bool :=
  p ← stage MEM_STAGE;
  i ← field p pl_instr; vaddr ← field p result;
  let op := opcode i in
  when (is_half op && nz (vaddr mod 2)) (exception AdEL ANY (-1));;
  when (is_word op && nz (vaddr mod 4)) (exception AdEL ANY (-1));;
  let vaddr := if is_word op || is_partial op then word_align vaddr else vaddr in
  let mode := if flag_at mem_write_flag op then DATASTORE else DATALOAD in
  miss ←
    (if op =? OP_CACHE then
       ' (phys, cacheable) ← on_cpzero (CPZero.address_trans vaddr ANY me);
       if negb (default junk cacheable) then exception AdEL ANY (-1);; mret false
       else
         w ← cache_op_mux (rt i);
         done_ ← in_cache w (Cache.exec_cache_op now (rt i) phys me);
         mret (negb done_)
     else if flag_at mem_write_flag op || flag_at mem_read_flag op then
       ' (phys, cacheable) ← on_cpzero (CPZero.address_trans vaddr mode me);
       if default junk cacheable then
         w ← data_cache;
         r ← on_cache w (Cache.ready phys);
         when (negb r) (in_cache w (Cache.request_block now phys mode me));;
         mret (negb r)
       else
         got ← on_mem (mem_acquire_bus now me);
         if (got : bool) then
           r ← on_mem (mem_ready now phys mode me);
           when (negb r) (on_mem (mem_request_word now phys mode me));;
           mret (negb r)
         else mret true
     else mret false);
  store_exception p;;
  mret miss.

(** The bytes that [OP_SWL] and [OP_SWR] store to the cache, with their offsets
    from the word. *)
Definition swl_bytes (data which_byte : Z) : list (Z * Z) :=
  if opt_bigendian cfg then
    (λ i, (i, Z.land (Z.shiftr data (8 * (3 - i))) 0xff)) <$> seqZ which_byte (4 - which_byte)
  else
    (λ i, (i, Z.land (Z.shiftr data (8 * i - 8 * which_byte + 24)) 0xff)) <$> seqZ 0 (which_byte + 1).
Definition swr_bytes (data which_byte : Z) : list (Z * Z) :=
  if opt_bigendian cfg then
    (λ i, (i, Z.land (Z.shiftr data (8 * (which_byte - i))) 0xff)) <$> seqZ 0 (which_byte + 1)
  else
    (λ i, (i, Z.land (Z.shiftr data (8 * (i - which_byte))) 0xff)) <$> seqZ which_byte (4 - which_byte).

Definition byteswapped : M bool := gets (λ s, mem_byteswapped (bus s)).
Definition cache_store_byte (w : cache_sel) (addr b : Z) : M unit :=
  sw ← byteswapped; on_cache w (Cache.store_byte now host sw addr b me).
Definition cache_store_bytes (w : cache_sel) (wordvirt : Z) (l : list (Z * Z)) : M unit :=
  for_each l (λ '(i, b), cache_store_byte w (u32 (wordvirt + i)) b).

Definition store_cached (w : cache_sel) (op vaddr phys data : Z) : M unit :=
  sw ← byteswapped;
  if op =? OP_SB then cache_store_byte w phys (Z.land data 0xff)
  else if op =? OP_SH then
    on_cache w (Cache.store_halfword now host sw phys (Z.land data 0xffff) me)
  else if op =? OP_SWL then
    cache_store_bytes w (word_align vaddr) (swl_bytes data (Z.land vaddr 3))
  else if op =? OP_SW then on_cache w (Cache.store_word now phys data me)
  else if op =? OP_SWR then
    cache_store_bytes w (word_align vaddr) (swr_bytes data (Z.land vaddr 3))
  else mret ().

Definition store_uncached (op phys data : Z) : M unit :=
  if op =? OP_SB then on_mem (mem_store_byte now phys (u8 data) me)
  else if op =? OP_SH then on_mem (mem_store_halfword now phys (u16 data) me)
  else if (op =? OP_SWL) || (op =? OP_SW) || (op =? OP_SWR)
  then on_mem (mem_store_word now phys data me)
  else mret ().

Definition load_cached (w : cache_sel) (op phys : Z) : M Z :=
  sw ← byteswapped;
  if (op =? OP_LB) || (op =? OP_LBU) then on_cache w (Cache.fetch_byte now host sw phys me)
  else if (op =? OP_LH) || (op =? OP_LHU) then
    on_cache w (Cache.fetch_halfword now host sw phys me)
  else
    let phys := if op =? OP_LW then phys else word_align phys in
    on_cache w (Cache.fetch_word now phys DATALOAD me).

Definition load_uncached (op phys : Z) : M Z :=
  if (op =? OP_LB) || (op =? OP_LBU) then on_mem (mem_fetch_byte now phys me)
  else if (op =? OP_LH) || (op =? OP_LHU) then
    h ← on_mem (mem_fetch_halfword now phys me); mret (u32 (s16 h))
  else
    let phys := if op =? OP_LW then phys else word_align phys in
    on_mem (mem_fetch_word now phys DATALOAD me).

(** The loaded datum as the register receives it. *)
Definition finalize_load (op vaddr prev d : Z) : option Z :=
  if op =? OP_LB then Some (u32 (s8 d))
  else if op =? OP_LH then Some (u32 (s16 d))
  else if op =? OP_LWL then lwl (opt_bigendian cfg) prev d (Z.land vaddr 3)
  else if op =? OP_LWR then lwr (opt_bigendian cfg) prev d (Z.land vaddr 3)
  else if op =? OP_LBU then Some (Z.land d 0xff)
  else if op =? OP_LHU then Some (Z.land d 0xffff)
  else Some d.

Definition mem_access : M unit :=
  p ← stage MEM_STAGE;
  i ← field p pl_instr; vaddr ← field p result;
  let op := opcode i in
  w ← data_cache;
  if flag_at mem_write_flag op then
    buf ← field p excBuf;
    if negb (bool_decide (buf = [])) then on_mem (mem_release_bus now me)
    else
      u ← field p w_mem_data; data ← deref u;
      ' (phys, cacheable) ← on_cpzero (CPZero.address_trans vaddr DATASTORE me);
      if default junk cacheable then store_cached w op vaddr phys data
      else store_uncached op phys data;; on_mem (mem_release_bus now me)
  else if flag_at mem_read_flag op then
    ' (phys, cacheable) ← on_cpzero (CPZero.address_trans vaddr DATALOAD me);
    d ← (if default junk cacheable then load_cached w op phys
         else d ← load_uncached op phys; on_mem (mem_release_bus now me);; mret d);
    setf p (λ r, r <| r_mem_data := d |>);;
    prev ← (if (op =? OP_LWL) || (op =? OP_LWR)
            then u ← field p lwrl_reg_prev; deref u else mret 0);
    v ← from_option (finalize_load op vaddr prev d);
    setf p (λ r, r <| r_mem_data := v |>)
  else mret ().

(** ** WB *)
Definition reg_commit : M unit :=
  p ← stage WB_STAGE;
  u ← field p w_reg_data;
  match u with
  | PNull => mret ()
  | _ => d ← field p dst; v ← deref u; aset reg d v
  end.

(** ** One cycle *)

(** The pipeline register of the last stage is kept for two more cycles. *)
Definition retire : M unit :=
  ll ← gets late_late_preg; delete_preg ll;;
  l ← gets late_preg; late_late_preg <~ l;;
  wb ← stage WB_STAGE; late_preg <~ wb.
Definition move_stage (i : Z) : M unit := o ← aget PL_REGS (i - 1); set_stage i o.

Definition take_interrupt : M unit :=
  ip ← hw_ip; c ← gets cpzero;
  when (CPZero.interrupt_pending ip c)
    (exception Int ANY (-1);;
     wb ← stage WB_STAGE; buffer_signal wb;; exception_pending <~ false).

Definition mul_div_step : M unit :=
  m ← gets mul_div_remain;
  when (0 <? m)
    (mul_div_remain <~ m - 1;;
     when (m - 1 =? 0)
       (modify (λ s, s <| hi := if hi_write s then hi_temp s else hi s |>
                       <| lo := if lo_write s then lo_temp s else lo s |>);;
        hi_write <~ false;; lo_write <~ false)).

Definition cop_step : M unit :=
  c ← gets cop_remain; when (0 <? c) (cop_remain <~ c - 1).

(** The exceptions that the steps of a cache brought. *)
Definition cache_exceptions : M unit :=
  b ← gets exception_pending;
  when b
    (wb ← stage WB_STAGE; buffer_signal wb;; exception_pending <~ false;;
     wb ← stage WB_STAGE; exc_handle wb).

Definition process_stages (data_hazard : bool) : M unit :=
  reg_commit;;
  mem_access;;
  execute;;
  when (negb data_hazard) decode;;
  susp ← gets suspend;
  if (susp : bool) || data_hazard then
    retire;;
    move_stage 4;; move_stage 3;;
    pc_ ← gets pc; _ ← new_stage EX_STAGE pc_ NOP_INSTR; mret ()
  else
    retire;;
    move_stage 4;; move_stage 3;; move_stage 2;; move_stage 1;;
    pc_ ← gets pc; pc <~ u32 (pc_ + 4);;
    set_stage IF_STAGE None.

Definition step : M unit :=
  on_cpzero CPZero.adjust_random;;
  take_interrupt;;
  data_hazard ← pre_decode;
  data_miss ← pre_mem_access;
  interlock ← pre_execute;
  o ← aget PL_REGS IF_STAGE;
  fetch_miss ← (match o with None => fetch data_miss | Some _ => mret false end);
  wb ← stage WB_STAGE; exc_handle wb;;
  mul_div_step;;
  cop_step;;
  for_range 0 (Z.to_nat (mem_bandwidth cfg)) (λ _, in_cache DCache (Cache.step now));;
  cache_exceptions;;
  for_range 0 (Z.to_nat (mem_bandwidth cfg)) (λ _, in_cache ICache (Cache.step now));;
  cache_exceptions;;
  if negb interlock && negb data_miss && negb fetch_miss then process_stages data_hazard
  else modify (λ s, s <| stall_count ::= λ n, n + 1 |>).

(** ** Debugger interface *)

(** [pending_exception] *)
Definition pending_exception (s : t B) : Z :=
  if negb (exception_pending s) then 0
  else let '(_, _, cause) := CPZero.read_debug_info (cpzero s) in
       u8 (Z.shiftr (Z.land cause CPZero.Cause_ExcCode_MASK) 2).
Definition debug_set_pc (newpc : Z) : M unit := pc <~ newpc.
Definition debug_get_pc : M Z := wb ← stage WB_STAGE; field wb pl_pc.

End CPU.

(** ** Lemmas *)

Section Lemmas.
  Context {B : Type}.
  Notation M := (M (t B)).
  Implicit Types (s : t B) (p i : Z).

Lemma same_heap s p r : heap s !! p = Some r → s <| heap ::= <[p := r]> |> = s.
Proof. intros Hp. destruct s. simpl in *. by rewrite insert_id. Qed.

Lemma field_eq {A} p (f : PipelineRegs → A) s r :
  heap s !! p = Some r → field p f s = Some (f r, s, []).
Proof.
  intros Hp. unfold field, zoom_key. rewrite Hp. simpl. do 2 f_equal. f_equal.
  by apply same_heap.
Qed.

Lemma setf_eq p f s r :
  heap s !! p = Some r → setf p f s = Some ((), s <| heap ::= <[p := f r]> |>, []).
Proof. intros Hp. unfold setf, zoom_key. by rewrite Hp. Qed.

Lemma stage_eq i s p : nthz (PL_REGS s) i = Some (Some p) → stage i s = Some (p, s, []).
Proof. intros Hp. unfold stage, aget. rewrite bind_assoc, gets_bind, Hp. reflexivity. Qed.

Lemma stage_Some i s p s' e : stage i s = Some (p, s', e) →
  nthz (PL_REGS s) i = Some (Some p) ∧ s' = s ∧ e = [].
Proof.
  unfold stage, aget. rewrite bind_assoc, gets_bind.
  destruct (nthz (PL_REGS s) i) as [[q|]|]; intros E; try discriminate. by injection E as <- <- <-.
Qed.

Lemma field_Some {A} p (f : PipelineRegs → A) s a s' e : field p f s = Some (a, s', e) →
  ∃ r, heap s !! p = Some r ∧ a = f r ∧ s' = s ∧ e = [].
Proof.
  intros E. destruct (heap s !! p) as [r|] eqn:Hp.
  - rewrite (field_eq _ _ _ _ Hp) in E. injection E as <- <- <-. eauto.
  - unfold field, zoom_key in E. by rewrite Hp in E.
Qed.

(** The word a pointer points to. *)
Definition val s (u : uptr) : option Z :=
  match u with
  | PNull => None
  | PReg r => nthz (reg s) r
  | PResult p => result <$> heap s !! p
  | PMem p => r_mem_data <$> heap s !! p
  | PShamt p => shamt_ <$> heap s !! p
  | PImm p => imm <$> heap s !! p
  end.

Lemma deref_eq u s v : val s u = Some v → deref u s = Some (v, s, []).
Proof.
  destruct u; simpl; intros Hv; try discriminate; try
    (destruct (heap s !! p) eqn:Hp; [|discriminate]; injection Hv as <-; exact (field_eq _ _ _ _ Hp)).
  unfold aget. rewrite gets_bind, Hv. reflexivity.
Qed.

Lemma deref_Some u s v s' e : deref u s = Some (v, s', e) → val s u = Some v ∧ s' = s ∧ e = [].
Proof.
  destruct u; simpl; intros Hv; try discriminate; try
    (apply field_Some in Hv as (r' & -> & -> & -> & ->); done).
  unfold aget in Hv. rewrite gets_bind in Hv. destruct (nthz (reg s) r); [|discriminate].
  by injection Hv as <- <- <-.
Qed.

End Lemmas.

End CPU.
