(* ===== verification/Demo.v ===== *)
(** * Demo: a small machine on which the processor model is evaluated

    A memory that is always ready, a program, and its execution; the witnesses
    of the theorems about the processor use them. *)

From S2P Require Import Prelude Effects Types Mapper Cache CPZero ISA CPU.

Module Demo.
Import ISA CPU.

(** Words at word addresses, without latency. *)
Definition ideal : Type := gmap Z Z.

#[global] Instance ideal_port : MemPort ideal := {|
  mem_ready _ _ _ _ := mret true;
  mem_request_word _ _ _ _ := mret ();
  mem_fetch_word _ addr _ _ := gets (λ m, default 0 (m !! addr));
  mem_fetch_halfword _ addr _ := gets (λ m, u16 (default 0 (m !! addr)));
  mem_fetch_byte _ addr _ := gets (λ m, u8 (default 0 (m !! addr)));
  mem_store_word _ addr d _ := modify <[addr := d]>;
  mem_store_halfword _ addr d _ := modify <[addr := d]>;
  mem_store_byte _ addr d _ := modify <[addr := d]>;
  mem_acquire_bus _ _ := mret true;
  mem_release_bus _ _ := mret ();
  mem_byteswapped _ := false
|}.

(** Instructions. *)
Definition i_type (op rs_ rt_ im : Z) : Z :=
  Z.lor (Z.lor (Z.lor (Z.shiftl op 26) (Z.shiftl rs_ 21)) (Z.shiftl rt_ 16)) im.
Definition r_type (rs_ rt_ rd_ sh fn : Z) : Z :=
  Z.lor (Z.lor (Z.lor (Z.lor (Z.shiftl rs_ 21) (Z.shiftl rt_ 16)) (Z.shiftl rd_ 11)) (Z.shiftl sh 6)) fn.

Definition boot : Z := 0xbfc00000.

Definition program : list Z := [
  i_type OP_ADDIU 0 1 5;               (* r1 = 5 *)
  i_type OP_ADDIU 1 2 7;               (* r2 = r1 + 7 *)
  r_type 1 2 3 0 FUNCT_ADDU;           (* r3 = r1 + r2 *)
  r_type 1 2 0 0 FUNCT_MULTU;          (* hi, lo = r1 * r2 *)
  r_type 0 0 4 0 FUNCT_MFLO;           (* r4 = lo *)
  i_type OP_BEQ 1 1 2;                 (* branch over the next but one *)
  i_type OP_ADDIU 0 5 1;               (* delay slot: r5 = 1 *)
  i_type OP_ADDIU 0 6 1;               (* skipped *)
  i_type OP_ADDIU 0 7 9;               (* r7 = 9 *)
  i_type OP_LUI 0 8 0xbfc0;            (* r8 = boot *)
  i_type OP_SW 8 3 0x100;              (* mem[boot + 0x100] = r3 *)
  i_type OP_LW 8 9 0x100;              (* r9 = mem[boot + 0x100] *)
  i_type OP_ADDIU 9 10 1;              (* r10 = r9 + 1 *)
  i_type OP_COP0 0 11 (Z.shiftl CPZero.Status 11);   (* r11 = Status *)
  r_type 0 0 0 0 FUNCT_SYSCALL ].

Definition memory (p : list Z) : ideal :=
  list_to_map (imap (λ k w, (boot + 4 * Z.of_nat k, w)) p).

Definition demo_config : config := MkConfig false false false false 2 2 4 4 16 16 1.
Definition cp0 : CPZero.t := CPZero.Mk (replicate 64 (CPZero.MkTLB 0 0)) (replicate 32 0) 0 false.

(** The memory the processor is constructed in. *)
Definition raw (m : ideal) : t ideal :=
  Mk ideal 0 (replicate 32 0) 0 0 0 0 0 false false (replicate 5 None) 0 0 ∅ 1 cp0 None None m
     0 0 false None false false 0.

Definition power_on : M (t ideal) unit :=
  CPU cp0;; reset demo_config 0 7 (λ _ _, (0, replicate 4 0)).

Definition state_after {A} (m : M (t ideal) A) (s : t ideal) : t ideal :=
  match m s with Some (_, s', _) => s' | None => s end.

Definition start : t ideal := state_after power_on (raw (memory program)).

(** One cycle without interrupts, of the processor that is client 7. *)
Definition cycle : M (t ideal) unit := step (λ _, 0) demo_config 0 false 7 false.

Definition cycles (n : nat) : M (t ideal) unit := for_each (replicate n ()) (λ _, cycle).

(** The program runs: the registers before the exception handler is fetched. *)
Example program_runs :
  match cycles 45 start with
  | Some ((), s, e) =>
      e = [] ∧ take 12 (reg s) = [0; 5; 12; 17; 60; 1; 0; 9; 0xbfc00000; 17; 18; 0x400000] ∧
      bus s !! (boot + 0x100) = Some 17 ∧
      CPZero.rget (CPZero.reg (cpzero s)) CPZero.EPC = boot + 4 * 14 ∧
      Z.land (CPZero.rget (CPZero.reg (cpzero s)) CPZero.Cause) CPZero.Cause_ExcCode_MASK = Z.shiftl Sys 2
  | None => False
  end.
Proof. vm_compute. by repeat split. Qed.

End Demo.
