(* ===== verification/CStrings.v ===== *)
(** * CStrings: what the program uses of C's strings

    A string is the list of its characters, up to a zero or to the end of the list; a
    literal is the list of its codes. *)

From Stdlib Require Ascii.
From Stdlib Require Import (notations) String.
From S2P Require Import Prelude.

Module CString.

Definition char_is (c d : Z) : bool := c =? d.
Fixpoint strlen (s : list Z) : Z := match s with [] => 0 | c :: s => if c =? 0 then 0 else 1 + strlen s end.
(** [strchr]: what follows the first such character. *)
Fixpoint strchr (s : list Z) (d : Z) : option (list Z) :=
  match s with
  | [] => None
  | c :: s => if c =? d then Some s else if c =? 0 then None else strchr s d
  end.
Definition is_space (c : Z) : bool := (c =? 0x20) || ((0x09 <=? c) && (c <=? 0x0d)).
Fixpoint skip_spaces (s : list Z) : list Z :=
  match s with [] => [] | c :: r => if is_space c then skip_spaces r else s end.
Definition digit (base c : Z) : option Z :=
  let d := if (0x30 <=? c) && (c <=? 0x39) then c - 0x30
           else if (0x61 <=? c) && (c <=? 0x7a) then c - 0x61 + 10
           else if (0x41 <=? c) && (c <=? 0x5a) then c - 0x41 + 10 else 99 in
  if d <? base then Some d else None.
Fixpoint number (base : Z) (acc : Z) (s : list Z) : Z :=
  match s with
  | [] => acc
  | c :: s => match digit base c with Some d => number base (acc * base + d) s | None => acc end
  end.
Definition sign (s : list Z) : bool * list Z :=
  match s with
  | c :: r => if c =? 0x2d then (true, r) else if c =? 0x2b then (false, r) else (false, s)
  | [] => (false, [])
  end.
(** A prefix 0x before a digit. *)
Definition hex_prefix (s : list Z) : option (list Z) :=
  match s with
  | z :: x :: d :: r =>
      if (z =? 0x30) && ((x =? 0x78) || (x =? 0x58)) && bool_decide (is_Some (digit 16 d)) then Some (d :: r) else None
  | _ => None
  end.
(** The magnitude, for bases 16, 10 and 0. *)
Definition magnitude (base : Z) (s : list Z) : Z :=
  match hex_prefix s with
  | Some r => if (base =? 16) || (base =? 0) then number 16 0 r else number base 0 s
  | None => number (if base =? 0 then match s with c :: _ => if c =? 0x30 then 8 else 10 | [] => 10 end else base) 0 s
  end.
(** [strtoul] and [strtol] on 64 bits. *)
Definition strtoul (s : list Z) (base : Z) : Z :=
  let '(neg, s) := sign (skip_spaces s) in
  let v := magnitude base s in
  if 2 ^ 64 - 1 <? v then 2 ^ 64 - 1 else if neg : bool then u64 (- v) else v.
Definition strtol (s : list Z) (base : Z) : Z :=
  let '(neg, s) := sign (skip_spaces s) in
  let v := if neg : bool then - magnitude base s else magnitude base s in
  Z.max (- 2 ^ 63) (Z.min v (2 ^ 63 - 1)).
(** What [strtoul] sets the end pointer to: the string itself, when there is no number. *)
Fixpoint digits_end (base : Z) (s : list Z) : list Z :=
  match s with c :: r => if bool_decide (is_Some (digit base c)) then digits_end base r else s | [] => [] end.
Definition strtoul_end (str : list Z) (base : Z) : list Z :=
  let '(_, s) := sign (skip_spaces str) in
  let stop b s := match s with c :: _ => if bool_decide (is_Some (digit b c)) then digits_end b s else str | [] => str end in
  match hex_prefix s with
  | Some r => if (base =? 16) || (base =? 0) then stop 16 r else stop base s
  | None => stop (if base =? 0 then match s with c :: _ => if c =? 0x30 then 8 else 10 | [] => 10 end else base) s
  end.
(** A string up to its zero. *)
Fixpoint c_string (s : list Z) : list Z := match s with [] => [] | c :: r => if c =? 0 then [] else c :: c_string r end.
Definition chars (s : String.string) : list Z := (λ a, Z.of_N (Ascii.N_of_ascii a)) <$> String.list_ascii_of_string s.

Notation spaces := (Forall (λ c, is_space c = true)).
Lemma skip_spaces_app sp s : spaces sp → skip_spaces (sp ++ s) = skip_spaces s.
Proof. intros H. induction H as [|c sp Hc _ IH]; [done|]. cbn [app skip_spaces]. by rewrite Hc. Qed.

End CString.
