(* ===== verification/RemoteGdb.v ===== *)
(** * RemoteGdb: packets of the GDB remote protocol (remotegdb.h, remotegdb.cc)

    A packet is sent between a dollar and its checksum until the peer acknowledges it, and
    read with retries; a received packet may be compressed by repeat counts. *)

From S2P Require Import Prelude Effects.

Module RemoteGdb.

Definition PBUFSIZ : Z := 728.
Definition SERIAL_ERROR : Z := -1.
Definition SERIAL_TIMEOUT : Z := -2.
Definition SERIAL_EOF : Z := -3.
Definition remote_timeout : Z := 2.
Definition MAX_TRIES : nat := 3.

(** Characters *)
Definition DOLLAR : Z := 0x24.
Definition HASH : Z := 0x23.
Definition STAR : Z := 0x2a.
Definition PLUS : Z := 0x2b.
Definition MINUS : Z := 0x2d.

(** ** The connection *)
(** What the calls of the host report in turn: a byte, nothing within the time allowed, or an
    error; at the end the peer has closed the connection. *)
Inductive event := Byte (b : Z) | Silence | Failure.
Record t := Mk {
  input : list event;
  output : list Z;               (* bytes *)
  broken : bool;                 (* whether writes fail *)
  remotegdb_backend_error : Z    (* int *)
}.
#[global] Instance eta : Eta t := λ c, Mk (input c) (output c) (broken c) (remotegdb_backend_error c).
Notation M := (Effects.M t).

(** A negative timeout waits until there is something to read. *)
Fixpoint next_event (timeout : Z) (l : list event) : Z * list event :=
  match l with
  | [] => (SERIAL_EOF, [])
  | Byte b :: l => (swrap 8 b, l)
  | Silence :: l => if timeout <? 0 then next_event timeout l else (SERIAL_TIMEOUT, l)
  | Failure :: l => (SERIAL_ERROR, l)
  end.
Definition serial_readchar (timeout : Z) : M Z :=
  l ← gets input; let '(rv, l) := next_event timeout l in input <~ l;; mret rv.
Definition serial_write (buf : list Z) : M bool :=
  b ← gets broken;
  if b : bool then mret false else modify (λ c, c <| output ::= λ o, o ++ (wrap 8 <$> buf) |>);; mret true.
(** [error] and [perror_with_name]; the messages are not modelled. *)
Definition error : M unit := modify (λ c, c <| remotegdb_backend_error ::= λ n, n + 1 |>).

(** ** Digits *)
Definition fromhex (a : Z) : M Z :=
  if (0x30 <=? a) && (a <=? 0x39) then mret (a - 0x30)
  else if (0x61 <=? a) && (a <=? 0x66) then mret (a - 0x61 + 10)
  else if (0x41 <=? a) && (a <=? 0x46) then mret (a - 0x41 + 10)
  else error;; mret a.
Definition tohex (nib : Z) : Z := if nib <? 10 then 0x30 + nib else 0x61 + nib - 10.
(** The loop on a 64-bit number. *)
Fixpoint hexdigits (fuel : nat) (num : Z) : Z :=
  match fuel with
  | O => 0
  | S fuel => if num =? 0 then 0 else 1 + hexdigits fuel (Z.shiftr num 4)
  end.
Definition hexnumlen (num : Z) : Z := Z.max (hexdigits 16 (u64 num)) 1.

(** The end of the connection is an error here, and a failed call another. *)
Definition readchar (timeout : Z) : M Z :=
  ch ← serial_readchar timeout;
  if ch =? SERIAL_EOF then error;; mret ch
  else if ch =? SERIAL_ERROR then error;; mret ch
  else if ch =? SERIAL_TIMEOUT then mret ch
  else mret (Z.land ch 0x7f).

(** ** Receiving *)
(** Characters [c] from [bp] on, [n] of them. *)
Fixpoint memset (buf : list Z) (bp c : Z) (n : nat) : option (list Z) :=
  match n with
  | O => Some buf
  | S n => match setz buf bp (swrap 8 c) with Some buf => memset buf (bp + 1) c n | None => None end
  end.
(** [*bp = c] *)
Definition put_char (buf : list Z) (bp c : Z) : M (list Z) := from_option (setz buf bp (swrap 8 c)).

(** The loop of [read_frame], with the position in the buffer and the sum so far: each round
    either returns or fills a place of the buffer. *)
Fixpoint frame (fuel : nat) (buf : list Z) (bp csum : Z) : M (bool * list Z) :=
  match fuel with
  | O => crash
  | S fuel =>
      c ← readchar remote_timeout;
      if (c =? SERIAL_TIMEOUT) || (c =? DOLLAR) then mret (false, buf)
      else if c =? HASH then
        buf ← put_char buf bp 0;
        h ← readchar remote_timeout; h ← fromhex h; let pktcsum := wrap 8 (Z.shiftl h 4) in
        l ← readchar remote_timeout; l ← fromhex l; let pktcsum := wrap 8 (Z.lor pktcsum l) in
        mret (csum =? pktcsum, buf)
      else if c =? STAR then
        r ← readchar remote_timeout;
        let csum := wrap 8 (csum + c + r) in
        let n := r - 0x20 + 3 in
        if (0 <? n) && (n <? 255) && (bp + n - 1 <? PBUFSIZ - 1) then
          last ← from_option (nthz buf (bp - 1));
          buf ← from_option (memset buf bp last (Z.to_nat n));
          frame fuel buf (bp + n) csum
        else buf ← put_char buf bp 0; mret (false, buf)
      else if bp <? PBUFSIZ - 1 then
        buf ← put_char buf bp c; frame fuel buf (bp + 1) (wrap 8 (csum + c))
      else buf ← put_char buf bp 0; mret (false, buf)
  end.
Definition read_frame (buf : list Z) : M (bool * list Z) := frame (Z.to_nat PBUFSIZ) buf 0 0.

(** Up to the start of a packet: whether there is one, not one yet, or nothing more at all. *)
Inductive found := Start | Retry | Closed.
Fixpoint await (fuel : nat) (timeout : Z) : M found :=
  match fuel with
  | O => crash
  | S fuel =>
      c ← readchar timeout;
      if c =? SERIAL_TIMEOUT then mret Retry
      else if c =? SERIAL_EOF then mret Closed
      else if c =? DOLLAR then mret Start else await fuel timeout
  end.
Fixpoint try_packet (tries : nat) (timeout : Z) (buf : list Z) : M (list Z) :=
  match tries with
  | O => serial_write [PLUS];; mret buf
  | S tries =>
      l ← gets input;
      f ← await (S (length l)) timeout;
      match f with
      | Closed => mret buf
      | Retry => serial_write [MINUS];; try_packet tries timeout buf
      | Start =>
          '(val, buf) ← read_frame buf;
          if val : bool then serial_write [PLUS];; mret buf
          else serial_write [MINUS];; try_packet tries timeout buf
      end
  end.
(** [strcpy] of a string into the buffer. *)
Fixpoint strcpy (buf : list Z) (bp : Z) (s : list Z) : option (list Z) :=
  match s with
  | [] => setz buf bp 0
  | c :: s => match setz buf bp (swrap 8 c) with Some buf => strcpy buf (bp + 1) s | None => None end
  end.
(** "timeout" *)
Definition TIMEOUT : list Z := [0x74; 0x69; 0x6d; 0x65; 0x6f; 0x75; 0x74].
Definition getpkt (buf : list Z) (forever : bool) : M (list Z) :=
  buf ← from_option (strcpy buf 0 TIMEOUT);
  try_packet MAX_TRIES (if forever then -1 else remote_timeout) buf.

(** ** Sending *)
Definition checksum (buf : list Z) : Z := foldl (λ s c, wrap 8 (s + c)) 0 buf.
Definition encapsulate (buf : list Z) : list Z :=
  let csum := checksum buf in
  DOLLAR :: buf ++ [HASH; tohex (Z.land (Z.shiftr csum 4) 0xf); tohex (Z.land csum 0xf)].
(** The answers of the peer; [junk] is the buffer for a packet that is not one. *)
Inductive answer := Acked | Gone | Resend.
Fixpoint await_ack (fuel : nat) (junk : list Z) : M answer :=
  match fuel with
  | O => crash
  | S fuel =>
      ch ← readchar remote_timeout;
      if ch =? PLUS then mret Acked
      else if ch =? SERIAL_EOF then mret Gone
      else if ch =? SERIAL_TIMEOUT then mret Resend
      else if ch =? DOLLAR then getpkt junk false;; await_ack fuel junk
      else await_ack fuel junk
  end.
Fixpoint send (fuel : nat) (tcount : Z) (buf2 junk : list Z) : M Z :=
  match fuel with
  | O => crash
  | S fuel =>
      ok ← serial_write buf2;
      when (negb ok) error;;
      l ← gets input;
      a ← await_ack (S (length l)) junk;
      match a with
      | Acked => mret 1
      | Gone => mret 0
      | Resend => let tcount := tcount + 1 in if 3 <? tcount then mret 0 else send fuel tcount buf2 junk
      end
  end.
Definition putpkt (buf junk : list Z) : M Z :=
  if PBUFSIZ - 5 <? Z.of_nat (length buf) then crash else send 4 0 (encapsulate buf) junk.

(** The characters of a C string. *)
Fixpoint c_string (buf : list Z) : list Z :=
  match buf with [] => [] | c :: buf => if c =? 0 then [] else c :: c_string buf end.
Definition remote_send (buf junk : list Z) : M (list Z) :=
  putpkt (c_string buf) junk;; buf ← getpkt buf false;
  c ← from_option (nthz buf 0); when (c =? 0x45) error;; mret buf.

(** ** What a peer may send *)
(** The data of a packet, characters and counts of further repetitions of the last one. *)
Inductive item := Char (c : Z) | Run (n : Z).
Definition plain (c : Z) : Prop := 0 < c < 128 ∧ c ≠ DOLLAR ∧ c ≠ HASH ∧ c ≠ STAR.
Definition item_ok (i : item) : Prop := match i with Char c => plain c | Run n => 3 ≤ n ≤ 97 end.
Fixpoint encode (items : list item) : list Z :=
  match items with
  | [] => []
  | Char c :: items => c :: encode items
  | Run n :: items => STAR :: n + 29 :: encode items
  end.
Fixpoint decode (last : option Z) (items : list item) : option (list Z) :=
  match items with
  | [] => Some []
  | Char c :: items => cons c <$> decode (Some c) items
  | Run n :: items => match last with Some c => app (replicate (Z.to_nat n) c) <$> decode (Some c) items | None => None end
  end.
Definition packet (items : list item) (p : Z) : list Z :=
  DOLLAR :: encode items ++ [HASH; tohex (Z.land (Z.shiftr p 4) 0xf); tohex (Z.land p 0xf)].
Definition noise (l : list Z) : Prop := Forall (λ b, 0 ≤ b < 128 ∧ b ≠ DOLLAR) l.

(** ** The buffer *)
Definition put (buf : list Z) (k : nat) (out : list Z) : list Z := take k buf ++ out ++ drop (k + length out) buf.
Lemma length_put buf k out : (k + length out ≤ length buf)%nat → length (put buf k out) = length buf.
Proof. intros H. unfold put. rewrite !length_app, length_take, length_drop. lia. Qed.
Lemma put_nil buf k : put buf k [] = buf.
Proof. unfold put. cbn. by rewrite Nat.add_0_r, take_drop. Qed.
Lemma put_put buf k o1 o2 : (k + length o1 ≤ length buf)%nat → put (put buf k o1) (k + length o1) o2 = put buf k (o1 ++ o2).
Proof.
  intros H. unfold put at 1 3. rewrite length_app. unfold put.
  assert (Hk : length (take k buf) = k) by (rewrite length_take; lia).
  rewrite (take_app_ge _ _ (k + length o1)) by lia. rewrite (drop_app_ge (take k buf)) by lia. rewrite Hk.
  replace (k + length o1 - k)%nat with (length o1) by lia. rewrite take_app_length.
  replace (k + length o1 + length o2 - k)%nat with (length o1 + length o2)%nat by lia.
  rewrite drop_app_ge by lia. replace (length o1 + length o2 - length o1)%nat with (length o2) by lia.
  rewrite drop_drop, <- !app_assoc. do 3 f_equal. f_equal. lia.
Qed.
Lemma put_more buf o1 o2 : (length o1 ≤ length buf)%nat → put (put buf 0 o1) (length o1) o2 = put buf 0 (o1 ++ o2).
Proof. intros H. by apply (put_put buf 0). Qed.
Lemma setz_put buf k c : (k < length buf)%nat → setz buf (Z.of_nat k) c = Some (put buf k [c]).
Proof.
  intros H. rewrite setz_Some by lia. rewrite Nat2Z.id. f_equal. unfold put. cbn.
  rewrite insert_take_drop by done. do 3 f_equal. lia.
Qed.
Lemma nthz_put buf k out c : (k + length out ≤ length buf)%nat → last out = Some c →
  nthz (put buf k out) (Z.of_nat (k + length out) - 1) = Some c.
Proof.
  intros H Hl. destruct out as [|c0 out _] using rev_ind; [done|]. rewrite last_snoc in Hl. injection Hl as ->.
  rewrite length_app in *. cbn in *. unfold nthz. destruct (Z.ltb_spec (Z.of_nat (k + (length out + 1)) - 1) 0); [lia|].
  replace (Z.to_nat _) with (k + length out)%nat by lia. unfold put. rewrite lookup_app_r; rewrite length_take; [|lia].
  rewrite lookup_app_l by (rewrite length_app; cbn; lia). rewrite lookup_app_r by lia.
  by replace (k + length out - k `min` length buf - length out)%nat with 0%nat by lia.
Qed.
Lemma swrap_plain c : 0 ≤ c < 128 → swrap 8 c = c.
Proof.
  intros H. unfold swrap, wrap. rewrite Z.mod_small by lia. destruct (Z.testbit _ _) eqn:Et; [|done].
  rewrite (testbit_high 7 c) in Et by (done || lia). done.
Qed.
Lemma memset_put buf k c n : 0 ≤ c < 128 → (k + n ≤ length buf)%nat →
  memset buf (Z.of_nat k) c n = Some (put buf k (replicate n c)).
Proof.
  intros Hc. revert buf k. induction n as [|n IH]; intros buf k H; cbn [memset]; [by rewrite put_nil|].
  rewrite swrap_plain, setz_put by (done || lia).
  replace (Z.of_nat k + 1) with (Z.of_nat (k + 1)) by lia. rewrite IH by (rewrite length_put; cbn; lia).
  f_equal. change (replicate (S n) c) with ([c] ++ replicate n c). rewrite <- put_put by (cbn; lia). done.
Qed.

(** ** Runs *)
Lemma readchar_byte timeout b l s : 0 ≤ b < 128 → input s = Byte b :: l →
  readchar timeout s = Some (b, s <| input := l |>, []).
Proof.
  intros Hb E. unfold readchar, serial_readchar. rewrite bind_assoc, gets_bind, E. cbn [next_event]. rewrite swrap_plain by done.
  rewrite bind_assoc. rewrite (bind_eq _ _ _ () (s <| input := l |>)) by done. rewrite ret_bind. unfold SERIAL_EOF, SERIAL_ERROR, SERIAL_TIMEOUT.
  rewrite !(proj2 (Z.eqb_neq _ _)) by lia. change 127 with (Z.ones 7). rewrite Z.land_ones, Z.mod_small by lia. done.
Qed.
Lemma tohex_byte n : 0 ≤ n < 16 → 0 ≤ tohex n < 128.
Proof. intros H. unfold tohex. destruct (n <? 10); lia. Qed.
Lemma fromhex_tohex n s : 0 ≤ n < 16 → fromhex (tohex n) s = Some (n, s, []).
Proof.
  intros H. assert (Hn : In n (seqZ 0 16)) by (apply list_elem_of_In, elem_of_seqZ; lia). cbn in Hn.
  repeat (destruct Hn as [<-|Hn]; [done|]). done.
Qed.

Lemma fromhex_bind {B} n (f : Z → M B) s : 0 ≤ n < 16 → bindM (fromhex (tohex n)) f s = f n s.
Proof. intros H. apply bind_eq. by apply fromhex_tohex. Qed.
Lemma readchar_bind {B} timeout b l (f : Z → M B) s : 0 ≤ b < 128 → input s = Byte b :: l →
  bindM (readchar timeout) f s = f b (s <| input := l |>).
Proof. intros Hb E. apply bind_eq. by apply readchar_byte. Qed.
(** The value of the two digits. *)
Lemma digits p : 0 ≤ p < 256 →
  wrap 8 (Z.lor (wrap 8 (Z.shiftl (Z.land (Z.shiftr p 4) 0xf) 4)) (Z.land p 0xf)) = p.
Proof.
  intros Hp. assert (HA : forallb (λ p, wrap 8 (Z.lor (wrap 8 (Z.shiftl (Z.land (Z.shiftr p 4) 0xf) 4)) (Z.land p 0xf)) =? p) (seqZ 0 256) = true)
    by (by vm_compute).
  apply Z.eqb_eq. apply (proj1 (forallb_forall _ _) HA p). apply list_elem_of_In, elem_of_seqZ. lia.
Qed.
Lemma nibbles p : 0 ≤ p < 256 → 0 ≤ Z.land (Z.shiftr p 4) 0xf < 16 ∧ 0 ≤ Z.land p 0xf < 16.
Proof. intros _. change 0xf with (Z.ones 4). rewrite !Z.land_ones by done. split; by apply Z.mod_pos_bound. Qed.

Definition sum (csum : Z) (l : list Z) : Z := foldl (λ s c, wrap 8 (s + c)) csum l.
Lemma sum_run csum n l : sum csum (STAR :: n + 29 :: l) = sum (wrap 8 (csum + STAR + (n + 29))) l.
Proof. unfold sum. cbn [foldl]. f_equal. unfold wrap. by rewrite Zplus_mod_idemp_l. Qed.

(** A frame fills the buffer with what it stands for, and is accepted for its checksum. *)
Lemma frame_run items : ∀ fuel lst out buf done_ bp csum p rest s,
  Forall item_ok items → decode lst items = Some out → lst = last done_ → (∀ c, lst = Some c → 0 ≤ c < 128) →
  length buf = 728%nat → bp = length done_ → (bp + length out ≤ 727)%nat → (length items < fuel)%nat → 0 ≤ p < 256 →
  input s = (Byte <$> encode items ++ [HASH; tohex (Z.land (Z.shiftr p 4) 0xf); tohex (Z.land p 0xf)]) ++ rest →
  frame fuel (put buf 0 done_) (Z.of_nat bp) csum s =
    Some ((sum csum (encode items) =? p, put buf 0 (done_ ++ out ++ [0])), s <| input := rest |>, []).
Proof.
  induction items as [|i items IH]; intros fuel lst out buf don bp csum p rest s Hok Hdec Hlst Hc Hbuf Hbp Hlen Hfuel Hp E;
    (destruct fuel as [|fuel]; [cbn in Hfuel; lia|]); cbn [frame].
  - injection Hdec as <-. pose proof (nibbles p Hp) as [Hh Hl]. cbn [encode fmap list_fmap app] in E.
    rewrite (readchar_bind _ HASH _ _ _ ltac:(done) E). change ((HASH =? SERIAL_TIMEOUT) || (HASH =? DOLLAR)) with false.
    change (HASH =? HASH) with true. cbn iota. subst bp. cbn [length] in Hlen.
    unfold put_char. change (swrap 8 0) with 0. rewrite setz_put by (rewrite length_put; lia). cbn [from_option]. rewrite ret_bind.
    rewrite (put_more buf don [0]) by lia.
    erewrite readchar_bind; [|exact (tohex_byte _ Hh)|reflexivity]. rewrite fromhex_bind by done.
    erewrite readchar_bind; [|exact (tohex_byte _ Hl)|reflexivity]. rewrite fromhex_bind by done.
    rewrite digits by done. done.
  - inversion Hok as [|i0 items0 Hi Hok']; subst i0 items0. destruct i as [c|n].
    + cbn [decode] in Hdec. destruct (decode (Some c) items) as [out'|] eqn:Hd; [|done]. injection Hdec as <-.
      cbn [encode fmap list_fmap app] in E. destruct Hi as (Hc1 & Hc2 & Hc3 & Hc4). cbn [length] in *.
      rewrite (readchar_bind _ c _ _ _ ltac:(lia) E). unfold SERIAL_TIMEOUT, PBUFSIZ.
      rewrite !(proj2 (Z.eqb_neq _ _)) by (done || lia). cbn [orb]. rewrite (proj2 (Z.ltb_lt _ _)) by lia.
      unfold put_char. rewrite swrap_plain by lia. rewrite setz_put by (rewrite length_put; lia). cbn [from_option]. rewrite ret_bind.
      subst bp. rewrite (put_more buf don [c]) by lia.
      replace (Z.of_nat (length don) + 1) with (Z.of_nat (length don + 1)) by lia.
      rewrite (IH fuel (Some c) out' buf (don ++ [c]) _ _ p rest);
        [by rewrite <- app_assoc|done|done|by rewrite last_snoc|intros ? [= <-]; lia|done|by rewrite length_app|lia|lia|done|done].
    + cbn [decode] in Hdec. destruct lst as [c|]; [|done]. destruct (decode (Some c) items) as [out'|] eqn:Hd; [|done]. injection Hdec as <-.
      rewrite length_app, length_replicate in Hlen. cbn [encode fmap list_fmap app] in E. cbn in Hi. specialize (Hc c eq_refl). cbn [length] in *.
      rewrite (readchar_bind _ STAR _ _ _ ltac:(done) E). cbn [Z.eqb orb]. change (STAR =? SERIAL_TIMEOUT) with false.
      change (STAR =? DOLLAR) with false. change (STAR =? HASH) with false. change (STAR =? STAR) with true. cbn iota. cbn [orb].
      erewrite (readchar_bind _ (n + 29)); [|lia|reflexivity]. unfold PBUFSIZ.
      replace (n + 29 - 32 + 3) with n by lia. rewrite !(proj2 (Z.ltb_lt _ _)) by lia. cbn [andb]. subst bp.
      assert (Hn1 : nthz (put buf 0 don) (Z.of_nat (length don) - 1) = Some c) by (apply (nthz_put buf 0 don c); done || lia). rewrite Hn1. cbn [from_option]. rewrite ret_bind.
      rewrite memset_put by (done || rewrite length_put; lia). cbn [from_option]. rewrite ret_bind.
      rewrite (put_more buf don) by lia.
      replace (Z.of_nat (length don) + n) with (Z.of_nat (length don + Z.to_nat n)) by lia.
      rewrite (IH fuel (Some c) out' buf (don ++ replicate (Z.to_nat n) c) _ _ p rest);
        [cbn [encode]; by rewrite sum_run, <- !app_assoc|done|done| |intros ? [= <-]; lia|done|by rewrite length_app, length_replicate|lia|lia|done|done].
      rewrite last_app. destruct (Z.to_nat n) as [|m] eqn:Hn; [lia|].
      by rewrite replicate_S_end, last_snoc.
Qed.

Lemma await_run timeout l rest : ∀ fuel s, noise l → (length l < fuel)%nat → input s = (Byte <$> l) ++ Byte DOLLAR :: rest →
  await fuel timeout s = Some (Start, s <| input := rest |>, []).
Proof.
  induction l as [|b l IH]; intros fuel s Hl Hf E; (destruct fuel as [|fuel]; [cbn in Hf; lia|]); cbn [await].
  - by erewrite (readchar_bind _ DOLLAR); [|done|exact E].
  - inversion Hl as [|b0 l0 [Hb Hd] Hl']; subst b0 l0. erewrite (readchar_bind _ b); [|exact Hb|exact E].
    unfold SERIAL_TIMEOUT, SERIAL_EOF. rewrite !(proj2 (Z.eqb_neq _ _)) by (done || lia).
    rewrite (IH fuel) by (done || cbn in Hf; lia). done.
Qed.

(** A packet with whatever precedes it up to its start. *)
Record sending := Sending { noise_before : list Z; content : list item; sent_sum : Z }.
Definition sending_ok (p : sending) : Prop :=
  noise (noise_before p) ∧ Forall item_ok (content p) ∧ 0 ≤ sent_sum p < 256 ∧
  ∃ out, decode None (content p) = Some out ∧ (length out ≤ 727)%nat.
Definition line_of (p : sending) : list event := Byte <$> noise_before p ++ packet (content p) (sent_sum p).
Definition intact (p : sending) : bool := sum 0 (encode (content p)) =? sent_sum p.

Lemma length_decode items : ∀ lst out, Forall item_ok items → decode lst items = Some out → (length items ≤ length out)%nat.
Proof.
  induction items as [|i items IH]; intros lst out Hok; cbn [decode]; [by intros [= <-]|].
  inversion Hok as [|i0 items0 Hi Hok']; subst i0 items0. destruct i as [c|n].
  - destruct (decode (Some c) items) as [o|] eqn:Hd; [|done]. intros [= <-]. cbn. specialize (IH _ _ Hok' Hd). lia.
  - destruct lst as [c|]; [|done]. destruct (decode (Some c) items) as [o|] eqn:Hd; [|done]. intros [= <-].
    rewrite length_app, length_replicate. cbn in Hi |- *. specialize (IH _ _ Hok' Hd). lia.
Qed.
Lemma try_one tries timeout buf p rest s : sending_ok p → length buf = 728%nat → input s = line_of p ++ rest → broken s = false →
  ∃ out, decode None (content p) = Some out ∧
  try_packet (S tries) timeout buf s =
    (if intact p then serial_write [PLUS];; mret (put buf 0 (out ++ [0]))
     else serial_write [MINUS];; try_packet tries timeout (put buf 0 (out ++ [0]))) (s <| input := rest |>).
Proof.
  intros (Hn & Hok & Hp & out & Hd & Hlen) Hbuf E Hb. exists out. split; [done|]. cbn [try_packet]. rewrite gets_bind.
  unfold line_of, packet in E. rewrite fmap_app, <- app_assoc in E. cbn [fmap list_fmap app] in E.
  assert (Ha : (length (noise_before p) < S (length (input s)))%nat) by (rewrite E, length_app, length_fmap; lia).
  rewrite (bind_eq _ _ _ _ _ (await_run timeout (noise_before p) _ _ s Hn Ha E)).
  pose proof (length_decode _ _ _ Hok Hd) as Hl.
  pose proof (frame_run (content p) 728 None out buf [] 0 0 (sent_sum p) rest (s <| input :=
    (Byte <$> encode (content p) ++ [HASH; tohex (Z.land (Z.shiftr (sent_sum p) 4) 0xf); tohex (Z.land (sent_sum p) 0xf)]) ++ rest |>)
    Hok Hd eq_refl ltac:(done) Hbuf eq_refl ltac:(lia) ltac:(lia) Hp eq_refl) as F.
  unfold read_frame. change (Z.to_nat PBUFSIZ) with 728%nat. rewrite put_nil in F. rewrite (bind_eq _ _ _ _ _ F).
  unfold intact. by destruct (_ =? _).
Qed.

(** Packets that are damaged are refused, and the first intact one is taken. *)
Lemma try_packets (bad : list sending) : ∀ tries timeout buf good rest s, Forall sending_ok bad → Forall (λ p, intact p = false) bad →
  sending_ok good → intact good = true → (length bad < tries)%nat → length buf = 728%nat → broken s = false →
  input s = (bad ≫= line_of) ++ line_of good ++ rest →
  ∃ buf1 out, length buf1 = 728%nat ∧ decode None (content good) = Some out ∧ try_packet tries timeout buf s =
    Some (put buf1 0 (out ++ [0]), s <| input := rest |> <| output ::= λ o, o ++ replicate (length bad) MINUS ++ [PLUS] |>, []).
Proof.
  induction bad as [|p bad IH]; intros tries timeout buf good rest s Hbad Hint Hgood Hg Ht Hbuf Hb E; (destruct tries as [|tries]; [cbn in Ht; lia|]).
  - destruct (try_one tries timeout buf good rest s Hgood Hbuf E Hb) as (out & Hd & Et). rewrite Hg in Et.
    exists buf, out. split; [done|]. split; [done|]. rewrite Et. destruct s as [i o bk n]. cbn in Hb. by subst bk.
  - inversion Hbad as [|p0 bad0 Hp Hbad']; subst p0 bad0. inversion Hint as [|p0 bad0 Hi Hint']; subst p0 bad0.
    cbn [mbind list_bind] in E. rewrite <- app_assoc in E.
    destruct (try_one tries timeout buf p _ s Hp Hbuf E Hb) as (o1 & Hd1 & Et). rewrite Hi in Et.
    set (s1 := s <| input := (bad ≫= line_of) ++ line_of good ++ rest |> <| output ::= λ o, o ++ [MINUS] |>).
    assert (Hs1 : serial_write [MINUS] (s <| input := (bad ≫= line_of) ++ line_of good ++ rest |>) = Some (true, s1, [])).
    { unfold serial_write. rewrite gets_bind. destruct s as [i o bk n]. cbn in Hb. by subst bk. }
    rewrite (bind_eq _ _ _ _ _ Hs1) in Et.
    assert (Hl1 : length (put buf 0 (o1 ++ [0])) = 728%nat).
    { destruct Hp as (_ & _ & _ & o & Hd & Hl). assert (o = o1) as -> by congruence. rewrite length_put; [done|]. rewrite length_app. cbn. lia. }
    destruct (IH tries timeout _ good rest s1 Hbad' Hint' Hgood Hg ltac:(cbn in Ht; lia) Hl1 Hb eq_refl) as (buf1 & out & Hb1 & Hd & Er).
    exists buf1, out. split; [done|]. split; [done|]. rewrite Et, Er. destruct s as [i o bk n]. unfold s1. cbn. by rewrite <- app_assoc.
Qed.

(** What precedes an acknowledgement. *)
Definition ack_noise (l : list Z) : Prop := Forall (λ b, 0 ≤ b < 128 ∧ b ≠ DOLLAR ∧ b ≠ PLUS) l.
Lemma await_ack_run l e rest junk : ∀ fuel s, ack_noise l → (length l < fuel)%nat → e = Byte PLUS ∨ e = Silence →
  input s = (Byte <$> l) ++ e :: rest →
  await_ack fuel junk s = Some (match e with Silence => Resend | _ => Acked end, s <| input := rest |>, []).
Proof.
  induction l as [|b l IH]; intros fuel s Hl Hf He E; (destruct fuel as [|fuel]; [cbn in Hf; lia|]); cbn [await_ack].
  - destruct He as [->| ->]; [by erewrite (readchar_bind _ PLUS); [|done|exact E]|].
    assert (Hr : readchar remote_timeout s = Some (SERIAL_TIMEOUT, s <| input := rest |>, [])).
    { unfold readchar, serial_readchar. by rewrite bind_assoc, gets_bind, E. }
    by rewrite (bind_eq _ _ _ _ _ Hr).
  - inversion Hl as [|b0 l0 (Hb & Hd & Hp) Hl']; subst b0 l0. erewrite (readchar_bind _ b); [|exact Hb|exact E].
    unfold SERIAL_TIMEOUT, SERIAL_EOF. rewrite !(proj2 (Z.eqb_neq _ _)) by (done || lia).
    rewrite (IH fuel) by (done || cbn in Hf; lia). done.
Qed.
Lemma send_run (silent : list (list Z)) : ∀ fuel tcount buf2 junk l rest s, Forall ack_noise silent → ack_noise l →
  (length silent < fuel)%nat → tcount + Z.of_nat (length silent) ≤ 3 → broken s = false →
  input s = (silent ≫= λ j, (Byte <$> j) ++ [Silence]) ++ (Byte <$> l) ++ Byte PLUS :: rest →
  send fuel tcount buf2 junk s =
    Some (1, s <| input := rest |> <| output ::= λ o, o ++ concat (replicate (S (length silent)) (wrap 8 <$> buf2)) |>, []).
Proof.
  induction silent as [|j silent IH]; intros fuel tcount buf2 junk l rest s Hs Hl Hf Ht Hb E; (destruct fuel as [|fuel]; [cbn in Hf; lia|]); cbn [send].
  all: assert (Hw : serial_write buf2 s = Some (true, s <| output ::= λ o, o ++ (wrap 8 <$> buf2) |>, []))
    by (unfold serial_write; rewrite gets_bind; destruct s as [i o bk n]; cbn in Hb; by subst bk).
  all: rewrite (bind_eq _ _ _ _ _ Hw); cbn [negb when]; rewrite ret_bind, gets_bind.
  - erewrite (bind_eq (await_ack _ _)); [|apply (await_ack_run l (Byte PLUS) rest); [done| |by left|exact E]].
    + cbn. by rewrite app_nil_r.
    + cbn [input upd setter_of] in *. change (input s) with (input s). cbn. rewrite E. cbn. rewrite length_app, length_fmap. lia.
  - inversion Hs as [|j0 silent0 Hj Hs']; subst j0 silent0. cbn [mbind list_bind] in E. rewrite <- !app_assoc in E. cbn [app] in E.
    erewrite (bind_eq (await_ack _ _)); [|eapply (await_ack_run j Silence); [done| |by right|exact E]].
    + rewrite (proj2 (Z.ltb_ge 3 (tcount + 1))) by (cbn [length] in Ht; lia).
      rewrite (IH fuel (tcount + 1) buf2 junk l rest); [|done|done|cbn in Hf; lia|cbn [length] in Ht; lia|done|done].
      destruct s as [i o bk n]. cbn. by rewrite <- !app_assoc.
    + cbn. rewrite E, length_app, length_fmap. lia.
Qed.

Lemma decode_plain items : ∀ lst out, Forall item_ok items → (∀ c, lst = Some c → plain c) → decode lst items = Some out → Forall plain out.
Proof.
  induction items as [|i items IH]; intros lst out Hok Hl; cbn [decode]; [intros [= <-]; constructor|].
  inversion Hok as [|i0 items0 Hi Hok']; subst i0 items0. destruct i as [c|n].
  - destruct (decode (Some c) items) as [o|] eqn:Hd; [|done]. intros [= <-]. constructor; [done|]. eapply IH; [done| |done]. by intros ? [= <-].
  - destruct lst as [c|]; [|done]. destruct (decode (Some c) items) as [o|] eqn:Hd; [|done]. intros [= <-].
    apply Forall_app. split; [apply Forall_replicate, Hl; done|]. by eapply IH.
Qed.
Lemma c_string_put buf out : Forall plain out → c_string (put buf 0 (out ++ [0])) = out.
Proof.
  unfold put. generalize (drop (0 + length (out ++ [0])) buf). intros r H. change (take 0 buf) with (@nil Z). cbn [app]. rewrite <- app_assoc. cbn [app].
  induction H as [|c out [Hc _] _ IH]; [done|]. cbn. rewrite (proj2 (Z.eqb_neq c 0)) by lia. by f_equal.
Qed.
Lemma decode_chars data : ∀ lst, decode lst (Char <$> data) = Some data.
Proof. induction data as [|c data IH]; intros lst; [done|]. cbn [fmap list_fmap decode]. by rewrite IH. Qed.
Lemma encode_chars data : encode (Char <$> data) = data.
Proof. induction data as [|c data IH]; [done|]. cbn [fmap list_fmap encode]. by rewrite IH. Qed.
Lemma strcpy_length str : ∀ buf k, 0 ≤ k → k + Z.of_nat (length str) < Z.of_nat (length buf) →
  ∃ buf', strcpy buf k str = Some buf' ∧ length buf' = length buf.
Proof.
  induction str as [|c str IH]; intros buf k Hk Hl; cbn [strcpy length] in *; rewrite setz_Some by lia.
  { eexists. split; [done|]. by rewrite length_insert. }
  destruct (IH (<[Z.to_nat k := swrap 8 c]> buf) (k + 1)) as (b & E & Hb); [lia|rewrite length_insert; lia|].
  exists b. split; [done|]. by rewrite Hb, length_insert.
Qed.

(** C28 packets: over a connection whose writes succeed,
    a packet is sent again after each silence, up to four times, until it is acknowledged
    through whatever else arrives; a received packet is found behind whatever precedes it,
    its repeat counts are expanded, and it is taken and acknowledged if its checksum is
    right; up to two damaged packets before it are refused; and what was sent is a packet
    that is received as the same data. *)
Theorem packets (s : t) (buf junk : list Z) (Hb : broken s = false) (Hbuf : length buf = 728%nat) :
  (∀ data silent l rest, (length data ≤ 723)%nat → Forall ack_noise silent → (length silent ≤ 3)%nat → ack_noise l →
     input s = (silent ≫= λ j, (Byte <$> j) ++ [Silence]) ++ (Byte <$> l) ++ Byte PLUS :: rest →
     putpkt data junk s = Some (1, s <| input := rest |>
       <| output ::= λ o, o ++ concat (replicate (S (length silent)) (wrap 8 <$> encapsulate data)) |>, [])) ∧
  (∀ bad good rest forever, Forall sending_ok bad → Forall (λ p, intact p = false) bad → (length bad ≤ 2)%nat →
     sending_ok good → intact good = true → input s = (bad ≫= line_of) ++ line_of good ++ rest →
     ∃ buf', getpkt buf forever s = Some (buf', s <| input := rest |>
         <| output ::= λ o, o ++ replicate (length bad) MINUS ++ [PLUS] |>, []) ∧
       decode None (content good) = Some (c_string buf')) ∧
  (∀ data, Forall plain data → (length data ≤ 723)%nat → let p := Sending [] (Char <$> data) (checksum data) in
     Byte <$> (wrap 8 <$> encapsulate data) = line_of p ∧ sending_ok p ∧ intact p = true ∧ decode None (content p) = Some data).
Proof.
  split_and!.
  - intros data silent l rest Hlen Hs Hls Hl E. unfold putpkt, PBUFSIZ. rewrite (proj2 (Z.ltb_ge _ _)) by lia.
    eapply send_run; done || lia.
  - intros bad good rest forever Hbad Hint Hlb Hgood Hg E. unfold getpkt.
    destruct (strcpy_length TIMEOUT buf 0) as (buf0 & -> & Hb0); [done|rewrite Hbuf; done|]. rewrite Hbuf in Hb0. cbn [from_option]. rewrite ret_bind.
    destruct (try_packets bad MAX_TRIES (if forever then -1 else remote_timeout) buf0 good rest s Hbad Hint Hgood Hg ltac:(unfold MAX_TRIES; lia) Hb0 Hb E)
      as (buf1 & out & _ & Hd & Et).
    eexists. split; [exact Et|]. rewrite c_string_put; [done|]. eapply decode_plain; [apply Hgood| |exact Hd]. done.
  - intros data Hpl Hlen p. unfold line_of, packet, p. cbn [noise_before content sent_sum]. rewrite encode_chars, decode_chars.
    assert (Hs : 0 ≤ checksum data < 256).
    { unfold checksum. destruct data as [|c data _] using rev_ind; [done|]. rewrite foldl_snoc. by apply (wrap_range 8). }
    unfold sending_ok, intact. cbn [noise_before content sent_sum]. rewrite encode_chars, Z.eqb_refl. split_and!; try done.
    + assert (Hw : wrap 8 <$> encapsulate data = encapsulate data); [|by rewrite Hw].
      rewrite <- (list_fmap_id (encapsulate data)) at 2. apply Forall_fmap_ext_1.
      pose proof (nibbles _ Hs) as [H1 H2]. pose proof (tohex_byte _ H1). pose proof (tohex_byte _ H2).
      apply (Forall_impl (λ c, 0 ≤ c < 256)); [|intros c Hc; by apply Z.mod_small].
      constructor; [done|]. apply Forall_app. split; [eapply Forall_impl; [exact Hpl|]; intros c [Hc _]; lia|].
      repeat constructor; (done || lia).
    + by apply Forall_nil.
    + apply Forall_fmap. exact Hpl.
    + lia.
    + lia.
    + exists data. split; [apply decode_chars|lia].
Qed.

(** "0* " stands for four zeros; before it a packet with a wrong checksum is refused. *)
Lemma packets_witness :
  let bad := Sending [0x2b] [Char 0x67] 0 in let good := Sending [] [Char 0x30; Run 3] 0x7a in
  let s := Mk [Byte PLUS] [] false 0 in
  let r := Mk (line_of bad ++ line_of good ++ []) [] false 0 in
  (∃ s', putpkt [0x4f; 0x4b] [] s = Some (1, s', [])) ∧
  ∃ buf' s', getpkt (replicate 728 0) true r = Some (buf', s', []) ∧ output s' = [MINUS; PLUS] ∧
    Some (c_string buf') = Some [0x30; 0x30; 0x30; 0x30].
Proof.
  intros bad good s r.
  destruct (packets s (replicate 728 0) [] eq_refl eq_refl) as [H1 _].
  destruct (packets r (replicate 728 0) [] eq_refl eq_refl) as [_ [H2 _]]. split.
  - eexists. apply (H1 [0x4f; 0x4b] [] [] []); try done; try (cbn; lia); constructor.
  - assert (Hok : sending_ok bad ∧ sending_ok good).
    { split; refine (conj _ (conj _ (conj (conj _ _) _))); try done; try (repeat constructor; (done || lia)).
      - exists [0x67]. split; [done|cbn; lia].
      - eexists. split; [done|by apply Nat.leb_le]. }
    destruct (H2 [bad] good [] true) as (buf' & E & Hc); [by constructor; [apply Hok|constructor]|by constructor|cbn; lia|apply Hok|done|done|].
    eexists buf', _. split; [exact E|]. split; [done|]. rewrite <- Hc. done.
Defined.

End RemoteGdb.
