(* ===== verification/GdbStub.v ===== *)
(** * GdbStub: the stub of the GNU debugger (debug.h, debug.cc, and the debugger's
      interface of cpu.cc)

    Requests arrive in packets; they read and write the registers and the memory of the
    processor, set breakpoints and run the machine. *)

From stdpp Require Import sorting.
From Stdlib Require Import (notations) String.
From S2P Require Import Prelude Effects Types Range Mapper Cache CPZero CPU Demo CStrings RemoteGdb.

(** ** Hexadecimal output *)
Module HexOut.

(** [%02x] and [%08x] of a number that fits. *)
Definition hex02 (n : Z) : list Z := [RemoteGdb.tohex (Z.land (Z.shiftr n 4) 0xf); RemoteGdb.tohex (Z.land n 0xf)].
Definition hex08 (n : Z) : list Z :=
  hex02 (u8 (Z.shiftr n 24)) ++ hex02 (u8 (Z.shiftr n 16)) ++ hex02 (u8 (Z.shiftr n 8)) ++ hex02 (u8 n).

End HexOut.

(** What the stub asks of the memory system, beside what the processor does. *)
Class DebugPort (B : Type) : Type := {
  mem_enable_debug_mode : M B unit;
  mem_disable_debug_mode : M B unit;
  mem_find_mapping_range : Z → M B (option Z);       (* the range's address *)
  mem_isTriggered : Z → B → bool                     (* of an accelerator's debugger *)
}.

Module Debug.
Import CString HexOut.

Record t {B : Type} := Mk {
  cpu : CPU.t B;
  signo : Z;                       (* int *)
  threadno_step : Z;               (* long *)
  threadno_gen : Z;
  rom_baseaddr : Z;
  rom_nwords : Z;
  bp_set : gset Z;
  acdbg_set : gset Z;
  triggered_acdbg : gmap (option Z) bool;
  got_interrupt : bool;
  exception_pending : bool;        (* of the base class *)
  conn : RemoteGdb.t
}.
Arguments t : clear implicits.
#[global] Instance eta {B} : Eta (t B) := λ s,
  Mk B (cpu s) (signo s) (threadno_step s) (threadno_gen s) (rom_baseaddr s) (rom_nwords s) (bp_set s) (acdbg_set s)
    (triggered_acdbg s) (got_interrupt s) (exception_pending s) (conn s).

(** [signos] of [exccode_to_signal] *)
Definition exccode_to_signal (exccode : Z) : Z :=
  if (exccode <? Int) || (Ov <? exccode) then 1
  else default 0 (nthz [2; 11; 11; 11; 11; 11; 7; 7; 5; 5; 4; 8; 8] exccode).

Definition OK : list Z := [0x4f; 0x4b].
Definition error_packet (error_code : Z) : list Z := 0x45 :: hex02 error_code.
Definition signal_packet (signal : Z) : list Z := 0x53 :: hex02 signal.
(** The characters with the zero at their end. *)
Definition hexpacket (s : list Z) : list Z := (s ++ [0]) ≫= hex02.

(** [Debug::Debug] on a processor; [pending] is the uninitialised flag of the base class. *)
Definition Debug {B} (cpu_ : CPU.t B) (pending : bool) (c : RemoteGdb.t) : t B :=
  Mk B cpu_ (exccode_to_signal Bp) (-1) (-1) 0 0 ∅ ∅ ∅ false pending c.
(** What [setup] notes; the socket and the signal handler are the host's. *)
Definition setup {B} (baseaddr nwords : Z) : M (t B) unit := rom_baseaddr <~ baseaddr;; rom_nwords <~ nwords.
Definition exception {B} : M (t B) unit := exception_pending <~ true.
Definition debugger_interrupt {B} : M (t B) unit := got_interrupt <~ true.

Section Stub.
  Context {B : Type} `{MemPort B} `{DebugPort B}.
  (** The stub as a client of the bus, and the processor; the time; whether the processor
      and the host are big-endian. *)
  Variables (dbg me now : Z) (opt_bigendian host : bool).
  (** [machine->step()]; what it runs depends on the mode of the machine. *)
  Variable machine_step : Effects.M (CPU.t B) unit.
  Notation M := (Effects.M (t B)).

(** A call into the processor: exceptions sent to the stub set its flag. *)
Definition on_cpu {A} (m : Effects.M (CPU.t B) A) : M A := λ s,
  match m (cpu s) with
  | None => None
  | Some (a, c, e) =>
      Some (a, s <| cpu := c |> <| exception_pending ::= λ b, b || existsb (λ e, ev_client e =? dbg) e |>,
            filter (λ e, ev_client e ≠ dbg) e)
  end.

(** *** Numbers in packets *)
(** Two or eight characters, read whatever follows. *)
Definition pop_chars (n : nat) (packet : list Z) : M (list Z * list Z) :=
  if (length packet <? n)%nat then crash else mret (take n packet, drop n packet).
Definition packet_pop_word (packet : list Z) : M (Z * list Z) :=
  '(v, p) ← pop_chars 8 packet;
  let val := u32 (strtoul v 16) in
  mret (if opt_bigendian then val else swap_word val, p).
Definition packet_pop_byte (packet : list Z) : M (Z * list Z) :=
  '(v, p) ← pop_chars 2 packet; mret (u8 (strtoul v 16), p).
Definition debug_packet_push_word (packet : list Z) (n : Z) : list Z :=
  packet ++ hex08 (if opt_bigendian then n else swap_word n).
Definition debug_packet_push_byte (packet : list Z) (n : Z) : list Z := packet ++ hex02 n.

(** *** Registers *)
(** The 38 registers in the order of the debugger, and zeros for 52 others. *)
Definition debug_registers_to_packet : M (list Z) :=
  c ← gets cpu;
  let '(sr, bad, cause) := CPZero.read_debug_info (CPU.cpzero c) in
  pc ← on_cpu CPU.debug_get_pc;
  mret (foldl debug_packet_push_word []
    (CPU.reg c ++ [sr; CPU.lo c; CPU.hi c; bad; cause; pc] ++ replicate 52 0)).
Fixpoint pop_words (n : nat) (packet : list Z) : M (list Z * list Z) :=
  match n with
  | O => mret ([], packet)
  | S n => '(w, packet) ← packet_pop_word packet; '(l, packet) ← pop_words n packet; mret (w :: l, packet)
  end.
Definition debug_packet_to_registers (packet : list Z) : M unit :=
  '(reg, packet) ← pop_words 32 packet;
  '(sr, packet) ← packet_pop_word packet;
  '(lo, packet) ← packet_pop_word packet;
  '(hi, packet) ← packet_pop_word packet;
  '(bad, packet) ← packet_pop_word packet;
  '(cause, packet) ← packet_pop_word packet;
  '(pc, packet) ← packet_pop_word packet;
  zoom cpu (modify (λ c, c <| CPU.reg := reg |> <| CPU.lo := lo |> <| CPU.hi := hi |> <| CPU.pc := pc |>));;
  zoom cpu (zoom CPU.cpzero (CPZero.write_debug_info sr bad cause)).
Definition target_read_registers : M (list Z) := debug_registers_to_packet.
Definition target_write_registers (pkt : list Z) : M (list Z) :=
  debug_packet_to_registers (drop 1 pkt);; mret OK.

(** *** Memory *)
Definition failed : M bool := gets exception_pending.
Definition translate (addr : Z) (cacheable : bool) : M (Z * bool) :=
  '(a, c) ← on_cpu (zoom CPU.cpzero (CPZero.address_trans addr DATALOAD dbg)); mret (a, default cacheable c).
(** One byte: of a cache that holds it, or of the memory. *)
Definition swapped : M bool := on_cpu (gets (λ c, mem_byteswapped (CPU.bus c))).
Definition cached (w : CPU.cache_sel) (real_addr : Z) : M bool := on_cpu (CPU.on_cache me w (Cache.ready real_addr)).
Definition fetch_debug_byte (real_addr : Z) (cacheable : bool) : M Z :=
  let uncached := on_cpu (zoom CPU.bus (mem_fetch_byte now real_addr dbg)) in
  let of_cache w := sw ← swapped; on_cpu (CPU.on_cache me w (Cache.fetch_byte now host sw real_addr dbg)) in
  if cacheable then
    i ← cached CPU.ICache real_addr;
    if i : bool then of_cache CPU.ICache else
    d ← cached CPU.DCache real_addr;
    if d : bool then of_cache CPU.DCache else uncached
  else uncached.
Definition store_debug_byte (real_addr byte : Z) (cacheable : bool) : M unit :=
  let uncached := on_cpu (zoom CPU.bus (mem_store_byte now real_addr byte dbg)) in
  let of_cache w := sw ← swapped; on_cpu (CPU.on_cache me w (Cache.store_byte now host sw real_addr byte dbg)) in
  if cacheable then
    i ← cached CPU.ICache real_addr;
    if i : bool then of_cache CPU.ICache else
    d ← cached CPU.DCache real_addr;
    if d : bool then of_cache CPU.DCache else uncached
  else uncached.

(** The loops over [len] bytes, in the debug mode of the memory; [room] is the size of the
    buffer that was allocated. *)
Fixpoint fetch_bytes (room : Z) (n : nat) (addr : Z) (cacheable : bool) (packet : list Z) : M (option (list Z)) :=
  match n with
  | O => mret (Some packet)
  | S n =>
      '(real_addr, cacheable) ← translate addr cacheable;
      f ← failed; if f : bool then mret None else
      byte ← fetch_debug_byte real_addr cacheable;
      f ← failed; if f : bool then mret None else
      if room <? Z.of_nat (length packet) + 3 then crash
      else fetch_bytes room n (u32 (addr + 1)) cacheable (debug_packet_push_byte packet byte)
  end.
Definition debug_fetch_region (addr len : Z) : M (option (list Z)) :=
  on_cpu (zoom CPU.bus mem_enable_debug_mode);;
  r ← fetch_bytes (u32 (2 * len + 1)) (Z.to_nat len) addr false [];
  on_cpu (zoom CPU.bus mem_disable_debug_mode);; mret r.
Fixpoint store_bytes (n : nat) (addr : Z) (cacheable : bool) (packet : list Z) : M bool :=
  match n with
  | O => mret true
  | S n =>
      '(byte, packet) ← packet_pop_byte packet;
      '(real_addr, cacheable) ← translate addr cacheable;
      f ← failed; if f : bool then mret false else
      store_debug_byte real_addr byte cacheable;;
      f ← failed; if f : bool then mret false else
      store_bytes n (u32 (addr + 1)) cacheable packet
  end.
Definition debug_store_region (addr len : Z) (packet : list Z) : M bool :=
  on_cpu (zoom CPU.bus mem_enable_debug_mode);;
  r ← store_bytes (Z.to_nat len) addr false packet;
  on_cpu (zoom CPU.bus mem_disable_debug_mode);; mret r.

(** *** Breakpoints *)
Definition breakpoint_exists (addr : Z) (s : t B) : bool := bool_decide (addr ∈ bp_set s).
Definition declare_breakpoint (addr : Z) : M unit := modify (λ s, s <| bp_set ::= λ b, {[addr]} ∪ b |>).
Definition remove_breakpoint (addr : Z) : M unit := modify (λ s, s <| bp_set ::= λ b, b ∖ {[addr]} |>).
(** The operator [] of the map inserts what it does not find. *)
Definition triggered (l : option Z) : M bool :=
  m ← gets triggered_acdbg;
  match m !! l with
  | Some b => mret b
  | None => modify (λ s, s <| triggered_acdbg ::= <[l := false]> |>);; mret false
  end.
Definition find_range (addr : Z) : M (option Z) := on_cpu (zoom CPU.bus (mem_find_mapping_range addr)).
Definition declare_watchpoint (addr : Z) : M bool :=
  l ← find_range addr;
  s ← gets acdbg_set;
  match l with
  | None => mret false
  | Some d =>
      if bool_decide (d ∈ s) then modify (λ s, s <| triggered_acdbg ::= <[l := true]> |>);; mret true else mret false
  end.
Definition remove_watchpoint (addr : Z) : M bool :=
  l ← find_range addr;
  b ← triggered l;
  when b (modify (λ s, s <| triggered_acdbg ::= <[l := false]> |>));; mret true.
Fixpoint watchpoint_in (l : list Z) : M bool :=
  match l with
  | [] => mret false
  | d :: l =>
      b ← triggered (Some d);
      i ← gets (λ s, mem_isTriggered d (CPU.bus (cpu s)));
      if b && i then mret true else watchpoint_in l
  end.
(** The set is walked in the order of the addresses. *)
Definition watchpoint_exists : M bool := s ← gets acdbg_set; watchpoint_in (merge_sort Z.le (elements s)).
Definition register_ac_debbuger (d : Z) : M unit := modify (λ s, s <| acdbg_set ::= λ a, {[d]} ∪ a |>).
Definition address_in_rom (addr : Z) (s : t B) : bool :=
  negb ((addr <? rom_baseaddr s) || (u32 (rom_baseaddr s + u32 (4 * rom_nwords s)) <? addr)).
(** [while (--bytes)] compares three of the four bytes. *)
Fixpoint pop_equals (l : list Z) (packet : list Z) : M bool :=
  match l with
  | [] => mret true
  | b :: l => '(x, packet) ← packet_pop_byte packet; if x =? b then pop_equals l packet else mret false
  end.
Definition is_breakpoint_insn (packet : list Z) : M bool :=
  pop_equals (take 3 (if opt_bigendian then [0; 0x5; 0; 0xd] else [0xd; 0; 0x5; 0])) packet.

(** *** Requests *)
Definition target_read_memory (pkt : list Z) : M (list Z) :=
  match strchr pkt 0x2c with
  | None => mret (error_packet 1)
  | Some lenstr =>
      let addr := u32 (strtoul (drop 1 pkt) 16) in
      let len := u32 (strtoul lenstr 16) in
      r ← debug_fetch_region addr len;
      mret (match r with Some packet => packet | None => error_packet 1 end)
  end.
Definition target_write_memory (pkt : list Z) : M (list Z) :=
  match strchr pkt 0x2c, strchr pkt 0x3a with
  | Some lenstr, Some datastr =>
      let addr := u32 (strtoul (drop 1 pkt) 16) in
      let len := u32 (strtoul lenstr 16) in
      s ← gets id;
      let rom := (len =? 4) && address_in_rom addr s in
      brk ← (if rom then is_breakpoint_insn datastr else mret false);
      if rom && brk then declare_breakpoint addr;; mret OK
      else if rom && breakpoint_exists addr s then
        (* the instruction is compared once more *)
        again ← is_breakpoint_insn datastr;
        if negb again then remove_breakpoint addr;; mret OK
        else ok ← debug_store_region addr len datastr; mret (if ok : bool then OK else error_packet 1)
      else ok ← debug_store_region addr len datastr; mret (if ok : bool then OK else error_packet 1)
  | _, _ => mret (error_packet 1)
  end.

(** [do machine->step(); while (it stalled)] *)
Fixpoint step_until (fuel : nat) : Effects.M (CPU.t B) unit :=
  match fuel with
  | O => crash
  | S fuel =>
      before ← gets CPU.stall_count;
      machine_step;;
      after ← gets CPU.stall_count;
      if before <? after then step_until fuel else mret ()
  end.
Definition single_step (fuel : nat) : M Z :=
  pc ← on_cpu CPU.debug_get_pc;
  s ← gets id;
  if breakpoint_exists pc s then mret Bp else
  w ← watchpoint_exists;
  if w : bool then mret Bp else
  g ← gets got_interrupt;
  if g : bool then mret Bp else
  on_cpu (step_until fuel);;
  gets (λ s, CPU.pending_exception (cpu s)).
Definition set_pc_if (pkt : list Z) : M unit :=
  let addrstr := drop 1 pkt in
  when (0 <? strlen addrstr) (on_cpu (CPU.debug_set_pc (u32 (strtoul addrstr 16)))).
Fixpoint continue_loop (fuel : nat) : M (list Z) :=
  match fuel with
  | O => crash
  | S fuel' =>
      exccode ← single_step fuel;
      s ← gets id;
      if CPU.halted (cpu s) then mret [0x57; 0x30; 0x30]
      else if got_interrupt s && (exccode =? Bp) then
        modify (λ s, s <| got_interrupt := false |>);; mret (signal_packet (exccode_to_signal Bp))
      else if negb (exccode =? 0) then
        modify (λ s, s <| signo := exccode_to_signal exccode |>);; mret (signal_packet (exccode_to_signal exccode))
      else continue_loop fuel'
  end.
Definition target_continue (fuel : nat) (pkt : list Z) : M (list Z) := set_pc_if pkt;; continue_loop fuel.
Definition target_step (fuel : nat) (pkt : list Z) : M (list Z) :=
  set_pc_if pkt;;
  exccode ← single_step fuel;
  when (negb (exccode =? 0)) (modify (λ s, s <| signo := exccode_to_signal exccode |>));;
  g ← gets signo; mret (signal_packet g).
Definition target_kill : M (list Z) := on_cpu (CPU.halted <~ true);; mret OK.
Definition target_detach : M (list Z) := mret OK.
Definition target_last_signal : M (list Z) := g ← gets signo; mret (signal_packet g).
Definition target_unimplemented : M (list Z) := mret [].
Definition target_set_thread (pkt : list Z) : M (list Z) :=
  c ← from_option (nthz pkt 1);
  let threadno := strtol (drop 2 pkt) 0 in
  if (threadno <? -1) || (1 <? threadno) then mret (error_packet 1)
  else
    (if c =? 0x63 then modify (λ s, s <| threadno_step := threadno |>) else modify (λ s, s <| threadno_gen := threadno |>));;
    mret OK.
Definition target_poll_thread (pkt : list Z) : M (list Z) :=
  mret (if strtol (drop 1 pkt) 16 =? 1 then OK else error_packet 1).
Definition target_set_or_remove_breakpoint (pkt : list Z) (setting : bool) : M (list Z) :=
  match strchr pkt 0x2c with
  | None => mret (error_packet 1)
  | Some addrstr =>
      match strchr addrstr 0x2c with
      | None => mret (error_packet 1)
      | Some _ =>
          let type := u32 (strtoul (drop 1 pkt) 10) in
          let addr := u32 (strtoul addrstr 16) in
          if (type =? 0) || (type =? 1) then
            (if setting then declare_breakpoint addr else remove_breakpoint addr);; mret OK
          else if (type =? 2) || (type =? 3) || (type =? 4) then
            ok ← (if setting then declare_watchpoint addr else remove_watchpoint addr);
            mret (if ok : bool then OK else [])
          else mret []
      end
  end.
(** The queries that are answered: C, fThreadInfo, sThreadInfo, ThreadExtraInfo,1 and
    Symbol::. *)
Definition target_query (pkt : list Z) : M (list Z) :=
  let q := RemoteGdb.c_string (drop 1 pkt) in
  mret (
    if bool_decide (q = chars "C"%string) then chars "QC 1"%string
    else if bool_decide (q = chars "fThreadInfo"%string) then chars "m 1"%string
    else if bool_decide (q = chars "sThreadInfo"%string) then chars "l"%string
    else if bool_decide (q = chars "ThreadExtraInfo,1"%string) then hexpacket (chars "Simulated Thread"%string)
    else if bool_decide (q = chars "Symbol::"%string) then OK
    else []).
(** The [switch] of [targetloop]. *)
Definition dispatch (fuel : nat) (buf : list Z) : M (list Z) :=
  c ← from_option (nthz buf 0);
  if c =? 0x67 then target_read_registers                              (* g *)
  else if c =? 0x47 then target_write_registers buf                    (* G *)
  else if c =? 0x6d then target_read_memory buf                        (* m *)
  else if c =? 0x4d then target_write_memory buf                       (* M *)
  else if c =? 0x63 then target_continue fuel buf                      (* c *)
  else if c =? 0x44 then target_detach                                 (* D *)
  else if c =? 0x73 then target_step fuel buf                          (* s *)
  else if c =? 0x6b then target_kill                                   (* k *)
  else if c =? 0x48 then target_set_thread buf                         (* H *)
  else if c =? 0x54 then target_poll_thread buf                        (* T *)
  else if c =? 0x3f then target_last_signal                            (* ? *)
  else if c =? 0x5a then target_set_or_remove_breakpoint buf true      (* Z *)
  else if c =? 0x7a then target_set_or_remove_breakpoint buf false     (* z *)
  else if c =? 0x71 then target_query buf                              (* q *)
  else target_unimplemented.
(** [junk] is the buffer of the answers; the loop goes on until the machine has halted or
    the connection fails. *)
Fixpoint targetloop (rounds fuel : nat) (buf junk : list Z) : M unit :=
  match rounds with
  | O => crash
  | S rounds =>
      h ← gets (λ s, CPU.halted (cpu s));
      if h : bool then mret () else
      exception_pending <~ false;;
      buf ← zoom conn (RemoteGdb.getpkt buf true);
      e ← gets (λ s, RemoteGdb.remotegdb_backend_error (conn s));
      if nz e then mret () else
      result ← dispatch fuel buf;
      zoom conn (RemoteGdb.putpkt result junk);;
      e ← gets (λ s, RemoteGdb.remotegdb_backend_error (conn s));
      if nz e then mret () else targetloop rounds fuel buf junk
  end.

(** [conns] are the connections that are accepted in turn; then [accept] fails, perhaps
    interrupted.  The count of errors is not the connection's but the program's. *)
Fixpoint serverloop (rounds fuel : nat) (conns : list RemoteGdb.t) (interrupted : bool) (buf junk : list Z) : M unit :=
  h ← gets (λ s, CPU.halted (cpu s));
  if h : bool then mret () else
  match conns with
  | [] => when interrupted (on_cpu (CPU.halted <~ true))
  | c :: conns =>
      modify (λ s, s <| conn := c <| RemoteGdb.remotegdb_backend_error := RemoteGdb.remotegdb_backend_error (conn s) |> |>);;
      targetloop rounds fuel buf junk;;
      e ← gets (λ s, RemoteGdb.remotegdb_backend_error (conn s));
      when (nz e) (zoom conn (RemoteGdb.remotegdb_backend_error <~ 0);; on_cpu (CPU.halted <~ true));;
      serverloop rounds fuel conns interrupted buf junk
  end.

(** ** Numbers survive a packet *)
Lemma digit_tohex n : 0 ≤ n < 16 → digit 16 (RemoteGdb.tohex n) = Some n.
Proof.
  intros Hn. assert (HA : forallb (λ n, bool_decide (digit 16 (RemoteGdb.tohex n) = Some n)) (seqZ 0 16) = true) by (by vm_compute).
  apply (bool_decide_unpack _), Is_true_true. apply (proj1 (forallb_forall _ _) HA n). apply list_elem_of_In, elem_of_seqZ. lia.
Qed.
Lemma number_hex02 acc b r : 0 ≤ b < 256 → number 16 acc (hex02 b ++ r) = number 16 (acc * 256 + b) r.
Proof.
  intros Hb. unfold hex02. cbn [app number]. change 0xf with (Z.ones 4). rewrite !Z.land_ones by done.
  rewrite !digit_tohex by (by apply Z.mod_pos_bound). f_equal. rewrite Z.shiftr_div_pow2 by done. change (2 ^ 4) with 16.
  rewrite (Z.mod_small (b / 16)) by (split; [apply Z.div_pos; lia|apply Z.div_lt_upper_bound; lia]).
  pose proof (Z.div_mod b 16). lia.
Qed.
Lemma number_hex08 n : is_u32 n → number 16 0 (hex08 n) = n.
Proof.
  intros [H1 H2]. unfold hex08, u8, wrap. change (2 ^ 8) with 256. rewrite <- (app_nil_r (hex02 (n mod 256))).
  rewrite !number_hex02 by (by apply Z.mod_pos_bound). cbn [number]. rewrite !Z.shiftr_div_pow2 by done.
  change (2 ^ 24) with 16777216. change (2 ^ 16) with 65536. change (2 ^ 8) with 256. change (2 ^ 32) with 4294967296 in H2.
  Z.to_euclidean_division_equations. lia.
Qed.
Lemma strtoul_hex d1 d2 d3 : 0 ≤ d1 < 16 → 0 ≤ d2 < 16 →
  number 16 0 (RemoteGdb.tohex d1 :: RemoteGdb.tohex d2 :: d3) ≤ 2 ^ 64 - 1 →
  strtoul (RemoteGdb.tohex d1 :: RemoteGdb.tohex d2 :: d3) 16 = number 16 0 (RemoteGdb.tohex d1 :: RemoteGdb.tohex d2 :: d3).
Proof.
  intros H1 H2 Hle. unfold strtoul.
  assert (HA : ∀ d, 0 ≤ d < 16 → is_space (RemoteGdb.tohex d) = false ∧ (RemoteGdb.tohex d =? 0x2d) = false ∧ (RemoteGdb.tohex d =? 0x2b) = false
    ∧ (RemoteGdb.tohex d =? 0x78) = false ∧ (RemoteGdb.tohex d =? 0x58) = false).
  { intros d Hd. assert (Hn : In d (seqZ 0 16)) by (apply list_elem_of_In, elem_of_seqZ; lia). cbn in Hn.
    repeat (destruct Hn as [<-|Hn]; [done|]). done. }
  destruct (HA d1 H1) as (Hs & Hm & Hp & _). destruct (HA d2 H2) as (_ & _ & _ & Hx & HX).
  cbn [skip_spaces]. rewrite Hs. cbn [sign]. rewrite Hm, Hp. unfold magnitude.
  assert (Hh : hex_prefix (RemoteGdb.tohex d1 :: RemoteGdb.tohex d2 :: d3) = None).
  { cbn [hex_prefix]. destruct d3; [done|]. rewrite Hx, HX. by rewrite andb_false_r. }
  rewrite Hh. change (16 =? 0) with false. cbn iota. by rewrite (proj2 (Z.ltb_ge _ _)).
Qed.

Definition word (n : Z) : list Z := hex08 (if opt_bigendian then n else swap_word n).
Lemma foldl_push l packet : foldl debug_packet_push_word packet l = packet ++ (l ≫= word).
Proof.
  revert packet. induction l as [|n l IH]; intros packet; [by rewrite app_nil_r|]. cbn [foldl mbind list_bind].
  rewrite IH. unfold debug_packet_push_word at 1. by rewrite <- app_assoc.
Qed.
Lemma pop_word n rest s : is_u32 n → packet_pop_word (word n ++ rest) s = Some ((n, rest), s, []).
Proof.
  intros Hn. unfold packet_pop_word, pop_chars. set (m := if opt_bigendian then n else swap_word n).
  assert (Hm : is_u32 m) by (unfold m; destruct opt_bigendian; [done|by apply swap_word_range]).
  change (word n) with (hex08 m). assert (Hl : length (hex08 m) = 8%nat) by done.
  rewrite length_app, Hl. destruct (Nat.ltb_spec (8 + length rest) 8); [lia|]. rewrite ret_bind.
  assert (Ht : take 8 (hex08 m ++ rest) = hex08 m) by (rewrite <- Hl at 1; apply take_app_length).
  assert (Hd : drop 8 (hex08 m ++ rest) = rest) by (rewrite <- Hl at 1; apply drop_app_length).
  rewrite Ht, Hd.
  assert (E : strtoul (hex08 m) 16 = m).
  { pose proof (number_hex08 m Hm) as HN. unfold hex08, hex02 in *. cbn [app] in *. rewrite strtoul_hex; rewrite ?HN.
    - done.
    - change 0xf with (Z.ones 4). rewrite Z.land_ones by done. by apply Z.mod_pos_bound.
    - change 0xf with (Z.ones 4). rewrite Z.land_ones by done. by apply Z.mod_pos_bound.
    - destruct Hm. lia. }
  rewrite E. unfold u32, wrap. rewrite Z.mod_small by apply Hm. unfold m. destruct opt_bigendian; [done|].
  by rewrite swap_word_involutive.
Qed.
Lemma pop_word_bind {A} n rest (f : Z * list Z → M A) s : is_u32 n → bindM (packet_pop_word (word n ++ rest)) f s = f (n, rest) s.
Proof. intros Hn. apply bind_eq. by apply pop_word. Qed.
Lemma pop_words_run l rest s : Forall is_u32 l → pop_words (length l) ((l ≫= word) ++ rest) s = Some ((l, rest), s, []).
Proof.
  intros Hl. induction Hl as [|n l Hn _ IH]; [done|]. cbn [length pop_words mbind list_bind]. rewrite <- app_assoc.
  rewrite pop_word_bind by done. by rewrite (bind_eq _ _ _ _ _ IH).
Qed.

(** The registers that the debugger sees, all in 32 bits. *)
Record registers_ok (c : CPU.t B) : Prop := {
  ok_reg : Forall is_u32 (CPU.reg c) ∧ length (CPU.reg c) = 32%nat;
  ok_hilo : is_u32 (CPU.hi c) ∧ is_u32 (CPU.lo c);
  ok_cp0 : Forall is_u32 (CPZero.reg (CPU.cpzero c)) ∧ length (CPZero.reg (CPU.cpzero c)) = 32%nat
}.
Lemma cp0_register r (c : CPU.t B) : registers_ok c → 0 ≤ r < 32 → is_u32 (CPZero.rget (CPZero.reg (CPU.cpzero c)) r) ∧
  CPZero.rset r (CPZero.rget (CPZero.reg (CPU.cpzero c)) r) (CPZero.reg (CPU.cpzero c)) = CPZero.reg (CPU.cpzero c).
Proof.
  intros [_ _ [H1 H2]] Hr. unfold CPZero.rget, CPZero.rset.
  destruct (lookup_lt_is_Some_2 (CPZero.reg (CPU.cpzero c)) (Z.to_nat r) ltac:(lia)) as [v Hv].
  rewrite (nth_lookup_Some _ _ _ _ Hv). split; [by eapply Forall_lookup_1|by apply list_insert_id].
Qed.

Lemma on_cpu_get {A} (f : Effects.M (CPU.t B) A) a s : f (cpu s) = Some (a, cpu s, []) → on_cpu f s = Some (a, s, []).
Proof. intros E. unfold on_cpu. rewrite E. cbn. rewrite orb_false_r. by destruct s. Qed.

(** C30 registers: the packet of the registers is what the debugger may write back, in either
    byte order, behind the letter of the request and before whatever else is in the buffer:
    every register has its value again; but the program counter is read in the last stage of
    the pipeline and written to the first one. *)
Theorem registers_roundtrip (s : t B) (pc : Z) (rest : list Z) (Hs : registers_ok (cpu s)) (Hpc : is_u32 pc)
    (Hwb : CPU.debug_get_pc (cpu s) = Some (pc, cpu s, [])) :
  ∃ packet, target_read_registers s = Some (packet, s, []) ∧ length packet = 720%nat ∧
    target_write_registers (0x47 :: packet ++ rest) s = Some (OK, s <| cpu ::= λ c, c <| CPU.pc := pc |> |>, []).
Proof.
  pose proof Hs as [[Hr Hr32] [Hhi Hlo] _].
  destruct (cp0_register CPZero.Status _ Hs ltac:(done)) as [Hsr Esr]. destruct (cp0_register CPZero.BadVAddr _ Hs ltac:(done)) as [Hbad Ebad].
  destruct (cp0_register CPZero.Cause _ Hs ltac:(done)) as [Hcause Ecause].
  set (sr := CPZero.rget (CPZero.reg (CPU.cpzero (cpu s))) CPZero.Status) in *.
  set (bad := CPZero.rget (CPZero.reg (CPU.cpzero (cpu s))) CPZero.BadVAddr) in *.
  set (cause := CPZero.rget (CPZero.reg (CPU.cpzero (cpu s))) CPZero.Cause) in *.
  set (zeros := replicate 52 0 ≫= word).
  set (packet := (CPU.reg (cpu s) ≫= word) ++ word sr ++ word (CPU.lo (cpu s)) ++ word (CPU.hi (cpu s)) ++ word bad ++ word cause ++ word pc ++ zeros).
  exists packet. split_and!.
  - unfold target_read_registers, debug_registers_to_packet. rewrite gets_bind.
    change (CPZero.read_debug_info (CPU.cpzero (cpu s))) with (sr, bad, cause). cbn iota beta.
    rewrite (bind_eq _ _ _ _ _ (on_cpu_get _ _ _ Hwb)). unfold mret, M_ret. do 3 f_equal. rewrite foldl_push. unfold packet.
    rewrite !bind_app. cbn [app mbind list_bind]. by rewrite <- !app_assoc.
  - assert (Hlen : ∀ l, length (l ≫= word) = (8 * length l)%nat) by (induction l as [|n l IH]; [done|]; cbn [mbind list_bind length]; rewrite length_app, IH; change (length (word n)) with 8%nat; lia).
    unfold packet, zeros. rewrite !length_app, !Hlen, Hr32. done.
  - unfold target_write_registers, debug_packet_to_registers. cbn [drop]. unfold packet. rewrite <- !app_assoc.
    pose proof (pop_words_run (CPU.reg (cpu s)) (word sr ++ word (CPU.lo (cpu s)) ++ word (CPU.hi (cpu s)) ++ word bad ++ word cause ++ word pc ++ zeros ++ rest) s Hr) as E.
    rewrite Hr32 in E. rewrite bind_assoc, (bind_eq _ _ _ _ _ E).
    do 6 (rewrite bind_assoc, pop_word_bind by done).
    rewrite bind_assoc, (bind_eq _ _ _ () (s <| cpu ::= λ c, c <| CPU.reg := CPU.reg (cpu s) |> <| CPU.lo := CPU.lo (cpu s) |> <| CPU.hi := CPU.hi (cpu s) |> <| CPU.pc := pc |> |>)) by done.
    unfold zoom, CPZero.write_debug_info, CPZero.put. cbn. rewrite Esr, Ebad, Ecause.
    destruct s as [[]]. cbn in *. by destruct cpzero.
Qed.

(** ** Running to a breakpoint *)
Lemma step_until_more f f' c r : step_until f c = Some r → (f ≤ f')%nat → step_until f' c = Some r.
Proof.
  revert f' c r. induction f as [|f IH]; intros f' c r; [done|]. intros E Hf. destruct f' as [|f']; [lia|].
  cbn [step_until] in *. rewrite gets_bind in *. unfold bindM in *. destruct (machine_step c) as [[[[] c1] e1]|]; [|done].
  unfold gets in *. destruct (_ <? _); [|done]. destruct (step_until f c1) as [[[[] c2] e2]|] eqn:E2; [|done].
  rewrite (IH f' c1 _ E2) by lia. done.
Qed.

(** The processor after [k] steps, none of them from a breakpoint, without exceptions, and at
    a breakpoint then. *)
Fixpoint free_run (bps : gset Z) (f k : nat) (c : CPU.t B) : option (CPU.t B) :=
  match CPU.debug_get_pc c with
  | Some (pc, _, _) =>
      match k with
      | O => if bool_decide (pc ∈ bps) && negb (CPU.halted c) then Some c else None
      | S k =>
          if bool_decide (pc ∈ bps) then None else
          match step_until f c with
          | Some (_, c1, []) => if (CPU.pending_exception c1 =? 0) && negb (CPU.halted c1) then free_run bps f k c1 else None
          | _ => None
          end
      end
  | None => None
  end.

Lemma get_pc_same (c : CPU.t B) pc c' e : CPU.debug_get_pc c = Some (pc, c', e) → c' = c ∧ e = [].
Proof.
  unfold CPU.debug_get_pc, CPU.stage, CPU.field, aget. intros E.
  apply mbind_Some in E as (i & c1 & e1 & e2 & E1 & E2 & ->).
  rewrite bind_assoc, gets_bind in E1. destruct (nthz (CPU.PL_REGS c) _) as [[p|]|]; [|done..].
  injection E1 as <- <- <-. apply zoom_key_Some in E2 as (t & t' & Hh & Et & ->). injection Et as <- <- <-.
  split; [|done]. destruct c. cbn in *. by rewrite insert_id.
Qed.
Lemma at_pc {A} (f : Z → M A) pc c' e s : CPU.debug_get_pc (cpu s) = Some (pc, c', e) → bindM (on_cpu CPU.debug_get_pc) f s = f pc s.
Proof. intros E. destruct (get_pc_same _ _ _ _ E) as [-> ->]. apply bind_eq. by apply on_cpu_get. Qed.

Lemma single_step_stops fuel pc c' e s : CPU.debug_get_pc (cpu s) = Some (pc, c', e) → pc ∈ bp_set s →
  single_step fuel s = Some (Bp, s, []).
Proof.
  intros E Hb. unfold single_step. rewrite (at_pc _ _ _ _ _ E), gets_bind. unfold id, breakpoint_exists. by rewrite bool_decide_true.
Qed.
Lemma single_step_steps fuel f pc c' e c1 s : CPU.debug_get_pc (cpu s) = Some (pc, c', e) → pc ∉ bp_set s →
  acdbg_set s = ∅ → got_interrupt s = false → step_until f (cpu s) = Some ((), c1, []) → (f ≤ fuel)%nat →
  single_step fuel s = Some (CPU.pending_exception c1, s <| cpu := c1 |>, []).
Proof.
  intros E Hb Hw Hi Hs Hf. unfold single_step. rewrite (at_pc _ _ _ _ _ E), gets_bind. unfold id, breakpoint_exists.
  rewrite bool_decide_false by done.
  assert (Hwp : watchpoint_exists s = Some (false, s, [])) by (unfold watchpoint_exists; by rewrite gets_bind, Hw, elements_empty).
  rewrite (bind_eq _ _ _ _ _ Hwp), gets_bind, Hi. erewrite bind_eq; [|unfold on_cpu; by rewrite (step_until_more f fuel _ _ Hs Hf)].
  cbn. unfold gets. cbn. by rewrite orb_false_r; destruct s.
Qed.

Lemma continue_loop_run f k : ∀ fuel c s, free_run (bp_set s) f k (cpu s) = Some c → acdbg_set s = ∅ → got_interrupt s = false →
  (k + f < fuel)%nat → continue_loop fuel s = Some ([0x53; 0x30; 0x35], s <| cpu := c |> <| signo := 5 |>, []).
Proof.
  induction k as [|k IH]; intros fuel c s Hr Hw Hi Hf; (destruct fuel as [|fuel]; [lia|]); cbn [continue_loop free_run] in *;
    (destruct (CPU.debug_get_pc (cpu s)) as [[[pc c'] e]|] eqn:E; [|done]).
  - case_bool_decide as Hb; [|done]. cbn [andb] in Hr. destruct (CPU.halted (cpu s)) eqn:Hh; [done|]. injection Hr as <-.
    rewrite (bind_eq _ _ _ _ _ (single_step_stops (S fuel) pc c' e s E Hb)), gets_bind. unfold id. rewrite Hh, Hi. by destruct s.
  - case_bool_decide as Hb; [done|]. destruct (step_until f (cpu s)) as [[[[] c1] [|e1 l1]]|] eqn:Hs; [|done..].
    destruct ((CPU.pending_exception c1 =? 0) && negb (CPU.halted c1)) eqn:Hok; [|done].
    apply andb_true_iff in Hok as [Hp Hh]. apply Z.eqb_eq in Hp. apply negb_true_iff in Hh.
    rewrite (bind_eq _ _ _ _ _ (single_step_steps (S fuel) f pc c' e c1 s E Hb Hw Hi Hs ltac:(lia))), gets_bind. unfold id.
    change (CPU.halted (cpu (s <| cpu := c1 |>))) with (CPU.halted c1). rewrite Hh, Hp.
    change (got_interrupt (s <| cpu := c1 |>)) with (got_interrupt s). rewrite Hi. cbn [andb negb Z.eqb].
    exact (IH fuel c (s <| cpu := c1 |>) Hr Hw Hi ltac:(lia)).
Qed.

(** C29 breakpoints: a request to continue runs the machine, stalls included, exactly as long as the
    program counter is not at a breakpoint, and reports a trap there with the machine as it
    is then; at a breakpoint from the start nothing is run. *)
Theorem continue_to_breakpoint (s : t B) (f k fuel : nat) (c : CPU.t B) (pkt : list Z)
    (Hr : free_run (bp_set s) f k (cpu s) = Some c) (Hw : acdbg_set s = ∅) (Hi : got_interrupt s = false)
    (Hf : (k + f < fuel)%nat) :
  dispatch fuel (0x63 :: 0 :: pkt) s = Some ([0x53; 0x30; 0x35], s <| cpu := c |> <| signo := 5 |>, []).
Proof.
  unfold dispatch. change (nthz (0x63 :: 0 :: pkt) 0) with (Some 0x63). cbn [from_option]. rewrite ret_bind.
  change (target_continue fuel (0x63 :: 0 :: pkt) s = Some ([0x53; 0x30; 0x35], s <| cpu := c |> <| signo := 5 |>, [])).
  unfold target_continue, set_pc_if. change (0 <? strlen (drop 1 (0x63 :: 0 :: pkt))) with false. cbn [when]. rewrite ret_bind.
  by apply (continue_loop_run f k).
Qed.

End Stub.
(** The physical memory system as the stub sees it, with what tells whether an
    accelerator's debugger has been triggered. *)
Definition mapper_debug {W} `{RangeOps W} (isTriggered : Z → W → bool) : DebugPort (Mapper.t W) := {|
  mem_enable_debug_mode := Mapper.enable_debug_mode;
  mem_disable_debug_mode := Mapper.disable_debug_mode;
  mem_find_mapping_range := Mapper.find_mapping_range;
  mem_isTriggered d m := isTriggered d (Mapper.store m)
|}.
(** The memory of the small machine. *)
#[local] Instance ideal_debug : DebugPort Demo.ideal := {|
  mem_enable_debug_mode := mret ();
  mem_disable_debug_mode := mret ();
  mem_find_mapping_range _ := mret None;
  mem_isTriggered _ _ := false
|}.
Definition demo (bps : gset Z) : t Demo.ideal :=
  Mk Demo.ideal Demo.start 5 (-1) (-1) 0 0 bps ∅ ∅ false false (RemoteGdb.Mk [] [] false 0).

(** After seven cycles the second instruction but one is in the last stage. *)
Lemma continue_to_breakpoint_witness :
  ∃ c, dispatch (B := Demo.ideal) 9 7 0 false false Demo.cycle 20 [0x63; 0] (demo {[Demo.boot + 8]}) =
    Some ([0x53; 0x30; 0x35], (demo {[Demo.boot + 8]}) <| cpu := c |> <| signo := 5 |>, []) ∧
  (CPU.debug_get_pc c = Some (Demo.boot + 8, c, [])).
Proof.
  assert (H : ∃ c, free_run Demo.cycle (bp_set (demo {[Demo.boot + 8]})) 5 7 (cpu (demo {[Demo.boot + 8]})) = Some c ∧
    CPU.debug_get_pc c = Some (Demo.boot + 8, c, [])) by (eexists; split; [vm_compute; reflexivity|by vm_compute]).
  destruct H as (c & Hc & Hpc). exists c. split; [|exact Hpc].
  by apply (continue_to_breakpoint 9 7 0 false false Demo.cycle (demo {[Demo.boot + 8]}) 5 7 20 c [] Hc eq_refl eq_refl ltac:(lia)).
Defined.

Lemma all_u32 l : forallb (λ x, (0 <=? x) && (x <? 2 ^ 32)) l = true → Forall is_u32 l.
Proof.
  intros H. apply Forall_forall. intros x Hx. apply list_elem_of_In in Hx. apply (proj1 (forallb_forall _ _) H) in Hx.
  apply andb_true_iff in Hx as [H1 H2]. split; [by apply Z.leb_le|by apply Z.ltb_lt].
Qed.
Lemma registers_roundtrip_witness : ∃ packet pc,
  target_read_registers 9 false (demo ∅) = Some (packet, demo ∅, []) ∧ length packet = 720%nat ∧
  target_write_registers false (0x47 :: packet ++ [0]) (demo ∅) = Some (OK, (demo ∅) <| cpu ::= λ c, c <| CPU.pc := pc |> |>, []).
Proof.
  assert (H : registers_ok (cpu (demo ∅))).
  { split; (split; [|by vm_compute]); try (apply all_u32; by vm_compute). by vm_compute. }
  assert (Hpc : CPU.debug_get_pc (cpu (demo ∅)) = Some (Demo.boot, cpu (demo ∅), [])) by (by vm_compute).
  assert (Hb : is_u32 Demo.boot) by (split; by vm_compute).
  destruct (registers_roundtrip 9 false (demo ∅) Demo.boot [0] H Hb Hpc) as (packet & HR).
  exists packet, Demo.boot. exact HR.
Defined.

End Debug.
