(* ===== verification/Options.v ===== *)
(** * Options: the options of the simulator (options.h, options.cc, optiontbl.h)

    Options come from a table of defaults, two configuration files and the command line, in
    this order; a later one overrides an earlier.  A configuration file is lines of words,
    with quotes, backslashes and comments. *)

From Stdlib Require Import (notations) String.
From S2P Require Import Prelude Effects CStrings.

Module Options.
Import CString.

Inductive option_type := FLAG | NUM | STR.
#[global] Instance option_type_eq_dec : EqDecision option_type.
Proof. solve_decision. Defined.
(** [OptionValue], with the type that says which member of the union it is. *)
Inductive value := Flag (b : bool) | Num (n : Z) | Str (s : list Z).
#[global] Instance value_eq_dec : EqDecision value.
Proof. solve_decision. Defined.
Definition type_of (v : value) : option_type := match v with Flag _ => FLAG | Num _ => NUM | Str _ => STR end.

Definition nametable : list (list Z * option_type) := prod_map chars id <$>
  [("haltdumpcpu", FLAG); ("haltdumpcp0", FLAG); ("excpriomsg", FLAG); ("excmsg", FLAG);
   ("bootmsg", FLAG); ("instdump", FLAG); ("dumpcpu", FLAG); ("dumpcp0", FLAG); ("haltibe", FLAG);
   ("haltbreak", FLAG); ("haltdevice", FLAG); ("instcounts", FLAG); ("romfile", STR);
   ("bootfile", STR); ("bootaddr", NUM); ("loadaddr", NUM); ("memsize", NUM); ("progmemsize", NUM);
   ("memdump", FLAG); ("memdumpfile", STR); ("reportirq", FLAG); ("spimconsole", FLAG);
   ("ttydev", STR); ("ttydev2", STR); ("debug", FLAG); ("debugport", NUM); ("debuggeraddr", NUM);
   ("realtime", FLAG); ("timeratio", NUM); ("clockspeed", NUM); ("clockintr", NUM);
   ("clockdeviceirq", NUM); ("clockdevice", FLAG); ("dbemsg", FLAG); ("decrtc", FLAG);
   ("deccsr", FLAG); ("decstat", FLAG); ("decserial", FLAG); ("tracing", FLAG); ("tracesize", NUM);
   ("bigendian", FLAG); ("tracestartpc", NUM); ("traceendpc", NUM); ("execname", STR);
   ("fpu", FLAG); ("testdev", FLAG); ("system_mode", STR); ("dmac", FLAG); ("cacheprof", FLAG);
   ("routerprof", FLAG); ("exmemprof", FLAG); ("icacheway", NUM); ("icachebsize", NUM);
   ("icachebnum", NUM); ("dcacheway", NUM); ("dcachebsize", NUM); ("dcachebnum", NUM);
   ("mem_bandwidth", NUM); ("bus_latency", NUM); ("exmem_latency", NUM); ("vcbufsize", NUM);
   ("routermsg", FLAG); ("accelerator0", STR); ("accelerator1", STR); ("accelerator2", STR);
   ("snacc_sram_latency", NUM); ("snacc_inst_dump", STR); ("snacc_mad_debug", STR)]%string.
Definition defaults_table : list (list Z) := chars <$>
  ["nohaltdumpcpu"; "nohaltdumpcp0"; "noexcpriomsg"; "noexcmsg"; "bootmsg"; "noinstdump";
   "nodumpcpu"; "nodumpcp0"; "haltibe"; "haltbreak"; "haltdevice"; "romfile=romfile.rom";
   "bootfile=boot.bin"; "bootaddr=0xbfc00000"; "loadaddr=0x81000000"; "noinstcounts";
   "progmemsize=0x2000000"; "memsize=0x100000"; "nomemdump"; "memdumpfile=memdump.bin";
   "noreportirq"; "ttydev=/dev/tty"; "ttydev2=off"; "nodebug"; "debugport=0";
   "debuggeraddr=0xBC000000"; "norealtime"; "timeratio=1"; "clockspeed=250000";
   "clockintr=200000000"; "clockdeviceirq=7"; "clockdevice"; "nodbemsg"; "nodecrtc"; "nodeccsr";
   "nodecstat"; "nodecserial"; "spimconsole"; "notracing"; "tracesize=100000"; "nobigendian";
   "tracestartpc=0"; "traceendpc=0"; "execname=none"; "nofpu"; "notestdev"; "nocacheprof";
   "norouterprof"; "noexmemprof"; "dmac"; "icacheway=2"; "dcacheway=2"; "icachebsize=64";
   "dcachebsize=64"; "icachebnum=64"; "dcachebnum=64"; "mem_bandwidth=1"; "bus_latency=8";
   "exmem_latency=3"; "vcbufsize=24"; "noroutermsg"; "accelerator0=none"; "accelerator1=none";
   "accelerator2=none"; "snacc_sram_latency=1"; "snacc_inst_dump=disabled";
   "snacc_mad_debug=disabled"; "system_mode=cube"]%string.

(** ** Characters *)
Definition EQUALS : Z := 0x3d.
Definition QUOTE : Z := 0x27.
Definition BACKSLASH : Z := 0x5c.
Definition HASH : Z := 0x23.
Definition SLASH : Z := 0x2f.
Definition TILDE : Z := 0x7e.
Definition OPTBUFSIZ : Z := 1024.
Definition PATH_MAX : Z := 4096.

(** What is printed, of the errors and the warning. *)
Inductive message := Unknown_option (name : list Z) | Value_missing (name : list Z) | Bogus_suffix | Unterminated_quote (line : Z).
Record t := Mk { table : gmap (list Z) value; messages : list message }.
#[global] Instance eta : Eta t := λ o, Mk (table o) (messages o).
Notation M := (Effects.M t).
Definition Options : t := Mk ∅ [].
Definition print (m : message) : M unit := modify (λ o, o <| messages ::= λ l, l ++ [m] |>).

(** ** One option *)
Definition find_option_type (option : list Z) : Datatypes.option option_type :=
  snd <$> List.find (λ e, bool_decide (e.1 = option)) nametable.
(** [set_str_option] and the two others, with their assertion. *)
Definition set_option (key : list Z) (v : value) : M unit :=
  if bool_decide (find_option_type key = Some (type_of v)) then modify (λ o, o <| table ::= <[key := v]> |>) else crash.
(** [option]; without a value the program ends. *)
Definition option (name : list Z) : M value := o ← gets table; from_option (o !! name).
(** The comparison does not stop at a zero that both strings have: it is [None] then. *)
Fixpoint strprefix (crack_smoker crack : list Z) : Datatypes.option (Datatypes.option (list Z)) :=
  match crack_smoker, crack with
  | [], [] => None
  | c :: s, d :: p => if c =? d then strprefix s p else Some None
  | [], _ :: _ => Some None
  | s, [] => Some (Some s)
  end.
(** What is before the first equals sign, and after it. *)
Fixpoint split_equals (s : list Z) : Datatypes.option (list Z * list Z) :=
  match s with
  | [] => None
  | c :: s => if c =? EQUALS then Some ([], s) else prod_map (cons c) id <$> split_equals s
  end.
(** The units of numbers. *)
Definition suffix (num : Z) (endptr : list Z) : M Z :=
  match endptr with
  | [] => mret num
  | c :: _ =>
      if (c =? 0x6b) || (c =? 0x4b) then mret (u32 (num * 1024))
      else if (c =? 0x6d) || (c =? 0x4d) then mret (u32 (num * (1024 * 1024)))
      else if (c =? 0x67) || (c =? 0x47) then mret (u32 (num * (1024 * 1024 * 1024)))
      else print Bogus_suffix;; mret num
  end.
Definition process_one_option (option : list Z) : M unit :=
  match split_equals option with
  | None =>
      trailer ← from_option (strprefix option (chars "no"%string));
      let '(name, v) := match trailer with None => (option, true) | Some name => (name, false) end in
      if bool_decide (find_option_type name = Some FLAG) then set_option name (Flag v) else print (Unknown_option name)
  | Some (name, []) => print (Value_missing name)
  | Some (name, text) =>
      match find_option_type name with
      | Some STR => set_option name (Str text)
      | Some NUM => num ← suffix (u32 (strtoul text 0)) (strtoul_end text 0); set_option name (Num num)
      | _ => print (Unknown_option option)
      end
  end.

(** ** A line of words *)
(** From the character after the spaces: the word, the text after it, whether the line is
    finished, and whether a quote is open. *)
Fixpoint scan (quoting quotenext : bool) (out word : list Z) : list Z * list Z * bool * bool :=
  match out with
  | [] => (word, [], true, quoting)
  | c :: out =>
      if quoting then
        if c =? QUOTE then scan false quotenext out word else scan true quotenext out (word ++ [c])
      else if quotenext then scan false false out (word ++ [c])
      else if c =? QUOTE then scan true false out word
      else if c =? BACKSLASH then scan false true out word
      else if c =? HASH then (word, out, true, false)
      else if negb (is_space c) then scan false false out (word ++ [c])
      else (word, out, bool_decide (out = []), false)
  end.
(** The rest of the buffer, and whether there are more words to look for. *)
Definition process_first_option (buf : list Z) (lineno : Z) : M (list Z * bool) :=
  let '(word, rest, string_done, quoting) := scan false false (skip_spaces buf) [] in
  when quoting (print (Unterminated_quote lineno));;
  when (bool_decide (word ≠ [])) (process_one_option word);;
  mret (rest, negb string_done).
Fixpoint process_words (fuel : nat) (buf : list Z) (lineno : Z) : M unit :=
  match fuel with
  | O => crash
  | S fuel => '(rest, more) ← process_first_option buf lineno; if more : bool then process_words fuel rest lineno else mret ()
  end.
Definition process_line (buf : list Z) (lineno : Z) : M unit := process_words (S (length buf)) buf lineno.

(** ** Files *)
(** [fgets] with room for [n] characters: what is read, and what is left. *)
Fixpoint fgets (n : nat) (f : list Z) : list Z * list Z :=
  match n, f with
  | O, _ => ([], f)
  | _, [] => ([], [])
  | S n, c :: f => if c =? 10 then ([c], f) else prod_map (cons c) id (fgets n f)
  end.
Fixpoint process_lines (fuel : nat) (f : list Z) (lineno : Z) : M unit :=
  match f, fuel with
  | [], _ => mret ()
  | _, O => crash
  | _, S fuel =>
      let '(buf, rest) := fgets (Z.to_nat (OPTBUFSIZ - 1)) f in
      process_line (c_string buf) lineno;; process_lines fuel rest (lineno + 1)
  end.

Section Host.
  (** The files that can be opened, the home directories of the users (the empty name: of
      the one who runs the program), and the name of the terminal. *)
  Variables (files : list Z → Datatypes.option (list Z)) (home : list Z → Datatypes.option (list Z))
    (ttyname : Datatypes.option (list Z)) (SYSTEM_CONFIG_FILE : list Z).

Definition process_options_from_file (filename : list Z) : M Z :=
  match files filename with
  | None => mret (-1)
  | Some f => process_lines (length f) f 1;; mret 0
  end.
(** The user after the tilde, and what follows the slash. *)
Fixpoint split_slash (s : list Z) : list Z * Datatypes.option (list Z) :=
  match s with
  | [] => ([], None)
  | c :: s => if c =? SLASH then ([], Some s) else prod_map (cons c) id (split_slash s)
  end.
(** The result and the file's name afterwards; a name too long for the buffer overflows. *)
Definition tilde_expand (filename : list Z) : Datatypes.option (Z * list Z) :=
  match filename with
  | c :: s =>
      if negb (c =? TILDE) then Some (0, filename) else
      let '(user, trailer) := split_slash s in
      match home user with
      | None => Some (-1, [])
      | Some dir =>
          let name := match trailer with Some r => dir ++ SLASH :: r | None => dir end in
          if Z.of_nat (length name) <? PATH_MAX then Some (0, name) else None
      end
  | [] => Some (0, filename)
  end.
Definition process_defaults : M unit :=
  for_each defaults_table process_one_option;;
  (match ttyname with Some name => set_option (chars "ttydev"%string) (Str name) | None => mret () end);;
  for_each nametable (λ e, _ ← option e.1; mret ()).

(** ** The command line *)
Inductive outcome := Ready | Exit (status : Z).
Record command := Command { user_config_filename : list Z; read_system_config_file : bool; command_line_options : list (list Z) }.
#[global] Instance command_eta : Eta command := λ c, Command (user_config_filename c) (read_system_config_file c) (command_line_options c).
Definition can_read_file (filename : list Z) : bool := bool_decide (is_Some (files filename)).
(** The arguments after the name of the program; [inr] when it ends here. *)
Fixpoint command_line (argv : list (list Z)) (c : command) : M (command + Z) :=
  match argv with
  | [] => mret (inl c)
  | a :: argv =>
      if bool_decide (a = chars "--version"%string) || bool_decide (a = chars "--help"%string)
         || bool_decide (a = chars "--print-config"%string) then mret (inr 0)
      else if bool_decide (a = chars "-o"%string) then
        match argv with
        | [] => mret (inr 1)
        | b :: argv => command_line argv (c <| command_line_options ::= λ l, l ++ [b] |>)
        end
      else if bool_decide (a = chars "-F"%string) then
        match argv with
        | [] => mret (inr 1)
        | b :: argv => if Z.of_nat (length b) <? PATH_MAX then command_line argv (c <| user_config_filename := b |>) else crash
        end
      else if bool_decide (a = chars "-n"%string) then command_line argv (c <| read_system_config_file := false |>)
      else match argv with
        | [] =>
            if negb (can_read_file a) && bool_decide (head a = Some 0x2d) then mret (inr 1)
            else set_option (chars "romfile"%string) (Str a);; mret (inl c)
        | _ => mret (inr 1)
        end
  end.
Definition process_options (argv : list (list Z)) : M outcome :=
  process_defaults;;
  r ← command_line argv (Command (chars "~/.vmipsrc"%string) true []);
  match r with
  | inr status => mret (Exit status)
  | inl c =>
      when (read_system_config_file c) (_ ← process_options_from_file SYSTEM_CONFIG_FILE; mret ());;
      '(_, filename) ← from_option (tilde_expand (user_config_filename c));
      _ ← process_options_from_file filename;
      for_each (command_line_options c) process_one_option;;
      mret Ready
  end.
End Host.

(** ** Tuples of numbers *)
Fixpoint take_digits (s : list Z) : list Z * list Z :=
  match s with
  | c :: r => if bool_decide (is_Some (digit 10 c)) then prod_map (cons c) id (take_digits r) else ([], s)
  | [] => ([], [])
  end.
(** [n] numbers with a comma between them, up to the parenthesis: the regular expression. *)
Fixpoint match_numbers (n : nat) (s : list Z) : Datatypes.option (list (list Z)) :=
  match n with
  | O => None
  | S n =>
      let '(d, r) := take_digits (skip_spaces s) in
      match d, skip_spaces r with
      | _ :: _, c :: r =>
          if bool_decide (n = 0%nat) then (if bool_decide (c :: r = [0x29]) then Some [d] else None)
          else if c =? 0x2c then cons d <$> match_numbers n r else None
      | _, _ => None
      end
  end.
(** What does not match is a fatal error, and [std::stoi] throws on a number that is no
    [int]: both end the program. *)
Definition get_tuple (opt : list Z) (len : nat) : Datatypes.option (list Z) :=
  match opt with
  | c :: s =>
      if c =? 0x28 then
        match match_numbers len s with
        | Some l => let v := number 10 0 <$> l in if forallb (λ n, n <? 2 ^ 31) v then Some v else None
        | None => None
        end
      else None
  | [] => None
  end.

(** ** Lines *)
(** A word and a text of it: plain characters, escaped ones, and quotes. *)
Inductive word : list Z → list Z → Prop :=
| word_nil : word [] []
| word_plain c o s : is_space c = false → c ≠ QUOTE → c ≠ BACKSLASH → c ≠ HASH → word o s → word (c :: o) (c :: s)
| word_escaped c o s : word o s → word (c :: o) (BACKSLASH :: c :: s)
| word_quoted q o s : QUOTE ∉ q → word o s → word (q ++ o) (QUOTE :: q ++ QUOTE :: s).
(** What may follow a word. *)
Definition ends (rest : list Z) : Prop := match rest with [] => True | c :: _ => is_space c = true ∨ c = HASH end.
(** The words of a line, and a text of it. *)
Inductive line : list (list Z) → list Z → Prop :=
| line_end sp : spaces sp → line [] sp
| line_comment sp text : spaces sp → line [] (sp ++ HASH :: text)
| line_word sp o s os rest : spaces sp → o ≠ [] → word o s → ends rest → line os rest → line (o :: os) (sp ++ s ++ rest).

Lemma word_head o s rest : o ≠ [] → word o s → skip_spaces (s ++ rest) = s ++ rest.
Proof. intros Ho H. destruct H; [done|cbn [app skip_spaces]; by rewrite H|done|done]. Qed.
Lemma scan_quoted q b out acc : QUOTE ∉ q → scan true b (q ++ QUOTE :: out) acc = scan false b out (acc ++ q).
Proof.
  revert acc. induction q as [|c q IH]; intros acc H; cbn [app scan]; [by rewrite Z.eqb_refl, app_nil_r|].
  rewrite not_elem_of_cons in H. destruct H as [Hc Hq]. rewrite (proj2 (Z.eqb_neq c QUOTE)) by done. rewrite IH by done. by rewrite <- app_assoc.
Qed.
Lemma scan_word o s rest acc : word o s → scan false false (s ++ rest) acc = scan false false rest (acc ++ o).
Proof.
  intros H. revert acc. induction H as [|c o s Hs H1 H2 H3 H IH|c o s H IH|q o s Hq H IH]; intros acc; cbn [app scan].
  - by rewrite app_nil_r.
  - rewrite !(proj2 (Z.eqb_neq _ _)), Hs by done. cbn [negb]. rewrite IH. by rewrite <- app_assoc.
  - change (BACKSLASH =? QUOTE) with false. rewrite Z.eqb_refl. rewrite IH. by rewrite <- app_assoc.
  - rewrite Z.eqb_refl, <- app_assoc. cbn [app]. rewrite scan_quoted by done. rewrite IH. by rewrite <- app_assoc.
Qed.
Lemma line_nil os : line os [] → os = [].
Proof.
  intros H. remember [] as t eqn:Et. destruct H as [sp _|sp t _|sp o s os rest _ Ho Hw _ _]; [done|by destruct sp|].
  apply app_nil in Et as [_ [-> _]%app_nil]. inversion Hw. by subst o.
Qed.
Lemma line_hash os t : line os (HASH :: t) → os = [].
Proof.
  intros H. remember (HASH :: t) as x eqn:Ex. destruct H as [sp _|sp t' _|sp o s os rest Hsp Ho Hw _ _]; [done..|].
  destruct Hsp as [|c sp Hc _]; [|by injection Ex as -> _].
  destruct Hw as [|c o s H1 H2 H3 H4 _|c o s _|q o s _ _]; [done|by injection Ex as -> _|done|done].
Qed.
Lemma line_space os c r : is_space c = true → line os (c :: r) → line os r.
Proof.
  intros Hc H. remember (c :: r) as x eqn:Ex. destruct H as [sp Hsp|sp t' Hsp|sp o s os rest Hsp Ho Hw He Hl].
  - subst sp. apply line_end. by apply Forall_cons in Hsp as [_ ?].
  - destruct Hsp as [|c' sp Hc' Hsp]; [by injection Ex as <- _|]. injection Ex as -> <-. by apply line_comment.
  - destruct Hsp as [|c' sp Hc' Hsp]; [|injection Ex as -> <-; by apply line_word].
    destruct Hw as [|c' o s H1 H2 H3 H4 _|c' o s _|q o s _ _]; [done| | |]; injection Ex as E _; subst; done || congruence.
Qed.
Lemma process_words_step fuel text w rest more lineno o :
  scan false false (skip_spaces text) [] = (w, rest, negb more, false) →
  process_words (S fuel) text lineno o =
    (when (bool_decide (w ≠ [])) (process_one_option w);; if more then process_words fuel rest lineno else mret ())%m o.
Proof.
  intros E. cbn [process_words]. unfold process_first_option. rewrite E. cbn [when].
  rewrite !bind_assoc, ret_bind, negb_involutive. unfold bindM. destruct (when _ _ o) as [[[[] o1] e1]|]; [|done].
  unfold mret, M_ret. cbn. by rewrite app_nil_r.
Qed.
(** The line is read: its words are the options that are processed, in order. *)
Lemma process_words_line fuel os text lineno o : line os text → (length text < fuel)%nat →
  process_words fuel text lineno o = for_each os process_one_option o.
Proof.
  revert os text o. induction fuel as [|fuel IH]; intros os text o H Hf; [lia|].
  destruct H as [sp Hsp|sp t Hsp|sp w s os rest Hsp Ho Hw He Hl].
  - assert (E : skip_spaces sp = []) by (rewrite <- (app_nil_r sp); by rewrite skip_spaces_app).
    rewrite (process_words_step fuel sp [] [] false) by (by rewrite E). by rewrite bool_decide_false by naive_solver.
  - rewrite (process_words_step fuel _ [] t false) by (by rewrite skip_spaces_app). by rewrite bool_decide_false by naive_solver.
  - assert (Hs : s ≠ []) by (intros ->; inversion Hw; by subst w).
    assert (E : scan false false (skip_spaces (sp ++ s ++ rest)) [] = scan false false rest w)
      by (rewrite skip_spaces_app, (word_head w s rest Ho Hw), (scan_word w s rest [] Hw) by done; done).
    assert (Hlast : ∀ r, scan false false rest w = (w, r, true, false) → os = [] →
      process_words (S fuel) (sp ++ s ++ rest) lineno o = for_each (w :: os) process_one_option o).
    { intros r Er ->. erewrite (process_words_step _ _ w r false) by (rewrite E; exact Er). by rewrite bool_decide_true by done. }
    destruct rest as [|c r]; [apply (Hlast []); [done|by apply line_nil in Hl]|].
    destruct He as [Hc| ->]; [|apply (Hlast r); [done|by apply line_hash in Hl]].
    assert (Es : scan false false (c :: r) w = (w, r, bool_decide (r = []), false)).
    { cbn [scan]. rewrite Hc. unfold is_space in Hc. unfold QUOTE, BACKSLASH, HASH.
      destruct (Z.eqb_spec c 0x27), (Z.eqb_spec c 0x5c), (Z.eqb_spec c 0x23); subst; done. }
    apply line_space in Hl; [|done]. destruct (decide (r = [])) as [->|Hr].
    + apply (Hlast []); [by rewrite Es|by apply line_nil in Hl].
    + erewrite (process_words_step _ _ w r true) by (rewrite E, Es; by rewrite bool_decide_false by done).
      rewrite bool_decide_true by done. cbn [when for_each]. unfold bindM. destruct (process_one_option w o) as [[[[] o1] e1]|]; [|done].
      rewrite (IH os r o1 Hl); [done|]. rewrite !length_app in Hf. cbn [length] in Hf. lia.
Qed.
(** A file of such lines, each of which fits the buffer. *)
Definition text_line (l : list Z) : Prop := 10 ∉ l ∧ 0 ∉ l ∧ Z.of_nat (length l) < OPTBUFSIZ - 1.
Inductive file : list (list Z) → list Z → Prop :=
| file_end os l : text_line l → line os l → file os l
| file_line os l oss rest : text_line l → line os (l ++ [10]) → file oss rest → file (os ++ oss) (l ++ 10 :: rest).

Lemma fgets_line n l rest : 10 ∉ l → (length l < n)%nat → fgets n (l ++ 10 :: rest) = (l ++ [10], rest).
Proof.
  revert n. induction l as [|c l IH]; intros [|n] Hl Hn; cbn [length app fgets] in *; try lia; [done|].
  rewrite not_elem_of_cons in Hl. destruct Hl as [Hc Hl]. rewrite (proj2 (Z.eqb_neq c 10)) by done. by rewrite IH by (done || lia).
Qed.
Lemma fgets_last n l : 10 ∉ l → (length l < n)%nat → fgets n l = (l, []).
Proof.
  revert n. induction l as [|c l IH]; intros [|n] Hl Hn; cbn [length app fgets] in *; try lia; [done|].
  rewrite not_elem_of_cons in Hl. destruct Hl as [Hc Hl]. rewrite (proj2 (Z.eqb_neq c 10)) by done. by rewrite IH by (done || lia).
Qed.
Lemma c_string_id l : 0 ∉ l → c_string l = l.
Proof.
  induction l as [|c l IH]; [done|]. rewrite not_elem_of_cons. intros [Hc Hl]. cbn [c_string].
  rewrite (proj2 (Z.eqb_neq c 0)) by done. by rewrite IH.
Qed.
Lemma for_each_app {A} (l1 l2 : list A) (f : A → M unit) o :
  for_each (l1 ++ l2) f o = (for_each l1 f;; for_each l2 f)%m o.
Proof.
  revert o. induction l1 as [|a l IH]; intros o; cbn [for_each app]; [by rewrite ret_bind|].
  rewrite bind_assoc. unfold bindM at 1 2. destruct (f a o) as [[[[] o1] e1]|]; [|done]. by rewrite IH.
Qed.
Lemma process_lines_file fuel os text lineno o : file os text → (length text <= fuel)%nat →
  process_lines fuel text lineno o = for_each os process_one_option o.
Proof.
  intros H. revert fuel lineno o. induction H as [os l (H10 & H0 & Hn) Hl|os l oss rest (H10 & H0 & Hn) Hl H IH]; intros fuel lineno o Hf.
  - destruct l as [|c l]; [apply line_nil in Hl as ->; by destruct fuel|]. destruct fuel as [|fuel]; [cbn in Hf; lia|].
    cbn [process_lines]. rewrite fgets_last by (done || lia). rewrite c_string_id by done. unfold process_line, bindM.
    rewrite (process_words_line _ os) by (done || lia). destruct (for_each _ _ o) as [[[[] o1] e1]|]; [|done].
    destruct fuel; cbn; by rewrite app_nil_r.
  - destruct fuel as [|fuel]; [rewrite length_app in Hf; cbn in Hf; lia|].
    assert (E : process_lines (S fuel) (l ++ 10 :: rest) lineno o =
      (let '(buf, rest) := fgets (Z.to_nat (OPTBUFSIZ - 1)) (l ++ 10 :: rest) in
       process_line (c_string buf) lineno;; process_lines fuel rest (lineno + 1))%m o) by (by destruct l).
    rewrite E, fgets_line by (done || lia). rewrite c_string_id by (rewrite elem_of_app, list_elem_of_singleton; naive_solver).
    rewrite for_each_app. unfold process_line, bindM. rewrite (process_words_line _ os) by (done || lia).
    destruct (for_each os _ o) as [[[[] o1] e1]|]; [|done]. rewrite IH; [done|]. rewrite length_app in Hf. cbn in Hf. lia.
Qed.

(** ** Assignments *)
(** An option with a value, and how it is written. *)
Notation assignment := (list Z * value)%type.
Fixpoint decimal_digits (fuel : nat) (n : Z) (l : list Z) : list Z :=
  match fuel with
  | O => l
  | S fuel => if n <? 10 then (0x30 + n) :: l else decimal_digits fuel (n / 10) ((0x30 + n mod 10) :: l)
  end.
Definition decimal (n : Z) : list Z := decimal_digits 20 n [].
Definition show (a : assignment) : list Z :=
  match a.2 with
  | Flag b => if b then a.1 else chars "no"%string ++ a.1
  | Num n => a.1 ++ EQUALS :: decimal n
  | Str v => a.1 ++ EQUALS :: v
  end.
Definition valid (a : assignment) : Prop :=
  find_option_type a.1 = Some (type_of a.2) ∧ match a.2 with Flag _ => True | Num n => is_u32 n | Str v => v ≠ [] end.
Definition assigned (t : gmap (list Z) value) (l : list assignment) : gmap (list Z) value :=
  foldl (λ t a, <[a.1 := a.2]> t) t l.

Lemma digit_10 d : 0 ≤ d < 10 → digit 10 (0x30 + d) = Some d.
Proof.
  intros H. unfold digit. rewrite (proj2 (Z.leb_le 0x30 _)), (proj2 (Z.leb_le _ 0x39)) by lia. cbn [andb].
  replace (0x30 + d - 0x30) with d by lia. by rewrite (proj2 (Z.ltb_lt d 10)) by lia.
Qed.
(** The digits of a number: they read as it, to the end, and do not begin with a zero. *)
Lemma decimal_digits_read fuel n l acc : 0 ≤ n < 10 ^ Z.of_nat fuel → (0 < fuel)%nat →
  ∃ c r, decimal_digits fuel n l = c :: r ∧ 0x30 ≤ c ≤ 0x39 ∧ (c = 0x30 → n = 0 ∧ r = l) ∧
    (acc = 0 → number 10 acc (c :: r) = number 10 n l) ∧ digits_end 10 (c :: r) = digits_end 10 l.
Proof.
  revert n l. induction fuel as [|fuel IH]; intros n l Hn Hf; [lia|]. cbn [decimal_digits].
  destruct (Z.ltb_spec n 10) as [H10|H10].
  - exists (0x30 + n), l. split; [done|]. split; [lia|]. split; [intros; split; [lia|done]|]. cbn [number digits_end]. rewrite digit_10 by lia.
    rewrite bool_decide_true by done. split; [intros ->; by rewrite Z.mul_0_l|done].
  - assert (Hp : 10 ^ Z.of_nat (S fuel) = 10 * 10 ^ Z.of_nat fuel) by (rewrite Nat2Z.inj_succ, Z.pow_succ_r; lia).
    assert (Hd : 0 ≤ n / 10 < 10 ^ Z.of_nat fuel) by (split; [apply Z.div_pos; lia|apply Z.div_lt_upper_bound; lia]).
    assert (Hd1 : 1 ≤ n / 10) by (apply Z.div_le_lower_bound; lia).
    assert (Hf0 : (0 < fuel)%nat) by (destruct fuel; [cbn in Hd; lia|lia]).
    pose proof (Z.mod_pos_bound n 10 ltac:(lia)) as Hm.
    destruct (IH (n / 10) ((0x30 + n mod 10) :: l) Hd Hf0) as (c & r & E & Hc & Hc0 & Hnum & Hend).
    exists c, r. split; [done|]. split; [done|]. split; [intros Hx; apply Hc0 in Hx; lia|]. split.
    + intros Ha. rewrite Hnum by done. cbn [number]. rewrite digit_10 by done. f_equal.
      pose proof (Z.div_mod n 10 ltac:(lia)). lia.
    + rewrite Hend. cbn [digits_end]. rewrite digit_10 by done. by rewrite bool_decide_true by done.
Qed.
Lemma decimal_read n : is_u32 n → strtoul (decimal n) 0 = n ∧ strtoul_end (decimal n) 0 = [] ∧ decimal n ≠ [].
Proof.
  intros Hn. unfold is_u in Hn.
  destruct (decimal_digits_read 20 n [] 0) as (c & r & E & Hc & Hc0 & Hnum & Hend); [lia|lia|]. unfold decimal. rewrite E.
  specialize (Hnum eq_refl). cbn [number] in Hnum. change (digits_end 10 []) with (@nil Z) in Hend.
  assert (Hsp : skip_spaces (c :: r) = c :: r).
  { cbn [skip_spaces]. unfold is_space. rewrite (proj2 (Z.eqb_neq c 0x20)), (proj2 (Z.leb_gt c 0x0d)) by lia. by rewrite andb_false_r. }
  assert (Hs : sign (c :: r) = (false, c :: r)) by (cbn [sign]; by rewrite !(proj2 (Z.eqb_neq c _)) by lia).
  assert (Hx : hex_prefix (c :: r) = None).
  { cbn [hex_prefix]. destruct r as [|x [|d r]]; [done..|]. destruct (Z.eqb_spec c 0x30) as [->|]; [|done].
    destruct (Hc0 eq_refl) as [_ [=]]. }
  split; [|split; [|done]].
  - unfold strtoul. rewrite Hsp, Hs. unfold magnitude. rewrite Hx. cbn [Z.eqb].
    assert (Hv : number (if c =? 48 then 8 else 10) 0 (c :: r) = n).
    { destruct (Z.eqb_spec c 0x30) as [->|]; [|done]. by destruct (Hc0 eq_refl) as [-> ->]. }
    rewrite Hv. by rewrite (proj2 (Z.ltb_ge _ _)) by lia.
  - unfold strtoul_end. rewrite Hsp, Hs, Hx. cbn [Z.eqb].
    destruct (Z.eqb_spec c 0x30) as [->|Hc1]; [by destruct (Hc0 eq_refl) as [_ ->]|].
    replace c with (0x30 + (c - 0x30)) by lia. rewrite digit_10 by lia. rewrite bool_decide_true by done.
    replace (0x30 + (c - 0x30)) with c by lia. exact Hend.
Qed.

(** The names have no equals sign, and no name of a flag begins like a flag that is off. *)
Definition names_ok : bool :=
  forallb (λ e, bool_decide (split_equals e.1 = None) && bool_decide (e.1 ≠ []) && bool_decide (strprefix e.1 (chars "no"%string) = Some None))
    nametable.
Lemma name_ok n ty : find_option_type n = Some ty →
  split_equals n = None ∧ n ≠ [] ∧ strprefix n (chars "no"%string) = Some None.
Proof.
  assert (H : names_ok = true) by (by vm_compute). unfold names_ok in H. rewrite forallb_forall in H. unfold find_option_type.
  destruct (List.find _ nametable) as [e|] eqn:E; [|done]. intros _. apply find_some in E as [Hin He%bool_decide_eq_true].
  specialize (H e Hin). apply andb_true_iff in H as [[H1%bool_decide_eq_true H2%bool_decide_eq_true]%andb_true_iff H3%bool_decide_eq_true].
  by rewrite <- He.
Qed.
Lemma split_equals_app n v : split_equals n = None → split_equals (n ++ EQUALS :: v) = Some (n, v).
Proof.
  induction n as [|c n IH]; [done|]. cbn [app split_equals]. destruct (c =? EQUALS); [done|].
  destruct (split_equals n); [done|]. intros _. by rewrite IH.
Qed.
Lemma process_show a o : valid a →
  process_one_option (show a) o = Some ((), o <| table ::= <[a.1 := a.2]> |>, []).
Proof.
  destruct a as [n v]. intros [Ht Hv]. cbn [fst snd] in *. destruct (name_ok n _ Ht) as (He & Hne & Hno).
  unfold process_one_option, show, set_option. cbn [fst snd]. destruct v as [b|k|txt]; cbn [type_of] in Ht.
  - destruct b.
    + rewrite He, Hno. cbn [from_option]. rewrite ret_bind, Ht. cbn [type_of]. by rewrite bool_decide_true by done.
    + assert (E1 : split_equals (chars "no"%string ++ n) = None) by (cbn; by rewrite He).
      assert (E2 : strprefix (chars "no"%string ++ n) (chars "no"%string) = Some (Some n)) by (cbn; by destruct n).
      rewrite E1, E2. cbn [from_option]. rewrite ret_bind, Ht. cbn [type_of]. by rewrite bool_decide_true by done.
  - rewrite split_equals_app by done. destruct (decimal_read k Hv) as (E1 & E2 & E3).
    destruct (decimal k) as [|c r]; [done|]. rewrite Ht, E1, E2. cbn [suffix]. rewrite ret_bind. cbn [type_of].
    rewrite bool_decide_true by done. by rewrite u32_small by apply Hv.
  - rewrite split_equals_app by done. destruct txt as [|c r]; [done|]. rewrite Ht. cbn [type_of]. by rewrite bool_decide_true by done.
Qed.
Lemma process_shows l o : Forall valid l →
  for_each (show <$> l) process_one_option o = Some ((), o <| table ::= λ t, assigned t l |>, []).
Proof.
  intros H. revert o. induction H as [|a l Ha _ IH]; intros o; [by destruct o|]. cbn [fmap list_fmap for_each].
  rewrite (bind_eq _ _ _ _ _ (process_show a o Ha)). change (list_fmap _ _ show l) with (show <$> l). rewrite IH. by destruct o.
Qed.

(** ** The configuration *)
(** Every option has a value of its type. *)
Definition complete (t : gmap (list Z) value) : Prop :=
  ∀ n ty, find_option_type n = Some ty → ∃ v, t !! n = Some v ∧ type_of v = ty.
Definition complete_b (t : gmap (list Z) value) : bool :=
  forallb (λ e, match t !! e.1 with Some v => bool_decide (type_of v = e.2) | None => false end) nametable.
Lemma complete_b_spec t : complete_b t = true → complete t.
Proof.
  unfold complete_b, complete, find_option_type. rewrite forallb_forall. intros H n ty.
  destruct (List.find _ nametable) as [e|] eqn:E; [|done]. intros [= <-]. apply find_some in E as [Hin He%bool_decide_eq_true].
  specialize (H e Hin). rewrite He in H. destruct (t !! n) as [v|]; [|done]. apply bool_decide_eq_true in H. by exists v.
Qed.
Lemma complete_assigned t l : Forall valid l → complete t → complete (assigned t l).
Proof.
  intros H. revert t. induction H as [|a l [Ha _] _ IH]; intros t Ht; [done|]. apply IH. intros n ty Hn. cbn.
  destruct (decide (a.1 = n)) as [<-|Hd]; [|rewrite lookup_insert_ne by done; by apply Ht].
  rewrite lookup_insert_eq. exists a.2. split; [done|]. congruence.
Qed.
(** The table of the compiled-in defaults. *)
Definition compiled_in : gmap (list Z) value :=
  match for_each defaults_table process_one_option Options with Some (_, o, _) => table o | None => ∅ end.
Lemma compiled_in_run : for_each defaults_table process_one_option Options = Some ((), Mk compiled_in [], []) ∧ complete compiled_in.
Proof.
  unfold compiled_in.
  assert (H : match for_each defaults_table process_one_option Options with
              | Some (_, o, e) => bool_decide (length (messages o) = 0%nat) && bool_decide (length e = 0%nat) && complete_b (table o)
              | None => false
              end = true) by (by vm_compute).
  destruct (for_each defaults_table process_one_option Options) as [[[[] [tb ms]] e]|]; [|done]. cbn [messages table] in H.
  apply andb_true_iff in H as [[H1%bool_decide_eq_true H2%bool_decide_eq_true]%andb_true_iff H3].
  destruct ms, e; [|done..]. split; [done|by apply complete_b_spec].
Qed.
(** A lookup gives the last assignment, or what was there before. *)
Lemma assigned_lookup t l n :
  assigned t l !! n = match List.find (λ a, bool_decide (a.1 = n)) (reverse l) with Some a => Some a.2 | None => t !! n end.
Proof.
  unfold assigned. induction l as [|a l IH] using rev_ind; [done|]. rewrite foldl_app, reverse_snoc. cbn [foldl List.find].
  case_bool_decide as Ha; [subst n; by rewrite lookup_insert_eq|]. by rewrite lookup_insert_ne by done.
Qed.

Section Host.
  Variables (files : list Z → Datatypes.option (list Z)) (home : list Z → Datatypes.option (list Z))
    (ttyname : Datatypes.option (list Z)) (SYSTEM_CONFIG_FILE : list Z).

Definition tty_default : list assignment := match ttyname with Some n => [(chars "ttydev"%string, Str n)] | None => [] end.
Lemma complete_tty : complete (assigned compiled_in tty_default).
Proof.
  destruct compiled_in_run as [_ Hc]. unfold tty_default. destruct ttyname as [tn|]; [|done].
  intros n ty Hn. cbn. destruct (decide (chars "ttydev"%string = n)) as [<-|Hne]; [|rewrite lookup_insert_ne by done; by apply Hc].
  rewrite lookup_insert_eq. exists (Str tn). split; [done|].
  assert (E' : find_option_type (chars "ttydev"%string) = Some STR) by (by vm_compute). rewrite E' in Hn. by injection Hn.
Qed.
Lemma options_exist l o : (∀ e, e ∈ l → is_Some (table o !! e.1)) →
  for_each l (λ e : list Z * option_type, _ ← option e.1; mret ())%m o = Some ((), o, []).
Proof.
  induction l as [|e l IH]; intros H; [done|]. cbn [for_each]. unfold option at 1. rewrite bind_assoc, bind_assoc, gets_bind.
  destruct (H e) as [v Hv]; [by left|]. rewrite Hv. cbn [from_option]. rewrite !ret_bind. apply IH. intros e' He'. apply H. by right.
Qed.
Lemma process_defaults_run : process_defaults ttyname Options = Some ((), Mk (assigned compiled_in tty_default) [], []).
Proof.
  destruct compiled_in_run as [E Hc]. unfold process_defaults. rewrite (bind_eq _ _ _ _ _ E).
  set (o := Mk (assigned compiled_in tty_default) []).
  rewrite (bind_eq _ _ _ () o) by (unfold o, tty_default, set_option; destruct ttyname; [rewrite bool_decide_true by done|]; done).
  rewrite options_exist; [done|]. intros e He.
  assert (Hf : is_Some (find_option_type e.1)).
  { unfold find_option_type. destruct (List.find _ nametable) eqn:Ef; [by eexists|]. exfalso.
    apply list_elem_of_In in He. pose proof (find_none _ _ Ef e He) as Hx. by apply bool_decide_eq_false in Hx. }
  destruct Hf as [ty Hf]. destruct (complete_tty _ _ Hf) as (v & E' & _). unfold o. cbn [table]. rewrite E'. by eexists.
Qed.
Definition dash_o (l : list assignment) : list (list Z) := l ≫= (λ a, [chars "-o"%string; show a]).
Lemma command_line_dash_o l c o :
  command_line files (dash_o l) c o = Some (inl (c <| command_line_options ::= λ x, x ++ (show <$> l) |>), o, []).
Proof.
  revert c. induction l as [|a l IH]; intros c; [cbn; destruct c; cbn; by rewrite app_nil_r|]. cbn [dash_o mbind list_bind app].
  change (list_bind _ _ _ l) with (dash_o l). cbn [command_line]. rewrite !bool_decide_false by done. cbn [orb].
  rewrite bool_decide_true by done. rewrite IH. destruct c as [u r x]. cbn. by rewrite <- app_assoc.
Qed.

(** C38 the configuration: when the two files and the command line write down assignments,
    with whatever quotes, escapes, spaces and comments, the program is ready without a
    message, every option has a value of its type, and it is the last one assigned on the
    command line, or else in the user's file, or else in the system's, or else the
    default. *)
Theorem options_configured (dir f1 f2 : list Z) (system user command : list assignment)
    (Hv : Forall valid (system ++ user ++ command))
    (H1 : files SYSTEM_CONFIG_FILE = Some f1) (Hf1 : file (show <$> system) f1)
    (Hd : home [] = Some dir) (Hdir : Z.of_nat (length dir) < PATH_MAX - 9)
    (H2 : files (dir ++ chars "/.vmipsrc"%string) = Some f2) (Hf2 : file (show <$> user) f2) :
  ∃ o, process_options files home ttyname SYSTEM_CONFIG_FILE (dash_o command) Options = Some (Ready, o, []) ∧
    messages o = [] ∧ complete (table o) ∧
    ∀ n, table o !! n =
      match List.find (λ a, bool_decide (a.1 = n)) (reverse (tty_default ++ system ++ user ++ command)) with
      | Some a => Some a.2
      | None => compiled_in !! n
      end.
Proof.
  apply Forall_app in Hv as [Hv1 [Hv2 Hv3]%Forall_app].
  set (t0 := assigned compiled_in tty_default). set (t1 := assigned t0 system). set (t2 := assigned t1 user).
  assert (Hread : ∀ name f l t, files name = Some f → file (show <$> l) f → Forall valid l →
    process_options_from_file files name (Mk t []) = Some (0, Mk (assigned t l) [], [])).
  { intros name f l t Hn Hf Hl. unfold process_options_from_file. rewrite Hn.
    rewrite (bind_eq _ _ _ () (Mk (assigned t l) [])); [done|].
    rewrite (process_lines_file _ (show <$> l)) by (done || lia). by rewrite process_shows. }
  exists (Mk (assigned t2 command) []). split; [|split; [done|split]].
  - unfold process_options. rewrite (bind_eq _ _ _ _ _ process_defaults_run), (bind_eq _ _ _ _ _ (command_line_dash_o _ _ _)).
    cbn [read_system_config_file command_line_options user_config_filename upd setter_of when app].
    rewrite bind_assoc, (bind_eq _ _ _ _ _ (Hread _ _ _ t0 H1 Hf1 Hv1)), ret_bind.
    assert (Et : tilde_expand home (chars "~/.vmipsrc"%string) = Some (0, dir ++ chars "/.vmipsrc"%string)).
    { change (chars "~/.vmipsrc"%string) with (TILDE :: SLASH :: chars ".vmipsrc"%string). unfold tilde_expand.
      change (split_slash (SLASH :: chars ".vmipsrc"%string)) with (@nil Z, Some (chars ".vmipsrc"%string)). cbn [TILDE Z.eqb Pos.eqb negb]. rewrite Hd.
      rewrite (proj2 (Z.ltb_lt _ _)); [done|]. rewrite length_app. cbn. lia. }
    rewrite Et. cbn [from_option]. rewrite ret_bind. cbn [fst snd].
    rewrite (bind_eq _ _ _ _ _ (Hread _ _ _ t1 H2 Hf2 Hv2)). fold t2.
    rewrite (bind_eq _ _ _ _ _ (process_shows command (Mk t2 []) Hv3)). done.
  - cbn [table]. apply complete_assigned; [done|]. apply complete_assigned; [done|]. apply complete_assigned; [done|]. apply complete_tty.
  - intros n. cbn [table]. rewrite <- assigned_lookup. unfold t2, t1, t0, assigned. by rewrite !foldl_app.
Qed.
End Host.

(** A system file with a comment, a user's file with quotes, and an option of the command
    line that overrides the file's. *)
Lemma options_configured_witness :
  let sysname := chars "./vmipsrc"%string in
  let files n := if bool_decide (n = sysname) then Some (chars "nodebug # off"%string ++ [10])
    else if bool_decide (n = chars "/home/u/.vmipsrc"%string) then Some (chars " 'memsize=4096'"%string) else None in
  let home (u : list Z) := if bool_decide (u = []) then Some (chars "/home/u"%string) else None in
  let command := [(chars "debug"%string, Flag true)] in
  ∃ o, process_options files home None sysname (dash_o command) Options = Some (Ready, o, []) ∧
    table o !! chars "memsize"%string = Some (Num 4096) ∧ table o !! chars "debug"%string = Some (Flag true).
Proof.
  intros sysname files home command.
  set (system := [(chars "debug"%string, Flag false)]). set (user := [(chars "memsize"%string, Num 4096)]).
  assert (Hv : Forall valid (system ++ user ++ command)).
  { constructor; [split; [by vm_compute|done]|]. constructor; [split; [by vm_compute|by vm_compute]|].
    constructor; [split; [by vm_compute|done]|constructor]. }
  assert (Hf1 : file (show <$> system) (chars "nodebug # off"%string ++ [10])).
  { apply (file_line [chars "nodebug"%string] (chars "nodebug # off"%string) [] []).
    - split; [by apply (bool_decide_eq_true_1 _)|]. split; [by apply (bool_decide_eq_true_1 _)|done].
    - apply (line_word [] (chars "nodebug"%string) (chars "nodebug"%string) [] (chars " # off"%string ++ [10])); [constructor|done| |by left|].
      + repeat (apply word_plain; [done..|]). apply word_nil.
      + apply (line_comment [0x20]). by repeat constructor.
    - apply file_end; [split; [apply not_elem_of_nil|split; [apply not_elem_of_nil|done]]|apply line_end; constructor]. }
  assert (Hf2 : file (show <$> user) (chars " 'memsize=4096'"%string)).
  { apply file_end; [split; [by apply (bool_decide_eq_true_1 _)|split; [by apply (bool_decide_eq_true_1 _)|done]]|].
    apply (line_word [0x20] (chars "memsize=4096"%string) (chars "'memsize=4096'"%string) [] []); [by repeat constructor|done| |done|].
    - apply (word_quoted (chars "memsize=4096"%string) [] []); [by apply (bool_decide_eq_true_1 _)|apply word_nil].
    - apply line_end. constructor. }
  destruct (options_configured files home None sysname (chars "/home/u"%string) _ _ system user command Hv eq_refl Hf1 eq_refl eq_refl eq_refl Hf2)
    as (o & E & _ & _ & H).
  exists o. split; [exact E|]. split; rewrite H; by vm_compute.
Defined.

(** ** Tuples *)
Definition commas (l : list (list Z)) : list Z := match l with [] => [] | d :: l => d ++ (l ≫= cons 0x2c) end.
Definition show_tuple (l : list Z) : list Z := 0x28 :: commas (decimal <$> l) ++ [0x29].
Lemma decimal_digits_all fuel n l : 0 ≤ n → Forall (λ c, 0x30 ≤ c ≤ 0x39) l → Forall (λ c, 0x30 ≤ c ≤ 0x39) (decimal_digits fuel n l).
Proof.
  revert n l. induction fuel as [|fuel IH]; intros n l Hn Hl; [done|]. cbn [decimal_digits]. destruct (Z.ltb_spec n 10).
  - constructor; [lia|done].
  - apply IH; [apply Z.div_pos; lia|]. constructor; [|done]. pose proof (Z.mod_pos_bound n 10 ltac:(lia)). lia.
Qed.
Lemma take_digits_app d c r : Forall (λ c, 0x30 ≤ c ≤ 0x39) d → digit 10 c = None → take_digits (d ++ c :: r) = (d, c :: r).
Proof.
  intros Hd Hc. induction Hd as [|x d Hx _ IH]; cbn [app take_digits]; [by rewrite Hc|].
  replace x with (0x30 + (x - 0x30)) by lia. rewrite digit_10 by lia. rewrite bool_decide_true by done. by rewrite IH.
Qed.
Lemma decimal_number n : is_u32 n → number 10 0 (decimal n) = n.
Proof.
  intros Hn. unfold is_u in Hn. destruct (decimal_digits_read 20 n [] 0) as (c & r & E & _ & _ & H & _); [lia|lia|].
  unfold decimal. rewrite E, H; done.
Qed.
Lemma match_numbers_shown l : Forall (λ n, 0 ≤ n < 2 ^ 31) l → l ≠ [] →
  match_numbers (length l) (commas (decimal <$> l) ++ [0x29]) = Some (decimal <$> l).
Proof.
  assert (Hd : ∀ n c r, 0 ≤ n < 2 ^ 31 → digit 10 c = None → is_space c = false →
    take_digits (skip_spaces (decimal n ++ c :: r)) = (decimal n, c :: r) ∧ skip_spaces (c :: r) = c :: r ∧ ∃ x y, decimal n = x :: y).
  { intros n c r Hn Hc Hs. destruct (decimal_digits_read 20 n [] 0) as (x & y & E & Hx & _); [lia|lia|].
    assert (Hsp : skip_spaces (decimal n ++ c :: r) = decimal n ++ c :: r).
    { unfold decimal. rewrite E. cbn [app skip_spaces]. unfold is_space.
      rewrite (proj2 (Z.eqb_neq x 0x20)), (proj2 (Z.leb_gt x 0x0d)) by lia. by rewrite andb_false_r. }
    assert (Hall : Forall (λ c, 0x30 ≤ c ≤ 0x39) (decimal n)) by (apply decimal_digits_all; [lia|constructor]).
    rewrite Hsp, take_digits_app by done.
    split; [done|]. split; [cbn [skip_spaces]; by rewrite Hs|by exists x, y]. }
  intros H. induction H as [|n l Hn Hl IH]; [done|]. intros _. destruct l as [|m l].
  - cbn [length fmap list_fmap commas mbind list_bind app]. rewrite app_nil_r. cbn [match_numbers].
    destruct (Hd n 0x29 [] Hn eq_refl eq_refl) as (E1 & E2 & x & y & E3). rewrite E1, E2, E3. by rewrite !bool_decide_true by done.
  - specialize (IH ltac:(done)).
    assert (E : commas (decimal <$> n :: m :: l) ++ [0x29] = decimal n ++ 0x2c :: commas (decimal <$> m :: l) ++ [0x29])
      by (cbn [fmap list_fmap commas mbind list_bind app]; rewrite <- !app_assoc; cbn [app]; by rewrite <- ?app_assoc).
    rewrite E. change (length (n :: m :: l)) with (S (length (m :: l))). cbn [match_numbers].
    destruct (Hd n 0x2c (commas (decimal <$> m :: l) ++ [0x29]) Hn eq_refl eq_refl) as (E1 & E2 & x & y & E3).
    rewrite E1, E2, E3. rewrite bool_decide_false by done. rewrite Z.eqb_refl, IH. rewrite <- E3. done.
Qed.
(** What is written as a tuple of numbers is read as it. *)
Theorem tuples_read (l : list Z) (Hl : Forall (λ n, 0 ≤ n < 2 ^ 31) l) (Hne : l ≠ []) : get_tuple (show_tuple l) (length l) = Some l.
Proof.
  unfold get_tuple, show_tuple. rewrite Z.eqb_refl, match_numbers_shown by done.
  assert (E : number 10 0 <$> (decimal <$> l) = l).
  { clear Hne. induction Hl as [|n l Hn _ IH]; [done|]. cbn [fmap list_fmap]. f_equal; [apply decimal_number; unfold is_u; lia|exact IH]. }
  rewrite E. by rewrite (proj2 (forallb_forall _ _)) by (intros n Hn%list_elem_of_In; rewrite Forall_forall in Hl; by apply Z.ltb_lt, Hl).
Qed.

(** The option "no" by itself is compared past the end of both strings; and the message of an
    option without a default is never printed: the look-up ends the program first. *)
Example no_crashes : process_one_option (chars "no"%string) Options = None.
Proof. by vm_compute. Qed.
Example no_default_ends : option (chars "unheard"%string) Options = None.
Proof. done. Qed.
(** A suffix that is none is reported, and the number is set. *)
Example bogus_number : match process_one_option (chars "memsize=12x"%string) Options with
  | Some (_, o, _) => table o !! chars "memsize"%string = Some (Num 12) ∧ messages o = [Bogus_suffix]
  | None => False
  end.
Proof. by vm_compute. Qed.

End Options.
