(* ===== verification/Interactor.v ===== *)
(** * Interactor: the interactive prompt (interactor.h, interactor.cc)

    Lines of words from the terminal, each of which names a command on the machine. *)

From Stdlib Require Import (notations) String.
From S2P Require Import Prelude Effects CStrings Options BoardDev.
Import CString MachineState.

Module Interactor.

(** The functions that are registered. *)
Inductive func := go_fn | step_fn | regs_fn | cp0_fn | mem_fn | dis_fn | stack_fn | halt_fn | help_fn.
#[global] Instance func_eq_dec : EqDecision func.
Proof. solve_decision. Defined.
(** What is printed, of the answers that are not the machine's. *)
Inductive message := Usage (f : func) | Cannot_parse (f : func) | Out_of_range (f : func) | Not_aligned (f : func)
  | Unknown_command (cmd : list Z) | Pc | Help.
Record t {W : Type} := Mk { machine : W; interacting : Z; messages : list message }.
Arguments t : clear implicits.
Arguments Mk {W}.
#[global] Instance eta {W} : Eta (t W) := λ i, Mk (machine i) (interacting i) (messages i).

Definition commands : list (list Z * func) := prod_map chars id <$>
  [("go"%string, go_fn); ("step"%string, step_fn); ("regs"%string, regs_fn); ("cp0"%string, cp0_fn); ("mem"%string, mem_fn);
   ("dis"%string, dis_fn); ("stack"%string, stack_fn); ("halt"%string, halt_fn); ("quit"%string, halt_fn); ("help"%string, help_fn)].
Definition find_function (cmd : list Z) : option func :=
  snd <$> List.find (λ e, bool_decide (e.1 = cmd)) commands.

(** ** The words of a line *)
Definition is_char (c : Z) : bool := negb (is_space c).
Fixpoint next_word (p : list Z) : list Z * list Z :=
  match p with
  | c :: r => if is_char c then prod_map (cons c) id (next_word r) else ([], p)
  | [] => ([], [])
  end.
(** The loop over the line; the character behind a word is overwritten and skipped. *)
Fixpoint parse_loop (fuel : nat) (p : list Z) : option (list (list Z)) :=
  match p, fuel with
  | [], _ => Some []
  | _, O => None
  | _, S fuel =>
      let '(first, last) := next_word (skip_spaces p) in
      (λ rv, if bool_decide (first = []) then rv else first :: rv) <$> parse_loop fuel (tail last)
  end.
Definition parse_string (buf : list Z) : option (list (list Z)) := parse_loop (length buf) buf.

Section Prompt.
  (** The machine, its state, and the calls that the commands make. *)
  Context {W : Type} (state_of : W → state) {PS : Setter state_of}.
  Variables (step dump_regs cpzero_dump_regs_and_tlb dump_stack : Effects.M W unit) (dump_mem dis_mem : Z → Effects.M W unit).
  Notation M := (Effects.M (t W)).

Definition say (m : message) : M unit := modify (λ i, i <| messages ::= λ l, l ++ [m] |>).
Definition stop_interacting : M unit := modify (λ i, i <| interacting ::= λ n, s32 (n - 1) |>).
(** [-1] with a message is [None]. *)
Definition parse_address (f : func) (addr_str : list Z) : M (option Z) :=
  let addr := strtoul addr_str 0 in
  if (addr =? 0) && bool_decide (strtoul_end addr_str 0 = addr_str) then say (Cannot_parse f);; mret None
  else if 0xffffffff <? addr then say (Out_of_range f);; mret None
  else mret (Some addr).
(** [mem_fn] and [dis_fn] differ in what they do to each of the eight words. *)
Definition memory_command (f : func) (show : Z → Effects.M W unit) (argv : list (list Z)) : M unit :=
  match argv with
  | [_; addr_str] =>
      a ← parse_address f addr_str;
      match a with
      | None => mret ()
      | Some addr =>
          if nz (Z.land addr 3) then say (Not_aligned f)
          else for_range 0 8 (λ k, zoom machine (show (u32 (addr + 4 * k))))
      end
  | _ => say (Usage f)
  end.
Definition run_function (f : func) (argv : list (list Z)) : M unit :=
  match f with
  | go_fn => zoom machine (state_of <~ RUN);; stop_interacting
  | step_fn => zoom machine step;; say Pc
  | regs_fn => zoom machine dump_regs
  | cp0_fn => zoom machine cpzero_dump_regs_and_tlb
  | mem_fn => memory_command mem_fn dump_mem argv
  | dis_fn => memory_command dis_fn dis_mem argv
  | stack_fn => zoom machine dump_stack
  | halt_fn => zoom machine (state_of <~ HALT);; stop_interacting
  | help_fn => say Help
  end.
(** The words of a command, already separated. *)
Definition dispatch (argv : list (list Z)) : M unit :=
  match argv with
  | [] => mret ()
  | cmd :: _ => match find_function cmd with Some f => run_function f argv | None => say (Unknown_command cmd) end
  end.
Definition do_one_command (buf : list Z) : M unit := argvec ← from_option (parse_string buf); dispatch argvec.
(** What is left of the input; at its end the prompt is left. *)
Fixpoint interact_loop (fuel : nat) (stdin : list Z) : M (list Z) :=
  n ← gets interacting;
  if n =? 0 then mret stdin else
  match fuel with
  | O => crash
  | S fuel =>
      match stdin with
      | [] => stop_interacting;; interact_loop fuel []
      | _ => let '(buf, rest) := Options.fgets 255 stdin in do_one_command (c_string buf);; interact_loop fuel rest
      end
  end.
Definition interact (stdin : list Z) : M (list Z) :=
  modify (λ i, i <| interacting ::= λ n, s32 (n + 1) |>);; interact_loop (S (length stdin)) stdin.
End Prompt.

(** ** The words of a line *)
Definition a_word (w : list Z) : Prop := w ≠ [] ∧ Forall (λ c, is_char c = true) w.
(** The text of a line, and its words. *)
Inductive words : list (list Z) → list Z → Prop :=
  | words_nil sp : spaces sp → words [] sp
  | words_last sp w : spaces sp → a_word w → words [w] (sp ++ w)
  | words_cons sp w c ws text : spaces sp → a_word w → is_space c = true → words ws text → words (w :: ws) (sp ++ w ++ c :: text).

Lemma skip_to_char sp r : spaces sp → match r with c :: _ => is_space c = false | [] => True end → skip_spaces (sp ++ r) = r.
Proof.
  intros Hs Hr. rewrite skip_spaces_app by done. destruct r as [|c r]; [done|]. cbn [skip_spaces]. by rewrite Hr.
Qed.
Lemma next_word_app w r : Forall (λ c, is_char c = true) w → match r with c :: _ => is_space c = true | [] => True end →
  next_word (w ++ r) = (w, r).
Proof.
  intros Hw Hr. induction Hw as [|c w Hc _ IH]; cbn [app next_word]; [|by rewrite Hc, IH].
  destruct r as [|c r]; [done|]. cbn [next_word]. unfold is_char. by rewrite Hr.
Qed.
Lemma word_start w r : a_word w → match w ++ r with c :: _ => is_space c = false | [] => True end.
Proof. intros [Hne Hw]. destruct w as [|c w]; [done|]. inversion Hw. by apply negb_true_iff. Qed.

(** Whatever the fuel, if it is not less than the text, the loop finds the words. *)
Lemma parse_words ws text fuel : words ws text → (length text ≤ fuel)%nat → parse_loop fuel text = Some ws.
Proof.
  intros H. revert fuel. induction H as [sp Hs|sp w Hs [Hne Hw]|sp w c ws text Hs [Hne Hw] Hc H IH]; intros fuel Hf.
  - destruct sp as [|c sp]; [by destruct fuel|]. destruct fuel as [|fuel]; [cbn in Hf; lia|]. cbn [parse_loop].
    rewrite <- (app_nil_r (c :: sp)), skip_to_char by done. cbn. by destruct fuel.
  - assert (Hl : parse_loop fuel (sp ++ w) = match fuel with O => None | S fuel =>
      let '(first, last) := next_word (skip_spaces (sp ++ w)) in
      (λ rv, if bool_decide (first = []) then rv else first :: rv) <$> parse_loop fuel (tail last) end).
    { destruct (sp ++ w) eqn:E; [apply app_eq_nil in E as [_ ->]; done|]. by destruct fuel. }
    rewrite Hl. destruct fuel as [|fuel]; [rewrite length_app in Hf; destruct w; [done|cbn in Hf; lia]|].
    pose proof (word_start w [] (conj Hne Hw)) as Hst. rewrite app_nil_r in Hst. rewrite skip_to_char by done.
    pose proof (next_word_app w [] Hw I) as Hn. rewrite app_nil_r in Hn. rewrite Hn. cbn.
    rewrite bool_decide_false by done. by destruct fuel.
  - assert (Hl : parse_loop fuel (sp ++ w ++ c :: text) = match fuel with O => None | S fuel =>
      let '(first, last) := next_word (skip_spaces (sp ++ w ++ c :: text)) in
      (λ rv, if bool_decide (first = []) then rv else first :: rv) <$> parse_loop fuel (tail last) end).
    { destruct (sp ++ w ++ c :: text) eqn:E; [by apply app_eq_nil in E as [_ [_ [=]]%app_eq_nil]|]. by destruct fuel. }
    rewrite Hl. rewrite !length_app in Hf. cbn [length] in Hf. destruct fuel as [|fuel]; [lia|].
    rewrite skip_to_char by (done || by apply word_start). rewrite next_word_app by done. cbn [tail].
    rewrite IH by lia. cbn. by rewrite bool_decide_false.
Qed.
(** Every text is the text of some words, so that no line stops the program. *)
Lemma words_total text : ∃ ws, words ws text.
Proof.
  enough (∀ cur, Forall (λ c, is_char c = true) cur → ∃ ws, words ws (cur ++ text)) as H by by apply (H []).
  induction text as [|c text IH]; intros cur Hcur.
  - rewrite app_nil_r. destruct cur as [|d cur]; [by exists []; constructor|].
    exists [d :: cur]. by apply (words_last [] (d :: cur)).
  - destruct (is_space c) eqn:Hc.
    + destruct (IH [] (Forall_nil_2 _)) as [ws Hws]. destruct cur as [|d cur].
      * cbn [app] in *. exists ws. clear IH Hcur. inversion Hws as [sp Hs|sp w Hs Hw|sp w e ws' r Hs Hw He Hr]; subst.
        -- apply words_nil. by constructor.
        -- apply (words_last (c :: sp)); [by constructor|done].
        -- apply (words_cons (c :: sp)); [by constructor|done..].
      * exists ((d :: cur) :: ws). by apply (words_cons [] (d :: cur)).
    + replace (cur ++ c :: text) with ((cur ++ [c]) ++ text) by by rewrite <- app_assoc. apply IH.
      apply Forall_app. split; [done|]. constructor; [|done]. unfold is_char. by rewrite Hc.
Qed.
Lemma parse_string_words ws buf : words ws buf → parse_string buf = Some ws.
Proof. intros H. by apply parse_words. Qed.

(** ** A session *)
Section Session.
  Context {W : Type} (state_of : W → state) {PS : Setter state_of}.
  Variables (step dump_regs cpzero_dump_regs_and_tlb dump_stack : Effects.M W unit) (dump_mem dis_mem : Z → Effects.M W unit).
  Notation dispatch := (dispatch state_of step dump_regs cpzero_dump_regs_and_tlb dump_stack dump_mem dis_mem).
  Notation do_one_command := (do_one_command state_of step dump_regs cpzero_dump_regs_and_tlb dump_stack dump_mem dis_mem).
  Notation interact_loop := (interact_loop state_of step dump_regs cpzero_dump_regs_and_tlb dump_stack dump_mem dis_mem).
  Notation interact := (interact state_of step dump_regs cpzero_dump_regs_and_tlb dump_stack dump_mem dis_mem).
  Notation M := (Effects.M (t W)).

(** A line that can be typed, and the words in it. *)
Definition typed (l : list (list Z) * list Z) : Prop :=
  words l.1 l.2 ∧ 10 ∉ l.2 ∧ 0 ∉ l.2 ∧ Z.of_nat (length l.2) < 254.
(** The commands that leave the prompt. *)
Definition leaving (argv : list (list Z)) : bool :=
  match argv with
  | cmd :: _ => match find_function cmd with Some go_fn | Some halt_fn => true | _ => false end
  | [] => false
  end.
Definition line_text (l : list (list Z) * list Z) : list Z := l.2 ++ [10].

Lemma words_newline ws text : words ws text → words ws (text ++ [10]).
Proof.
  induction 1 as [sp Hs|sp w Hs Hw|sp w c ws text Hs Hw Hc H IH].
  - apply words_nil. apply Forall_app. split; [done|]. by repeat constructor.
  - rewrite <- app_assoc. apply (words_cons sp w 10 [] []); try done. by apply words_nil.
  - rewrite <- !app_assoc. cbn [app]. by apply words_cons.
Qed.
Lemma command_typed l s : typed l → do_one_command (line_text l) s = dispatch l.1 s.
Proof.
  intros (Hw & _). unfold do_one_command, Interactor.do_one_command, line_text.
  rewrite (parse_string_words l.1) by by apply words_newline. cbn [from_option]. by rewrite ret_bind.
Qed.
(** A line that is read. *)
Lemma loop_line fuel l rest s : typed l → interacting s ≠ 0 →
  interact_loop (S fuel) (line_text l ++ rest) s = (dispatch l.1;; interact_loop fuel rest) s.
Proof.
  intros Hl Hi. pose proof Hl as (_ & H10 & H0 & Hn). cbn [Interactor.interact_loop].
  rewrite gets_bind, (proj2 (Z.eqb_neq _ _)) by done.
  assert (Hf : Options.fgets 255 (line_text l ++ rest) = (line_text l, rest)).
  { unfold line_text. rewrite <- app_assoc. apply Options.fgets_line; [done|lia]. }
  destruct (line_text l ++ rest) eqn:E; [by apply app_eq_nil in E as [[_ [=]]%app_eq_nil _]|].
  rewrite Hf. rewrite Options.c_string_id.
  2:{ unfold line_text. rewrite elem_of_app, list_elem_of_singleton. by intros [?|?]. }
  unfold bindM. by rewrite command_typed.
Qed.

Lemma same_interacting (m : Effects.M W unit) : keeps (λ s s', interacting s = interacting s') (zoom (machine (W := W)) m).
Proof. intros s a s' e. unfold zoom. destruct (m (machine s)) as [[[a1 w1] e1]|]; [|done]. by intros [= <- <- <-]. Qed.
Lemma same_say m : keeps (λ s s' : t W, interacting s = interacting s') (say m).
Proof. by intros s a s' e [= <- <- <-]. Qed.
#[local] Instance interacting_preorder : PreOrder (λ s s' : t W, interacting s = interacting s').
Proof. split; [by intros ?|]. intros ? ? ? ? ?. congruence. Qed.
(** A command that does not leave the prompt does not count. *)
Lemma dispatch_stays argv : leaving argv = false → keeps (λ s s', interacting s = interacting s') (dispatch argv).
Proof.
  unfold leaving, Interactor.dispatch. destruct argv as [|cmd argv]; [intros _; apply keeps_ret; exact _|].
  destruct (find_function cmd) as [f|]; [|intros _; apply same_say].
  destruct f; try done; intros _; cbn [run_function]; unfold memory_command, parse_address;
    repeat first [exact _ | apply same_interacting | apply same_say | apply keeps_ret | apply keeps_for_range
                 | apply keeps_bind | progress intros | case_match].
Qed.
Lemma dispatch_leaves argv s : leaving argv = true →
  ∃ s', dispatch argv s = Some ((), s', []) ∧ interacting s' = s32 (interacting s - 1) ∧
    machine s' = PS (λ _, if bool_decide (find_function (default [] (head argv)) = Some go_fn) then RUN else HALT) (machine s).
Proof.
  unfold leaving, Interactor.dispatch. destruct argv as [|cmd argv]; [done|]. cbn [head].
  change (default [] (Some cmd)) with cmd.
  destruct (find_function cmd) as [f|]; [|done].
  destruct f; try done; intros _; (eexists; split; [reflexivity|by split]).
Qed.

(** A session: lines of commands, with whatever spaces, run one after the other on the
    machine; the first one that leaves the prompt ends it, and the rest of the input is
    kept.  It leaves the machine running after [go], and halted after the others. *)
Theorem session (ls : list (list (list Z) * list Z)) (l : list (list Z) * list Z) (rest : list Z) (s : t W)
    (Hs : interacting s = 0) (Hls : Forall (λ l, typed l ∧ leaving l.1 = false) ls) (Hl : typed l) (Hlast : leaving l.1 = true) :
  interact ((ls ≫= line_text) ++ line_text l ++ rest) s =
    (for_each ls (λ l, dispatch l.1);; dispatch l.1;; mret rest) (s <| interacting := 1 |>).
Proof.
  unfold Interactor.interact. rewrite modify_bind.
  replace (s <| interacting ::= λ n, s32 (n + 1) |>) with (s <| interacting := 1 |>)
    by (destruct s; cbn in *; by rewrite Hs).
  assert (Hi : interacting (s <| interacting := 1 |>) = 1) by done.
  revert Hi. generalize (s <| interacting := 1 |>) as s1. clear s Hs.
  assert (Hfuel : (length ls < S (length ((ls ≫= line_text) ++ line_text l ++ rest)))%nat).
  { rewrite !length_app. clear Hls Hl Hlast. induction ls as [|a ls IH]; cbn; [lia|]. unfold line_text at 1.
    rewrite !length_app. cbn. lia. }
  revert Hfuel. generalize (S (length ((ls ≫= line_text) ++ line_text l ++ rest))) as fuel.
  induction Hls as [|a ls [Ha Hstay] _ IH]; intros fuel Hf s Hi; (destruct fuel as [|fuel]; [cbn in Hf; lia|]).
  - cbn [mbind list_bind app for_each]. rewrite loop_line by (done || lia). rewrite ret_bind.
    destruct (dispatch_leaves l.1 s Hlast) as (s' & E & Hi' & _). rewrite !(bind_eq _ _ _ _ _ E).
    destruct fuel; cbn [Interactor.interact_loop]; rewrite gets_bind, Hi', Hi; reflexivity.
  - cbn [mbind list_bind for_each]. rewrite <- app_assoc, loop_line by (done || lia). rewrite bind_assoc.
    unfold bindM at 1 2. destruct (dispatch a.1 s) as [[[[] s'] e]|] eqn:E; [|done].
    rewrite (IH fuel); [done|cbn in Hf; lia|]. by rewrite <- (dispatch_stays a.1 Hstay _ _ _ _ E).
Qed.
End Session.

(** Words, an unknown command, and leaving. *)
Example typed_go :
  let m := interact (W := state) id (mret ()) (mret ()) (mret ()) (mret ()) (λ _, mret ()) (λ _, mret ()) in
  m (chars "  mem  0x10"%string ++ [10] ++ chars "what now"%string ++ [10] ++ chars "go"%string ++ [10] ++ chars "regs"%string)
    (Mk INTERACT 0 []) = Some (chars "regs"%string, Mk RUN 0 [Unknown_command (chars "what"%string)], []).
Proof. by vm_compute. Qed.

End Interactor.
