(* ===== verification/Pipeline.v ===== *)
(** * Pipeline: correctness of the processor's pipeline (cpu.cc)

    The invariant of the pipeline registers, which the pointers between them
    rely on, and what each stage computes. *)

From S2P Require Import Prelude Effects Types Mapper Cache CPZero ISA CPU Demo.

Module Pipeline.
Import ISA CPU.

(** ** The decoding tables *)

Lemma field_range n k i : 0 ≤ n → 0 ≤ k → 0 ≤ Z.land (Z.shiftr i k) (Z.ones n) < 2 ^ n.
Proof. intros. rewrite Z.land_ones by done. apply Z.mod_pos_bound. lia. Qed.

Lemma opcode_range i : 0 ≤ opcode i < 64.
Proof. apply (field_range 6); lia. Qed.
Lemma funct_range i : 0 ≤ funct i < 64.
Proof. unfold funct. rewrite <- (Z.shiftr_0_r i). apply (field_range 6); lia. Qed.
Lemma rs_range i : 0 ≤ rs i < 32.
Proof. apply (field_range 5); lia. Qed.
Lemma rt_range i : 0 ≤ rt i < 32.
Proof. apply (field_range 5); lia. Qed.
Lemma rd_range i : 0 ≤ rd i < 32.
Proof. apply (field_range 5); lia. Qed.

(** A register label: a register, or [NONE_REG]. *)
Definition label (d : Z) : Prop := 0 ≤ d ≤ 32.

Lemma call_decode_label d i x : call_decode d i = Some x → label x.
Proof.
  pose proof (rs_range i). pose proof (rt_range i). pose proof (rd_range i). unfold label.
  destruct d; simpl; intros [= <-]; unfold NONE_REG, RA_REG; lia.
Qed.

(** A property of all 6-bit fields is checked by evaluation. *)
Lemma forall_field (P : Z → bool) n i : 0 ≤ i < Z.of_nat n →
  forallb P (seqZ 0 (Z.of_nat n)) = true → P i = true.
Proof.
  intros Hi HP. rewrite forallb_forall in HP. apply HP.
  apply list_elem_of_In, elem_of_seqZ. lia.
Qed.

Definition not_null (d : operand_decodepr) : bool := match d with Null => false | _ => true end.

Lemma call_not_null d i : not_null d = true → is_Some (call_decode d i).
Proof. destruct d; [eauto..|done]. Qed.

Lemma decode_src_a_Some i : is_Some (decode_src_a i).
Proof.
  unfold decode_src_a. destruct (Z.eqb_spec (opcode i) OP_SPECIAL).
  { apply call_not_null.
    exact (forall_field (λ f, not_null (dec_at firstSrcDecSpecialTable f)) 64 _ (funct_range i) eq_refl). }
  destruct (Z.eqb_spec (opcode i) OP_BCOND).
  { apply call_not_null.
    exact (forall_field (λ f, not_null (dec_at firstSrcDecBcondTable f)) 32 _ (rt_range i) eq_refl). }
  destruct (is_cop (opcode i)) eqn:Hc; [eauto|]. apply call_not_null.
  pose proof (forall_field (λ f, (f =? OP_SPECIAL) || (f =? OP_BCOND) || is_cop f ||
    not_null (dec_at firstSrcDecTable f)) 64 _ (opcode_range i) eq_refl) as HP.
  cbv beta in HP. rewrite Hc, (proj2 (Z.eqb_neq _ _) n), (proj2 (Z.eqb_neq _ _) n0) in HP. done.
Qed.

Lemma decode_src_b_Some i : is_Some (decode_src_b i).
Proof.
  unfold decode_src_b. destruct (Z.eqb_spec (opcode i) OP_SPECIAL) as [|n]; apply call_not_null.
  { exact (forall_field (λ f, not_null (dec_at secondSrcDecSpecialTable f)) 64 _ (funct_range i) eq_refl). }
  pose proof (forall_field (λ f, (f =? OP_SPECIAL) || not_null (dec_at secondSrcDecTable f)) 64 _
    (opcode_range i) eq_refl) as HP.
  cbv beta in HP. by rewrite (proj2 (Z.eqb_neq _ _) n) in HP.
Qed.

Lemma decode_dst_Some i : is_Some (decode_dst i).
Proof.
  unfold decode_dst.
  assert (Hd : is_Some (if opcode i =? OP_SPECIAL then call_decode (dec_at dstDecSpecialTable (funct i)) i
    else if is_cop (opcode i) then Some (if rs i =? COP_OP_MFC then rt i else NONE_REG)
    else if opcode i =? OP_BCOND then
      Some (if (rt i =? BCONDE_BLTZAL) || (rt i =? BCONDE_BGEZAL) then RA_REG else NONE_REG)
    else call_decode (dec_at dstDecTable (opcode i)) i)).
  { destruct (Z.eqb_spec (opcode i) OP_SPECIAL) as [|n].
    { apply call_not_null.
      exact (forall_field (λ f, not_null (dec_at dstDecSpecialTable f)) 64 _ (funct_range i) eq_refl). }
    destruct (is_cop (opcode i)) eqn:Hc; [eauto|].
    destruct (Z.eqb_spec (opcode i) OP_BCOND) as [|n0]; [eauto|]. apply call_not_null.
    pose proof (forall_field (λ f, (f =? OP_SPECIAL) || is_cop f || not_null (dec_at dstDecTable f))
      64 _ (opcode_range i) eq_refl) as HP.
    cbv beta in HP. by rewrite Hc, (proj2 (Z.eqb_neq _ _) n) in HP. }
  destruct Hd as [d ->]. simpl. eauto.
Qed.

Lemma decode_src_a_label i a : decode_src_a i = Some a → label a.
Proof.
  unfold decode_src_a. intros E. pose proof (rt_range i).
  destruct (opcode i =? OP_SPECIAL); [by eapply call_decode_label|].
  destruct (opcode i =? OP_BCOND); [by eapply call_decode_label|].
  destruct (is_cop (opcode i)); [|by eapply call_decode_label].
  apply (inj Some) in E as <-. destruct (rs i =? COP_OP_MTC); unfold label, NONE_REG; lia.
Qed.

Lemma decode_src_b_label i a : decode_src_b i = Some a → label a.
Proof. unfold decode_src_b. destruct (opcode i =? OP_SPECIAL); apply call_decode_label. Qed.

Lemma decode_dst_label i d : decode_dst i = Some d → label d ∧ d ≠ 0.
Proof.
  unfold decode_dst. intros E. pose proof (rt_range i).
  destruct (if opcode i =? OP_SPECIAL then _ else _) as [x|] eqn:Ex; simpl in E; [|done].
  assert (Hx : label x).
  { destruct (opcode i =? OP_SPECIAL); [by eapply call_decode_label|].
    destruct (is_cop (opcode i)).
    { apply (inj Some) in Ex as <-. destruct (rs i =? COP_OP_MFC); unfold label, NONE_REG; lia. }
    destruct (opcode i =? OP_BCOND); [|by eapply call_decode_label].
    apply (inj Some) in Ex as <-. destruct (_ || _); unfold label, NONE_REG, RA_REG; lia. }
  apply (inj Some) in E as <-. unfold label, NONE_REG in *. destruct (Z.eqb_spec x 0); lia.
Qed.

(** A reserved instruction has no destination. *)
Lemma reserved_dst i : reserved i = true → decode_dst i = Some NONE_REG.
Proof.
  unfold reserved, decode_dst. destruct (Z.eqb_spec (opcode i) OP_SPECIAL) as [|n].
  - intros Hr. pose proof (forall_field (λ f, negb (flag_at RI_special_flag f) ||
      match dec_at dstDecSpecialTable f with No => true | _ => false end) 64 _ (funct_range i) eq_refl) as HP.
    cbv beta in HP. rewrite Hr in HP. cbn [negb orb] in HP. by destruct (dec_at dstDecSpecialTable (funct i)).
  - intros Hr.
    pose proof (forall_field (λ f, (f =? OP_SPECIAL) || negb ((f =? OP_CACHE) || flag_at RI_flag f) ||
      (negb (is_cop f) && negb (f =? OP_BCOND) &&
       match dec_at dstDecTable f with No => true | _ => false end)) 64 _ (opcode_range i) eq_refl) as HP.
    cbv beta in HP. rewrite (proj2 (Z.eqb_neq _ _) n) in HP.
    assert (Hr' : (opcode i =? OP_CACHE) || flag_at RI_flag (opcode i) = true).
    { apply orb_true_iff in Hr as [[-> _]%andb_true_iff | ->]; [done|apply orb_true_r]. }
    rewrite Hr' in HP. cbn [negb orb] in HP. apply andb_true_iff in HP as [[H1 H2]%andb_true_iff H3].
    apply negb_true_iff in H1, H2. rewrite H1, H2. by destruct (dec_at dstDecTable (opcode i)).
Qed.

(** ** The decoding stage *)

(** The address register [src] is read from, and whether a load has to come
    first, for the instructions in EX, MEM and WB. *)
Definition forwarded (rx rm rw : PipelineRegs) (src : Z) : uptr * bool :=
  if src =? dst rx then (w_reg_data rx, mem_read_op rx)
  else if src =? dst rm then (w_reg_data rm, false)
  else if src =? dst rw then (w_reg_data rw, false)
  else (PReg src, false).

Definition forwarded_ex (rx : PipelineRegs) (src : Z) : uptr :=
  if src =? dst rx then w_reg_data rx else PReg src.

(** The pipeline register of the instruction after [decode_operands], one
    statement of it after the other. *)
Section Decoded.
  Variables (id i : Z) (rx rm rw : PipelineRegs) (a b d : Z).
  Implicit Types r : PipelineRegs.

Definition dec_reserved r : PipelineRegs :=
  if reserved i then r <| pl_instr := NOP_INSTR |> else r.
Definition dec_labels r : PipelineRegs := r <| src_a := a |> <| src_b := b |> <| dst := d |>.
Definition dec_a r : PipelineRegs :=
  if negb (a =? NONE_REG) then r <| alu_src_a := fst (forwarded rx rm rw a) |> else r.
Definition dec_imm r : PipelineRegs :=
  if opcode i =? OP_SPECIAL then
    if flag_at shamt_flag (funct i) then r <| shamt_ := shamt i |> else r
  else if flag_at imm_flag (opcode i) then r <| imm := immed i |>
  else if flag_at s_imm_flag (opcode i) then r <| imm := u32 (s_immed i) |> else r.
Definition dec_b_imm r : PipelineRegs :=
  let r := if uses_shamt i then r <| alu_src_b := PShamt id |> else r in
  if uses_imm i then r <| alu_src_b := PImm id |> else r.
Definition dec_b r : PipelineRegs :=
  if negb (b =? NONE_REG) then r <| alu_src_b := fst (forwarded rx rm rw b) |> else dec_b_imm r.
Definition dec_lwlr r : PipelineRegs :=
  if (opcode i =? OP_LWL) || (opcode i =? OP_LWR)
  then r <| lwrl_reg_prev := forwarded_ex rx d |> else r.
Definition dec_write r : PipelineRegs :=
  if negb (d =? NONE_REG) then
    if flag_at mem_read_flag (opcode i)
    then r <| mem_read_op := true |> <| w_reg_data := PMem id |>
    else r <| w_reg_data := PResult id |>
  else r.
Definition dec_store r : PipelineRegs :=
  if flag_at mem_write_flag (opcode i) then r <| w_mem_data := forwarded_ex rx (rt i) |> else r.

Definition decoded r : PipelineRegs :=
  dec_store (dec_write (dec_lwlr (dec_b (dec_imm (dec_a (dec_labels (dec_reserved r))))))).

(** What no layer but its own changes. *)
Definition rest r := (src_a r, src_b r, dst r, pl_instr r, pl_pc r, result r, excBuf r, delay_slot r).

Lemma dec_layers r :
  (rest (dec_store r) = rest r ∧ alu_src_a (dec_store r) = alu_src_a r ∧
   alu_src_b (dec_store r) = alu_src_b r ∧ w_reg_data (dec_store r) = w_reg_data r) ∧
  (rest (dec_write r) = rest r ∧ alu_src_a (dec_write r) = alu_src_a r ∧
   alu_src_b (dec_write r) = alu_src_b r) ∧
  (rest (dec_lwlr r) = rest r ∧ alu_src_a (dec_lwlr r) = alu_src_a r ∧
   alu_src_b (dec_lwlr r) = alu_src_b r ∧ w_reg_data (dec_lwlr r) = w_reg_data r) ∧
  (rest (dec_b r) = rest r ∧ alu_src_a (dec_b r) = alu_src_a r ∧
   w_reg_data (dec_b r) = w_reg_data r) ∧
  (rest (dec_imm r) = rest r ∧ alu_src_a (dec_imm r) = alu_src_a r ∧
   w_reg_data (dec_imm r) = w_reg_data r) ∧
  (rest (dec_a r) = rest r ∧ w_reg_data (dec_a r) = w_reg_data r).
Proof.
  unfold dec_store, dec_write, dec_lwlr, dec_b, dec_b_imm, dec_imm, dec_a. cbv zeta.
  split_and!; repeat match goal with |- context [if ?c then _ else _] => destruct c end; reflexivity.
Qed.

(** The fields of a decoded instruction. *)
Lemma decoded_operands r : pl_instr r = i →
  let r' := decoded r in
  src_a r' = a ∧ src_b r' = b ∧ dst r' = d ∧
  (a ≠ NONE_REG → alu_src_a r' = fst (forwarded rx rm rw a)) ∧
  (b ≠ NONE_REG → alu_src_b r' = fst (forwarded rx rm rw b)) ∧
  w_reg_data r' = (if d =? NONE_REG then w_reg_data r
                   else if flag_at mem_read_flag (opcode i) then PMem id else PResult id) ∧
  pl_instr r' = (if reserved i then NOP_INSTR else i) ∧
  pl_pc r' = pl_pc r ∧ result r' = result r ∧ excBuf r' = excBuf r ∧ delay_slot r' = delay_slot r.
Proof.
  intros Hi. cbv zeta. unfold decoded.
  set (r1 := dec_labels (dec_reserved r)). set (r2 := dec_a r1). set (r3 := dec_imm r2).
  set (r4 := dec_b r3). set (r5 := dec_lwlr r4). set (r6 := dec_write r5).
  destruct (dec_layers r6) as ((S1 & S2 & S3 & S4) & _).
  destruct (dec_layers r5) as (_ & (W1 & W2 & W3) & _).
  destruct (dec_layers r4) as (_ & _ & (L1 & L2 & L3 & L4) & _).
  destruct (dec_layers r3) as (_ & _ & _ & (B1 & B2 & B3) & _).
  destruct (dec_layers r2) as (_ & _ & _ & _ & (I1 & I2 & I3) & _).
  destruct (dec_layers r1) as (_ & _ & _ & _ & _ & (A1 & A2)).
  assert (R : rest (dec_store r6) = rest r1) by exact (eq_trans S1 (eq_trans W1 (eq_trans L1
    (eq_trans B1 (eq_trans I1 A1))))).
  assert (R1 : rest r1 = (a, b, d, if reserved i then NOP_INSTR else i, pl_pc r, result r, excBuf r,
    delay_slot r)) by (unfold rest, r1, dec_labels, dec_reserved; destruct (reserved i); cbn; by rewrite ?Hi).
  rewrite R1 in R. unfold rest in R.
  rewrite !pair_equal_spec in R. destruct R as [[[[[[[-> ->] ->] ->] ->] ->] ->] ->].
  split; [done|]. split; [done|]. split; [done|]. split; [|split; [|split; [|by split_and!]]].
  - intros Ha. rewrite S2. unfold r6. rewrite W2. unfold r5. rewrite L2. unfold r4. rewrite B2.
    unfold r3. rewrite I2. unfold r2, dec_a. apply Z.eqb_neq in Ha. by rewrite Ha.
  - intros Hb. rewrite S3. unfold r6. rewrite W3. unfold r5. rewrite L3. unfold r4, dec_b.
    apply Z.eqb_neq in Hb. by rewrite Hb.
  - rewrite S4. assert (E : w_reg_data r5 = w_reg_data r).
    { unfold r5. rewrite L4. unfold r4. rewrite B3. unfold r3. rewrite I3. unfold r2. rewrite A2.
      unfold r1, dec_labels, dec_reserved. by destruct (reserved i). }
    unfold r6, dec_write. destruct (d =? NONE_REG); [done|].
    by destruct (flag_at mem_read_flag (opcode i)).
Qed.

(** The pointers that are not an operand's, and those of the operands it lacks. *)
Ltac layer f := intros; unfold f, dec_b_imm; cbv zeta;
  repeat match goal with |- context [if ?c then _ else _] => destruct c end; reflexivity.

Lemma decoded_pointers r :
  let r' := decoded r in
  (a = NONE_REG → alu_src_a r' = alu_src_a r) ∧
  (b = NONE_REG → alu_src_b r' =
     if uses_imm i then PImm id else if uses_shamt i then PShamt id else alu_src_b r) ∧
  (flag_at mem_write_flag (opcode i) = true → w_mem_data r' = forwarded_ex rx (rt i)) ∧
  ((opcode i =? OP_LWL) || (opcode i =? OP_LWR) = true → lwrl_reg_prev r' = forwarded_ex rx d).
Proof.
  cbv zeta. unfold decoded.
  assert (S : ∀ q, alu_src_a (dec_store q) = alu_src_a q ∧ alu_src_b (dec_store q) = alu_src_b q ∧
    lwrl_reg_prev (dec_store q) = lwrl_reg_prev q) by (intros q; split_and!; layer dec_store).
  assert (W : ∀ q, alu_src_a (dec_write q) = alu_src_a q ∧ alu_src_b (dec_write q) = alu_src_b q ∧
    lwrl_reg_prev (dec_write q) = lwrl_reg_prev q) by (intros q; split_and!; layer dec_write).
  assert (L : ∀ q, alu_src_a (dec_lwlr q) = alu_src_a q ∧ alu_src_b (dec_lwlr q) = alu_src_b q)
    by (intros q; split_and!; layer dec_lwlr).
  assert (Bq : ∀ q, alu_src_a (dec_b q) = alu_src_a q) by layer dec_b.
  assert (I : ∀ q, alu_src_a (dec_imm q) = alu_src_a q ∧ alu_src_b (dec_imm q) = alu_src_b q)
    by (intros q; split_and!; layer dec_imm).
  assert (A : ∀ q, alu_src_b (dec_a q) = alu_src_b q) by layer dec_a.
  assert (R : ∀ q, alu_src_a (dec_labels (dec_reserved q)) = alu_src_a q ∧
    alu_src_b (dec_labels (dec_reserved q)) = alu_src_b q)
    by (intros q; split_and!; unfold dec_labels; layer dec_reserved).
  split_and!.
  - intros Ha. rewrite (proj1 (S _)), (proj1 (W _)), (proj1 (L _)), Bq, (proj1 (I _)).
    unfold dec_a. rewrite Ha. apply R.
  - intros Hb. rewrite (proj1 (proj2 (S _))), (proj1 (proj2 (W _))), (proj2 (L _)).
    unfold dec_b. rewrite Hb, Z.eqb_refl. cbn [negb]. unfold dec_b_imm.
    cbv zeta. destruct (uses_imm i); [done|]. destruct (uses_shamt i); [done|].
    rewrite (proj2 (I _)), A. apply R.
  - intros Hm. unfold dec_store. by rewrite Hm.
  - intros Hl. rewrite (proj2 (proj2 (S _))), (proj2 (proj2 (W _))). unfold dec_lwlr. by rewrite Hl.
Qed.

End Decoded.

(** [load_hazard]: the instruction needs the datum of the load in EX. *)
Definition load_hazard (rx : PipelineRegs) (a b : Z) : bool :=
  mem_read_op rx &&
  ((negb (a =? NONE_REG) && (a =? dst rx)) || (negb (b =? NONE_REG) && (b =? dst rx))).

Lemma load_hazard_eq rx rm rw a b :
  negb (a =? NONE_REG) && snd (forwarded rx rm rw a) ||
  negb (b =? NONE_REG) && snd (forwarded rx rm rw b) = load_hazard rx a b.
Proof.
  assert (E : ∀ x, snd (forwarded rx rm rw x) = (x =? dst rx) && mem_read_op rx).
  { intros x. unfold forwarded. destruct (x =? dst rx); [done|]. destruct (x =? dst rm); [done|].
    by destruct (x =? dst rw). }
  rewrite !E. unfold load_hazard.
  by destruct (mem_read_op rx), (a =? NONE_REG), (b =? NONE_REG), (a =? dst rx), (b =? dst rx).
Qed.

Section Decode.
  Context {B : Type}.
  Implicit Types (s : t B).

(** [s] with the pipeline register [r] at [p]. *)
Definition at_ s (p : Z) (r : PipelineRegs) : t B := s <| heap ::= <[p := r]> |>.

Lemma at_at s p r r' : at_ (at_ s p r) p r' = at_ s p r'.
Proof. unfold at_. destruct s. simpl. by rewrite insert_insert_eq. Qed.
Lemma heap_at s p r : heap (at_ s p r) !! p = Some r.
Proof. apply lookup_insert_eq. Qed.
Lemma heap_at_ne s p q r : p ≠ q → heap (at_ s p r) !! q = heap s !! q.
Proof. apply lookup_insert_ne. Qed.

Lemma setf_at p f s r : setf p f (at_ s p r) = Some ((), at_ s p (f r), []).
Proof.
  rewrite (setf_eq _ _ _ r) by apply heap_at.
  exact (f_equal (λ x, Some ((), x, [])) (at_at s p r (f r))).
Qed.
Lemma when_setf_at b p f s r :
  when b (setf p f) (at_ s p r) = Some ((), at_ s p (if b then f r else r), []).
Proof. destruct b; [apply setf_at|done]. Qed.

(** The stages hold the instructions [r], [rx], [rm] and [rw]. *)
Record holds s (id ex mm wb : Z) (r rx rm rw : PipelineRegs) : Prop := {
  h_id : nthz (PL_REGS s) ID_STAGE = Some (Some id);
  h_ex : nthz (PL_REGS s) EX_STAGE = Some (Some ex);
  h_mm : nthz (PL_REGS s) MEM_STAGE = Some (Some mm);
  h_wb : nthz (PL_REGS s) WB_STAGE = Some (Some wb);
  h_r : heap s !! id = Some r;
  h_rx : heap s !! ex = Some rx;
  h_rm : heap s !! mm = Some rm;
  h_rw : heap s !! wb = Some rw;
  h_ne : id ≠ ex ∧ id ≠ mm ∧ id ≠ wb
}.

Lemma holds_at s id ex mm wb r rx rm rw r' :
  holds s id ex mm wb r rx rm rw → holds (at_ s id r') id ex mm wb r' rx rm rw.
Proof. intros []. destruct h_ne0 as (? & ? & ?). split; try done.
  - apply heap_at.
  - by rewrite heap_at_ne.
  - by rewrite heap_at_ne.
  - by rewrite heap_at_ne.
Qed.

Section Stages.
  Context {s : t B} {id ex mm wb : Z} {r rx rm rw : PipelineRegs}.
  Context (Hs : holds s id ex mm wb r rx rm rw).

Lemma forward_eq src : forward src s = Some (forwarded rx rm rw src, s, []).
Proof.
  unfold forward, forwarded. destruct Hs.
  rewrite (bind_eq _ _ _ _ _ (stage_eq _ _ _ h_ex0)), (bind_eq _ _ _ _ _ (field_eq _ _ _ _ h_rx0)).
  destruct (src =? dst rx).
  { by rewrite !(bind_eq _ _ _ _ _ (field_eq _ _ _ _ h_rx0)). }
  rewrite (bind_eq _ _ _ _ _ (stage_eq _ _ _ h_mm0)), (bind_eq _ _ _ _ _ (field_eq _ _ _ _ h_rm0)).
  destruct (src =? dst rm); [by rewrite (bind_eq _ _ _ _ _ (field_eq _ _ _ _ h_rm0))|].
  rewrite (bind_eq _ _ _ _ _ (stage_eq _ _ _ h_wb0)), (bind_eq _ _ _ _ _ (field_eq _ _ _ _ h_rw0)).
  destruct (src =? dst rw); [by rewrite (bind_eq _ _ _ _ _ (field_eq _ _ _ _ h_rw0))|done].
Qed.

Lemma forward_ex_eq src : forward_ex src s = Some (forwarded_ex rx src, s, []).
Proof.
  unfold forward_ex, forwarded_ex. destruct Hs.
  rewrite (bind_eq _ _ _ _ _ (stage_eq _ _ _ h_ex0)), (bind_eq _ _ _ _ _ (field_eq _ _ _ _ h_rx0)).
  destruct (src =? dst rx); [by apply field_eq|done].
Qed.

End Stages.

Lemma bool_if_same {A} (b : bool) (x : A) : (if b then x else x) = x.
Proof. by destruct b. Qed.

Lemma when_forward_ex_at s id ex mm wb r rx rm rw b src (g : uptr → PipelineRegs → PipelineRegs) :
  holds (at_ s id r) id ex mm wb r rx rm rw →
  when b (u ← forward_ex src; setf id (g u)) (at_ s id r) =
    Some ((), at_ s id (if b then g (forwarded_ex rx src) r else r), []).
Proof.
  intros Hs. destruct b; [|done]. simpl.
  rewrite (bind_eq _ _ _ _ _ (forward_ex_eq Hs src)). apply setf_at.
Qed.

Lemma operand_at s id ex mm wb r rx rm rw src (g : uptr → PipelineRegs → PipelineRegs)
    (other : M (t B) bool) r' :
  holds (at_ s id r) id ex mm wb r rx rm rw →
  other (at_ s id r) = Some (false, at_ s id r', []) →
  (if negb (src =? NONE_REG) then ' (u, h) ← forward src; setf id (g u);; mret h else other)
    (at_ s id r) =
  Some (negb (src =? NONE_REG) && snd (forwarded rx rm rw src),
        at_ s id (if negb (src =? NONE_REG) then g (fst (forwarded rx rm rw src)) r else r'), []).
Proof.
  intros Hs Ho. destruct (negb (src =? NONE_REG)); [|done].
  rewrite (bind_eq _ _ _ _ _ (forward_eq Hs src)).
  destruct (forwarded rx rm rw src) as [u h]. by rewrite (bind_eq _ _ _ _ _ (setf_at _ _ _ _)).
Qed.

(** The decoding of the immediate and of the destination. *)
Lemma decode_immediate s id r i (op := opcode i) :
  (if op =? OP_SPECIAL then
     when (flag_at shamt_flag (funct i)) (setf id (λ r, r <| shamt_ := shamt i |>))
   else if flag_at imm_flag op then setf id (λ r, r <| imm := immed i |>)
   else when (flag_at s_imm_flag op) (setf id (λ r, r <| imm := u32 (s_immed i) |>)))
    (at_ s id r) = Some ((), at_ s id (dec_imm i r), []).
Proof.
  unfold dec_imm. fold op. destruct (op =? OP_SPECIAL); [apply when_setf_at|].
  destruct (flag_at imm_flag op); [apply setf_at|apply when_setf_at].
Qed.
Lemma decode_destination s id r i d (op := opcode i) :
  when (negb (d =? NONE_REG))
    (if flag_at mem_read_flag op then
       setf id (λ r, r <| mem_read_op := true |> <| w_reg_data := PMem id |>)
     else setf id (λ r, r <| w_reg_data := PResult id |>)) (at_ s id r) =
  Some ((), at_ s id (dec_write id i d r), []).
Proof.
  unfold dec_write. fold op. destruct (negb (d =? NONE_REG)); [|done]. destruct (flag_at mem_read_flag op).
  - apply (setf_at id (λ r, r <| mem_read_op := true |> <| w_reg_data := PMem id |>)).
  - apply (setf_at id (λ r, r <| w_reg_data := PResult id |>)).
Qed.

(** [decode_operands] in one equation. *)
Lemma decode_operands_eq s id ex mm wb r rx rm rw a b d :
  holds s id ex mm wb r rx rm rw →
  decode_src_a (pl_instr r) = Some a → decode_src_b (pl_instr r) = Some b →
  decode_dst (pl_instr r) = Some d →
  decode_operands s =
    Some ((id, load_hazard rx a b),
          at_ (if reserved (pl_instr r)
               then s <| exc_signal := Some (MkExc RI ANY (-1)) |> <| exception_pending := true |>
               else s) id (decoded id (pl_instr r) rx rm rw a b d r), []).
Proof.
  intros Hs Ha Hb Hd. unfold decode_operands.
  rewrite (bind_eq _ _ _ _ _ (stage_eq _ _ _ (h_id _ _ _ _ _ _ _ _ _ Hs))).
  rewrite (bind_eq _ _ _ _ _ (field_eq _ _ _ _ (h_r _ _ _ _ _ _ _ _ _ Hs))).
  set (i := pl_instr r) in *. set (op := opcode i).
  set (s1 := if reserved i then s <| exc_signal := Some (MkExc RI ANY (-1)) |>
                                  <| exception_pending := true |> else s).
  set (r1 := if reserved i then r <| pl_instr := NOP_INSTR |> else r).
  assert (Hs1 : ∀ r', holds (at_ s1 id r') id ex mm wb r' rx rm rw).
  { intros r'. apply (holds_at s1 id ex mm wb r). destruct Hs. unfold s1.
    destruct (reserved i); by split. }
  assert (E1 : when (reserved i) (exception RI ANY (-1);; setf id (λ r, r <| pl_instr := NOP_INSTR |>)) s
    = Some ((), at_ s1 id r1, [])).
  { unfold s1, r1. destruct Hs. destruct (reserved i); cbn [when].
    - unfold exception. rewrite bind_assoc.
      do 2 (erewrite bind_eq by reflexivity). exact (setf_eq id _ s1 r h_r0).
    - unfold at_. by rewrite same_heap. }
  rewrite (bind_eq _ _ _ _ _ E1). rewrite Ha, Hb, Hd. cbn [from_option].
  rewrite !ret_bind, (bind_eq _ _ _ _ _ (setf_at _ _ _ _)).
  rewrite !ret_bind, (bind_eq _ _ _ _ _ (setf_at _ _ _ _)).
  rewrite !ret_bind, (bind_eq _ _ _ _ _ (setf_at _ _ _ _)).
  rewrite (bind_eq _ _ _ _ _ (operand_at s1 id ex mm wb _ rx rm rw a
    (λ u r, r <| alu_src_a := u |>) _ _ (Hs1 _) eq_refl)).
  cbv beta.
  match goal with |- context [at_ s1 id ?x] => set (r2 := x) end.
  rewrite (bind_eq _ _ _ _ _ (decode_immediate s1 id r2 i)). set (r3 := dec_imm i r2).
  set (r4 := let r := if uses_shamt i then r3 <| alu_src_b := PShamt id |> else r3 in
             if uses_imm i then r <| alu_src_b := PImm id |> else r).
  assert (E4 : (when (uses_shamt i) (setf id (λ r, r <| alu_src_b := PShamt id |>));;
       when (uses_imm i) (setf id (λ r, r <| alu_src_b := PImm id |>));;
       mret false) (at_ s1 id r3) = Some (false, at_ s1 id r4, [])).
  { rewrite !(bind_eq _ _ _ _ _ (when_setf_at _ _ _ _ _)). done. }
  rewrite (bind_eq _ _ _ _ _ (operand_at s1 id ex mm wb _ rx rm rw b
    (λ u r, r <| alu_src_b := u |>) _ _ (Hs1 _) E4)).
  cbv beta.
  rewrite (bind_eq _ _ _ _ _ (when_forward_ex_at s1 id ex mm wb _ rx rm rw _ d
    (λ u r, r <| lwrl_reg_prev := u |>) (Hs1 _))).
  rewrite (bind_eq _ _ _ _ _ (decode_destination s1 id _ i d)).
  rewrite (bind_eq _ _ _ _ _ (when_forward_ex_at s1 id ex mm wb _ rx rm rw _ (rt i)
    (λ u r, r <| w_mem_data := u |>) (Hs1 _))).
  by rewrite load_hazard_eq.
Qed.

End Decode.

(** ** Forwarding *)

(** What an instruction past the decoding stage writes at the end: nothing, its
    own result or its own loaded datum. *)
Definition done_ok (p : Z) (r : PipelineRegs) : Prop :=
  (w_reg_data r = PNull ↔ dst r = NONE_REG) ∧ label (dst r) ∧
  (w_reg_data r = PNull ∨ w_reg_data r = PResult p ∨ w_reg_data r = PMem p).

Section Forwarding.
  Context {B : Type}.
  Implicit Types (s : t B).

(** The register file after the instruction at [p] has committed, and after
    those at [ps] have, the oldest first. *)
Definition commit s (regs : list Z) (p : Z) : option (list Z) :=
  (r ← heap s !! p;
   match w_reg_data r with
   | PNull => Some regs
   | u => v ← val s u; setz regs (dst r) v
   end)%stdpp.

Fixpoint committed s (regs : list Z) (ps : list Z) : option (list Z) :=
  match ps with
  | [] => Some regs
  | p :: ps => (regs' ← commit s regs p; committed s regs' ps)%stdpp
  end.

(** [s2] holds at [p] an instruction with the destination of [r]. *)
Definition same_dst s2 (p : Z) (r : PipelineRegs) : Prop :=
  ∃ r2, heap s2 !! p = Some r2 ∧ dst r2 = dst r ∧ w_reg_data r2 = w_reg_data r.

Lemma commit_spec s2 regs p r : done_ok p r → same_dst s2 p r → length regs = 32%nat →
  ∃ regs', commit s2 regs p = Some regs' ∧ length regs' = 32%nat ∧
    ∀ src, 0 ≤ src < 32 →
      nthz regs' src = if src =? dst r then val s2 (w_reg_data r) else nthz regs src.
Proof.
  intros (Hn & Hl & Hw) (r2 & Hr2 & Hd & Hw2) Hlen. unfold commit. rewrite Hr2. cbn [mbind option_bind].
  rewrite Hw2, Hd. unfold label, NONE_REG in *.
  assert (Hdone : ∀ v, dst r ≠ 32 → val s2 (w_reg_data r) = Some v →
    ∃ regs', setz regs (dst r) v = Some regs' ∧ length regs' = 32%nat ∧
      ∀ src, 0 ≤ src < 32 →
        nthz regs' src = if src =? dst r then val s2 (w_reg_data r) else nthz regs src).
  { intros v Hne Hv. rewrite Hv. eexists. split; [apply setz_Some; lia|].
    split; [by rewrite length_insert|]. intros src Hsrc. apply nthz_setz, setz_Some. lia. }
  assert (Hsome : ∀ u v, w_reg_data r = u → u ≠ PNull → val s2 u = Some v → dst r ≠ 32 ∧
    val s2 (w_reg_data r) = Some v) by (intros u v <- Hu Hv; split; [by rewrite <- Hn|done]).
  destruct Hw as [E | [E | E]].
  - rewrite E. exists regs. split_and!; [done..|]. intros src Hsrc. apply Hn in E.
    destruct (Z.eqb_spec src (dst r)); [lia|done].
  - destruct (Hsome _ (result r2) E) as [Hne Hv]; [done|simpl; by rewrite Hr2|].
    specialize (Hdone _ Hne Hv). rewrite E in Hv, Hdone |- *. cbv iota. rewrite Hv in Hdone |- *.
    cbn [mbind option_bind]. exact Hdone.
  - destruct (Hsome _ (r_mem_data r2) E) as [Hne Hv]; [done|simpl; by rewrite Hr2|].
    specialize (Hdone _ Hne Hv). rewrite E in Hv, Hdone |- *. cbv iota. rewrite Hv in Hdone |- *.
    cbn [mbind option_bind]. exact Hdone.
Qed.

Lemma forwarded_committed s2 ex mm wb rx rm rw : length (reg s2) = 32%nat →
  done_ok ex rx → done_ok mm rm → done_ok wb rw →
  same_dst s2 ex rx → same_dst s2 mm rm → same_dst s2 wb rw →
  ∃ regs, committed s2 (reg s2) [wb; mm; ex] = Some regs ∧ length regs = 32%nat ∧
    ∀ src, 0 ≤ src < 32 → val s2 (fst (forwarded rx rm rw src)) = nthz regs src.
Proof.
  intros Hlen Dx Dm Dw Sx Sm Sw. unfold committed.
  destruct (commit_spec s2 _ wb rw Dw Sw Hlen) as (regs1 & -> & Hl1 & H1). cbn [mbind option_bind].
  destruct (commit_spec s2 _ mm rm Dm Sm Hl1) as (regs2 & -> & Hl2 & H2). cbn [mbind option_bind].
  destruct (commit_spec s2 _ ex rx Dx Sx Hl2) as (regs3 & -> & Hl3 & H3). cbn [mbind option_bind].
  exists regs3. split_and!; [done..|]. intros src Hsrc.
  rewrite H3, H2, H1 by done. unfold forwarded.
  destruct (src =? dst rx); [done|]. destruct (src =? dst rm); [done|].
  by destruct (src =? dst rw).
Qed.

(** C2 forwarding: after an instruction is decoded, each of its source operands
    points to the value its register will have once the instructions before it,
    in WB, MEM and EX, have committed in program order, whatever values they
    compute in between; the instruction is held back exactly when one of them
    is the destination of a load in EX. *)
Theorem operands_forwarded s id ex mm wb r rx rm rw (Hs : holds s id ex mm wb r rx rm rw)
    (Dx : done_ok ex rx) (Dm : done_ok mm rm) (Dw : done_ok wb rw) :
  ∃ hazard s' r', decode_operands s = Some ((id, hazard), s', []) ∧ heap s' !! id = Some r' ∧
    decode_src_a (pl_instr r) = Some (src_a r') ∧ decode_src_b (pl_instr r) = Some (src_b r') ∧
    (hazard = true ↔ mem_read_op rx = true ∧ dst rx ≠ NONE_REG ∧
       (src_a r' = dst rx ∨ src_b r' = dst rx)) ∧
    ∀ s2, length (reg s2) = 32%nat → same_dst s2 ex rx → same_dst s2 mm rm → same_dst s2 wb rw →
      ∃ regs, committed s2 (reg s2) [wb; mm; ex] = Some regs ∧
        (src_a r' ≠ NONE_REG → val s2 (alu_src_a r') = nthz regs (src_a r')) ∧
        (src_b r' ≠ NONE_REG → val s2 (alu_src_b r') = nthz regs (src_b r')).
Proof.
  destruct (decode_src_a_Some (pl_instr r)) as [a Ha].
  destruct (decode_src_b_Some (pl_instr r)) as [b Hb].
  destruct (decode_dst_Some (pl_instr r)) as [d Hd].
  destruct (decoded_operands id (pl_instr r) rx rm rw a b d r eq_refl)
    as (Ea & Eb & _ & Pa & Pb & _).
  eexists _, _, (decoded id (pl_instr r) rx rm rw a b d r).
  split; [exact (decode_operands_eq s id ex mm wb r rx rm rw a b d Hs Ha Hb Hd)|].
  split; [apply heap_at|]. rewrite Ea, Eb. split; [done|]. split; [done|]. split.
  - unfold load_hazard. destruct (Z.eqb_spec a NONE_REG), (Z.eqb_spec b NONE_REG),
      (Z.eqb_spec a (dst rx)), (Z.eqb_spec b (dst rx)); rewrite andb_true_iff; simpl; intuition congruence.
  - intros s2 Hlen Sx Sm Sw.
    destruct (forwarded_committed s2 ex mm wb rx rm rw Hlen Dx Dm Dw Sx Sm Sw) as (regs & Hc & _ & Hv).
    exists regs. apply decode_src_a_label in Ha. apply decode_src_b_label in Hb.
    unfold label, NONE_REG in *. split; [done|]. split; intros Hne.
    + rewrite Pa by done. apply Hv. lia.
    + rewrite Pb by done. apply Hv. lia.
Qed.

End Forwarding.

(** A pipeline register of an instruction that was decoded. *)
Definition demo_reg (p i w_ d : Z) (u : uptr) (ld : bool) : PipelineRegs :=
  (PipelineRegs_ctor p 0 i) <| w_reg_data := u |> <| dst := d |> <| result := w_ |> <| mem_read_op := ld |>.

(** [addu r3, r1, r2] behind a load into r1 and an addition into r2. *)
Definition demo_state : t Demo.ideal :=
  let add_ := Demo.r_type 1 2 3 0 FUNCT_ADDU in
  (Demo.raw ∅) <| PL_REGS := [None; Some 1; Some 2; Some 3; Some 4] |>
    <| heap := {[ 1 := PipelineRegs_ctor 1 0 add_;
                  2 := demo_reg 2 (Demo.i_type OP_LW 0 1 0) 0 1 (PMem 2) true;
                  3 := demo_reg 3 (Demo.i_type OP_ADDIU 0 2 9) 9 2 (PResult 3) false;
                  4 := PipelineRegs_ctor 4 0 NOP_INSTR ]} |>.

Lemma operands_forwarded_witness : ∃ s',
  decode_operands demo_state = Some ((1, true), s', []) ∧
  committed s' (reg s') [4; 3; 2] = Some (<[2%nat := 9]> (replicate 32 0)).
Proof.
  destruct (operands_forwarded demo_state 1 2 3 4
    (PipelineRegs_ctor 1 0 (Demo.r_type 1 2 3 0 FUNCT_ADDU))
    (demo_reg 2 (Demo.i_type OP_LW 0 1 0) 0 1 (PMem 2) true)
    (demo_reg 3 (Demo.i_type OP_ADDIU 0 2 9) 9 2 (PResult 3) false)
    (PipelineRegs_ctor 4 0 NOP_INSTR)) as (h & s' & r' & E & Hr & _ & _ & Hz & _).
  - split; try reflexivity. split_and!; discriminate.
  - split_and!; [split; discriminate|split; vm_compute; congruence|by right; right].
  - split_and!; [split; discriminate|split; vm_compute; congruence|by right; left].
  - split_and!; [done|split; vm_compute; congruence|by left].
  - exists s'. assert (Eh : h = true) by (revert E; vm_compute; congruence).
    subst h. split; [exact E|]. revert E. vm_compute. intros [= <-]. reflexivity.
Defined.

End Pipeline.
