(* ===== verification/PipelineInv.v ===== *)
(** * PipelineInv: the invariant of the pipeline registers (cpu.cc)

    Seven pipeline registers are in use, five of them in the stages; the source
    deletes them by hand.  The invariant says that they are distinct live
    objects and that each writes its own result, and every cycle keeps it,
    whatever the memory system does. *)

From S2P Require Import Prelude Effects Types Mapper Cache CPZero ISA CPU Demo Pipeline.

Module PipelineInv.
Import ISA CPU Pipeline.

(** ** The part of the state the invariant is about *)

(** Its destination, its instruction and its pointers. *)
Record pkey := Key {
  k_w : uptr;
  k_dst : Z;
  k_instr : Z;
  k_a : uptr;
  k_b : uptr;
  k_mem : uptr;
  k_prev : uptr
}.
Definition key (r : PipelineRegs) : pkey :=
  Key (w_reg_data r) (dst r) (pl_instr r) (alu_src_a r) (alu_src_b r) (w_mem_data r) (lwrl_reg_prev r).
(** Of a new pipeline register at address [p]. *)
Definition new_key (p i : Z) : pkey := Key PNull NONE_REG i (PShamt p) (PShamt p) PNull PNull.

Record view := View {
  v_stages : list (option Z);
  v_late : Z;
  v_late_late : Z;
  v_next : Z;
  v_regs : nat;
  v_suspend : bool;
  v_heap : gmap Z pkey
}.
#[global] Instance view_eta : Eta view := λ v,
  View (v_stages v) (v_late v) (v_late_late v) (v_next v) (v_regs v) (v_suspend v) (v_heap v).

Definition view_of {B} (s : t B) : view :=
  View (PL_REGS s) (late_preg s) (late_late_preg s) (next_addr s) (length (reg s)) (suspend s)
    (key <$> heap s).

Definition same {B} (s s' : t B) : Prop := view_of s = view_of s'.
#[global] Instance same_preorder {B} : PreOrder (same (B := B)).
Proof. split; unfold same; [intros ?; done|intros ? ? ?; congruence]. Qed.

Section Same.
  Context {B : Type} `{MemPort B}.
  Variable me : Z.
  Implicit Types (s : t B) (p : Z).

Lemma same_on_exception e s : same s (on_exception me e s).
Proof. unfold on_exception. by destruct (_ =? _). Qed.

Lemma same_deliver {A} (m : M (t B) A) : keeps same m → keeps same (deliver me m).
Proof.
  intros Hm s a s' e. unfold deliver. destruct (m s) as [[[x s1] e1]|] eqn:E; [|done].
  intros [= <- <- <-]. transitivity s1; [by eapply Hm|]. clear.
  revert s1. induction e1 as [|ev e1 IH]; intros s1; simpl; [done|].
  transitivity (on_exception me ev s1); [apply same_on_exception|apply IH].
Qed.

Lemma same_on_cpzero {A} (m : M CPZero.t A) : keeps same (on_cpzero (B := B) me m).
Proof. apply same_deliver. by apply (keeps_zoom _ _ (λ _ _, True)). Qed.
Lemma same_on_mem {A} (m : M B A) : keeps same (on_mem me m).
Proof. apply same_deliver. by apply (keeps_zoom _ _ (λ _ _, True)). Qed.
Lemma same_in_cache {A} w (m : M (Cache.sys B) A) : keeps same (in_cache me w m).
Proof.
  apply same_deliver. intros s a s' e. destruct (cache_of w s) as [c|]; [|done].
  destruct (m _) as [[[x r] e']|]; [|done]. intros [= <- <- <-]. by destruct w.
Qed.
Lemma same_on_cache {A} w (m : M Cache.t A) : keeps same (on_cache (B := B) me w m).
Proof. apply same_in_cache. Qed.

Lemma same_setf p f : (∀ r, key (f r) = key r) → keeps same (setf (B := B) p f).
Proof.
  intros Hf s a s' e. unfold setf, zoom_key. destruct (heap s !! p) as [r|] eqn:Hp; [|done].
  intros [= <- <- <-]. unfold same, view_of. simpl. f_equal.
  rewrite fmap_insert, Hf. symmetry. apply insert_id. by rewrite lookup_fmap, Hp.
Qed.
Lemma same_field {A} p (f : PipelineRegs → A) : keeps same (field (B := B) p f).
Proof. intros s a s' e (r & _ & _ & -> & _)%field_Some. done. Qed.
Lemma same_stage i : keeps same (stage (B := B) i).
Proof. intros s a s' e (_ & -> & _)%stage_Some. done. Qed.
Lemma same_deref u : keeps same (deref (B := B) u).
Proof. intros s a s' e (_ & -> & _)%deref_Some. done. Qed.
Lemma same_exception code mode cop : keeps same (exception (B := B) code mode cop).
Proof. unfold exception. keeps_tac. Qed.
Lemma same_aset_reg i v : keeps same (aset (S := t B) reg i v).
Proof.
  intros s a s' e. unfold aset. rewrite gets_bind.
  destruct (setz (reg s) i v) as [l|] eqn:E; [|done].
  intros [= <- <- <-]. unfold same, view_of. simpl. by rewrite (setz_length _ _ _ _ E).
Qed.

End Same.

#[export] Hint Resolve same_on_cpzero same_on_mem same_in_cache same_on_cache same_field same_stage
  same_deref same_exception same_aset_reg : keeps.
#[export] Hint Extern 1 (keeps same (setf _ _)) => (apply same_setf; reflexivity) : keeps.

Section Stages.
  Context {B : Type} `{MemPort B}.
  Variable calculateIP : B → Z.
  Variable cfg : config.
  Variable now : Z.
  Variable host : bool.
  Variable me : Z.
  Variable junk : bool.
  Notation M := (M (t B)).

Lemma same_buffer_signal p : keeps same (buffer_signal (B := B) p).
Proof. unfold buffer_signal. keeps_tac. Qed.
Lemma same_store_exception p : keeps same (store_exception (B := B) p).
Proof. unfold store_exception, buffer_signal. keeps_tac. Qed.
Lemma same_hw_ip : keeps same (hw_ip (B := B) calculateIP).
Proof. unfold hw_ip. keeps_tac. Qed.

Lemma same_take_interrupt : keeps same (take_interrupt (B := B) calculateIP).
Proof. unfold take_interrupt, hw_ip, buffer_signal. keeps_tac. Qed.
Lemma same_mul_div_step : keeps same (mul_div_step (B := B)).
Proof. unfold mul_div_step. keeps_tac. Qed.
Lemma same_cop_step : keeps same (cop_step (B := B)).
Proof. unfold cop_step. keeps_tac. Qed.
Lemma same_pre_execute : keeps same (pre_execute (B := B)).
Proof. unfold pre_execute, ex_field. keeps_tac. Qed.
Lemma same_cache_op_mux op : keeps same (cache_op_mux (B := B) op).
Proof. unfold cache_op_mux. keeps_tac. Qed.
Lemma same_data_cache : keeps same (data_cache (B := B)).
Proof. unfold data_cache. keeps_tac. Qed.
Hint Resolve same_buffer_signal same_store_exception same_hw_ip same_cache_op_mux same_data_cache : keeps.

Lemma same_pre_mem_access : keeps same (pre_mem_access (B := B) now me junk).
Proof. unfold pre_mem_access. keeps_tac. Qed.

Lemma same_mem_access : keeps same (mem_access (B := B) cfg now host me junk).
Proof.
  unfold mem_access, store_cached, store_uncached, load_cached, load_uncached, cache_store_bytes,
    cache_store_byte, byteswapped. keeps_tac.
Qed.

Lemma same_reg_commit : keeps same (reg_commit (B := B)).
Proof.
  unfold reg_commit. repeat first [apply same_aset_reg | keeps1 | solve [eauto with keeps nocore]].
Qed.

Lemma same_cop_unimpl n : keeps same (cop_unimpl (B := B) me n).
Proof. unfold cop_unimpl. keeps_tac. Qed.
Hint Resolve same_cop_unimpl : keeps.

Lemma same_alu2 f : keeps same (alu2 (B := B) f).
Proof. unfold alu2, ex_deref, ex_result. keeps_tac. Qed.
Lemma same_ov_exec f : keeps same (ov_exec (B := B) f).
Proof. unfold ov_exec, ex_deref, ex_result. keeps_tac. Qed.
Hint Resolve same_alu2 same_ov_exec : keeps.

Lemma same_funct_table f m : funct_table (B := B) f = Some m → keeps same m.
Proof.
  unfold funct_table. repeat case_match; intros [= <-];
    first [apply same_alu2 | apply same_ov_exec | apply same_exception |
      unfold mfhi_exec, mthi_exec, mflo_exec, mtlo_exec, mult_exec, multu_exec, div_exec, divu_exec,
        write_hi_lo, ex_deref, ex_result; keeps_tac].
Qed.

Lemma same_exec_table op m : exec_table (B := B) me op = Some m → keeps same m.
Proof.
  unfold exec_table. repeat case_match; intros [= <-];
    first [apply same_alu2 | apply same_ov_exec | apply same_cop_unimpl |
      unfold lui_exec, ex_deref, ex_result; solve [keeps_tac] | idtac].
  unfold funct_exec, ex_field. apply (keeps_bind same); [keeps_tac|intros i].
  destruct (funct_table (funct i)) eqn:E; [by eapply same_funct_table|apply (keeps_ret _)].
Qed.

Lemma same_execute : keeps same (execute (B := B) me).
Proof.
  unfold execute. apply (keeps_bind same); [auto with keeps|intros ex].
  apply (keeps_bind same); [auto with keeps|intros i].
  apply (keeps_bind same); [|intros; keeps_tac].
  destruct (exec_table me (opcode i)) eqn:E; [by eapply same_exec_table|apply (keeps_ret _)].
Qed.

End Stages.
(** ** The invariant *)

(** [u] points to a register of the register file or into one of the pipeline
    registers [ps]. *)
Definition targets (ps : list Z) (u : uptr) : Prop :=
  match u with
  | PNull => False
  | PReg r => 0 ≤ r < 32
  | PResult q | PMem q | PShamt q | PImm q => q ∈ ps
  end.

Definition is_lwlr (i : Z) : bool := (opcode i =? OP_LWL) || (opcode i =? OP_LWR).

(** The operands of the ALU, and the pointers that a store or an unaligned load
    will follow in the memory stage; an unaligned load into register 0 has none,
    or one just behind the register file. *)
Definition operands (ps : list Z) (k : pkey) : Prop := targets ps (k_a k) ∧ targets ps (k_b k).
Definition memory_data (ps : list Z) (k : pkey) : Prop :=
  (flag_at mem_write_flag (opcode (k_instr k)) = true → targets ps (k_mem k)) ∧
  (is_lwlr (k_instr k) = true →
     if rt (k_instr k) =? 0 then k_prev k = PNull ∨ k_prev k = PReg NONE_REG
     else targets ps (k_prev k)).

(** An instruction that was fetched but not decoded writes nothing. *)
Definition key_new (p : Z) (k : pkey) : Prop := ∃ i, k = new_key p i.

Definition key_self (p : Z) (w : uptr) : Prop := w = PNull ∨ w = PResult p ∨ w = PMem p.

(** Past the decoding stage: [done_ok]. *)
Definition key_ok (p : Z) (k : pkey) : Prop :=
  (k_w k = PNull ↔ k_dst k = NONE_REG) ∧ label (k_dst k) ∧ key_self p (k_w k).

(** Decoded, with the pipeline registers [ps] before it, the youngest first. *)
Definition passed (p : Z) (ps : list Z) (k : pkey) : Prop :=
  key_ok p k ∧ operands (p :: ps) k ∧ memory_data (take 1 ps) k.

(** In the decoding stage, before [pre_decode] of the cycle: the instruction may
    have been decoded in an earlier cycle, and the pointers it will not set
    again are still those of the constructor. *)
Definition key_id (p : Z) (ps : list Z) (k : pkey) : Prop :=
  key_self p (k_w k) ∧ (k_w k ≠ PNull → decode_dst (k_instr k) ≠ Some NONE_REG) ∧
  (decode_src_a (k_instr k) = Some NONE_REG → k_a k = PShamt p) ∧
  (decode_src_b (k_instr k) = Some NONE_REG → uses_shamt (k_instr k) = false →
   uses_imm (k_instr k) = false → k_b k = PShamt p).

(** Deleted addresses are not used again. *)
Definition fresh_ok (G : gset Z) (v : view) : Prop :=
  (∀ p k, v_heap v !! p = Some k → p < v_next v) ∧
  (∀ p, p ∈ G → p < v_next v ∧ v_heap v !! p = None).

(** [G] are addresses of deleted pipeline registers, [P] is what holds of the
    decoding stage with the stages before it; [full] says that the fetch stage
    holds an instruction. *)
Record wf_gen (G : gset Z) (P : Z → list Z → pkey → Prop) (full : bool) (v : view) : Prop := {
  wf_regs : v_regs v = 32%nat;
  wf_fresh : fresh_ok G v;
  wf_late : is_Some (v_heap v !! v_late v);
  wf_late_late : is_Some (v_heap v !! v_late_late v);
  wf_stages : ∃ o id ex mm wb,
    v_stages v = [o; Some id; Some ex; Some mm; Some wb] ∧
    NoDup (option_list o ++ [id; ex; mm; wb; v_late v; v_late_late v]) ∧
    (full = true → is_Some o) ∧
    (∀ p, o = Some p → ∃ k, v_heap v !! p = Some k ∧ key_new p k) ∧
    (∃ k, v_heap v !! id = Some k ∧ P id [ex; mm; wb] k) ∧
    (∃ k, v_heap v !! ex = Some k ∧ passed ex [mm; wb; v_late v] k) ∧
    (∃ k, v_heap v !! mm = Some k ∧ key_ok mm k ∧ memory_data [wb] k) ∧
    (∃ k, v_heap v !! wb = Some k ∧ key_ok wb k)
}.

(** The invariant between two cycles. *)
Definition pl_wf {B} (s : t B) : Prop := wf_gen ∅ key_id false (view_of s).

Lemma key_new_ok p k : key_new p k → key_ok p k.
Proof. intros [i ->]. unfold key_ok, key_self, new_key, label, NONE_REG. simpl. split_and!; [done|lia|lia|auto]. Qed.
Lemma key_new_id p ps k : key_new p k → key_id p ps k.
Proof. intros [i ->]. unfold key_id, key_self. simpl. auto. Qed.

(** A bubble reads nothing but itself. *)
Lemma bubble_passed p ps : passed p ps (new_key p NOP_INSTR).
Proof.
  split; [by apply key_new_ok; eexists|]. split; [by split; apply list_elem_of_here|]. by split.
Qed.
Lemma bubble_id p ps : key_id p ps (new_key p NOP_INSTR).
Proof. apply key_new_id. by eexists. Qed.

Lemma targets_cons p ps u : targets ps u → targets (p :: ps) u.
Proof. destruct u; simpl; rewrite ?elem_of_cons; auto. Qed.

(** One stage on, its pointers lead to the registers that moved with it. *)
Lemma passed_memory p q ps k : passed p (q :: ps) k → memory_data [q] k.
Proof. by intros (_ & _ & Hm). Qed.

Lemma wf_gen_weaken G (P Q : Z → list Z → pkey → Prop) b b' v :
  (∀ p ps k, P p ps k → Q p ps k) → (b' = true → b = true) → wf_gen G P b v → wf_gen G Q b' v.
Proof.
  intros HPQ Hb [H1 H2 H3 H4 (o & id & ex & mm & wb & E & Hd & Ho & Hi & (k & Hk & HP) & Hr)].
  split; [done..|]. exists o, id, ex, mm, wb. split; [done|]. split; [done|]. split; [auto|].
  split; [done|]. split; [|done]. exists k. auto.
Qed.

(** ** Triples over views *)

Definition triple {B A} (Pre : view → Prop) (m : M (t B) A) (Post : A → view → Prop) : Prop :=
  ∀ s a s' e, m s = Some (a, s', e) → Pre (view_of s) → Post a (view_of s').

Section Triples.
  Context {B : Type}.
  Notation M := (M (t B)).
  Implicit Types Pre : view → Prop.

Lemma triple_bind {A C} Pre (Mid : A → view → Prop) (Post : C → view → Prop) (m : M A) f :
  triple Pre m Mid → (∀ a, triple (Mid a) (f a) Post) → triple Pre (bindM m f) Post.
Proof.
  intros Hm Hf s c s' e (a & s1 & e1 & e2 & E1 & E2 & ->)%mbind_Some Hs.
  eapply Hf; [exact E2|]. by eapply Hm.
Qed.
Lemma triple_same {A} Pre (m : M A) : keeps same m → triple Pre m (λ _, Pre).
Proof. intros Hm s a s' e E Hs. unfold keeps, same in Hm. by rewrite <- (Hm _ _ _ _ E). Qed.
Lemma triple_seq {A C} Pre (Post : C → view → Prop) (m : M A) f :
  keeps same m → (∀ a, triple Pre (f a) Post) → triple Pre (bindM m f) Post.
Proof. intros Hm. apply triple_bind, triple_same, Hm. Qed.
Lemma triple_ret {A} Pre (Post : A → view → Prop) a :
  (∀ v, Pre v → Post a v) → triple Pre (mret a : M A) Post.
Proof. intros HP s a' s' e [= <- <- <-]. auto. Qed.
Lemma triple_conseq {A} Pre Pre' (Post Post' : A → view → Prop) (m : M A) :
  triple Pre m Post → (∀ v, Pre' v → Pre v) → (∀ a v, Post a v → Post' a v) → triple Pre' m Post'.
Proof. intros Hm HP HQ s a s' e E Hs. eapply HQ, Hm; [exact E|auto]. Qed.
Lemma triple_pure {A} (φ : Prop) Pre (Post : A → view → Prop) (m : M A) :
  (φ → triple Pre m Post) → triple (λ v, φ ∧ Pre v) m Post.
Proof. intros Hm s a s' e E [Hφ Hs]. by eapply Hm. Qed.
Lemma triple_when Pre b (m : M unit) :
  triple Pre m (λ _, Pre) → triple Pre (when b m) (λ _, Pre).
Proof. destruct b; [done|]. intros _. by apply triple_ret. Qed.

(** ** Allocation *)

Lemma new_preg_eq (s : t B) pc_ i : new_preg pc_ i s =
  Some (next_addr s, s <| heap ::= <[next_addr s := PipelineRegs_ctor (next_addr s) pc_ i]> |>
                       <| next_addr := next_addr s + 1 |>, []).
Proof. reflexivity. Qed.

Lemma new_stage_facts (s : t B) i pc_ ins l : setz (PL_REGS s) i (Some (next_addr s)) = Some l →
  ∃ s1, new_stage i pc_ ins s = Some (next_addr s, s1, []) ∧ PL_REGS s1 = l ∧
    next_addr s1 = next_addr s + 1 ∧ pc s1 = pc s ∧
    heap s1 = <[next_addr s := PipelineRegs_ctor (next_addr s) pc_ ins]> (heap s) ∧
    reg s1 = reg s.
Proof.
  intros Hl. eexists. split.
  - unfold new_stage. rewrite (bind_eq _ _ _ _ _ (new_preg_eq s pc_ ins)).
    unfold set_stage, aset. rewrite bind_assoc, gets_bind. cbn [PL_REGS upd setter_of].
    rewrite Hl. reflexivity.
  - by split_and!.
Qed.

Definition v_alloc (i : Z) (v : view) : view :=
  v <| v_heap ::= <[v_next v := new_key (v_next v) i]> |> <| v_next := v_next v + 1 |>.

Lemma triple_new_preg v0 pc_ i :
  triple (λ v, v = v0) (new_preg (B := B) pc_ i) (λ p v, p = v_next v0 ∧ v = v_alloc i v0).
Proof.
  intros s a s' e E <-. rewrite new_preg_eq in E. injection E as <- <- <-. split; [done|].
  unfold view_of, v_alloc. simpl. f_equal. exact (fmap_insert key _ _ _).
Qed.

Lemma triple_set_stage v0 i o :
  triple (λ v, v = v0) (set_stage (B := B) i o)
    (λ _ v, ∃ l, setz (v_stages v0) i o = Some l ∧ v = v0 <| v_stages := l |>).
Proof.
  intros s a s' e E <-. unfold set_stage, aset in E. rewrite gets_bind in E.
  destruct (setz (PL_REGS s) i o) as [l|] eqn:El; [|done]. injection E as <- <- <-.
  exists l. by split.
Qed.

Lemma triple_new_stage v0 i pc_ ins :
  triple (λ v, v = v0) (new_stage (B := B) i pc_ ins)
    (λ p v, p = v_next v0 ∧ ∃ l, setz (v_stages v0) i (Some (v_next v0)) = Some l ∧
       v = (v_alloc ins v0) <| v_stages := l |>).
Proof.
  unfold new_stage. eapply triple_bind; [apply triple_new_preg|]. intros p. cbv beta.
  apply triple_pure. intros ->.
  eapply triple_bind; [apply triple_set_stage|]. intros ?. apply triple_ret. auto.
Qed.

End Triples.

(** ** The operations that replace pipeline registers *)

(** The registers a new pipeline register does not touch. *)
Lemma alloc_lookup i v p k : (∀ q k, v_heap v !! q = Some k → q < v_next v) →
  v_heap v !! p = Some k → v_heap (v_alloc i v) !! p = Some k.
Proof.
  intros Hf Hp. unfold v_alloc. simpl. specialize (Hf _ _ Hp). by rewrite lookup_insert_ne by lia.
Qed.

Lemma alloc_fresh G i v : fresh_ok G v → fresh_ok G (v_alloc i v).
Proof.
  intros [Hf Hg]. split; unfold v_alloc; simpl.
  - intros q k. destruct (decide (q = v_next v)) as [->|Hne]; [lia|].
    rewrite lookup_insert_ne by done. intros Hq. specialize (Hf _ _ Hq). lia.
  - intros q Hq. destruct (Hg _ Hq) as [Hlt Hn]. split; [lia|]. by rewrite lookup_insert_ne by lia.
Qed.

Lemma alloc_new i v : v_heap (v_alloc i v) !! v_next v = Some (new_key (v_next v) i).
Proof. apply lookup_insert_eq. Qed.

(** [PL_REGS[IF_STAGE] = new PipelineRegs(...)] *)
Lemma wf_new_if {B} G P b v0 pc_ ins : wf_gen G P b v0 →
  triple (λ v, v = v0) (new_stage (B := B) IF_STAGE pc_ ins) (λ _ v, wf_gen G P true v).
Proof.
  intros Hw. eapply triple_conseq; [apply (triple_new_stage v0)|auto|].
  intros p v (-> & l & Hl & ->).
  destruct Hw as [H1 HG [k3 H3] [k4 H4]
    (o & id & ex & mm & wb & E & Hd & _ & _ & (ki & Hi & HP) & (kx & Hx & Ox) & (km & Hm & Om) & (kw & Hw & Ow))].
  rewrite E in Hl. injection Hl as <-. pose proof (proj1 HG) as H2.
  pose proof (alloc_fresh G ins v0 HG) as Hf.
  assert (Ha : ∀ q k, v_heap v0 !! q = Some k → v_heap (v_alloc ins v0) !! q = Some k)
    by (intros; by apply alloc_lookup).
  split; simpl; [done|exact Hf|eauto|eauto|].
  exists (Some (v_next v0)), id, ex, mm, wb. split; [done|]. split.
  { simpl. apply NoDup_cons. split; [|by apply NoDup_app in Hd as (_ & _ & Hd)].
    assert (Hne : ∀ q k, v_heap v0 !! q = Some k → v_next v0 ≠ q)
      by (intros q k Hq Heq; specialize (H2 _ _ Hq); lia).
    intros Hin. repeat (apply elem_of_cons in Hin as [Hin|Hin]; [revert Hin; by eapply Hne|]).
    by apply elem_of_nil in Hin. }
  split; [eauto|]. split.
  { intros p [= <-]. eexists. split; [apply alloc_new|]. by exists ins. }
  split_and!; eauto.
Qed.

(** What a newly allocated processor guarantees, whatever its memory held. *)
Definition allocated (G : gset Z) (v : view) : Prop :=
  v_regs v = 32%nat ∧ fresh_ok G v ∧ length (v_stages v) = 5%nat.

Lemma wf_gen_allocated G P b v : wf_gen G P b v → allocated G v.
Proof. intros [H1 H2 _ _ (o & id & ex & mm & wb & El & _)]. split_and!; [done..|by rewrite El]. Qed.

Definition all_new (P : Z → list Z → pkey → Prop) : Prop := ∀ p ps, P p ps (new_key p NOP_INSTR).

(** [volatilize_pipeline] allocates seven fresh registers. *)
Lemma volatilize_run {B} (s : t B) s' u e : length (PL_REGS s) = 5%nat →
  volatilize_pipeline s = Some (u, s', e) →
  let n := next_addr s in let r p := PipelineRegs_ctor p (u32 (pc s + 4)) NOP_INSTR in
  PL_REGS s' = [Some n; Some (n + 1); Some (n + 1 + 1); Some (n + 1 + 1 + 1); Some (n + 1 + 1 + 1 + 1)] ∧
  late_preg s' = n + 1 + 1 + 1 + 1 + 1 ∧ late_late_preg s' = n + 1 + 1 + 1 + 1 + 1 + 1 ∧
  next_addr s' = n + 1 + 1 + 1 + 1 + 1 + 1 + 1 ∧ reg s' = reg s ∧
  heap s' = <[n + 1 + 1 + 1 + 1 + 1 + 1 := r (n + 1 + 1 + 1 + 1 + 1 + 1)]>
      (<[n + 1 + 1 + 1 + 1 + 1 := r (n + 1 + 1 + 1 + 1 + 1)]>
      (<[n + 1 + 1 + 1 + 1 := r (n + 1 + 1 + 1 + 1)]> (<[n + 1 + 1 + 1 := r (n + 1 + 1 + 1)]>
      (<[n + 1 + 1 := r (n + 1 + 1)]> (<[n + 1 := r (n + 1)]> (<[n := r n]> (heap s))))))).
Proof.
  intros Hlen E n r.
  destruct (PL_REGS s) as [|o0 [|o1 [|o2 [|o3 [|o4 [|]]]]]] eqn:El; try discriminate Hlen. clear Hlen.
  unfold volatilize_pipeline in E. rewrite gets_bind in E.
  match type of E with (bindM (for_range 0 5 ?f) ?k) _ = _ =>
    change (for_range 0 5 f) with
      (f 0;; f 1;; f 2;; f 3;; f 4;; mret ()) in E end.
  rewrite !bind_assoc in E.
  destruct (new_stage_facts s 0 (u32 (pc s + 4)) NOP_INSTR _ ltac:(rewrite El; reflexivity))
    as (s1 & N1 & P1 & X1 & C1 & H'1 & R1).
  rewrite (bind_eq _ _ _ _ _ N1), ret_bind, ?bind_assoc in E. clear N1.
  destruct (new_stage_facts s1 1 (u32 (pc s + 4)) NOP_INSTR _ ltac:(rewrite P1; reflexivity))
    as (s2 & N2 & P2 & X2 & C2 & H'2 & R2).
  rewrite (bind_eq _ _ _ _ _ N2), ret_bind, ?bind_assoc in E. clear N2.
  destruct (new_stage_facts s2 2 (u32 (pc s + 4)) NOP_INSTR _ ltac:(rewrite P2; reflexivity))
    as (s3 & N3 & P3 & X3 & C3 & H'3 & R3).
  rewrite (bind_eq _ _ _ _ _ N3), ret_bind, ?bind_assoc in E. clear N3.
  destruct (new_stage_facts s3 3 (u32 (pc s + 4)) NOP_INSTR _ ltac:(rewrite P3; reflexivity))
    as (s4 & N4 & P4 & X4 & C4 & H'4 & R4).
  rewrite (bind_eq _ _ _ _ _ N4), ret_bind, ?bind_assoc in E. clear N4.
  destruct (new_stage_facts s4 4 (u32 (pc s + 4)) NOP_INSTR _ ltac:(rewrite P4; reflexivity))
    as (s5 & N5 & P5 & X5 & C5 & H'5 & R5).
  rewrite (bind_eq _ _ _ _ _ N5), ret_bind, ret_bind in E. clear N5.
  rewrite (bind_eq _ _ _ _ _ (new_preg_eq _ _ _)) in E.
  unfold assign in E. erewrite bind_eq in E by reflexivity.
  rewrite (bind_eq _ _ _ _ _ (new_preg_eq _ _ _)) in E.
  apply (f_equal (λ o, match o with Some (_, x, _) => x | None => s' end)) in E.
  rewrite <- E. clear E.
  cbn [PL_REGS late_preg late_late_preg next_addr reg heap upd setter_of].
  simpl in P5. rewrite P5, R5, R4, R3, R2, R1, H'5, H'4, H'3, H'2, H'1, X5, X4, X3, X2, X1.
  by split_and!.
Qed.
Lemma wf_volatilize {B} G P' v0 : all_new P' → allocated G v0 →
  triple (λ v, v = v0) (volatilize_pipeline (B := B)) (λ _ v, wf_gen G P' true v).
Proof.
  intros HP' (H1 & [H2 HG] & Hlen) s a s' e E <-. simpl in *.
  destruct (volatilize_run s s' a e Hlen E) as (E1 & E2 & E3 & E4 & E5 & E6). clear E.
  set (n := next_addr s) in *.
  assert (Hk : ∀ p, p < n ∨ p >= n + 7 ∨ v_heap (view_of s') !! p = Some (new_key p NOP_INSTR)).
  { intros p. destruct (decide (p < n)); [auto|]. destruct (decide (n + 7 ≤ p)); [right; left; lia|]. right. right.
    simpl. rewrite lookup_fmap, E6.
    assert (Hp : p = n + 1 + 1 + 1 + 1 + 1 + 1 ∨ p = n + 1 + 1 + 1 + 1 + 1 ∨ p = n + 1 + 1 + 1 + 1 ∨
      p = n + 1 + 1 + 1 ∨ p = n + 1 + 1 ∨ p = n + 1 ∨ p = n) by lia.
    destruct Hp as [-> | [-> | [-> | [-> | [-> | [-> | ->]]]]]];
      repeat first [rewrite lookup_insert_eq | rewrite lookup_insert_ne by lia]; done. }
  assert (Hin : ∀ p, n ≤ p < n + 7 → v_heap (view_of s') !! p = Some (new_key p NOP_INSTR)).
  { intros p Hp. destruct (Hk p) as [? | [? | ?]]; [lia|lia|done]. }
  assert (Hnew : ∀ p, key_new p (new_key p NOP_INSTR)) by (by eexists).
  split; simpl.
  - by rewrite E5.
  - split; simpl.
    + intros p k. rewrite lookup_fmap, E6, E4. intros Hp.
      destruct (decide (p < n + 7)); [lia|]. rewrite !lookup_insert_ne in Hp by lia.
      assert (v_heap (view_of s) !! p = Some k) as Hq by (simpl; by rewrite lookup_fmap).
      specialize (H2 _ _ Hq). simpl in H2. fold n in H2. lia.
    + intros p Hp. destruct (HG _ Hp) as [Hlt Hn]. simpl in Hlt, Hn. fold n in Hlt.
      rewrite E4, E6, lookup_fmap, !lookup_insert_ne by lia. split; [lia|].
      by rewrite lookup_fmap in Hn.
  - rewrite E2. eexists. apply (Hin (n + 1 + 1 + 1 + 1 + 1)). lia.
  - rewrite E3. eexists. apply (Hin (n + 1 + 1 + 1 + 1 + 1 + 1)). lia.
  - rewrite E1, E2, E3. eexists _, _, _, _, _. split; [reflexivity|]. split.
    { simpl. repeat (apply NoDup_cons; split; [set_solver by lia|]). apply NoDup_nil_2. }
    split; [eauto|]. split.
    { intros p [= <-]. eexists. split; [apply Hin; lia|done]. }
    split_and!; (eexists; split; [apply Hin; lia|]);
      [apply HP'|apply bubble_passed|split; [by apply key_new_ok|by split]|by apply key_new_ok].
Qed.

Ltac in_list := apply elem_of_app; right; rewrite !elem_of_cons; tauto.

(** The decoding stage alone can be changed. *)
Lemma wf_set_id G (P Q : Z → list Z → pkey → Prop) b v p k :
  wf_gen G P b v → nthz (v_stages v) ID_STAGE = Some (Some p) →
  (∀ o ex mm wb k0, v_stages v = [o; Some p; Some ex; Some mm; Some wb] →
     v_heap v !! p = Some k0 → P p [ex; mm; wb] k0 → Q p [ex; mm; wb] k) →
  wf_gen G Q b (v <| v_heap ::= <[p := k]> |>).
Proof.
  intros [H1 [H2 HG] H3 H4 (o & id & ex & mm & wb & El & Hd & Hf & Hnew & (ki & Hi & Pi) & (kx & Hx & Ox) &
    (km & Hm & Om) & (kw & Hw & Ow))] Hp HQ.
  rewrite El in Hp. injection Hp as <-.
  assert (Hdiff : ∀ q, q ∈ option_list o ++ [ex; mm; wb; v_late v; v_late_late v] → q ≠ id).
  { intros q Hq ->. revert Hd. rewrite NoDup_app. intros (_ & Hd1 & Hd2).
    apply elem_of_app in Hq as [Hq|Hq]; [apply (Hd1 _ Hq), list_elem_of_here|].
    by apply NoDup_cons in Hd2 as [Hd2 _]. }
  assert (Hold : ∀ q k', q ≠ id → v_heap v !! q = Some k' →
    <[id:=k]> (v_heap v) !! q = Some k') by (intros; by rewrite lookup_insert_ne).
  split; simpl; [done| | | |].
  - split; simpl.
    + intros q k'. destruct (decide (q = id)) as [->|Hq]; [intros _; by eapply H2|].
      rewrite lookup_insert_ne by done. apply H2.
    + intros q Hq. destruct (HG _ Hq) as [Hlt Hn]. split; [done|].
      rewrite lookup_insert_ne; [done|]. intros <-. congruence.
  - rewrite lookup_insert_ne; [done|]. apply not_eq_sym, Hdiff; in_list.
  - rewrite lookup_insert_ne; [done|]. apply not_eq_sym, Hdiff; in_list.
  - exists o, id, ex, mm, wb. split; [done|]. split; [done|]. split; [done|]. split.
    { intros q ->. destruct (Hnew q eq_refl) as (k' & Hk' & ?). exists k'. split; [|done].
      apply Hold; [|done]. apply Hdiff, elem_of_app. left. apply list_elem_of_here. }
    split; [exists k; split; [apply lookup_insert_eq|by eapply HQ]|].
    split_and!; [exists kx|exists km|exists kw]; (split; [apply Hold; [apply Hdiff; in_list|done]|done]).
Qed.

(** A triple from a predicate on the view, one view at a time. *)
Lemma triple_view {B A} (Pre : view → Prop) (m : M (t B) A) (Post : A → view → Prop) :
  (∀ v0, Pre v0 → triple (λ v, v = v0) m Post) → triple Pre m Post.
Proof. intros Hm s a s' e E Hs. by eapply (Hm _ Hs). Qed.

Section Cycle.
  Context {B : Type} `{MemPort B}.
  Variable calculateIP : B → Z.
  Variable cfg : config.
  Variable now : Z.
  Variable host : bool.
  Variable me : Z.
  Variable junk : bool.
  Variable G : gset Z.
  Notation M := (M (t B)).

Hint Resolve same_buffer_signal same_store_exception same_hw_ip same_data_cache : keeps.

(** [triple_seq] over the statements that touch no pipeline register. *)
Ltac seq := eapply triple_seq; [solve [keeps_tac]|intros ?].

Lemma wf_exc_handle P b p : all_new P →
  triple (wf_gen G P b) (exc_handle (B := B) calculateIP cfg now me p) (λ _, wf_gen G P b).
Proof.
  intros HP. unfold exc_handle. seq. destruct (bool_decide _); [by apply triple_ret|].
  cbv zeta. unfold hw_ip. do 12 seq.
  eapply triple_conseq with (Post := λ _, wf_gen G P true); [|done|].
  - apply triple_view. intros v0 Hv0. by eapply wf_volatilize, wf_gen_allocated.
  - intros _ v. by apply wf_gen_weaken.
Qed.

Lemma wf_fetch P d :
  triple (wf_gen G P false) (fetch (B := B) now me junk d) (λ miss, wf_gen G P (negb miss)).
Proof.
  assert (Hnew : ∀ b pc_ ins, triple (wf_gen G P b) (new_stage (B := B) IF_STAGE pc_ ins)
    (λ _, wf_gen G P true)).
  { intros. apply triple_view. intros v0 Hv0. by eapply wf_new_if. }
  assert (Hmiss : ∀ v, wf_gen G P true v → wf_gen G P (negb true) v).
  { intros v. apply wf_gen_weaken; [auto|done]. }
  unfold fetch. seq. cbv zeta. seq. seq. destruct a1 as [real_pc c]. seq. destruct a1.
  - eapply triple_bind; [apply Hnew|]. intros p. do 2 seq. apply triple_ret. apply Hmiss.
  - seq. destruct a1; [by apply triple_ret|]. seq.
    eapply triple_bind; [apply Hnew|]. intros ?. seq.
    eapply triple_bind with (Mid := λ _, wf_gen G P true); [|intros ?; by apply triple_ret].
    apply triple_when. eapply triple_bind; [apply Hnew|]. intros p. seq.
    apply (triple_same (B := B)). keeps_tac.
Qed.

Lemma wf_cache_exceptions P b : all_new P →
  triple (wf_gen G P b) (cache_exceptions (B := B) calculateIP cfg now me) (λ _, wf_gen G P b).
Proof.
  intros HP. unfold cache_exceptions. seq. apply triple_when.
  do 4 seq. by apply wf_exc_handle.
Qed.

(** ** Decoding *)

Definition decoded_id (p : Z) (ps : list Z) (k : pkey) : Prop := key_id p ps k ∧ passed p ps k.

(** A register that an older instruction writes is read from its pipeline register. *)
Lemma self_targets p ps (r : PipelineRegs) : key_ok p (key r) → dst r ≠ NONE_REG → p ∈ ps →
  targets ps (w_reg_data r).
Proof.
  intros (Hn & _ & Hs) Hd Hp. unfold key_self in Hs. simpl in Hn, Hs.
  destruct Hs as [E | [E | E]]; rewrite E; [|exact Hp..]. by rewrite Hn in E.
Qed.

Lemma forwarded_targets ex mm wb rx rm rw src : label src → src ≠ NONE_REG →
  key_ok ex (key rx) → key_ok mm (key rm) → key_ok wb (key rw) →
  targets [ex; mm; wb] (fst (forwarded rx rm rw src)).
Proof.
  intros Hl Hne Ox Om Ow. unfold forwarded, label, NONE_REG in *.
  destruct (Z.eqb_spec src (dst rx)) as [->|]; [apply (self_targets ex); [done..|set_solver]|].
  destruct (Z.eqb_spec src (dst rm)) as [->|]; [apply (self_targets mm); [done..|set_solver]|].
  destruct (Z.eqb_spec src (dst rw)) as [->|]; [apply (self_targets wb); [done..|set_solver]|].
  simpl. lia.
Qed.

Lemma forwarded_ex_targets ex rx src : 0 ≤ src < 32 → key_ok ex (key rx) →
  targets [ex] (forwarded_ex rx src).
Proof.
  intros Hl Ox. unfold forwarded_ex. destruct (Z.eqb_spec src (dst rx)) as [E|]; [|done].
  apply (self_targets ex); [done| |set_solver]. unfold NONE_REG. lia.
Qed.

Lemma forwarded_ex_none ex rx : key_ok ex (key rx) →
  forwarded_ex rx NONE_REG = PNull ∨ forwarded_ex rx NONE_REG = PReg NONE_REG.
Proof.
  intros [Hn _]. unfold forwarded_ex. destruct (Z.eqb_spec NONE_REG (dst rx)) as [E|]; [|by right].
  left. by apply Hn.
Qed.

Lemma lwlr_dst i d : is_lwlr i = true → decode_dst i = Some d →
  d = if rt i =? 0 then NONE_REG else rt i.
Proof.
  unfold is_lwlr, decode_dst. intros Hop.
  assert (E : opcode i = OP_LWL ∨ opcode i = OP_LWR).
  { apply orb_true_iff in Hop as [->%Z.eqb_eq | ->%Z.eqb_eq]; auto. }
  destruct E as [E | E]; rewrite E; intros Hd; change (Some (if rt i =? 0 then NONE_REG else rt i) = Some d) in Hd; congruence.
Qed.

(** What decoding makes of a pipeline register. *)
Section Decoded.
  Variables (id ex mm wb : Z) (r rx rm rw : PipelineRegs) (x y d : Z).
  Hypothesis Ha : decode_src_a (pl_instr r) = Some x.
  Hypothesis Hb : decode_src_b (pl_instr r) = Some y.
  Hypothesis Hdst : decode_dst (pl_instr r) = Some d.
  Hypothesis Pi : key_id id [ex; mm; wb] (key r).
  Hypothesis Ox : key_ok ex (key rx).
  Hypothesis Om : key_ok mm (key rm).
  Hypothesis Ow : key_ok wb (key rw).
  Notation r' := (decoded id (pl_instr r) rx rm rw x y d r).

Lemma decoded_instr : pl_instr r' = NOP_INSTR ∨ pl_instr r' = pl_instr r.
Proof.
  destruct (decoded_operands id (pl_instr r) rx rm rw x y d r eq_refl) as (_ & _ & _ & _ & _ & _ & -> & _).
  destruct (reserved (pl_instr r)); auto.
Qed.

Lemma decoded_key_ok : key_ok id (key r') ∧
  (w_reg_data r' ≠ PNull → decode_dst (pl_instr r') ≠ Some NONE_REG).
Proof.
  destruct (decoded_operands id (pl_instr r) rx rm rw x y d r eq_refl) as (_ & _ & Ed & _ & _ & Ew & Ei & _).
  destruct (decode_dst_label _ _ Hdst) as [Hlab _]. destruct Pi as (Pw & Pd & _). simpl in Pw, Pd.
  unfold key_ok. cbn [key k_w k_dst k_instr k_a k_b k_mem k_prev]. rewrite Ed, Ew, Ei.
  destruct (Z.eqb_spec d NONE_REG) as [->|Hd].
  - assert (w_reg_data r = PNull) as ->.
    { destruct (w_reg_data r); [done|exfalso; by apply Pd..]. }
    split; [|done]. split_and!; [done..|by left].
  - assert (Hr : reserved (pl_instr r) = false).
    { destruct (reserved (pl_instr r)) eqn:Hres; [|done]. rewrite (reserved_dst _ Hres) in Hdst. congruence. }
    rewrite Hr, Hdst. unfold key_self. destruct (flag_at _ _); split; try congruence; split_and!; auto; done.
Qed.

Lemma decoded_alu : operands [id; ex; mm; wb] (key r').
Proof.
  destruct (decoded_operands id (pl_instr r) rx rm rw x y d r eq_refl) as (_ & _ & _ & Ea & Eb & _).
  destruct (decoded_pointers id (pl_instr r) rx rm rw x y d r) as (Na & Nb & _).
  pose proof (decode_src_a_label _ _ Ha) as La. pose proof (decode_src_b_label _ _ Hb) as Lb.
  destruct Pi as (_ & _ & Pa & Pb). simpl in Pa, Pb.
  assert (Hin : id ∈ [id; ex; mm; wb]) by apply list_elem_of_here.
  split; cbn [key k_w k_dst k_instr k_a k_b k_mem k_prev].
  - destruct (Z.eq_dec x NONE_REG) as [->|Hx].
    + by rewrite Na, Pa.
    + rewrite Ea by done. by apply targets_cons, forwarded_targets.
  - destruct (Z.eq_dec y NONE_REG) as [->|Hy].
    + rewrite Nb by done. destruct (uses_imm (pl_instr r)) eqn:Hi; [done|].
      destruct (uses_shamt (pl_instr r)) eqn:Hs; [done|]. by rewrite Pb.
    + rewrite Eb by done. by apply targets_cons, forwarded_targets.
Qed.

Lemma decoded_memory : memory_data [ex] (key r').
Proof.
  destruct (decoded_pointers id (pl_instr r) rx rm rw x y d r) as (_ & _ & Nm & Np).
  unfold memory_data. cbn [key k_w k_dst k_instr k_a k_b k_mem k_prev]. split.
  - destruct decoded_instr as [E | E]; rewrite E; [intros Hf; exfalso; vm_compute in Hf; discriminate Hf|]. intros Hm.
    rewrite (Nm Hm). exact (forwarded_ex_targets _ _ _ (rt_range _) Ox).
  - destruct decoded_instr as [E | E]; rewrite E; [intros Hf; exfalso; vm_compute in Hf; discriminate Hf|]. intros Hl.
    rewrite (Np Hl), (lwlr_dst _ _ Hl Hdst). destruct (rt (pl_instr r) =? 0).
    + exact (forwarded_ex_none _ _ Ox).
    + exact (forwarded_ex_targets _ _ _ (rt_range _) Ox).
Qed.

Lemma decoded_decoded_id : decoded_id id [ex; mm; wb] (key r').
Proof.
  destruct decoded_key_ok as [Hok Hdec]. split; [|split; [exact Hok|split; [exact decoded_alu|exact decoded_memory]]].
  split; [apply Hok|]. split; [exact Hdec|]. destruct Pi as (_ & _ & Pa & Pb). simpl in Pa, Pb. unfold key_id. cbn [key k_w k_dst k_instr k_a k_b k_mem k_prev].
  destruct (decoded_pointers id (pl_instr r) rx rm rw x y d r) as (Na & Nb & _). split.
  - destruct decoded_instr as [E | E]; rewrite E; [intros Hf; exfalso; vm_compute in Hf; discriminate Hf|]. rewrite Ha. intros [= Hx].
    rewrite Na by exact Hx. apply Pa. by rewrite Ha, Hx.
  - destruct decoded_instr as [E | E]; rewrite E; [intros _ Hf; exfalso; vm_compute in Hf; discriminate Hf|]. rewrite Hb. intros [= Hy] Es Ei.
    rewrite Nb by exact Hy. rewrite Es, Ei. apply Pb; [by rewrite Hb, Hy|done..].
Qed.

End Decoded.

Lemma wf_pre_decode b :
  triple (wf_gen G key_id b) (pre_decode (B := B)) (λ _, wf_gen G decoded_id b).
Proof.
  unfold pre_decode. eapply triple_bind with (Mid := λ _, wf_gen G decoded_id b);
    [|intros [id h]; seq; by apply triple_ret].
  intros s a s' e E Hwf. pose proof Hwf as [H1 H2 H3 H4 (o & id & ex & mm & wb & El & Hd & Hf & Hnew &
    (ki & Hi & Pi) & (kx & Hx & Ox & _) & (km & Hm & Om & _) & (kw & Hw & Ow))].
  simpl in *. rewrite !lookup_fmap in *.
  apply fmap_Some in Hi as (r & Hr & ->), Hx as (rx & Hrx & ->), Hm as (rm & Hrm & ->), Hw as (rw & Hrw & ->).
  destruct (decode_src_a_Some (pl_instr r)) as [x Ha].
  destruct (decode_src_b_Some (pl_instr r)) as [y Hb].
  destruct (decode_dst_Some (pl_instr r)) as [d Hdst].
  assert (Hne : id ≠ ex ∧ id ≠ mm ∧ id ≠ wb).
  { apply NoDup_app in Hd as (_ & _ & Hd). apply NoDup_cons in Hd as [Hd _].
    rewrite !elem_of_cons in Hd. split_and!; intros ->; apply Hd; tauto. }
  assert (Hs : holds s id ex mm wb r rx rm rw) by (split; rewrite ?El; done).
  rewrite (decode_operands_eq s id ex mm wb r rx rm rw x y d Hs Ha Hb Hdst) in E.
  apply (f_equal (λ o, match o with Some (_, z, _) => z | None => s' end)) in E. subst s'. cbv beta iota.
  pose proof (decoded_decoded_id id ex mm wb r rx rm rw x y d Ha Hb Hdst Pi Ox Om Ow) as Hk.
  set (r' := decoded id (pl_instr r) rx rm rw x y d r) in *.
  match goal with |- wf_gen _ _ _ (view_of (at_ ?s1 _ _)) => set (s1' := s1) end.
  assert (Hv : view_of (at_ s1' id r') = (view_of s) <| v_heap ::= <[id := key r']> |>).
  { unfold s1', view_of, at_. destruct (reserved (pl_instr r)); simpl; f_equal; apply (fmap_insert key). }
  rewrite Hv. clear Hv s1'.
  apply (wf_set_id G key_id); [done|change (v_stages (view_of s)) with (PL_REGS s); by rewrite El|].
  intros o' ex' mm' wb' k0 El' _ _. change (v_stages (view_of s)) with (PL_REGS s) in El'.
  rewrite El in El'. injection El' as <- <- <- <-. exact Hk.
Qed.

(** The decoding stage once its instruction has run: the coprocessor
    instructions have chosen their destination. *)
Definition ran (b : bool) (v : view) : Prop := wf_gen G passed b v ∧ v_suspend v = false.

Lemma triple_stage (W : view → Prop) i :
  triple W (stage (B := B) i) (λ p v, W v ∧ nthz (v_stages v) i = Some (Some p)).
Proof. intros s p s' e (Hp & -> & _)%stage_Some Hs. by split. Qed.

(** Its pointers, and its instruction, are those of decoding. *)
Definition pointers (k : pkey) := (k_instr k, k_a k, k_b k, k_mem k, k_prev k).

Lemma passed_pointers p ps k k' : passed p ps k → key_ok p k' → pointers k' = pointers k →
  passed p ps k'.
Proof.
  intros (_ & Ho & Hm) Hk [= Ei Ea Eb Em Ep]. split; [done|]. unfold operands, memory_data in *.
  by rewrite Ei, Ea, Eb, Em, Ep.
Qed.

Lemma triple_setf_id b p f : (∀ r, key_ok p (key (f r)) ∧ pointers (key (f r)) = pointers (key r)) →
  triple (λ v, ran b v ∧ nthz (v_stages v) ID_STAGE = Some (Some p)) (setf (B := B) p f)
    (λ _, ran b).
Proof.
  intros Hf s a s' e E [[Hw Hsu] Hp]. unfold setf, zoom_key in E.
  destruct (heap s !! p) as [r|] eqn:Hr; [|done].
  assert (Hv : view_of s' = (view_of s) <| v_heap ::= <[p := key (f r)]> |>).
  { injection E as _ <- _. unfold view_of. simpl. f_equal. apply (fmap_insert key). }
  rewrite Hv. split; [|done]. apply (wf_set_id G passed); [done..|].
  intros o ex mm wb k0 _ Hk0 Hps. simpl in Hk0. rewrite lookup_fmap, Hr in Hk0. injection Hk0 as <-.
  destruct (Hf r) as [Hok Hptr]. by eapply passed_pointers.
Qed.

Lemma rt_key_ok p i k : k_w k = PResult p → k_dst k = rt i → key_ok p k.
Proof.
  intros Hw Hd. pose proof (rt_range i). unfold key_ok, key_self, label, NONE_REG. rewrite Hw, Hd.
  split_and!; [|lia|lia|auto]. split; [done|lia].
Qed.

Lemma ran_cpone b : triple (ran b) (cpone_exec (B := B) cfg me) (λ _, ran b).
Proof.
  unfold cpone_exec. eapply triple_bind; [apply triple_stage|]. intros p. cbv beta.
  assert (Hrest : ∀ m : M unit, keeps same m →
    triple (λ v, ran b v ∧ nthz (v_stages v) ID_STAGE = Some (Some p)) m (λ _, ran b)).
  { intros m Hm. eapply triple_conseq; [apply triple_same, Hm|exact (λ v Hv, Hv)|by intros ? ? []]. }
  destruct (opt_fpu cfg); [apply Hrest, same_exception|].
  seq. seq. destruct (_ && _); [|apply Hrest, same_cop_unimpl].
  seq. apply triple_setf_id. intros r. split; [by eapply rt_key_ok|done].
Qed.

Lemma same_branch i p : keeps same (branch (B := B) i p).
Proof. unfold branch, delay_next. keeps_tac. Qed.
Hint Resolve same_branch : keeps.

Lemma ran_cpzero b : triple (ran b) (cpzero_exec (B := B) calculateIP me) (λ _, ran b).
Proof.
  unfold cpzero_exec. eapply triple_bind; [apply triple_stage|]. intros p. cbv beta.
  eapply triple_bind with (Mid := λ _, ran b); [|intros ?; seq; apply triple_same; keeps_tac].
  unfold cpzero_emulate, hw_ip. seq. seq. seq.
  assert (Hrest : ∀ m : M unit, keeps same m →
    triple (λ v, ran b v ∧ nthz (v_stages v) ID_STAGE = Some (Some p)) m (λ _, ran b)).
  { intros m Hm. eapply triple_conseq; [apply triple_same, Hm|exact (λ v Hv, Hv)|by intros ? ? []]. }
  destruct (15 <? rs a); [apply Hrest; repeat case_match; auto with keeps|].
  assert (Hmf : triple (λ v, ran b v ∧ nthz (v_stages v) ID_STAGE = Some (Some p))
    (mfc0_emulate calculateIP me p) (λ _, ran b)).
  { unfold mfc0_emulate, hw_ip. seq. seq. seq. apply triple_setf_id. intros r. split; [by eapply rt_key_ok|done]. }
  repeat case_match; try exact Hmf; apply Hrest; unfold mtc0_emulate, bc0x_emulate; keeps_tac.
Qed.

Lemma same_branch_if c : keeps same (branch_if (B := B) c).
Proof. unfold branch_if, id_field, delay_next. keeps_tac. Qed.
Hint Resolve same_branch_if same_cop_unimpl : keeps.

(** Every other control transfer leaves the pipeline registers alone. *)
Lemma same_ctrl_table op m : ctrl_table (B := B) calculateIP cfg me op = Some m →
  op ≠ OP_COP0 → op ≠ OP_COP1 → keeps same m.
Proof.
  unfold ctrl_table. repeat case_match; intros [= <-] Hn0 Hn1; try done;
    unfold funct_ctrl, bcond_exec, j_exec, jal_exec, beq_exec, bne_exec, blez_exec, bgtz_exec,
      bltz_exec, bgez_exec, bltzal_exec, bgezal_exec, jr_exec, id_field, id_deref, id_result, delay_next;
    keeps_tac.
Qed.

Lemma ran_ctrl b op : triple (ran b)
  (match ctrl_table (B := B) calculateIP cfg me op with Some f => f | None => mret () end)
  (λ _, ran b).
Proof.
  destruct (ctrl_table _ _ _ op) as [m|] eqn:E; [|by apply triple_ret].
  destruct (Z.eq_dec op OP_COP0) as [->|H0]; [injection E as <-; apply ran_cpzero|].
  destruct (Z.eq_dec op OP_COP1) as [->|H1]; [injection E as <-; apply ran_cpone|].
  by eapply triple_same, same_ctrl_table.
Qed.

(** After [decode] the instruction has run, or the stage is suspended as it was. *)
Lemma wf_decode b :
  triple (wf_gen G decoded_id b) (decode (B := B) calculateIP cfg me)
    (λ _ v, ran b v ∨ wf_gen G decoded_id b v ∧ v_suspend v = true).
Proof.
  assert (Hrun : ∀ op p, triple (ran b)
    (match ctrl_table (B := B) calculateIP cfg me op with Some f => f | None => mret () end;;
     store_exception p)
    (λ _ v, ran b v ∨ wf_gen G decoded_id b v ∧ v_suspend v = true)).
  { intros op p. eapply triple_bind; [apply ran_ctrl|]. intros ?.
    eapply triple_conseq; [apply triple_same; auto with keeps|exact (λ v Hv, Hv)|by left]. }
  assert (Hw : ∀ v, wf_gen G decoded_id b v → wf_gen G passed b v).
  { intros v. apply wf_gen_weaken; [by intros p ps k []|done]. }
  unfold decode. seq. seq. intros s x s' e E Hs.
  rewrite !gets_bind in E. cbv zeta in E.
  set (op := opcode a0) in *.
  destruct (suspend s && (cop_remain s =? 0)).
  - rewrite (bind_eq _ _ s () (s <| suspend := false |>)) in E by reflexivity.
    eapply (Hrun op a); [exact E|]. split; [|done]. apply Hw in Hs. destruct Hs. by split.
  - destruct (flag_at cop_flag op && negb (suspend s)).
    + injection E as _ <- _. right. split; [|done]. destruct Hs. by split.
    + destruct (suspend s) eqn:Hsu.
      * injection E as _ <- _. right. split; [done|exact Hsu].
      * eapply (Hrun op a); [exact E|]. split; [by apply Hw|exact Hsu].
Qed.

(** ** Moving the pipeline on *)

Lemma triple_retire v0 : triple (λ v, v = v0) (retire (B := B))
  (λ _ v, ∃ wb, nthz (v_stages v0) WB_STAGE = Some (Some wb) ∧
     v = v0 <| v_heap ::= delete (v_late_late v0) |> <| v_late_late := v_late v0 |> <| v_late := wb |>).
Proof.
  intros s a s' e E <-. unfold retire, delete_preg in E. rewrite gets_bind, bind_assoc, gets_bind in E.
  destruct (heap s !! late_late_preg s) as [r|]; [|done].
  cbn [from_option] in E. rewrite ret_bind in E || rewrite bind_assoc, ret_bind in E.
  set (s1 := s <| heap ::= delete (late_late_preg s) |> <| late_late_preg := late_preg s |>).
  assert (E' : (wb ← stage WB_STAGE; late_preg <~ wb) s1 = Some (a, s', e)).
  { rewrite <- E. rewrite (bind_eq (modify _) _ s () (s <| heap ::= delete (late_late_preg s) |>)) by done.
    rewrite gets_bind. by rewrite (bind_eq (assign late_late_preg _) _ _ () s1). }
  clear E. apply mbind_Some in E' as (wb & s2 & e1 & e2 & (Hwb & -> & _)%stage_Some & E2 & _).
  exists wb. split; [exact Hwb|].
  assert (Es : s' = s1 <| late_preg := wb |>) 
    by exact (f_equal (λ o, match o with Some (_, z, _) => z | None => s' end) (eq_sym E2)).
  rewrite Es. unfold view_of, s1. simpl. f_equal. apply fmap_delete.
Qed.

Lemma triple_move v0 i : triple (λ v, v = v0) (move_stage (B := B) i)
  (λ _ v, ∃ o l, nthz (v_stages v0) (i - 1) = Some o ∧ setz (v_stages v0) i o = Some l ∧
     v = v0 <| v_stages := l |>).
Proof.
  intros s a s' e E <-. unfold move_stage, aget in E. rewrite bind_assoc, gets_bind in E.
  destruct (nthz (PL_REGS s) (i - 1)) as [o|] eqn:Ho; [|done]. cbn [from_option] in E.
  rewrite ret_bind in E.
  destruct (triple_set_stage (view_of s) i o s a s' e E eq_refl) as (l & Hl & Hv).
  exists o, l. by split_and!.
Qed.

(** [v0] after [retire] and the moves into WB and MEM. *)
Definition shifted (o : option Z) (id ex mm wb : Z) (v0 : view) : view :=
  v0 <| v_heap ::= delete (v_late_late v0) |> <| v_late_late := v_late v0 |>
     <| v_late := wb |> <| v_stages := [o; Some id; Some ex; Some ex; Some mm] |>.

Lemma triple_shift {A} o id ex mm wb v0 (k : M A) (Post : A → view → Prop) :
  v_stages v0 = [o; Some id; Some ex; Some mm; Some wb] →
  triple (λ v, v = shifted o id ex mm wb v0) k Post →
  triple (λ v, v = v0) (retire (B := B);; move_stage 4;; move_stage 3;; k) Post.
Proof.
  intros El Hk. eapply triple_bind; [apply triple_retire|]. intros ?. apply triple_view.
  intros v1 (wb' & Hwb & ->). rewrite El in Hwb. injection Hwb as <-.
  eapply triple_bind; [apply triple_move|]. intros ?. apply triple_view.
  intros v2 (o1 & l1 & Ho1 & Hl1 & ->). simpl in Ho1, Hl1. rewrite El in Ho1, Hl1.
  injection Ho1 as <-. injection Hl1 as <-.
  eapply triple_bind; [apply triple_move|]. intros ?. apply triple_view.
  intros v3 (o2 & l2 & Ho2 & Hl2 & ->). simpl in Ho2, Hl2. injection Ho2 as <-. injection Hl2 as <-.
  exact Hk.
Qed.

(** Deleting the oldest pipeline register touches no other. *)
Lemma retire_fresh v0 : fresh_ok G v0 → fresh_ok G (v0 <| v_heap ::= delete (v_late_late v0) |>).
Proof.
  intros [H2 HG]. split; simpl.
  - intros q k [_ Hq]%lookup_delete_Some. eauto.
  - intros q Hq. destruct (HG _ Hq) as [Hlt Hn]. split; [done|]. apply lookup_delete_None. auto.
Qed.

Lemma retired P b v0 o id ex mm wb :
  wf_gen G P b v0 → v_stages v0 = [o; Some id; Some ex; Some mm; Some wb] →
  NoDup (option_list o ++ [id; ex; mm; wb; v_late v0]) ∧
  ∀ q k, q ∈ option_list o ++ [id; ex; mm; wb; v_late v0] → v_heap v0 !! q = Some k →
    delete (v_late_late v0) (v_heap v0) !! q = Some k.
Proof.
  intros [_ _ _ _ (o' & id' & ex' & mm' & wb' & El' & Hd & _)] El. rewrite El in El'.
  injection El' as <- <- <- <- <-.
  replace (option_list o ++ [id; ex; mm; wb; v_late v0; v_late_late v0]) with
    ((option_list o ++ [id; ex; mm; wb; v_late v0]) ++ [v_late_late v0]) in Hd
    by (by rewrite <- app_assoc).
  apply NoDup_app in Hd as (Hd & Hno & _). split; [done|].
  intros q k Hq Hk. rewrite lookup_delete_ne; [done|]. intros <-.
  apply (Hno _ Hq), list_elem_of_here.
Qed.


(** The decoding stage keeps its instruction and a bubble enters EX. *)
Lemma wf_stay : triple (wf_gen G decoded_id true)
  (retire (B := B);; move_stage 4;; move_stage 3;;
   pc_ ← gets pc; _ ← new_stage EX_STAGE pc_ NOP_INSTR; mret ())
  (λ _ : unit, wf_gen G key_id false).
Proof.
  apply triple_view. intros v0 Hw. pose proof Hw as [H1 H2 [k3 H3] [k4 H4]
    (o & id & ex & mm & wb & El & _ & _ & Hnew & (ki & Hi & [Pi _]) & (kx & Hx & Ox) &
    (km & Hm & Om & _) & (kw & Hwb & Ow))].
  destruct (retired _ _ _ _ _ _ _ _ Hw El) as [Hd Hold]. pose proof (retire_fresh _ H2) as Hfr.
  apply (triple_shift o id ex mm wb v0 _ _ El). seq.
  eapply triple_bind with (Mid := λ _, wf_gen G key_id false); [|intros ?; by apply triple_ret].
  eapply triple_conseq; [apply triple_new_stage|exact (λ v Hv, Hv)|].
  intros p v (-> & l & Hl & ->). injection Hl as <-.
  assert (Hf : fresh_ok G (shifted o id ex mm wb v0)) by exact Hfr.
  assert (Hold' : ∀ q k, q ∈ option_list o ++ [id; ex; mm; wb; v_late v0] → v_heap v0 !! q = Some k →
    v_heap (v_alloc NOP_INSTR (shifted o id ex mm wb v0)) !! q = Some k)
    by (intros; apply alloc_lookup; [exact (proj1 Hf)|by apply Hold]).
  assert (Hlt : ∀ q, q ∈ option_list o ++ [id; ex; mm; wb; v_late v0] → q < v_next v0).
  { intros q Hq. destruct (v_heap v0 !! q) eqn:E; [by eapply (proj1 H2)|].
    exfalso. apply elem_of_app in Hq as [Hq|Hq].
    - destruct o as [q'|]; [|by apply elem_of_nil in Hq]. apply list_elem_of_singleton in Hq as ->.
      destruct (Hnew q' eq_refl) as (? & ? & _). congruence.
    - rewrite !elem_of_cons in Hq. destruct Hq as [-> | [-> | [-> | [-> | [-> | Hq]]]]]; try congruence.
      by apply elem_of_nil in Hq. }
  split; simpl; [done|exact (alloc_fresh G _ _ Hf)| | |].
  - exists kw. apply Hold'; [in_list|done].
  - exists k3. apply Hold'; [in_list|done].
  - exists o, id, (v_next v0), ex, mm. split; [done|]. split.
    { assert (Hp : option_list o ++ [id; v_next v0; ex; mm; wb; v_late v0] ≡ₚ
        v_next v0 :: option_list o ++ [id; ex; mm; wb; v_late v0]).
      { destruct o as [f|]; simpl; [|apply perm_swap].
        transitivity (f :: v_next v0 :: [id; ex; mm; wb; v_late v0]);
          [apply perm_skip, perm_swap|apply perm_swap]. }
      rewrite Hp. apply NoDup_cons. split; [|exact Hd]. intros Hin. specialize (Hlt _ Hin). lia. }
    split; [done|]. split.
    { intros q ->. destruct (Hnew q eq_refl) as (k & Hk & ?). exists k. split; [|done].
      apply Hold'; [|done]. apply elem_of_app. left. apply list_elem_of_here. }
    split_and!.
    + exists ki. split; [apply Hold'; [in_list|done]|done].
    + eexists. split; [apply lookup_insert_eq|]. apply bubble_passed.
    + exists kx. split; [apply Hold'; [in_list|done]|]. split; [apply Ox|by eapply passed_memory].
    + exists km. split; [apply Hold'; [in_list|done]|done].
Qed.

(** Every instruction moves on. *)
Lemma wf_go : triple (wf_gen G passed true)
  (retire (B := B);; move_stage 4;; move_stage 3;; move_stage 2;; move_stage 1;;
   pc_ ← gets pc; pc <~ u32 (pc_ + 4);; set_stage IF_STAGE None)
  (λ _ : unit, wf_gen G key_id false).
Proof.
  apply triple_view. intros v0 Hw. pose proof Hw as [H1 H2 [k3 H3] [k4 H4]
    (o & id & ex & mm & wb & El & _ & Hfull & Hnew & (ki & Hi & Pi) & (kx & Hx & Ox) &
    (km & Hm & Om & _) & (kw & Hwb & Ow))].
  destruct (retired _ _ _ _ _ _ _ _ Hw El) as [Hd Hold]. pose proof (retire_fresh _ H2) as Hfr.
  destruct (Hfull eq_refl) as [f ->]. destruct (Hnew f eq_refl) as (kf & Hf & Nf).
  apply (triple_shift (Some f) id ex mm wb v0 _ _ El).
  eapply triple_bind; [apply triple_move|]. intros ?. apply triple_view.
  intros v1 (o1 & l1 & Ho1 & Hl1 & ->). injection Ho1 as <-. injection Hl1 as <-.
  eapply triple_bind; [apply triple_move|]. intros ?. apply triple_view.
  intros v2 (o2 & l2 & Ho2 & Hl2 & ->). injection Ho2 as <-. injection Hl2 as <-.
  seq. seq. eapply triple_conseq; [apply triple_set_stage|exact (λ v Hv, Hv)|].
  intros ? v (l & Hl & ->). injection Hl as <-.
  change (option_list (Some f) ++ [id; ex; mm; wb; v_late v0]) with [f; id; ex; mm; wb; v_late v0] in *.
  assert (Hold' : ∀ q k, q ∈ [f; id; ex; mm; wb; v_late v0] → v_heap v0 !! q = Some k →
    delete (v_late_late v0) (v_heap v0) !! q = Some k) by exact Hold. clear Hold.
  split; simpl; [done|exact Hfr| | |].
  - exists kw. apply Hold'; [rewrite !elem_of_cons; tauto|done].
  - exists k3. apply Hold'; [rewrite !elem_of_cons; tauto|done].
  - exists None, f, id, ex, mm. split; [done|]. split; [exact Hd|]. split; [done|]. split; [done|].
    split_and!.
    + exists kf. split; [apply Hold'; [rewrite !elem_of_cons; tauto|done]|by apply key_new_id].
    + exists ki. split; [apply Hold'; [rewrite !elem_of_cons; tauto|done]|done].
    + exists kx. split; [apply Hold'; [rewrite !elem_of_cons; tauto|done]|].
      split; [apply Ox|by eapply passed_memory].
    + exists km. split; [apply Hold'; [rewrite !elem_of_cons; tauto|done]|done].
Qed.

Lemma wf_process h :
  triple (wf_gen G decoded_id true) (process_stages (B := B) calculateIP cfg now host me junk h)
    (λ _, wf_gen G key_id false).
Proof.
  unfold process_stages.
  eapply triple_seq; [apply same_reg_commit|intros ?].
  eapply triple_seq; [apply same_mem_access|intros ?].
  eapply triple_seq; [apply same_execute|intros ?].
  eapply triple_bind with (Mid := λ _ v, (h = false ∧ ran true v) ∨
    wf_gen G decoded_id true v ∧ (h = true ∨ v_suspend v = true)).
  { destruct h; [apply triple_ret; by right; auto|].
    eapply triple_conseq; [apply wf_decode|exact (λ v Hv, Hv)|]. intros ? v [Hv | [Hv Hsu]]; auto. }
  intros ?. intros s a' s' e E Hs. rewrite gets_bind in E.
  destruct Hs as [[-> [Hs Hsu]] | [Hs [-> | Hsu]]]; simpl in Hsu || idtac.
  - rewrite Hsu in E. by eapply wf_go.
  - rewrite orb_true_r in E. by eapply wf_stay.
  - rewrite Hsu in E. by eapply wf_stay.
Qed.

Lemma wf_reset cp0 fresh :
  triple (allocated G) ((CPU cp0 : M unit);; reset cfg now me fresh) (λ _, wf_gen G key_id false).
Proof.
  assert (Hid : all_new key_id) by (intros p ps; apply bubble_id).
  assert (Hvol : ∀ P, (∀ v, P v → allocated G v) →
    triple P (volatilize_pipeline (B := B)) (λ _, wf_gen G key_id true)).
  { intros P HP. apply triple_view. intros v0 Hv0. by apply wf_volatilize, HP. }
  eapply triple_bind with (Mid := λ _, wf_gen G key_id true).
  - unfold CPU. do 2 seq.
    eapply triple_bind with (Mid := λ _, allocated G).
    { intros s x s' e' [= <- <- <-] Hs. exact Hs. }
    intros ?. do 2 seq. eapply triple_seq; [apply same_aset_reg|intros ?]. seq. by apply Hvol.
  - intros ?. unfold reset. eapply triple_seq; [apply same_aset_reg|intros ?]. do 4 seq.
    eapply triple_conseq; [apply (Hvol (wf_gen G key_id true))|exact (λ v Hv, Hv)|].
    + intros v. apply wf_gen_allocated.
    + intros ? v. by apply wf_gen_weaken.
Qed.

(** The fetch stage is seen to be full. *)
Lemma wf_full P f v : wf_gen G P false v → nthz (v_stages v) IF_STAGE = Some (Some f) →
  wf_gen G P true v.
Proof.
  intros [H1 H2 H3 H4 (o & id & ex & mm & wb & El & Hd & _ & Hr)] Ho.
  rewrite El in Ho. injection Ho as ->. split; [done..|].
  exists (Some f), id, ex, mm, wb. split; [done|]. split; [done|]. split; [eauto|done].
Qed.

Lemma new_decoded : all_new decoded_id.
Proof. intros p ps. split; [apply bubble_id|apply bubble_passed]. Qed.

(** A whole cycle. *)
Lemma wf_step : triple (wf_gen G key_id false) (step (B := B) calculateIP cfg now host me junk)
  (λ _, wf_gen G key_id false).
Proof.
  pose proof new_decoded as Hdec.
  unfold step. seq. eapply triple_seq; [apply same_take_interrupt|intros ?].
  eapply triple_bind; [apply wf_pre_decode|]. intros h.
  eapply triple_seq; [apply same_pre_mem_access|intros dm].
  eapply triple_seq; [apply same_pre_execute|intros il].
  eapply triple_bind with (Mid := λ o v, wf_gen G decoded_id false v ∧ nthz (v_stages v) IF_STAGE = Some o).
  { intros s o s' e E Hs. unfold aget in E. rewrite gets_bind in E.
    destruct (nthz (PL_REGS s) IF_STAGE) eqn:Ho; [|done]. injection E as -> <- _. by split. }
  intros o. eapply triple_bind with (Mid := λ miss, wf_gen G decoded_id (negb miss)).
  { destruct o as [f|].
    - apply triple_ret. intros v [Hv Ho]. by eapply wf_full.
    - eapply triple_conseq; [apply wf_fetch|by intros v []|done]. }
  intros fm. seq.
  eapply triple_bind; [by apply wf_exc_handle|intros ?].
  eapply triple_seq; [apply same_mul_div_step|intros ?].
  eapply triple_seq; [apply same_cop_step|intros ?]. seq.
  eapply triple_bind; [by apply wf_cache_exceptions|intros ?]. seq.
  eapply triple_bind; [by apply wf_cache_exceptions|intros ?].
  destruct (negb il && negb dm && negb fm) eqn:Hgo.
  - apply andb_true_iff in Hgo as [_ Hfm]. rewrite Hfm. apply wf_process.
  - eapply triple_conseq; [apply triple_same; keeps_tac|exact (λ v Hv, Hv)|].
    intros ? v. apply wf_gen_weaken; [by intros p ps k []|done].
Qed.

End Cycle.
End PipelineInv.
