(* ===== verification/PipelineSafe.v ===== *)
(** * PipelineSafe: no cycle reads or writes a deleted pipeline register (cpu.cc)

    A deleted register could be told from a live one by putting it back: the
    ghosts [g] are any registers at deleted addresses.  With the invariant of
    PipelineInv every cycle does the same with them and without, the cycles that
    are undefined for another reason included. *)

From S2P Require Import Prelude Effects Types Mapper Cache CPZero ISA CPU Demo Pipeline PipelineInv.

Module PipelineSafe.
Import ISA CPU Pipeline PipelineInv.

(** The registers [g] were not deleted. *)
Definition haunt {B} (g : gmap Z PipelineRegs) (s : t B) : t B := s <| heap ::= λ h, h ∪ g |>.
Definition haunted {B A} (g : gmap Z PipelineRegs) (o : option (A * t B * list exc_event)) :=
  match o with Some (a, s, e) => Some (a, haunt g s, e) | None => None end.

Create HintDb framed.
#[export] Hint Constants Opaque : framed.

Section Ghosts.
  Context {B : Type} `{MemPort B}.
  Variable g : gmap Z PipelineRegs.
  Notation M := (M (t B)).
  Implicit Types (s : t B) (W : view → Prop) (p i : Z) (u : uptr).

(** From the states of [W] the action does the same with the ghosts. *)
Definition framed {A} (W : view → Prop) (m : M A) : Prop :=
  ∀ s, W (view_of s) → m (haunt g s) = haunted g (m s).

(** [u] does not lead to a ghost. *)
Definition clear (u : uptr) : Prop :=
  match u with
  | PNull | PReg _ => True
  | PResult p | PMem p | PShamt p | PImm p => g !! p = None
  end.

(** ** Rules *)

Definition anywhere (v : view) : Prop := True.

Lemma framed_weaken {A} W W' (m : M A) : framed W' m → (∀ v, W v → W' v) → framed W m.
Proof. intros Hm HW s Hs. by apply Hm, HW. Qed.
Lemma framed_any {A} W (m : M A) : framed anywhere m → framed W m.
Proof. intros Hm. by eapply framed_weaken. Qed.

Lemma framed_bind {A C} W (Mid : A → view → Prop) (m : M A) (f : A → M C) :
  framed W m → triple W m Mid → (∀ a, framed (Mid a) (f a)) → framed W (bindM m f).
Proof.
  intros Hm Ht Hf s Hs. unfold bindM. rewrite (Hm s Hs).
  destruct (m s) as [[[a s1] e1]|] eqn:E; simpl; [|done].
  rewrite (Hf a s1 (Ht _ _ _ _ E Hs)). by destruct (f a s1) as [[[c s2] e2]|].
Qed.
Lemma framed_seq {A C} W (m : M A) (f : A → M C) :
  framed W m → keeps same m → (∀ a, framed W (f a)) → framed W (bindM m f).
Proof. intros Hm Hk Hf. apply (framed_bind W (λ _, W)); [done|by apply triple_same|done]. Qed.
(** Behind it nothing of the pipeline is looked at that it could have changed. *)
Lemma framed_last {A C} W (m : M A) (f : A → M C) :
  framed W m → (∀ a, framed anywhere (f a)) → framed W (bindM m f).
Proof. intros Hm Hf. by apply (framed_bind W (λ _, anywhere)). Qed.

Lemma framed_ret {A} W (a : A) : framed W (mret a).
Proof. by intros s _. Qed.
Lemma framed_crash {A} W : framed W (crash : M A).
Proof. by intros s _. Qed.
Lemma framed_gets {A} W (f : t B → A) : (∀ s, f (haunt g s) = f s) → framed W (gets f).
Proof. intros Hf s _. unfold gets. by rewrite Hf. Qed.
Lemma framed_modify W (f : t B → t B) : (∀ s, f (haunt g s) = haunt g (f s)) → framed W (modify f).
Proof. intros Hf s _. unfold modify. by rewrite Hf. Qed.
Lemma framed_assign {T} W (q : t B → T) {P : Setter q} v :
  (∀ s, P (λ _, v) (haunt g s) = haunt g (P (λ _, v) s)) → framed W (q <~ v).
Proof. intros Hf s _. unfold assign. by rewrite Hf. Qed.
Lemma framed_when W b (m : M unit) : framed W m → framed W (when b m).
Proof. destruct b; [done|intros _; apply framed_ret]. Qed.
Lemma framed_from_option {A} W (o : option A) : framed W (from_option o : M A).
Proof. destruct o; [apply framed_ret|apply framed_crash]. Qed.
Lemma framed_for_each {A} W (l : list A) (f : A → M unit) :
  (∀ a, framed W (f a)) → (∀ a, keeps same (f a)) → framed W (for_each l f).
Proof.
  intros Hf Hk. induction l as [|a l IH]; simpl; [apply framed_ret|].
  by apply framed_seq.
Qed.
Lemma framed_aget {A} W (q : t B → list A) i : (∀ s, q (haunt g s) = q s) → framed W (aget q i).
Proof.
  intros Hq. unfold aget. apply framed_last; [by apply framed_gets|intros l; apply framed_from_option].
Qed.
Lemma framed_aset {A} W (q : t B → list A) {P : Setter q} i a : (∀ s, q (haunt g s) = q s) →
  (∀ v s, P (λ _, v) (haunt g s) = haunt g (P (λ _, v) s)) → framed W (aset q i a).
Proof.
  intros Hq HP. unfold aset. apply framed_last; [by apply framed_gets|]. intros l.
  apply framed_last; [apply framed_from_option|]. intros l'. by apply framed_assign.
Qed.

(** ** Calls into the other objects *)

Variable me : Z.

Lemma haunt_exception e s : on_exception me e (haunt g s) = haunt g (on_exception me e s).
Proof. unfold on_exception. by destruct (_ =? _). Qed.
Lemma framed_deliver {A} W (m : M A) : framed W m → framed W (deliver me m).
Proof.
  intros Hm s Hs. unfold deliver. rewrite (Hm s Hs).
  destruct (m s) as [[[a s1] e]|]; simpl; [|done]. do 2 f_equal. f_equal.
  clear. revert s1. induction e as [|ev e IH]; intros s1; simpl; [done|].
  by rewrite haunt_exception, IH.
Qed.
Lemma framed_on_cpzero {A} W (m : Effects.M CPZero.t A) : framed W (on_cpzero (B := B) me m).
Proof.
  apply framed_deliver. intros s _. unfold zoom. change (cpzero (haunt g s)) with (cpzero s).
  by destruct (m (cpzero s)) as [[[a c] e]|].
Qed.
Lemma framed_on_mem {A} W (m : Effects.M B A) : framed W (on_mem me m).
Proof.
  apply framed_deliver. intros s _. unfold zoom. change (bus (haunt g s)) with (bus s).
  by destruct (m (bus s)) as [[[a c] e]|].
Qed.
Lemma framed_in_cache {A} W w (m : Effects.M (Cache.sys B) A) : framed W (in_cache me w m).
Proof.
  apply framed_deliver. intros s _. change (cache_of w (haunt g s)) with (cache_of w s).
  change (bus (haunt g s)) with (bus s). destruct (cache_of w s) as [c|]; [|done].
  destruct (m _) as [[[a r] e]|]; [|done]. by destruct w.
Qed.
Lemma framed_on_cache {A} W w (m : Effects.M Cache.t A) : framed W (on_cache (B := B) me w m).
Proof. apply framed_in_cache. Qed.

(** ** Pipeline registers that are no ghosts *)

Lemma framed_key {A} W p (m : Effects.M PipelineRegs A) : g !! p = None →
  framed W (zoom_key (S := t B) heap p m).
Proof.
  intros Hp s _. unfold zoom_key. change (heap (haunt g s)) with (heap s ∪ g).
  rewrite lookup_union_l by done. destruct (heap s !! p) as [r|]; [|done].
  destruct (m r) as [[[a r'] e]|]; [|done]. simpl. do 2 f_equal. f_equal.
  unfold haunt, upd. simpl. f_equal. apply insert_union_l.
Qed.
Lemma framed_field {A} W p (f : PipelineRegs → A) : g !! p = None → framed W (field (B := B) p f).
Proof. apply framed_key. Qed.
Lemma framed_setf W p f : g !! p = None → framed W (setf (B := B) p f).
Proof. apply framed_key. Qed.
Lemma framed_deref W u : clear u → framed W (deref (B := B) u).
Proof.
  destruct u; simpl; intros Hu; try by apply framed_field.
  - apply framed_crash.
  - by apply framed_aget.
Qed.

(** ** What a cycle looks at *)

(** The stages, the registers to be deleted and to be allocated, and everything
    that EX, MEM and WB point to. *)
Record reads (v : view) : Prop := {
  rd_stage : ∀ i p, nthz (v_stages v) i = Some (Some p) → g !! p = None;
  rd_next : ∀ p, v_next v ≤ p → g !! p = None;
  rd_late_late : g !! v_late_late v = None;
  rd_ex : ∀ p k, nthz (v_stages v) EX_STAGE = Some (Some p) → v_heap v !! p = Some k →
    clear (k_a k) ∧ clear (k_b k);
  rd_mem : ∀ p k, nthz (v_stages v) MEM_STAGE = Some (Some p) → v_heap v !! p = Some k →
    (flag_at mem_write_flag (opcode (k_instr k)) = true → clear (k_mem k)) ∧
    (is_lwlr (k_instr k) = true → clear (k_prev k));
  rd_wb : ∀ p k, nthz (v_stages v) WB_STAGE = Some (Some p) → v_heap v !! p = Some k →
    clear (k_w k)
}.
(** Once the instruction in ID is decoded, what it points to as well. *)
Definition reads_id (v : view) : Prop :=
  reads v ∧ ∀ p k, nthz (v_stages v) ID_STAGE = Some (Some p) → v_heap v !! p = Some k →
    clear (k_a k) ∧ clear (k_b k).

Lemma targets_clear ps u : targets ps u → (∀ p, p ∈ ps → g !! p = None) → clear u.
Proof. destruct u; simpl; auto; done. Qed.

Section Views.
  Variables (P : Z → list Z → pkey → Prop) (b : bool) (v : view).
  Hypothesis Hv : wf_gen (dom g) P b v.

Lemma live_clear p : is_Some (v_heap v !! p) → g !! p = None.
Proof.
  intros [k Hk]. apply not_elem_of_dom. intros Hp.
  destruct (wf_fresh _ _ _ _ Hv) as [_ HG]. destruct (HG p Hp) as [_ Hn]. congruence.
Qed.

Lemma next_clear p : v_next v ≤ p → g !! p = None.
Proof.
  intros Hp. apply not_elem_of_dom. intros Hg.
  destruct (wf_fresh _ _ _ _ Hv) as [_ HG]. destruct (HG p Hg) as [Hlt _]. lia.
Qed.

Lemma wf_reads : reads v.
Proof.
  pose proof live_clear as Hl.
  destruct Hv as [_ _ H3 H4 (o & id & ex & mm & wb & El & _ & _ & Ho & (ki & Hi & _) & (kx & Hx & _ & Px & _) &
    (km & Hm & _ & Pm) & (kw & Hw & Pw))].
  assert (Lx : g !! ex = None) by eauto. assert (Lm : g !! mm = None) by eauto.
  assert (Lw : g !! wb = None) by eauto. assert (Ll : g !! v_late v = None) by eauto.
  split; rewrite ?El.
  - intros i p E. apply nthz_Some in E as [Hr E]. simpl in Hr.
    assert (i = 0 ∨ i = 1 ∨ i = 2 ∨ i = 3 ∨ i = 4) as Hi' by lia.
    destruct Hi' as [-> | [-> | [-> | [-> | ->]]]]; injection E as E; subst; [|eauto..].
    destruct (Ho p eq_refl) as (k & Hk & _). eauto.
  - apply next_clear.
  - eauto.
  - intros p k [= <-]. rewrite Hx. intros [= <-]. destruct Px as [Pa Pb].
    split; (eapply targets_clear; [eassumption|]); intros q; rewrite !elem_of_cons;
      intros [-> | [-> | [-> | [-> | []%elem_of_nil]]]]; done.
  - intros p k [= <-]. rewrite Hm. intros [= <-]. destruct Pm as [Pa Pb].
    assert (Hc : ∀ u, targets [wb] u → clear u).
    { intros u Hu. eapply targets_clear; [exact Hu|]. intros q ->%list_elem_of_singleton. done. }
    split; [auto|]. intros Hop. specialize (Pb Hop). destruct (rt (k_instr km) =? 0); [|auto].
    by destruct Pb as [-> | ->].
  - intros p k [= <-]. rewrite Hw. intros [= <-]. destruct Pw as (_ & _ & [-> | [-> | ->]]); done.
Qed.

Lemma wf_reads_id : (∀ p ps k, P p ps k → operands (p :: ps) k) → reads_id v.
Proof.
  intros HP. split; [exact wf_reads|]. pose proof live_clear as Hl.
  destruct Hv as [_ _ _ _ (o & id & ex & mm & wb & El & _ & _ & _ & (ki & Hi & Pi) & (kx & Hx & _) &
    (km & Hm & _) & (kw & Hw & _))].
  rewrite El. intros p k [= <-]. rewrite Hi. intros [= <-]. destruct (HP _ _ _ Pi) as [Pa Pb].
  split; (eapply targets_clear; [eassumption|]); intros q; rewrite !elem_of_cons;
    intros [-> | [-> | [-> | [-> | []%elem_of_nil]]]]; eauto.
Qed.

End Views.

(** ** The stages *)

(** The pipeline register of a stage, which is no ghost and stays there. *)
Definition at_stage (i p : Z) (W : view → Prop) (v : view) : Prop :=
  W v ∧ nthz (v_stages v) i = Some (Some p).
Definition with_key (p : Z) (k : pkey) (W : view → Prop) (v : view) : Prop :=
  W v ∧ v_heap v !! p = Some k.

Lemma framed_stage_at {A} W i (f : Z → M A) : (∀ v, W v → reads v) →
  (∀ p, g !! p = None → framed (at_stage i p W) (f p)) → framed W (p ← stage i; f p).
Proof.
  intros HW Hf s Hs. unfold bindM, stage, aget, from_option, gets, mret, M_ret, crash.
  unfold bindM. change (PL_REGS (haunt g s)) with (PL_REGS s).
  destruct (nthz (PL_REGS s) i) as [[p|]|] eqn:E; [|done..]. simpl.
  rewrite Hf; [by destruct (f p s) as [[[a s1] e1]|]| |by split].
  by eapply rd_stage; [apply HW|].
Qed.

Lemma framed_stage {A} W i (f : Z → M A) : (∀ v, W v → reads v) →
  (∀ p, g !! p = None → framed W (f p)) → framed W (p ← stage i; f p).
Proof.
  intros HW Hf. apply framed_stage_at; [done|]. intros p Hp.
  eapply framed_weaken; [by apply Hf|by intros v []].
Qed.

Lemma framed_field_at {A C} W p (f : PipelineRegs → A) (k : A → M C) : g !! p = None →
  (∀ r, framed (with_key p (key r) W) (k (f r))) → framed W (a ← field p f; k a).
Proof.
  intros Hp Hk s Hs. unfold bindM. rewrite (framed_field anywhere p f Hp s I).
  destruct (field p f s) as [[[a s1] e1]|] eqn:E; [|done]. simpl.
  apply field_Some in E as (r & Hr & -> & -> & ->).
  rewrite Hk; [by destruct (k (f r) s) as [[[c s2] e2]|]|]. split; [done|]. simpl.
  by rewrite lookup_fmap, Hr.
Qed.

Lemma framed_ex_deref W f : (∀ v, W v → reads v) → f = alu_src_a ∨ f = alu_src_b →
  framed W (ex_deref (B := B) f).
Proof.
  intros HW Hf. unfold ex_deref. apply framed_stage_at; [done|]. intros p Hp.
  apply framed_field_at; [done|]. intros r s [[Hs Hst] Hr].
  destruct (rd_ex _ (HW _ Hs) _ _ Hst Hr) as [Ha Hb].
  apply (framed_deref anywhere); [|done]. by destruct Hf as [-> | ->].
Qed.

Lemma framed_id_deref f : f = alu_src_a ∨ f = alu_src_b → framed reads_id (id_deref (B := B) f).
Proof.
  intros Hf. unfold id_deref. apply framed_stage_at; [by intros v []|]. intros p Hp.
  apply framed_field_at; [done|]. intros r s [[[_ Hs] Hst] Hr].
  destruct (Hs _ _ Hst Hr) as [Ha Hb].
  apply (framed_deref anywhere); [|done]. by destruct Hf as [-> | ->].
Qed.

(** Goals [framed W m] follow the structure of [m]; [W] gives [reads]. *)
Ltac fr1 :=
  lazymatch goal with
  | |- framed _ (mret _) => apply framed_ret
  | |- framed _ crash => apply framed_crash
  | |- framed _ (bindM (stage _) _) => apply framed_stage; [first [done | by intros ? []]|intros ? ?]
  | |- framed _ (bindM _ _) => apply framed_seq; [|solve [keeps_tac]|intros ?]
  | |- framed _ (gets _) => apply framed_gets; reflexivity
  | |- framed _ (modify _) => apply framed_modify; reflexivity
  | |- framed _ (assign _ _) => apply framed_assign; reflexivity
  | |- framed _ (when _ _) => apply framed_when
  | |- framed _ (from_option _) => apply framed_from_option
  | |- framed _ (for_range _ _ _) => apply framed_for_each; [intros ?|intros ?; solve [keeps_tac]]
  | |- framed _ (for_each _ _) => apply framed_for_each; [intros ?|intros ?; solve [keeps_tac]]
  | |- framed _ (aget _ _) => apply framed_aget; reflexivity
  | |- framed _ (aset _ _ _) => apply framed_aset; reflexivity
  | |- framed _ (on_cpzero _ _) => apply framed_on_cpzero
  | |- framed _ (on_mem _ _) => apply framed_on_mem
  | |- framed _ (in_cache _ _ _) => apply framed_in_cache
  | |- framed _ (on_cache _ _ _) => apply framed_on_cache
  | |- framed _ (field _ _) => apply framed_field; assumption
  | |- framed _ (setf _ _) => apply framed_setf; assumption
  | |- framed _ (if ?b then _ else _) => destruct b eqn:?
  | |- framed _ (match ?x with _ => _ end) => destruct x eqn:?
  | |- framed _ (let _ := _ in _) => cbv zeta
  end.
Ltac fr := repeat first [fr1 | solve [eauto with framed nocore]].

Section Cycle.
  Variable calculateIP : B → Z.
  Variable cfg : config.
  Variable now : Z.
  Variable host : bool.
  Variable junk : bool.
  Notation framed_reads := (framed reads).

Hint Resolve same_buffer_signal same_store_exception same_hw_ip same_cache_op_mux same_data_cache : keeps.

Lemma framed_buffer_signal W p : g !! p = None → framed W (buffer_signal (B := B) p).
Proof. intros Hp. unfold buffer_signal. fr. Qed.
Lemma framed_store_exception W p : g !! p = None → framed W (store_exception (B := B) p).
Proof. intros Hp. unfold store_exception. fr. by apply framed_buffer_signal. Qed.
Lemma framed_exception W code mode cop : framed W (exception (B := B) code mode cop).
Proof. unfold exception. fr. Qed.
Lemma framed_hw_ip W : framed W (hw_ip (B := B) calculateIP).
Proof. unfold hw_ip. fr. Qed.
Hint Resolve framed_buffer_signal framed_store_exception framed_exception framed_hw_ip : framed.

Lemma framed_take_interrupt : framed_reads (take_interrupt (B := B) calculateIP).
Proof. unfold take_interrupt. fr. Qed.
Lemma framed_mul_div_step W : framed W (mul_div_step (B := B)).
Proof. unfold mul_div_step. fr. Qed.
Lemma framed_cop_step W : framed W (cop_step (B := B)).
Proof. unfold cop_step. fr. Qed.
Lemma framed_pre_execute : framed_reads (pre_execute (B := B)).
Proof. unfold pre_execute, ex_field. fr. Qed.
Lemma framed_cache_op_mux W op : framed W (cache_op_mux (B := B) op).
Proof. unfold cache_op_mux. fr. Qed.
Lemma framed_data_cache W : framed W (data_cache (B := B)).
Proof. unfold data_cache. fr. Qed.
Hint Resolve framed_cache_op_mux framed_data_cache : framed.
Lemma framed_pre_mem_access : framed_reads (pre_mem_access (B := B) now me junk).
Proof. unfold pre_mem_access. fr. Qed.

(** The pipeline register of the memory stage. *)
Definition in_mem (p : Z) (r : PipelineRegs) : view → Prop := with_key p (key r) (at_stage MEM_STAGE p reads).

Lemma framed_mem_deref p r (f : PipelineRegs → uptr) : 
  (∀ v, in_mem p r v → clear (f r)) → (∀ r', key r' = key r → f r' = f r) → g !! p = None →
  ∀ A (k : Z → M A), (∀ a, framed anywhere (k a)) →
  framed (in_mem p r) (u ← field p f; a ← deref u; k a).
Proof.
  intros Hc Hf Hp A k Hk. apply framed_field_at; [done|]. intros r' s [Hs Hr'].
  assert (Hr : f r' = f r).
  { apply Hf. destruct Hs as [_ Hr]. congruence. }
  rewrite Hr. eapply (framed_last anywhere); [apply framed_deref; by eapply Hc|exact Hk|done].
Qed.

Lemma framed_store_data p r A (k : Z → M A) : g !! p = None →
  flag_at mem_write_flag (opcode (pl_instr r)) = true → (∀ a, framed anywhere (k a)) →
  framed (in_mem p r) (u ← field p w_mem_data; a ← deref u; k a).
Proof.
  intros Hp Hw Hk. apply framed_mem_deref; [|by intros r' [=]|done..].
  intros v [[Hv Hst] Hr]. by apply (rd_mem _ Hv _ _ Hst Hr).
Qed.

Lemma framed_load_prev p r : g !! p = None → is_lwlr (pl_instr r) = true →
  framed (in_mem p r) (u ← field p lwrl_reg_prev; deref u).
Proof.
  intros Hp Hl. apply framed_field_at; [done|]. intros r' s [[[Hs Hst] Hr] Hr'].
  apply (framed_deref anywhere); [|done].
  assert (Hk : key r' = key r) by congruence.
  assert (lwrl_reg_prev r' = lwrl_reg_prev r) as -> by exact (f_equal k_prev Hk).
  by apply (rd_mem _ Hs _ _ Hst Hr).
Qed.

Lemma framed_store_cached W w op vaddr phys data :
  framed W (store_cached (B := B) cfg now host me w op vaddr phys data).
Proof. unfold store_cached, cache_store_bytes, cache_store_byte, byteswapped. fr. Qed.
Lemma framed_store_uncached W op phys data : framed W (store_uncached (B := B) now me op phys data).
Proof. unfold store_uncached. fr. Qed.
Lemma same_store_uncached op phys data : keeps same (store_uncached (B := B) now me op phys data).
Proof. unfold store_uncached. keeps_tac. Qed.
Lemma framed_load W w op phys (c : bool) :
  framed W (if c then load_cached (B := B) now host me w op phys
            else d ← load_uncached now me op phys; on_mem me (mem_release_bus now me);; mret d).
Proof. unfold load_cached, load_uncached, byteswapped. fr. Qed.
Lemma same_load w op phys (c : bool) :
  keeps same (if c then load_cached (B := B) now host me w op phys
            else d ← load_uncached now me op phys; on_mem me (mem_release_bus now me);; mret d).
Proof. unfold load_cached, load_uncached, byteswapped. keeps_tac. Qed.
Hint Resolve framed_store_cached framed_store_uncached framed_load : framed.
Hint Resolve same_store_uncached same_load : keeps.

Lemma framed_mem_access : framed_reads (mem_access (B := B) cfg now host me junk).
Proof.
  unfold mem_access. apply framed_stage_at; [done|]. intros p Hp.
  apply framed_field_at; [done|]. intros r.
  apply framed_seq; [by apply framed_field|keeps_tac|intros vaddr]. cbv zeta.
  apply framed_seq; [apply framed_data_cache|keeps_tac|intros w].
  destruct (flag_at mem_write_flag (opcode (pl_instr r))) eqn:Hw.
  - apply framed_seq; [by apply framed_field|keeps_tac|intros buf]. destruct (negb _); [fr|].
    apply (framed_store_data p r); [done..|]. intros data. fr.
  - destruct (flag_at mem_read_flag (opcode (pl_instr r))); [|fr].
    apply framed_seq; [fr|keeps_tac|intros [phys c]].
    apply framed_seq; [apply framed_load|apply same_load|intros d].
    apply framed_seq; [by apply framed_setf|keeps_tac|intros ?].
    apply framed_last; [|intros prev; fr].
    destruct (_ || _) eqn:Hl; [by apply (framed_load_prev p r)|fr].
Qed.

Lemma framed_reg_commit : framed_reads (reg_commit (B := B)).
Proof.
  unfold reg_commit. apply framed_stage_at; [done|]. intros p Hp.
  apply framed_field_at; [done|]. intros r s [[Hs Hst] Hr].
  pose proof (rd_wb _ Hs _ _ Hst Hr) as Hc. simpl in Hc.
  destruct (w_reg_data r) eqn:Hw; [done|..]; (apply (framed_last anywhere); [|intros d|done]; [by apply framed_field|]);
    (apply (framed_last anywhere); [by apply framed_deref|intros v; fr]).
Qed.

(** *** EX *)
Lemma framed_cop_unimpl W n : framed W (cop_unimpl (B := B) me n).
Proof. unfold cop_unimpl. fr. Qed.
Hint Resolve framed_cop_unimpl : framed.
Hint Resolve same_alu2 same_ov_exec same_cop_unimpl : keeps.
Lemma framed_ex_a : framed_reads (ex_deref (B := B) alu_src_a).
Proof. apply framed_ex_deref; auto. Qed.
Lemma framed_ex_b : framed_reads (ex_deref (B := B) alu_src_b).
Proof. apply framed_ex_deref; auto. Qed.
Lemma framed_ex_result v : framed_reads (ex_result (B := B) v).
Proof. unfold ex_result. fr. Qed.
Lemma same_ex_deref f : keeps same (ex_deref (B := B) f).
Proof. unfold ex_deref. keeps_tac. Qed.
Hint Resolve framed_ex_a framed_ex_b framed_ex_result : framed.
Hint Resolve same_ex_deref : keeps.
Lemma framed_alu2 f : framed_reads (alu2 (B := B) f).
Proof. unfold alu2. fr. Qed.
Lemma framed_ov_exec f : framed_reads (ov_exec (B := B) f).
Proof. unfold ov_exec. fr. Qed.

Lemma framed_funct_table f m : funct_table (B := B) f = Some m → framed_reads m.
Proof.
  unfold funct_table. repeat case_match; intros [= <-];
    first [apply framed_alu2 | apply framed_ov_exec | apply framed_exception |
      unfold mfhi_exec, mthi_exec, mflo_exec, mtlo_exec, mult_exec, multu_exec, div_exec, divu_exec,
        write_hi_lo; fr].
Qed.

Lemma framed_exec_table op m : exec_table (B := B) me op = Some m → framed_reads m.
Proof.
  unfold exec_table. repeat case_match; intros [= <-];
    first [apply framed_alu2 | apply framed_ov_exec | apply framed_cop_unimpl |
      unfold lui_exec; solve [fr] | idtac].
  unfold funct_exec, ex_field. apply framed_seq; [fr|keeps_tac|intros i].
  destruct (funct_table (funct i)) eqn:E; [by eapply framed_funct_table|apply framed_ret].
Qed.

Lemma framed_execute : framed_reads (execute (B := B) me).
Proof.
  unfold execute. apply framed_stage; [done|]. intros ex Hex.
  apply framed_seq; [fr|keeps_tac|intros i]. apply framed_last; [|intros ?; fr].
  destruct (exec_table me (opcode i)) eqn:E; [by eapply framed_exec_table|apply framed_ret].
Qed.

(** *** ID *)
Lemma haunt_at s p r : at_ (haunt g s) p r = haunt g (at_ s p r).
Proof. unfold at_, haunt, upd. simpl. f_equal. apply insert_union_l. Qed.

Lemma framed_pre_decode b : framed (wf_gen (dom g) key_id b) (pre_decode (B := B)).
Proof.
  intros s Hv. pose proof (live_clear _ _ _ Hv) as Hl. pose proof Hv as [_ _ _ _ (o & id & ex & mm & wb & El & Hd & _ & _ &
    (ki & Hi & _) & (kx & Hx & _) & (km & Hm & _) & (kw & Hw & _))].
  assert (Li : g !! id = None) by eauto. assert (Lx : g !! ex = None) by eauto.
  assert (Lm : g !! mm = None) by eauto. assert (Lw : g !! wb = None) by eauto.
  simpl in *. rewrite !lookup_fmap in *.
  apply fmap_Some in Hi as (r & Hr & ->), Hx as (rx & Hrx & ->), Hm as (rm & Hrm & ->), Hw as (rw & Hrw & ->).
  destruct (decode_src_a_Some (pl_instr r)) as [x Ha].
  destruct (decode_src_b_Some (pl_instr r)) as [y Hb].
  destruct (decode_dst_Some (pl_instr r)) as [d Hdst].
  assert (Hne : id ≠ ex ∧ id ≠ mm ∧ id ≠ wb).
  { apply NoDup_app in Hd as (_ & _ & Hd). apply NoDup_cons in Hd as [Hd _].
    rewrite !elem_of_cons in Hd. split_and!; intros ->; apply Hd; tauto. }
  assert (Hs : holds s id ex mm wb r rx rm rw) by (split; rewrite ?El; done).
  assert (Hs' : holds (haunt g s) id ex mm wb r rx rm rw).
  { split; simpl; rewrite ?El, ?lookup_union_l by done; done. }
  assert (Hop : decode_operands (haunt g s) = haunted g (decode_operands s)).
  { rewrite (decode_operands_eq s id ex mm wb r rx rm rw x y d Hs Ha Hb Hdst).
    rewrite (decode_operands_eq (haunt g s) id ex mm wb r rx rm rw x y d Hs' Ha Hb Hdst).
    cbn [haunted]. rewrite <- haunt_at. by destruct (reserved (pl_instr r)). }
  assert (Hid : ∀ p h s1 e, decode_operands s = Some ((p, h), s1, e) → p = id).
  { intros p h s1 e E. rewrite (decode_operands_eq s id ex mm wb r rx rm rw x y d Hs Ha Hb Hdst) in E. congruence. }
  unfold pre_decode. unfold bindM at 1. unfold bindM at 2. rewrite Hop.
  destruct (decode_operands s) as [[[[p h] s1] e1]|]; [|done]. cbn [haunted].
  rewrite (Hid _ _ _ _ eq_refl).
  assert (Hrest : framed anywhere (store_exception (B := B) id;; mret h)) by fr.
  rewrite (Hrest s1 I). by destruct ((store_exception id;; mret h) s1) as [[[a s2] e2]|].
Qed.

Lemma framed_id_a : framed reads_id (id_deref (B := B) alu_src_a).
Proof. apply framed_id_deref; auto. Qed.
Lemma framed_id_b : framed reads_id (id_deref (B := B) alu_src_b).
Proof. apply framed_id_deref; auto. Qed.
Lemma same_id_deref f : keeps same (id_deref (B := B) f).
Proof. unfold id_deref. keeps_tac. Qed.
Lemma framed_id_field {A} (f : PipelineRegs → A) : framed reads_id (id_field (B := B) f).
Proof. unfold id_field. fr. Qed.
Lemma same_id_field {A} (f : PipelineRegs → A) : keeps same (id_field (B := B) f).
Proof. unfold id_field. keeps_tac. Qed.
Lemma framed_id_result v : framed reads_id (id_result (B := B) v).
Proof. unfold id_result. fr. Qed.
Lemma framed_delay_next : framed reads_id (delay_next (B := B)).
Proof. unfold delay_next. fr. Qed.
Hint Resolve framed_id_a framed_id_b framed_id_field framed_id_result framed_delay_next : framed.
Lemma same_id_result v : keeps same (id_result (B := B) v).
Proof. unfold id_result. keeps_tac. Qed.
Lemma same_delay_next : keeps same (delay_next (B := B)).
Proof. unfold delay_next. keeps_tac. Qed.
Hint Resolve same_id_deref same_id_field same_id_result same_delay_next same_branch_if : keeps.
Lemma framed_branch_if c : framed reads_id (branch_if (B := B) c).
Proof. unfold branch_if. fr. Qed.
Lemma framed_branch i p : framed reads_id (branch (B := B) i p).
Proof. unfold branch. fr. Qed.
Hint Resolve framed_branch_if framed_branch : framed.

Lemma framed_cpzero_exec : framed reads_id (cpzero_exec (B := B) calculateIP me).
Proof.
  unfold cpzero_exec. apply framed_stage; [by intros v []|]. intros p Hp.
  apply framed_last; [|intros ?; fr].
  unfold cpzero_emulate, mfc0_emulate, mtc0_emulate, bc0x_emulate. fr.
Qed.
Lemma framed_cpone_exec : framed reads_id (cpone_exec (B := B) cfg me).
Proof. unfold cpone_exec, fpu_cpone_emulate. fr. Qed.

Lemma framed_ctrl_table op m : ctrl_table (B := B) calculateIP cfg me op = Some m → framed reads_id m.
Proof.
  unfold ctrl_table. repeat case_match; intros [= <-];
    first [apply framed_cpzero_exec | apply framed_cpone_exec | apply framed_cop_unimpl |
      unfold funct_ctrl, bcond_exec, j_exec, jal_exec, beq_exec, bne_exec, blez_exec, bgtz_exec,
        bltz_exec, bgez_exec, bltzal_exec, bgezal_exec, jr_exec; fr].
Qed.

Lemma framed_decode : framed reads_id (decode (B := B) calculateIP cfg me).
Proof.
  unfold decode. apply framed_stage; [by intros v []|]. intros id Hid.
  do 3 (apply framed_seq; [fr|keeps_tac|intros ?]). cbv zeta.
  match goal with |- context [bindM (match ctrl_table _ _ _ ?op with _ => _ end) _] =>
    assert (Hrun : framed reads_id
      (match ctrl_table (B := B) calculateIP cfg me op with Some f => f | None => mret () end;;
       store_exception id)) end.
  { apply framed_last; [|intros ?; fr].
    destruct (ctrl_table _ _ _ _) eqn:E; [by eapply framed_ctrl_table|fr]. }
  destruct (_ && _).
  - apply (framed_bind _ (λ _, reads_id)); [fr| |intros ?; exact Hrun].
    intros s x s' e [= _ <- _] [[R1 R2 R3 R4 R5 R6] Hi]. split; [split; assumption|exact Hi].
  - destruct (_ && _); [apply framed_last; [fr|intros ?; fr]|].
    match goal with |- context [if ?c then _ else _] => destruct c end; [fr|exact Hrun].
Qed.

(** *** Allocation and IF *)
Lemma framed_new_preg W pc_ i : framed W (new_preg (B := B) pc_ i).
Proof.
  intros s _. rewrite !new_preg_eq. cbn [haunted]. do 2 f_equal. f_equal.
  unfold haunt, upd. simpl. f_equal. apply insert_union_l.
Qed.
Lemma framed_new_stage W i pc_ ins : framed W (new_stage (B := B) i pc_ ins).
Proof.
  unfold new_stage. apply framed_last; [apply framed_new_preg|]. intros p.
  unfold set_stage. apply framed_last; [fr|intros ?; fr].
Qed.
(** What is allocated is no ghost. *)
Definition room (v : view) : Prop := ∀ p, v_next v ≤ p → g !! p = None.
Lemma framed_new_at {A} i pc_ ins (f : Z → M A) : (∀ p, g !! p = None → framed room (f p)) →
  framed room (p ← new_stage i pc_ ins; f p).
Proof.
  intros Hf. apply (framed_bind _ (λ p v, g !! p = None ∧ room v)); [apply framed_new_stage| |].
  - apply triple_view. intros v0 H0. eapply triple_conseq; [apply (triple_new_stage v0)|done|].
    intros p v (-> & l & _ & ->). split; [by apply H0; simpl; lia|]. intros q. simpl. intros Hq. apply H0. lia.
  - intros p s [Hp Hs]. by apply Hf.
Qed.

Lemma framed_volatilize W : framed W (volatilize_pipeline (B := B)).
Proof.
  unfold volatilize_pipeline. apply framed_last; [fr|]. intros pc_. apply framed_last.
  - unfold for_range. generalize (seqZ 0 (Z.of_nat 5)). intros l. apply framed_any. induction l as [|i l IH]; [apply framed_ret|].
    simpl. apply framed_last; [|intros ?; exact IH]. apply framed_last; [apply framed_new_stage|intros ?; apply framed_ret].
  - intros ?. do 2 (apply framed_last; [first [apply framed_new_preg|fr]|intros ?]).
    apply framed_last; [first [apply framed_new_preg|fr]|intros ?]. fr.
Qed.

Lemma framed_exc_handle W p : g !! p = None →
  framed W (exc_handle (B := B) calculateIP cfg now me p).
Proof.
  intros Hp. unfold exc_handle. apply framed_seq; [fr|keeps_tac|intros buf].
  destruct (bool_decide _); [fr|]. cbv zeta.
  repeat lazymatch goal with |- framed _ (bindM _ _) => apply framed_last; [solve [fr]|intros ?] end.
  apply framed_volatilize.
Qed.

Lemma framed_cache_exceptions : framed_reads (cache_exceptions (B := B) calculateIP cfg now me).
Proof.
  unfold cache_exceptions. apply framed_seq; [fr|keeps_tac|intros pend]. apply framed_when.
  apply framed_stage; [done|intros wb Hwb]. do 2 (apply framed_seq; [fr|keeps_tac|intros ?]).
  apply framed_stage; [done|intros p Hp]. by apply framed_exc_handle.
Qed.

Lemma framed_fetch d : framed room (fetch (B := B) now me junk d).
Proof.
  unfold fetch. do 2 (apply framed_seq; [fr|keeps_tac|intros ?]). cbv zeta.
  apply framed_seq; [fr|keeps_tac|intros [real_pc c]]. apply framed_seq; [fr|keeps_tac|intros pend].
  destruct pend.
  - apply framed_new_at. intros p Hp. fr.
  - apply framed_seq; [fr|keeps_tac|intros miss]. destruct miss; [fr|].
    apply framed_seq; [fr|keeps_tac|intros ins]. apply framed_new_at. intros p0 _.
    apply framed_seq; [fr|keeps_tac|intros pend]. apply framed_last; [|intros ?; fr]. apply framed_when.
    apply framed_new_at. intros p Hp. fr.
Qed.

(** *** The end of the cycle *)
Lemma framed_delete_preg W p : g !! p = None → framed W (delete_preg (B := B) p).
Proof.
  intros Hp s _. unfold delete_preg. rewrite !gets_bind. change (heap (haunt g s)) with (heap s ∪ g).
  rewrite lookup_union_l by done. destruct (heap s !! p) as [r|]; [|done]. cbn [from_option].
  rewrite !ret_bind. unfold modify. cbn [haunted]. do 2 f_equal. f_equal. unfold haunt, upd. simpl. f_equal.
  rewrite delete_union. f_equal. by apply delete_id.
Qed.

Lemma framed_just_stage W i : framed W (stage (B := B) i).
Proof. unfold stage. apply framed_last; [fr|intros o; fr]. Qed.

Lemma framed_retire : framed_reads (retire (B := B)).
Proof.
  intros s Hs. unfold retire. rewrite !gets_bind. change (late_late_preg (haunt g s)) with (late_late_preg s).
  pose proof (rd_late_late _ Hs) as Hl. simpl in Hl.
  apply (framed_last reads); [by apply framed_delete_preg| |exact Hs]. intros ?.
  do 2 (apply framed_last; [fr|intros ?]). apply framed_last; [apply framed_just_stage|intros wb; fr].
Qed.

Lemma framed_move_stage W i : framed W (move_stage (B := B) i).
Proof. unfold move_stage, set_stage. apply framed_last; [fr|intros o; fr]. Qed.

Lemma framed_process h :
  framed (wf_gen (dom g) decoded_id true) (process_stages (B := B) calculateIP cfg now host me junk h).
Proof.
  assert (Hr : ∀ P b v, wf_gen (dom g) P b v → reads v) by apply wf_reads.
  assert (Hsame : ∀ A C (m : M A) (f : A → M C), framed_reads m → keeps same m →
    (∀ a, framed (wf_gen (dom g) decoded_id true) (f a)) →
    framed (wf_gen (dom g) decoded_id true) (bindM m f)).
  { intros A C m f Hm Hk Hf. apply framed_seq; [|done..]. eapply framed_weaken; [done|apply Hr]. }
  unfold process_stages.
  apply Hsame; [apply framed_reg_commit|apply same_reg_commit|intros ?].
  apply Hsame; [apply framed_mem_access|apply same_mem_access|intros ?].
  apply Hsame; [apply framed_execute|apply same_execute|intros ?].
  apply (framed_bind _ (λ _ v, reads v)).
  - apply framed_when. eapply framed_weaken; [apply framed_decode|]. intros v Hv.
    eapply wf_reads_id; [exact Hv|]. by intros p ps k (_ & _ & Ho & _).
  - destruct h; [apply triple_ret; apply Hr|].
    eapply triple_conseq; [apply (wf_decode _ _ _ (dom g))|done|].
    intros ? v [[Hv _] | [Hv _]]; by eapply Hr.
  - intros ?. apply framed_seq; [fr|keeps_tac|intros susp].
    destruct (susp || h); (apply framed_last; [apply framed_retire|intros ?]);
      repeat lazymatch goal with
      | |- framed _ (bindM (move_stage _) _) => apply framed_last; [apply framed_move_stage|intros ?]
      | |- framed _ (bindM (new_stage _ _ _) _) => apply framed_last; [apply framed_new_stage|intros ?]
      | |- framed _ (bindM _ _) => apply framed_last; [fr|intros ?]
      end; unfold set_stage; fr.
Qed.

Lemma framed_step : framed (wf_gen (dom g) key_id false) (step (B := B) calculateIP cfg now host me junk).
Proof.
  assert (Hr : ∀ P b v, wf_gen (dom g) P b v → reads v) by apply wf_reads.
  assert (Hsame : ∀ P b A C (m : M A) (f : A → M C), framed_reads m → keeps same m →
    (∀ a, framed (wf_gen (dom g) P b) (f a)) → framed (wf_gen (dom g) P b) (bindM m f)).
  { intros P b A C m f Hm Hk Hf. apply framed_seq; [|done..]. eapply framed_weaken; [done|apply Hr]. }
  pose proof new_decoded as Hnew.
  assert (Hexc : ∀ b C (f : unit → M C), (∀ a, framed (wf_gen (dom g) decoded_id b) (f a)) →
    framed (wf_gen (dom g) decoded_id b) (bindM (cache_exceptions (B := B) calculateIP cfg now me) f)).
  { intros b C f Hf. eapply framed_bind; [|by apply wf_cache_exceptions|exact Hf].
    eapply framed_weaken; [apply framed_cache_exceptions|apply Hr]. }
  unfold step. apply Hsame; [fr|keeps_tac|intros ?].
  apply Hsame; [apply framed_take_interrupt|apply same_take_interrupt|intros ?].
  eapply framed_bind; [apply framed_pre_decode|apply wf_pre_decode|intros h].
  apply Hsame; [apply framed_pre_mem_access|apply same_pre_mem_access|intros dm].
  apply Hsame; [apply framed_pre_execute|apply same_pre_execute|intros il].
  apply (framed_bind _ (λ o v, wf_gen (dom g) decoded_id false v ∧ nthz (v_stages v) IF_STAGE = Some o)); [fr| |].
  { intros s o s' e E Hs. unfold aget in E. rewrite gets_bind in E.
    destruct (nthz (PL_REGS s) IF_STAGE) eqn:Ho; [|done]. injection E as -> <- _. by split. }
  intros o. apply (framed_bind _ (λ miss, wf_gen (dom g) decoded_id (negb miss))).
  { destruct o as [f|]; [fr|]. eapply framed_weaken; [apply framed_fetch|]. intros v [Hv _] p Hp. by eapply next_clear. }
  { destruct o as [f|].
    - apply triple_ret. intros v [Hv Ho]. by eapply wf_full.
    - eapply triple_conseq; [apply wf_fetch|by intros v []|done]. }
  intros fm. apply framed_stage; [by apply Hr|]. intros wb Hwb.
  eapply framed_bind; [by apply framed_exc_handle|by apply wf_exc_handle|intros ?].
  apply Hsame; [apply framed_mul_div_step|apply same_mul_div_step|intros ?].
  apply Hsame; [apply framed_cop_step|apply same_cop_step|intros ?].
  apply Hsame; [fr|keeps_tac|intros ?]. apply Hexc. intros ?.
  apply Hsame; [fr|keeps_tac|intros ?]. apply Hexc. intros ?.
  destruct (negb il && negb dm && negb fm) eqn:Hgo; [|fr].
  apply andb_true_iff in Hgo as [_ Hfm]. rewrite Hfm. apply framed_process.
Qed.

End Cycle.
End Ghosts.

(** ** The pointers of the stages *)

Definition readable {B} (s : t B) (u : uptr) : Prop := ∃ v, deref u s = Some (v, s, []).

(** What the stages will follow can be followed: the operands of the instruction
    in EX, the datum of a store and the old register of an unaligned load in
    MEM, except into register 0, the value that WB commits, and, once decoding
    has set them, the operands of the instruction in ID. *)
Definition pointers_live {B} (s : t B) : Prop := ∃ id ex mm wb r rx rm rw,
  holds s id ex mm wb r rx rm rw ∧
  readable s (alu_src_a rx) ∧ readable s (alu_src_b rx) ∧
  (flag_at mem_write_flag (opcode (pl_instr rm)) = true → readable s (w_mem_data rm)) ∧
  (is_lwlr (pl_instr rm) = true → (readable s (lwrl_reg_prev rm) ↔ rt (pl_instr rm) ≠ 0)) ∧
  (∃ s', reg_commit s = Some ((), s', [])) ∧
  ∃ h s' r', decode_operands s = Some ((id, h), s', []) ∧ heap s' !! id = Some r' ∧
    readable s' (alu_src_a r') ∧ readable s' (alu_src_b r').

Section Live.
  Context {B : Type}.
  Implicit Types (s : t B) (u : uptr).

Lemma targets_readable s ps u : length (reg s) = 32%nat → targets ps u →
  (∀ p, p ∈ ps → is_Some (heap s !! p)) → readable s u.
Proof.
  intros Hlen Hu Hps. assert (Hv : is_Some (val s u)).
  { destruct u; simpl in *; try (apply fmap_is_Some; by apply Hps); [done|].
    apply nthz_is_Some. lia. }
  destruct Hv as [v Hv]. exists v. by apply deref_eq.
Qed.

Lemma unreadable s u : length (reg s) = 32%nat → u = PNull ∨ u = PReg NONE_REG → ¬ readable s u.
Proof.
  intros Hlen Hu [v Hv]. apply deref_Some in Hv as (Hv & _). destruct Hu as [-> | ->]; simpl in Hv; [done|].
  assert (nthz (reg s) NONE_REG = None) by (apply nthz_None; unfold NONE_REG; lia). congruence.
Qed.

Lemma commit_succeeds s wb rw : length (reg s) = 32%nat →
  nthz (PL_REGS s) WB_STAGE = Some (Some wb) → heap s !! wb = Some rw → key_ok wb (key rw) →
  ∃ s', reg_commit s = Some ((), s', []).
Proof.
  intros Hlen Hst Hr (Hn & Hlab & Hself). unfold key_self, label, NONE_REG in *. simpl in *.
  unfold reg_commit. rewrite (bind_eq _ _ _ _ _ (stage_eq _ _ _ Hst)).
  rewrite (bind_eq _ _ _ _ _ (field_eq _ _ _ _ Hr)).
  assert (Hgo : ∀ u, u = PResult wb ∨ u = PMem wb → w_reg_data rw = u →
    ∃ s', (d ← field wb dst; v ← deref u; aset reg d v) s = Some ((), s', [])).
  { intros u Hu Hw. assert (readable s u) as [v Hv].
    { apply (targets_readable s [wb]); [done|destruct Hu as [-> | ->]; apply list_elem_of_here|].
      intros q ->%list_elem_of_singleton. eauto. }
    rewrite (bind_eq _ _ _ _ _ (field_eq _ _ _ _ Hr)), (bind_eq _ _ _ _ _ Hv).
    unfold aset. rewrite gets_bind. rewrite setz_Some.
    - eexists. cbn [from_option]. rewrite ret_bind. reflexivity.
    - assert (dst rw ≠ 32); [|lia]. intros E. apply Hn in E. rewrite Hw in E. by destruct Hu as [-> | ->]. }
  destruct Hself as [E | [E | E]]; rewrite E; [by eexists|apply Hgo; auto..].
Qed.

Lemma decoded_readable s id ex mm wb q u : length (reg s) = 32%nat →
  is_Some (heap s !! ex) → is_Some (heap s !! mm) → is_Some (heap s !! wb) →
  targets [id; ex; mm; wb] u → readable (at_ s id q) u.
Proof.
  intros Hlen Hx Hm Hw Hu. apply (targets_readable _ [id; ex; mm; wb]); [done..|]. intros p Hp.
  destruct (decide (p = id)) as [->|Hne]; [rewrite heap_at; eauto|].
  rewrite heap_at_ne by done. rewrite !elem_of_cons in Hp.
  destruct Hp as [-> | [-> | [-> | [-> | []%elem_of_nil]]]]; done.
Qed.

Lemma wf_pointers_live s : pl_wf s → pointers_live s.
Proof.
  intros [Hlen _ Hlate _ (o & id & ex & mm & wb & El & Hd & _ & _ &
    (ki & Hi & Pi) & (kx & Hx & Ox & Xa & _) & (km & Hm & Om & Mw & Mp) & (kw & Hw & Ow))].
  simpl in *. rewrite !lookup_fmap in *. apply fmap_is_Some in Hlate.
  apply fmap_Some in Hi as (r & Hr & ->), Hx as (rx & Hrx & ->), Hm as (rm & Hrm & ->), Hw as (rw & Hrw & ->).
  destruct (decode_src_a_Some (pl_instr r)) as [x Ha].
  destruct (decode_src_b_Some (pl_instr r)) as [y Hb].
  destruct (decode_dst_Some (pl_instr r)) as [d Hdst].
  assert (Hne : id ≠ ex ∧ id ≠ mm ∧ id ≠ wb).
  { apply NoDup_app in Hd as (_ & _ & Hd). apply NoDup_cons in Hd as [Hd _].
    rewrite !elem_of_cons in Hd. split_and!; intros ->; apply Hd; tauto. }
  assert (Hs : holds s id ex mm wb r rx rm rw) by (split; rewrite ?El; done).
  exists id, ex, mm, wb, r, rx, rm, rw. split; [exact Hs|].
  assert (Hlive : ∀ p, p ∈ [ex; mm; wb; late_preg s] → is_Some (heap s !! p)).
  { intros p. rewrite !elem_of_cons. intros [-> | [-> | [-> | [-> | []%elem_of_nil]]]]; eauto. }
  assert (Hwb : ∀ u, targets [wb] u → readable s u).
  { intros u Hu. apply (targets_readable s [wb]); [done..|]. intros p ->%list_elem_of_singleton. eauto. }
  split; [exact (targets_readable _ _ _ Hlen (proj1 Xa) Hlive)|].
  split; [exact (targets_readable _ _ _ Hlen (proj2 Xa) Hlive)|].
  split; [intros Hop; exact (Hwb _ (Mw Hop))|]. split.
  { intros Hop. specialize (Mp Hop). simpl in Mp. destruct (Z.eqb_spec (rt (pl_instr rm)) 0) as [E|E].
    - split; [intros Hu; by destruct (unreadable _ _ Hlen Mp)|done].
    - split; [done|intros _; by apply Hwb]. }
  split; [by eapply commit_succeeds; rewrite ?El|].
  destruct (decoded_decoded_id id ex mm wb r rx rm rw x y d Ha Hb Hdst Pi Ox Om Ow) as [_ (_ & [Da Db] & _)].
  eexists _, _, (decoded id (pl_instr r) rx rm rw x y d r).
  split; [exact (decode_operands_eq s id ex mm wb r rx rm rw x y d Hs Ha Hb Hdst)|].
  split; [apply heap_at|].
  split; (apply (decoded_readable _ id ex mm wb); [| | | |assumption]);
    destruct (reserved (pl_instr r));
      first [exact Hlen | exists rx; exact Hrx | exists rm; exact Hrm | exists rw; exact Hrw].
Qed.

Lemma wf_gone s (g : gmap Z PipelineRegs) : pl_wf s →
  map_Forall (λ p _, p < next_addr s ∧ heap s !! p = None) g →
  wf_gen (dom g) key_id false (view_of s).
Proof.
  intros [H1 [H2 _] H3 H4 H5] Hg. split; [done| |done..]. split; [done|]. intros p [r Hp]%elem_of_dom.
  destruct (Hg _ _ Hp) as [Hlt Hn]. split; [done|]. simpl. by rewrite lookup_fmap, Hn.
Qed.

End Live.

Section Theorems.
  Context {B : Type} `{MemPort B}.
  Variable calculateIP : B → Z.
  Variable cfg : config.
  Variable now : Z.
  Variable host : bool.
  Variable me : Z.
  Variable junk : bool.

(** C1 the pipeline is memory safe. The constructor and [reset], run on memory
    of any contents, establish that the seven pipeline registers are distinct
    live objects with their pointers as decoding leaves them, and every cycle
    that is defined keeps it, through stalls, hazards, suspensions and
    exceptions. In such a state decoding and the write back succeed, and every
    pointer the stages follow leads to a live register or pipeline register,
    with one exception: LWL and LWR into register 0. And no cycle reads, writes
    or deletes a deleted pipeline register: with the deleted ones still there
    it would do the same, and be undefined in the same cases. *)
Theorem step_keeps_pipeline cp0 fresh :
  (∀ raw s e, ((CPU cp0 : M (t B) unit);; reset cfg now me fresh) raw = Some ((), s, e) →
     length (reg raw) = 32%nat → length (PL_REGS raw) = 5%nat →
     map_Forall (λ p _, p < next_addr raw) (heap raw) → pl_wf s) ∧
  keeps (inv (pl_wf (B := B))) (step calculateIP cfg now host me junk) ∧
  ∀ s : t B, pl_wf s →
    pointers_live s ∧
    ∀ g, map_Forall (λ p _, p < next_addr s ∧ heap s !! p = None) g →
      step calculateIP cfg now host me junk (haunt g s) =
        haunted g (step calculateIP cfg now host me junk s).
Proof.
  split; [|split].
  - intros raw s e E Hr Hl Hh. eapply (wf_reset cfg now me ∅ cp0 fresh); [exact E|].
    split_and!; [done| |done]. split; [|by intros p ?%elem_of_empty].
    intros p k. simpl. rewrite lookup_fmap. intros (r & Hp & _)%fmap_Some. by eapply Hh.
  - intros s a s' e E Hs. by eapply (wf_step calculateIP cfg now host me junk ∅).
  - intros s Hs. split; [by apply wf_pointers_live|]. intros g Hg. by apply framed_step, wf_gone.
Qed.

End Theorems.

(** A program after one cycle, with the register that the cycle deleted. *)
Definition ghost : gmap Z PipelineRegs := {[ 14 := PipelineRegs_ctor 14 0 NOP_INSTR ]}.

Lemma step_keeps_pipeline_witness :
  pl_wf Demo.start ∧ pl_wf (Demo.state_after Demo.cycle Demo.start) ∧
  pointers_live (Demo.state_after Demo.cycle Demo.start) ∧
  Demo.cycle (haunt ghost (Demo.state_after Demo.cycle Demo.start)) =
    haunted ghost (Demo.cycle (Demo.state_after Demo.cycle Demo.start)).
Proof.
  destruct (step_keeps_pipeline (B := Demo.ideal) (λ _, 0) Demo.demo_config 0 false 7 false Demo.cp0
    (λ _ _, (0, replicate 4 0))) as (Hr & Hk & Hl).
  assert (H0 : pl_wf Demo.start).
  { eapply (Hr (Demo.raw (Demo.memory Demo.program)) _ []); [vm_compute; reflexivity|reflexivity|reflexivity|].
    apply map_Forall_empty. }
  assert (H1 : pl_wf (Demo.state_after Demo.cycle Demo.start))
    by (eapply (Hk Demo.start () _ []); [vm_compute; reflexivity|exact H0]).
  split; [exact H0|]. split; [exact H1|]. split; [exact (proj1 (Hl _ H1))|].
  apply (proj2 (Hl _ H1)), map_Forall_singleton. split; vm_compute; reflexivity.
Defined.
End PipelineSafe.
