(* ===== verification/Exec.v ===== *)
(** * Exec: what the instructions compute (cpu.cc)

    The execution, decoding and coprocessor timing of single instructions
    against their definition in the MIPS I architecture. *)

From S2P Require Import Prelude Effects Types Mapper Cache CPZero ISA CPU Demo Pipeline.

Module Exec.
Import ISA CPU Pipeline.

(** ** The execution stage *)

(** The architecture's result of a three-operand instruction on the words [a]
    and [b]; the inner [None] is an overflow. *)
Definition alu_spec (fn : Z) (a b : Z) : option (option Z) :=
  let sum := s32 a + s32 b in
  let diff := s32 a - s32 b in
  if (fn =? FUNCT_SLL) || (fn =? FUNCT_SLLV) then Some (Some (u32 (a * 2 ^ (b mod 32))))
  else if (fn =? FUNCT_SRL) || (fn =? FUNCT_SRLV) then Some (Some (a / 2 ^ (b mod 32)))
  else if (fn =? FUNCT_SRA) || (fn =? FUNCT_SRAV) then Some (Some (u32 (s32 a / 2 ^ (b mod 32))))
  else if fn =? FUNCT_ADD then
    Some (if decide (- 2 ^ 31 ≤ sum < 2 ^ 31) then Some (u32 (a + b)) else None)
  else if fn =? FUNCT_ADDU then Some (Some (u32 (a + b)))
  else if fn =? FUNCT_SUB then
    Some (if decide (- 2 ^ 31 ≤ diff < 2 ^ 31) then Some (u32 (a - b)) else None)
  else if fn =? FUNCT_SUBU then Some (Some (u32 (a - b)))
  else if fn =? FUNCT_AND then Some (Some (Z.land a b))
  else if fn =? FUNCT_OR then Some (Some (Z.lor a b))
  else if fn =? FUNCT_XOR then Some (Some (Z.lxor a b))
  else if fn =? FUNCT_NOR then Some (Some (2 ^ 32 - 1 - Z.lor a b))
  else if fn =? FUNCT_SLT then Some (Some (b2z (s32 a <? s32 b)))
  else if fn =? FUNCT_SLTU then Some (Some (b2z (a <? b)))
  else None.

(** The additions and subtractions whose signed value does not fit [int32]. *)
Definition overflows (fn : Z) (a b : Z) : bool :=
  if (fn =? FUNCT_ADD) || (fn =? FUNCT_ADDU) then negb (bool_decide (- 2 ^ 31 ≤ s32 a + s32 b < 2 ^ 31))
  else if (fn =? FUNCT_SUB) || (fn =? FUNCT_SUBU) then negb (bool_decide (- 2 ^ 31 ≤ s32 a - s32 b < 2 ^ 31))
  else false.

(** [ov_exec] on the operands of the model. *)
Definition alu_model (fn : Z) : option (Z → Z → option (option Z)) :=
  match fn with
  | 0 | 4 => Some (λ a b, Some (Some (u32 (Z.shiftl a (Z.land b 0x1f)))))
  | 2 | 6 => Some (λ a b, Some (Some (u32 (srl (s32 a) (Z.land b 0x1f)))))
  | 3 | 7 => Some (λ a b, Some (Some (u32 (sra (s32 a) (Z.land b 0x1f)))))
  | 32 => Some add_result | 33 => Some addu_result
  | 34 => Some sub_result | 35 => Some subu_result
  | 36 => Some (λ a b, Some (Some (Z.land a b))) | 37 => Some (λ a b, Some (Some (Z.lor a b)))
  | 38 => Some (λ a b, Some (Some (Z.lxor a b))) | 39 => Some (λ a b, Some (Some (lnot32 (Z.lor a b))))
  | 42 => Some (λ a b, Some (Some (if s32 a <? s32 b then 1 else 0)))
  | 43 => Some (λ a b, Some (Some (if a <? b then 1 else 0)))
  | _ => None
  end.

Lemma nor_eq a b : is_u32 a → is_u32 b → lnot32 (Z.lor a b) = 2 ^ 32 - 1 - Z.lor a b.
Proof.
  intros Ha Hb. pose proof (lor_is_u 32 a b ltac:(lia) Ha Hb) as Hl. unfold is_u in Hl.
  unfold lnot32. change (Z.lnot (Z.lor a b)) with (Z.pred (- Z.lor a b)). unfold u32, wrap.
  symmetry. apply Z.mod_unique with (-1); lia.
Qed.

Lemma alu_correct fn a b res : is_u32 a → is_u32 b → alu_spec fn a b = Some res →
  ∃ g, alu_model fn = Some g ∧
    if overflows fn a b then g a b = None else g a b = Some res ∧ res ≠ None.
Proof.
  intros Ha Hb. unfold alu_spec, overflows. cbv zeta.
  assert (Hsh : Z.land b 0x1f = b mod 32) by (change 0x1f with (Z.ones 5); by rewrite Z.land_ones by lia).
  assert (Hr : 0 ≤ b mod 32 < 32) by (apply Z.mod_pos_bound; lia).
  destruct (shifts_eq a (b mod 32) Ha Hr) as [Esrl Esra].
  destruct (add_sub_eq a b) as (Eadd & Esub & Eaddu & Esubu).
  repeat match goal with
  | |- context [fn =? ?c] => destruct (Z.eqb_spec fn c) as [->|]
  end; cbn [orb]; try done; intros [= <-]; (eexists; split; [reflexivity|]);
    repeat match goal with |- context [?x =? ?y] => change (x =? y) with false || change (x =? y) with true end;
    cbn [orb]; cbv beta; rewrite ?Hsh, ?Eaddu, ?Esubu, ?Eadd, ?Esub, ?Esrl, ?Esra, ?u32_s32;
    rewrite ?Z.shiftl_mul_pow2, ?Z.shiftr_div_pow2 by lia; try done;
    try (by rewrite nor_eq);
    (match goal with |- context [decide ?P] => destruct (decide P) as [Hd|Hd] end;
     [rewrite bool_decide_eq_true_2 by exact Hd|rewrite bool_decide_eq_false_2 by exact Hd]; done).
Qed.

Section Execute.
  Context {B : Type}.
  Variable me : Z.
  Implicit Types (s : t B) (r : PipelineRegs).

Lemma funct_table_alu fn g : alu_model fn = Some g →
  funct_table (B := B) fn = Some (ov_exec g) ∧ flag_at mul_div_flag fn = false.
Proof.
  unfold alu_model. repeat case_match; intros [= <-]; split; reflexivity.
Qed.

(** The instruction [r] is in EX, at [ex]. *)
Definition in_ex s (ex : Z) r : Prop :=
  nthz (PL_REGS s) EX_STAGE = Some (Some ex) ∧ heap s !! ex = Some r.

Lemma ex_deref_eq s ex r f v : in_ex s ex r → val s (f r) = Some v →
  ex_deref f s = Some (v, s, []).
Proof.
  intros [Hst Hr] Hv. unfold ex_deref.
  rewrite (bind_eq _ _ _ _ _ (stage_eq _ _ _ Hst)), (bind_eq _ _ _ _ _ (field_eq _ _ _ _ Hr)).
  by apply deref_eq.
Qed.

Lemma ex_result_eq s ex r v : in_ex s ex r →
  ex_result v s = Some ((), at_ s ex (r <| result := v |>), []).
Proof.
  intros [Hst Hr]. unfold ex_result. rewrite (bind_eq _ _ _ _ _ (stage_eq _ _ _ Hst)).
  exact (setf_eq _ _ _ _ Hr).
Qed.

Lemma ov_exec_eq s ex r g a b : in_ex s ex r →
  val s (alu_src_a r) = Some a → val s (alu_src_b r) = Some b →
  ov_exec g s = match g a b with
                | None => None
                | Some None => exception Ov ANY (-1) s
                | Some (Some v) => Some ((), at_ s ex (r <| result := v |>), [])
                end.
Proof.
  intros He Ha Hb. unfold ov_exec.
  rewrite (bind_eq _ _ _ _ _ (ex_deref_eq s ex r alu_src_a a He Ha)).
  rewrite (bind_eq _ _ _ _ _ (ex_deref_eq s ex r alu_src_b b He Hb)).
  destruct (g a b) as [[v|]|]; [by apply ex_result_eq|done..].
Qed.

Lemma store_exception_false s p : exception_pending s = false →
  store_exception p s = Some ((), s, []).
Proof. intros Hp. unfold store_exception. by rewrite gets_bind, Hp. Qed.


End Execute.

(** [sub r4, r1, r2] in EX with its operands in flight. *)
Definition sub_demo : PipelineRegs :=
  (PipelineRegs_ctor 2 0 (Demo.r_type 1 2 4 0 FUNCT_SUB)) <| alu_src_a := PReg 1 |> <| alu_src_b := PResult 3 |>.
Definition alu_demo (a b : Z) : t Demo.ideal :=
  (Demo.raw ∅) <| PL_REGS := [None; None; Some 2; Some 3; None] |>
    <| reg := <[1%nat := a]> (replicate 32 0) |>
    <| heap := {[ 2 := sub_demo;
                  3 := (PipelineRegs_ctor 3 0 NOP_INSTR) <| result := b |> ]} |>.


(** ** Branches and jumps *)

(** Whether the branch [i] on the words [a] and [b] is taken; [None] for the other
    instructions. *)
Definition taken (i a b : Z) : option bool :=
  let op := opcode i in
  if op =? OP_BEQ then Some (a =? b)
  else if op =? OP_BNE then Some (negb (a =? b))
  else if op =? OP_BLEZ then Some (s32 a <=? 0)
  else if op =? OP_BGTZ then Some (0 <? s32 a)
  else if op =? OP_BCOND then
    if (rt i =? BCOND_BLTZ) || (rt i =? BCONDE_BLTZAL) then Some (s32 a <? 0)
    else if (rt i =? BCOND_BGEZ) || (rt i =? BCONDE_BGEZAL) then Some (0 <=? s32 a)
    else None
  else None.

Definition links (i : Z) : bool :=
  (opcode i =? OP_BCOND) && ((rt i =? BCONDE_BLTZAL) || (rt i =? BCONDE_BGEZAL)).
Definition is_bltzal (i : Z) : bool := (opcode i =? OP_BCOND) && (rt i =? BCONDE_BLTZAL).

Section Branches.
  Context {B : Type} `{MemPort B}.
  Variable calculateIP : B → Z.
  Variable cfg : config.
  Variable me : Z.
  Implicit Types (s : t B) (r : PipelineRegs).

(** The instruction [r] is in ID, at [id], and the one in its delay slot, [rf],
    in IF, at [f]. *)
Record in_id s (id f : Z) r rf : Prop := {
  ii_id : nthz (PL_REGS s) ID_STAGE = Some (Some id);
  ii_if : nthz (PL_REGS s) IF_STAGE = Some (Some f);
  ii_r : heap s !! id = Some r;
  ii_rf : heap s !! f = Some rf;
  ii_ne : id ≠ f
}.

Lemma id_field_eq {A} s id f r rf (g : PipelineRegs → A) : in_id s id f r rf →
  id_field g s = Some (g r, s, []).
Proof.
  intros []. unfold id_field. rewrite (bind_eq _ _ _ _ _ (stage_eq _ _ _ ii_id0)).
  by apply field_eq.
Qed.

Lemma id_deref_eq s id f r rf g v : in_id s id f r rf → val s (g r) = Some v →
  id_deref g s = Some (v, s, []).
Proof.
  intros [] Hv. unfold id_deref. rewrite (bind_eq _ _ _ _ _ (stage_eq _ _ _ ii_id0)).
  rewrite (bind_eq _ _ _ _ _ (field_eq _ _ _ _ ii_r0)). by apply deref_eq.
Qed.

(** The next instruction is fetched at [target] + 4 and sits in a delay slot. *)
Definition redirect s (f : Z) rf (target : Z) : t B :=
  at_ (s <| pc := target |>) f (rf <| delay_slot := true |>).

Lemma redirect_eq s id f r rf target : in_id s id f r rf →
  (pc <~ target;; delay_next) s = Some ((), redirect s f rf target, []).
Proof.
  intros []. set (s1 := s <| pc := target |>).
  rewrite (bind_eq _ _ s () s1) by done. cbv beta. unfold delay_next.
  rewrite (bind_eq _ _ _ _ _ (stage_eq _ s1 f ii_if0)).
  exact (setf_eq f _ s1 rf ii_rf0).
Qed.

Lemma in_id_redirect s id f r rf target : in_id s id f r rf →
  in_id (redirect s f rf target) id f r (rf <| delay_slot := true |>).
Proof.
  intros []. split; try done; unfold redirect.
  - by rewrite heap_at_ne by done.
  - apply heap_at.
Qed.

Lemma branch_if_eq s id f r rf (tk : bool) : in_id s id f r rf →
  branch_if tk s =
    Some ((), if tk then redirect s f rf (branch_target (pl_pc r) (imm r)) else s, []).
Proof.
  intros Hi. destruct tk; [|done]. unfold branch_if. cbn [when].
  rewrite (bind_eq _ _ _ _ _ (id_field_eq s id f r rf pl_pc Hi)).
  rewrite (bind_eq _ _ _ _ _ (id_field_eq s id f r rf imm Hi)).
  by apply (redirect_eq s id f r).
Qed.

Lemma link_eq s id f r rf : in_id s id f r rf →
  (p ← id_field pl_pc; id_result (u32 (p + 8))) s =
    Some ((), at_ s id (r <| result := u32 (pl_pc r + 8) |>), []).
Proof.
  intros Hi. rewrite (bind_eq _ _ _ _ _ (id_field_eq s id f r rf pl_pc Hi)). destruct Hi.
  unfold id_result. rewrite (bind_eq _ _ _ _ _ (stage_eq _ _ _ ii_id0)). exact (setf_eq _ _ _ _ ii_r0).
Qed.

(** The state after the branch [r]. *)
Definition branched s (id f : Z) r rf (tk : bool) : t B :=
  let off := if is_bltzal (pl_instr r) then 4 else 0 in
  let s1 := if tk then redirect s f rf (u32 (pl_pc r + off + u32 (Z.shiftl (imm r) 2))) else s in
  if links (pl_instr r) then at_ s1 id (r <| result := u32 (pl_pc r + 8) |>) else s1.

Lemma branch_exec s id f r rf a b tk : in_id s id f r rf →
  taken (pl_instr r) a b = Some tk → is_u32 a →
  val s (alu_src_a r) = Some a → val s (alu_src_b r) = Some b →
  ∃ m, ctrl_table calculateIP cfg me (opcode (pl_instr r)) = Some m ∧
    m s = Some ((), branched s id f r rf tk, []).
Proof.
  intros Hi Htk Ua Ha Hb. unfold taken in Htk. cbv zeta in Htk.
  assert (Hif : ∀ c, branch_if c s = Some ((), if c then redirect s f rf
    (u32 (pl_pc r + 0 + u32 (Z.shiftl (imm r) 2))) else s, [])).
  { intros c. rewrite Z.add_0_r. by apply (branch_if_eq s id f r). }
  assert (Ea : ∀ (k : Z → M (t B) unit), (x ← id_deref alu_src_a; k x) s = k a s)
    by (intros k; apply bind_eq; by eapply id_deref_eq).
  assert (Eb : ∀ (k : Z → M (t B) unit), (x ← id_deref alu_src_b; k x) s = k b s)
    by (intros k; apply bind_eq; by eapply id_deref_eq).
  assert (Hle : (a =? 0) || nz (Z.land a 0x80000000) = (s32 a <=? 0)).
  { rewrite top_bit_sign by done. destruct (Z.eqb_spec a 0) as [->|Hne]; [done|].
    assert (s32 a ≠ 0).
    { rewrite s32_eq by done. unfold is_u in Ua. destruct (Z.ltb_spec a (2 ^ 31)); lia. }
    simpl. destruct (Z.ltb_spec (s32 a) 0), (Z.leb_spec (s32 a) 0); try done; lia. }
  unfold branched, links, is_bltzal.
  destruct (Z.eqb_spec (opcode (pl_instr r)) OP_BEQ) as [->|_].
  { apply (inj Some) in Htk as <-. eexists. split; [reflexivity|].
    unfold beq_exec. rewrite Ea, Eb. apply Hif. }
  destruct (Z.eqb_spec (opcode (pl_instr r)) OP_BNE) as [->|_].
  { apply (inj Some) in Htk as <-. eexists. split; [reflexivity|].
    unfold bne_exec. rewrite Ea, Eb. apply Hif. }
  destruct (Z.eqb_spec (opcode (pl_instr r)) OP_BLEZ) as [->|_].
  { apply (inj Some) in Htk as <-. eexists. split; [reflexivity|].
    unfold blez_exec. rewrite Ea, Hle. apply Hif. }
  destruct (Z.eqb_spec (opcode (pl_instr r)) OP_BGTZ) as [->|_].
  { apply (inj Some) in Htk as <-. eexists. split; [reflexivity|].
    unfold bgtz_exec. rewrite Ea.
    replace (negb (a =? 0) && (Z.land a 0x80000000 =? 0)) with (0 <? s32 a); [apply Hif|].
    rewrite Z.ltb_antisym, <- Hle, negb_orb. unfold nz. by rewrite negb_involutive. }
  destruct (Z.eqb_spec (opcode (pl_instr r)) OP_BCOND) as [->|_]; [|done].
  eexists. split; [reflexivity|]. unfold bcond_exec.
  rewrite (bind_eq _ _ _ _ _ (id_field_eq s id f r rf pl_instr Hi)).
  destruct (Z.eqb_spec (rt (pl_instr r)) BCOND_BLTZ) as [->|_].
  { apply (inj Some) in Htk as <-. transitivity (bltz_exec s); [reflexivity|].
    unfold bltz_exec. rewrite Ea. apply Hif. }
  destruct (Z.eqb_spec (rt (pl_instr r)) BCONDE_BLTZAL) as [->|_].
  { apply (inj Some) in Htk as <-. transitivity (bltzal_exec s); [reflexivity|].
    unfold bltzal_exec. rewrite Ea.
    cbn [andb orb Z.eqb OP_BCOND BCONDE_BLTZAL Pos.eqb].
    destruct (s32 a <? 0); cbn [when].
    - rewrite bind_assoc, (bind_eq _ _ _ _ _ (id_field_eq s id f r rf pl_pc Hi)).
      rewrite bind_assoc, (bind_eq _ _ _ _ _ (id_field_eq s id f r rf imm Hi)).
      rewrite (bind_eq _ _ _ _ _ (redirect_eq s id f r rf _ Hi)).
      by apply (link_eq _ id f r (rf <| delay_slot := true |>)), in_id_redirect.
    - rewrite ret_bind. by apply (link_eq s id f r rf). }
  destruct (Z.eqb_spec (rt (pl_instr r)) BCOND_BGEZ) as [->|_].
  { apply (inj Some) in Htk as <-. transitivity (bgez_exec s); [reflexivity|].
    unfold bgez_exec. rewrite Ea. apply Hif. }
  destruct (Z.eqb_spec (rt (pl_instr r)) BCONDE_BGEZAL) as [->|_]; [|done].
  apply (inj Some) in Htk as <-. transitivity (bgezal_exec s); [reflexivity|].
    unfold bgezal_exec. rewrite Ea, (bind_eq _ _ _ _ _ (Hif _)).
  destruct (0 <=? s32 a).
  - by apply (link_eq _ id f r (rf <| delay_slot := true |>)), in_id_redirect.
  - by apply (link_eq s id f r rf).
Qed.

(** [decode] of an instruction of no coprocessor runs its function at once. *)
Lemma decode_run s id f r rf m s' : in_id s id f r rf → suspend s = false →
  flag_at cop_flag (opcode (pl_instr r)) = false →
  ctrl_table calculateIP cfg me (opcode (pl_instr r)) = Some m →
  m s = Some ((), s', []) → exception_pending s' = false →
  decode calculateIP cfg me s = Some ((), s', []).
Proof.
  intros [] Hsu Hc Hm E Hp. unfold decode.
  rewrite (bind_eq _ _ _ _ _ (stage_eq _ _ _ ii_id0)), (bind_eq _ _ _ _ _ (field_eq _ _ _ _ ii_r0)).
  rewrite !gets_bind, Hsu, Hc, Hm. cbn [andb]. rewrite (bind_eq _ _ _ _ _ E).
  by apply store_exception_false.
Qed.

Lemma taken_not_cop i a b tk : taken i a b = Some tk → flag_at cop_flag (opcode i) = false.
Proof.
  unfold taken. cbv zeta.
  destruct (Z.eqb_spec (opcode i) OP_BEQ) as [->|_]; [reflexivity|].
  destruct (Z.eqb_spec (opcode i) OP_BNE) as [->|_]; [reflexivity|].
  destruct (Z.eqb_spec (opcode i) OP_BLEZ) as [->|_]; [reflexivity|].
  destruct (Z.eqb_spec (opcode i) OP_BGTZ) as [->|_]; [reflexivity|].
  destruct (Z.eqb_spec (opcode i) OP_BCOND) as [->|_]; [reflexivity|discriminate].
Qed.

Lemma branch_address i p im off : im = u32 (s_immed i) →
  u32 (u32 (p + off + u32 (Z.shiftl im 2)) + 4) = u32 (p + 4 + 4 * s_immed i + off).
Proof.
  intros ->. rewrite u32_add_l. rewrite <- (u32_add_l (p + off + _)).
  rewrite <- (u32_add_r (p + off)), u32_idem, u32_add_r, Z.shiftl_mul_pow2 by lia.
  rewrite u32_add_l. unfold u32, wrap. change (2 ^ 2) with 4.
  rewrite <- (Z.add_mod_idemp_l _ 4) by lia. rewrite <- (Z.add_mod_idemp_r (p + off)) by lia.
  rewrite Z.mul_mod_idemp_l by lia. rewrite Z.add_mod_idemp_r, Z.add_mod_idemp_l by lia.
  f_equal. lia.
Qed.

(** C20 branches: the decoding stage redirects the fetch exactly when the
    condition of the branch holds of its operands, and marks the instruction in
    the delay slot; the next fetch is then from the address of the delay slot
    plus four times the signed offset (four more for BLTZAL); the linking
    branches write their address plus 8, taken or not.  Nothing else changes. *)
Theorem branch_decode s id f r rf a b tk (Hi : in_id s id f r rf)
    (Htk : taken (pl_instr r) a b = Some tk) (Ua : is_u32 a)
    (Ha : val s (alu_src_a r) = Some a) (Hb : val s (alu_src_b r) = Some b)
    (Him : imm r = u32 (s_immed (pl_instr r)))
    (Hsu : suspend s = false) (Hp : exception_pending s = false) :
  decode calculateIP cfg me s = Some ((), branched s id f r rf tk, []) ∧
  (if tk then
     u32 (pc (branched s id f r rf tk) + 4) =
       u32 (pl_pc r + 4 + 4 * s_immed (pl_instr r) + (if is_bltzal (pl_instr r) then 4 else 0))
   else pc (branched s id f r rf tk) = pc s) ∧
  heap (branched s id f r rf tk) !! f =
    Some (if tk then rf <| delay_slot := true |> else rf) ∧
  heap (branched s id f r rf tk) !! id =
    Some (if links (pl_instr r) then r <| result := u32 (pl_pc r + 8) |> else r) ∧
  (∀ q, q ≠ id → q ≠ f → heap (branched s id f r rf tk) !! q = heap s !! q).
Proof.
  destruct (branch_exec s id f r rf a b tk Hi Htk Ua Ha Hb) as (m & Hm & E).
  pose proof (ii_ne _ _ _ _ _ Hi) as Hne. pose proof (ii_r _ _ _ _ _ Hi) as Hr.
  pose proof (ii_rf _ _ _ _ _ Hi) as Hrf.
  assert (Hh : ∀ q, heap (branched s id f r rf tk) !! q =
    if decide (q = id) then Some (if links (pl_instr r) then r <| result := u32 (pl_pc r + 8) |> else r)
    else if decide (q = f) then Some (if tk then rf <| delay_slot := true |> else rf)
    else heap s !! q).
  { intros q. unfold branched, redirect. cbv zeta.
    destruct (links (pl_instr r)), tk; destruct (decide (q = id)) as [->|Hq];
      rewrite ?heap_at; try done; rewrite ?heap_at_ne by done; try done;
      destruct (decide (q = f)) as [->|Hqf]; rewrite ?heap_at, ?heap_at_ne by done; done. }
  split; [|split; [|split; [|split]]].
  - eapply decode_run; [exact Hi|done|by eapply taken_not_cop|exact Hm|exact E|].
    unfold branched. by destruct (links (pl_instr r)), tk.
  - destruct tk; [|unfold branched; by destruct (links (pl_instr r))].
    rewrite <- (branch_address _ _ _ _ Him). unfold branched. by destruct (links (pl_instr r)).
  - rewrite Hh. rewrite decide_False by done. by rewrite decide_True by done.
  - rewrite Hh. by rewrite decide_True by done.
  - intros q Hq Hqf. rewrite Hh. rewrite decide_False by done. by rewrite decide_False by done.
Qed.

(** The program counter after a jump. *)
Lemma jump_target_next p i :
  u32 (jump_target p i + 4) = if jumptarg i =? 0 then 0 else Z.lor (Z.land (u32 (p + 4)) 0xf0000000) (4 * jumptarg i).
Proof.
  set (region := Z.land (u32 (p + 4)) 0xf0000000).
  unfold jump_target. fold region.
  assert (Ht : is_u 26 (jumptarg i)) by (apply (land_is_u 26); [lia|split; vm_compute; congruence]).
  assert (Hreg : is_u32 region) by (apply (land_is_u 32); [lia|split; lia]).
  rewrite Z.shiftl_mul_pow2 by lia. change (2 ^ 2) with 4. unfold is_u in Ht.
  rewrite (u32_small (jumptarg i * 4)) by lia.
  assert (Hlor : ∀ x, 0 ≤ x < 2 ^ 28 → Z.lor region x = region + x).
  { intros x Hx. assert (Hz : Z.land region x = 0).
    { assert (is_u 28 x) by exact Hx. unfold region. bitblast k. }
    pose proof (Z.add_lor_land region x). lia. }
  destruct (Z.eqb_spec (jumptarg i) 0) as [E|E].
  - rewrite E. assert (E1 : Z.lor region (u32 (0 * 4 - 4)) = 0xfffffffc).
    { change (u32 (0 * 4 - 4)) with 0xfffffffc. unfold region. bitblast k. }
    by rewrite E1.
  - rewrite (u32_small (jumptarg i * 4 - 4)), !Hlor by lia.
    assert (Hmax : region ≤ 0xf0000000).
    { unfold region. assert (E1 : Z.land (u32 (p + 4)) 0xf0000000 =
        Z.shiftl (Z.land (Z.shiftr (u32 (p + 4)) 28) 0xf) 28) by bitblast k.
      rewrite E1. change 0xf with (Z.ones 4). rewrite Z.land_ones, Z.shiftl_mul_pow2 by lia.
      pose proof (Z.mod_pos_bound (Z.shiftr (u32 (p + 4)) 28) (2 ^ 4)). lia. }
    unfold is_u in Hreg. rewrite u32_small by lia. lia.
Qed.
Lemma jal_eq s id f r rf (Hi : in_id s id f r rf) :
  jal_exec s = Some ((), redirect (at_ s id (r <| result := u32 (pl_pc r + 8) |>)) f rf (jump_target (pl_pc r) (pl_instr r)), []).
Proof.
  pose proof Hi as [Hid Hif Hr Hrf Hne].
  unfold jal_exec. rewrite !(bind_eq _ _ _ _ _ (id_field_eq s id f r rf _ Hi)).
  set (target := jump_target (pl_pc r) (pl_instr r)). set (s1 := s <| pc := target |>).
  rewrite (bind_eq _ _ s () s1) by done. cbv beta. unfold id_result.
  rewrite bind_assoc, (bind_eq _ _ _ _ _ (stage_eq _ s1 id Hid)).
  rewrite (bind_eq _ _ _ _ _ (setf_eq id _ s1 r Hr)). unfold delay_next.
  set (s2 := s1 <| heap ::= _ |>).
  rewrite (bind_eq _ _ _ _ _ (stage_eq _ s2 f Hif)).
  assert (Hf : heap s2 !! f = Some rf) by (unfold s2; simpl; by rewrite lookup_insert_ne).
  rewrite (setf_eq f _ s2 rf Hf). reflexivity.
Qed.

(** C33 jumps: J and JAL continue at the target of the instruction in the region of
    the delay slot, except that target 0 of a region goes to address 0; JR
    continues at its register; JALR, which shares the function of JAL, ignores
    its register and continues at the address that its register fields and
    function code spell. *)
Theorem jump_decode s id f r rf (Hi : in_id s id f r rf) (Hsu : suspend s = false)
    (Hp : exception_pending s = false) :
  let i := pl_instr r in
  let region := Z.land (u32 (pl_pc r + 4)) 0xf0000000 in
  let s_j := redirect s f rf (jump_target (pl_pc r) i) in
  let s_jal := redirect (at_ s id (r <| result := u32 (pl_pc r + 8) |>)) f rf
                 (jump_target (pl_pc r) i) in
  (opcode i = OP_J → decode calculateIP cfg me s = Some ((), s_j, [])) ∧
  (opcode i = OP_JAL ∨ opcode i = OP_SPECIAL ∧ funct i = FUNCT_JALR →
     decode calculateIP cfg me s = Some ((), s_jal, [])) ∧
  (∀ a, opcode i = OP_SPECIAL → funct i = FUNCT_JR → val s (alu_src_a r) = Some a →
     decode calculateIP cfg me s = Some ((), redirect s f rf (u32 (a - 4)), []) ∧
     u32 (u32 (a - 4) + 4) = u32 a) ∧
  u32 (jump_target (pl_pc r) i + 4) =
    (if jumptarg i =? 0 then 0 else Z.lor region (4 * jumptarg i)).
Proof.
  intros i region s_j s_jal. pose proof Hi as [Hid Hif Hr Hrf Hne].
  pose proof (jal_eq s id f r rf Hi) as Hjal.
  split; [|split; [|split]].
  - intros Hop. eapply decode_run; [exact Hi|done| | | |]; fold i; rewrite ?Hop; [done|reflexivity| |done].
    unfold j_exec. rewrite !(bind_eq _ _ _ _ _ (id_field_eq s id f r rf _ Hi)).
    by apply (redirect_eq s id f r).
  - intros [Hop | [Hop Hfn]]; (eapply decode_run; [exact Hi|done| | | |]); fold i; rewrite ?Hop;
      [done|reflexivity|exact Hjal|done|done|reflexivity| |done].
    unfold funct_ctrl. rewrite (bind_eq _ _ _ _ _ (id_field_eq s id f r rf pl_instr Hi)).
    fold i. rewrite Hfn. exact Hjal.
  - intros a Hop Hfn Ha. split.
    + eapply decode_run; [exact Hi|done| | | |]; fold i; rewrite ?Hop; [done|reflexivity| |done].
      unfold funct_ctrl. rewrite (bind_eq _ _ _ _ _ (id_field_eq s id f r rf pl_instr Hi)).
      fold i. rewrite Hfn. transitivity (jr_exec s); [reflexivity|]. unfold jr_exec.
      rewrite (bind_eq _ _ _ _ _ (id_deref_eq s id f r rf alu_src_a a Hi Ha)).
      by apply (redirect_eq s id f r).
    + rewrite u32_add_l. f_equal. lia.
  - apply jump_target_next.
Qed.

End Branches.

(** The instruction [i] at 0x80000100 in ID, with the operands [a] and [b]. *)
Definition id_demo_reg (i : Z) : PipelineRegs :=
  (PipelineRegs_ctor 2 0x80000100 i) <| alu_src_a := PReg 1 |> <| alu_src_b := PReg 2 |>
    <| imm := u32 (s_immed i) |>.
Definition id_demo (i a b : Z) : t Demo.ideal :=
  (Demo.raw ∅) <| PL_REGS := [Some 1; Some 2; None; None; None] |>
    <| reg := <[1%nat := a]> (<[2%nat := b]> (replicate 32 0)) |>
    <| heap := {[ 1 := PipelineRegs_ctor 1 0x80000104 0; 2 := id_demo_reg i ]} |>.

Lemma in_id_demo i a b :
  in_id (id_demo i a b) 2 1 (id_demo_reg i) (PipelineRegs_ctor 1 0x80000104 0).
Proof. by split. Qed.

(** [bltzal r1, -1] on a negative word. *)
Lemma branch_decode_witness :
  let i := Demo.i_type OP_BCOND 1 BCONDE_BLTZAL 0xffff in
  ∃ s', decode (λ _, 0) Demo.demo_config 7 (id_demo i 0xfffffff0 0) = Some ((), s', []) ∧
    u32 (pc s' + 4) = 0x80000104.
Proof.
  intros i.
  destruct (branch_decode (λ _, 0) Demo.demo_config 7 (id_demo i 0xfffffff0 0) 2 1 (id_demo_reg i)
    (PipelineRegs_ctor 1 0x80000104 0) 0xfffffff0 0 true (in_id_demo i _ _)) as (E & Hpc & _);
    try reflexivity; [split; lia|].
  eexists. split; [exact E|]. rewrite Hpc. reflexivity.
Defined.

(** [j 0x80000400]; [jalr r31, r1]. *)
Lemma jump_decode_witness :
  (∃ s', decode (λ _, 0) Demo.demo_config 7 (id_demo (Z.lor (Z.shiftl OP_J 26) 0x100) 0 0) =
     Some ((), s', []) ∧ u32 (pc s' + 4) = 0x80000400) ∧
  (∃ s', decode (λ _, 0) Demo.demo_config 7 (id_demo (Demo.r_type 1 0 31 0 FUNCT_JALR) 0x80002000 0) =
     Some ((), s', []) ∧ u32 (pc s' + 4) = 0x8083e024).
Proof.
  split.
  - destruct (jump_decode (λ _, 0) Demo.demo_config 7 (id_demo (Z.lor (Z.shiftl OP_J 26) 0x100) 0 0) 2 1
      _ _ (in_id_demo _ _ _)) as (Hj & _); [reflexivity|reflexivity|].
    eexists. split; [exact (Hj eq_refl)|reflexivity].
  - destruct (jump_decode (λ _, 0) Demo.demo_config 7 (id_demo (Demo.r_type 1 0 31 0 FUNCT_JALR) 0x80002000 0)
      2 1 _ _ (in_id_demo _ _ _)) as (_ & Hj & _); [reflexivity|reflexivity|].
    eexists. split; [exact (Hj (or_intror (conj eq_refl eq_refl)))|reflexivity].
Defined.

(** ** The multiplication unit and the coprocessor stalls *)

Section Timing.
  Context {B : Type} `{MemPort B}.
  Variable calculateIP : B → Z.
  Variable cfg : config.
  Variable me : Z.
  Implicit Types (s : t B) (r : PipelineRegs).

(** High and low words of the instruction [fn]; [None] traps. *)
Definition muldiv_spec (fn a b : Z) : option (Z * Z) :=
  if fn =? FUNCT_MULT then Some (mult64s (s32 a) (s32 b))
  else if fn =? FUNCT_MULTU then Some (mult64 a b)
  else if fn =? FUNCT_DIV then ((λ '(q, m), (m, q)) <$> div_result a b)
  else if fn =? FUNCT_DIVU then ((λ '(q, m), (m, q)) <$> divu_result a b)
  else None.

(** The state while the unit works and once it has finished. *)
Definition unit_busy s (h l n : Z) : t B :=
  s <| hi_temp := h |> <| lo_temp := l |> <| hi_write := true |> <| lo_write := true |>
    <| mul_div_remain := n |>.
Definition unit_done s (h l : Z) : t B :=
  s <| hi_temp := h |> <| lo_temp := l |> <| hi_write := false |> <| lo_write := false |>
    <| mul_div_remain := 0 |> <| hi := h |> <| lo := l |>.

Lemma muldiv_exec s ex r a b h l : in_ex s ex r → opcode (pl_instr r) = OP_SPECIAL →
  val s (alu_src_a r) = Some a → val s (alu_src_b r) = Some b → exception_pending s = false →
  muldiv_spec (funct (pl_instr r)) a b = Some (h, l) →
  execute me s = Some ((), unit_busy s h l (mul_div_delay (funct (pl_instr r))), []) ∧
  1 < mul_div_delay (funct (pl_instr r)).
Proof.
  intros He Hop Ha Hb Hp Hspec.
  assert (Ea : ∀ (k : Z → M (t B) unit), (x ← ex_deref alu_src_a; k x) s = k a s)
    by (intros k; apply bind_eq; by eapply ex_deref_eq).
  assert (Eb : ∀ (k : Z → M (t B) unit), (x ← ex_deref alu_src_b; k x) s = k b s)
    by (intros k; apply bind_eq; by eapply ex_deref_eq).
  pose proof He as [Hst Hr]. unfold muldiv_spec in Hspec. unfold execute.
  rewrite (bind_eq _ _ _ _ _ (stage_eq _ _ _ Hst)), (bind_eq _ _ _ _ _ (field_eq _ _ _ _ Hr)), Hop.
  change (exec_table me OP_SPECIAL) with (Some (funct_exec (B := B))). cbv iota.
  assert (Hwr : ∀ p, write_hi_lo p s = Some ((), s <| hi_temp := fst p |> <| lo_temp := snd p |>
    <| hi_write := true |> <| lo_write := true |>, [])) by reflexivity.
  assert (Hf : funct_exec s = write_hi_lo (h, l) s ∧ flag_at mul_div_flag (funct (pl_instr r)) = true ∧
    1 < mul_div_delay (funct (pl_instr r))).
  { unfold funct_exec, ex_field. rewrite bind_assoc, (bind_eq _ _ _ _ _ (stage_eq _ _ _ Hst)).
    rewrite (bind_eq _ _ _ _ _ (field_eq _ _ _ _ Hr)).
    generalize dependent (funct (pl_instr r)). intros fn Hspec.
    destruct (Z.eqb_spec fn FUNCT_MULT) as [E|_].
    { rewrite E. apply (inj Some) in Hspec. split; [|done].
      transitivity (mult_exec s); [reflexivity|]. unfold mult_exec. rewrite Ea, Eb. by rewrite Hspec. }
    destruct (Z.eqb_spec fn FUNCT_MULTU) as [E|_].
    { rewrite E. apply (inj Some) in Hspec. split; [|done].
      transitivity (multu_exec s); [reflexivity|]. unfold multu_exec. rewrite Ea, Eb. by rewrite Hspec. }
    destruct (Z.eqb_spec fn FUNCT_DIV) as [E|_].
    { rewrite E. apply fmap_Some in Hspec as ([q m] & Hd & [= -> ->]). split; [|done].
      transitivity (div_exec s); [reflexivity|]. unfold div_exec. by rewrite Ea, Eb, Hd. }
    destruct (Z.eqb_spec fn FUNCT_DIVU) as [E|_]; [|done]. rewrite E.
    apply fmap_Some in Hspec as ([q m] & Hd & [= -> ->]). split; [|done].
    transitivity (divu_exec s); [reflexivity|]. unfold divu_exec. by rewrite Ea, Eb, Hd. }
  destruct Hf as (Hf & Hm & Hd). split; [|done].
  rewrite Hwr in Hf. rewrite (bind_eq _ _ _ _ _ Hf), Hm. cbn [andb when Z.eqb OP_SPECIAL].
  rewrite (bind_eq _ _ _ () (unit_busy s h l (mul_div_delay (funct (pl_instr r))))) by reflexivity.
  by apply store_exception_false.
Qed.

Lemma mul_div_busy s h l n k : Z.of_nat k < n →
  for_each (replicate k ()) (λ _, mul_div_step) (unit_busy s h l n) =
    Some ((), unit_busy s h l (n - Z.of_nat k), []).
Proof.
  revert n. induction k as [|k IH]; intros n Hk.
  - cbn [replicate for_each]. by rewrite Z.sub_0_r.
  - cbn [replicate for_each]. rewrite (bind_eq _ _ _ () (unit_busy s h l (n - 1))).
    + rewrite IH by lia. do 4 f_equal. lia.
    + unfold mul_div_step. rewrite gets_bind.
      change (mul_div_remain (unit_busy s h l n)) with n.
      destruct (Z.ltb_spec 0 n); [|lia]. cbn [when].
      rewrite (bind_eq _ _ _ () (unit_busy s h l (n - 1))) by reflexivity.
      destruct (Z.eqb_spec (n - 1) 0); [lia|]. reflexivity.
Qed.

(** C26 multiplication and division: the instruction starts the unit, which keeps
    HI and LO as they were for its latency less one cycle and makes every
    instruction that uses it wait; in the last cycle HI and LO receive the
    product, or the remainder and the quotient. *)
Theorem muldiv_latency s ex r a b h l (He : in_ex s ex r)
    (Hop : opcode (pl_instr r) = OP_SPECIAL)
    (Ha : val s (alu_src_a r) = Some a) (Hb : val s (alu_src_b r) = Some b)
    (Hp : exception_pending s = false)
    (Hspec : muldiv_spec (funct (pl_instr r)) a b = Some (h, l)) :
  let n := mul_div_delay (funct (pl_instr r)) in
  ∃ s1, execute me s = Some ((), s1, []) ∧
    (∀ k, 0 ≤ Z.of_nat k < n → ∃ s2,
       for_each (replicate k ()) (λ _, mul_div_step) s1 = Some ((), s2, []) ∧
       hi s2 = hi s ∧ lo s2 = lo s ∧
       ∀ ex' r', in_ex (s2 : t B) ex' r' → opcode (pl_instr r') = OP_SPECIAL →
         pre_execute s2 = Some (flag_at mul_div_flag (funct (pl_instr r')), s2, [])) ∧
    for_each (replicate (Z.to_nat n) ()) (λ _, mul_div_step) s1 = Some ((), unit_done s h l, []).
Proof.
  intros n. destruct (muldiv_exec s ex r a b h l He Hop Ha Hb Hp Hspec) as [E Hn]. fold n in E, Hn.
  exists (unit_busy s h l n). split; [exact E|]. split.
  - intros k Hk. exists (unit_busy s h l (n - Z.of_nat k)).
    split; [apply mul_div_busy; lia|]. split; [done|]. split; [done|].
    intros ex' r' [Hst Hr] Hop'. unfold pre_execute, ex_field.
    rewrite bind_assoc, (bind_eq _ _ _ _ _ (stage_eq _ _ _ Hst)), (bind_eq _ _ _ _ _ (field_eq _ _ _ _ Hr)).
    rewrite gets_bind, Hop'. change (mul_div_remain _) with (n - Z.of_nat k).
    destruct (Z.ltb_spec 0 (n - Z.of_nat k)); [|lia]. by rewrite andb_true_r.
  - replace (Z.to_nat n) with (Z.to_nat (n - 1) + 1)%nat by lia. rewrite replicate_add.
    assert (Happ : ∀ (l1 l2 : list ()) (f : () → M (t B) unit) s0 s1,
      for_each l1 f s0 = Some ((), s1, []) → for_each (l1 ++ l2) f s0 = for_each l2 f s1).
    { induction l1 as [|x l1 IH]; intros l2 g s0 s1 E1; simpl in *; [by injection E1 as ->|].
      apply mbind_Some in E1 as ([] & s' & e1 & e2 & E1 & E2 & [-> ->]%eq_sym%app_nil).
      rewrite (bind_eq _ _ _ _ _ E1). by apply IH. }
    rewrite (Happ _ _ _ _ _ (mul_div_busy s h l n (Z.to_nat (n - 1)) ltac:(lia))).
    replace (n - Z.of_nat (Z.to_nat (n - 1))) with 1 by lia. reflexivity.
Qed.

End Timing.

(** [multu] of 0x80000000 by 6: HI is 3 and LO 0 once the latency is over. *)
Definition mul_demo : t Demo.ideal :=
  (Demo.raw ∅) <| PL_REGS := [None; None; Some 2; None; None] |>
    <| reg := <[1%nat := 0x80000000]> (<[2%nat := 6]> (replicate 32 0)) |>
    <| heap := {[ 2 := (PipelineRegs_ctor 2 0x80000100 (Demo.r_type 1 2 0 0 FUNCT_MULTU))
                         <| alu_src_a := PReg 1 |> <| alu_src_b := PReg 2 |> ]} |>.
Lemma muldiv_latency_witness :
  ∃ s1, execute 7 mul_demo = Some ((), s1, []) ∧
    for_each (replicate (Z.to_nat (mul_div_delay FUNCT_MULTU)) ()) (λ _, mul_div_step) s1 =
      Some ((), unit_done mul_demo 3 0, []).
Proof.
  destruct (muldiv_latency 7 mul_demo 2 _ 0x80000000 6 3 0 (conj eq_refl eq_refl)) as (s1 & E & _ & H);
    try reflexivity.
  by exists s1.
Defined.

End Exec.
