(* ===== verification/Router.v ===== *)
(** * Router: the routers of the three-dimensional network (router.h, router.cc)

    A router has three input channels and three output channels (local, lower
    and upper) joined by a crossbar.  Objects that the source reaches through
    pointers are keys: a channel is named by its port, a [RouterPortSlave] and a
    ready array by an address of [Links].  [int] counters are unbounded (their
    overflow is undefined); times, which come from the [uint32] cycle counter,
    keep their width. *)

From S2P Require Import Prelude Effects Types.

(** ** Flits *)
Module RouterUtils.

Definition FTYPE_IDLE : Z := 0.
Definition FTYPE_HEAD : Z := 1.
Definition FTYPE_TAIL : Z := 2.
Definition FTYPE_HEADTAIL : Z := 3.
Definition FTYPE_DATA : Z := 4.
Definition FTYPE_RESERVED : Z := 5.
Definition FTYPE_ACK1 : Z := 6.
Definition FTYPE_ACK2 : Z := 7.
Definition MTYPE_SW : Z := 1.
Definition MTYPE_BW : Z := 2.
Definition MTYPE_SR : Z := 3.
Definition MTYPE_BR : Z := 4.
Definition MTYPE_DONE : Z := 7.
Definition FLIT_DST_MASK : Z := 0x3.
Definition FLIT_SRC_LSB : Z := 2.
Definition FLIT_SRC_MASK : Z := 0xc.
Definition FLIT_VCH_LSB : Z := 4.
Definition FLIT_VCH_MASK : Z := 0x70.
Definition FLIT_MT_LSB : Z := 7.
Definition FLIT_MT_MASK : Z := 0x380.
Definition FLIT_MEMA_LSB : Z := 10.
Definition FLIT_ACK_ENTRY : nat := 4.
Definition FLIT_ACK_CNT_BIT : Z := 4.
Definition ACK_COUNT_MAX : Z := 15.
Definition VCH_SIZE : nat := 8.
Definition ACK_VCH : Z := 0.

Record FLIT_t := MkFlit { ftype : Z; data : Z }.     (* uint32 *)
#[global] Instance FLIT_eq_dec : EqDecision FLIT_t.
Proof. solve_decision. Defined.
Record FLIT_ENTRY_t := MkEntry { flit : FLIT_t; vch : Z }.
#[global] Instance ENTRY_eq_dec : EqDecision FLIT_ENTRY_t.
Proof. solve_decision. Defined.

Definition make_head_flit (addr mtype vch src dst : Z) (tail : bool) : FLIT_t :=
  MkFlit (if tail then FTYPE_HEADTAIL else FTYPE_HEAD)
    (u32 (u32 (Z.shiftl addr FLIT_MEMA_LSB)
          + Z.land (u32 (Z.shiftl mtype FLIT_MT_LSB)) FLIT_MT_MASK
          + Z.land (u32 (Z.shiftl src FLIT_SRC_LSB)) FLIT_SRC_MASK
          + Z.land (u32 (Z.shiftl vch FLIT_VCH_LSB)) FLIT_VCH_MASK
          + Z.land dst FLIT_DST_MASK)).

Definition make_data_flit (d : Z) (tail : bool) : FLIT_t :=
  MkFlit (if tail then FTYPE_TAIL else FTYPE_DATA) d.

(** One entry of an acknowledgement: the count, or the largest that fits. *)
Definition ack_field (c : Z) : Z :=
  if Z.shiftl 1 FLIT_ACK_CNT_BIT <=? c then ACK_COUNT_MAX else Z.land c ACK_COUNT_MAX.
Fixpoint ack_data (i : Z) (n : nat) (cnt : list Z) (d : Z) : option Z :=
  match n with
  | O => Some d
  | S n =>
      match cnt with
      | [] => None
      | c :: cnt => ack_data (i + 1) n cnt (Z.lor d (u32 (Z.shiftl (ack_field c) (FLIT_ACK_CNT_BIT * i))))
      end
  end.
Definition make_ack_flit (ft : Z) (cnt : list Z) : option FLIT_t :=
  MkFlit ft <$> ack_data 0 FLIT_ACK_ENTRY cnt 0.

(** [addr], [mtype], [vch], [src] and [dst]. *)
Definition decode_headflit (f : FLIT_t) : Z * Z * Z * Z * Z :=
  if (ftype f =? FTYPE_HEAD) || (ftype f =? FTYPE_HEADTAIL) then
    (Z.shiftr (data f) FLIT_MEMA_LSB,
     Z.shiftr (Z.land (data f) FLIT_MT_MASK) FLIT_MT_LSB,
     Z.shiftr (Z.land (data f) FLIT_VCH_MASK) FLIT_VCH_LSB,
     Z.shiftr (Z.land (data f) FLIT_SRC_MASK) FLIT_SRC_LSB,
     Z.land (data f) FLIT_DST_MASK)
  else (0, 0, 0, 0, 0).

(** The counts of an acknowledgement, from the low entry up. *)
Fixpoint ack_counts (n : nat) (d : Z) : list Z :=
  match n with
  | O => []
  | S n => Z.land d (Z.shiftl 1 FLIT_ACK_CNT_BIT - 1) :: ack_counts n (Z.shiftr d FLIT_ACK_CNT_BIT)
  end.
Definition decode_ack (f : FLIT_t) : list Z :=
  let half := (VCH_SIZE / 2)%nat in
  if ftype f =? FTYPE_ACK2 then replicate half 0 ++ ack_counts half (data f)
  else ack_counts half (data f) ++ replicate half 0.

Definition extractDst (f : FLIT_t) : Z := Z.land (data f) FLIT_DST_MASK.

Definition is_ack (f : FLIT_t) : bool := (ftype f =? FTYPE_ACK1) || (ftype f =? FTYPE_ACK2).
Definition is_head (f : FLIT_t) : bool := (ftype f =? FTYPE_HEAD) || (ftype f =? FTYPE_HEADTAIL).
Definition is_tail (f : FLIT_t) : bool := (ftype f =? FTYPE_HEADTAIL) || (ftype f =? FTYPE_TAIL).

End RouterUtils.

(** ** The ports between routers, accelerators and the router interface *)
Module Links.
Import RouterUtils.

(** A [RouterPortSlave]: where it reads whether it is ready, and its queue. *)
Record slave := MkSlave {
  readyStat : option Z;
  buf : list FLIT_ENTRY_t
}.
#[global] Instance slave_eta : Eta slave := λ s, MkSlave (readyStat s) (buf s).

Record t := Mk {
  slaves : gmap Z slave;
  rdy : gmap Z (list bool)        (* bool[VCH_SIZE] *)
}.
#[global] Instance t_eta : Eta t := λ l, Mk (slaves l) (rdy l).

Definition clearBuf : M slave unit := buf <~ [].
Definition setReadyStat (a : option Z) : M slave unit := readyStat <~ a.
Definition pushData (f : FLIT_t) (v : Z) : M slave unit :=
  modify (λ s, s <| buf ::= λ b, b ++ [MkEntry f v] |>).
Definition haveData : M slave bool := b ← gets buf; mret (negb (bool_decide (b = []))).
(** [front] and [pop] of an empty queue are undefined. *)
Definition getData : M slave FLIT_ENTRY_t :=
  b ← gets buf;
  match b with [] => crash | e :: b => buf <~ b;; mret e end.

Definition isReady (a v : Z) : M t bool :=
  r ← zoom_key slaves a (gets readyStat);
  match r with
  | Some p => l ← gets rdy; l ← from_option (l !! p); from_option (nthz l v)
  | None => mret true
  end.

(** [RouterPortMaster]: the slave it is connected to. *)
Definition slaveReady (connectedSlave : option Z) (v : Z) : M t bool :=
  match connectedSlave with Some a => isReady a v | None => mret true end.
Definition send (connectedSlave : option Z) (f : FLIT_t) (v : Z) : M t unit :=
  match connectedSlave with Some a => zoom_key slaves a (pushData f v) | None => mret () end.

End Links.

(** ** Output channels *)
Module OutputChannel.
Import RouterUtils.

Record t := Mk {
  readyStat : list bool;          (* bool[VCH_SIZE] *)
  oport : option Z;               (* connectedSlave of the port *)
  obuf : list FLIT_ENTRY_t;
  ackEnabled : bool;
  iackbuf : list FLIT_t;
  send_count : list Z;            (* int[VCH_SIZE] *)
  ack_count : list Z;
  bufMaxSize : Z;
  packetMaxSize : Z;
  send_flit_count : Z
}.
#[global] Instance t_eta : Eta t := λ c,
  Mk (readyStat c) (oport c) (obuf c) (ackEnabled c) (iackbuf c) (send_count c) (ack_count c)
     (bufMaxSize c) (packetMaxSize c) (send_flit_count c).

Record sys := MkSys { self : t; links : Links.t }.
#[global] Instance sys_eta : Eta sys := λ s, MkSys (self s) (links s).

(** [OutputChannel::OutputChannel], run on the memory of the new object. *)
Definition OutputChannel (vcbufsize dcachebsize : Z) (oport_ : option Z) (ackEnabled_ : bool)
    (raw : t) : t :=
  raw <| oport := oport_ |> <| ackEnabled := ackEnabled_ |> <| obuf := [] |> <| iackbuf := [] |>
      <| bufMaxSize := s32 vcbufsize |> <| packetMaxSize := Z.quot dcachebsize 4 + 1 |>.

Definition reset : M t unit :=
  obuf <~ [];; iackbuf <~ [];;
  readyStat <~ replicate VCH_SIZE true;;
  send_count <~ replicate VCH_SIZE 0;;
  ack_count <~ replicate VCH_SIZE 0;;
  send_flit_count <~ 0.

Definition ackFormer (now : Z) : bool := now mod 2 =? 0.

(** The entries of the array from [lo] on that an acknowledgement leaves. *)
Definition ack1_left (c : Z) : Z := if ACK_COUNT_MAX <? c then c - ACK_COUNT_MAX else 0.
Definition ack2_left (c : Z) : Z := if ACK_COUNT_MAX <? c then c else 0.

Definition oport_send (f : FLIT_t) (v : Z) : M sys unit :=
  p ← gets (λ s, oport (self s)); zoom links (Links.send p f v);;
  modify (λ s, s <| self ::= λ c, c <| send_flit_count ::= λ n, n + 1 |> |>).

Definition ackSend (now : Z) : M sys unit :=
  cnt ← gets (λ s, ack_count (self s));
  let half := (VCH_SIZE / 2)%nat in
  let lo := take half cnt in let hi := drop half cnt in
  if ackFormer now then
    when (existsb nz lo)
      (f ← from_option (make_ack_flit FTYPE_ACK1 cnt);
       oport_send f ACK_VCH;;
       modify (λ s, s <| self ::= λ c, c <| ack_count := (ack1_left <$> lo) ++ hi |> |>))
  else
    when (existsb nz hi)
      (f ← from_option (make_ack_flit FTYPE_ACK2 hi);
       oport_send f ACK_VCH;;
       modify (λ s, s <| self ::= λ c, c <| ack_count := lo ++ (ack2_left <$> hi) |> |>)).

(** The counter of a virtual channel, one up. *)
Definition count_up (p : t → list Z) `{!Setter p} (v : Z) : M t unit :=
  n ← aget p v; aset p v (n + 1).

Definition step (now : Z) : M sys unit :=
  ob ← gets (λ s, obuf (self s));
  en ← gets (λ s, ackEnabled (self s));
  change ←
    match ob with
    | e :: ob' =>
        oport_send (flit e) (vch e);;
        modify (λ s, s <| self ::= λ c, c <| obuf := ob' |> |>);;
        when en (zoom self (count_up send_count (vch e)));;
        mret en
    | [] => when en (ackSend now);; mret false
    end;
  acks ← gets (λ s, iackbuf (self s));
  change' ←
    match acks with
    | f :: acks' =>
        modify (λ s, s <| self ::= λ c, c <| iackbuf := acks' |>
          <| send_count ::= λ l, zip_with Z.sub l (decode_ack f) |> |>);;
        mret true
    | [] => mret change
    end;
  when (change' && en)
    (modify (λ s, s <| self ::= λ c, c <| readyStat :=
       (λ n, packetMaxSize c <=? bufMaxSize c - n) <$> send_count c |> |>)).

Definition pushData (f : FLIT_t) (v : Z) : M t unit :=
  modify (λ c, c <| obuf ::= λ b, b ++ [MkEntry f v] |>).
Definition pushAck (f : FLIT_t) : M t unit := modify (λ c, c <| iackbuf ::= λ b, b ++ [f] |>).
Definition ackIncrement (v : Z) : M t unit := count_up ack_count v.
Definition ocReady (v : Z) : M t bool :=
  en ← gets ackEnabled; if (en : bool) then aget readyStat v else mret true.
Definition get_send_flit_count (c : t) : Z := send_flit_count c.

End OutputChannel.

(** ** The crossbar *)
Module Crossbar.
Import RouterUtils.

Definition LOCAL_PORT : Z := 0.
Definition LOWER_PORT : Z := 1.
Definition UPPER_PORT : Z := 2.

(** The output channels are the crossbar's to reach; a channel is the number of
    its port, and the input channel that [ic_oc_map] pairs with an output channel
    has the number of the same port. *)
Record t := Mk {
  ocs : gmap Z OutputChannel.t;
  sender_update_time : Z;
  oc_last_sender : gmap Z Z;      (* absent: NULL *)
  close_pending : gset Z
}.
#[global] Instance t_eta : Eta t := λ c,
  Mk (ocs c) (sender_update_time c) (oc_last_sender c) (close_pending c).

Definition reset (now : Z) : M t unit :=
  sender_update_time <~ s32 now;;
  oc_last_sender <~ ∅;;
  close_pending <~ ∅.

Definition step_port (p : Z) : M t unit :=
  c ← gets close_pending;
  when (bool_decide (p ∈ c))
    (modify (λ x, x <| close_pending ::= λ c, c ∖ {[ p ]} |>);;
     modify (λ x, x <| oc_last_sender ::= delete p |>)).
Definition step : M t unit := step_port LOCAL_PORT;; step_port LOWER_PORT;; step_port UPPER_PORT.

(** [default: abort()] *)
Definition valid_port (p : Z) : bool :=
  (p =? LOCAL_PORT) || (p =? LOWER_PORT) || (p =? UPPER_PORT).

Definition send (ic : Z) (f : FLIT_t) (v port : Z) : M t unit :=
  if valid_port port then
    zoom_key ocs port (OutputChannel.pushData f v);;
    zoom_key ocs ic (OutputChannel.ackIncrement v)
  else crash.

Definition ready (ic v port : Z) : M t bool :=
  if valid_port port then
    r ← zoom_key ocs port (OutputChannel.ocReady v);
    if (r : bool) then
      m ← gets oc_last_sender;
      match m !! port with
      | None => modify (λ x, x <| oc_last_sender ::= <[port := ic]> |>);; mret true
      | Some last => mret (last =? ic)
      end
    else mret false
  else crash.

Definition close (port : Z) : M t unit :=
  if valid_port port then modify (λ x, x <| close_pending ::= λ c, {[ port ]} ∪ c |>) else crash.

Definition forwardAck (ic : Z) (f : FLIT_t) : M t unit :=
  zoom_key ocs ic (OutputChannel.pushAck f).

End Crossbar.

(** ** Input channels *)
Module InputChannel.
Import RouterUtils.

Definition VC_STATE_RC : Z := 0.
Definition VC_STATE_VSA : Z := 1.
Definition VC_STATE_ST : Z := 2.

(** What the arrays of the channel hold for one virtual channel. *)
Record vc := MkVC {
  vc_state : Z;
  vc_next_state : Z;
  vc_last_state_update_time : Z;     (* int *)
  request_pending : bool;
  ibuf : list FLIT_t;
  send_port : Z                      (* uint32 *)
}.
#[global] Instance vc_eta : Eta vc := λ c,
  MkVC (vc_state c) (vc_next_state c) (vc_last_state_update_time c) (request_pending c) (ibuf c)
       (send_port c).

Record t := Mk {
  iport : Z;                         (* the slave *)
  ordy : option Z;                   (* the ready array *)
  vcs : list vc;                     (* VCH_SIZE of them *)
  granted_vc : Z;
  grant_release_time : Z;            (* int *)
  holding : bool;
  bufMaxSize : Z;
  packetMaxSize : Z
}.
#[global] Instance t_eta : Eta t := λ c,
  Mk (iport c) (ordy c) (vcs c) (granted_vc c) (grant_release_time c) (holding c) (bufMaxSize c)
     (packetMaxSize c).

(** The channel, with the crossbar and the links it reaches. *)
Record sys := MkSys { self : t; cb : Crossbar.t; links : Links.t }.
#[global] Instance sys_eta : Eta sys := λ s, MkSys (self s) (cb s) (links s).

Definition InputChannel (vcbufsize dcachebsize : Z) (iport_ : Z) (ordy_ : option Z) (raw : t) : t :=
  raw <| iport := iport_ |> <| ordy := ordy_ |>
      <| vcs ::= fmap (λ c, c <| vc_last_state_update_time := 0 |> <| ibuf := [] |>) |>
      <| bufMaxSize := s32 vcbufsize |> <| packetMaxSize := Z.quot dcachebsize 4 + 1 |>.

Definition reset_vc (c : vc) : vc :=
  c <| ibuf := [] |> <| vc_state := VC_STATE_RC |> <| vc_next_state := VC_STATE_RC |>
    <| request_pending := false |>.
Definition reset (now : Z) : M sys unit :=
  modify (λ s, s <| self ::= λ c, c <| vcs ::= fmap reset_vc |> |>);;
  c ← gets self;
  zoom links (zoom_key Links.slaves (iport c) Links.clearBuf);;
  (match ordy c with
   | Some a => zoom links (zoom_key Links.rdy a (id <~ replicate VCH_SIZE true))
   | None => mret ()
   end);;
  modify (λ s, s <| self ::= λ c, c <| granted_vc := 0 |> <| holding := false |>
    <| grant_release_time := s32 now |> |>).

(** [rtcomp]: the comparison with the [int] is unsigned. *)
Definition rtcomp (xpos dst : Z) : Z :=
  if dst =? u32 xpos then Crossbar.LOCAL_PORT
  else if u32 xpos <? dst then Crossbar.LOWER_PORT else Crossbar.UPPER_PORT.

Definition vget {A} (i : nat) (f : vc → A) : M sys A :=
  l ← gets (λ s, vcs (self s)); c ← from_option (l !! i); mret (f c).
Definition vset (i : nat) (f : vc → vc) : M sys unit :=
  modify (λ s, s <| self ::= λ c, c <| vcs ::= alter f i |> |>).

Definition request (i : nat) : M sys unit := vset i (λ c, c <| request_pending := true |>).
Definition isGranted (i : nat) : M sys bool := gets (λ s, granted_vc (self s) =? Z.of_nat i).
Definition hold : M sys unit := modify (λ s, s <| self ::= λ c, c <| holding := true |> |>).
Definition release (now : Z) : M sys unit :=
  modify (λ s, s <| self ::= λ c, c <| holding := false |> <| grant_release_time := s32 now |> |>).

Section Step.
  (** [machine->num_cycles], [*xpos] and this channel's number *)
  Variable now xpos me : Z.

Definition pop (i : nat) : M sys unit := vset i (λ c, c <| ibuf ::= tail |>).

(** The flit at the head of virtual channel [i]; the new value of [vc_hold]. *)
Definition serve (i : nat) (flit : FLIT_t) (vc_hold : bool) : M sys bool :=
  st ← vget i vc_state;
  if st =? VC_STATE_ST then
    next ← vget i vc_next_state;
    when (negb (next =? VC_STATE_RC))
      (pop i;;
       port ← vget i send_port;
       zoom cb (Crossbar.send me flit (Z.of_nat i) port);;
       when (is_tail flit)
         (vset i (λ c, c <| vc_next_state := VC_STATE_RC |>);;
          release now;;
          zoom cb (Crossbar.close port)));;
    mret true
  else if st =? VC_STATE_VSA then
    g ← isGranted i;
    if negb g && negb vc_hold then request i;; mret true
    else
      port ← vget i send_port;
      r ← zoom cb (Crossbar.ready me (Z.of_nat i) port);
      if g && r then vset i (λ c, c <| vc_next_state := VC_STATE_ST |>);; hold;; mret true
      else mret vc_hold
  else if st =? VC_STATE_RC then
    when (is_head flit)
      (vset i (λ c, c <| vc_next_state := VC_STATE_VSA |>
                      <| send_port := rtcomp xpos (extractDst flit) |>));;
    mret vc_hold
  else mret vc_hold.

Definition step_vc (i : nat) (vc_hold : bool) : M sys bool :=
  b ← vget i ibuf;
  vc_hold ←
    match b with
    | [] => mret vc_hold
    | flit :: _ =>
        if is_ack flit then zoom cb (Crossbar.forwardAck me flit);; pop i;; mret vc_hold
        else serve i flit vc_hold
    end;
  last ← vget i vc_last_state_update_time;
  when (last <? s32 now)
    (vset i (λ c, c <| vc_state := vc_next_state c |> <| vc_last_state_update_time := s32 now |>));;
  mret vc_hold.

Fixpoint step_vcs (i n : nat) (vc_hold : bool) : M sys unit :=
  match n with
  | O => mret ()
  | S n => vc_hold ← step_vc i vc_hold; step_vcs (S i) n vc_hold
  end.

(** Handle the input data. *)
Definition receive : M sys unit :=
  a ← gets (λ s, iport (self s));
  have ← zoom links (zoom_key Links.slaves a Links.haveData);
  when have
    (e ← zoom links (zoom_key Links.slaves a Links.getData);
     l ← gets (λ s, vcs (self s));
     _ ← from_option (nthz l (vch e));
     vset (Z.to_nat (vch e)) (λ c, c <| ibuf ::= λ b, b ++ [flit e] |>)).

(** [bufMaxSize - ibuf[i].size() >= packetMaxSize], in [size_t]. *)
Definition has_room (bufMaxSize packetMaxSize : Z) (c : vc) : bool :=
  u64 packetMaxSize <=? u64 (bufMaxSize - Z.of_nat (length (ibuf c))).
Definition update_ordy : M sys unit :=
  c ← gets self;
  match ordy c with
  | Some a =>
      zoom links (zoom_key Links.rdy a
        (id <~ has_room (bufMaxSize c) (packetMaxSize c) <$> vcs c))
  | None => mret ()
  end.

(** The first pending request, from [i] on. *)
Fixpoint first_request (i : nat) (l : list vc) : option nat :=
  match l with
  | [] => None
  | c :: l => if request_pending c then Some i else first_request (S i) l
  end.
Definition arbitrate : M sys unit :=
  c ← gets self;
  when (negb (holding c) && (u32 (grant_release_time c) <? now))
    match first_request 0 (vcs c) with
    | Some i =>
        vset i (λ c, c <| request_pending := false |>);;
        modify (λ s, s <| self ::= λ c, c <| granted_vc := Z.of_nat i |> |>)
    | None => mret ()
    end.

Definition step : M sys unit :=
  step_vcs 0 VCH_SIZE false;; receive;; update_ordy;; arbitrate.

End Step.

End InputChannel.

(** ** The router *)
Module Router.
Import RouterUtils.

Record t := Mk {
  myid : Z;                               (* int *)
  ics : gmap Z InputChannel.t;            (* icLocal, icLower, icUpper by port *)
  cb : Crossbar.t;                        (* with ocLocal, ocLower, ocUpper *)
  icLocalRdy : Z;                         (* the address of the array *)
  fromLocal : Z; fromLower : Z; fromUpper : Z
}.
#[global] Instance t_eta : Eta t := λ r,
  Mk (myid r) (ics r) (cb r) (icLocalRdy r) (fromLocal r) (fromLower r) (fromUpper r).

Record sys := MkSys { self : t; links : Links.t }.
#[global] Instance sys_eta : Eta sys := λ s, MkSys (self s) (links s).

(** Run an action of an output channel, of an input channel, of the crossbar. *)
Definition on_oc {A} (p : Z) (m : M OutputChannel.sys A) : M sys A := λ s,
  match Crossbar.ocs (cb (self s)) !! p with
  | None => None
  | Some c =>
      match m (OutputChannel.MkSys c (links s)) with
      | None => None
      | Some (a, OutputChannel.MkSys c' l, e) =>
          Some (a, MkSys ((self s) <| cb ::= λ x, x <| Crossbar.ocs ::= <[p := c']> |> |>) l, e)
      end
  end.
Definition on_ic {A} (p : Z) (m : M InputChannel.sys A) : M sys A := λ s,
  match ics (self s) !! p with
  | None => None
  | Some c =>
      match m (InputChannel.MkSys c (cb (self s)) (links s)) with
      | None => None
      | Some (a, InputChannel.MkSys c' x l, e) =>
          Some (a, MkSys ((self s) <| ics ::= <[p := c']> |> <| cb := x |>) l, e)
      end
  end.
Definition on_cb {A} (m : M Crossbar.t A) : M sys A := zoom self (zoom cb m).

Definition ports : list Z := [Crossbar.LOCAL_PORT; Crossbar.UPPER_PORT; Crossbar.LOWER_PORT].

Definition step (now : Z) : M sys unit :=
  for_each ports (λ p, on_oc p (OutputChannel.step now));;
  for_each ports (λ p,
    xpos ← gets (λ s, myid (self s)); on_ic p (InputChannel.step now xpos p));;
  on_cb Crossbar.step.

Definition reset (now : Z) : M sys unit :=
  for_each ports (λ p, on_ic p (InputChannel.reset now));;
  on_cb (Crossbar.reset now);;
  for_each ports (λ p, on_oc p (zoom OutputChannel.self OutputChannel.reset)).

Definition setID (id_ : Z) : M t unit := myid <~ s32 id_.

(** [Router::Router].  The new objects take the addresses [a .. a + 2] (ports)
    and [a] (the ready array); [raw_ic], [raw_oc] and [raw_rdy] are the memory of
    the new objects.  The upper router's lower port and the client's port are connected
    in their owners, which the caller passes on and gets back. *)
Definition connect_port (p : Z) (a : Z) (r : t) : t :=
  r <| cb ::= λ x, x <| Crossbar.ocs ::= alter (λ c, c <| OutputChannel.oport := Some a |>) p |> |>.

Definition Router (vcbufsize dcachebsize : Z) (raw_ic : Z → InputChannel.t)
    (raw_oc : Z → OutputChannel.t) (raw_rdy : list bool) (a localRx : Z) (upperRouter : option t)
    (id_ : Z) (l : Links.t) : t * option t * Links.t :=
  let ic p ordy := InputChannel.InputChannel vcbufsize dcachebsize (a + p) ordy (raw_ic p) in
  let oc p out en := OutputChannel.OutputChannel vcbufsize dcachebsize out en (raw_oc p) in
  let L := Crossbar.LOCAL_PORT in let U := Crossbar.UPPER_PORT in let D := Crossbar.LOWER_PORT in
  let ocs := <[L := oc L (Some localRx) false]>
    (<[U := oc U (fromLower <$> upperRouter) true]> (<[D := oc D None true]> ∅)) in
  (Mk id_
     (<[L := ic L (Some a)]> (<[U := ic U None]> (<[D := ic D None]> ∅)))
     (Crossbar.Mk ocs 0 ∅ ∅) a (a + L) (a + D) (a + U),
   connect_port D (a + U) <$> upperRouter,
   Links.Mk
     (<[a + L := Links.MkSlave (Some a) []]> (<[a + D := Links.MkSlave None []]>
        (<[a + U := Links.MkSlave None []]> (Links.slaves l))))
     (<[a := raw_rdy]> (Links.rdy l))).

(** The flits that [report_router] counts. *)
Definition report_router (r : t) : option (Z * Z) :=
  match Crossbar.ocs (cb r) !! Crossbar.UPPER_PORT, Crossbar.ocs (cb r) !! Crossbar.LOWER_PORT with
  | Some u, Some d => Some (OutputChannel.send_flit_count u, OutputChannel.send_flit_count d)
  | _, _ => None
  end.

End Router.
