(* ===== verification/RouterInv.v ===== *)
(** * RouterInv: wormhole switching in the router

    The invariant of a router between two steps, and what one step does to its
    output channels: an output port carries one packet at a time, from the flit
    that opens it to its tail. *)

From S2P Require Import Prelude Effects Types Router.
Import RouterUtils Crossbar InputChannel.

Module RouterInv.

Definition entry_ok (e : FLIT_ENTRY_t) : Prop := 0 ≤ vch e < 8.

(** ** The invariant *)

(** Of an output channel: its arrays, and the virtual channels it holds. *)
Record oc_ok (o : OutputChannel.t) : Prop := {
  oc_ready : length (OutputChannel.readyStat o) = 8%nat;
  oc_sent : length (OutputChannel.send_count o) = 8%nat;
  oc_acks : length (OutputChannel.ack_count o) = 8%nat;
  oc_entries : Forall entry_ok (OutputChannel.obuf o)
}.

Record xb_ok (x : Crossbar.t) : Prop := {
  xb_ocs : ∀ p, valid_port p = true → ∃ o, ocs x !! p = Some o ∧ oc_ok o;
  xb_close : ∀ p, p ∈ close_pending x → is_Some (oc_last_sender x !! p);
  xb_valid : ∀ p, p ∈ close_pending x → valid_port p = true
}.

(** The states of a virtual channel that occur, whose port is computed. *)
Definition vc_ok (c : vc) : Prop :=
  (vc_state c, vc_next_state c) ∈
    [(VC_STATE_RC, VC_STATE_RC); (VC_STATE_RC, VC_STATE_VSA); (VC_STATE_VSA, VC_STATE_VSA);
     (VC_STATE_VSA, VC_STATE_ST); (VC_STATE_ST, VC_STATE_ST); (VC_STATE_ST, VC_STATE_RC)] ∧
  (vc_state c = VC_STATE_RC → vc_next_state c = VC_STATE_RC ∨ valid_port (send_port c) = true) ∧
  (vc_state c ≠ VC_STATE_RC → valid_port (send_port c) = true).

(** Of an input channel whose virtual channels below [k] were served in this
    step: the one that sends holds the grant and its output port. *)
Record ch_ok (me k : Z) (I : t) (x : Crossbar.t) : Prop := {
  ch_len : length (vcs I) = 8%nat;
  ch_granted : 0 ≤ granted_vc I;
  ch_vc : ∀ v c, vcs I !! v = Some c → vc_ok c;
  ch_send : ∀ v c, vcs I !! v = Some c → vc_next_state c = VC_STATE_ST →
    holding I = true ∧ granted_vc I = Z.of_nat v ∧
    oc_last_sender x !! send_port c = Some me ∧ send_port c ∉ close_pending x;
  ch_close : ∀ p, p ∈ close_pending x → oc_last_sender x !! p = Some me → granted_vc I < k
}.

(** What the other input channels see of a change to the crossbar by [me]. *)
Record frame (me : Z) (x x' : Crossbar.t) : Prop := {
  fr_keep : ∀ p i, oc_last_sender x !! p = Some i → oc_last_sender x' !! p = Some i;
  fr_close : close_pending x ⊆ close_pending x';
  fr_new : ∀ p, p ∈ close_pending x' →
    p ∈ close_pending x ∨ oc_last_sender x' !! p = Some me
}.

#[global] Instance frame_preorder me : PreOrder (frame me).
Proof.
  split.
  - intros x. split; auto.
  - intros x y z [K C N] [K' C' N']. split; [eauto|set_solver|].
    intros p Hp. destruct (N' p Hp) as [H|H]; [|auto]. destruct (N p H); auto.
Qed.

Lemma ch_ok_frame me me' k I x x' : me ≠ me' → xb_ok x → frame me x x' →
  ch_ok me' k I x → ch_ok me' k I x'.
Proof.
  intros Hne Hx [K C N] [L G V S Cl]. split; try done.
  - intros v c Hv Hn. destruct (S v c Hv Hn) as (H1 & H2 & H3 & H4).
    split_and!; auto. intros Hp. destruct (N _ Hp) as [?|E]; [done|].
    rewrite (K _ _ H3) in E. congruence.
  - intros p Hp Hl. destruct (N _ Hp) as [Ho|E]; [|congruence].
    destruct (xb_close _ Hx _ Ho) as [i Hi]. pose proof (K _ _ Hi). apply (Cl p Ho). congruence.
Qed.

(** ** The flits that leave *)

(** The flit that virtual channel [c] passes to the crossbar in a step. *)
Definition emits (c : vc) : option FLIT_t :=
  match ibuf c with
  | f :: _ =>
      if negb (is_ack f) && (vc_state c =? VC_STATE_ST) && negb (vc_next_state c =? VC_STATE_RC)
      then Some f else None
  | [] => None
  end.
(** Whether a flit, sent or an acknowledgement, leaves the buffer of [c]. *)
Definition leaves (c : vc) : bool :=
  match ibuf c with f :: _ => is_ack f || bool_decide (is_Some (emits c)) | [] => false end.
Definition vc_out (p : Z) (i : nat) (c : vc) : list FLIT_ENTRY_t :=
  match emits c with
  | Some f => if send_port c =? p then [MkEntry f (Z.of_nat i)] else []
  | None => []
  end.
Fixpoint chan_out (p : Z) (i : nat) (l : list vc) : list FLIT_ENTRY_t :=
  match l with
  | [] => []
  | c :: l => vc_out p i c ++ chan_out p (S i) l
  end.

(** The output channels got the flits [g], the rest of the crossbar's invariant
    kept. *)
Definition pushed (g : Z → list FLIT_ENTRY_t) (x x' : Crossbar.t) : Prop :=
  ∀ p o, ocs x !! p = Some o → ∃ o', ocs x' !! p = Some o' ∧
    OutputChannel.obuf o' = OutputChannel.obuf o ++ g p ∧
    OutputChannel.oport o' = OutputChannel.oport o.

(** Whether a virtual channel goes on sending. *)
Definition vc_step (c c' : vc) : Prop :=
  vc_next_state c = VC_STATE_ST →
  match emits c with
  | Some f =>
      if is_tail f then vc_next_state c' ≠ VC_STATE_ST
      else vc_next_state c' = VC_STATE_ST ∧ send_port c' = send_port c
  | None => vc_next_state c' = VC_STATE_ST ∧ send_port c' = send_port c
  end.

Lemma vc_ok_next c : vc_ok c → vc_state c = VC_STATE_ST → vc_next_state c ≠ VC_STATE_RC →
  vc_next_state c = VC_STATE_ST.
Proof. intros [H _] E1 E2. rewrite E1 in H. set_solver. Qed.

Lemma emits_Some c f : vc_ok c → emits c = Some f →
  (∃ b, ibuf c = f :: b) ∧ is_ack f = false ∧ vc_state c = VC_STATE_ST ∧
  vc_next_state c = VC_STATE_ST.
Proof.
  intros Hc. unfold emits. destruct (ibuf c) as [|f' b] eqn:Eb; [done|].
  destruct (is_ack f') eqn:Ea; [done|]. destruct (Z.eqb_spec (vc_state c) VC_STATE_ST); [|done].
  destruct (Z.eqb_spec (vc_next_state c) VC_STATE_RC); [done|]. cbn [andb negb].
  intros [= <-]. split_and!; eauto using vc_ok_next.
Qed.

(** ** Running the actions *)

Lemma zoom_eq {S T A} (p : S → T) {P : Setter p} (m : M T A) s a t :
  m (p s) = Some (a, t, []) → zoom p m s = Some (a, P (λ _, t) s, []).
Proof. unfold zoom. by intros ->. Qed.
Lemma zoom_key_eq {S K T A} `{Countable K} (p : S → gmap K T) {P : Setter p} k (m : M T A) s a t t' :
  p s !! k = Some t → m t = Some (a, t', []) →
  zoom_key p k m s = Some (a, P (<[k := t']>) s, []).
Proof. unfold zoom_key. by intros -> ->. Qed.

Lemma aget_eq {S A} (p : S → list A) i (s : S) a : nthz (p s) i = Some a → aget p i s = Some (a, s, []).
Proof. intros E. unfold aget. by rewrite gets_bind, E. Qed.

Lemma count_up_eq (p : OutputChannel.t → list Z) {P : Setter p} v (o : OutputChannel.t) :
  0 ≤ v < Z.of_nat (length (p o)) →
  ∃ n, nthz (p o) v = Some n ∧
    OutputChannel.count_up p v o = Some ((), P (λ _, <[Z.to_nat v := n + 1]> (p o)) o, []).
Proof.
  intros Hv. destruct (nthz_is_Some (p o) v Hv) as [n Hn]. exists n. split; [done|].
  unfold OutputChannel.count_up. rewrite (bind_eq _ _ _ _ _ (aget_eq p v o n Hn)).
  unfold aset. by rewrite gets_bind, setz_Some.
Qed.

(** *** The crossbar *)

Lemma ocs_insert (x : Crossbar.t) p o : ocs x !! p = Some o →
  ∀ o', (x <| ocs ::= <[p := o']> |>).(ocs) !! p = Some o'.
Proof. intros ? ?. simpl. by rewrite lookup_insert_eq. Qed.

Lemma send_eq ic f v port x : valid_port port = true → valid_port ic = true → xb_ok x → 0 ≤ v < 8 →
  ∃ x', Crossbar.send ic f v port x = Some ((), x', []) ∧ xb_ok x' ∧
    oc_last_sender x' = oc_last_sender x ∧ close_pending x' = close_pending x ∧
    pushed (λ p, if port =? p then [MkEntry f v] else []) x x'.
Proof.
  intros Hp Hic Hx Hv. unfold Crossbar.send. rewrite Hp.
  destruct (xb_ocs _ Hx port Hp) as (o & Eo & Ho).
  set (o1 := o <| OutputChannel.obuf ::= λ b, b ++ [MkEntry f v] |>).
  set (x1 := x <| ocs ::= <[port := o1]> |>).
  assert (E1 : zoom_key ocs port (OutputChannel.pushData f v) x = Some ((), x1, []))
    by (by eapply zoom_key_eq).
  rewrite (bind_eq _ _ _ _ _ E1).
  assert (Ho1 : oc_ok o1).
  { destruct Ho. split; simpl; try done. apply Forall_app_2; [done|]. by constructor. }
  assert (∃ o2, ocs x1 !! ic = Some o2 ∧ oc_ok o2) as (o2 & E2 & Ho2).
  { unfold x1; simpl. destruct (decide (port = ic)) as [<-|Hne].
    - rewrite lookup_insert_eq. eauto.
    - rewrite lookup_insert_ne by done. by apply (xb_ocs _ Hx). }
  destruct (count_up_eq OutputChannel.ack_count v o2) as (n & Hn & Ec).
  { rewrite (oc_acks _ Ho2). lia. }
  set (o3 := o2 <| OutputChannel.ack_count := <[Z.to_nat v := n + 1]> (OutputChannel.ack_count o2) |>).
  exists (x1 <| ocs ::= <[ic := o3]> |>).
  split; [by eapply zoom_key_eq|]. split; [split|split_and!]; try done; simpl.
  - intros p Hpv. destruct (decide (p = ic)) as [->|Hne].
    + rewrite lookup_insert_eq. exists o3. split; [done|]. destruct Ho2. split; try done.
      simpl. by rewrite length_insert.
    + rewrite lookup_insert_ne by done. unfold x1; simpl.
      destruct (decide (port = p)) as [->|Hne'].
      * rewrite lookup_insert_eq. eauto.
      * rewrite lookup_insert_ne by done. by apply (xb_ocs _ Hx).
  - apply (xb_close _ Hx).
  - apply (xb_valid _ Hx).
  - intros p o0 E0. assert (∃ o', ocs x1 !! p = Some o' ∧
      OutputChannel.obuf o' = OutputChannel.obuf o0 ++ (if port =? p then [MkEntry f v] else []) ∧
      OutputChannel.oport o' = OutputChannel.oport o0) as (o' & E' & H1 & H2).
    { unfold x1; simpl. destruct (Z.eqb_spec port p) as [->|Hne].
      - rewrite lookup_insert_eq. simplify_eq. eauto.
      - rewrite lookup_insert_ne by done. rewrite app_nil_r. eauto. }
    simpl. destruct (decide (p = ic)) as [->|Hne].
    + rewrite lookup_insert_eq. simplify_eq. exists o3. done.
    + rewrite lookup_insert_ne by done. eauto.
Qed.

Lemma xb_ready_eq ic v port x : valid_port port = true → xb_ok x → 0 ≤ v < 8 →
  ∃ r x', Crossbar.ready ic v port x = Some (r, x', []) ∧ ocs x' = ocs x ∧
    close_pending x' = close_pending x ∧
    (∀ p i, oc_last_sender x !! p = Some i → oc_last_sender x' !! p = Some i) ∧
    (∀ p i, oc_last_sender x' !! p = Some i → oc_last_sender x !! p = Some i ∨ oc_last_sender x !! p = None) ∧
    (r = true → oc_last_sender x' !! port = Some ic).
Proof.
  intros Hp Hx Hv. unfold Crossbar.ready. rewrite Hp.
  destruct (xb_ocs _ Hx port Hp) as (o & Eo & Ho).
  assert (∃ r, zoom_key ocs port (OutputChannel.ocReady v) x = Some (r, x, [])) as [r Er].
  { destruct (nthz_is_Some (OutputChannel.readyStat o) v) as [b Hb]; [rewrite (oc_ready _ Ho); lia|].
    unfold zoom_key, OutputChannel.ocReady. rewrite Eo, gets_bind.
    assert (Hid : (x <| ocs ::= <[port := o]> |>) = x).
    { destruct x; unfold upd, setter_of; simpl in *. by rewrite insert_id. }
    destruct (OutputChannel.ackEnabled o).
    - rewrite (aget_eq _ _ _ _ Hb). eexists. do 3 f_equal. exact Hid.
    - eexists. unfold mret, M_ret. do 3 f_equal. exact Hid. }
  rewrite (bind_eq _ _ _ _ _ Er). destruct r.
  - rewrite gets_bind. destruct (oc_last_sender x !! port) as [last|] eqn:El.
    + eexists _, x. split; [done|]. split_and!; auto. by intros ->%Z.eqb_eq.
    + eexists _, _. split; [reflexivity|]. simpl. split_and!; auto.
      * intros p i Hl. rewrite lookup_insert_ne; [done|]. congruence.
      * intros p i. destruct (decide (port = p)) as [->|]; [by auto|].
        rewrite lookup_insert_ne by done. auto.
      * intros _. by rewrite lookup_insert_eq.
  - eexists _, x. split; [reflexivity|]. split_and!; auto. done.
Qed.

Lemma forwardAck_eq ic f x : valid_port ic = true → xb_ok x →
  ∃ x', Crossbar.forwardAck ic f x = Some ((), x', []) ∧ xb_ok x' ∧
    oc_last_sender x' = oc_last_sender x ∧ close_pending x' = close_pending x ∧
    pushed (λ _, []) x x'.
Proof.
  intros Hic Hx. destruct (xb_ocs _ Hx ic Hic) as (o & Eo & Ho).
  eexists. split; [by eapply zoom_key_eq|]. split; [split|split_and!]; try done; simpl.
  - intros p Hp. destruct (decide (p = ic)) as [->|].
    + rewrite lookup_insert_eq. eexists. split; [done|]. by destruct Ho.
    + rewrite lookup_insert_ne by done. by apply (xb_ocs _ Hx).
  - apply (xb_close _ Hx).
  - apply (xb_valid _ Hx).
  - intros p o' E'. rewrite app_nil_r. simpl. destruct (decide (p = ic)) as [->|].
    + rewrite lookup_insert_eq. eexists. split; [done|]. by simplify_eq.
    + rewrite lookup_insert_ne by done. eauto.
Qed.

(** *** The links *)

Definition links_ok (l : Links.t) : Prop :=
  ∀ a sl, Links.slaves l !! a = Some sl → Forall entry_ok (Links.buf sl).
Definition links_same (l l' : Links.t) : Prop :=
  dom (Links.slaves l') = dom (Links.slaves l) ∧ dom (Links.rdy l') = dom (Links.rdy l).
#[global] Instance links_same_preorder : PreOrder links_same.
Proof. split; [by split|]. intros ??? [] []. split; congruence. Qed.

Lemma slaves_insert_ok l a sl sl' : Links.slaves l !! a = Some sl → links_ok l →
  Forall entry_ok (Links.buf sl') →
  links_ok (l <| Links.slaves ::= <[a := sl']> |>) ∧ links_same l (l <| Links.slaves ::= <[a := sl']> |>).
Proof.
  intros Ha Hl Hs. split.
  - intros b s. simpl. destruct (decide (b = a)) as [->|].
    + rewrite lookup_insert_eq. by intros [= <-].
    + rewrite lookup_insert_ne by done. apply Hl.
  - split; simpl; [|done]. rewrite dom_insert_L. apply elem_of_dom_2 in Ha. set_solver.
Qed.

(** *** One virtual channel *)

Section Channel.
  Variable now xpos me : Z.
  Hypothesis Hme : valid_port me = true.
  Implicit Types (I : t) (x : Crossbar.t) (l : Links.t) (c : vc).

Lemma vget_eq {A} I x l i c (f : vc → A) : vcs I !! i = Some c →
  vget i f (MkSys I x l) = Some (f c, MkSys I x l, []).
Proof. intros E. unfold vget. by rewrite gets_bind; simpl; rewrite E. Qed.

Lemma zoom_cb {A} (m : M Crossbar.t A) I x l a x' : m x = Some (a, x', []) →
  zoom cb m (MkSys I x l) = Some (a, MkSys I x' l, []).
Proof. intros E. unfold zoom. simpl. by rewrite E. Qed.

(** A change of one virtual channel that does not begin to send. *)
Lemma ch_ok_alter k I x i c f : ch_ok me k I x → vcs I !! i = Some c → vc_ok (f c) →
  (vc_next_state (f c) = VC_STATE_ST → vc_next_state c = VC_STATE_ST ∧ send_port (f c) = send_port c) →
  ch_ok me k (I <| vcs ::= alter f i |>) x.
Proof.
  intros [L G V S C] Hc Hf Hn. split; simpl; try done.
  - by rewrite length_alter.
  - intros v c'. destruct (decide (v = i)) as [->|].
    + rewrite list_lookup_alter_eq, Hc. by intros [= <-].
    + rewrite list_lookup_alter_ne by done. apply V.
  - intros v c'. destruct (decide (v = i)) as [->|].
    + rewrite list_lookup_alter_eq, Hc. intros [= <-] H. destruct (Hn H) as [H1 ->]. by apply S.
    + rewrite list_lookup_alter_ne by done. apply S.
Qed.

Lemma ch_ok_le k k' I x : k ≤ k' → ch_ok me k I x → ch_ok me k' I x.
Proof. intros ? [L G V S C]. split; try done. intros p H1 H2. specialize (C p H1 H2). lia. Qed.

(** After the tail of a packet its output port is to be closed. *)
Definition closed c x : Prop :=
  ∀ f, emits c = Some f → is_tail f = true → send_port c ∈ close_pending x.

Lemma closed_none c x : emits c = None → closed c x.
Proof. intros E f. by rewrite E. Qed.
Hint Resolve closed_none : core.

(** What a step does of virtual channel [i]. *)
Record vc_post (i : nat) I x c I' x' c' : Prop := {
  po_vc : vcs I' !! i = Some c';
  po_others : ∀ j, j ≠ i → vcs I' !! j = vcs I !! j;
  po_iport : iport I' = iport I;
  po_ordy : ordy I' = ordy I;
  po_ch : ch_ok me (Z.of_nat i + 1) I' x';
  po_xb : xb_ok x';
  po_frame : frame me x x';
  po_pushed : pushed (λ p, vc_out p i c) x x';
  po_step : vc_step c c';
  po_closed : closed c x';
  po_buf : ibuf c' = if leaves c then tail (ibuf c) else ibuf c
}.

(** The action [m] serves virtual channel [i]. *)
Definition serves (i : nat) I x l c (m : M sys bool) : Prop :=
  ∃ h I' x' c', m (MkSys I x l) = Some (h, MkSys I' x' l, []) ∧ vc_post i I x c I' x' c'.

Lemma emits_None c f b : ibuf c = f :: b → is_ack f = false →
  vc_state c ≠ VC_STATE_ST ∨ vc_next_state c = VC_STATE_RC → emits c = None ∧ leaves c = false.
Proof.
  intros Eb Ea H. assert (E : emits c = None).
  { unfold emits. rewrite Eb, Ea. destruct (Z.eqb_spec (vc_state c) VC_STATE_ST); [|done].
    destruct (Z.eqb_spec (vc_next_state c) VC_STATE_RC); [done|tauto]. }
  split; [done|]. unfold leaves. by rewrite Eb, Ea, E.
Qed.

(** The virtual channel changed to [f c], which does not begin to send, and the
    rest is as it was. *)
Lemma vc_post_alter i I x c f : ch_ok me (Z.of_nat i) I x → xb_ok x → vcs I !! i = Some c →
  vc_ok (f c) → vc_step c (f c) →
  (vc_next_state (f c) = VC_STATE_ST → vc_next_state c = VC_STATE_ST ∧ send_port (f c) = send_port c) →
  emits c = None → ibuf (f c) = (if leaves c then tail (ibuf c) else ibuf c) →
  vc_post i I x c (I <| vcs ::= alter f i |>) x (f c).
Proof.
  intros Hch Hx Hc Hf Hs Hn He Hb. split; simpl; auto; try done.
  - by rewrite list_lookup_alter_eq, Hc.
  - intros j Hj. by apply list_lookup_alter_ne.
  - eapply ch_ok_le; [|by eapply ch_ok_alter]. lia.
  - intros p o Ho. exists o. unfold vc_out. by rewrite He, app_nil_r.
Qed.

(** Closing a port keeps the invariants of the crossbar, and of the channel that sent the
    tail of its packet. *)
Lemma xb_ok_close x p : xb_ok x → valid_port p = true → is_Some (oc_last_sender x !! p) →
  xb_ok (x <| close_pending ::= λ q, {[ p ]} ∪ q |>).
Proof.
  intros Hx Hv Hp. split; [apply Hx| |]; simpl.
  - intros q [->%elem_of_singleton|Hq]%elem_of_union; [done|by apply Hx].
  - intros q [->%elem_of_singleton|Hq]%elem_of_union; [done|by apply Hx].
Qed.
Lemma ch_ok_close k k' I x i c p time : ch_ok me k I x → vcs I !! i = Some c →
  vc_state c = VC_STATE_ST → vc_next_state c = VC_STATE_ST → granted_vc I < k' →
  ch_ok me k' (I <| vcs ::= alter (λ c, c <| vc_next_state := VC_STATE_RC |>) i |> <| holding := false |> <| grant_release_time := time |>)
    (x <| close_pending ::= λ q, {[ p ]} ∪ q |>).
Proof.
  intros Hch Hc Hst Hn Hk. pose proof (ch_send _ _ _ _ Hch _ _ Hc Hn) as (_ & Hg & _).
  assert (Hch3 : ch_ok me k (I <| vcs ::= alter (λ c, c <| vc_next_state := VC_STATE_RC |>) i |>) x).
  { eapply ch_ok_alter; try done. pose proof (ch_vc _ _ _ _ Hch _ _ Hc) as (_ & _ & Hport).
    split; [simpl; rewrite Hst; set_solver|]. split; [by left|]. intros H. by apply Hport. }
  destruct Hch3 as [L G V S C]. split; try done.
  intros v c' Hv Hv'. destruct (decide (v = i)) as [->|Hne].
  - simpl in Hv. rewrite list_lookup_alter_eq, Hc in Hv. by injection Hv as <-.
  - simpl in Hv. rewrite list_lookup_alter_ne in Hv by done.
    destruct (ch_send _ _ _ _ Hch v c' Hv Hv') as (_ & Hg' & _). rewrite Hg in Hg'. lia.
Qed.

Lemma serve_st i I x l c f b h : ch_ok me (Z.of_nat i) I x → xb_ok x → (i < 8)%nat →
  vcs I !! i = Some c → ibuf c = f :: b → is_ack f = false → vc_state c = VC_STATE_ST →
  serves i I x l c (serve now xpos me i f h).
Proof.
  intros Hch Hx Hi Hc Hb Ha Hst. pose proof (ch_vc _ _ _ _ Hch _ _ Hc) as Hvc.
  pose proof Hvc as (Hin & _ & Hport). specialize (Hport ltac:(by rewrite Hst)).
  unfold serves, serve. rewrite (bind_eq _ _ _ _ _ (vget_eq _ _ _ _ _ vc_state Hc)), Hst, Z.eqb_refl.
  rewrite (bind_eq _ _ _ _ _ (vget_eq _ _ _ _ _ vc_next_state Hc)).
  destruct (Z.eqb_spec (vc_next_state c) VC_STATE_RC) as [En|En]; cbn [negb when].
  { rewrite ret_bind. eexists _, _, _, c. split; [reflexivity|].
    destruct (emits_None c f b Hb Ha (or_intror En)) as [He Hl].
    replace I with (I <| vcs ::= alter id i |>) at 2
      by (destruct I; unfold upd, setter_of; simpl in *; by rewrite list_alter_id).
    apply (vc_post_alter i I x c id); try done; unfold id; rewrite ?Hl; try done.
    intros H. by rewrite En in H. }
  assert (Hsend : vc_next_state c = VC_STATE_ST) by (by apply vc_ok_next).
  destruct (ch_send _ _ _ _ Hch _ _ Hc Hsend) as (Hh & Hg & Hl & Hcl).
  assert (He : emits c = Some f).
  { unfold emits. rewrite Hb, Ha, Hst. destruct (Z.eqb_spec (vc_next_state c) VC_STATE_RC); done. }
  set (popf := λ c, c <| ibuf ::= tail |>).
  set (I1 := I <| vcs ::= alter popf i |>).
  assert (Hc1 : vcs I1 !! i = Some (popf c)) by (simpl; by rewrite list_lookup_alter_eq, Hc).
  assert (Hch1 : ch_ok me (Z.of_nat i) I1 x) by (by eapply ch_ok_alter).
  rewrite bind_assoc, (bind_eq _ _ _ () (MkSys I1 x l)) by reflexivity.
  rewrite bind_assoc, (bind_eq _ _ _ _ _ (vget_eq _ _ _ _ _ send_port Hc1)).
  change (send_port (popf c)) with (send_port c).
  destruct (send_eq me f (Z.of_nat i) (send_port c) x) as (x1 & Es & Hx1 & El & Ecl & Hpu); try done; [lia|].
  rewrite bind_assoc, (bind_eq _ _ _ () (MkSys I1 x1 l)) by (by apply zoom_cb).
  assert (Hch2 : ch_ok me (Z.of_nat i) I1 x1).
  { destruct Hch1 as [L G V S C]. split; try done.
    - intros v c' Hv Hn. rewrite El, Ecl. by apply S.
    - intros p. rewrite El, Ecl. apply C. }
  assert (Hpu' : pushed (λ p, vc_out p i c) x x1).
  { intros p o Ho. destruct (Hpu p o Ho) as (o' & E1 & E2 & E3). exists o'. split_and!; try done.
    rewrite E2. unfold vc_out. by rewrite He. }
  assert (Hlv : leaves c = true).
  { unfold leaves. rewrite Hb, Ha, He. by rewrite bool_decide_eq_true_2. }
  assert (Hother : ∀ (g : vc → vc) j, j ≠ i → alter g i (vcs I1) !! j = vcs I !! j).
  { intros g j Hj. rewrite list_lookup_alter_ne by done. simpl. by rewrite list_lookup_alter_ne. }
  destruct (is_tail f) eqn:Et; cbn [when].
  - set (rcf := λ c, c <| vc_next_state := VC_STATE_RC |>).
    set (I2 := I1 <| vcs ::= alter rcf i |> <| holding := false |> <| grant_release_time := s32 now |>).
    set (x2 := x1 <| close_pending ::= λ q, {[ send_port c ]} ∪ q |>).
    rewrite (bind_eq _ _ _ () (MkSys I2 x2 l)).
    2:{ rewrite (bind_eq _ _ _ () (MkSys (I1 <| vcs ::= alter rcf i |>) x1 l)) by reflexivity.
        rewrite (bind_eq _ _ _ () (MkSys I2 x1 l)) by reflexivity.
        apply zoom_cb. unfold Crossbar.close. by rewrite Hport. }
    exists true, I2, x2, (rcf (popf c)). split; [reflexivity|].
    split; try done.
    + simpl. rewrite list_lookup_alter_eq. simpl in Hc1. by rewrite Hc1.
    + intros j Hj. by apply Hother.
    + apply (ch_ok_close (Z.of_nat i) _ I1 x1 i (popf c)); try done. simpl. rewrite Hg. lia.
    + apply xb_ok_close; [done..|]. by rewrite El, Hl.
    + split; simpl; rewrite ?El, ?Ecl; try done; [set_solver|].
      intros p [->%elem_of_singleton|Hp]%elem_of_union; auto.
    + intros _. rewrite He, Et. done.
    + intros g _ _. simpl. set_solver.
    + simpl. by rewrite Hlv.
  - rewrite ret_bind. exists true, I1, x1, (popf c). split; [reflexivity|].
    split; try done.
    + intros j Hj. simpl. by apply list_lookup_alter_ne.
    + eapply ch_ok_le; [|done]. lia.
    + split; rewrite ?El, ?Ecl; auto.
    + intros _. rewrite He, Et. done.
    + intros g Hg'. rewrite He in Hg'. injection Hg' as <-. by rewrite Et.
    + simpl. by rewrite Hlv.
Qed.

Lemma serve_vsa i I x l c f b h : ch_ok me (Z.of_nat i) I x → xb_ok x → (i < 8)%nat →
  vcs I !! i = Some c → ibuf c = f :: b → is_ack f = false → vc_state c = VC_STATE_VSA →
  serves i I x l c (serve now xpos me i f h).
Proof.
  intros Hch Hx Hi Hc Hb Ha Hst. pose proof (ch_vc _ _ _ _ Hch _ _ Hc) as Hvc.
  pose proof Hvc as (Hin & _ & Hport). specialize (Hport ltac:(by rewrite Hst)).
  destruct (emits_None c f b Hb Ha) as [He Hlv]; [left; by rewrite Hst|].
  unfold serves, serve. rewrite (bind_eq _ _ _ _ _ (vget_eq _ _ _ _ _ vc_state Hc)), Hst.
  cbn [Z.eqb VC_STATE_VSA VC_STATE_ST Pos.eqb]. unfold isGranted. rewrite gets_bind. cbn [self].
  destruct (negb (granted_vc I =? Z.of_nat i) && negb h).
  { rewrite (bind_eq _ _ _ () (MkSys (I <| vcs ::= alter (λ c, c <| request_pending := true |>) i |>) x l))
      by reflexivity.
    eexists _, _, _, _. split; [reflexivity|]. apply vc_post_alter; rewrite ?Hlv; try done.
    intros H. by rewrite He. }
  rewrite (bind_eq _ _ _ _ _ (vget_eq _ _ _ _ _ send_port Hc)).
  destruct (xb_ready_eq me (Z.of_nat i) (send_port c) x) as (r & x1 & Er & Eo & Ecl & Hk & Hn & Hr); try done; [lia|].
  rewrite (bind_eq _ _ _ _ _ (zoom_cb _ I _ l _ _ Er)).
  assert (Hfr : frame me x x1).
  { split; rewrite ?Ecl; auto. }
  assert (Hpu : pushed (λ p, vc_out p i c) x x1).
  { intros p o Ho. exists o. unfold vc_out. by rewrite Eo, He, app_nil_r. }
  assert (Hx1 : xb_ok x1).
  { split; [intros p; rewrite Eo; by apply Hx| |intros p; rewrite Ecl; by apply Hx].
    intros p. rewrite Ecl. intros Hp. destruct (xb_close _ Hx p Hp) as [j Hj]. exists j. by apply Hk. }
  assert (Hch1 : ch_ok me (Z.of_nat i) I x1).
  { destruct Hch as [L G V S C]. split; try done.
    - intros v c' Hv H. rewrite Ecl. destruct (S v c' Hv H) as (? & ? & ? & ?). eauto.
    - intros p. rewrite Ecl. intros Hp Hl. apply (C p Hp).
      destruct (Hn _ _ Hl) as [?|E]; [done|]. destruct (xb_close _ Hx p Hp). congruence. }
  destruct (Z.eqb_spec (granted_vc I) (Z.of_nat i)) as [Eg|]; [destruct r|]; cbn [andb].
  2,3: eexists _, I, x1, c; split; [reflexivity|]; split; auto; try done;
    [eapply ch_ok_le; [|done]; lia|intros H; by rewrite He|by rewrite Hlv].
  specialize (Hr eq_refl). set (stf := λ c, c <| vc_next_state := VC_STATE_ST |>).
  assert (Hncl : send_port c ∉ close_pending x1).
  { intros Hp. rewrite Ecl in Hp.
    assert (granted_vc I < Z.of_nat i).
    { apply (ch_close _ _ _ _ Hch1 (send_port c)); [by rewrite Ecl|done]. } lia. }
  set (I1 := I <| vcs ::= alter stf i |> <| holding := true |>).
  rewrite (bind_eq _ _ _ () (MkSys (I <| vcs ::= alter stf i |>) x1 l)) by reflexivity.
  rewrite (bind_eq _ _ _ () (MkSys I1 x1 l)) by reflexivity.
  exists true, I1, x1, (stf c). split; [reflexivity|].
  split; auto; try done; simpl; rewrite ?Hlv; try done.
  - by rewrite list_lookup_alter_eq, Hc.
  - intros j Hj. by apply list_lookup_alter_ne.
  - destruct Hch1 as [L G V S C]. split; simpl; try done.
    + by rewrite length_alter.
    + intros v c'. destruct (decide (v = i)) as [->|].
      * rewrite list_lookup_alter_eq, Hc. intros [= <-].
        split; [simpl; rewrite Hst; set_solver|]. split; [by right|done].
      * rewrite list_lookup_alter_ne by done. apply V.
    + intros v c'. destruct (decide (v = i)) as [->|].
      * rewrite list_lookup_alter_eq, Hc. intros [= <-] _. done.
      * rewrite list_lookup_alter_ne by done. intros Hv H.
        destruct (S v c' Hv H) as (? & ? & ? & ?). done.
    + intros p Hp Hl. specialize (C p Hp Hl). lia.
  - intros H. by rewrite He.
Qed.

Lemma serve_rc i I x l c f b h : ch_ok me (Z.of_nat i) I x → xb_ok x →
  vcs I !! i = Some c → ibuf c = f :: b → is_ack f = false → vc_state c = VC_STATE_RC →
  serves i I x l c (serve now xpos me i f h).
Proof.
  intros Hch Hx Hc Hb Ha Hst. pose proof (ch_vc _ _ _ _ Hch _ _ Hc) as Hvc.
  destruct (emits_None c f b Hb Ha) as [He Hlv]; [left; by rewrite Hst|].
  assert (Hnst : vc_next_state c ≠ VC_STATE_ST).
  { destruct Hvc as (Hin & _). rewrite Hst in Hin. intros E. rewrite E in Hin. set_solver. }
  unfold serves, serve. rewrite (bind_eq _ _ _ _ _ (vget_eq _ _ _ _ _ vc_state Hc)), Hst.
  cbn [Z.eqb VC_STATE_VSA VC_STATE_ST VC_STATE_RC].
  destruct (is_head f); cbn [when].
  - rewrite (bind_eq _ _ _ () (MkSys (I <| vcs ::= alter (λ c, c <| vc_next_state := VC_STATE_VSA |>
      <| send_port := rtcomp xpos (extractDst f) |>) i |>) x l)) by reflexivity.
    eexists _, _, _, _. split; [reflexivity|].
    apply vc_post_alter; rewrite ?Hlv; try done; [|by intros ?%Hnst].
    split; [simpl; rewrite Hst; set_solver|]. split; [right|by intros ?].
    simpl. unfold rtcomp. by repeat case_match.
  - rewrite ret_bind. eexists _, I, x, c. split; [reflexivity|]. split; auto; try done.
    + eapply ch_ok_le; [|done]. lia.
    + intros p o Ho. exists o. unfold vc_out. by rewrite He, app_nil_r.
    + by intros ?%Hnst.
    + by rewrite Hlv.
Qed.

Lemma serve_ok i I x l c f b h : ch_ok me (Z.of_nat i) I x → xb_ok x → (i < 8)%nat →
  vcs I !! i = Some c → ibuf c = f :: b → is_ack f = false →
  serves i I x l c (serve now xpos me i f h).
Proof.
  intros Hch Hx Hi Hc Hb Ha. destruct (ch_vc _ _ _ _ Hch _ _ Hc) as (Hin & _).
  assert (vc_state c = VC_STATE_ST ∨ vc_state c = VC_STATE_VSA ∨ vc_state c = VC_STATE_RC) as H.
  { rewrite !elem_of_cons in Hin. destruct_or! Hin; try (by apply elem_of_nil in Hin); injection Hin; auto. }
  destruct H as [H|[H|H]]; [eapply serve_st|eapply serve_vsa|eapply serve_rc]; eauto.
Qed.

(** Without a flit, or with an acknowledgement that the crossbar takes. *)
Lemma serve_head i I x l c h : ch_ok me (Z.of_nat i) I x → xb_ok x → (i < 8)%nat →
  vcs I !! i = Some c →
  serves i I x l c
    (b ← vget i ibuf;
     match b with
     | [] => mret h
     | f :: _ =>
         if is_ack f then zoom cb (Crossbar.forwardAck me f);; pop i;; mret h
         else serve now xpos me i f h
     end).
Proof.
  intros Hch Hx Hi Hc. unfold serves. rewrite (bind_eq _ _ _ _ _ (vget_eq _ _ _ _ _ ibuf Hc)).
  destruct (ibuf c) as [|f b] eqn:Hb.
  - assert (He : emits c = None) by (unfold emits; by rewrite Hb).
    eexists _, I, x, c. split; [reflexivity|]. split; auto; try done.
    + eapply ch_ok_le; [|done]. lia.
    + intros p o Ho. exists o. unfold vc_out. by rewrite He, app_nil_r.
    + intros H. by rewrite He.
    + unfold leaves. by rewrite Hb.
  - destruct (is_ack f) eqn:Ha; [|by eapply serve_ok].
    destruct (forwardAck_eq me f x Hme Hx) as (x1 & Ef & Hx1 & El & Ecl & Hpu).
    rewrite (bind_eq _ _ _ _ _ (zoom_cb _ I _ l _ _ Ef)).
    set (popf := λ c, c <| ibuf ::= tail |>).
    rewrite (bind_eq _ _ _ () (MkSys (I <| vcs ::= alter popf i |>) x1 l)) by reflexivity.
    exists h, (I <| vcs ::= alter popf i |>), x1, (popf c). split; [reflexivity|].
    assert (He : emits c = None) by (unfold emits; by rewrite Hb, Ha).
    assert (Hlv : leaves c = true) by (unfold leaves; by rewrite Hb, Ha).
    assert (Hch1 : ch_ok me (Z.of_nat i) I x1).
    { destruct Hch as [L G V S C]. split; try done; rewrite El, Ecl; done. }
    destruct (vc_post_alter i I x1 c popf) as [P1 P2 P3 P4 P5 P6 P7 P8 P9 P11 P10]; try done.
    { exact (ch_vc _ _ _ _ Hch i c Hc). }
    { intros H. by rewrite He. }
    { by rewrite Hlv. }
    split; try done.
    + split; rewrite ?El, ?Ecl; auto.
    + intros p o Ho. destruct (Hpu p o Ho) as (o' & E1 & E2 & E3). exists o'.
      unfold vc_out. by rewrite He.
Qed.

Lemma step_vc_ok i I x l c h : ch_ok me (Z.of_nat i) I x → xb_ok x → (i < 8)%nat →
  vcs I !! i = Some c → serves i I x l c (step_vc now xpos me i h).
Proof.
  intros Hch Hx Hi Hc. destruct (serve_head i I x l c h Hch Hx Hi Hc) as (h' & I1 & x1 & c1 & E & P).
  unfold serves, step_vc. rewrite <- bind_assoc.
  rewrite (bind_eq _ _ _ _ _ E).
  destruct P as [P1 P2 P3 P4 P5 P6 P7 P8 P9 P11 P10].
  rewrite (bind_eq _ _ _ _ _ (vget_eq _ _ _ _ _ vc_last_state_update_time P1)).
  destruct (vc_last_state_update_time c1 <? s32 now); cbn [when].
  - set (up := λ c, c <| vc_state := vc_next_state c |> <| vc_last_state_update_time := s32 now |>).
    rewrite (bind_eq _ _ _ () (MkSys (I1 <| vcs ::= alter up i |>) x1 l)) by reflexivity.
    exists h', (I1 <| vcs ::= alter up i |>), x1, (up c1). split; [reflexivity|].
    split; try done; simpl.
    + by rewrite list_lookup_alter_eq, P1.
    + intros j Hj. rewrite list_lookup_alter_ne by done. by apply P2.
    + eapply ch_ok_alter; try done.
      destruct (ch_vc _ _ _ _ P5 _ _ P1) as (Hin & H1 & H2). split; [|split]; simpl.
      * assert (vc_next_state c1 = VC_STATE_RC ∨ vc_next_state c1 = VC_STATE_VSA ∨ vc_next_state c1 = VC_STATE_ST)
          as [-> | [-> | ->]].
        { rewrite !elem_of_cons in Hin. destruct_or! Hin; try (by apply elem_of_nil in Hin); injection Hin; auto. }
        all: set_solver.
      * auto.
      * intros Hn. destruct (decide (vc_state c1 = VC_STATE_RC)) as [E1|E1]; [|by apply H2].
        destruct (H1 E1); done.
  - rewrite ret_bind. exists h', I1, x1, c1. done.
Qed.

(** *** The whole input channel *)

(** The flits of a virtual channel leave from the front of its buffer and arrive
    at the back. *)
Definition vc_rel c c' : Prop :=
  vc_step c c' ∧ ∃ new, ibuf c' = (if leaves c then tail (ibuf c) else ibuf c) ++ new.

Lemma pushed_trans g g' x y z : pushed g x y → pushed g' y z → pushed (λ p, g p ++ g' p) x z.
Proof.
  intros H H' p o Ho. destruct (H p o Ho) as (o1 & E1 & B1 & P1).
  destruct (H' p o1 E1) as (o2 & E2 & B2 & P2). exists o2.
  rewrite B2, B1, app_assoc. split_and!; congruence.
Qed.

Lemma pushed_proper g g' x y : (∀ p, g p = g' p) → pushed g x y → pushed g' x y.
Proof. intros E H p o Ho. destruct (H p o Ho) as (o' & ?). exists o'. by rewrite <- E. Qed.

Lemma drop_same {A} (l l' : list A) i : (∀ j, j ≠ i → l !! j = l' !! j) → drop (S i) l = drop (S i) l'.
Proof. intros H. apply list_eq. intros j. rewrite !lookup_drop. apply H. lia. Qed.

Lemma step_vcs_ok n : ∀ i I x l h, (i + n = 8)%nat → ch_ok me (Z.of_nat i) I x → xb_ok x →
  ∃ I' x', step_vcs now xpos me i n h (MkSys I x l) = Some ((), MkSys I' x' l, []) ∧
    ch_ok me 8 I' x' ∧ xb_ok x' ∧ frame me x x' ∧ iport I' = iport I ∧ ordy I' = ordy I ∧
    pushed (λ p, chan_out p i (drop i (vcs I))) x x' ∧
    (∀ j, (j < i)%nat → vcs I' !! j = vcs I !! j) ∧
    (∀ j c, (i ≤ j)%nat → vcs I !! j = Some c →
       (∃ c', vcs I' !! j = Some c' ∧ vc_rel c c') ∧ closed c x').
Proof.
  induction n as [|n IH]; intros i I x l h Hi Hch Hx.
  - exists I, x. assert (Hlen := ch_len _ _ _ _ Hch). split; [reflexivity|].
    split; [replace 8 with (Z.of_nat i) by lia; done|]. split_and!; try done.
    + rewrite drop_ge by lia. intros p o Ho. exists o. by rewrite app_nil_r.
    + intros j c Hj Hc. apply lookup_lt_Some in Hc. lia.
  - cbn [step_vcs]. destruct (lookup_lt_is_Some_2 (vcs I) i) as [c Hc].
    { rewrite (ch_len _ _ _ _ Hch). lia. }
    destruct (step_vc_ok i I x l c h Hch Hx ltac:(lia) Hc) as (h1 & I1 & x1 & c1 & E & P).
    rewrite (bind_eq _ _ _ _ _ E). destruct P as [P1 P2 P3 P4 P5 P6 P7 P8 P9 P11 P10].
    destruct (IH (S i) I1 x1 l h1) as (I2 & x2 & E2 & Q1 & Q2 & Q3 & Q4 & Q5 & Q6 & Q7 & Q8); [lia| |done|].
    { by replace (Z.of_nat (S i)) with (Z.of_nat i + 1) by lia. }
    exists I2, x2. split; [done|]. split_and!; try done; try congruence.
    + by etransitivity.
    + eapply pushed_proper; [|eapply pushed_trans; [exact P8|exact Q6]]. intros p. cbv beta.
      rewrite (drop_S (vcs I) c i Hc). cbn [chan_out]. by rewrite (drop_same (vcs I1) (vcs I)).
    + intros j Hj. rewrite Q7 by lia. apply P2. lia.
    + intros j c' Hj Hc'. destruct (decide (j = i)) as [->|Hne].
      * simplify_eq. rewrite Q7 by lia. split.
        { exists c1. split; [done|]. split; [done|]. exists []. by rewrite app_nil_r. }
        intros f Hf Ht. apply (fr_close _ _ _ Q3). by eapply P11.
      * rewrite <- (P2 j Hne) in Hc'. apply Q8; [lia|done].
Qed.

(** The port of the channel and its ready array exist. *)
Definition chan_links I l : Prop :=
  iport I ∈ dom (Links.slaves l) ∧
  match ordy I with Some a => a ∈ dom (Links.rdy l) | None => True end.

Lemma receive_ok I x l : ch_ok me 8 I x → links_ok l → chan_links I l →
  ∃ I' l', receive (MkSys I x l) = Some ((), MkSys I' x l', []) ∧ ch_ok me 8 I' x ∧
    links_ok l' ∧ links_same l l' ∧ iport I' = iport I ∧ ordy I' = ordy I ∧
    (∀ j c, vcs I !! j = Some c → ∃ c' new, vcs I' !! j = Some c' ∧
       vc_next_state c' = vc_next_state c ∧ send_port c' = send_port c ∧ ibuf c' = ibuf c ++ new).
Proof.
  intros Hch Hl [Hp _]. apply elem_of_dom in Hp as [sl Hsl].
  unfold receive. rewrite gets_bind. cbn [self].
  assert (Eh : zoom links (zoom_key Links.slaves (iport I) Links.haveData) (MkSys I x l) =
    Some (negb (bool_decide (Links.buf sl = [])), MkSys I x l, [])).
  { unfold zoom, zoom_key. cbn [links]. rewrite Hsl. cbn. do 3 f_equal.
    destruct l. simpl in *. by rewrite insert_id. }
  rewrite (bind_eq _ _ _ _ _ Eh). destruct (Links.buf sl) as [|e b] eqn:Eb.
  - cbn. exists I, l. split_and!; try done. intros j c Hc. exists c, []. by rewrite app_nil_r.
  - cbn [bool_decide decide negb when]. rewrite bool_decide_eq_false_2 by done. cbn [negb when].
    set (l1 := l <| Links.slaves ::= <[iport I := sl <| Links.buf := b |> ]> |>).
    assert (Eg : zoom links (zoom_key Links.slaves (iport I) Links.getData) (MkSys I x l) =
      Some (e, MkSys I x l1, [])).
    { unfold zoom, zoom_key. cbn [links]. rewrite Hsl. unfold Links.getData. by rewrite gets_bind, Eb. }
    rewrite (bind_eq _ _ _ _ _ Eg), gets_bind. cbn [self].
    pose proof (Hl _ _ Hsl) as Hf. rewrite Eb in Hf. apply Forall_cons in Hf as [He Hf].
    destruct (nthz_is_Some (vcs I) (vch e)) as [c0 Hc0]; [rewrite (ch_len _ _ _ _ Hch); apply He|].
    rewrite Hc0. cbn [from_option]. rewrite ret_bind.
    set (g := λ c, c <| ibuf ::= λ b, b ++ [flit e] |>).
    exists (I <| vcs ::= alter g (Z.to_nat (vch e)) |>), l1. split; [reflexivity|].
    destruct (slaves_insert_ok l (iport I) sl (sl <| Links.buf := b |>)) as [H1 H2]; [done..|].
    apply nthz_Some in Hc0 as [_ Hc0].
    split_and!; try done.
    + eapply ch_ok_alter; try done. by apply (ch_vc _ _ _ _ Hch _ _ Hc0).
    + intros j c Hc. simpl. destruct (decide (j = Z.to_nat (vch e))) as [->|].
      * rewrite list_lookup_alter_eq, Hc. exists (g c), [flit e]. done.
      * rewrite list_lookup_alter_ne by done. exists c, []. by rewrite app_nil_r.
Qed.

Lemma update_ordy_ok I x l : links_ok l → chan_links I l →
  ∃ l', update_ordy (MkSys I x l) = Some ((), MkSys I x l', []) ∧ links_ok l' ∧ links_same l l'.
Proof.
  intros Hl [_ Ho]. unfold update_ordy. rewrite gets_bind. cbn [self]. destruct (ordy I) as [a|].
  - apply elem_of_dom in Ho as [r Hr].
    exists (l <| Links.rdy ::= <[a := has_room (bufMaxSize I) (packetMaxSize I) <$> vcs I]> |>).
    split; [unfold zoom, zoom_key; simpl; by rewrite Hr|]. split; [done|]. split; simpl; [done|].
    rewrite dom_insert_L. apply elem_of_dom_2 in Hr. set_solver.
  - by exists l.
Qed.

Lemma first_request_lt cs : ∀ i k, first_request i cs = Some k →
  (i ≤ k < i + length cs)%nat ∧ is_Some (cs !! (k - i)%nat).
Proof.
  induction cs as [|c cs IH]; intros i k; simpl; [done|].
  destruct (request_pending c).
  - intros [= <-]. rewrite Nat.sub_diag. split; [lia|done].
  - intros [H1 H2]%IH. split; [lia|]. by replace (k - i)%nat with (S (k - S i)) by lia.
Qed.

Lemma arbitrate_ok I x l : ch_ok me 8 I x →
  ∃ I', arbitrate now (MkSys I x l) = Some ((), MkSys I' x l, []) ∧ ch_ok me 8 I' x ∧
    iport I' = iport I ∧ ordy I' = ordy I ∧
    (∀ j c, vcs I !! j = Some c → ∃ c', vcs I' !! j = Some c' ∧
       vc_next_state c' = vc_next_state c ∧ send_port c' = send_port c ∧ ibuf c' = ibuf c).
Proof.
  intros Hch. unfold arbitrate. rewrite gets_bind. cbn [self].
  destruct (holding I) eqn:Eh; cbn [negb andb when].
  { exists I. split_and!; try done. eauto. }
  destruct (u32 (grant_release_time I) <? now); cbn [when]; [|exists I; split_and!; try done; eauto].
  destruct (first_request 0 (vcs I)) as [k|] eqn:Ek; [|exists I; split_and!; try done; eauto].
  apply first_request_lt in Ek as [Hk [c0 Hc0]]. rewrite Nat.sub_0_r in Hc0.
  rewrite (ch_len _ _ _ _ Hch) in Hk.
  set (g := λ c, c <| request_pending := false |>).
  exists (I <| vcs ::= alter g k |> <| granted_vc := Z.of_nat k |>). split; [reflexivity|].
  assert (Hch1 : ch_ok me 8 (I <| vcs ::= alter g k |>) x).
  { eapply ch_ok_alter; try done. by apply (ch_vc _ _ _ _ Hch _ _ Hc0). }
  split_and!; try done.
  - destruct Hch1 as [L G V S C]. split; try done.
    + simpl. lia.
    + intros v c Hv Hn. destruct (S v c Hv Hn) as (E & _). simpl in E. congruence.
    + intros p _ _. simpl. lia.
  - intros j c Hc. simpl. destruct (decide (j = k)) as [->|].
    + rewrite list_lookup_alter_eq, Hc. by exists (g c).
    + rewrite list_lookup_alter_ne by done. eauto.
Qed.

Lemma vc_rel_later c c1 c2 : vc_rel c c1 → vc_next_state c2 = vc_next_state c1 →
  send_port c2 = send_port c1 → (∃ new, ibuf c2 = ibuf c1 ++ new) → vc_rel c c2.
Proof.
  intros [H1 [new Hn]] E1 E2 [new' E3]. split.
  - intros H. specialize (H1 H). rewrite E1, E2. done.
  - exists (new ++ new'). by rewrite E3, Hn, app_assoc.
Qed.

Lemma chan_step_ok I x l : ch_ok me 0 I x → xb_ok x → links_ok l → chan_links I l →
  ∃ I' x' l', InputChannel.step now xpos me (MkSys I x l) = Some ((), MkSys I' x' l', []) ∧
    ch_ok me 8 I' x' ∧ xb_ok x' ∧ frame me x x' ∧ links_ok l' ∧ links_same l l' ∧
    iport I' = iport I ∧ ordy I' = ordy I ∧ pushed (λ p, chan_out p 0 (vcs I)) x x' ∧
    (∀ j c, vcs I !! j = Some c → (∃ c', vcs I' !! j = Some c' ∧ vc_rel c c') ∧ closed c x').
Proof.
  intros Hch Hx Hl Hcl. unfold InputChannel.step.
  destruct (step_vcs_ok 8 0 I x l false eq_refl Hch Hx)
    as (I1 & x1 & E1 & Hch1 & Hx1 & Hf & Ep & Eo & Hpu & _ & Hvc).
  rewrite (bind_eq _ _ _ _ _ E1).
  destruct (receive_ok I1 x1 l Hch1 Hl) as (I2 & l2 & E2 & Hch2 & Hl2 & Hs2 & Ep2 & Eo2 & Hvc2).
  { unfold chan_links. by rewrite Ep, Eo. }
  rewrite (bind_eq _ _ _ _ _ E2).
  destruct (update_ordy_ok I2 x1 l2 Hl2) as (l3 & E3 & Hl3 & Hs3).
  { destruct Hcl, Hs2 as [D1 D2]. unfold chan_links. by rewrite Ep2, Eo2, Ep, Eo, D1, D2. }
  rewrite (bind_eq _ _ _ _ _ E3).
  destruct (arbitrate_ok I2 x1 l3 Hch2) as (I4 & E4 & Hch4 & Ep4 & Eo4 & Hvc4).
  exists I4, x1, l3. split; [done|]. split_and!; try done; try congruence.
  - by transitivity l2.
  - intros j c Hc. destruct (Hvc j c ltac:(lia) Hc) as ((c1 & Hc1 & R1) & Hcd). split; [|done].
    destruct (Hvc2 j c1 Hc1) as (c2 & new & Hc2 & A1 & A2 & A3).
    destruct (Hvc4 j c2 Hc2) as (c4 & Hc4 & B1 & B2 & B3).
    exists c4. split; [done|]. eapply vc_rel_later; [exact R1|congruence|congruence|].
    exists new. congruence.
Qed.

End Channel.

(** ** Output channels *)

Lemma ack_data_Some n : ∀ i cnt d, (n <= length cnt)%nat → is_Some (ack_data i n cnt d).
Proof.
  induction n as [|n IH]; intros i cnt d Hn; simpl; [by eexists|].
  destruct cnt as [|k cnt]; simpl in Hn; [lia|]. apply IH. lia.
Qed.
Lemma make_ack_Some ft cnt : (4 <= length cnt)%nat → is_Some (make_ack_flit ft cnt).
Proof. intros H. unfold make_ack_flit. by apply fmap_is_Some, ack_data_Some. Qed.

(** The slave that an output channel sends to exists. *)
Definition oport_ok (o : OutputChannel.t) (l : Links.t) : Prop :=
  ∀ a, OutputChannel.oport o = Some a → a ∈ dom (Links.slaves l).

Lemma oport_send_ok f v o l : oport_ok o l → links_ok l → 0 ≤ v < 8 →
  ∃ l', OutputChannel.oport_send f v (OutputChannel.MkSys o l) =
    Some ((), OutputChannel.MkSys (o <| OutputChannel.send_flit_count ::= λ n, n + 1 |>) l', []) ∧
    links_ok l' ∧ links_same l l'.
Proof.
  intros Ho Hl Hv. unfold OutputChannel.oport_send. rewrite gets_bind. cbn [OutputChannel.self].
  destruct (OutputChannel.oport o) as [a|] eqn:Ea.
  - specialize (Ho a Ea). apply elem_of_dom in Ho as [sl Hsl].
    set (sl1 := sl <| Links.buf ::= λ b, b ++ [MkEntry f v] |>).
    set (l1 := l <| Links.slaves ::= <[a := sl1]> |>).
    exists l1. rewrite (bind_eq _ _ _ () (OutputChannel.MkSys o l1)).
    2:{ unfold zoom, Links.send, zoom_key. cbn [OutputChannel.links]. by rewrite Hsl. }
    split; [reflexivity|]. eapply slaves_insert_ok; try done.
    simpl. apply Forall_app_2; [by eapply Hl|]. by constructor.
  - exists l. split; [|done]. rewrite (bind_eq _ _ _ () (OutputChannel.MkSys o l)); [reflexivity|].
    by unfold zoom.
Qed.

Definition keeps_oc (o o' : OutputChannel.t) : Prop :=
  OutputChannel.obuf o' = OutputChannel.obuf o ∧ OutputChannel.oport o' = OutputChannel.oport o.

Lemma ackSend_ok now o l : oc_ok o → oport_ok o l → links_ok l →
  ∃ o' l', OutputChannel.ackSend now (OutputChannel.MkSys o l) =
    Some ((), OutputChannel.MkSys o' l', []) ∧ oc_ok o' ∧ keeps_oc o o' ∧
    OutputChannel.iackbuf o' = OutputChannel.iackbuf o ∧ links_ok l' ∧ links_same l l'.
Proof.
  intros Ho Hp Hl. pose proof (oc_acks _ Ho) as La. unfold OutputChannel.ackSend.
  rewrite gets_bind. cbn [OutputChannel.self VCH_SIZE Nat.div Nat.divmod fst].
  assert (Hstay : ∃ o' l', Some ((), OutputChannel.MkSys o l, ([] : list exc_event)) =
      Some ((), OutputChannel.MkSys o' l', []) ∧ oc_ok o' ∧ keeps_oc o o' ∧
      OutputChannel.iackbuf o' = OutputChannel.iackbuf o ∧ links_ok l' ∧ links_same l l').
  { exists o, l. done. }
  assert (Hsend : ∀ f (cnt : list Z), length cnt = 8%nat → ∃ o' l',
    (OutputChannel.oport_send f ACK_VCH;;
     modify (λ s, s <| OutputChannel.self ::= λ c, c <| OutputChannel.ack_count := cnt |> |>))
      (OutputChannel.MkSys o l) = Some ((), OutputChannel.MkSys o' l', []) ∧ oc_ok o' ∧ keeps_oc o o' ∧
      OutputChannel.iackbuf o' = OutputChannel.iackbuf o ∧ links_ok l' ∧ links_same l l').
  { intros f cnt Lc. destruct (oport_send_ok f ACK_VCH o l) as (l1 & E & Hl1 & Hs); [done|done|by split|].
    rewrite (bind_eq _ _ _ _ _ E). eexists _, l1. split; [reflexivity|].
    split_and!; try done. by destruct Ho. }
  destruct (OutputChannel.ackFormer now).
  - destruct (existsb nz (take 4 (OutputChannel.ack_count o))); cbn [when]; [|done].
    destruct (make_ack_Some FTYPE_ACK1 (OutputChannel.ack_count o)) as [f ->]; [lia|].
    cbn [from_option]. rewrite ret_bind. apply Hsend.
    rewrite length_app, length_fmap, length_take, length_drop. lia.
  - destruct (existsb nz (drop 4 (OutputChannel.ack_count o))); cbn [when]; [|done].
    destruct (make_ack_Some FTYPE_ACK2 (drop 4 (OutputChannel.ack_count o))) as [f ->].
    { rewrite length_drop. lia. }
    cbn [from_option]. rewrite ret_bind. apply Hsend.
    rewrite length_app, length_fmap, length_take, length_drop. lia.
Qed.

Lemma ack_counts_length n : ∀ d, length (ack_counts n d) = n.
Proof. induction n; intros d; simpl; [done|]. by rewrite IHn. Qed.
Lemma decode_ack_length f : length (decode_ack f) = 8%nat.
Proof.
  unfold decode_ack. destruct (_ =? _); rewrite length_app, ack_counts_length, length_replicate; done.
Qed.

Lemma oc_step_ok now o l : oc_ok o → oport_ok o l → links_ok l →
  ∃ o' l', OutputChannel.step now (OutputChannel.MkSys o l) =
    Some ((), OutputChannel.MkSys o' l', []) ∧ oc_ok o' ∧
    OutputChannel.obuf o' = tail (OutputChannel.obuf o) ∧
    OutputChannel.oport o' = OutputChannel.oport o ∧ links_ok l' ∧ links_same l l'.
Proof.
  intros Ho Hp Hl. unfold OutputChannel.step. rewrite !gets_bind. cbn [OutputChannel.self].
  set (first := match OutputChannel.obuf o with [] => _ | _ :: _ => _ end).
  assert (∃ b o1 l1, first (OutputChannel.MkSys o l) = Some (b, OutputChannel.MkSys o1 l1, []) ∧
    oc_ok o1 ∧ OutputChannel.obuf o1 = tail (OutputChannel.obuf o) ∧
    OutputChannel.oport o1 = OutputChannel.oport o ∧ links_ok l1 ∧ links_same l l1)
    as (b & o1 & l1 & E1 & Ho1 & Hb1 & Hp1 & Hl1 & Hs1).
  { unfold first. destruct (OutputChannel.obuf o) as [|e ob] eqn:Eb.
    - destruct (OutputChannel.ackEnabled o); cbn [when].
      + destruct (ackSend_ok now o l Ho Hp Hl) as (o1 & l1 & E & H1 & [H2 H2'] & H3 & H4 & H5).
        rewrite (bind_eq _ _ _ _ _ E). eexists _, o1, l1. split; [reflexivity|].
        split_and!; try done. simpl; congruence.
      + rewrite ret_bind. eexists _, o, l. split; [reflexivity|]. done.
    - pose proof (oc_entries _ Ho) as Hf. rewrite Eb in Hf. apply Forall_cons in Hf as [He Hf].
      destruct (oport_send_ok (flit e) (vch e) o l Hp Hl He) as (l1 & E & Hl1 & Hs).
      rewrite (bind_eq _ _ _ _ _ E).
      set (o1 := o <| OutputChannel.send_flit_count ::= λ n, n + 1 |> <| OutputChannel.obuf := ob |>).
      rewrite (bind_eq _ _ _ () (OutputChannel.MkSys o1 l1)) by reflexivity.
      assert (Ho1 : oc_ok o1) by (by destruct Ho).
      destruct (OutputChannel.ackEnabled o); cbn [when].
      + destruct (count_up_eq OutputChannel.send_count (vch e) o1) as (n & _ & Ec).
        { rewrite (oc_sent _ Ho1). apply He. }
        eexists true, _, l1. split.
        { rewrite (bind_eq _ _ _ () (OutputChannel.MkSys (o1 <| OutputChannel.send_count :=
            <[Z.to_nat (vch e) := n + 1]> (OutputChannel.send_count o1) |>) l1)); [reflexivity|].
          unfold zoom. cbn [OutputChannel.self]. by rewrite Ec. }
        split_and!; try done. destruct Ho1. split; try done. simpl. by rewrite length_insert.
      + rewrite ret_bind. eexists _, o1, l1. done. }
  rewrite (bind_eq _ _ _ _ _ E1), gets_bind. cbn [OutputChannel.self]. clear first E1.
  set (o2 := match OutputChannel.iackbuf o1 with [] => o1 | f :: acks =>
    o1 <| OutputChannel.iackbuf := acks |> <| OutputChannel.send_count ::= λ l, zip_with Z.sub l (decode_ack f) |> end).
  assert (Ho2 : oc_ok o2 ∧ keeps_oc o1 o2).
  { unfold o2. destruct (OutputChannel.iackbuf o1) as [|f acks]; [done|]. split; [|done].
    destruct Ho1. split; try done. simpl. rewrite length_zip_with, decode_ack_length. lia. }
  destruct Ho2 as [Ho2 [Hk1 Hk2]].
  assert (∃ b', (match OutputChannel.iackbuf o1 with
     | [] => mret b
     | f :: acks' => modify (λ s, s <| OutputChannel.self ::= λ c, c <| OutputChannel.iackbuf := acks' |>
          <| OutputChannel.send_count ::= λ l, zip_with Z.sub l (decode_ack f) |> |>);; mret true
     end : M OutputChannel.sys bool) (OutputChannel.MkSys o1 l1) = Some (b', OutputChannel.MkSys o2 l1, []))
     as [b' Eb'].
  { unfold o2. destruct (OutputChannel.iackbuf o1); eexists; reflexivity. }
  rewrite (bind_eq _ _ _ _ _ Eb').
  destruct (b' && OutputChannel.ackEnabled o); cbn [when].
  - eexists _, l1. split; [reflexivity|]. split; [|split_and!; try done; simpl; congruence].
    destruct Ho2. split; try done. simpl. by rewrite length_fmap.
  - exists o2, l1. split; [reflexivity|]. split_and!; try done; congruence.
Qed.

(** ** The router *)

Implicit Types (s : Router.sys) (r : Router.t).

Definition xb (s : Router.sys) : Crossbar.t := Router.cb (Router.self s).

(** The invariant, with the channels served up to [D] in the step under way. *)
Record mid (D : Z → Z) s : Prop := {
  md_ics : ∀ p, valid_port p = true → ∃ I, Router.ics (Router.self s) !! p = Some I ∧
    ch_ok p (D p) I (xb s) ∧ chan_links I (Router.links s);
  md_xb : xb_ok (xb s);
  md_ports : ∀ p o, valid_port p = true → ocs (xb s) !! p = Some o → oport_ok o (Router.links s);
  md_links : links_ok (Router.links s)
}.

(** Between two steps nothing waits to be closed. *)
Definition r_ok s : Prop := mid (λ _, 0) s ∧ close_pending (xb s) = ∅.

(** Virtual channel [v], now [c], of input channel [ic] sends a packet to the
    output port [p]. *)
Definition owns s (ic : Z) (v : nat) (p : Z) (c : vc) : Prop :=
  valid_port ic = true ∧ ∃ I, Router.ics (Router.self s) !! ic = Some I ∧ vcs I !! v = Some c ∧
  vc_next_state c = VC_STATE_ST ∧ send_port c = p.

Lemma owns_sender D s ic v p c : mid D s → owns s ic v p c →
  oc_last_sender (xb s) !! p = Some ic ∧ p ∉ close_pending (xb s) ∧
  ∃ I, Router.ics (Router.self s) !! ic = Some I ∧ granted_vc I = Z.of_nat v.
Proof.
  intros Hm (Hic & I & HI & Hc & Hn & <-). destruct (md_ics _ _ Hm ic Hic) as (I' & HI' & Hch & _).
  simplify_eq. destruct (ch_send _ _ _ _ Hch v c Hc Hn) as (_ & Hg & Hs & Hcl). eauto.
Qed.

(** One owner for an output port, one output port for an input channel. *)
Lemma owns_unique D s ic v p c ic' v' p' c' : mid D s → owns s ic v p c → owns s ic' v' p' c' →
  (p = p' → ic = ic') ∧ (ic = ic' → v = v' ∧ c = c').
Proof.
  intros Hm H H'. destruct (owns_sender _ _ _ _ _ _ Hm H) as (E1 & _ & I & HI & Hg).
  destruct (owns_sender _ _ _ _ _ _ Hm H') as (E2 & _ & I' & HI' & Hg').
  split; [intros ->; congruence|]. intros ->. simplify_eq.
  assert (v = v') as -> by lia. destruct H as (_ & J & HJ & Hc & _), H' as (_ & J' & HJ' & Hc' & _).
  simplify_eq. done.
Qed.

(** *** The phases of a step *)

Definition others_same s s' : Prop := Router.ics (Router.self s') = Router.ics (Router.self s) ∧
  oc_last_sender (xb s') = oc_last_sender (xb s) ∧ close_pending (xb s') = close_pending (xb s).

Lemma on_oc_ok now p s : valid_port p = true → r_ok s →
  ∃ s', Router.on_oc p (OutputChannel.step now) s = Some ((), s', []) ∧ r_ok s' ∧
    Router.ics (Router.self s') = Router.ics (Router.self s) ∧
    ∀ q o, ocs (xb s) !! q = Some o → ∃ o', ocs (xb s') !! q = Some o' ∧
      OutputChannel.obuf o' = (if q =? p then tail (OutputChannel.obuf o) else OutputChannel.obuf o).
Proof.
  intros Hp [Hm Hcl]. destruct (xb_ocs _ (md_xb _ _ Hm) p Hp) as (o & Eo & Ho).
  destruct (oc_step_ok now o (Router.links s)) as (o' & l' & E & Ho' & Hb & Hop & Hl' & [D1 D2]); [done|by eapply md_ports|apply Hm|].
  unfold Router.on_oc. fold (xb s). rewrite Eo, E.
  eexists. split; [reflexivity|]. destruct Hm as [Hics [Hxb Hxc Hxv] Hports Hl].
  split; [split; [split|]|split]; try done.
  - intros q Hq. destruct (Hics q Hq) as (I & HI & [L G V S C] & Hcl1 & Hcl2). exists I. split; [done|].
    split; [by split|]. unfold chan_links. cbn [Router.links]. by rewrite D1, D2.
  - split; [|done..]. intros q Hq. unfold xb. simpl. destruct (decide (q = p)) as [->|].
    + rewrite lookup_insert_eq. eauto.
    + rewrite lookup_insert_ne by done. by apply Hxb.
  - intros q o2 Hq. unfold xb, oport_ok. simpl. rewrite D1. destruct (decide (q = p)) as [->|].
    + rewrite lookup_insert_eq. intros [= <-]. rewrite Hop. by apply (Hports p).
    + rewrite lookup_insert_ne by done. by apply (Hports q).
  - intros q o2 Hq. unfold xb. simpl. destruct (Z.eqb_spec q p) as [->|].
    + rewrite lookup_insert_eq. simplify_eq. eauto.
    + rewrite lookup_insert_ne by done. eauto.
Qed.

(** What the service of input channel [p] does. *)
Record ic_post (p : Z) s s' : Prop := {
  ip_frame : frame p (xb s) (xb s');
  ip_others : ∀ q, q ≠ p → Router.ics (Router.self s') !! q = Router.ics (Router.self s) !! q;
  ip_vcs : ∀ I, Router.ics (Router.self s) !! p = Some I →
    pushed (λ q, chan_out q 0 (vcs I)) (xb s) (xb s') ∧
    ∃ I', Router.ics (Router.self s') !! p = Some I' ∧
    ∀ j c, vcs I !! j = Some c → (∃ c', vcs I' !! j = Some c' ∧ vc_rel c c') ∧ closed c (xb s')
}.

Lemma on_ic_ok now p D s : valid_port p = true → mid D s → D p = 0 →
  ∃ s', (xpos ← gets (λ s, Router.myid (Router.self s));
         Router.on_ic p (InputChannel.step now xpos p)) s = Some ((), s', []) ∧
    mid (λ q, if q =? p then 8 else D q) s' ∧ ic_post p s s'.
Proof.
  intros Hp Hm HD. destruct (md_ics _ _ Hm p Hp) as (I & HI & Hch & Hcl). rewrite HD in Hch.
  rewrite gets_bind. set (xpos := Router.myid (Router.self s)).
  destruct (chan_step_ok now xpos p Hp I (xb s) (Router.links s) Hch (md_xb _ _ Hm) (md_links _ _ Hm) Hcl)
    as (I' & x' & l' & E & Hch' & Hx' & Hf & Hl' & [D1 D2] & Ep & Eo & Hpu & Hvc).
  unfold Router.on_ic. rewrite HI. fold (xb s). rewrite E. eexists. split; [reflexivity|].
  split; split; try done; unfold xb; simpl.
  - intros q Hq. destruct (Z.eqb_spec q p) as [->|Hne].
    + rewrite lookup_insert_eq. exists I'. split; [done|]. split; [done|].
      destruct Hcl. unfold chan_links. by rewrite Ep, Eo, D1, D2.
    + rewrite lookup_insert_ne by done. destruct (md_ics _ _ Hm q Hq) as (J & HJ & HchJ & HclJ).
      exists J. split; [done|]. split; [|unfold chan_links; by rewrite D1, D2].
      eapply ch_ok_frame; [|apply Hm|exact Hf|exact HchJ]. done.
  - intros q o' Hq Ho'. destruct (xb_ocs _ (md_xb _ _ Hm) q Hq) as (o & Ho & _).
    destruct (Hpu q o Ho) as (o2 & E2 & _ & E3). simplify_eq.
    intros a. rewrite E3, D1. by apply (md_ports _ _ Hm q).
  - intros q Hq. by rewrite lookup_insert_ne.
  - intros J HJ. simplify_eq. split; [done|]. exists I'. by rewrite lookup_insert_eq.
Qed.

(** The end of the step closes the ports. *)
Lemma step_port_eq p x : ∃ x', step_port p x = Some ((), x', []) ∧ ocs x' = ocs x ∧
  close_pending x' = close_pending x ∖ {[ p ]} ∧
  ∀ q, oc_last_sender x' !! q = if bool_decide (q = p ∧ p ∈ close_pending x) then None else oc_last_sender x !! q.
Proof.
  unfold step_port. rewrite gets_bind. case_bool_decide as Hp; cbn [when].
  - eexists. split; [reflexivity|]. split_and!; try done. intros q. simpl.
    case_bool_decide as Hq; [destruct Hq as [-> _]; by rewrite lookup_delete_eq|].
    rewrite lookup_delete_ne; [done|]. intros ->. by apply Hq.
  - exists x. split; [done|]. split_and!; [done|set_solver|]. intros q.
    rewrite bool_decide_eq_false_2; [done|]. by intros [_ ?].
Qed.

Lemma xb_step_eq x : (∀ p, p ∈ close_pending x → valid_port p = true) →
  ∃ x', Crossbar.step x = Some ((), x', []) ∧ ocs x' = ocs x ∧ close_pending x' = ∅ ∧
    ∀ p, p ∉ close_pending x → oc_last_sender x' !! p = oc_last_sender x !! p.
Proof.
  intros Hv. unfold Crossbar.step.
  destruct (step_port_eq LOCAL_PORT x) as (x1 & E1 & O1 & C1 & L1). rewrite (bind_eq _ _ _ _ _ E1).
  destruct (step_port_eq LOWER_PORT x1) as (x2 & E2 & O2 & C2 & L2). rewrite (bind_eq _ _ _ _ _ E2).
  destruct (step_port_eq UPPER_PORT x2) as (x3 & E3 & O3 & C3 & L3).
  exists x3. split; [done|]. split_and!; [congruence| |].
  - rewrite C3, C2, C1. apply leibniz_equiv, equiv_empty. intros p.
    rewrite !elem_of_difference, !elem_of_singleton. intros (((Hp & H1) & H2) & H3).
    specialize (Hv p Hp). unfold valid_port in Hv. rewrite !orb_true_iff, !Z.eqb_eq in Hv. tauto.
  - intros p Hp. rewrite L3, L2, L1.
    rewrite !bool_decide_eq_false_2; [done|..]; intros [-> H]; apply Hp; set_solver.
Qed.

(** *** The flits of one step *)

Lemma chan_out_nil p l : ∀ i,
  (∀ v c f, l !! v = Some c → emits c = Some f → send_port c ≠ p) → chan_out p i l = [].
Proof.
  induction l as [|c l IH]; intros i H; [done|]. cbn [chan_out].
  rewrite IH by (intros v c' f Hv; by apply (H (S v))). rewrite app_nil_r. unfold vc_out.
  destruct (emits c) as [f|] eqn:E; [|done].
  destruct (Z.eqb_spec (send_port c) p) as [Ep|]; [|done]. by destruct (H 0%nat c f eq_refl E).
Qed.

Lemma chan_out_one p l : ∀ i v c, l !! v = Some c → send_port c = p →
  (∀ v' c' f, v' ≠ v → l !! v' = Some c' → emits c' = Some f → send_port c' ≠ p) →
  chan_out p i l = match emits c with Some f => [MkEntry f (Z.of_nat (i + v))] | None => [] end.
Proof.
  induction l as [|c0 l IH]; intros i v c Hv Hp H; [done|]. cbn [chan_out]. destruct v as [|v].
  - injection Hv as ->. rewrite chan_out_nil.
    + unfold vc_out. rewrite Hp, Z.eqb_refl, app_nil_r, Nat.add_0_r. done.
    + intros v' c' f Hv'. by apply (H (S v')).
  - rewrite (IH (S i) v c Hv Hp) by (intros v' c' f Hne Hv'; apply (H (S v')); [lia|done]).
    replace (S i + v)%nat with (i + S v)%nat by lia.
    replace (vc_out p i c0) with ([] : list FLIT_ENTRY_t); [done|].
    unfold vc_out. destruct (emits c0) as [f|] eqn:E; [|done].
    destruct (Z.eqb_spec (send_port c0) p) as [Ep|]; [|done].
    by destruct (H 0%nat c0 f ltac:(lia) eq_refl E).
Qed.

Definition vcs_of s (q : Z) : list vc :=
  match Router.ics (Router.self s) !! q with Some J => vcs J | None => [] end.
Definition outs s (p : Z) : list FLIT_ENTRY_t :=
  chan_out p 0 (vcs_of s LOCAL_PORT) ++ chan_out p 0 (vcs_of s UPPER_PORT) ++
  chan_out p 0 (vcs_of s LOWER_PORT).

Lemma emits_owns D s q v c f : mid D s → valid_port q = true → vcs_of s q !! v = Some c →
  emits c = Some f → owns s q v (send_port c) c.
Proof.
  intros Hm Hq Hc He. unfold vcs_of in Hc. split; [done|].
  destruct (md_ics _ _ Hm q Hq) as (I & HI & Hch & _). rewrite HI in Hc. exists I.
  destruct (emits_Some c f (ch_vc _ _ _ _ Hch _ _ Hc) He) as (_ & _ & _ & Hn). done.
Qed.

Lemma outs_free D s p : mid D s → (∀ ic v c, ¬ owns s ic v p c) → outs s p = [].
Proof.
  intros Hm H. assert (Hq : ∀ q, valid_port q = true → chan_out p 0 (vcs_of s q) = []).
  { intros q Hq. apply chan_out_nil. intros v c f Hc He <-.
    apply (H q v c). by eapply emits_owns. }
  unfold outs. by rewrite !Hq.
Qed.

Lemma outs_owned D s p ic v c : mid D s → owns s ic v p c →
  outs s p = match emits c with Some f => [MkEntry f (Z.of_nat v)] | None => [] end.
Proof.
  intros Hm Ho. pose proof Ho as (Hic & I & HI & Hc & Hn & Hp).
  assert (Hout : ∀ q, valid_port q = true → chan_out p 0 (vcs_of s q) =
    if q =? ic then match emits c with Some f => [MkEntry f (Z.of_nat v)] | None => [] end else []).
  { intros q Hq. destruct (Z.eqb_spec q ic) as [->|Hne].
    - apply (chan_out_one p _ 0 v c); [unfold vcs_of; by rewrite HI|done|].
      intros v' c' f Hv' Hc' He' Hp'. pose proof (emits_owns _ _ _ _ _ _ Hm Hq Hc' He') as Ho'.
      destruct (owns_unique _ _ _ _ _ _ _ _ _ _ Hm Ho Ho') as [_ H]. by destruct (H eq_refl).
    - apply chan_out_nil. intros v' c' f Hc' He' Hp'. pose proof (emits_owns _ _ _ _ _ _ Hm Hq Hc' He') as Ho'.
      destruct (owns_unique _ _ _ _ _ _ _ _ _ _ Hm Ho Ho') as [H _]. rewrite Hp' in H. by destruct (H eq_refl). }
  unfold outs. rewrite !Hout by done. unfold valid_port in Hic.
  rewrite !orb_true_iff, !Z.eqb_eq in Hic.
  destruct Hic as [[-> | ->] | ->]; cbn [Z.eqb LOCAL_PORT LOWER_PORT UPPER_PORT Pos.eqb app];
    by rewrite ?app_nil_r.
Qed.

(** *** The input channels of one step *)

Record ics_post s s' : Prop := {
  is_keep : ∀ p i, oc_last_sender (xb s) !! p = Some i → oc_last_sender (xb s') !! p = Some i;
  is_pushed : pushed (outs s) (xb s) (xb s');
  is_vcs : ∀ q I, valid_port q = true → Router.ics (Router.self s) !! q = Some I →
    ∃ I', Router.ics (Router.self s') !! q = Some I' ∧
    ∀ j c, vcs I !! j = Some c → (∃ c', vcs I' !! j = Some c' ∧ vc_rel c c') ∧ closed c (xb s')
}.

Lemma for_each3 {S A} (a b c : A) (f : A → M S unit) (σ0 σ1 σ2 σ3 : S) :
  f a σ0 = Some ((), σ1, []) → f b σ1 = Some ((), σ2, []) → f c σ2 = Some ((), σ3, []) →
  for_each [a; b; c] f σ0 = Some ((), σ3, []).
Proof.
  intros E1 E2 E3. cbn [for_each].
  by rewrite (bind_eq _ _ _ _ _ E1), (bind_eq _ _ _ _ _ E2), (bind_eq _ _ _ _ _ E3).
Qed.

Lemma closed_mono c x x' : close_pending x ⊆ close_pending x' → closed c x → closed c x'.
Proof. intros H Hc f Hf Ht. by apply H, (Hc f). Qed.

Lemma ics_phase now s : mid (λ _, 0) s →
  ∃ s', for_each Router.ports (λ p,
      xpos ← gets (λ s, Router.myid (Router.self s)); Router.on_ic p (InputChannel.step now xpos p)) s =
    Some ((), s', []) ∧
    (∃ D, mid D s' ∧ ∀ p, valid_port p = true → D p = 8) ∧ ics_post s s'.
Proof.
  intros H0.
  destruct (on_ic_ok now LOCAL_PORT _ s eq_refl H0 eq_refl) as (s1 & E1 & H1 & P1).
  destruct (on_ic_ok now UPPER_PORT _ s1 eq_refl H1 eq_refl) as (s2 & E2 & H2 & P2).
  destruct (on_ic_ok now LOWER_PORT _ s2 eq_refl H2 eq_refl) as (s3 & E3 & H3 & P3).
  exists s3. split; [by apply (for_each3 _ _ _ _ _ s1 s2)|]. split.
  { eexists. split; [exact H3|]. intros p Hp. unfold valid_port in Hp.
    rewrite !orb_true_iff, !Z.eqb_eq in Hp. by destruct Hp as [[-> | ->] | ->]. }
  destruct P1 as [F1 O1 V1], P2 as [F2 O2 V2], P3 as [F3 O3 V3].
  assert (HI : ∀ q, valid_port q = true → ∃ I, Router.ics (Router.self s) !! q = Some I ∧ vcs_of s q = vcs I).
  { intros q Hq. destruct (md_ics _ _ H0 q Hq) as (I & HI & _). exists I.
    split; [done|]. unfold vcs_of. by rewrite HI. }
  destruct (HI LOCAL_PORT eq_refl) as (IL & HL & VL), (HI UPPER_PORT eq_refl) as (IU & HU & VU),
    (HI LOWER_PORT eq_refl) as (ID & HD & VD).
  destruct (V1 IL HL) as (Q1 & IL' & HL' & W1).
  destruct (V2 IU) as (Q2 & IU' & HU' & W2); [by rewrite O1|].
  destruct (V3 ID) as (Q3 & ID' & HD' & W3); [by rewrite O2, O1|].
  split.
  - intros p i Hl. by apply (fr_keep _ _ _ F3), (fr_keep _ _ _ F2), (fr_keep _ _ _ F1).
  - eapply pushed_proper; [|eapply pushed_trans; [exact Q1|eapply pushed_trans; [exact Q2|exact Q3]]].
    intros p. unfold outs. by rewrite VL, VU, VD.
  - intros q I Hq HIq. unfold valid_port in Hq. rewrite !orb_true_iff, !Z.eqb_eq in Hq.
    destruct Hq as [[-> | ->] | ->]; simplify_eq.
    + exists IL'. split; [by rewrite O3, O2|]. intros j c Hc. destruct (W1 j c Hc) as [? Hcl].
      split; [done|]. eapply closed_mono; [|exact Hcl].
      etransitivity; [apply (fr_close _ _ _ F2)|apply (fr_close _ _ _ F3)].
    + exists ID'. split; [done|]. exact W3.
    + exists IU'. split; [by rewrite O3|]. intros j c Hc. destruct (W2 j c Hc) as [? Hcl].
      split; [done|]. eapply closed_mono; [|exact Hcl]. apply (fr_close _ _ _ F3).
Qed.

Lemma ocs_phase now s : r_ok s →
  ∃ s', for_each Router.ports (λ p, Router.on_oc p (OutputChannel.step now)) s = Some ((), s', []) ∧
    r_ok s' ∧ Router.ics (Router.self s') = Router.ics (Router.self s) ∧
    ∀ p o, valid_port p = true → ocs (xb s) !! p = Some o → ∃ o', ocs (xb s') !! p = Some o' ∧
      OutputChannel.obuf o' = tail (OutputChannel.obuf o).
Proof.
  intros H0.
  destruct (on_oc_ok now LOCAL_PORT s eq_refl H0) as (s1 & E1 & H1 & I1 & O1).
  destruct (on_oc_ok now UPPER_PORT s1 eq_refl H1) as (s2 & E2 & H2 & I2 & O2).
  destruct (on_oc_ok now LOWER_PORT s2 eq_refl H2) as (s3 & E3 & H3 & I3 & O3).
  exists s3. split; [by apply (for_each3 _ _ _ _ _ s1 s2)|]. split; [done|]. split; [congruence|].
  intros p o Hp Ho. destruct (O1 p o Ho) as (o1 & E1' & B1), (O2 p o1 E1') as (o2 & E2' & B2),
    (O3 p o2 E2') as (o3 & E3' & B3).
  exists o3. split; [done|]. rewrite B3, B2, B1. unfold valid_port in Hp.
  rewrite !orb_true_iff, !Z.eqb_eq in Hp. by destruct Hp as [[-> | ->] | ->].
Qed.

Lemma cb_phase D s : mid D s → (∀ p, valid_port p = true → D p = 8) →
  ∃ s', Router.on_cb Crossbar.step s = Some ((), s', []) ∧ r_ok s' ∧
    Router.ics (Router.self s') = Router.ics (Router.self s) ∧ ocs (xb s') = ocs (xb s).
Proof.
  intros [Hics Hx Hp Hl] HD. destruct (xb_step_eq (xb s) (xb_valid _ Hx)) as (x' & E & Eo & Ecl & El).
  eexists. split.
  { unfold Router.on_cb, zoom. fold (xb s). rewrite E. reflexivity. }
  cbn [setter_of]. split; [|done]. split; [|done]. split; try done.
  - intros p Hv. destruct (Hics p Hv) as (I & HI & [L G V S C] & Hcl). exists I.
    split; [done|]. split; [|done]. unfold xb. simpl. split; try done.
    + intros v c Hc Hn. destruct (S v c Hc Hn) as (S1 & S2 & S3 & S4).
      rewrite Ecl, (El _ S4). split_and!; done || set_solver.
    + rewrite Ecl. set_solver.
  - unfold xb. simpl. split; [intros p; rewrite Eo; apply Hx|..]; rewrite Ecl; set_solver.
  - unfold xb. simpl. rewrite Eo. done.
Qed.

(** *** Reset *)

(** What the constructor provides: the channels and the links they use. *)
Record shaped s : Prop := {
  sh_ics : ∀ p, valid_port p = true → ∃ I, Router.ics (Router.self s) !! p = Some I ∧
    length (vcs I) = 8%nat ∧ chan_links I (Router.links s);
  sh_ocs : ∀ p, valid_port p = true → ∃ o, ocs (xb s) !! p = Some o ∧ oport_ok o (Router.links s);
  sh_links : links_ok (Router.links s)
}.

(** An input channel after its reset. *)
Definition fresh (I : t) : Prop :=
  granted_vc I = 0 ∧ ∃ l, length l = 8%nat ∧ vcs I = reset_vc <$> l.

Lemma fresh_ok p I x : fresh I → close_pending x = ∅ → ch_ok p 0 I x.
Proof.
  intros (G & l & L & V) Hcl. assert (Hv : ∀ v c, vcs I !! v = Some c → vc_ok c ∧ vc_next_state c ≠ VC_STATE_ST).
  { intros v c. rewrite V, list_lookup_fmap. intros (c0 & _ & ->)%fmap_Some_1.
    split; [|done]. split; [simpl; set_solver|]. split; [by left|done]. }
  split; [by rewrite V, length_fmap|lia|..]; try (intros; by edestruct Hv).
  rewrite Hcl. set_solver.
Qed.

Lemma ic_reset_ok now I x l : links_ok l → chan_links I l → length (vcs I) = 8%nat →
  ∃ I' l', InputChannel.reset now (MkSys I x l) = Some ((), MkSys I' x l', []) ∧ fresh I' ∧
    iport I' = iport I ∧ ordy I' = ordy I ∧ links_ok l' ∧ links_same l l'.
Proof.
  intros Hl [Hp Ho] Hlen. apply elem_of_dom in Hp as [sl Hsl].
  set (I1 := I <| vcs ::= fmap reset_vc |>).
  set (l1 := l <| Links.slaves ::= <[iport I := sl <| Links.buf := [] |> ]> |>).
  destruct (slaves_insert_ok l (iport I) sl (sl <| Links.buf := [] |>)) as [Hl1 Hs1]; [done..|].
  unfold InputChannel.reset. rewrite (bind_eq _ _ _ () (MkSys I1 x l)) by reflexivity.
  rewrite gets_bind. cbn [self]. rewrite (bind_eq _ _ _ () (MkSys I1 x l1)).
  2:{ unfold zoom, zoom_key. cbn [links]. change (iport I1) with (iport I). by rewrite Hsl. }
  change (ordy I1) with (ordy I). destruct (ordy I) as [a|] eqn:Eo.
  - apply elem_of_dom in Ho as [r Hr].
    rewrite (bind_eq _ _ _ () (MkSys I1 x (l1 <| Links.rdy ::= <[a := replicate VCH_SIZE true]> |>))).
    2:{ unfold zoom, zoom_key. simpl. by rewrite Hr. }
    eexists _, _. split; [reflexivity|]. split; [split; [done|by exists (vcs I)]|].
    split; [done|]. split; [done|]. split; [exact Hl1|]. etransitivity; [exact Hs1|].
    split; simpl; [done|]. rewrite dom_insert_L. apply elem_of_dom_2 in Hr. set_solver.
  - rewrite ret_bind. eexists _, _. split; [reflexivity|].
    split; [split; [done|by exists (vcs I)]|]. done.
Qed.

Definition others_fresh (F : Z → Prop) s : Prop :=
  ∀ p I, F p → Router.ics (Router.self s) !! p = Some I → fresh I.

Lemma on_ic_reset now p F s : valid_port p = true → shaped s → others_fresh F s →
  ∃ s', Router.on_ic p (InputChannel.reset now) s = Some ((), s', []) ∧ shaped s' ∧
    others_fresh (λ q, q = p ∨ F q) s'.
Proof.
  intros Hp [Hi Ho Hl] HF. destruct (Hi p Hp) as (I & HI & Hlen & Hcl).
  destruct (ic_reset_ok now I (xb s) (Router.links s) Hl Hcl Hlen)
    as (I' & l' & E & Hf & Ep & Eo & Hl' & [D1 D2]).
  unfold Router.on_ic. rewrite HI. fold (xb s). rewrite E. eexists. split; [reflexivity|].
  split; [split; try done|].
  - intros q Hq. simpl. destruct (decide (q = p)) as [->|].
    + rewrite lookup_insert_eq. exists I'. split; [done|]. destruct Hf as (_ & l0 & L0 & V0).
      split; [by rewrite V0, length_fmap|]. destruct Hcl. unfold chan_links. by rewrite Ep, Eo, D1, D2.
    + rewrite lookup_insert_ne by done. destruct (Hi q Hq) as (J & HJ & HLJ & HcJ).
      exists J. unfold chan_links. by rewrite D1, D2.
  - intros q Hq. destruct (Ho q Hq) as (o & Eq & Hoq). exists o. unfold xb, oport_ok. simpl. by rewrite D1.
  - intros q J Hq. simpl. destruct (decide (q = p)) as [->|].
    + rewrite lookup_insert_eq. by intros [= <-].
    + rewrite lookup_insert_ne by done. destruct Hq; [done|]. by apply HF.
Qed.

Lemma on_oc_reset p s : valid_port p = true → shaped s →
  ∃ s', Router.on_oc p (zoom OutputChannel.self OutputChannel.reset) s = Some ((), s', []) ∧ shaped s' ∧
    Router.ics (Router.self s') = Router.ics (Router.self s) ∧
    oc_last_sender (xb s') = oc_last_sender (xb s) ∧ close_pending (xb s') = close_pending (xb s) ∧
    ∀ q o, ocs (xb s') !! q = Some o → q ≠ p ∧ ocs (xb s) !! q = Some o ∨ q = p ∧ oc_ok o.
Proof.
  intros Hp [Hi Ho Hl]. destruct (Ho p Hp) as (o & Eo & Hop).
  set (o2 := o <| OutputChannel.obuf := [] |> <| OutputChannel.iackbuf := [] |>
    <| OutputChannel.readyStat := replicate VCH_SIZE true |>
    <| OutputChannel.send_count := replicate VCH_SIZE 0 |>
    <| OutputChannel.ack_count := replicate VCH_SIZE 0 |> <| OutputChannel.send_flit_count := 0 |>).
  assert (Hop2 : oport_ok o2 (Router.links s)) by exact Hop.
  assert (Hok2 : oc_ok o2) by (split; [reflexivity..|constructor]).
  assert (E : zoom OutputChannel.self OutputChannel.reset (OutputChannel.MkSys o (Router.links s)) =
    Some ((), OutputChannel.MkSys o2 (Router.links s), [])) by reflexivity.
  clearbody o2. unfold Router.on_oc. fold (xb s). rewrite Eo, E. eexists. split; [reflexivity|].
  split; [split; [exact Hi| |exact Hl]|split; [reflexivity|split; [reflexivity|split; [reflexivity|]]]].
  - intros q Hq. unfold xb. cbn. destruct (decide (q = p)) as [->|].
    + rewrite lookup_insert_eq. by exists o2.
    + rewrite lookup_insert_ne by done. by apply Ho.
  - intros q o'. unfold xb. cbn. destruct (decide (q = p)) as [->|].
    + rewrite lookup_insert_eq. intros [= <-]. by right.
    + rewrite lookup_insert_ne by done. auto.
Qed.

Lemma reset_ok now s : shaped s → ∃ s', Router.reset now s = Some ((), s', []) ∧ r_ok s' ∧
  ∀ ic v p c, ¬ owns s' ic v p c.
Proof.
  intros H0.
  destruct (on_ic_reset now LOCAL_PORT (λ _, False) s eq_refl H0) as (s1 & E1 & H1 & F1); [by intros ???|].
  destruct (on_ic_reset now UPPER_PORT _ s1 eq_refl H1 F1) as (s2 & E2 & H2 & F2).
  destruct (on_ic_reset now LOWER_PORT _ s2 eq_refl H2 F2) as (s3 & E3 & H3 & F3).
  assert (∃ s4, Router.on_cb (Crossbar.reset now) s3 = Some ((), s4, []) ∧ shaped s4 ∧
    Router.ics (Router.self s4) = Router.ics (Router.self s3) ∧
    oc_last_sender (xb s4) = ∅ ∧ close_pending (xb s4) = ∅) as (s4 & E4 & H4 & I4 & L4 & C4).
  { eexists. split; [reflexivity|]. by destruct H3 as [Hi Ho Hl]. }
  destruct (on_oc_reset LOCAL_PORT s4 eq_refl H4) as (s5 & E5 & H5 & I5 & L5 & C5 & O5).
  destruct (on_oc_reset UPPER_PORT s5 eq_refl H5) as (s6 & E6 & H6 & I6 & L6 & C6 & O6).
  destruct (on_oc_reset LOWER_PORT s6 eq_refl H6) as (s7 & E7 & H7 & I7 & L7 & C7 & O7).
  exists s7. split.
  { unfold Router.reset, Router.ports. rewrite (bind_eq _ _ _ _ _ (for_each3 _ _ _ (λ p, Router.on_ic p (InputChannel.reset now))
      _ _ _ _ E1 E2 E3)).
    rewrite (bind_eq _ _ _ _ _ E4). exact (for_each3 _ _ _ (λ p, Router.on_oc p (zoom OutputChannel.self OutputChannel.reset))
      _ _ _ _ E5 E6 E7). }
  assert (Hcl : close_pending (xb s7) = ∅) by congruence.
  assert (Hfr : ∀ p I, valid_port p = true → Router.ics (Router.self s7) !! p = Some I → fresh I).
  { intros p I Hp HI. rewrite I7, I6, I5, I4 in HI. apply (F3 p I); [|done].
    unfold valid_port in Hp. rewrite !orb_true_iff, !Z.eqb_eq in Hp. tauto. }
  destruct H7 as [Hi Ho Hl]. split; [split; [split|]|]; try done.
  - intros p Hp. destruct (Hi p Hp) as (I & HI & _ & Hc). exists I. split; [done|].
    split; [|done]. apply fresh_ok; [by eapply Hfr|done].
  - split; [|rewrite Hcl; set_solver..]. intros p Hp. destruct (Ho p Hp) as (o & Eo & _).
    exists o. split; [done|]. unfold valid_port in Hp. rewrite !orb_true_iff, !Z.eqb_eq in Hp.
    destruct (O7 p o Eo) as [[N7 Eo6]|[_ ?]]; [|done].
    destruct (O6 p o Eo6) as [[N6 Eo5]|[_ ?]]; [|done].
    destruct (O5 p o Eo5) as [[N5 _]|[_ ?]]; [tauto|done].
  - intros p o Hp Eo. destruct (Ho p Hp) as (o' & Eo' & Hop). by simplify_eq.
  - intros ic v p c (Hic & I & HI & Hc & Hn & _). destruct (Hfr ic I Hic HI) as (_ & l & _ & V).
    rewrite V, list_lookup_fmap in Hc. apply fmap_Some_1 in Hc as (c0 & _ & ->). done.
Qed.

(** C3 wormhole switching: the reset of a router puts it in a good state with
    every port free; one step of a router in a good state succeeds and leaves a
    good state.  An output port has at most one owner, a virtual channel
    of an input channel, and an input channel owns at most one port; in a step
    the port's register passes on its flit and receives the owner's next flit, if
    there is one and its traversal has begun, and nothing else; the owner keeps
    the port until its tail has passed, after which nobody owns it.  Flits leave
    a buffer from its front and arrive at its back. *)
Theorem wormhole_switching now s (Hok : r_ok s) :
  (∀ s0, shaped s0 → ∃ s', Router.reset now s0 = Some ((), s', []) ∧ r_ok s' ∧
     ∀ ic v p c, ¬ owns s' ic v p c) ∧
  (∀ ic v p c ic' v' p' c', owns s ic v p c → owns s ic' v' p' c' →
     (p = p' → ic = ic') ∧ (ic = ic' → v = v' ∧ p = p')) ∧
  ∃ s', Router.step now s = Some ((), s', []) ∧ r_ok s' ∧
  (∀ p o, valid_port p = true → ocs (xb s) !! p = Some o → ∃ o', ocs (xb s') !! p = Some o' ∧
    (∀ ic v c, owns s ic v p c →
       match emits c with
       | None =>
           OutputChannel.obuf o' = tail (OutputChannel.obuf o) ∧ ∃ c', owns s' ic v p c'
       | Some f =>
           OutputChannel.obuf o' = tail (OutputChannel.obuf o) ++ [MkEntry f (Z.of_nat v)] ∧
           if is_tail f then ∀ ic' v' c', ¬ owns s' ic' v' p c' else ∃ c', owns s' ic v p c'
       end) ∧
    ((∀ ic v c, ¬ owns s ic v p c) → OutputChannel.obuf o' = tail (OutputChannel.obuf o))) ∧
  (∀ q I v c, valid_port q = true → Router.ics (Router.self s) !! q = Some I → vcs I !! v = Some c →
     ∃ I' c' new, Router.ics (Router.self s') !! q = Some I' ∧ vcs I' !! v = Some c' ∧
       ibuf c' = (if leaves c then tail (ibuf c) else ibuf c) ++ new).
Proof.
  split; [intros s0; apply reset_ok|]. split.
  { intros ic v p c ic' v' p' c' H H'. pose proof (owns_unique _ _ _ _ _ _ _ _ _ _ (proj1 Hok) H H') as [U1 U2].
    split; [done|]. intros E. destruct (U2 E) as [-> ->]. split; [done|].
    destruct H as (_ & _ & _ & _ & _ & <-), H' as (_ & _ & _ & _ & _ & <-). done. }
  destruct (ocs_phase now s Hok) as (s1 & E1 & [H1 _] & I1 & O1).
  destruct (ics_phase now s1 H1) as (s2 & E2 & (D & H2 & HD) & [K2 Q2 V2]).
  destruct (cb_phase D s2 H2 HD) as (s3 & E3 & H3 & I3 & O3).
  assert (Ho1 : ∀ ic v p c, owns s ic v p c ↔ owns s1 ic v p c) by (intros; unfold owns; by rewrite I1).
  assert (Ho3 : ∀ ic v p c, owns s3 ic v p c ↔ owns s2 ic v p c) by (intros; unfold owns; by rewrite I3).
  exists s3. split.
  { unfold Router.step. by rewrite (bind_eq _ _ _ _ _ E1), (bind_eq _ _ _ _ _ E2). }
  split; [done|]. split.
  - intros p o Hp Ho. destruct (O1 p o Hp Ho) as (o1 & Ho1' & B1).
    destruct (Q2 p o1 Ho1') as (o2 & Ho2' & B2 & _). exists o2. rewrite O3. split; [done|]. rewrite <- B1. split.
    + intros ic v c Hown%Ho1. rewrite (outs_owned _ _ _ _ _ _ H1 Hown) in B2.
      pose proof Hown as (Hic & I & HI & Hc & Hn & Hsp).
      destruct (V2 ic I Hic HI) as (I' & HI' & W). destruct (W v c Hc) as ((c' & Hc' & Hst & _) & Hcl).
      specialize (Hst Hn). destruct (emits c) as [f|] eqn:Ef.
      * split; [done|]. destruct (is_tail f) eqn:Et.
        { intros ic' v' c1 Hw%Ho3. destruct (owns_sender _ _ _ _ _ _ H2 Hw) as (_ & Hnc & _).
          apply Hnc. rewrite <- Hsp. by apply (Hcl f). }
        exists c'. apply Ho3. destruct Hst as [S1 S2]. split; [done|]. exists I'. by rewrite S2.
      * split; [by rewrite B2, app_nil_r|]. exists c'. apply Ho3. destruct Hst as [S1 S2].
        split; [done|]. exists I'. by rewrite S2.
    + intros Hfree. rewrite B2, (outs_free _ _ _ H1), app_nil_r; [done|].
      intros ic v c Hw%Ho1. by eapply Hfree.
  - intros q I v c Hq HI Hc. rewrite <- I1 in HI. destruct (V2 q I Hq HI) as (I' & HI' & W).
    destruct (W v c Hc) as ((c' & Hc' & _ & new & Hb) & _). exists I', c', new. by rewrite I3.
Qed.

(** ** A witness *)

(** Other flits may arrive at the ports between two steps. *)
Lemma new_links_ok s l : r_ok s → links_ok l → links_same (Router.links s) l →
  r_ok (Router.MkSys (Router.self s) l).
Proof.
  intros [[Hi Hx Hp Hl] Hc] Hok [D1 D2]. split; [split; try done|done].
  - intros p Hv. destruct (Hi p Hv) as (I & HI & Hch & Hch'). exists I.
    split; [done|]. split; [done|]. unfold chan_links in *. simpl. by rewrite D1, D2.
  - intros p o Hv Ho a Ha. simpl. rewrite D1. by eapply Hp.
Qed.

Lemma step_ok now s : r_ok s → ∃ s', Router.step now s = Some ((), s', []) ∧ r_ok s'.
Proof.
  intros Hok.
  destruct (ocs_phase now s Hok) as (s1 & E1 & [H1 _] & _).
  destruct (ics_phase now s1 H1) as (s2 & E2 & (D & H2 & HD) & _).
  destruct (cb_phase D s2 H2 HD) as (s3 & E3 & H3 & _).
  exists s3. split; [|done]. unfold Router.step. by rewrite (bind_eq _ _ _ _ _ E1), (bind_eq _ _ _ _ _ E2).
Qed.

Fixpoint run (n : nat) (now : Z) (s : Router.sys) : option Router.sys :=
  match n with
  | O => Some s
  | S n => match Router.step now s with Some (_, s', _) => run n (now + 1) s' | None => None end
  end.
Lemma run_ok n : ∀ now s, r_ok s → ∃ s', run n now s = Some s' ∧ r_ok s'.
Proof.
  induction n as [|n IH]; intros now s H; [by exists s|].
  destruct (step_ok now s H) as (s1 & E & H1). cbn [run]. rewrite E. by apply IH.
Qed.

(** A router 1 whose accelerator sends a store packet to the node 3. *)
Definition raw_vc : vc := MkVC 0 0 0 false [] 0.
Definition raw_ic (p : Z) : t := Mk 0 None (replicate 8 raw_vc) 0 0 false 0 0.
Definition raw_oc (p : Z) : OutputChannel.t :=
  OutputChannel.Mk (replicate 8 true) None [] false [] (replicate 8 0) (replicate 8 0) 0 0 0.
Definition router_demo : Router.sys :=
  let '(r, _, l) := Router.Router 24 64 raw_ic raw_oc (replicate 8 true) 10 20 None 1
    (Links.Mk {[ 20 := Links.MkSlave None [] ]} ∅) in Router.MkSys r l.
Definition with_packet (l : Links.t) : Links.t :=
  Links.Mk (<[10 := Links.MkSlave (Some 10)
    [MkEntry (make_head_flit 5 MTYPE_SW 1 1 3 false) 1; MkEntry (make_data_flit 7 true) 1] ]>
    (Links.slaves l)) (Links.rdy l).

Lemma router_demo_shaped : shaped router_demo.
Proof.
  assert (Hv : ∀ p, valid_port p = true → p = 0 ∨ p = 1 ∨ p = 2).
  { intros p. unfold valid_port. rewrite !orb_true_iff, !Z.eqb_eq. tauto. }
  split.
  - intros p [-> | [-> | ->]]%Hv; eexists; (split; [vm_compute; reflexivity|]); (split; [reflexivity|]);
      split; vm_compute; done || by eexists.
  - intros p [-> | [-> | ->]]%Hv; eexists; (split; [vm_compute; reflexivity|]); intros a; vm_compute; try done.
    intros [= <-]. by eexists.
  - intros a sl. unfold router_demo, Router.Router. cbn [Router.links Links.slaves].
    rewrite !lookup_insert_Some, lookup_singleton_Some.
    intros [[_ <-]|[_ [[_ <-]|[_ [[_ <-]|[_ [_ <-]]]]]]]; constructor.
Qed.

Lemma wormhole_switching_witness :
  ∃ s c o, r_ok s ∧ owns s LOCAL_PORT 1 LOWER_PORT c ∧ emits c = Some (make_head_flit 5 MTYPE_SW 1 1 3 false) ∧
  ∃ s' c', Router.step 5 s = Some ((), s', []) ∧ ocs (xb s') !! LOWER_PORT = Some o ∧
    OutputChannel.obuf o = [MkEntry (make_head_flit 5 MTYPE_SW 1 1 3 false) 1] ∧
    owns s' LOCAL_PORT 1 LOWER_PORT c'.
Proof.
  destruct (reset_ok 0 router_demo router_demo_shaped) as (s0 & E0 & H0 & _).
  vm_compute in E0. injection E0 as E0.
  assert (H1 : r_ok (Router.MkSys (Router.self s0) (with_packet (Router.links s0)))).
  { apply new_links_ok; [done|..].
    - intros a sl. unfold with_packet. cbn [Links.slaves]. rewrite lookup_insert_Some.
      intros [[_ <-]|[_ Hl]]; [repeat constructor; done|]. by apply (md_links _ _ (proj1 H0) a).
    - split; [|done]. unfold with_packet. cbn [Links.slaves]. rewrite dom_insert_L.
      assert (10 ∈ dom (Links.slaves (Router.links s0))); [|set_solver].
      subst s0. apply elem_of_dom. by eexists. }
  destruct (run_ok 4 1 _ H1) as (s & E & H). subst s0. vm_compute in E. injection E as E.
  destruct (wormhole_switching 5 s H) as (_ & _ & s' & E' & _ & Hout & _).
  assert (∃ c, owns s LOCAL_PORT 1 LOWER_PORT c ∧ emits c = Some (make_head_flit 5 MTYPE_SW 1 1 3 false)) as (c & Hc & He).
  { subst s. clear. eexists. split; [split; [reflexivity|eexists]; split; [vm_compute; reflexivity|]|].
    - exact (conj eq_refl (conj eq_refl eq_refl)).
    - reflexivity. }
  assert (∃ o, ocs (xb s) !! LOWER_PORT = Some o ∧ OutputChannel.obuf o = []) as (o & Ho & Hb).
  { subst s. clear. eexists. split; [vm_compute; reflexivity|reflexivity]. }
  destruct (Hout LOWER_PORT o eq_refl Ho) as (o' & Ho' & Hs & _).
  specialize (Hs LOCAL_PORT 1%nat c Hc). rewrite He, Hb in Hs. destruct Hs as [Hb' [c' Hc']].
  exists s, c, o'. split; [done|]. split; [done|]. split; [done|]. exists s', c'. done.
Defined.

End RouterInv.
