(* ===== verification/Flits.v ===== *)
(** * Flits: encoding, acknowledgement and routing of flits (router.cc) *)

From S2P Require Import Prelude Effects Types Router.
Import RouterUtils.

Module Flits.

(** ** Head flits *)

Ltac flit_fields := unfold FLIT_MEMA_LSB, FLIT_MT_LSB, FLIT_MT_MASK, FLIT_SRC_LSB, FLIT_SRC_MASK,
  FLIT_VCH_LSB, FLIT_VCH_MASK, FLIT_DST_MASK in *.

Lemma head_data addr mtype vch src dst tail : is_u32 addr → is_u32 mtype → is_u32 vch →
  is_u32 src → is_u32 dst →
  data (make_head_flit addr mtype vch src dst tail) =
    Z.lor (Z.lor (Z.lor (Z.lor (Z.shiftl (Z.land addr 0x3fffff) 10) (Z.shiftl (Z.land mtype 7) 7))
      (Z.shiftl (Z.land src 3) 2)) (Z.shiftl (Z.land vch 7) 4)) (Z.land dst 3).
Proof.
  intros Ha Hm Hv Hs Hd. unfold make_head_flit. cbn [data]. flit_fields.
  assert (E1 : u32 (Z.shiftl addr 10) = Z.shiftl (Z.land addr 0x3fffff) 10) by bitblast k.
  assert (E2 : Z.land (u32 (Z.shiftl mtype 7)) 0x380 = Z.shiftl (Z.land mtype 7) 7) by bitblast k.
  assert (E3 : Z.land (u32 (Z.shiftl src 2)) 0xc = Z.shiftl (Z.land src 3) 2) by bitblast k.
  assert (E4 : Z.land (u32 (Z.shiftl vch 4)) 0x70 = Z.shiftl (Z.land vch 7) 4) by bitblast k.
  rewrite E1, E2, E3, E4.
  assert (Hadd : ∀ a b, Z.land a b = 0 → a + b = Z.lor a b).
  { intros a b H. pose proof (Z.add_lor_land a b). lia. }
  rewrite (Hadd (Z.shiftl (Z.land addr 0x3fffff) 10)) by bitblast k.
  rewrite (Hadd (Z.lor _ _)) by bitblast k. rewrite (Hadd (Z.lor _ _)) by bitblast k.
  rewrite (Hadd (Z.lor _ _)) by bitblast k. bitblast k.
Qed.

(** The fields a head flit has room for: 22 bits of address, three of the type and
    of the virtual channel, two of each node. *)
Definition carried (addr mtype vch src dst : Z) : Z * Z * Z * Z * Z :=
  (addr mod 2 ^ 22, mtype mod 2 ^ 3, vch mod 2 ^ 3, src mod 2 ^ 2, dst mod 2 ^ 2).

(** Head flits: decoding an encoded head flit gives the fields back, each cut
    to its width; a flit of another type decodes to zeros. *)
Theorem flit_fields addr mtype vch src dst tail (Ha : is_u32 addr) (Hm : is_u32 mtype)
    (Hv : is_u32 vch) (Hs : is_u32 src) (Hd : is_u32 dst) :
  let f := make_head_flit addr mtype vch src dst tail in
  decode_headflit f = carried addr mtype vch src dst ∧
  extractDst f = dst mod 4 ∧ is_u32 (data f) ∧ is_head f = true ∧ is_tail f = tail ∧
  ∀ d last, decode_headflit (make_data_flit d last) = (0, 0, 0, 0, 0) ∧
            is_tail (make_data_flit d last) = last.
Proof.
  intros f. pose proof (head_data addr mtype vch src dst tail Ha Hm Hv Hs Hd) as E. fold f in E.
  assert (Hf : is_u32 (data f)) by (apply (wrap_range 32); lia).
  assert (Hh : is_head f = true) by (unfold f; by destruct tail).
  unfold carried. rewrite <- !Z.land_ones by done. change 4 with (2 ^ 2). rewrite <- !Z.land_ones by done.
  change (Z.ones 22) with 0x3fffff. change (Z.ones 3) with 7. change (Z.ones 2) with 3. split.
  { unfold decode_headflit. fold (is_head f). rewrite Hh, E. flit_fields.
    repeat apply (f_equal2 pair); bitblast k. }
  split; [unfold extractDst; rewrite E; flit_fields; bitblast k|]. split; [done|]. split; [done|].
  split; [unfold f; by destruct tail|]. intros d last. by destruct last.
Qed.

(** ** Acknowledgements *)

Lemma ack_field_min c : 0 ≤ c → ack_field c = Z.min c 15.
Proof.
  intros Hc. unfold ack_field. change (Z.shiftl 1 FLIT_ACK_CNT_BIT) with 16.
  change ACK_COUNT_MAX with (Z.ones 4). destruct (Z.leb_spec 16 c).
  - change (Z.ones 4) with 15. lia.
  - rewrite Z.land_ones, Z.mod_small by lia. lia.
Qed.

(** The counts that the decoding of an acknowledgement of [cnt] gives. *)
Lemma ack_roundtrip ft a b c d rest : 0 ≤ a → 0 ≤ b → 0 ≤ c → 0 ≤ d →
  ∃ f, make_ack_flit ft (a :: b :: c :: d :: rest) = Some f ∧ ftype f = ft ∧
    ack_counts 4 (data f) = [Z.min a 15; Z.min b 15; Z.min c 15; Z.min d 15].
Proof.
  intros Ha Hb Hc Hd. eexists. split; [reflexivity|]. split; [done|]. cbn [data ack_counts].
  rewrite !ack_field_min by done.
  assert (∀ x, 0 ≤ x → is_u 4 (Z.min x 15)) as H by (intros x Hx; unfold is_u; lia).
  pose proof (H a Ha) as Ka. pose proof (H b Hb) as Kb. pose proof (H c Hc) as Kc. pose proof (H d Hd) as Kd.
  revert Ka Kb Kc Kd. generalize (Z.min a 15), (Z.min b 15), (Z.min c 15), (Z.min d 15).
  intros w x y z Ka Kb Kc Kd. unfold FLIT_ACK_CNT_BIT. cbn [Z.add Z.mul Pos.add Pos.mul Pos.succ].
  change (Z.shiftl 1 4 - 1) with 15. repeat apply (f_equal2 cons); try done; bitblast k.
Qed.

(** The acknowledgement of the cycle [now] covers these counts. *)
Definition ack_half (now : Z) (cnt : list Z) : list Z :=
  if OutputChannel.ackFormer now then take 4 cnt else drop 4 cnt.

(** The channel [o], connected to the slave [a], sent an acknowledgement [f] and
    is left with the counts [left]. *)
Definition ack_sent (o : OutputChannel.t) (l : Links.t) (a : Z) (f : FLIT_t) (left : list Z) :
    OutputChannel.sys :=
  OutputChannel.MkSys
    (o <| OutputChannel.send_flit_count ::= λ n, n + 1 |> <| OutputChannel.ack_count := left |>)
    (l <| Links.slaves ::= alter (λ s, s <| Links.buf ::= λ b, b ++ [MkEntry f ACK_VCH] |>) a |>).

Lemma ack_send_eq o l a f left : OutputChannel.oport o = Some a → is_Some (Links.slaves l !! a) →
  (OutputChannel.oport_send f ACK_VCH;;
   modify (λ s, s <| OutputChannel.self ::= λ c, c <| OutputChannel.ack_count := left |> |>))
    (OutputChannel.MkSys o l) = Some ((), ack_sent o l a f left, []).
Proof.
  intros Ha [sl Hsl]. unfold OutputChannel.oport_send. rewrite bind_assoc, gets_bind. cbn [OutputChannel.self].
  rewrite Ha. set (l1 := l <| Links.slaves ::= alter (λ s, s <| Links.buf ::= λ b, b ++ [MkEntry f ACK_VCH] |>) a |>).
  rewrite bind_assoc, (bind_eq _ _ _ () (OutputChannel.MkSys o l1)); [reflexivity|].
  unfold zoom, zoom_key, Links.send. cbn [OutputChannel.links]. unfold zoom_key. rewrite Hsl.
  cbn. unfold l1. do 4 f_equal. destruct l as [sl0 r0]. unfold upd, setter_of. simpl in *. f_equal.
  apply map_eq. intros b. destruct (decide (b = a)) as [->|].
  - by rewrite lookup_insert_eq, lookup_alter_eq, Hsl.
  - by rewrite lookup_insert_ne, lookup_alter_ne.
Qed.

Lemma existsb_nz_false l : existsb nz l = false → Forall (λ c, c = 0) l.
Proof.
  induction l as [|c l IH]; simpl; [done|]. intros [Hc Hl]%orb_false_iff. constructor; [|auto].
  unfold nz in Hc. by apply negb_false_iff, Z.eqb_eq in Hc.
Qed.

(** Acknowledgements: nothing is sent when nothing is to be acknowledged;
    otherwise the flit acknowledges, of each count of its half, what fits.  On
    the virtual channels 0 to 3 what is acknowledged and what is left make up
    the count; on 4 to 7 they do only if every count fits, because a larger one
    is not reduced by what was sent. *)
Theorem ack_accounting now o l a (Ha : OutputChannel.oport o = Some a)
    (Hl : is_Some (Links.slaves l !! a)) (Hlen : length (OutputChannel.ack_count o) = 8%nat)
    (Hpos : Forall (λ c, 0 ≤ c) (OutputChannel.ack_count o)) :
  let cnt := OutputChannel.ack_count o in
  (Forall (λ c, c = 0) (ack_half now cnt) ∧
   OutputChannel.ackSend now (OutputChannel.MkSys o l) = Some ((), OutputChannel.MkSys o l, [])) ∨
  ∃ f left, OutputChannel.ackSend now (OutputChannel.MkSys o l) = Some ((), ack_sent o l a f left, []) ∧
    is_ack f = true ∧
    decode_ack f = (if OutputChannel.ackFormer now
                    then (λ c, Z.min c 15) <$> take 4 cnt else replicate 4 0) ++
                   (if OutputChannel.ackFormer now
                    then replicate 4 0 else (λ c, Z.min c 15) <$> drop 4 cnt) ∧
    (zip_with Z.add (decode_ack f) left = cnt ↔
     OutputChannel.ackFormer now = true ∨ Forall (λ c, c ≤ 15) (drop 4 cnt)).
Proof.
  intros cnt. unfold OutputChannel.ackSend. rewrite gets_bind. cbn [OutputChannel.self].
  change (VCH_SIZE / 2)%nat with 4%nat. unfold ack_half. fold cnt. fold cnt in Hlen, Hpos.
  destruct cnt as [|c0 [|c1 [|c2 [|c3 [|c4 [|c5 [|c6 [|c7 [|]]]]]]]]]; try done. clear Hlen.
  rewrite !Forall_cons in Hpos. destruct Hpos as (P0 & P1 & P2 & P3 & P4 & P5 & P6 & P7 & _).
  destruct (OutputChannel.ackFormer now); cbn [take drop].
  - destruct (existsb nz [c0; c1; c2; c3]) eqn:E; cbn [when].
    2:{ left. split; [by apply existsb_nz_false|done]. }
    right. destruct (ack_roundtrip FTYPE_ACK1 c0 c1 c2 c3 [c4; c5; c6; c7]) as (f & Ef & Hft & Hcnt); try done.
    rewrite Ef. cbn [from_option]. rewrite ret_bind. exists f. eexists. split; [by apply ack_send_eq|].
    assert (Hd : decode_ack f = [Z.min c0 15; Z.min c1 15; Z.min c2 15; Z.min c3 15; 0; 0; 0; 0]).
    { unfold decode_ack. rewrite Hft. change (VCH_SIZE / 2)%nat with 4%nat. by rewrite Hcnt. }
    split; [unfold is_ack; by rewrite Hft|]. split; [by rewrite Hd|]. split; [by left|]. intros _.
    rewrite Hd. cbn [fmap list_fmap app zip_with]. unfold OutputChannel.ack1_left. change ACK_COUNT_MAX with 15.
    repeat apply (f_equal2 cons); try done; repeat case_match; lia.
  - destruct (existsb nz [c4; c5; c6; c7]) eqn:E; cbn [when].
    2:{ left. split; [by apply existsb_nz_false|done]. }
    right. destruct (ack_roundtrip FTYPE_ACK2 c4 c5 c6 c7 []) as (f & Ef & Hft & Hcnt); try done.
    rewrite Ef. cbn [from_option]. rewrite ret_bind. exists f. eexists. split; [by apply ack_send_eq|].
    assert (Hd : decode_ack f = [0; 0; 0; 0; Z.min c4 15; Z.min c5 15; Z.min c6 15; Z.min c7 15]).
    { unfold decode_ack. rewrite Hft. change (VCH_SIZE / 2)%nat with 4%nat. by rewrite Hcnt. }
    split; [unfold is_ack; by rewrite Hft|]. split; [by rewrite Hd|].
    rewrite Hd. cbn [fmap list_fmap app zip_with]. unfold OutputChannel.ack2_left. change ACK_COUNT_MAX with 15.
    rewrite !Forall_cons. split.
    + intros [= E4 E5 E6 E7]. right.
      destruct (Z.ltb_spec 15 c4), (Z.ltb_spec 15 c5), (Z.ltb_spec 15 c6), (Z.ltb_spec 15 c7);
        split_and!; try done; lia.
    + intros [?|(H4 & H5 & H6 & H7 & _)]; [done|].
      repeat apply (f_equal2 cons); try done; case_match; lia.
Qed.

(** ** Routing *)

(** The path of a packet for [dst] from the router [x]: lower routers have the
    next number, upper routers the one before. *)
Fixpoint route (n : nat) (x dst : Z) : list Z :=
  match n with
  | O => []
  | S n =>
      let p := InputChannel.rtcomp x dst in
      x :: if p =? Crossbar.LOCAL_PORT then [] else
           route n (if p =? Crossbar.LOWER_PORT then x + 1 else x - 1) dst
  end.

(** C36 routing: from every router a packet comes to its destination by the
    shortest way, and leaves it by the local port. *)
Theorem routing_reaches (x dst : Z) (Hx : 0 ≤ x < 2 ^ 31) (Hd : 0 ≤ dst < 2 ^ 31) :
  ∃ path, route (S (Z.to_nat (Z.abs (dst - x)))) x dst = path ++ [dst] ∧
    Z.of_nat (length path) = Z.abs (dst - x) ∧
    (∀ n, (Z.to_nat (Z.abs (dst - x)) < n)%nat → route n x dst = path ++ [dst]) ∧
    InputChannel.rtcomp dst dst = Crossbar.LOCAL_PORT.
Proof.
  assert (Hl : InputChannel.rtcomp dst dst = Crossbar.LOCAL_PORT).
  { unfold InputChannel.rtcomp. rewrite u32_small by lia. by rewrite Z.eqb_refl. }
  assert (H : ∀ k x, 0 ≤ x < 2 ^ 31 → Z.to_nat (Z.abs (dst - x)) = k →
    ∃ path, Z.of_nat (length path) = Z.abs (dst - x) ∧
      ∀ n, (k < n)%nat → route n x dst = path ++ [dst]).
  { induction k as [|k IH]; intros y Hy Hk.
    - assert (y = dst) as -> by lia. exists []. split; [simpl; lia|].
      intros [|n] Hn; [lia|]. cbn [route]. by rewrite Hl.
    - destruct (IH (if y <? dst then y + 1 else y - 1)) as (path & Hlen & Hp).
      + destruct (Z.ltb_spec y dst); lia.
      + destruct (Z.ltb_spec y dst); lia.
      + exists (y :: path). split; [cbn [length]; destruct (Z.ltb_spec y dst); lia|].
        intros [|n] Hn; [lia|]. cbn [route]. unfold InputChannel.rtcomp. rewrite (u32_small y) by lia.
        destruct (Z.eqb_spec dst y); [lia|]. change ((y :: path) ++ [dst]) with (y :: (path ++ [dst])). rewrite <- (Hp n) by lia.
        by destruct (Z.ltb_spec y dst). }
  destruct (H _ x Hx eq_refl) as (path & Hlen & Hp). exists path. split; [|done]. apply Hp. lia.
Qed.

(** ** Witnesses *)

Lemma flit_fields_witness :
  decode_headflit (make_head_flit 0x12345 MTYPE_BW 2 1 3 true) = (0x12345, MTYPE_BW, 2, 1, 3).
Proof.
  destruct (flit_fields 0x12345 MTYPE_BW 2 1 3 true) as (E & _); [by split..|]. exact E.
Defined.

Definition acks_demo (cnt : list Z) : OutputChannel.t :=
  OutputChannel.Mk (replicate 8 true) (Some 5) [] true [] (replicate 8 0) cnt 24 17 0.
Definition links_demo : Links.t := Links.Mk {[ 5 := Links.MkSlave None [] ]} ∅.

(** 20 flits of channel 1, and 20 of channel 4, to acknowledge. *)
Lemma ack_accounting_witness :
  (∃ f left, OutputChannel.ackSend 2 (OutputChannel.MkSys (acks_demo [0; 20; 0; 0; 0; 0; 0; 0]) links_demo) =
     Some ((), ack_sent (acks_demo [0; 20; 0; 0; 0; 0; 0; 0]) links_demo 5 f left, []) ∧
     zip_with Z.add (decode_ack f) left = [0; 20; 0; 0; 0; 0; 0; 0]) ∧
  ∃ f left, OutputChannel.ackSend 3 (OutputChannel.MkSys (acks_demo [0; 0; 0; 0; 20; 0; 0; 0]) links_demo) =
     Some ((), ack_sent (acks_demo [0; 0; 0; 0; 20; 0; 0; 0]) links_demo 5 f left, []) ∧
     zip_with Z.add (decode_ack f) left ≠ [0; 0; 0; 0; 20; 0; 0; 0].
Proof.
  split.
  - destruct (ack_accounting 2 (acks_demo [0; 20; 0; 0; 0; 0; 0; 0]) links_demo 5) as [[H _]|(f & left & E & _ & _ & H)];
      [done|by eexists|done|repeat constructor; done| |].
    + apply Forall_cons in H as [_ [H _]%Forall_cons]. done.
    + exists f, left. split; [exact E|]. apply H. by left.
  - destruct (ack_accounting 3 (acks_demo [0; 0; 0; 0; 20; 0; 0; 0]) links_demo 5) as [[H _]|(f & left & E & _ & _ & H)];
      [done|by eexists|done|repeat constructor; done| |].
    + apply Forall_cons in H as [H _]. done.
    + exists f, left. split; [exact E|]. intros [?|[Hc _]%Forall_cons]%H; [done|]. by apply Hc.
Defined.

Lemma routing_reaches_witness : route 4 0 3 = [0; 1; 2; 3] ∧ route 3 3 1 = [3; 2; 1].
Proof.
  split.
  - destruct (routing_reaches 0 3) as (p & E & _); [lia..|]. exact eq_refl.
  - destruct (routing_reaches 3 1) as (p & E & _); [lia..|]. exact eq_refl.
Defined.

End Flits.
