(* ===== verification/DMAC.v ===== *)
(** * DMAC: the DMA controller (dmac.h, dmac.cc)

    The controller is a bus master whose registers are themselves mapped on the
    bus: [DMACConfig] is a range, programmed by the processor and read and
    written by the controller.  The controller is modelled against [MemPort] and
    against [HasConfig], which says where behind the bus its registers are. *)

From S2P Require Import Prelude Effects Types Mapper Interrupts.

(** ** The registers *)
Module DMACConfig.

Definition DMAC_ENABLE_OFFSET : Z := 0x00.
Definition DMAC_INTEN_OFFSET : Z := 0x04.
Definition DMAC_CTRL_OFFSET : Z := 0x08.
Definition DMAC_STATUS_OFFSET : Z := 0x0C.
Definition DMAC_ATTR_OFFSET : Z := 0x10.
Definition DMAC_LEN_OFFSET : Z := 0x14.
Definition DMAC_SRC_OFFSET : Z := 0x18.
Definition DMAC_DST_OFFSET : Z := 0x1C.
Definition DMAC_DONELEN_OFFSET : Z := 0x20.
Definition DMAC_CONF_SIZE : Z := 0x20.

Definition DMAC_ENABLED_BIT : Z := 0x1.
Definition DMAC_INTEN_BIT : Z := 0x1.
Definition DMAC_START_BIT : Z := 0x1.
Definition DMAC_ABORT_BIT : Z := 0x2.
Definition DMAC_BUSY_BIT : Z := 0x1.
Definition DMAC_DONE_BIT : Z := 0x2.
Definition DMAC_BUSERR_BIT : Z := 0x4.
Definition DMAC_ADRERR_BIT : Z := 0x8.
Definition DMAC_ESTATE_BIT : Z := 0x10.
Definition DMAC_BURST_BIT : Z := 0x1.
Definition DMAC_ZERO_BIT : Z := 0x2.

Record t := Mk {
  byteswapped : bool;
  kicked : bool; enabled : bool; irq_en : bool; abort : bool;
  busy : bool; done : bool; addr_err : bool; bus_err : bool; end_stat : bool;
  zero_write : bool; burst : bool;
  dma_len : Z; dma_src : Z; dma_dst : Z;        (* uint32 *)
  success_len : Z
}.
#[global] Instance eta : Eta t := λ c,
  Mk (byteswapped c) (kicked c) (enabled c) (irq_en c) (abort c) (busy c) (done c) (addr_err c)
     (bus_err c) (end_stat c) (zero_write c) (burst c) (dma_len c) (dma_src c) (dma_dst c)
     (success_len c).

Record DMA_query_t := MkQuery { src : Z; dst : Z; len : Z; q_zero_write : bool; q_burst : bool }.

Definition reset_regs (c : t) : t :=
  Mk (byteswapped c) false false false false false false false false false false false 0 0 0 0.
Definition reset : M t unit := modify reset_regs.

(** [DMACConfig::DMACConfig] *)
Definition DMACConfig (opt_bigendian host_bigendian : bool) : t :=
  Mk (byteswapped_of opt_bigendian host_bigendian)
     false false false false false false false false false false false 0 0 0 0.

Definition bit (b : bool) (mask : Z) : Z := if b then mask else 0.

Definition fetch_word (offset mode client : Z) : M t Z :=
  c ← gets id;
  mret (if offset =? DMAC_ENABLE_OFFSET then bit (enabled c) 1
        else if offset =? DMAC_INTEN_OFFSET then bit (irq_en c) 1
        else if offset =? DMAC_CTRL_OFFSET then bit (abort c) DMAC_ABORT_BIT
        else if offset =? DMAC_STATUS_OFFSET then
          Z.lor (Z.lor (Z.lor (Z.lor (bit (busy c) DMAC_BUSY_BIT) (bit (done c) DMAC_DONE_BIT))
            (bit (addr_err c) DMAC_ADRERR_BIT)) (bit (bus_err c) DMAC_BUSERR_BIT))
            (bit (end_stat c) DMAC_ESTATE_BIT)
        else if offset =? DMAC_ATTR_OFFSET then
          Z.lor (bit (zero_write c) DMAC_ZERO_BIT) (bit (burst c) DMAC_BURST_BIT)
        else if offset =? DMAC_LEN_OFFSET then dma_len c
        else if offset =? DMAC_SRC_OFFSET then dma_src c
        else if offset =? DMAC_DST_OFFSET then dma_dst c
        else if offset =? DMAC_DONELEN_OFFSET then success_len c
        else 0).

(** The narrow accesses see the low bytes of a register. *)
Definition low_part (n offset client : Z) : M t Z :=
  bs ← gets byteswapped;
  if (bs : bool) then
    if offset mod 4 =? 4 - n then fetch_word (Z.land offset (lnot32 0x3)) DATALOAD client
    else mret 0
  else if offset mod 4 =? 0 then fetch_word offset DATALOAD client else mret 0.
Definition fetch_halfword (offset client : Z) : M t Z :=
  w ← low_part 2 offset client; mret (Z.land w 0xffff).
Definition fetch_byte (offset client : Z) : M t Z :=
  w ← low_part 1 offset client; mret (Z.land w 0xff).

Definition store_word (offset data client : Z) : M t unit :=
  let on mask := nz (Z.land data mask) in
  if offset =? DMAC_ENABLE_OFFSET then enabled <~ on DMAC_ENABLED_BIT
  else if offset =? DMAC_INTEN_OFFSET then irq_en <~ on DMAC_INTEN_BIT
  else if offset =? DMAC_CTRL_OFFSET then
    b ← gets busy;
    when (negb b) (kicked <~ on DMAC_START_BIT);;
    abort <~ on DMAC_ABORT_BIT
  else if offset =? DMAC_STATUS_OFFSET then
    modify (λ c, c <| done ::= λ b, b && negb (on DMAC_DONE_BIT) |>
                   <| addr_err ::= λ b, b && negb (on DMAC_ADRERR_BIT) |>
                   <| bus_err ::= λ b, b && negb (on DMAC_BUSERR_BIT) |>
                   <| end_stat ::= λ b, b && negb (on DMAC_ESTATE_BIT) |>)
  else if offset =? DMAC_ATTR_OFFSET then
    zero_write <~ on DMAC_ZERO_BIT;; burst <~ on DMAC_BURST_BIT
  else if offset =? DMAC_LEN_OFFSET then dma_len <~ data
  else if offset =? DMAC_SRC_OFFSET then dma_src <~ data
  else if offset =? DMAC_DST_OFFSET then dma_dst <~ data
  else if offset =? DMAC_DONELEN_OFFSET then success_len <~ data
  else mret ().

Definition store_low_part (n offset data client : Z) : M t unit :=
  bs ← gets byteswapped;
  if (bs : bool) then
    when (offset mod 4 =? 4 - n) (store_word (Z.land offset (lnot32 0x3)) data client)
  else when (offset mod 4 =? 0) (store_word offset data client).
Definition store_halfword (offset data client : Z) : M t unit := store_low_part 2 offset data client.
Definition store_byte (offset data client : Z) : M t unit := store_low_part 1 offset data client.

Definition getQuery (c : t) : DMA_query_t :=
  MkQuery (dma_src c) (dma_dst c) (dma_len c) (zero_write c) (burst c).

End DMACConfig.

(** ** The controller *)

(** Where the registers of the controller are among the objects behind the bus. *)
Class HasConfig (B : Type) := {
  config_of : B → option DMACConfig.t;
  set_config : DMACConfig.t → B → B
}.

Module DMAC.
Import DMACConfig.

Inductive stat :=
  IDLE | READING | READ_REQ | WRITING | WRITE_REQ | READ_DONE | WRITE_DONE | EXIT.
#[global] Instance stat_eq_dec : EqDecision stat.
Proof. solve_decision. Defined.

Record t := Mk {
  status : stat;
  next_status : stat;
  block_words : Z;                (* int *)
  query : DMA_query_t;
  counter : Z;                    (* int *)
  word_counter : Z;               (* int *)
  mem_bandwidth : Z;              (* int *)
  buffer : list Z;                (* uint32[block_words] *)
  exception_pending : bool;       (* of DeviceExc *)
  lines : DeviceInt.t             (* the base class DeviceInt *)
}.
#[global] Instance eta : Eta t := λ d,
  Mk (status d) (next_status d) (block_words d) (query d) (counter d) (word_counter d)
     (mem_bandwidth d) (buffer d) (exception_pending d) (lines d).

Record sys {B : Type} := MkSys { self : t; bus : B }.
Arguments sys : clear implicits.
#[global] Instance sys_eta {B} : Eta (sys B) := λ s, MkSys B (self s) (bus s).

(** [DMAC::DMAC], on the memory [raw] of the object and [words] of the buffer. *)
Definition DMAC (dcachebsize bandwidth : Z) (words : list Z) (raw : t) : t :=
  raw <| block_words := Z.shiftr dcachebsize 2 |> <| buffer := words |>
      <| mem_bandwidth := bandwidth |> <| lines := DeviceInt.DeviceInt |>.

(** [exception] *)
Definition exception (excCode : Z) (d : t) : t :=
  if excCode =? DBE then d <| exception_pending := true |> else d.

Section Step.
  Context {B : Type} `{MemPort B} `{HasConfig B}.
  (** [machine->num_cycles] and the address of this controller *)
  Variable now me : Z.

Definition on_exception (e : exc_event) (s : sys B) : sys B :=
  if ev_client e =? me then s <| self ::= exception (ev_code e) |> else s.

(** Run a call of the bus; the exceptions it sends to the controller are calls of
    [exception]. *)
Definition on_bus {A} (m : M B A) : M (sys B) A := λ s,
  match zoom bus m s with
  | None => None
  | Some (a, s', e) => Some (a, foldl (flip on_exception) s' e, filter (λ e, ev_client e ≠ me) e)
  end.

Definition on_config {A} (m : M DMACConfig.t A) : M (sys B) A := λ s,
  match config_of (bus s) with
  | None => None
  | Some c =>
      match m c with
      | None => None
      | Some (a, c', e) => Some (a, s <| bus ::= set_config c' |>, e)
      end
  end.

Definition set {T} (p : t → T) {P : Setter p} (v : T) : M (sys B) unit := zoom self (p <~ v).
Definition get {T} (p : t → T) : M (sys B) T := gets (λ s, p (self s)).

(** [addr % 0] is undefined. *)
Definition address_valid (addr : Z) : M (sys B) bool :=
  d ← gets self;
  let align := if q_burst (query d) then u32 (block_words d * 4) else 4 in
  if align =? 0 then crash else mret (addr mod align =? 0).

(** The address of the next word of the current block at [base]. *)
Definition word_addr (d : t) (base : Z) : Z :=
  if q_burst (query d) then u32 (base + block_words d * counter d * 4 + 4 * word_counter d)
  else u32 (base + 4 * counter d).

Definition request (base mode : Z) : M (sys B) unit :=
  d ← gets self;
  if q_burst (query d) then
    let addr := u32 (base + block_words d * counter d * 4) in
    for_range 0 (Z.to_nat (block_words d)) (λ i,
      on_bus (mem_request_word now (u32 (addr + 4 * i)) mode me))
  else on_bus (mem_request_word now (u32 (base + 4 * counter d)) mode me).

(** [++word_counter == block_words || !query.burst] *)
Definition block_ends : M (sys B) bool :=
  n ← get word_counter; set word_counter (n + 1);;
  d ← gets self; mret ((n + 1 =? block_words d) || negb (q_burst (query d))).

Fixpoint reading (n : nat) : M (sys B) unit :=
  match n with
  | O => mret ()
  | S n =>
      d ← gets self;
      let addr := word_addr d (src (query d)) in
      r ← on_bus (mem_ready now addr DATALOAD me);
      if (r : bool) then
        w ← on_bus (mem_fetch_word now addr DATALOAD me);
        zoom self (aset buffer (word_counter d) w);;
        last ← block_ends;
        if (last : bool) then set next_status READ_DONE else reading n
      else reading n
  end.

Fixpoint writing (n : nat) : M (sys B) unit :=
  match n with
  | O => mret ()
  | S n =>
      d ← gets self;
      data ← (if q_zero_write (query d) then mret 0 else zoom self (aget buffer (word_counter d)));
      let addr := word_addr d (dst (query d)) in
      r ← on_bus (mem_ready now addr DATASTORE me);
      if (r : bool) then
        on_bus (mem_store_word now addr data me);;
        last ← block_ends;
        if (last : bool) then set next_status WRITE_DONE else writing n
      else writing n
  end.

Definition start : M (sys B) unit :=
  c ← on_config (gets id);
  when (kicked c)
    (on_config (busy <~ true);;
     on_config (kicked <~ false);;
     set query (getQuery c);;
     set counter 0;;
     set word_counter 0;;
     ok ← address_valid (dma_src c);
     if negb ok then set next_status EXIT;; on_config (addr_err <~ true)
     else set next_status (if zero_write c then WRITE_REQ else READ_REQ)).

Definition request_block (base : DMA_query_t → Z) (mode : Z) (next : stat) : M (sys B) unit :=
  ok ← on_bus (mem_acquire_bus now me);
  when ok
    (q ← get query;
     request (base q) mode;;
     set word_counter 0;;
     set next_status next).

Definition read_done : M (sys B) unit :=
  on_bus (mem_release_bus now me);;
  q ← get query;
  ok ← address_valid (dst q);
  if (ok : bool) then on_config (end_stat <~ false);; set next_status WRITE_REQ
  else
  c ← on_config (gets id);
  if abort c then set next_status EXIT
  else on_config (end_stat <~ true);; set next_status EXIT;; on_config (addr_err <~ true).

(** [counter] is an [int]; its increment is taken to wrap. *)
Definition write_done : M (sys B) unit :=
  n ← get counter; set counter (s32 (n + 1));;
  q ← get query;
  c ← on_config (gets id);
  set next_status
    (if u32 (n + 1) =? len q then EXIT
     else if abort c then EXIT
     else if q_zero_write q then WRITE_REQ else READ_REQ);;
  on_config (end_stat <~ true).

Definition exit_ : M (sys B) unit :=
  on_bus (mem_release_bus now me);;
  n ← get counter;
  on_config (done <~ true);;
  on_config (busy <~ false);;
  on_config (success_len <~ u32 n);;
  set next_status IDLE.

Definition work (st : stat) : M (sys B) unit :=
  d ← gets self;
  match st with
  | IDLE => start
  | READ_REQ => request_block src DATALOAD READING
  | READING => reading (Z.to_nat (mem_bandwidth d))
  | READ_DONE => read_done
  | WRITE_REQ => request_block dst DATASTORE WRITING
  | WRITING => writing (Z.to_nat (mem_bandwidth d))
  | WRITE_DONE => write_done
  | EXIT => exit_
  end.

Definition step : M (sys B) unit :=
  c ← on_config (gets id);
  when (enabled c)
    (st ← get status;
     set next_status st;;
     work st;;
     pending ← get exception_pending;
     when pending
       (on_config (bus_err <~ true);; set next_status EXIT;; set exception_pending false);;
     next ← get next_status;
     set status next);;
  c ← on_config (gets id);
  zoom self (zoom lines
    (if done c && irq_en c then DeviceInt.assertInt DeviceInt.IRQ5
     else DeviceInt.deassertInt DeviceInt.IRQ5)).

Definition reset : M (sys B) unit :=
  on_config DMACConfig.reset;; set status IDLE;; set exception_pending false.

End Step.
End DMAC.
