(* ===== verification/DMACopy.v ===== *)
(** * DMACopy: what a transfer of the DMA controller does to the memory

    The controller is proved against an interface, [word_bus]: what a memory
    system promises to one bus master. *)

From S2P Require Import Prelude Effects Types Bus Range Mapper Physical Interrupts DMAC.
Import DMACConfig DMAC.

(** ** The interface of a memory system to a bus master *)

(** What the master sees: the words at the addresses it may use, the cycle in
    which it asked for each access, the holder of the bus and the cycle of the
    last release. *)
Record view := MkView {
  v_word : Z → option Z;
  v_asked : Z → Z → option Z;         (* address, mode *)
  v_holder : option Z;
  v_released : Z
}.

Definition ask (now a mode : Z) (v : view) : view :=
  MkView (v_word v)
    (λ a' m', if (a' =? a) && (m' =? mode)
              then match v_asked v a mode with None => Some now | t => t end else v_asked v a' m')
    (v_holder v) (v_released v).
Definition served (a mode : Z) (v : view) : view :=
  MkView (v_word v) (λ a' m', if (a' =? a) && (m' =? mode) then None else v_asked v a' m')
    (v_holder v) (v_released v).
Definition written (a d : Z) (v : view) : view :=
  MkView (λ x, if x =? a then Some d else v_word v x) (v_asked v) (v_holder v) (v_released v).
Definition held (h : option Z) (v : view) : view :=
  MkView (v_word v) (v_asked v) h (v_released v).
Definition released (now : Z) (v : view) : view :=
  MkView (v_word v) (v_asked v) None (s32 now).

(** The accesses answer after the latency of their address and see the memory
    of the view; the registers of the controller are not part of that memory. *)
Record word_bus {B} `{MemPort B} `{HasConfig B} (me : Z) (lat : Z → Z) (repr : B → view → Prop) : Prop := {
  wb_request : ∀ now a mode b v, repr b v → is_Some (v_word v a) →
    ∃ b', mem_request_word now a mode me b = Some ((), b', []) ∧ repr b' (ask now a mode v) ∧
      config_of b' = config_of b;
  wb_ready : ∀ now a mode b v t, repr b v → is_Some (v_word v a) → v_asked v a mode = Some t →
    ∃ b', mem_ready now a mode me b = Some (lat a <=? u32 (now - t), b', []) ∧ repr b' v ∧
      config_of b' = config_of b;
  wb_fetch : ∀ now a mode b v t w, repr b v → v_word v a = Some w → v_asked v a mode = Some t →
    lat a ≤ u32 (now - t) →
    ∃ b', mem_fetch_word now a mode me b = Some (w, b', []) ∧ repr b' (served a mode v) ∧
      config_of b' = config_of b;
  wb_store : ∀ now a d b v t, repr b v → is_Some (v_word v a) → v_asked v a DATASTORE = Some t →
    lat a ≤ u32 (now - t) → is_u32 d →
    ∃ b', mem_store_word now a d me b = Some ((), b', []) ∧
      repr b' (written a d (served a DATASTORE v)) ∧ config_of b' = config_of b;
  wb_acquire : ∀ now b v, repr b v → (v_holder v = None ∨ v_holder v = Some me) →
    ∃ b', mem_acquire_bus now me b = Some (negb (u32 (v_released v) =? now), b', []) ∧
      repr b' (if u32 (v_released v) =? now then v else held (Some me) v) ∧
      config_of b' = config_of b;
  wb_release : ∀ now b v, repr b v →
    ∃ b', mem_release_bus now me b = Some ((), b', []) ∧
      repr b' (if bool_decide (v_holder v = Some me) then released now v else v) ∧
      config_of b' = config_of b;
  wb_config : ∀ c b v, repr b v → repr (set_config c b) v ∧ config_of (set_config c b) = Some c;
  wb_words : ∀ b v a w, repr b v → v_word v a = Some w → is_u32 w;
  wb_same : ∀ b v v', repr b v → (∀ x, v_word v' x = v_word v x) →
    (∀ x m, v_asked v' x m = v_asked v x m) → v_holder v' = v_holder v →
    v_released v' = v_released v → repr b v'
}.

(** ** The memory after a transfer *)

(** [n] words from [d] on replaced, the one at offset [o] by [f o]. *)
Definition blit (f : Z → option Z) (n d : Z) (m : Z → option Z) (x : Z) : option Z :=
  if (d <=? x) && (x <? d + 4 * n) && ((x - d) mod 4 =? 0) then f (x - d) else m x.

(** [n] words copied from [s] to [d]: all are read before the first is written. *)
Definition copied (n s d : Z) (m : Z → option Z) : Z → option Z := blit (λ o, m (s + o)) n d m.
Definition zeroed (n d : Z) (m : Z → option Z) : Z → option Z := blit (λ _, Some 0) n d m.

(** Blocks of [n] words, from block [k] on. *)
Fixpoint transferred (zero : bool) (n s d : Z) (blocks : nat) (k : Z) (m : Z → option Z) : Z → option Z :=
  match blocks with
  | O => m
  | S j =>
      transferred zero n s d j (k + 1)
        (if zero then zeroed n (d + 4 * n * k) m else copied n (s + 4 * n * k) (d + 4 * n * k) m)
  end.

(** The controller in the cycles [now], [now + 1], ... *)
Definition tick {B} `{MemPort B} `{HasConfig B} (me : Z) (x : Z * sys B) : option (Z * sys B) :=
  pair (u32 (x.1 + 1)) <$> quietly (step x.1 me) x.2.
Definition run {B} `{MemPort B} `{HasConfig B} (me : Z) (n : nat) (now : Z) (s : sys B) : option (Z * sys B) :=
  cycles (tick me) n (now, s).

Section Copy.
  Context {B : Type} `{MemPort B} `{HasConfig B}.
  Context (me : Z) (lat : Z → Z) (repr : B → view → Prop) (Hb : word_bus me lat repr).

Definition cfg (b : B) (c : DMACConfig.t) (v : view) : Prop := config_of b = Some c ∧ repr b v.

(** *** Running the actions *)

Lemma on_bus_eq {A} (m : M B A) d b a b' : m b = Some (a, b', []) →
  on_bus me m (MkSys B d b) = Some (a, MkSys B d b', []).
Proof. unfold on_bus, zoom. cbn [bus]. by intros ->. Qed.

Lemma on_config_eq {A} (m : M DMACConfig.t A) d b c v a c' : cfg b c v → m c = Some (a, c', []) →
  on_config m (MkSys B d b) = Some (a, MkSys B d (set_config c' b), []) ∧ cfg (set_config c' b) c' v.
Proof.
  intros [Hc Hr] E. unfold on_config. cbn [bus]. rewrite Hc, E. split; [done|].
  destruct (wb_config _ _ _ Hb c' b v Hr). by split.
Qed.

(** The first action of a sequence is one on the bus or on the registers. *)
Lemma on_bus_bind {A C} (m : M B A) (f : A → M (sys B) C) d b a b' : m b = Some (a, b', []) →
  bindM (on_bus me m) f (MkSys B d b) = f a (MkSys B d b').
Proof. intros E. by rewrite (bind_eq _ _ _ _ _ (on_bus_eq m d b a b' E)). Qed.

Lemma on_config_bind {A C} (m : M DMACConfig.t A) (f : A → M (sys B) C) d b c v a c' :
  cfg b c v → m c = Some (a, c', []) →
  bindM (on_config m) f (MkSys B d b) = f a (MkSys B d (set_config c' b)).
Proof. intros Hc E. by rewrite (bind_eq _ _ _ _ _ (proj1 (on_config_eq m d b c v a c' Hc E))). Qed.

Lemma set_cfg b c v c' : cfg b c v → cfg (set_config c' b) c' v.
Proof. intros [_ Hr]. destruct (wb_config _ _ _ Hb c' b v Hr). by split. Qed.

Lemma cfg_same b c v v' : cfg b c v → (∀ x, v_word v' x = v_word v x) →
  (∀ x m, v_asked v' x m = v_asked v x m) → v_holder v' = v_holder v →
  v_released v' = v_released v → cfg b c v'.
Proof. intros [Hc Hr] ????. split; [done|]. by eapply (wb_same _ _ _ Hb). Qed.

(** *** One cycle *)

Definition irq_lines (c : DMACConfig.t) (l : DeviceInt.t) : DeviceInt.t :=
  if nz (Z.land DeviceInt.IRQ5 (DeviceInt.lines_connected l)) then
    l <| DeviceInt.lines_asserted ::= λ a,
      if done c && irq_en c then Z.lor a DeviceInt.IRQ5 else Z.land a (lnot32 DeviceInt.IRQ5) |>
  else l.
Definition after_step (c : DMACConfig.t) (d : t) : t :=
  d <| status := next_status d |> <| lines ::= irq_lines c |>.

Lemma step_work now d b c v (P : t → DMACConfig.t → view → Prop) : cfg b c v → enabled c = true →
  (∀ b0, cfg b0 c v → ∃ d' b1 c1 v1,
     work now me (status d) (MkSys B (d <| next_status := status d |>) b0) =
       Some ((), MkSys B d' b1, []) ∧
     cfg b1 c1 v1 ∧ exception_pending d' = false ∧ P d' c1 v1) →
  ∃ d' b2 c1 v1, step now me (MkSys B d b) = Some ((), MkSys B (after_step c1 d') b2, []) ∧
    cfg b2 c1 v1 ∧ P d' c1 v1.
Proof.
  intros Hc He Hw. pose proof (set_cfg b c v c Hc) as Hc0.
  destruct (Hw _ Hc0) as (d' & b1 & c1 & v1 & E & Hc1 & Hx & HP).
  exists d', (set_config c1 b1), c1, v1. split; [|split; [by eapply set_cfg|done]].
  unfold step. rewrite (on_config_bind _ _ _ _ c v c c Hc eq_refl). rewrite He. cbn [when].
  rewrite (bind_eq _ _ _ () (MkSys B (d' <| status := next_status d' |>) b1)).
  - rewrite (on_config_bind _ _ _ _ c1 v1 c1 c1 Hc1 eq_refl).
    unfold after_step, irq_lines, DeviceInt.assertInt, DeviceInt.deassertInt, zoom.
    destruct d' as [? ? ? ? ? ? ? ? ? [lc la]]. cbn.
    destruct (done c1 && irq_en c1); cbn; by destruct (nz _).
  - unfold get at 1. rewrite gets_bind. cbn [self].
    rewrite (bind_eq _ _ _ () (MkSys B (d <| next_status := status d |>) (set_config c b))) by reflexivity.
    rewrite (bind_eq _ _ _ _ _ E). unfold get. rewrite !gets_bind. cbn [self]. rewrite Hx. cbn [when].
    rewrite ret_bind, gets_bind. reflexivity.
Qed.

(** [Q] holds after some number of cycles. *)
Definition reaches (now : Z) (s : sys B) (Q : Z → sys B → Prop) : Prop :=
  Effects.reaches (tick me) (now, s) (λ x, Q x.1 x.2).

Lemma dma_here now s (Q : Z → sys B → Prop) : Q now s → reaches now s Q.
Proof using Type. intros HQ. by apply reaches_here. Qed.

Lemma dma_step now s s' Q : step now me s = Some ((), s', []) → reaches (u32 (now + 1)) s' Q →
  reaches now s Q.
Proof using Type. intros E. apply reaches_step. unfold tick, quietly. cbn. by rewrite E. Qed.

Lemma dma_trans now s P Q : reaches now s P → (∀ now' s', P now' s' → reaches now' s' Q) →
  reaches now s Q.
Proof using Type. intros HP HQ. eapply reaches_trans; [exact HP|]. intros [now' s']. apply HQ. Qed.

(** *** The accesses of a block *)

(** The requests for the words from [i] to [n] of the block at [a]. *)
Definition pending (t mode a i n : Z) (x m : Z) : option Z :=
  if (m =? mode) && (a + 4 * i <=? x) && (x <? a + 4 * n) && ((x - a) mod 4 =? 0) then Some t else None.

Lemma in_block a i n x : (a + 4 * i <=? x) && (x <? a + 4 * n) && ((x - a) mod 4 =? 0) = true ↔
  ∃ j, i ≤ j < n ∧ x = a + 4 * j.
Proof.
  rewrite !andb_true_iff, Z.leb_le, Z.ltb_lt, Z.eqb_eq. split.
  - intros [[H1 H2] H3]. exists ((x - a) / 4). pose proof (Z.div_mod (x - a) 4 ltac:(lia)). lia.
  - intros (j & Hj & ->). replace (a + 4 * j - a) with (j * 4) by lia. rewrite Z.mod_mul by lia. lia.
Qed.

Lemma pending_eq t mode a i n x m :
  pending t mode a i n x m = Some t ∧ m = mode ∧ (∃ j, i ≤ j < n ∧ x = a + 4 * j) ∨
  pending t mode a i n x m = None ∧ (m ≠ mode ∨ ∀ j, i ≤ j < n → x ≠ a + 4 * j).
Proof.
  unfold pending. rewrite <- !andb_assoc. destruct (Z.eqb_spec m mode) as [->|]; [|by auto].
  cbn [andb]. rewrite andb_assoc. destruct (_ && _ && _) eqn:E.
  - left. apply in_block in E. auto.
  - right. split; [done|]. right. intros j Hj ->. apply not_true_iff_false in E. apply E, in_block. eauto.
Qed.

Lemma pending_self t mode a i n j : i ≤ j < n → pending t mode a i n (a + 4 * j) mode = Some t.
Proof.
  intros Hj. destruct (pending_eq t mode a i n (a + 4 * j) mode) as [(E & _)|(E & [?|Hn])]; [done..|].
  by destruct (Hn j).
Qed.

Lemma pending_served t mode a i n x m : i < n →
  (if (x =? a + 4 * i) && (m =? mode) then None else pending t mode a i n x m) =
  pending t mode a (i + 1) n x m.
Proof.
  intros Hi. destruct (pending_eq t mode a (i + 1) n x m) as [(-> & -> & j & Hj & ->)|(-> & Hn)].
  - rewrite (proj2 (Z.eqb_neq _ _)) by lia. cbn [andb]. apply pending_self. lia.
  - destruct (Z.eqb_spec x (a + 4 * i)) as [->|]; [destruct (Z.eqb_spec m mode) as [->|]; [done|]|]; cbn [andb];
      destruct (pending_eq t mode a i n (a + 4 * i) m) as [(_ & ? & _)|(? & _)]; try done.
    all: destruct (pending_eq t mode a i n x m) as [(_ & ? & j & Hj & ?)|(? & _)]; try done.
    all: destruct Hn as [?|Hn]; [done|]; destruct (decide (j = i)); subst; [lia|]; by destruct (Hn j); [lia|].
Qed.

Lemma pending_asked t mode a n x m : 0 ≤ n →
  (if (x =? a + 4 * n) && (m =? mode)
   then match pending t mode a 0 n (a + 4 * n) mode with None => Some t | u => u end
   else pending t mode a 0 n x m) = pending t mode a 0 (n + 1) x m.
Proof.
  intros Hn0. destruct (pending_eq t mode a 0 n (a + 4 * n) mode) as [(_ & _ & j & Hj & ?)|(-> & _)]; [lia|].
  destruct (pending_eq t mode a 0 (n + 1) x m) as [(-> & -> & j & Hj & ->)|(-> & Hn)].
  - rewrite Z.eqb_refl, andb_true_r. destruct (Z.eqb_spec (a + 4 * j) (a + 4 * n)); [done|]. apply pending_self. lia.
  - destruct (Z.eqb_spec x (a + 4 * n)) as [->|]; [destruct (Z.eqb_spec m mode) as [->|]|]; cbn [andb].
    + destruct Hn as [?|Hn]; [done|]. by destruct (Hn n); [lia|].
    + by destruct (pending_eq t mode a 0 n (a + 4 * n) m) as [(_ & ? & _)|(? & _)].
    + destruct (pending_eq t mode a 0 n x m) as [(_ & -> & j & Hj & ->)|(? & _)]; [|done].
      destruct Hn as [?|Hn]; [done|]. by destruct (Hn j); [lia|].
Qed.

Lemma pending_none t mode a i n x m : n ≤ i → pending t mode a i n x m = None.
Proof. intros. by destruct (pending_eq t mode a i n x m) as [(_ & _ & j & ? & _)|(? & _)]; [lia|]. Qed.

(** *** The phases of a block *)
Section Block.
  Context (bw mb L : Z) (q : DMA_query_t).
  Context (Hbw : 0 < bw) (Hmb : 0 < mb) (HL : 0 ≤ L) (Hlat : ∀ a, lat a ≤ L) (Hmax : L + bw < 2 ^ 32).

(** The words of a block. *)
Definition nw : Z := if q_burst q then bw else 1.
Lemma nw_range : 0 < nw ≤ bw.
Proof using Hbw. unfold nw. destruct (q_burst q); lia. Qed.

(** Block [k] of the region at [base] is at [a]. *)
Definition block_at (base k a : Z) : Prop :=
  a = base + 4 * nw * k ∧ 0 ≤ a ∧ a + 4 * nw ≤ 2 ^ 32.

Definition dmac st nx k i buf ln : t := Mk st nx bw q k i mb buf false ln.

Lemma word_addr_eq st nx k i buf ln base a : block_at base k a → 0 ≤ i < nw →
  word_addr (dmac st nx k i buf ln) base = a + 4 * i.
Proof using Type.
  unfold block_at, nw, word_addr, dmac. cbn. intros (-> & ? & ?) Hi.
  destruct (q_burst q).
  - rewrite u32_small; [lia|]. split; lia.
  - assert (i = 0) as -> by lia. rewrite u32_small; [lia|]. split; lia.
Qed.

Lemma request_words now a mode d n : ∀ j b c μ h r, 0 ≤ j →
  (∀ i, 0 ≤ i < j + Z.of_nat n → is_Some (μ (a + 4 * i))) → 0 ≤ a → a + 4 * (j + Z.of_nat n) ≤ 2 ^ 32 →
  cfg b c (MkView μ (pending now mode a 0 j) h r) →
  ∃ b', for_each (seqZ j (Z.of_nat n)) (λ i, on_bus me (mem_request_word now (u32 (a + 4 * i)) mode me))
      (MkSys B d b) = Some ((), MkSys B d b', []) ∧
    cfg b' c (MkView μ (pending now mode a 0 (j + Z.of_nat n)) h r).
Proof using Hb.
  induction n as [|n IH]; intros j b c μ h r Hj Hw Ha0 Ha1 Hc.
  - exists b. split; [done|]. by rewrite Z.add_0_r.
  - rewrite seqZ_cons by lia. cbn [for_each]. destruct Hc as [Hc Hr].
    destruct (wb_request _ _ _ Hb now (a + 4 * j) mode b _ Hr) as (b1 & E & Hr1 & Hc1); [apply Hw; lia|].
    assert (cfg b1 c (MkView μ (pending now mode a 0 (j + 1)) h r)) as Hcf.
    { eapply cfg_same; [split; [by rewrite Hc1|exact Hr1]|..]; try done. intros x m. cbn.
      by rewrite pending_asked. }
    destruct (IH (j + 1) b1 c μ h r) as (b2 & E2 & Hc2); [lia| |done|lia|done|].
    { intros i Hi. apply Hw. lia. }
    exists b2. split.
    + rewrite u32_small by (split; lia). rewrite (on_bus_bind _ _ _ _ _ _ E).
      replace (Z.pred (Z.of_nat (S n))) with (Z.of_nat n) by lia. exact E2.
    + by replace (j + Z.of_nat (S n)) with (j + 1 + Z.of_nat n) by lia.
Qed.

(** A block is requested as soon as the bus is free. *)
Lemma request_ok now st nx k i buf ln b c μ h r base a mode next : block_at (base q) k a →
  (∀ j, 0 ≤ j < nw → is_Some (μ (a + 4 * j))) → (h = None ∨ h = Some me) →
  cfg b c (MkView μ (λ _ _, None) h r) →
  ∃ b', if u32 r =? now
    then request_block now me base mode next (MkSys B (dmac st nx k i buf ln) b) =
           Some ((), MkSys B (dmac st nx k i buf ln) b', []) ∧
         cfg b' c (MkView μ (λ _ _, None) h r)
    else request_block now me base mode next (MkSys B (dmac st nx k i buf ln) b) =
           Some ((), MkSys B (dmac st next k 0 buf ln) b', []) ∧
         cfg b' c (MkView μ (pending now mode a 0 nw) (Some me) r).
Proof using Hb Hbw.
  intros Ha Hw Hh [Hc Hr]. destruct (wb_acquire _ _ _ Hb now b _ Hr Hh) as (b1 & E & Hr1 & Hc1).
  cbn [v_released] in E, Hr1. unfold request_block. rewrite (on_bus_bind _ _ _ _ _ _ E).
  destruct (Z.eqb_spec (u32 r) now) as [|Hne]; cbn [negb when].
  { exists b1. split; [done|]. split; [by rewrite Hc1|done]. }
  pose proof nw_range. destruct Ha as (Ea & Ha0 & Ha1).
  destruct (request_words now a mode (dmac st nx k i buf ln) (Z.to_nat nw) 0 b1 c μ (Some me) r)
    as (b2 & E2 & Hc2); [lia| |done|lia| |].
  { intros j Hj. apply Hw. lia. }
  { eapply cfg_same; [split; [by rewrite Hc1|exact Hr1]|..]; try done. intros x m.
    cbn. by rewrite pending_none by lia. }
  exists b2. replace (0 + Z.of_nat (Z.to_nat nw)) with nw in Hc2 by lia. split; [|done].
  unfold get at 1. rewrite gets_bind. cbn [self dmac query].
  rewrite (bind_eq _ _ _ () (MkSys B (dmac st nx k i buf ln) b2)); [reflexivity|].
  unfold request. rewrite gets_bind. cbn [self dmac query block_words counter].
  unfold nw in Ea, E2, Ha1. destruct (q_burst q).
  - unfold for_range. replace (u32 (base q + bw * k * 4)) with a; [exact E2|].
    rewrite u32_small; [lia|]. split; lia.
  - replace (base q + 4 * k) with (a + 4 * 0) by lia.
    change (seqZ 0 (Z.of_nat (Z.to_nat 1))) with [0] in E2. cbn [for_each] in E2.
    unfold bindM, mret, M_ret in E2.
    destruct (on_bus me _ _) as [[[[] s1] e1]|]; [|done]. rewrite app_nil_r in E2. done.
Qed.

(** *** Reading *)

(** One more word read or written by [block_ends]. *)
Lemma block_ends_eq st nx k i buf ln b : 0 ≤ i < nw →
  block_ends (MkSys B (dmac st nx k i buf ln) b) =
    Some (i + 1 =? nw, MkSys B (dmac st nx k (i + 1) buf ln) b, []).
Proof using Type.
  intros Hi. unfold block_ends, get, set. rewrite gets_bind. cbn [self dmac word_counter].
  rewrite (bind_eq _ _ _ () (MkSys B (dmac st nx k (i + 1) buf ln) b)) by reflexivity.
  rewrite gets_bind. cbn [self dmac block_words query]. unfold nw in *. unfold mret, M_ret.
  destruct (q_burst q); cbn [negb]; [by rewrite orb_false_r|].
  assert (i = 0) as -> by lia. by rewrite orb_true_r.
Qed.

Definition waited (now t : Z) : Prop := L ≤ u32 (now - t).

(** The words of [buf] below [i] are those at [a]. *)
Definition read_up_to (μ : Z → option Z) (a i : Z) (buf : list Z) : Prop :=
  Z.of_nat (length buf) = bw ∧ ∀ j, 0 ≤ j < i → nthz buf j = μ (a + 4 * j).

Lemma reading_ok now k ln c μ r a t : block_at (src q) k a →
  (∀ j, 0 ≤ j < nw → is_Some (μ (a + 4 * j))) → ∀ n i buf b, 0 ≤ i < nw → read_up_to μ a i buf →
  cfg b c (MkView μ (pending t DATALOAD a i nw) (Some me) r) →
  ∃ nx i' buf' b', reading now me n (MkSys B (dmac READING READING k i buf ln) b) =
      Some ((), MkSys B (dmac READING nx k i' buf' ln) b', []) ∧ read_up_to μ a i' buf' ∧
    cfg b' c (MkView μ (pending t DATALOAD a i' nw) (Some me) r) ∧
    (nx = READ_DONE ∧ i' = nw ∨
     nx = READING ∧ i ≤ i' < nw ∧ (waited now t → (0 < n)%nat → i < i')).
Proof using Hb Hbw Hlat.
  intros Ha Hw. pose proof nw_range. induction n as [|n IH]; intros i buf b Hi Hbuf [Hc Hr].
  { exists READING, i, buf, b. split; [done|]. split; [done|]. split; [done|]. right.
    split; [done|]. split; [lia|]. lia. }
  cbn [reading]. rewrite gets_bind. cbn [self]. rewrite (word_addr_eq _ _ _ _ _ _ _ a) by done.
  assert (Hask : pending t DATALOAD a i nw (a + 4 * i) DATALOAD = Some t) by (apply pending_self; lia).
  destruct (wb_ready _ _ _ Hb now (a + 4 * i) DATALOAD b _ t Hr) as (b1 & E1 & Hr1 & Hc1);
    [apply Hw; lia|done|].
  rewrite (on_bus_bind _ _ _ _ _ _ E1). destruct (Z.leb_spec (lat (a + 4 * i)) (u32 (now - t))).
  - destruct (Hw i ltac:(lia)) as [w Ew].
    destruct (wb_fetch _ _ _ Hb now (a + 4 * i) DATALOAD b1 _ t w Hr1) as (b2 & E2 & Hr2 & Hc2); [done..|].
    rewrite (on_bus_bind _ _ _ _ _ _ E2). destruct Hbuf as [Hlen Hbuf].
    assert (Hset : setz buf i w = Some (<[Z.to_nat i := w]> buf)) by (apply setz_Some; lia).
    rewrite (bind_eq _ _ _ () (MkSys B (dmac READING READING k i (<[Z.to_nat i := w]> buf) ln) b2)).
    2:{ unfold zoom, aset. rewrite gets_bind. change (setz _ _ _) with (setz buf i w).
        rewrite Hset. reflexivity. }
    rewrite (bind_eq _ _ _ _ _ (block_ends_eq _ _ _ _ _ _ _ Hi)).
    assert (Hbuf' : read_up_to μ a (i + 1) (<[Z.to_nat i := w]> buf)).
    { split; [by rewrite length_insert|]. intros j Hj. rewrite (nthz_setz _ _ _ _ _ Hset).
      destruct (Z.eqb_spec j i) as [->|]; [done|]. apply Hbuf. lia. }
    assert (Hc' : cfg b2 c (MkView μ (pending t DATALOAD a (i + 1) nw) (Some me) r)).
    { eapply cfg_same; [split; [|exact Hr2]|..]; try done; [congruence|]. intros x m. cbn.
      by rewrite pending_served by lia. }
    destruct (Z.eqb_spec (i + 1) nw) as [Elast|Hnl].
    + exists READ_DONE, (i + 1), (<[Z.to_nat i := w]> buf), b2. split; [reflexivity|]. by auto.
    + destruct (IH (i + 1) _ b2 ltac:(lia) Hbuf' Hc') as (nx & i' & buf' & b' & E & Hb' & Hcf & Hcase).
      exists nx, i', buf', b'. split; [exact E|]. split; [done|]. split; [done|].
      destruct Hcase as [?|(? & ? & _)]; [by left|]. right. split; [done|]. lia.
  - destruct (IH i buf b1 Hi Hbuf) as (nx & i' & buf' & b' & E & Hb' & Hcf & Hcase); [by split; [congruence|]|].
    exists nx, i', buf', b'. split; [exact E|]. split; [done|]. split; [done|].
    destruct Hcase as [?|(? & ? & _)]; [by left|]. right. split; [done|]. split; [done|].
    unfold waited. specialize (Hlat (a + 4 * i)). lia.
Qed.

(** *** Writing *)

Lemma blit_eq f n d m x :
  (∃ j, 0 ≤ j < n ∧ x = d + 4 * j ∧ blit f n d m x = f (4 * j)) ∨
  blit f n d m x = m x ∧ ∀ j, 0 ≤ j < n → x ≠ d + 4 * j.
Proof using Type.
  unfold blit. replace (d <=? x) with (d + 4 * 0 <=? x) by (f_equal; lia).
  destruct (_ && _ && _) eqn:E.
  - left. apply in_block in E as (j & Hj & ->). exists j. split_and!; [lia..|]. f_equal. lia.
  - right. split; [done|]. intros j Hj ->. apply not_true_iff_false in E. apply E, in_block. eauto.
Qed.

Lemma blit_in f n d m j : 0 ≤ j < n → blit f n d m (d + 4 * j) = f (4 * j).
Proof using Type.
  intros Hj. destruct (blit_eq f n d m (d + 4 * j)) as [(j' & ? & ? & ->)|[_ Hn]]; [f_equal; lia|].
  by destruct (Hn j).
Qed.

Lemma blit_next f n d m x : 0 ≤ n →
  (if x =? d + 4 * n then f (4 * n) else blit f n d m x) = blit f (n + 1) d m x.
Proof using Type.
  intros Hn0. destruct (Z.eqb_spec x (d + 4 * n)) as [->|Hne]; [by rewrite blit_in by lia|].
  destruct (blit_eq f n d m x) as [(j & ? & -> & ->)|[-> Hn]]; [by rewrite blit_in by lia|].
  destruct (blit_eq f (n + 1) d m x) as [(j & ? & -> & _)|[-> _]]; [|done].
  destruct (decide (j = n)); subst; [done|]. by destruct (Hn j); [lia|].
Qed.

Lemma blit_is_Some f n d m x : is_Some (m x) → (∀ j, 0 ≤ j < n → is_Some (f (4 * j))) →
  is_Some (blit f n d m x).
Proof using Type.
  intros Hm Hf. destruct (blit_eq f n d m x) as [(j & ? & _ & ->)|[-> _]]; auto.
Qed.

(** The data of a block, word by word. *)
Definition block_data (buf : list Z) (dat : Z → Z) : Prop :=
  ∀ j, 0 ≤ j < nw → is_u32 (dat j) ∧
    if q_zero_write q then dat j = 0 else nthz buf j = Some (dat j).
Definition word_of (dat : Z → Z) (o : Z) : option Z := Some (dat (o / 4)).
Lemma word_of_at dat j : word_of dat (4 * j) = Some (dat j).
Proof using Type. unfold word_of. do 2 f_equal. by rewrite Z.mul_comm, Z.div_mul. Qed.

Lemma writing_ok now k buf dat ln c μ r a t : block_at (dst q) k a → block_data buf dat →
  (∀ j, 0 ≤ j < nw → is_Some (μ (a + 4 * j))) → ∀ n i b, 0 ≤ i < nw →
  cfg b c (MkView (blit (word_of dat) i a μ) (pending t DATASTORE a i nw) (Some me) r) →
  ∃ nx i' b', writing now me n (MkSys B (dmac WRITING WRITING k i buf ln) b) =
      Some ((), MkSys B (dmac WRITING nx k i' buf ln) b', []) ∧
    cfg b' c (MkView (blit (word_of dat) i' a μ) (pending t DATASTORE a i' nw) (Some me) r) ∧
    (nx = WRITE_DONE ∧ i' = nw ∨
     nx = WRITING ∧ i ≤ i' < nw ∧ (waited now t → (0 < n)%nat → i < i')).
Proof using Hb Hbw Hlat.
  intros Ha Hd Hw. pose proof nw_range. induction n as [|n IH]; intros i b Hi [Hc Hr].
  { exists WRITING, i, b. split; [done|]. split; [done|]. right. split; [done|]. lia. }
  cbn [writing]. rewrite gets_bind. cbn [self].
  destruct (Hd i Hi) as [Hu Hdat].
  rewrite (bind_eq _ _ _ (dat i) (MkSys B (dmac WRITING WRITING k i buf ln) b)).
  2:{ cbn [dmac query word_counter]. destruct (q_zero_write q); [by rewrite Hdat|].
      unfold zoom, aget. rewrite gets_bind. change (nthz _ _) with (nthz buf i).
      by rewrite Hdat. }
  rewrite (word_addr_eq _ _ _ _ _ _ _ a) by done.
  assert (Hask : pending t DATASTORE a i nw (a + 4 * i) DATASTORE = Some t) by (apply pending_self; lia).
  assert (Hin : is_Some (blit (word_of dat) i a μ (a + 4 * i))).
  { apply blit_is_Some; [apply Hw; lia|]. intros j _. by eexists. }
  destruct (wb_ready _ _ _ Hb now (a + 4 * i) DATASTORE b _ t Hr) as (b1 & E1 & Hr1 & Hc1); [done..|].
  rewrite (on_bus_bind _ _ _ _ _ _ E1). destruct (Z.leb_spec (lat (a + 4 * i)) (u32 (now - t))).
  - destruct (wb_store _ _ _ Hb now (a + 4 * i) (dat i) b1 _ t Hr1) as (b2 & E2 & Hr2 & Hc2); [done..|].
    rewrite (on_bus_bind _ _ _ _ _ _ E2).
    rewrite (bind_eq _ _ _ _ _ (block_ends_eq _ _ _ _ _ _ _ Hi)).
    assert (Hc' : cfg b2 c (MkView (blit (word_of dat) (i + 1) a μ)
      (pending t DATASTORE a (i + 1) nw) (Some me) r)).
    { eapply cfg_same; [split; [|exact Hr2]|..]; try done; [congruence|..].
      - intros x. cbn. rewrite <- blit_next by lia. by rewrite word_of_at.
      - intros x m. cbn. by rewrite pending_served by lia. }
    destruct (Z.eqb_spec (i + 1) nw) as [Elast|Hnl].
    + exists WRITE_DONE, (i + 1), b2. split; [reflexivity|]. by auto.
    + destruct (IH (i + 1) b2 ltac:(lia) Hc') as (nx & i' & b' & E & Hcf & Hcase).
      exists nx, i', b'. split; [exact E|]. split; [done|].
      destruct Hcase as [?|(? & ? & _)]; [by left|]. right. split; [done|]. lia.
  - destruct (IH i b1 Hi) as (nx & i' & b' & E & Hcf & Hcase); [by split; [congruence|]|].
    exists nx, i', b'. split; [exact E|]. split; [done|].
    destruct Hcase as [?|(? & ? & _)]; [by left|]. right. split; [done|]. split; [done|].
    unfold waited. specialize (Hlat (a + 4 * i)). lia.
Qed.

(** *** The phases, cycle by cycle *)

Context (lc : Z).      (* the lines the controller is connected to *)

Definition at_ (s : sys B) (st : stat) (k i : Z) (buf : list Z) (c : DMACConfig.t) (v : view) : Prop :=
  ∃ nx ln b, s = MkSys B (dmac st nx k i buf ln) b ∧ DeviceInt.lines_connected ln = lc ∧ cfg b c v.

Lemma step_at now s st k i buf c v (P : stat → Z → Z → list Z → DMACConfig.t → view → Prop) :
  at_ s st k i buf c v → enabled c = true →
  (∀ ln b, cfg b c v → ∃ st' k' i' buf' b1 c1 v1,
     work now me st (MkSys B (dmac st st k i buf ln) b) =
       Some ((), MkSys B (dmac st st' k' i' buf' ln) b1, []) ∧
     cfg b1 c1 v1 ∧ P st' k' i' buf' c1 v1) →
  ∃ s' st' k' i' buf' c1 v1 ln, step now me s = Some ((), s', []) ∧ at_ s' st' k' i' buf' c1 v1 ∧
    lines (self s') = irq_lines c1 ln ∧ DeviceInt.lines_connected ln = lc ∧ P st' k' i' buf' c1 v1.
Proof using Hb.
  intros (nx & ln & b & -> & Hlc & Hc) He Hw.
  destruct (step_work now (dmac st nx k i buf ln) b c v
    (λ d' c1 v1, ∃ st' k' i' buf', d' = dmac st st' k' i' buf' ln ∧ P st' k' i' buf' c1 v1))
    as (d' & b2 & c1 & v1 & E & Hc1 & (st' & k' & i' & buf' & -> & HP)); [done..| |].
  - intros b0 Hb0. destruct (Hw ln b0 Hb0) as (st' & k' & i' & buf' & b1 & c1 & v1 & E & Hc1 & HP).
    exists (dmac st st' k' i' buf' ln), b1, c1, v1. split; [exact E|]. split; [done|]. split; [done|]. eauto 10.
  - eexists _, st', k', i', buf', c1, v1, ln. split; [exact E|]. split; [|done].
    exists st', (irq_lines c1 ln), b2. split; [reflexivity|]. split; [|done].
    unfold irq_lines. by destruct (nz _).
Qed.

Lemma next_cycle now : is_u32 now → u32 (now + 1) ≠ now.
Proof using Type.
  intros [H1 H2] E. unfold u32, wrap in E. destruct (decide (now + 1 = 2 ^ 32)) as [Heq|].
  - rewrite Heq, Z.mod_same in E by lia. lia.
  - rewrite Z.mod_small in E; lia.
Qed.

Lemma s32_u32 z : u32 (s32 z) = u32 z.
Proof using Type. unfold u32, s32. by apply wrap_swrap. Qed.

Lemma request_cycles now s st next base mode k i buf c μ h r a : is_u32 now →
  (∀ now s', work (B := B) now me st s' = request_block now me base mode next s') →
  block_at (base q) k a → (∀ j, 0 ≤ j < nw → is_Some (μ (a + 4 * j))) → (h = None ∨ h = Some me) →
  enabled c = true → at_ s st k i buf c (MkView μ (λ _ _, None) h r) →
  reaches now s (λ now' s', ∃ t, now' = u32 (t + 1) ∧
    at_ s' next k 0 buf c (MkView μ (pending t mode a 0 nw) (Some me) r)).
Proof using Hb Hbw.
  intros Hn Hwork Ha Hw Hh He. revert now s i Hn.
  assert (Hgo : ∀ now s i, u32 r ≠ now → at_ s st k i buf c (MkView μ (λ _ _, None) h r) →
    reaches now s (λ now' s', ∃ t, now' = u32 (t + 1) ∧
      at_ s' next k 0 buf c (MkView μ (pending t mode a 0 nw) (Some me) r))).
  { intros now s i Hr Hs.
    destruct (step_at now s st k i buf c _ (λ st' k' i' buf' c1 v1, st' = next ∧ k' = k ∧ i' = 0 ∧
      buf' = buf ∧ c1 = c ∧ v1 = MkView μ (pending now mode a 0 nw) (Some me) r) Hs He)
      as (s' & st' & k' & i' & buf' & c1 & v1 & ln & E & Hs' & _ & _ & -> & -> & -> & -> & -> & ->).
    - intros ln b Hc. destruct (request_ok now st st k i buf ln b c μ h r base a mode next) as (b' & Hreq); [done..|].
      destruct (Z.eqb_spec (u32 r) now); [done|]. destruct Hreq as [E Hc'].
      exists next, k, 0, buf, b', c, (MkView μ (pending now mode a 0 nw) (Some me) r).
      rewrite Hwork. by split_and!.
    - eapply dma_step; [exact E|]. apply dma_here. by exists now. }
  intros now s i Hn Hs. destruct (decide (u32 r = now)) as [Hr|Hr]; [|by eapply Hgo].
  destruct (step_at now s st k i buf c _ (λ st' k' i' buf' c1 v1, st' = st ∧ k' = k ∧ i' = i ∧
    buf' = buf ∧ c1 = c ∧ v1 = MkView μ (λ _ _, None) h r) Hs He)
    as (s' & st' & k' & i' & buf' & c1 & v1 & ln & E & Hs' & _ & _ & -> & -> & -> & -> & -> & ->).
  - intros ln b Hc. destruct (request_ok now st st k i buf ln b c μ h r base a mode next) as (b' & Hreq); [done..|].
    rewrite Hr, Z.eqb_refl in Hreq. destruct Hreq as [E Hc'].
    exists st, k, i, buf, b', c, (MkView μ (λ _ _, None) h r). rewrite Hwork. by split_and!.
  - eapply dma_step; [exact E|]. eapply Hgo; [|exact Hs']. rewrite Hr. intros E'. by apply (next_cycle now).
Qed.

(** The words arrive within [L] cycles of the request, then at least one in a cycle. *)
Lemma elapsed t e : 0 ≤ e < 2 ^ 32 → u32 (u32 (t + e) - t) = e.
Proof using Type. intros. rewrite u32_sub_l. replace (t + e - t) with e by lia. by apply u32_small. Qed.

Lemma next_elapsed t e : u32 (u32 (t + e) + 1) = u32 (t + (e + 1)).
Proof using Type. rewrite u32_add_l. f_equal. lia. Qed.

Lemma read_cycles k c μ r a t : block_at (src q) k a →
  (∀ j, 0 ≤ j < nw → is_Some (μ (a + 4 * j))) → enabled c = true → ∀ m e i buf s,
  Z.of_nat m = L + bw - e → 1 ≤ e ≤ L + i + 1 → 0 ≤ i < nw → read_up_to μ a i buf →
  at_ s READING k i buf c (MkView μ (pending t DATALOAD a i nw) (Some me) r) →
  reaches (u32 (t + e)) s (λ now' s', is_u32 now' ∧ ∃ buf', read_up_to μ a nw buf' ∧
    at_ s' READ_DONE k nw buf' c (MkView μ (λ _ _, None) (Some me) r)).
Proof using Hb Hbw Hmb HL Hlat Hmax.
  intros Ha Hw He. pose proof nw_range. induction m as [|m IH]; intros e i buf s Hm Hei Hi Hbuf Hs.
  all: destruct (step_at (u32 (t + e)) s READING k i buf c _ (λ st' k' i' buf' c1 v1, k' = k ∧ c1 = c ∧
    v1 = MkView μ (pending t DATALOAD a i' nw) (Some me) r ∧ read_up_to μ a i' buf' ∧
    (st' = READ_DONE ∧ i' = nw ∨ st' = READING ∧ i ≤ i' < nw ∧ (L ≤ e → i < i'))) Hs He)
    as (s' & st' & k' & i' & buf' & c1 & v1 & ln & E & Hs' & _ & _ & -> & -> & -> & Hbuf' & Hcase).
  1,3: intros ln b Hc; destruct (reading_ok (u32 (t + e)) k ln c μ r a t Ha Hw (Z.to_nat mb) i buf b Hi Hbuf Hc)
      as (nx & i' & buf' & b' & E & Hbuf' & Hc' & Hcase);
    exists nx, k, i', buf', b', c, (MkView μ (pending t DATALOAD a i' nw) (Some me) r);
    (split; [unfold work; rewrite gets_bind; exact E|]); (split; [done|]); (split_and!; try done);
    (destruct Hcase as [?|(? & ? & Hp)]; [by left|]); right; (split; [done|]); (split; [done|]);
    intros; apply Hp; [unfold waited; rewrite elapsed; lia|lia].
  all: eapply dma_step; [exact E|]; destruct Hcase as [[-> ->]|(-> & Hi' & Hp)].
  1,3: apply dma_here; split; [by apply (wrap_range 32)|]; exists buf'; split; [done|];
    destruct Hs' as (nx & ln' & b & -> & Hl & Hc); exists nx, ln', b; split; [done|]; split; [done|];
    eapply cfg_same; [exact Hc|..]; try done; intros x y; cbn; by rewrite pending_none by lia.
  - destruct (decide (L ≤ e)); [|lia]. specialize (Hp ltac:(done)). lia.
  - rewrite next_elapsed. apply (IH (e + 1) i' buf'); [lia| |lia|done|done].
    destruct (decide (L ≤ e)); [|lia]. specialize (Hp ltac:(done)). lia.
Qed.

Lemma write_cycles k c μ r a t buf dat : block_at (dst q) k a → block_data buf dat →
  (∀ j, 0 ≤ j < nw → is_Some (μ (a + 4 * j))) → enabled c = true → ∀ m e i s,
  Z.of_nat m = L + bw - e → 1 ≤ e ≤ L + i + 1 → 0 ≤ i < nw →
  at_ s WRITING k i buf c
    (MkView (blit (word_of dat) i a μ) (pending t DATASTORE a i nw) (Some me) r) →
  reaches (u32 (t + e)) s (λ now' s', is_u32 now' ∧
    at_ s' WRITE_DONE k nw buf c (MkView (blit (word_of dat) nw a μ) (λ _ _, None) (Some me) r)).
Proof using Hb Hbw Hmb HL Hlat Hmax.
  intros Ha Hd Hw He. pose proof nw_range. induction m as [|m IH]; intros e i s Hm Hei Hi Hs.
  all: destruct (step_at (u32 (t + e)) s WRITING k i buf c _ (λ st' k' i' buf' c1 v1, k' = k ∧ buf' = buf ∧ c1 = c ∧
    v1 = MkView (blit (word_of dat) i' a μ) (pending t DATASTORE a i' nw) (Some me) r ∧
    (st' = WRITE_DONE ∧ i' = nw ∨ st' = WRITING ∧ i ≤ i' < nw ∧ (L ≤ e → i < i'))) Hs He)
    as (s' & st' & k' & i' & buf' & c1 & v1 & ln & E & Hs' & _ & _ & -> & -> & -> & -> & Hcase).
  1,3: intros ln b Hc; destruct (writing_ok (u32 (t + e)) k buf dat ln c μ r a t Ha Hd Hw (Z.to_nat mb) i b Hi Hc)
      as (nx & i' & b' & E & Hc' & Hcase);
    exists nx, k, i', buf, b', c,
      (MkView (blit (word_of dat) i' a μ) (pending t DATASTORE a i' nw) (Some me) r);
    (split; [unfold work; rewrite gets_bind; exact E|]); (split; [done|]); (split_and!; try done);
    (destruct Hcase as [?|(? & ? & Hp)]; [by left|]); right; (split; [done|]); (split; [done|]);
    intros; apply Hp; [unfold waited; rewrite elapsed; lia|lia].
  all: eapply dma_step; [exact E|]; destruct Hcase as [[-> ->]|(-> & Hi' & Hp)].
  1,3: apply dma_here; split; [by apply (wrap_range 32)|];
    destruct Hs' as (nx & ln' & b & -> & Hl & Hc); exists nx, ln', b; split; [done|]; split; [done|];
    eapply cfg_same; [exact Hc|..]; try done; intros x y; cbn; by rewrite pending_none by lia.
  - destruct (decide (L ≤ e)); [|lia]. specialize (Hp ltac:(done)). lia.
  - rewrite next_elapsed. apply (IH (e + 1) i'); [lia| |lia|done].
    destruct (decide (L ≤ e)); [|lia]. specialize (Hp ltac:(done)). lia.
Qed.

(** The single cycles between the phases. *)
Lemma set_eq {T} (p : t → T) {P : Setter p} v d b :
  set p v (MkSys B d b) = Some ((), MkSys B (P (λ _, v) d) b, []).
Proof using Type. done. Qed.

Definition aligned (a : Z) : Prop := a mod (4 * nw) = 0.

Lemma address_valid_eq st nx k i buf ln b a : bw < 2 ^ 30 →
  address_valid a (MkSys B (dmac st nx k i buf ln) b) =
    Some (a mod (4 * nw) =? 0, MkSys B (dmac st nx k i buf ln) b, []).
Proof using Hbw.
  intros Hbw'. unfold address_valid. rewrite gets_bind. cbn [self dmac query block_words]. unfold nw.
  destruct (q_burst q); [|done]. rewrite u32_small by lia.
  rewrite (proj2 (Z.eqb_neq _ 0)) by lia. by rewrite Z.mul_comm.
Qed.

Lemma read_done_cycle now s k i buf c μ r : aligned (dst q) → bw < 2 ^ 30 → enabled c = true →
  at_ s READ_DONE k i buf c (MkView μ (λ _ _, None) (Some me) r) →
  ∃ s', step now me s = Some ((), s', []) ∧
    at_ s' WRITE_REQ k i buf (c <| end_stat := false |>) (MkView μ (λ _ _, None) None (s32 now)).
Proof using Hb Hbw.
  intros Ha Hbw' He Hs.
  destruct (step_at now s READ_DONE k i buf c _ (λ st' k' i' buf' c1 v1, st' = WRITE_REQ ∧ k' = k ∧ i' = i ∧
    buf' = buf ∧ c1 = c <| end_stat := false |> ∧ v1 = MkView μ (λ _ _, None) None (s32 now)) Hs He)
    as (s' & st' & k' & i' & buf' & c1 & v1 & ln & E & Hs' & _ & _ & -> & -> & -> & -> & -> & ->); [|eauto].
  intros ln b [Hc Hr]. destruct (wb_release _ _ _ Hb now b _ Hr) as (b1 & E & Hr1 & Hc1).
  rewrite bool_decide_eq_true_2 in Hr1 by done.
  assert (Hc' : cfg b1 c (released now (MkView μ (λ _ _, None) (Some me) r))) by (split; [congruence|done]).
  destruct (on_config_eq (end_stat <~ false) (dmac READ_DONE READ_DONE k i buf ln) b1 c _ () _ Hc' eq_refl) as [E2 Hc2].
  eexists WRITE_REQ, k, i, buf, _, _, _. split; [|split; [exact Hc2|done]].
  unfold work. rewrite gets_bind. unfold read_done. rewrite (on_bus_bind _ _ _ _ _ _ E).
  unfold get at 1. rewrite gets_bind. cbn [self dmac query]. rewrite (bind_eq _ _ _ _ _ (address_valid_eq _ _ _ _ _ _ _ _ Hbw')).
  unfold aligned in Ha. rewrite Ha. cbn [Z.eqb]. rewrite (bind_eq _ _ _ _ _ E2). reflexivity.
Qed.

Lemma write_done_cycle now s k i buf c v : 0 ≤ k < 2 ^ 31 - 1 → enabled c = true → abort c = false →
  at_ s WRITE_DONE k i buf c v →
  ∃ s', step now me s = Some ((), s', []) ∧
    at_ s' (if k + 1 =? len q then EXIT else if q_zero_write q then WRITE_REQ else READ_REQ)
      (k + 1) i buf (c <| end_stat := true |>) v.
Proof using Hb Hbw.
  intros Hk He Hab Hs. set (nxt := if k + 1 =? len q then EXIT else if q_zero_write q then WRITE_REQ else READ_REQ).
  destruct (step_at now s WRITE_DONE k i buf c _ (λ st' k' i' buf' c1 v1, st' = nxt ∧ k' = k + 1 ∧ i' = i ∧
    buf' = buf ∧ c1 = c <| end_stat := true |> ∧ v1 = v) Hs He)
    as (s' & st' & k' & i' & buf' & c1 & v1 & ln & E & Hs' & _ & _ & -> & -> & -> & -> & -> & ->); [|eauto].
  intros ln b Hc. pose proof (set_cfg b c v c Hc) as Hc1.
  destruct (on_config_eq (end_stat <~ true) (dmac WRITE_DONE nxt (k + 1) i buf ln) _ c _ () _ Hc1 eq_refl) as [E2 Hc2].
  eexists nxt, (k + 1), i, buf, _, _, _. split; [|split; [exact Hc2|done]].
  unfold work. rewrite gets_bind. unfold write_done, get. rewrite gets_bind. cbn [self dmac counter].
  rewrite s32_small by lia. rewrite (bind_eq _ _ _ () (MkSys B (dmac WRITE_DONE WRITE_DONE (k + 1) i buf ln) b)) by reflexivity.
  rewrite gets_bind. rewrite (on_config_bind _ _ _ _ c v c c Hc eq_refl). cbn [self dmac query].
  assert (En : (if u32 (k + 1) =? len q then EXIT else if abort c then EXIT
    else if q_zero_write q then WRITE_REQ else READ_REQ) = nxt) by (by rewrite Hab, u32_small by lia).
  rewrite En.
  rewrite (bind_eq _ _ _ () (MkSys B (dmac WRITE_DONE nxt (k + 1) i buf ln) (set_config c b))) by reflexivity.
  exact E2.
Qed.

(** *** A whole block *)

Lemma at_same s st k i buf c v v' : at_ s st k i buf c v → (∀ x, v_word v' x = v_word v x) →
  (∀ x m, v_asked v' x m = v_asked v x m) → v_holder v' = v_holder v →
  v_released v' = v_released v → at_ s st k i buf c v'.
Proof using Hb. intros (nx & ln & b & -> & Hl & Hc) ????. exists nx, ln, b. eauto using cfg_same. Qed.

Definition mapped (μ : Z → option Z) (base k : Z) : Prop :=
  block_at base k (base + 4 * nw * k) ∧ ∀ j, 0 ≤ j < nw → is_Some (μ (base + 4 * nw * k + 4 * j)).

(** Where the controller goes on with block [k]. *)
Definition block_start : stat := if q_zero_write q then WRITE_REQ else READ_REQ.
Definition block_of (k : Z) (μ : Z → option Z) : Z → option Z :=
  if q_zero_write q then zeroed nw (dst q + 4 * nw * k) μ
  else copied nw (src q + 4 * nw * k) (dst q + 4 * nw * k) μ.

(** The block in the buffer is written. *)
Lemma write_block now s k i buf c μ h r dat : is_u32 now → mapped μ (dst q) k → block_data buf dat →
  0 ≤ k < 2 ^ 31 - 1 → enabled c = true → abort c = false → (h = None ∨ h = Some me) →
  at_ s WRITE_REQ k i buf c (MkView μ (λ _ _, None) h r) →
  reaches now s (λ now' s', is_u32 now' ∧
    at_ s' (if k + 1 =? len q then EXIT else block_start) (k + 1) nw buf (c <| end_stat := true |>)
      (MkView (blit (word_of dat) nw (dst q + 4 * nw * k) μ) (λ _ _, None) (Some me) r)).
Proof using Hb Hbw Hmb HL Hlat Hmax.
  intros Hn [Ha Hw] Hd Hk He Hab Hh Hs. pose proof nw_range.
  eapply dma_trans.
  { eapply (request_cycles now s WRITE_REQ WRITING dst DATASTORE); try done.
    intros now' s'. unfold work. by rewrite gets_bind. }
  intros now1 s1 (t & -> & Hs1).
  eapply dma_trans.
  { eapply (write_cycles k c μ r (dst q + 4 * nw * k) t buf dat Ha Hd Hw He (Z.to_nat (L + bw - 1)) 1 0 s1);
      [lia..|]. eapply at_same; [exact Hs1|..]; try done. intros x. cbn.
    by destruct (blit_eq (word_of dat) 0 (dst q + 4 * nw * k) μ x) as [(j & ? & _)|[-> _]]; [lia|]. }
  intros now2 s2 [Hn2 Hs2].
  destruct (write_done_cycle now2 s2 k nw buf c _ Hk He Hab Hs2) as (s3 & E & Hs3).
  eapply dma_step; [exact E|]. apply dma_here. split; [by apply (wrap_range 32)|done].
Qed.

Lemma block_cycles now s k i buf c μ h r : is_u32 now → aligned (dst q) → bw < 2 ^ 30 →
  (q_zero_write q = false → mapped μ (src q) k) → mapped μ (dst q) k → 0 ≤ k < 2 ^ 31 - 1 →
  Z.of_nat (length buf) = bw → enabled c = true → abort c = false → (h = None ∨ h = Some me) →
  at_ s block_start k i buf c (MkView μ (λ _ _, None) h r) →
  reaches now s (λ now' s', is_u32 now' ∧ ∃ buf' r', Z.of_nat (length buf') = bw ∧
    at_ s' (if k + 1 =? len q then EXIT else block_start) (k + 1) nw buf' (c <| end_stat := true |>)
      (MkView (block_of k μ) (λ _ _, None) (Some me) r')).
Proof using Hb Hbw Hmb HL Hlat Hmax.
  intros Hn Hal Hbw' Hsrc Hdst Hk Hlen He Hab Hh Hs. pose proof nw_range.
  unfold block_start in Hs. unfold block_of. destruct (q_zero_write q) eqn:Ez.
  - eapply dma_trans.
    { eapply (write_block now s k i buf c μ h r (λ _, 0)); try done. intros j Hj. by rewrite Ez. }
    intros now1 s1 [Hn1 Hs1]. apply dma_here. split; [done|]. exists buf, r. done.
  - destruct (Hsrc eq_refl) as [Ha Hw]. assert (Hu : ∀ a w, μ a = Some w → is_u32 w).
    { destruct Hs as (nx & ln & b & _ & _ & _ & Hr). intros a w. by apply (wb_words _ _ _ Hb _ _ _ _ Hr). }
    eapply dma_trans.
    { eapply (request_cycles now s READ_REQ READING src DATALOAD); try done.
      intros now' s'. unfold work. by rewrite gets_bind. }
    intros now1 s1 (t & -> & Hs1).
    eapply dma_trans.
    { eapply (read_cycles k c μ r (src q + 4 * nw * k) t Ha Hw He (Z.to_nat (L + bw - 1)) 1 0 buf s1);
        [lia..| |exact Hs1]. split; [done|]. lia. }
    intros now2 s2 (Hn2 & buf2 & [Hlen2 Hbuf2] & Hs2).
    destruct (read_done_cycle now2 s2 k nw buf2 c μ r Hal Hbw' He Hs2) as (s3 & E3 & Hs3).
    eapply dma_step; [exact E3|].
    set (dat j := default 0 (nthz buf2 j)).
    assert (Hdat : ∀ j, 0 ≤ j < nw → nthz buf2 j = Some (dat j) ∧ μ (src q + 4 * nw * k + 4 * j) = Some (dat j)).
    { intros j Hj. unfold dat. rewrite (Hbuf2 j Hj). destruct (Hw j Hj) as [w ->]. done. }
    eapply dma_trans.
    { eapply (write_block (u32 (now2 + 1)) s3 k nw buf2 (c <| end_stat := false |>) μ None (s32 now2) dat);
        [by apply (wrap_range 32)|done| |done..|by left|exact Hs3].
      intros j Hj. rewrite Ez. destruct (Hdat j Hj). split; [by eapply Hu|done]. }
    intros now4 s4 [Hn4 Hs4]. apply dma_here. split; [done|]. exists buf2, (s32 now2). split; [done|].
    eapply at_same; [exact Hs4|..]; try done. intros x. cbn. unfold copied.
    destruct (blit_eq (word_of dat) nw (dst q + 4 * nw * k) μ x) as [(j & Hj & -> & ->)|[-> Hx]].
    + rewrite blit_in by done. rewrite word_of_at. by apply Hdat.
    + destruct (blit_eq (λ o, μ (src q + 4 * nw * k + o)) nw (dst q + 4 * nw * k) μ x)
        as [(j & Hj & -> & _)|[-> _]]; [by destruct (Hx j)|done].
Qed.

(** *** All blocks *)

Lemma mapped_block μ base k k' : mapped μ base k' → (q_zero_write q = false → mapped μ (src q) k) →
  mapped (block_of k μ) base k'.
Proof using Type.
  intros [Ha Hw] Hs. split; [done|]. intros j Hj. unfold block_of, zeroed, copied.
  destruct (q_zero_write q); apply blit_is_Some;
    [auto|intros i Hi; by eexists|auto|intros i Hi; by apply Hs].
Qed.

Lemma blocks_cycles n : ∀ now s k i buf c μ h r, is_u32 now → aligned (dst q) → bw < 2 ^ 30 →
  0 ≤ k → (0 < n)%nat → k + Z.of_nat n = len q → len q < 2 ^ 31 →
  (∀ k', k ≤ k' < len q → (q_zero_write q = false → mapped μ (src q) k') ∧ mapped μ (dst q) k') →
  Z.of_nat (length buf) = bw → enabled c = true → abort c = false → (h = None ∨ h = Some me) →
  at_ s block_start k i buf c (MkView μ (λ _ _, None) h r) →
  reaches now s (λ now' s', is_u32 now' ∧ ∃ i' buf' r',
    at_ s' EXIT (len q) i' buf' (c <| end_stat := true |>)
      (MkView (transferred (q_zero_write q) nw (src q) (dst q) n k μ) (λ _ _, None) (Some me) r')).
Proof using Hb Hbw Hmb HL Hlat Hmax.
  induction n as [|n IH]; intros now s k i buf c μ h r Hn Hal Hbw' Hk Hpos Hlen Hmaxk Hmap Hbuf He Hab Hh Hs; [lia|].
  destruct (Hmap k ltac:(lia)) as [Hsrc Hdst].
  eapply dma_trans; [by eapply (block_cycles now s k i buf c μ h r); try done; lia|].
  intros now1 s1 (Hn1 & buf1 & r1 & Hbuf1 & Hs1). cbn [transferred].
  change (if q_zero_write q then zeroed nw (dst q + 4 * nw * k) μ
          else copied nw (src q + 4 * nw * k) (dst q + 4 * nw * k) μ) with (block_of k μ).
  destruct (Z.eqb_spec (k + 1) (len q)) as [El|Hne].
  - assert (n = 0%nat) as -> by lia. apply dma_here. split; [done|]. rewrite <- El. eauto.
  - eapply dma_trans.
    { eapply (IH now1 s1 (k + 1) nw buf1 (c <| end_stat := true |>) (block_of k μ) (Some me) r1); try done; try lia; [|by right].
      intros k' Hk'. destruct (Hmap k' ltac:(lia)) as [Hs' Hd']. split; [intros Ez|]; apply mapped_block; auto. }
    intros now2 s2 (Hn2 & i2 & buf2 & r2 & Hs2). apply dma_here. eauto 10.
Qed.

Lemma exit_cycle now s k i buf c μ r : enabled c = true →
  at_ s EXIT k i buf c (MkView μ (λ _ _, None) (Some me) r) →
  ∃ s' ln, step now me s = Some ((), s', []) ∧
    lines (self s') = irq_lines (c <| done := true |>) ln ∧ DeviceInt.lines_connected ln = lc ∧
    at_ s' IDLE k i buf (c <| done := true |> <| busy := false |> <| success_len := u32 k |>)
      (MkView μ (λ _ _, None) None (s32 now)).
Proof using Hb Hbw.
  intros He Hs. set (c' := c <| done := true |> <| busy := false |> <| success_len := u32 k |>).
  destruct (step_at now s EXIT k i buf c _ (λ st' k' i' buf' c1 v1, st' = IDLE ∧ k' = k ∧ i' = i ∧
    buf' = buf ∧ c1 = c' ∧ v1 = MkView μ (λ _ _, None) None (s32 now)) Hs He)
    as (s' & st' & k' & i' & buf' & c1 & v1 & ln & E & Hs' & Hl & Hlc & -> & -> & -> & -> & -> & ->); [|by exists s', ln].
  intros ln b [Hc Hr]. destruct (wb_release _ _ _ Hb now b _ Hr) as (b1 & E & Hr1 & Hc1).
  rewrite bool_decide_eq_true_2 in Hr1 by done.
  assert (Hc' : cfg b1 c (released now (MkView μ (λ _ _, None) (Some me) r))) by (split; [congruence|done]).
  set (d := dmac EXIT EXIT k i buf ln).
  destruct (on_config_eq (done <~ true) d b1 c _ () _ Hc' eq_refl) as [E2 Hc2].
  destruct (on_config_eq (busy <~ false) d _ _ _ () _ Hc2 eq_refl) as [E3 Hc3].
  destruct (on_config_eq (success_len <~ u32 k) d _ _ _ () _ Hc3 eq_refl) as [E4 Hc4].
  eexists IDLE, k, i, buf, _, _, _. split; [|split; [exact Hc4|done]].
  unfold work. rewrite gets_bind. unfold exit_. rewrite (on_bus_bind _ _ _ _ _ _ E).
  unfold get. rewrite gets_bind. cbn [self counter dmac].
  rewrite (bind_eq _ _ _ _ _ E2), (bind_eq _ _ _ _ _ E3), (bind_eq _ _ _ _ _ E4). reflexivity.
Qed.

Lemma start_cycle now nx q0 k0 i0 buf ln b c v : q = getQuery c → bw < 2 ^ 30 →
  DeviceInt.lines_connected ln = lc → enabled c = true → kicked c = true → aligned (src q) → cfg b c v →
  ∃ s', step now me (MkSys B (Mk IDLE nx bw q0 k0 i0 mb buf false ln) b) = Some ((), s', []) ∧
    at_ s' block_start 0 0 buf (c <| busy := true |> <| kicked := false |>) v.
Proof using Hb Hbw.
  intros Hq Hbw' Hlc He Hk Ha Hc. set (c' := c <| busy := true |> <| kicked := false |>).
  destruct (step_work now (Mk IDLE nx bw q0 k0 i0 mb buf false ln) b c v
    (λ d' c1 v1, d' = dmac IDLE block_start 0 0 buf ln ∧ c1 = c' ∧ v1 = v) Hc He)
    as (d' & b2 & c1 & v1 & E & Hc1 & -> & -> & ->).
  - intros b0 Hb0. set (d := Mk IDLE IDLE bw q0 k0 i0 mb buf false ln).
    pose proof (set_cfg b0 c v c Hb0) as Hb1.
    destruct (on_config_eq (busy <~ true) d _ _ _ () _ Hb1 eq_refl) as [E2 Hc2].
    destruct (on_config_eq (kicked <~ false) d _ _ _ () _ Hc2 eq_refl) as [E3 Hc3].
    eexists (dmac IDLE block_start 0 0 buf ln), _, _, _. split; [|split; [exact Hc3|done]].
    unfold work. rewrite gets_bind. cbn [status]. unfold start.
    change (MkSys B _ b0) with (MkSys B d b0).
    rewrite (on_config_bind _ _ _ _ c v c c Hb0 eq_refl). rewrite Hk at 1. cbn [when].
    rewrite (bind_eq _ _ _ _ _ E2), (bind_eq _ _ _ _ _ E3).
    set (b3 := set_config _ (set_config _ (set_config c b0))).
    rewrite (bind_eq _ _ _ () (MkSys B (Mk IDLE IDLE bw (getQuery c) k0 i0 mb buf false ln) b3)) by reflexivity.
    rewrite (bind_eq _ _ _ () (MkSys B (Mk IDLE IDLE bw (getQuery c) 0 i0 mb buf false ln) b3)) by reflexivity.
    rewrite (bind_eq _ _ _ () (MkSys B (dmac IDLE IDLE 0 0 buf ln) b3)) by (unfold dmac; rewrite Hq; reflexivity).
    rewrite (bind_eq _ _ _ _ _ (address_valid_eq _ _ _ _ _ _ _ _ Hbw')).
    unfold aligned in Ha. rewrite Hq in Ha at 1. change (src (getQuery c)) with (dma_src c) in Ha. rewrite Ha.
    unfold block_start, dmac. rewrite Hq. reflexivity.
  - eexists. split; [exact E|]. exists block_start, (irq_lines c' ln), b2. split; [reflexivity|]. split; [|done].
    unfold irq_lines. by destruct (nz _).
Qed.

End Block.
End Copy.

(** ** The memory after all blocks *)

(** The words of the source are none of those of the destination. *)
Definition disjoint (n s d : Z) : Prop :=
  ∀ i j, 0 ≤ i < n → 0 ≤ j < n → s + 4 * i ≠ d + 4 * j.

Definition source (zero : bool) (s : Z) (m : Z → option Z) (o : Z) : option Z :=
  if zero then Some 0 else m (s + o).

(** Without overlap, copying block by block is copying at once. *)
Lemma transferred_blit zero n s d blocks : 0 < n → ∀ k m x,
  (zero = true ∨ ∀ i j, n * k ≤ i < n * (k + Z.of_nat blocks) →
     n * k ≤ j < n * (k + Z.of_nat blocks) → s + 4 * i ≠ d + 4 * j) →
  transferred zero n s d blocks k m x =
    blit (source zero (s + 4 * n * k) m) (n * Z.of_nat blocks) (d + 4 * n * k) m x.
Proof.
  intros Hn. induction blocks as [|b IH]; intros k m x Hd; cbn [transferred].
  { rewrite Z.mul_0_r. by destruct (blit_eq (source zero (s + 4 * n * k) m) 0 (d + 4 * n * k) m x)
      as [(j & ? & _)|[-> _]]; [lia|]. }
  set (m1 := if zero then zeroed n (d + 4 * n * k) m else copied n (s + 4 * n * k) (d + 4 * n * k) m).
  assert (Hm1 : m1 = blit (source zero (s + 4 * n * k) m) n (d + 4 * n * k) m) by (unfold m1; by destruct zero).
  rewrite IH by (destruct Hd as [?|Hd]; [by left|]; right; intros i j Hi Hj; apply Hd; nia).
  destruct (blit_eq (source zero (s + 4 * n * (k + 1)) m1) (n * Z.of_nat b) (d + 4 * n * (k + 1)) m1 x)
    as [(j & Hj & -> & ->)|[-> Hout]].
  - replace (d + 4 * n * (k + 1) + 4 * j) with (d + 4 * n * k + 4 * (n + j)) by nia.
    rewrite blit_in by nia. unfold source. destruct zero; [done|].
    replace (s + 4 * n * k + 4 * (n + j)) with (s + 4 * n * (k + 1) + 4 * j) by nia.
    rewrite Hm1.
    destruct (blit_eq (source false (s + 4 * n * k) m) n (d + 4 * n * k) m (s + 4 * n * (k + 1) + 4 * j))
      as [(i & Hi & E & _)|[-> _]]; [|done].
    exfalso. destruct Hd as [?|Hd]; [done|]. apply (Hd (n * (k + 1) + j) (n * k + i)); nia.
  - rewrite Hm1. destruct (blit_eq (source zero (s + 4 * n * k) m) n (d + 4 * n * k) m x)
      as [(j & Hj & -> & ->)|[-> Hx]]; [by rewrite blit_in by nia|].
    destruct (blit_eq (source zero (s + 4 * n * k) m) (n * Z.of_nat (S b)) (d + 4 * n * k) m x)
      as [(j & Hj & -> & _)|[-> _]]; [|done].
    destruct (decide (j < n)); [by destruct (Hx j); [lia|]|].
    exfalso. apply (Hout (j - n)); nia.
Qed.

(** The registers after a transfer. *)
Definition finished (c : DMACConfig.t) : DMACConfig.t :=
  c <| kicked := false |> <| busy := false |> <| done := true |> <| end_stat := true |>
    <| success_len := dma_len c |>.

(** A transfer: an idle controller that is enabled, kicked and programmed with
    aligned regions of mapped words becomes idle again after finitely many
    cycles, whatever the latencies, the width of the bus and the length of the
    transfer: the blocks were copied (or cleared) in order; if the regions do not
    overlap this is the copy of the whole source; the bus is free, nothing is
    left requested, the registers report the end and the number of blocks, and
    the interrupt line follows the interrupt enable. *)
Lemma transfer_runs {B} `{MemPort B} `{HasConfig B} (me now L r : Z) (lat : Z → Z)
    (repr : B → view → Prop) (d : t) (b : B) (c : DMACConfig.t) (μ : Z → option Z)
    (Hbus : word_bus me lat repr) (Hnow : is_u32 now)
    (HL : 0 ≤ L) (Hlat : ∀ a, lat a ≤ L) (Hmax : L + block_words d < 2 ^ 32)
    (Hst : status d = IDLE) (Hex : exception_pending d = false)
    (Hbw : 0 < block_words d < 2 ^ 30) (Hbuf : Z.of_nat (length (buffer d)) = block_words d)
    (Hmb : 0 < mem_bandwidth d)
    (Hc : config_of b = Some c) (Hr : repr b (MkView μ (λ _ _, None) None r))
    (Hen : enabled c = true) (Hk : kicked c = true) (Hab : abort c = false)
    (Hlen : 0 < dma_len c < 2 ^ 31)
    (Hsrc : aligned (block_words d) (getQuery c) (dma_src c))
    (Hdst : aligned (block_words d) (getQuery c) (dma_dst c))
    (Hmap : ∀ k, 0 ≤ k < dma_len c →
       (zero_write c = false → mapped (block_words d) (getQuery c) μ (dma_src c) k) ∧
       mapped (block_words d) (getQuery c) μ (dma_dst c) k) :
  let n := nw (block_words d) (getQuery c) in
  ∃ cycles s' now' μ' r', run me cycles now (MkSys B d b) = Some (now', s') ∧
    status (self s') = IDLE ∧ config_of (bus s') = Some (finished c) ∧
    repr (bus s') (MkView μ' (λ _ _, None) None r') ∧
    μ' = transferred (zero_write c) n (dma_src c) (dma_dst c) (Z.to_nat (dma_len c)) 0 μ ∧
    (zero_write c = true ∨ disjoint (n * dma_len c) (dma_src c) (dma_dst c) → ∀ x,
       μ' x = blit (source (zero_write c) (dma_src c) μ) (n * dma_len c) (dma_dst c) μ x) ∧
    (nz (Z.land DeviceInt.IRQ5 (DeviceInt.lines_connected (lines d))) = true →
     nz (Z.land DeviceInt.IRQ5 (DeviceInt.lines_asserted (lines (self s')))) = irq_en c).
Proof.
  intros n. set (q := getQuery c). set (lc := DeviceInt.lines_connected (lines d)).
  destruct d as [st nx bw q0 k0 i0 mb buf ex ln]. cbn in *. subst st ex.
  set (c1 := c <| busy := true |> <| kicked := false |>). set (c2 := c1 <| end_stat := true |>).
  destruct (start_cycle me lat repr Hbus bw mb q ltac:(lia) lc now nx q0 k0 i0 buf ln b c
    (MkView μ (λ _ _, None) None r)) as (s1 & E1 & Hs1); try done; [lia|].
  destruct (blocks_cycles me lat repr Hbus bw mb L q ltac:(lia) Hmb HL Hlat Hmax lc (Z.to_nat (dma_len c))
    (u32 (now + 1)) s1 0 0 buf c1 μ None r) as (n2 & [now2 s2] & E2 & Hn2 & i2 & buf2 & r2 & Hs2);
    try done; try (by left); try (cbn; lia); [by apply (wrap_range 32)|]. cbn [fst snd] in Hn2, Hs2.
  destruct (exit_cycle me lat repr Hbus bw mb q ltac:(lia) lc now2 s2 (len q) i2 buf2
    c2 _ r2 Hen Hs2)
    as (s3 & ln3 & E3 & Hl3 & Hlc3 & nx3 & ln4 & b3 & -> & Hlc4 & Hc3 & Hr3).
  assert (Hrun : reaches me now (MkSys B (Mk IDLE nx bw q0 k0 i0 mb buf false ln) b)
    (λ now' s', s' = MkSys B (dmac bw mb q IDLE nx3 (len q) i2 buf2 ln4) b3)).
  { eapply dma_step; [exact E1|]. eapply (dma_trans me _ _ (λ now' s', now' = now2 ∧ s' = s2)).
    { exists n2, (now2, s2). done. }
    intros now' s' [-> ->]. eapply dma_step; [exact E3|]. by apply dma_here. }
  destruct Hrun as (cycles & [now' s'] & E & Es). cbn [snd] in Es. subst s'.
  eexists cycles, _, now', _, _. split; [exact E|]. split; [done|]. split.
  { change (config_of b3 = Some (finished c)). rewrite Hc3. f_equal. unfold finished, c2, c1. cbn.
    rewrite u32_small by lia. done. }
  split; [exact Hr3|]. split; [done|]. split.
  - intros Hd x. rewrite (transferred_blit _ _ _ _ _ (proj1 (nw_range bw q ltac:(lia)))).
    + rewrite !Z.mul_0_r, !Z.add_0_r, Z2Nat.id by lia. done.
    + destruct Hd as [?|Hd]; [by left|]. right. intros i j Hi Hj. rewrite Z2Nat.id in Hi, Hj by lia.
      rewrite Z.mul_0_r, Z.add_0_l in Hi, Hj. by apply Hd.
  - intros Hcon. cbn in Hl3 |- *. rewrite Hl3. unfold irq_lines. rewrite Hlc3. fold lc. rewrite Hcon.
    cbn. destruct (irq_en c); unfold nz.
    + apply negb_true_iff, Z.eqb_neq. intros E0. apply (f_equal (λ z, Z.testbit z 13)) in E0.
      rewrite Z.land_spec, Z.lor_spec in E0. unfold DeviceInt.IRQ5 in E0.
      rewrite orb_true_r in E0. done.
    + apply negb_false_iff, Z.eqb_eq. unfold DeviceInt.IRQ5. bitblast z.
      assert (z = 13) as -> by lia. apply andb_false_r.
Qed.
