(* ===== verification/DMAMem.v ===== *)
(** * DMAMem: the DMA controller on the mapper

    The mapper over memory modules keeps the promises of [word_bus] to every bus
    master, so the transfers of the DMA controller are those of DMACopy.v. *)

From S2P Require Import Prelude Effects Types Bus Range Mapper Physical Interrupts DMAC DMACopy.
Import Mapper.

(** An action on the first of two objects. *)
Definition first {A C X} (m : M A X) : M (A * C) X := λ s,
  match m s.1 with
  | None => None
  | Some (x, a, e) => Some (x, (a, s.2), e)
  end.

Lemma first_eq {A C X} (m : M A X) (a : A) (c : C) x a' e : m a = Some (x, a', e) →
  first m (a, c) = Some (x, (a', c), e).
Proof. unfold first. cbn. by intros ->. Qed.

Section Port.
  (** [machine->host_bigendian] *)
  Variable host : bool.
#[local] Existing Instance Physical.ops.
  Notation mapper := (t (gmap Z Ram.t)).

(** The mapper next to the registers of the controller. *)
#[local] Instance pair_port : MemPort (mapper * DMACConfig.t) := {|
  mem_ready now a m c := first (ready (H := ops host) now a m c);
  mem_request_word now a m c := first (request_word now a m c);
  mem_fetch_word now a m c := first (fetch_word (H := ops host) now a m c);
  mem_fetch_halfword now a c := first (fetch_halfword (H := ops host) now a c);
  mem_fetch_byte now a c := first (fetch_byte (H := ops host) now a c);
  mem_store_word now a d c := first (store_word (H := ops host) now a d c);
  mem_store_halfword now a d c := first (store_halfword (H := ops host) now a d c);
  mem_store_byte now a d c := first (store_byte (H := ops host) now a d c);
  mem_acquire_bus now c := first (acquire_bus now c);
  mem_release_bus now c := first (release_bus now c);
  mem_byteswapped b := byteswapped b.1
|}.
#[local] Instance pair_config : HasConfig (mapper * DMACConfig.t) := {|
  config_of b := Some b.2;
  set_config c b := (b.1, c)
|}.

(** What a master sees of the mapper: words in the byte order of the target, at
    addresses whose module answers after [lat]. *)
Record sees (big : bool) (me : Z) (lat : Z → Z) (m : mapper) (v : view) : Prop := {
  se_ok : ram_ok host m;
  se_big : opt_bigendian m = big;
  se_debug : debug_mode m = false;
  se_word : ∀ a w, v_word v a = Some w → a mod 4 = 0 ∧ word_at host m a w;
  se_range : ∀ a, is_Some (v_word v a) → ∃ r, Physical.range_at host m a = Some r ∧
    u32 (bus_latency m + r_extra_latency (RangeOps := ops host) (store m) r) = lat a;
  se_asked : ∀ a mode, access_requests_time m !! (a, mode, me) = v_asked v a mode;
  se_holder : BusArbiter.bus_holder (bus_arbiter m) = v_holder v;
  se_released : BusArbiter.last_released_cycle (bus_arbiter m) = v_released v
}.

Definition repr (big : bool) (me : Z) (lat : Z → Z) (b : mapper * DMACConfig.t) (v : view) : Prop :=
  sees big me lat b.1 v.

Context (big : bool) (me : Z) (lat : Z → Z).
Implicit Types (m : mapper) (v : view).

Lemma sees_granted now a mode m v t : sees big me lat m v → is_Some (v_word v a) →
  v_asked v a mode = Some t → lat a ≤ u32 (now - t) → granted host now a mode me m.
Proof.
  intros Hs Hw Ht Hl. destruct (se_range _ _ _ _ _ Hs a Hw) as (r & Hr & El).
  right. exists t, r. split; [by rewrite (se_asked _ _ _ _ _ Hs)|]. split; [done|]. by rewrite El.
Qed.

(** An access through a module that kept its place and its latency. *)
Lemma sees_after a mode r x x' m v v' : sees big me lat m v → store m !! r = Some x →
  Ram.placed x x' → Ram.latency x' = Ram.latency x →
  ram_ok host (after a mode me r x' m) →
  (∀ p w, v_word v' p = Some w → p mod 4 = 0 ∧ word_at host (after a mode me r x' m) p w) →
  (∀ p, is_Some (v_word v' p) → is_Some (v_word v p)) →
  (∀ p k, v_asked v' p k = if (p =? a) && (k =? mode) then None else v_asked v p k) →
  v_holder v' = v_holder v → v_released v' = v_released v →
  sees big me lat (after a mode me r x' m) v'.
Proof.
  intros [H1 Hbig H2 H3 H4 H5 H6 H7] Hx Hp Hlat Hok Hw Hsome Hask Hh Hrel. split; try done.
  - intros p [w Hpw]%Hsome. destruct (H4 p) as (r' & Hr' & El); [by exists w|].
    exists r'. split; [by rewrite (after_range_at host a mode me r x)|]. rewrite <- El. cbn.
    destruct (decide (r' = r)) as [->|]; [|by rewrite lookup_insert_ne].
    rewrite lookup_insert_eq, Hx. cbn. unfold Ram.extra_latency. by rewrite Hlat.
  - intros p k. rewrite Hask. cbn. destruct (Z.eqb_spec p a) as [->|].
    + destruct (Z.eqb_spec k mode) as [->|]; cbn; [by rewrite lookup_delete_eq|].
      rewrite lookup_delete_ne by congruence. apply H5.
    + cbn. rewrite lookup_delete_ne by congruence. apply H5.
  - by rewrite Hh.
  - by rewrite Hrel.
Qed.

Lemma ready_sees now a mode t m v : sees big me lat m v → is_Some (v_word v a) →
  v_asked v a mode = Some t →
  ∃ r, ready (H := ops host) now a mode me m =
    Some (lat a <=? u32 (now - t), m <| last_used_mapping := Some r |>, []) ∧
    Physical.range_at host m a = Some r.
Proof.
  intros Hs Hw Ht. destruct (se_range _ _ _ _ _ Hs a Hw) as (r & Hr & El). exists r. split; [|done].
  pose proof (se_asked _ _ _ _ _ Hs a mode) as Hq. rewrite Ht in Hq.
  destruct (module_place host m r a (se_ok _ _ _ _ _ Hs) Hr) as (x & Hx & _).
  rewrite (ready_asked now a mode me m r t) by (done || apply Hs). rewrite El.
  destruct (_ <=? _); [|done]. unfold zoom. cbn. unfold zoom_key, id. rewrite Hx. cbn.
  unfold setter_id. destruct m; cbn in *. by rewrite insert_id.
Qed.

Lemma sees_last r a m v : sees big me lat m v → Physical.range_at host m a = Some r →
  sees big me lat (m <| last_used_mapping := Some r |>) v.
Proof. intros [H1 Hbig H2 H3 H4 H5 H6 H7] Hr. split; try done. by apply (ram_ok_last host r a). Qed.

Lemma fetch_sees now a mode t w m v : sees big me lat m v → v_word v a = Some w →
  v_asked v a mode = Some t → lat a ≤ u32 (now - t) →
  ∃ m', fetch_word (H := ops host) now a mode me m = Some (w, m', []) ∧ sees big me lat m' (served a mode v).
Proof.
  intros Hs Hw Ht Hl. destruct (se_word _ _ _ _ _ Hs a w Hw) as [Ha Hwa].
  assert (Hg : granted host now a mode me m) by (eapply sees_granted; [done|by exists w|done|done]).
  destruct (fetch_word_after host now a mode me m w (se_ok _ _ _ _ _ Hs) Ha Hwa Hg)
    as (r & x & Hr & Hx & E & Hok & Hb & Ho).
  eexists. split; [exact E|]. eapply sees_after; try done.
  intros p w' Hp. destruct (se_word _ _ _ _ _ Hs p w' Hp) as [Hp4 [Hu Hbytes]]. split; [done|].
  split; [done|]. intros k Hk. rewrite Hb, Ho. by apply Hbytes.
Qed.

Lemma store_sees now a d t m v : sees big me lat m v → is_Some (v_word v a) →
  v_asked v a DATASTORE = Some t → lat a ≤ u32 (now - t) → is_u32 d →
  ∃ m', store_word (H := ops host) now a d me m = Some ((), m', []) ∧
    sees big me lat m' (written a d (served a DATASTORE v)).
Proof.
  intros Hs [w Hw] Ht Hl Hd. destruct (se_word _ _ _ _ _ Hs a w Hw) as [Ha Hwa].
  assert (Hg : granted host now a DATASTORE me m) by (eapply sees_granted; [done|by exists w|done|done]).
  destruct (se_range _ _ _ _ _ Hs a ltac:(by exists w)) as (r & Hr & _).
  destruct (store_word_after host now a d me m r (se_ok _ _ _ _ _ Hs) Hr Ha Hd Hg)
    as (x & l & Hx & E & Hok & Ho & Hin & Hout).
  eexists. split; [exact E|]. eapply sees_after; try done.
  - intros p w' Hp. cbn in Hp. destruct (Z.eqb_spec p a) as [->|Hne].
    + injection Hp as <-. split; [done|]. split; [done|]. intros k Hk. rewrite Ho. by apply Hin.
    + destruct (se_word _ _ _ _ _ Hs p w' Hp) as [Hp4 [Hu Hbytes]]. split; [done|].
      split; [done|]. intros k Hk. rewrite Ho, Hout; [by apply Hbytes|].
      pose proof (Z.div_mod p 4 ltac:(lia)). pose proof (Z.div_mod a 4 ltac:(lia)). lia.
  - intros p. cbn. destruct (Z.eqb_spec p a) as [->|]; [intros _; by exists w|done].
Qed.

(** The memory does not depend on the requests and on the holder of the bus. *)
Lemma ram_ok_other m m' : ranges m' = ranges m → store m' = store m →
  last_used_mapping m' = last_used_mapping m → byteswapped m' = byteswapped m →
  opt_bigendian m' = opt_bigendian m → ram_ok host m → ram_ok host m'.
Proof.
  intros E1 E2 E3 E4 E5 [[W1 W2 W3] R O]. split; [split|..]; rewrite ?E1, ?E2, ?E3, ?E4, ?E5; done.
Qed.

(** A request is stamped with its cycle, unless one is waiting; a release frees the bus that
    the master holds. *)
Lemma request_sees now a mode m v : sees big me lat m v →
  ∃ m', request_word now a mode me m = Some ((), m', []) ∧ sees big me lat m' (ask now a mode v).
Proof.
  intros Hs. unfold request_word. rewrite gets_bind, (se_asked _ _ _ _ _ Hs a mode).
  destruct Hs as [H1 Hbig H2 H3 H4 H5 H6 H7].
  destruct (v_asked v a mode) as [t|] eqn:Ev; eexists; (split; [reflexivity|]); split; try done.
  - intros p k. cbn. rewrite Ev, H5.
    destruct (Z.eqb_spec p a) as [->|]; [destruct (Z.eqb_spec k mode) as [->|]|]; done.
  - by apply (ram_ok_other m).
  - intros p k. cbn. rewrite Ev. destruct (Z.eqb_spec p a) as [->|].
    + destruct (Z.eqb_spec k mode) as [->|]; cbn; [by rewrite lookup_insert_eq|].
      rewrite lookup_insert_ne by congruence. apply H5.
    + cbn. rewrite lookup_insert_ne by congruence. apply H5.
Qed.
Lemma release_sees now m v : sees big me lat m v →
  ∃ m', release_bus now me m = Some ((), m', []) ∧
    sees big me lat m' (if bool_decide (v_holder v = Some me) then released now v else v).
Proof.
  intros Hs. unfold release_bus, zoom. rewrite BusArbiter.release_eq.
  destruct Hs as [H1 Hbig H2 H3 H4 H5 H6 H7]. cbn in H6, H7. rewrite H6.
  eexists. split; [reflexivity|]. cbn. case_bool_decide; (split; try done; by apply (ram_ok_other m)).
Qed.

(** The mapper serves every bus master as the interface promises: requests are
    stamped with their cycle, an access is ready once its latency has passed,
    reads return and writes change the words of the memory in the byte order of
    the target, and the bus is granted and released as the arbiter says. *)
Lemma mapper_serves : word_bus me lat (repr big me lat).
Proof.
  split; unfold repr.
  - intros now a mode [m c] v Hs Hw. destruct (request_sees now a mode m v Hs) as (m' & E & Hs').
    eexists. split; [exact (first_eq _ _ c _ _ _ E)|]. by split.
  - intros now a mode [m c] v t Hs Hw Ht. destruct (ready_sees now a mode t m v Hs Hw Ht) as (r & E & Hr).
    eexists. split; [exact (first_eq _ _ c _ _ _ E)|]. split; [|done]. by apply (sees_last r a).
  - intros now a mode [m c] v t w Hs Hw Ht Hl. destruct (fetch_sees now a mode t w m v Hs Hw Ht Hl) as (m' & E & Hs').
    eexists. split; [exact (first_eq _ _ c _ _ _ E)|]. by split.
  - intros now a d [m c] v t Hs Hw Ht Hl Hd. destruct (store_sees now a d t m v Hs Hw Ht Hl Hd) as (m' & E & Hs').
    eexists. split; [exact (first_eq _ _ c _ _ _ E)|]. by split.
  - intros now [m c] v Hs Hh. unfold mem_acquire_bus, pair_port, acquire_bus, first, zoom. cbn [fst snd].
    rewrite BusArbiter.acquire_eq. destruct Hs as [H1 Hbig H2 H3 H4 H5 H6 H7]. cbn in H6, H7. rewrite H6, H7.
    destruct (Z.eqb_spec (u32 (v_released v)) now); cbn.
    + eexists. split; [reflexivity|]. split; [|done]. split; try done. by apply (ram_ok_other m).
    + destruct Hh as [Eh | Eh]; rewrite Eh, ?Z.eqb_refl; eexists; (split; [reflexivity|]); (split; [|done]);
        (split; try done; [by apply (ram_ok_other m)|try (cbn; congruence)..]).
  - intros now [m c] v Hs. destruct (release_sees now m v Hs) as (m' & E & Hs').
    eexists. split; [exact (first_eq _ _ c _ _ _ E)|]. by split.
  - intros c [m c0] v Hs. by split.
  - intros [m c] v a w Hs Hw. by apply (se_word _ _ _ _ _ Hs a w).
  - intros [m c] v v' [H1 Hbig H2 H3 H4 H5 H6 H7] Hw Ha Hh Hr. split; try done; try congruence.
    + intros a w. rewrite Hw. apply H3.
    + intros a. rewrite Hw. apply H4.
Qed.

End Port.

(** ** The words of a memory *)
Section Words.
  Variable host : bool.
  Notation mapper := (t (gmap Z Ram.t)).
  Implicit Types m : mapper.

Definition word_view m (a : Z) : option Z :=
  if a mod 4 =? 0 then
    match phys_byte host m a, phys_byte host m (a + 1), phys_byte host m (a + 2), phys_byte host m (a + 3) with
    | Some b0, Some b1, Some b2, Some b3 => Some (word_of_bytes (opt_bigendian m) b0 b1 b2 b3)
    | _, _, _, _ => None
    end
  else None.

Lemma byte_of_word big b0 b1 b2 b3 k : is_u8 b0 → is_u8 b1 → is_u8 b2 → is_u8 b3 → 0 ≤ k < 4 →
  byte_of big 4 (word_of_bytes big b0 b1 b2 b3) k =
    if k =? 0 then b0 else if k =? 1 then b1 else if k =? 2 then b2 else b3.
Proof.
  intros ???? Hk. assert (k = 0 ∨ k = 1 ∨ k = 2 ∨ k = 3) as [-> | [-> | [-> | ->]]] by lia;
    destruct big; unfold byte_of, word_of_bytes; cbn [Z.mul Z.sub Z.add Z.opp Z.pos_sub Pos.mul Z.eqb Pos.eqb];
    bitblast i.
Qed.

Lemma phys_byte_u8 m a b : ram_ok host m → phys_byte host m a = Some b → is_u8 b.
Proof.
  intros Hok Hb. destruct (phys_mapped host m a b Hb) as (r & x & Hr & Hx).
  destruct (module_place host m r a Hok Hr) as (x' & Hx' & Hm & _). assert (x' = x) as -> by congruence.
  rewrite (phys_byte_at host m r x) in Hb by done. by eapply Ram.bytes_ok_nthz; [apply Hm|].
Qed.

Lemma word_view_at m a w : ram_ok host m → word_view m a = Some w → a mod 4 = 0 ∧ word_at host m a w.
Proof.
  intros Hok. unfold word_view. destruct (Z.eqb_spec (a mod 4) 0); [|done].
  destruct (phys_byte host m a) as [b0|] eqn:E0; [|done].
  destruct (phys_byte host m (a + 1)) as [b1|] eqn:E1; [|done].
  destruct (phys_byte host m (a + 2)) as [b2|] eqn:E2; [|done].
  destruct (phys_byte host m (a + 3)) as [b3|] eqn:E3; [|done]. intros [= <-]. split; [done|].
  assert (U := λ a b, phys_byte_u8 m a b Hok). split; [apply word_of_bytes_range; eauto|].
  intros k Hk. rewrite byte_of_word by eauto.
  assert (k = 0 ∨ k = 1 ∨ k = 2 ∨ k = 3) as [-> | [-> | [-> | ->]]] by lia; try done. by rewrite Z.add_0_r.
Qed.

(** A mapped byte belongs to a word. *)
Lemma phys_word m p b : ram_ok host m → phys_byte host m p = Some b →
  ∃ w, word_view m (p - p mod 4) = Some w ∧ b = byte_of (opt_bigendian m) 4 w (p mod 4).
Proof.
  intros Hok Hb. destruct (phys_mapped host m p b Hb) as (r & x & Hr & Hx).
  destruct (module_place host m r p Hok Hr) as (x' & Hx' & Hm & Hp & Htop & H0 & _ & Hall).
  assert (x' = x) as -> by congruence. destruct Hm as [M1 M2 M3 M4 M5].
  pose proof (Z.mod_pos_bound p 4 ltac:(lia)). pose proof (Z.div_mod p 4 ltac:(lia)) as Hdm.
  pose proof (Z.div_mod (Ram.base x) 4 ltac:(lia)). pose proof (Z.div_mod (Ram.extent x) 4 ltac:(lia)).
  set (a := p - p mod 4).
  assert (Hin : ∀ k, 0 ≤ k < 4 → ∃ y, phys_byte host m (a + k) = Some y).
  { intros k Hk. assert (Hrk : Physical.range_at host m (a + k) = Some r) by (apply Hall; unfold a; lia).
    rewrite (phys_byte_at host m r x) by done. apply nthz_is_Some. unfold a. lia. }
  assert (Ha : a mod 4 = 0).
  { unfold a. replace (p - p mod 4) with ((p / 4) * 4) by lia. apply Z.mod_mul. lia. }
  destruct (Hin 0 ltac:(lia)) as [b0 E0], (Hin 1 ltac:(lia)) as [b1 E1], (Hin 2 ltac:(lia)) as [b2 E2],
    (Hin 3 ltac:(lia)) as [b3 E3]. rewrite Z.add_0_r in E0.
  exists (word_of_bytes (opt_bigendian m) b0 b1 b2 b3). split.
  - unfold word_view. by rewrite Ha, E0, E1, E2, E3.
  - assert (U := λ a b, phys_byte_u8 m a b Hok). rewrite byte_of_word by (eauto || lia).
    assert (Hp4 : p mod 4 = 0 ∨ p mod 4 = 1 ∨ p mod 4 = 2 ∨ p mod 4 = 3) by lia.
    destruct Hp4 as [E|[E|[E|E]]]; rewrite E; cbn [Z.eqb Pos.eqb].
    all: unfold a in *; rewrite E in *.
    + rewrite Z.sub_0_r in E0. congruence.
    + replace (p - 1 + 1) with p in E1 by lia. congruence.
    + replace (p - 2 + 2) with p in E2 by lia. congruence.
    + replace (p - 3 + 3) with p in E3 by lia. congruence.
Qed.

(** The latency of an address. *)
Definition latency_at m (a : Z) : Z :=
  match Physical.range_at host m a with
  | Some r => u32 (bus_latency m + r_extra_latency (RangeOps := ops host) (store m) r)
  | None => 0
  end.

(** The view of a master as it is. *)
Lemma master_sees_now me m : ram_ok host m → debug_mode m = false →
  sees host (opt_bigendian m) me (latency_at m) m
    (MkView (word_view m) (λ a mode, access_requests_time m !! (a, mode, me))
       (BusArbiter.bus_holder (bus_arbiter m)) (BusArbiter.last_released_cycle (bus_arbiter m))).
Proof.
  intros Hok Hd. split; try done.
  - intros a w. by apply word_view_at.
  - intros a [w Hw]. cbn in Hw. pose proof (word_view_at m a w Hok Hw) as [_ [_ Hb]].
    specialize (Hb 0 ltac:(lia)). rewrite Z.add_0_r in Hb.
    destruct (phys_mapped host m a _ Hb) as (r & x & Hr & _). exists r. split; [done|].
    unfold latency_at. by rewrite Hr.
Qed.

(** The view of a master that asked for nothing. *)
Definition master_view m : view :=
  MkView (word_view m) (λ _ _, None) None (BusArbiter.last_released_cycle (bus_arbiter m)).

Lemma master_sees me m : ram_ok host m → debug_mode m = false →
  BusArbiter.bus_holder (bus_arbiter m) = None →
  (∀ a mode, access_requests_time m !! (a, mode, me) = None) →
  sees host (opt_bigendian m) me (latency_at m) m (master_view m).
Proof.
  intros Hok Hd Hh Hq. destruct (master_sees_now me m Hok Hd) as [H1 Hbig H2 H3 H4 H5 H6 H7]. split; try done.
Qed.

(** Mapped regions, from bytes to blocks of words. *)
Lemma phys_byte_range m p b : ram_ok host m → phys_byte host m p = Some b → 0 ≤ p < 2 ^ 32.
Proof.
  intros Hok Hb. destruct (phys_mapped host m p b Hb) as (r & x & Hr & Hx).
  destruct (module_place host m r p Hok Hr) as (x' & _ & _ & ? & ? & ? & _). lia.
Qed.

Lemma aligned_word bw q a : 0 < bw → aligned bw q a → a mod 4 = 0.
Proof.
  unfold aligned. intros Hbw Ha. pose proof (nw_range bw q Hbw).
  pose proof (Z.div_mod a (4 * nw bw q) ltac:(lia)) as E. rewrite Ha, Z.add_0_r in E. rewrite E.
  replace (4 * nw bw q * (a / (4 * nw bw q))) with (nw bw q * (a / (4 * nw bw q)) * 4) by lia.
  apply Z.mod_mul. lia.
Qed.

Lemma word_view_mapped m a : ram_ok host m → a mod 4 = 0 → is_Some (phys_byte host m a) →
  is_Some (word_view m a).
Proof.
  intros Hok Ha [b Hb]. destruct (phys_word m a b Hok Hb) as (w & Hw & _).
  rewrite Ha, Z.sub_0_r in Hw. by exists w.
Qed.

Lemma region_mapped m bw q base len : ram_ok host m → 0 < bw → aligned bw q base →
  (∀ o, 0 ≤ o < 4 * (nw bw q * len) → is_Some (phys_byte host m (base + o))) →
  ∀ k, 0 ≤ k < len → mapped bw q (word_view m) base k.
Proof.
  intros Hok Hbw Ha Hmap k Hk. pose proof (nw_range bw q Hbw). set (n := nw bw q) in *.
  pose proof (aligned_word bw q base Hbw Ha) as Ha4.
  assert (Hin : ∀ o, 0 ≤ o < 4 * n → is_Some (phys_byte host m (base + 4 * n * k + o))).
  { intros o Ho. replace (base + 4 * n * k + o) with (base + (4 * n * k + o)) by lia. apply Hmap. nia. }
  split.
  - split; [done|]. destruct (Hin 0 ltac:(lia)) as [b Hb]. apply (phys_byte_range _ _ _ Hok) in Hb.
    destruct (Hin (4 * n - 1) ltac:(lia)) as [b' Hb']. apply (phys_byte_range _ _ _ Hok) in Hb'.
    fold n. lia.
  - intros j Hj. apply word_view_mapped; [done| |apply Hin; fold n in Hj; lia].
    fold n. replace (base + 4 * n * k + 4 * j) with (base + (n * k + j) * 4) by lia.
    by rewrite Z.mod_add by lia.
Qed.

(** The byte at [p] of the word at its place. *)
Lemma sees_byte big me lat m v p w : sees host big me lat m v → v_word v (p - p mod 4) = Some w →
  phys_byte host m p = Some (byte_of big 4 w (p mod 4)).
Proof.
  intros Hs Hw. destruct (se_word _ _ _ _ _ _ Hs _ _ Hw) as [_ [_ Hb]].
  pose proof (Z.mod_pos_bound p 4 ltac:(lia)). specialize (Hb (p mod 4) ltac:(lia)).
  rewrite (se_big _ _ _ _ _ _ Hs) in Hb. by replace (p - p mod 4 + p mod 4) with p in Hb by lia.
Qed.

(** What a DMA transfer makes of the byte at [p]. *)
Definition dma_byte m (c : DMACConfig.t) (n p b : Z) : option Z :=
  let src := DMACConfig.dma_src c in let dst := DMACConfig.dma_dst c in
  if (dst <=? p) && (p <? dst + 4 * (n * DMACConfig.dma_len c)) then
    if DMACConfig.zero_write c then Some 0 else phys_byte host m (src + (p - dst))
  else Some b.

(** The words of the transfer, seen as bytes. *)
Lemma transfer_bytes me lat m m' v (c : DMACConfig.t) n p b : ram_ok host m → 0 ≤ n * DMACConfig.dma_len c →
  DMACConfig.dma_dst c mod 4 = 0 → DMACConfig.dma_src c mod 4 = 0 →
  (DMACConfig.zero_write c = false → ∀ o, 0 ≤ o < 4 * (n * DMACConfig.dma_len c) →
     is_Some (phys_byte host m (DMACConfig.dma_src c + o))) →
  sees host (opt_bigendian m) me lat m' v →
  (∀ x, v_word v x = blit (source (DMACConfig.zero_write c) (DMACConfig.dma_src c) (word_view m))
     (n * DMACConfig.dma_len c) (DMACConfig.dma_dst c) (word_view m) x) →
  phys_byte host m p = Some b → phys_byte host m' p = dma_byte m c n p b.
Proof.
  intros Hok HN Hd4 Hs4 Hsrc Hs Hv Hb. set (src := DMACConfig.dma_src c) in *.
  set (dst := DMACConfig.dma_dst c) in *. set (N := n * DMACConfig.dma_len c) in *.
  destruct (phys_word m p b Hok Hb) as (w & Hw & ->). unfold dma_byte. fold src dst N.
  pose proof (Z.mod_pos_bound p 4 ltac:(lia)). pose proof (Z.div_mod p 4 ltac:(lia)) as Ep.
  pose proof (Z.div_mod dst 4 ltac:(lia)) as Ed.
  destruct (blit_eq (source (DMACConfig.zero_write c) src (word_view m)) N dst (word_view m) (p - p mod 4))
    as [(j & Hj & Ex & E)|[E Hout]]; rewrite <- Hv in E.
  - rewrite (proj2 (Z.leb_le _ _)), (proj2 (Z.ltb_lt _ _)) by lia. cbn [andb]. unfold source in E.
    destruct (DMACConfig.zero_write c) eqn:Ez.
    + rewrite (sees_byte _ _ _ _ _ _ _ Hs E). f_equal. unfold byte_of. by rewrite Z.shiftr_0_l.
    + destruct (word_view_mapped m (src + 4 * j) Hok) as [w' Hw'].
      { rewrite Z.add_mod, (Z.mul_comm 4 j), Z.mod_mul, Hs4 by lia. done. }
      { apply Hsrc; [done|lia]. }
      rewrite Hw' in E. rewrite (sees_byte _ _ _ _ _ _ _ Hs E).
      destruct (word_view_at m _ _ Hok Hw') as [_ [_ Hbs]]. rewrite <- Hbs by lia. f_equal. lia.
  - destruct (_ && _) eqn:Ein.
    + exfalso. apply andb_true_iff in Ein as [E1%Z.leb_le E2%Z.ltb_lt].
      apply (Hout ((p - p mod 4 - dst) / 4)); pose proof (Z.div_mod (p - p mod 4 - dst) 4 ltac:(lia));
        assert ((p - p mod 4 - dst) mod 4 = 0); try lia.
      all: replace (p - p mod 4 - dst) with ((p / 4 - dst / 4) * 4) by lia; apply Z.mod_mul; lia.
    + rewrite Hw in E. by rewrite (sees_byte _ _ _ _ _ _ _ Hs E).
Qed.

#[local] Instance port : MemPort (mapper * DMACConfig.t) := pair_port host.
#[local] Existing Instance pair_config.

(** The mapper is at rest for the master [me]: the bus is free and nothing is
    requested; no address takes longer than 2^31 cycles. *)
Record at_rest (me : Z) m : Prop := {
  ar_ok : ram_ok host m;
  ar_debug : debug_mode m = false;
  ar_free : BusArbiter.bus_holder (bus_arbiter m) = None;
  ar_asked : ∀ a mode, access_requests_time m !! (a, mode, me) = None;
  ar_latency : ∀ a, latency_at m a ≤ 2 ^ 31
}.

(** An idle controller, its buffer allocated, with a bus of some width. *)
Record idle (d : DMAC.t) : Prop := {
  id_status : DMAC.status d = DMAC.IDLE;
  id_pending : DMAC.exception_pending d = false;
  id_words : 0 < DMAC.block_words d < 2 ^ 30;
  id_buffer : Z.of_nat (length (DMAC.buffer d)) = DMAC.block_words d;
  id_width : 0 < DMAC.mem_bandwidth d
}.

(** C5 a DMA transfer moves bytes: an idle controller that is enabled and kicked,
    with aligned, mapped regions of at least one block that do not overlap (or to
    be cleared), becomes idle again after finitely many cycles, whatever the
    latencies of the modules, the width of the bus, the block size and the byte
    orders of the host and of the target.  The destination then holds the bytes of
    the source (or zeros) and every other byte is unchanged; the mapper is at
    rest again; the registers report the end and the number of blocks; and the
    interrupt line follows the interrupt enable. *)
Theorem dma_copies_memory (me now : Z) m (d : DMAC.t) (c : DMACConfig.t)
    (Hm : at_rest me m) (Hd : idle d) (Hnow : is_u32 now)
    (Hen : DMACConfig.enabled c = true) (Hk : DMACConfig.kicked c = true)
    (Hab : DMACConfig.abort c = false) (Hlen : 0 < DMACConfig.dma_len c < 2 ^ 31)
    (Hsrc : aligned (DMAC.block_words d) (DMACConfig.getQuery c) (DMACConfig.dma_src c))
    (Hdst : aligned (DMAC.block_words d) (DMACConfig.getQuery c) (DMACConfig.dma_dst c))
    (Hmap : ∀ o, 0 ≤ o < 4 * (nw (DMAC.block_words d) (DMACConfig.getQuery c) * DMACConfig.dma_len c) →
       is_Some (phys_byte host m (DMACConfig.dma_dst c + o)) ∧
       (DMACConfig.zero_write c = false → is_Some (phys_byte host m (DMACConfig.dma_src c + o))))
    (Hdis : DMACConfig.zero_write c = true ∨
       disjoint (nw (DMAC.block_words d) (DMACConfig.getQuery c) * DMACConfig.dma_len c)
         (DMACConfig.dma_src c) (DMACConfig.dma_dst c)) :
  ∃ cycles m' d' now', run me cycles now (DMAC.MkSys _ d (m, c)) =
      Some (now', DMAC.MkSys _ d' (m', finished c)) ∧
    DMAC.status d' = DMAC.IDLE ∧
    ram_ok host m' ∧ BusArbiter.bus_holder (bus_arbiter m') = None ∧
    (∀ a mode, access_requests_time m' !! (a, mode, me) = None) ∧
    (∀ p b, phys_byte host m p = Some b →
       phys_byte host m' p = dma_byte m c (nw (DMAC.block_words d) (DMACConfig.getQuery c)) p b) ∧
    (nz (Z.land DeviceInt.IRQ5 (DeviceInt.lines_connected (DMAC.lines d))) = true →
     nz (Z.land DeviceInt.IRQ5 (DeviceInt.lines_asserted (DMAC.lines d'))) = DMACConfig.irq_en c).
Proof.
  destruct Hm as [Hok Hdb Hfree Hask Hlat], Hd as [D1 D2 D3 D4 D5].
  set (q := DMACConfig.getQuery c) in *. set (n := nw (DMAC.block_words d) q) in *.
  pose proof (nw_range (DMAC.block_words d) q ltac:(lia)) as Hn. fold n in Hn.
  destruct (transfer_runs me now (2 ^ 31) (BusArbiter.last_released_cycle (bus_arbiter m)) (latency_at m)
    (repr host (opt_bigendian m) me (latency_at m)) d (m, c) c (word_view m))
    as (cycles & [d' [m' c']] & now' & μ' & r' & E & E1 & E2 & Hs & _ & Hblit & Hirq); try done; try lia.
  - apply mapper_serves.
  - by apply master_sees.
  - intros k Hkk. split; [intros Ez|];
      apply (region_mapped _ _ _ _ (DMACConfig.dma_len c)); try done; try lia; intros o Ho; by apply Hmap.
  - specialize (Hblit Hdis). cbn in E2. injection E2 as ->. exists cycles, m', d', now'.
    split; [exact E|]. split; [done|]. split; [apply Hs|]. split; [apply Hs|]. split; [apply Hs|].
    split; [|done]. intros p b Hp. eapply (transfer_bytes me (latency_at m) m m'); try done; try lia.
    + by eapply aligned_word; [|exact Hdst]; lia.
    + by eapply aligned_word; [|exact Hsrc]; lia.
    + intros Ez o Ho. by apply Hmap.
Qed.

End Words.

(** ** A transfer on a concrete machine: a big-endian target with one memory
    module at 0x1000, on a little-endian host *)

Definition module : Ram.t :=
  (Ram.MemoryModule 16 3) <| Ram.base := 4096 |>
    <| Ram.address := [1; 2; 3; 4; 5; 6; 7; 8; 0; 0; 0; 0; 0; 0; 0; 0] |>.
Definition machine : t (gmap Z Ram.t) :=
  (Mapper true false 8 {[ 1 := module ]}) <| ranges := [1] |>.

(** Two words from 0x1000 to 0x1008, one at a time, with the interrupt enabled. *)
Definition program : DMACConfig.t :=
  (DMACConfig.DMACConfig true false) <| DMACConfig.enabled := true |> <| DMACConfig.kicked := true |>
    <| DMACConfig.irq_en := true |> <| DMACConfig.dma_len := 2 |> <| DMACConfig.dma_src := 4096 |>
    <| DMACConfig.dma_dst := 4104 |>.
Definition controller : DMAC.t :=
  DMAC.Mk DMAC.IDLE DMAC.IDLE 4 (DMACConfig.MkQuery 0 0 0 false false) 0 0 1 [0; 0; 0; 0] false
    (DeviceInt.Mk DeviceInt.IRQ5 0).

Lemma machine_ok : ram_ok false machine.
Proof.
  split; [split| |done].
  - intros r ->%list_elem_of_singleton. repeat split; vm_compute; congruence.
  - intros i j r r' [-> <-]%list_lookup_singleton_Some [-> <-]%list_lookup_singleton_Some. done.
  - done.
  - intros r ->%list_elem_of_singleton. eexists. split; [reflexivity|].
    split; try reflexivity. repeat constructor; lia.
Qed.

Lemma demo_byte o : 0 ≤ o < 16 → is_Some (phys_byte false machine (4096 + o)).
Proof.
  intros Ho. destruct (module_place false machine 1 4096 machine_ok eq_refl) as (x & Hx & _ & _ & _ & _ & _ & Hall).
  assert (x = module) as -> by (vm_compute in Hx; injection Hx as <-; reflexivity).
  change (Z.of_nat (length (Ram.address module))) with 16 in Hall. change (Ram.base module) with 4096 in Hall.
  rewrite (phys_byte_at false machine 1 module); [|apply Hall; lia|done].
  apply nthz_is_Some. change (Z.of_nat (length (Ram.address module))) with 16.
  change (Ram.base module) with 4096. lia.
Qed.

Lemma dma_copies_memory_witness : ∃ cycles m' d' now',
  run (H := port false) (H0 := pair_config) 9 cycles 100 (DMAC.MkSys _ controller (machine, program)) =
    Some (now', DMAC.MkSys _ d' (m', finished program)) ∧
  phys_byte false m' 4107 = Some 4 ∧ phys_byte false m' 4099 = Some 4 ∧
  nz (Z.land DeviceInt.IRQ5 (DeviceInt.lines_asserted (DMAC.lines d'))) = true.
Proof.
  destruct (dma_copies_memory false 9 100 machine controller program)
    as (cycles & m' & d' & now' & E & _ & _ & _ & _ & Hb & Hi); try done.
  - split; try done; [exact machine_ok|]. intros a. unfold latency_at.
    destruct (Physical.range_at false machine a) as [r|] eqn:Hr; [|lia].
    apply find_range_Some in Hr as [->%list_elem_of_singleton _]. vm_compute. congruence.
  - intros o Ho. cbn in Ho. split; [|intros _]; cbn [DMACConfig.dma_dst DMACConfig.dma_src program].
    + replace (DMACConfig.dma_dst program + o) with (4096 + (8 + o)) by (cbn; lia). apply demo_byte. lia.
    + apply demo_byte. lia.
  - right. intros i j Hi Hj. cbn in *. lia.
  - exists cycles, m', d', now'. split; [exact E|]. split; [by rewrite (Hb 4107 0)|].
    split; [by rewrite (Hb 4099 4)|]. by apply Hi.
Defined.
