(* ===== verification/CacheMem.v ===== *)
(** * CacheMem: the fill of a block from the memory of the machine

    The mapper over memory modules serves the transfers of the cache (CacheFill.v), whatever
    the latencies: the words are those of the memory, and the cache waits for each. *)

From S2P Require Import Prelude Effects Types Bus Range Mapper Physical Cache CacheFill DMACopy DMAMem.
Import Cache Mapper.

Section CacheMem.
  (** [machine->host_bigendian] *)
  Variable host : bool.
#[local] Existing Instance Physical.ops.
#[local] Instance mapper_port : MemPort (t (gmap Z Ram.t)) := mem_port (H := ops host).
  Notation mapper := (t (gmap Z Ram.t)).
  Implicit Types (m : mapper) (v : view).

(** A block of [ws] words at [a] that the master [me] reads, at most [L] cycles after it asked. *)
Context (me : Z) (ws a mode L : Z) (big : bool) (lat : Z → Z) (w : Z → Z).
Context (Hws : 0 ≤ ws) (Ha : ∀ i, 0 ≤ i < ws → 0 ≤ a + 4 * i < 2 ^ 32).
Context (Hlat : ∀ i, 0 ≤ i < ws → lat (a + 4 * i) ≤ L) (HL : 0 ≤ L) (Hbound : L + ws < 2 ^ 32).

Record block_view (words : Z → option Z) m v : Prop := {
  bv_sees : sees host big me lat m v;
  bv_words : ∀ x, v_word v x = words x;
  bv_holder : v_holder v = Some me
}.
Context (words : Z → option Z) (Hw : ∀ i, 0 ≤ i < ws → words (a + 4 * i) = Some (w i)).

(** The words from the [k]-th on were asked for [d] cycles ago; [n] of the [L] cycles that the
    cache may wait are left. *)
Definition asked (now k : Z) (n : nat) m : Prop := ∃ v t d, block_view words m v ∧
  now = u32 (t + d) ∧ 0 ≤ d ≤ k + (L - Z.of_nat n) ∧ L ≤ Z.of_nat n + d ∧ Z.of_nat n ≤ L ∧
  ∀ i, k ≤ i < ws → v_asked v (a + 4 * i) mode = Some t.
Definition before (now k : Z) (n : nat) m : Prop := asked now k n m ∨
  k = 0 ∧ Z.of_nat n = L ∧ is_u32 now ∧ ∃ v, block_view words m v ∧
    ∀ i, 0 ≤ i < ws → v_asked v (a + 4 * i) mode = None.
Definition freed m : Prop := ∃ v, sees host big me lat m v ∧ (∀ x, v_word v x = words x) ∧ v_holder v = None.

Lemma requests now l : ∀ m v, block_view words m v → (∀ i, i ∈ l → 0 ≤ i < ws) →
  ∃ m' v', for_each l (λ i, request_word now (u32 (a + 4 * i)) mode me) m = Some ((), m', []) ∧
    block_view words m' v' ∧ ∀ i, v_asked v' (a + 4 * i) mode =
      if bool_decide (i ∈ l) then Some (default now (v_asked v (a + 4 * i) mode)) else v_asked v (a + 4 * i) mode.
Proof.
  induction l as [|i l IH]; intros m v Hv Hl; cbn [for_each].
  { exists m, v. split; [done|]. split; [done|]. intros i. by rewrite bool_decide_false by apply not_elem_of_nil. }
  assert (Hi : 0 ≤ i < ws) by (apply Hl; by left). destruct Hv as [V1 V2 V3].
  destruct (request_sees host big me lat now (a + 4 * i) mode m v V1) as (m1 & E & Hm1).
  destruct (IH m1 (ask now (a + 4 * i) mode v)) as (m' & v' & E' & Hv' & Hask); [by split|intros; apply Hl; by right|].
  exists m', v'. split; [rewrite u32_small by (by apply Ha); by rewrite (bind_eq _ _ _ _ _ E)|].
  split; [done|]. intros j. rewrite Hask. cbn [ask v_asked]. rewrite Z.eqb_refl, andb_true_r.
  destruct (Z.eqb_spec (a + 4 * j) (a + 4 * i)) as [Eij|Nij].
  - assert (j = i) as -> by lia. rewrite (bool_decide_true (i ∈ i :: l)) by (by left).
    by destruct (bool_decide (i ∈ l)), (v_asked v (a + 4 * i) mode).
  - rewrite (bool_decide_ext (j ∈ i :: l) (j ∈ l)); [done|]. rewrite elem_of_cons. intuition congruence.
Qed.

Lemma visits_elapsed t d : 0 ≤ d < 2 ^ 32 → u32 (u32 (t + d) - t) = d.
Proof. intros Hd. rewrite u32_sub_l. replace (t + d - t) with d by lia. by apply u32_small. Qed.

Lemma block_serves : serves ws a mode me (byteswapped_of big host) w before asked freed.
Proof.
  split.
  - intros now n m Hb.
    destruct Hb as [(v & t & d & Hv & Ht & Hd & Hn & Hn' & Hask)|(_ & Hn & Hnow & v & Hv & Hask)];
      (destruct (requests now (seqZ 0 (Z.of_nat (Z.to_nat ws))) m v Hv) as (m' & v' & E & Hv' & Hask');
        [intros i Hi%elem_of_seqZ; lia|]; exists m'; split; [exact E|]).
    + exists v', t, d. split_and!; try done; try lia. intros i Hi. rewrite Hask', bool_decide_true by (apply elem_of_seqZ; lia).
      by rewrite Hask.
    + exists v', now, 0. rewrite Z.add_0_r. split_and!; try done; try lia; [symmetry; by apply u32_small|].
      intros i Hi. rewrite Hask', bool_decide_true by (apply elem_of_seqZ; lia). by rewrite Hask.
  - intros now k n m Hk [Hb|(-> & _)]; [done|lia].
  - intros now k n m Hk (v & t & d & [V1 V2 V3] & -> & Hd & Hn & Hn' & Hask).
    rewrite (u32_small (a + 4 * k)) by (by apply Ha).
    assert (Hwk : v_word v (a + 4 * k) = Some (w k)) by (rewrite V2; by apply Hw).
    assert (Htk : v_asked v (a + 4 * k) mode = Some t) by (apply Hask; lia).
    destruct (ready_sees host big me lat (u32 (t + d)) (a + 4 * k) mode t m v V1 ltac:(by eexists) Htk) as (r & E & Hr).
    rewrite visits_elapsed in E by lia. eexists _, _. split; [exact E|].
    assert (V1' := sees_last host big me lat r (a + 4 * k) m v V1 Hr).
    assert (Hnext : u32 (u32 (t + d) + 1) = u32 (t + (d + 1))) by (rewrite u32_add_l; f_equal; lia).
    destruct (Z.leb_spec (lat (a + 4 * k)) d) as [Hl|Hl].
    + destruct (fetch_sees host big me lat (u32 (t + d)) (a + 4 * k) mode t (w k) _ v V1' Hwk Htk) as (m' & E' & Hm');
        [rewrite visits_elapsed; lia|].
      exists m'. split; [exact E'|]. split.
      { change (mem_byteswapped m') with (byteswapped m'). rewrite (ram_order host m' (se_ok _ _ _ _ _ _ Hm')).
        by rewrite (se_big _ _ _ _ _ _ Hm'). }
      left. exists (served (a + 4 * k) mode v), t, (d + 1). split_and!; try done; try lia.
      intros i Hi. cbn. destruct (Z.eqb_spec (a + 4 * i) (a + 4 * k)); [lia|]. cbn. apply Hask. lia.
    + pose proof (Hlat k Hk). destruct n as [|n]; [lia|]. exists n. split; [done|]. left.
      exists v, t, (d + 1). split_and!; try done; lia.
  - intros now n m Hb.
    assert (Hv : ∃ v, block_view words m v) by (destruct Hb as [(v & _ & _ & Hv & _)|(_ & _ & _ & v & Hv & _)]; by exists v).
    destruct Hv as (v & [V1 V2 V3]). destruct (release_sees host big me lat now m v V1) as (m' & E & Hm').
    rewrite V3, bool_decide_true in Hm' by done. exists m'. split; [exact E|]. by eexists.
Qed.

End CacheMem.

(** C16 the fill of a block: from a pending miss, with the bus granted to the client of the
    access and the block's words not asked for yet, the visits of [cache_fetch], one in each
    cycle, load the block from the memory and end the transfer, whatever the latencies: the
    cache waits while a word is not ready, at most [L] cycles in all if no word takes longer,
    and needs one visit for each word. The address then hits in the chosen way, no other way
    is touched, and the bus is free. Each word of the block is the memory's word, converted
    once more by [host_to_mips_word], and the memory keeps its words. *)
Theorem fill_block (host : bool) (c : Cache.t) (o : CacheOpState) (m : t (gmap Z Ram.t)) (addr now L : Z)
    (Hp : miss_pending c o addr) (Hok : ram_ok host m) (Hdb : debug_mode m = false)
    (Hbus : BusArbiter.bus_holder (bus_arbiter m) = Some (op_client o)) (Hnow : is_u32 now) :
  let base := addr / 2 ^ offset_len c * 2 ^ offset_len c in
  let mode := if op_mode o =? INSTFETCH then INSTFETCH else DATALOAD in
  ∀ (Hmap : ∀ i, 0 ≤ i < word_size c → is_Some (word_view host m (base + 4 * i)))
    (Hreq : ∀ i, 0 ≤ i < word_size c → access_requests_time m !! (base + 4 * i, mode, op_client o) = None)
    (Hlat : ∀ i, 0 ≤ i < word_size c → latency_at host m (base + 4 * i) ≤ L)
    (HL : 0 ≤ L) (Hbound : L + word_size c < 2 ^ 32),
  ∃ visits c' m', word_size c ≤ Z.of_nat visits ≤ word_size c + L ∧
    fetch_run (H := mapper_port host) visits now (Cache.MkSys _ c m) = Some ((), Cache.MkSys _ c' m', []) ∧ Cache.wf c' ∧
    Cache.ready addr c' = Some (true, c', []) ∧ hit c' addr = Some (op_way o) ∧ next_status c' = CACHE_IDLE ∧
    (∀ i, 0 ≤ i < word_size c → ∃ w, word_view host m (base + 4 * i) = Some w ∧
       word_in c' (base + 4 * i) = Some (host_to_mips_word (byteswapped m) w)) ∧
    (∀ w i, w ≠ op_way o ∨ i ≠ op_index o → block_at c' w i = block_at c w i) ∧
    BusArbiter.bus_holder (bus_arbiter m') = None ∧ ram_ok host m' ∧
    ∀ a w, word_view host m a = Some w → word_at host m' a w.
Proof.
  intros base mode Hmap Hreq Hlat HL Hbound.
  pose proof (block_in_word c addr (mp_wf _ _ _ Hp) (mp_u32 _ _ _ Hp) (mp_pow2 _ _ _ Hp)) as Hin. fold base in Hin.
  pose proof (mp_pow2 _ _ _ Hp) as Hp2.
  pose proof (wf_offset c (mp_wf _ _ _ Hp)) as [Hoff _].
  assert (Hpos : 0 < 2 ^ offset_len c) by (apply Z.pow_pos_nonneg; lia).
  set (w := λ i, default 0 (word_view host m (base + 4 * i))).
  assert (Hw : ∀ i, 0 ≤ i < word_size c → word_view host m (base + 4 * i) = Some (w i))
    by (intros i Hi; unfold w; by destruct (Hmap i Hi) as [x ->]).
  destruct (fill_runs (H := mapper_port host) c o m addr now (byteswapped_of (opt_bigendian m) host) w
      (before host (op_client o) (word_size c) base mode L (opt_bigendian m) (latency_at host m) (word_view host m))
      (asked host (op_client o) (word_size c) base mode L (opt_bigendian m) (latency_at host m) (word_view host m))
      (freed host (op_client o) (opt_bigendian m) (latency_at host m) (word_view host m)) (Z.to_nat L) Hp)
    as (visits & c' & m' & Hv & E & (v & Hs & Hvw & Hh) & Hwf & Hr & Hhit & Hwords & Hoth & Hst).
  - apply block_serves; try done; intros i Hi; lia.
  - right. split; [done|]. split; [lia|]. split; [done|]. eexists. split.
    + split; [by apply (master_sees_now host (op_client o))|done|done].
    + intros i Hi. by apply Hreq.
  - exists visits, c', m'. split; [lia|]. split; [done|]. split; [done|]. split; [done|]. split; [done|]. split; [done|]. split.
    { intros i Hi. exists (w i). split; [by apply Hw|]. rewrite (ram_order host m Hok). by apply Hwords. }
    split; [done|]. split; [rewrite (se_holder _ _ _ _ _ _ Hs); done|]. split; [apply Hs|].
    intros x y Hxy. apply (se_word _ _ _ _ _ _ Hs). by rewrite Hvw.
Qed.

(** A cache of two words to a block before the module at 0x1000 of the DMA's example, whose
    words take 11 cycles: the block at 0x1008 comes after some of them. *)
Lemma fill_block_witness :
  let m := DMAMem.machine <| bus_arbiter := BusArbiter.Mk 0 (Some 7) |> in
  let c := demo_hit <| cache_op_state := Live (MkOp 2 4100 1 0 DATALOAD false 7) |> in
  latency_at false m 4096 = 11 ∧
  ∃ visits c' m', fetch_run (H := mapper_port false) visits 100 (Cache.MkSys _ c m) = Some ((), Cache.MkSys _ c' m', []) ∧
    word_in c' 4100 = Some (host_to_mips_word true 0x05060708).
Proof.
  intros m c. split; [reflexivity|].
  assert (Hok : ram_ok false m).
  { destruct machine_ok as [[W1 W2 W3] R O]. by split; [split|..]. }
  assert (Hlt : ∀ i, 0 ≤ i < 2 → i = 0 ∨ i = 1) by (intros; lia).
  destruct (fill_block false c (MkOp 2 4100 1 0 DATALOAD false 7) m 4100 100 11)
    as (visits & c' & m' & _ & E & _ & _ & _ & _ & Hw & _); try reflexivity; try lia.
  - split; try reflexivity; [|vm_compute; split; congruence..].
    pose proof (demo_cache_wf false false 0 0 true false 1 0x11223344) as [H1 H2 H3 H4 H5 H6].
    split; assumption.
  - exact Hok.
  - split; lia.
  - intros i [-> | ->]%Hlt; eexists; vm_compute; reflexivity.
  - intros i [-> | ->]%Hlt; vm_compute; congruence.
  - exists visits, c', m'. split; [exact E|]. destruct (Hw 1) as (w & Ew & E1); [vm_compute; split; congruence|].
    vm_compute in Ew. injection Ew as <-. exact E1.
Defined.
