(* ===== verification/DBuf.v ===== *)
(** * DBuf: the double buffers of the accelerators (dbuf.h, dbuf.cc)

    The bus sees one of the two buffers, the core of the accelerator the other;
    [buf_switch] exchanges them. *)

From S2P Require Import Prelude Effects Types.

Module DoubleBuffer.

(** The two arrays are [uint32[size / 4]]; the narrow accesses of the core read the
    words as the host lays them out in memory. *)
Record t := Mk {
  base : Z;                    (* of Range *)
  read_count : Z;              (* int, of Range *)
  extent : Z;                  (* of Range: the size in bytes *)
  mask : Z;                    (* uint32 *)
  front : list Z;
  back : list Z;
  front_connected : bool       (* whether [address] points to [front] *)
}.
#[global] Instance eta : Eta t := λ b,
  Mk (base b) (read_count b) (extent b) (mask b) (front b) (back b) (front_connected b).

(** [DoubleBuffer::DoubleBuffer]: zeroed words; the words of [init_data], which must fit,
    are copied (twice) to the front. *)
Definition DoubleBuffer (size mask_ : Z) (init_data : list Z) : t :=
  let zeros := replicate (Z.to_nat (size / 4)) 0 in
  Mk 0 0 size mask_ (init_data ++ drop (length init_data) zeros) zeros true.

(** The buffer of the bus, [address], and the one of the core. *)
Definition outer (b : t) : list Z := if front_connected b then front b else back b.
Definition inner (b : t) : list Z := if front_connected b then back b else front b.
Definition set_outer (l : list Z) (b : t) : t :=
  if front_connected b then b <| front := l |> else b <| back := l |>.
Definition set_inner (l : list Z) (b : t) : t :=
  if front_connected b then b <| back := l |> else b <| front := l |>.

(** The bus: [fetch_word] is that of [Range]. *)
Definition fetch_word (offset mode client : Z) : M t Z :=
  modify (λ b, b <| read_count ::= λ n, s32 (n + 1) |>);;
  b ← gets id; from_option (nthz (outer b) (offset / 4)).
Definition store_word (offset data client : Z) : M t unit :=
  b ← gets id;
  l ← from_option (setz (outer b) (offset / 4) (Z.land data (mask b)));
  modify (set_outer l).

Definition buf_switch : M t unit := modify (λ b, b <| front_connected ::= negb |>).

(** The core.  The bound that is checked counts words against bytes. *)
Definition exceeds (offset : Z) (b : t) : bool := extent b <=? offset / 4.

Definition fetch_word_from_inner (offset : Z) : M t Z :=
  b ← gets id;
  if exceeds offset b then mret 0 else from_option (nthz (inner b) (offset / 4)).
Definition store_word_from_inner (offset data : Z) : M t unit :=
  b ← gets id;
  if exceeds offset b then mret () else
  l ← from_option (setz (inner b) (offset / 4) (Z.land data (mask b)));
  modify (set_inner l).

Section Host.
  (** [machine->host_bigendian] *)
  Variable host : bool.

(** The part of [n] bytes at byte [k] of a word, in the memory of the host. *)
Definition part_shift (n k : Z) : Z := 8 * (if host then 4 - n - k else k).
Definition part_of (n w k : Z) : Z := Z.land (Z.shiftr w (part_shift n k)) (Z.ones (8 * n)).
Definition set_part (n w k v : Z) : Z :=
  Z.lor (Z.land w (lnot32 (Z.shiftl (Z.ones (8 * n)) (part_shift n k)))) (Z.shiftl v (part_shift n k)).

Definition fetch_part (n offset : Z) : M t Z :=
  b ← gets id;
  if exceeds offset b then mret 0 else
  w ← from_option (nthz (inner b) (offset / 4)); mret (part_of n w (n * (offset / n) mod 4)).
Definition store_part (n offset data : Z) : M t unit :=
  b ← gets id;
  if exceeds offset b then mret () else
  w ← from_option (nthz (inner b) (offset / 4));
  l ← from_option (setz (inner b) (offset / 4)
        (set_part n w (n * (offset / n) mod 4) (wrap (8 * n) (Z.land data (mask b)))));
  modify (set_inner l).

Definition fetch_half_from_inner (offset : Z) : M t Z := fetch_part 2 offset.
Definition store_half_from_inner (offset data : Z) : M t unit := store_part 2 offset data.
Definition fetch_byte_from_inner (offset : Z) : M t Z := fetch_part 1 offset.
Definition store_byte_from_inner (offset data : Z) : M t unit := store_part 1 offset data.

End Host.

(** ** Properties *)

Record wf (b : t) : Prop := {
  wf_front : Z.of_nat (length (front b)) = extent b / 4;
  wf_back : Z.of_nat (length (back b)) = extent b / 4;
  wf_extent : extent b mod 4 = 0
}.

Lemma length_outer b : wf b → Z.of_nat (length (outer b)) = extent b / 4.
Proof. intros [? ? _]. unfold outer. by destruct (front_connected b). Qed.
Lemma length_inner b : wf b → Z.of_nat (length (inner b)) = extent b / 4.
Proof. intros [? ? _]. unfold inner. by destruct (front_connected b). Qed.

Lemma inner_set l b : inner (set_inner l b) = l ∧ outer (set_inner l b) = outer b.
Proof. unfold inner, outer, set_inner. by destruct b as [? ? ? ? ? ? []]. Qed.
Lemma outer_set l b : outer (set_outer l b) = l ∧ inner (set_outer l b) = inner b.
Proof. unfold inner, outer, set_outer. by destruct b as [? ? ? ? ? ? []]. Qed.

Definition switched (b : t) : t := b <| front_connected ::= negb |>.
Lemma switched_eq b : outer (switched b) = inner b ∧ inner (switched b) = outer b ∧
  switched (switched b) = b.
Proof. by destruct b as [? ? ? ? ? ? []]. Qed.

Lemma store_inner_eq b off d : wf b → 0 ≤ off < extent b →
  store_word_from_inner off d b =
    Some ((), set_inner (<[Z.to_nat (off / 4) := Z.land d (mask b)]> (inner b)) b, []).
Proof.
  intros Hwf Ho. unfold store_word_from_inner. rewrite gets_bind. unfold id, exceeds.
  pose proof (Z.div_mod off 4 ltac:(lia)). pose proof (Z.mod_pos_bound off 4 ltac:(lia)).
  destruct (Z.leb_spec (extent b) (off / 4)); [lia|].
  pose proof (wf_extent b Hwf). pose proof (Z.div_mod (extent b) 4 ltac:(lia)).
  rewrite setz_Some by (rewrite length_inner by done; lia). done.
Qed.

Lemma store_outer_eq b off d c : wf b → 0 ≤ off < extent b →
  store_word off d c b =
    Some ((), set_outer (<[Z.to_nat (off / 4) := Z.land d (mask b)]> (outer b)) b, []).
Proof.
  intros Hwf Ho. unfold store_word. rewrite gets_bind. unfold id.
  pose proof (Z.div_mod off 4 ltac:(lia)). pose proof (Z.mod_pos_bound off 4 ltac:(lia)).
  pose proof (wf_extent b Hwf). pose proof (Z.div_mod (extent b) 4 ltac:(lia)).
  rewrite setz_Some by (rewrite length_outer by done; lia). done.
Qed.

Lemma nthz_insert (l : list Z) off v : 0 ≤ off / 4 < Z.of_nat (length l) →
  nthz (<[Z.to_nat (off / 4) := v]> l) (off / 4) = Some v.
Proof.
  intros Ho. pose proof (setz_Some l (off / 4) v Ho) as E. by rewrite (nthz_setz _ _ _ _ _ E), Z.eqb_refl.
Qed.

(** C31 double buffering: what the core stores changes nothing the bus sees until
    the buffers are switched, and is read by the bus after it, cut to the mask; and
    the other way round; two switches are none.  A word access of the core beyond
    the buffer is ignored only from four times its size on: in between the
    program writes outside of its arrays. *)
Theorem double_buffering (b : t) (off d mode c : Z) (Hwf : wf b) (Ho : 0 ≤ off < extent b) :
  (∃ b1 b2, store_word_from_inner off d b = Some ((), b1, []) ∧ outer b1 = outer b ∧
     buf_switch b1 = Some ((), b2, []) ∧ inner b2 = outer b ∧
     ∃ b3, fetch_word off mode c b2 = Some (Z.land d (mask b), b3, [])) ∧
  (∃ b1 b2, store_word off d c b = Some ((), b1, []) ∧ inner b1 = inner b ∧
     buf_switch b1 = Some ((), b2, []) ∧ outer b2 = inner b ∧
     fetch_word_from_inner off b2 = Some (Z.land d (mask b), b2, [])) ∧
  (buf_switch;; buf_switch) b = Some ((), b, []) ∧
  (∀ o, extent b ≤ o < 4 * extent b → store_word_from_inner o d b = None ∧ fetch_word_from_inner o b = None) ∧
  (∀ o, 4 * extent b ≤ o → store_word_from_inner o d b = Some ((), b, []) ∧
     fetch_word_from_inner o b = Some (0, b, [])).
Proof.
  pose proof (wf_extent b Hwf). pose proof (Z.div_mod (extent b) 4 ltac:(lia)).
  pose proof (Z.div_mod off 4 ltac:(lia)). pose proof (Z.mod_pos_bound off 4 ltac:(lia)).
  split_and!.
  - set (l := <[Z.to_nat (off / 4) := Z.land d (mask b)]> (inner b)).
    exists (set_inner l b), (switched (set_inner l b)). rewrite store_inner_eq by done.
    destruct (inner_set l b) as [Ei Eo], (switched_eq (set_inner l b)) as (Es & Es' & _).
    split_and!; try done; [by rewrite Es'|]. eexists. unfold fetch_word.
    rewrite (bind_eq _ _ _ () (switched (set_inner l b) <| read_count ::= λ n, s32 (n + 1) |>)) by reflexivity.
    rewrite gets_bind. change (outer (id _)) with (outer (switched (set_inner l b))).
    rewrite Es, Ei. unfold l. rewrite nthz_insert by (rewrite length_inner by done; lia). reflexivity.
  - set (l := <[Z.to_nat (off / 4) := Z.land d (mask b)]> (outer b)).
    exists (set_outer l b), (switched (set_outer l b)). rewrite store_outer_eq by done.
    destruct (outer_set l b) as [Eo Ei], (switched_eq (set_outer l b)) as (Es & Es' & _).
    split_and!; try done; [by rewrite Es|]. unfold fetch_word_from_inner. rewrite gets_bind. unfold id, exceeds.
    replace (extent (switched (set_outer l b))) with (extent b) by (by destruct b as [? ? ? ? ? ? []]).
    destruct (Z.leb_spec (extent b) (off / 4)); [lia|].
    rewrite Es', Eo. unfold l. rewrite nthz_insert by (rewrite length_outer by done; lia). reflexivity.
  - change ((buf_switch;; buf_switch) b) with (Some ((), switched (switched b), [] ++ [] : list exc_event)).
    by rewrite (proj2 (proj2 (switched_eq b))).
  - intros o Hr. pose proof (Z.div_mod o 4 ltac:(lia)). pose proof (Z.mod_pos_bound o 4 ltac:(lia)).
    unfold store_word_from_inner, fetch_word_from_inner. rewrite !gets_bind. unfold id, exceeds.
    destruct (Z.leb_spec (extent b) (o / 4)); [lia|].
    rewrite (proj2 (nthz_None (inner b) (o / 4))) by (rewrite length_inner by done; lia).
    unfold setz. rewrite length_inner by done. rewrite (proj2 (Z.leb_le _ _)), orb_true_r by lia. done.
  - intros o Hr. pose proof (Z.div_mod o 4 ltac:(lia)). pose proof (Z.mod_pos_bound o 4 ltac:(lia)).
    unfold store_word_from_inner, fetch_word_from_inner. rewrite !gets_bind. unfold id, exceeds.
    destruct (Z.leb_spec (extent b) (o / 4)); [done|lia].
Qed.

Lemma double_buffering_witness : ∃ b1 b2,
  store_word_from_inner 8 0x1234567 (DoubleBuffer 16 0xffff []) = Some ((), b1, []) ∧
  outer b1 = [0; 0; 0; 0] ∧ buf_switch b1 = Some ((), b2, []) ∧ outer b2 = [0; 0; 0x4567; 0].
Proof.
  destruct (double_buffering (DoubleBuffer 16 0xffff []) 8 0x1234567 DATALOAD 0)
    as ((b1 & b2 & E1 & E2 & E3 & _) & _); [by split|done|].
  exists b1, b2. split; [exact E1|]. split; [exact E2|]. split; [exact E3|].
  injection E1 as <-. injection E3 as <-. reflexivity.
Defined.

End DoubleBuffer.
