(* ===== verification/Accel.v ===== *)
(** * Accel: the base of the accelerators (accelerator.h, accelerator.cc)

    An accelerator has a local bus with its memories, the registers of its network
    interface among them, and is reached through its router (or, as a
    [BusConAccelerator], through two windows on the system bus).  The network
    interface serves read and write messages, and sends blocks of the local memory
    to other nodes. *)

From S2P Require Import Prelude Effects Types Range Mapper Router.
Import RouterUtils.

(** ** The local bus *)
Module LocalMapper.

Record t {W : Type} := Mk {
  ranges : list Z;
  last_used_mapping : option Z;
  store : W                          (* the objects behind the ranges *)
}.
Arguments t : clear implicits.
#[global] Instance eta {W} : Eta (t W) := λ m, Mk W (ranges m) (last_used_mapping m) (store m).

Definition LocalMapper {W} (w : W) : t W := Mk W [] None w.

Section Ops.
  Context {W : Type} `{RangeOps W}.

(** [error] reports and returns. *)
Definition add_range (r : Z) : M (t W) Z :=
  w ← gets store; l ← gets ranges;
  if existsb (overlaps w r) l then mret (-1) else ranges <~ l ++ [r];; mret 0.

Definition map_at_local_address (r laddr : Z) : M (t W) Z :=
  zoom store (setBase r laddr);; add_range r.

Fixpoint find_range (w : W) (p : Z) (l : list Z) : option Z :=
  match l with
  | [] => None
  | i :: l => if incorporates w i p then Some i else find_range w p l
  end.

Definition find_mapping_range (laddr : Z) : M (t W) (option Z) :=
  last ← gets last_used_mapping; w ← gets store; l ← gets ranges;
  let search : M (t W) (option Z) :=
    match find_range w laddr l with
    | Some i => last_used_mapping <~ Some i;; mret (Some i)
    | None => mret None
    end in
  match last with
  | Some r => if incorporates w r laddr then mret (Some r) else search
  | None => search
  end.

(** The client is the null pointer. *)
Definition fetch_word (laddr : Z) : M (t W) Z :=
  l ← find_mapping_range laddr;
  match l with
  | Some l =>
      w ← gets store;
      zoom store (r_fetch_word l (u32 (laddr - getBase w l)) DATALOAD 0)
  | None => mret 0xffffffff
  end.
Definition store_word (laddr data : Z) : M (t W) unit :=
  l ← find_mapping_range laddr;
  match l with
  | Some l =>
      w ← gets store;
      zoom store (r_store_word l (u32 (laddr - getBase w l)) data 0)
  | None => mret ()
  end.

End Ops.
End LocalMapper.

(** ** The registers of the network interface *)
Module NetworkInterfaceConfig.

Definition DMA_KICK_OFFSET : Z := 0x000.
Definition DMA_DST_OFFSET : Z := 0x100.
Definition DMA_DST_MASK : Z := 0xFFFFFF.
Definition DMA_SRC_OFFSET : Z := 0x200.
Definition DMA_SRC_MASK : Z := 0x3FFFFF.
Definition DMA_LEN_OFFSET : Z := 0x300.
Definition DMA_LEN_MASK : Z := 0xF.
Definition VC_LIST_OFFSET : Z := 0x400.
Definition VC_NORMAL_MASK : Z := 0xE00.
Definition VC_NORMAL_LSB : Z := 9.
Definition VC_DMA_MASK : Z := 0x1C0.
Definition VC_DMA_LSB : Z := 6.
Definition VC_DMADONE_MASK : Z := 0x38.
Definition VC_DMADONE_LSB : Z := 3.
Definition VC_DONE_MASK : Z := 0x7.
Definition LOCAL_MEMA_MSB : Z := 22.
Definition LOCAL_MEMA_MASK : Z := 0x3FFFFF.

Record t := Mk {
  dma_dst : Z; dma_src : Z; dma_len : Z;                            (* uint32 *)
  vc_normal : Z; vc_dma : Z; vc_dmadone : Z; vc_done : Z;
  dmaKicked : bool; dma_en : bool
}.
#[global] Instance eta : Eta t := λ c,
  Mk (dma_dst c) (dma_src c) (dma_len c) (vc_normal c) (vc_dma c) (vc_dmadone c) (vc_done c)
     (dmaKicked c) (dma_en c).

Definition clear (c : t) : t := Mk 0 0 0 0 0 0 0 false (dma_en c).
Definition clearReg : M t unit := modify clear.
Definition NetworkInterfaceConfig (dma_en_ : bool) : t := Mk 0 0 0 0 0 0 0 false dma_en_.

Definition getDMADstAddr (c : t) : Z := Z.land (dma_dst c) LOCAL_MEMA_MASK.
Definition getDMADstID (c : t) : Z := Z.shiftr (dma_dst c) LOCAL_MEMA_MSB.
Definition isDMAKicked (c : t) : bool := dmaKicked c && dma_en c.
Definition clearDMAKicked : M t unit := dmaKicked <~ false.

Definition fetch_word (offset mode client : Z) : M t Z :=
  c ← gets id;
  mret (if offset =? DMA_KICK_OFFSET then 0
        else if offset =? DMA_DST_OFFSET then dma_dst c
        else if offset =? DMA_SRC_OFFSET then dma_src c
        else if offset =? DMA_LEN_OFFSET then dma_len c
        else if offset =? VC_LIST_OFFSET then
          Z.lor (Z.lor (Z.lor (Z.shiftl (vc_normal c) VC_NORMAL_LSB) (Z.shiftl (vc_dma c) VC_DMA_LSB))
            (Z.shiftl (vc_dmadone c) VC_DMADONE_LSB)) (vc_done c)
        else 0xffffffff).

Definition store_word (offset data client : Z) : M t unit :=
  if offset =? DMA_KICK_OFFSET then dmaKicked <~ true
  else if offset =? DMA_DST_OFFSET then dma_dst <~ Z.land data DMA_DST_MASK
  else if offset =? DMA_SRC_OFFSET then dma_src <~ Z.land data DMA_SRC_MASK
  else if offset =? DMA_LEN_OFFSET then dma_len <~ Z.land data DMA_LEN_MASK
  else if offset =? VC_LIST_OFFSET then
    vc_normal <~ Z.shiftr (Z.land data VC_NORMAL_MASK) VC_NORMAL_LSB;;
    vc_dma <~ Z.shiftr (Z.land data VC_DMA_MASK) VC_DMA_LSB;;
    vc_dmadone <~ Z.shiftr (Z.land data VC_DMADONE_MASK) VC_DMADONE_LSB;;
    vc_done <~ Z.land data VC_DONE_MASK
  else mret ().

End NetworkInterfaceConfig.

(** Where the registers of the network interface are among the objects behind the
    local bus. *)
Class HasNif (W : Type) := {
  nif_of : W → option NetworkInterfaceConfig.t;
  set_nif : NetworkInterfaceConfig.t → W → W
}.

(** ** The accelerator on the network *)
Module CubeAccelerator.
Import NetworkInterfaceConfig.

Definition DONE_NOTIF_ADDR : Z := 0x00000.
Definition DMAC_NOTIF_ADDR : Z := 0x00001.

Inductive cnif :=
  IDLE | ERROR | SR_HEAD | BR_HEAD | SR_DATA | BR_DATA | SW_DATA | BW_DATA
| DMA_HEAD | DMA_DATA | DMA_DONE | DONE.
#[global] Instance cnif_eq_dec : EqDecision cnif.
Proof. solve_decision. Defined.

Record t := Mk {
  iready : Z;                        (* the address of the array *)
  rtRx : Z;                          (* the slave *)
  rtTx : option Z;                   (* connectedSlave of the master *)
  node_ID : Z;                       (* int *)
  reg_mema : Z; reg_mtype : Z; reg_vch : Z; reg_src : Z; reg_dst : Z;     (* uint32 *)
  dcount : Z;                        (* int *)
  packetMaxSize : Z;                 (* int *)
  nif_state : cnif;
  nif_next_state : cnif;
  mem_bandwidth : Z;                 (* int *)
  remain_dma_len : Z;                (* int *)
  done_pending : bool;
  dma_after_done_en : bool
}.
#[global] Instance t_eta : Eta t := λ a,
  Mk (iready a) (rtRx a) (rtTx a) (node_ID a) (reg_mema a) (reg_mtype a) (reg_vch a) (reg_src a)
     (reg_dst a) (dcount a) (packetMaxSize a) (nif_state a) (nif_next_state a) (mem_bandwidth a)
     (remain_dma_len a) (done_pending a) (dma_after_done_en a).

(** The accelerator, its router, the ports it reaches, its local bus and the core,
    of the class that derives from this one. *)
Record sys {W C : Type} := MkSys {
  self : t;
  localRouter : Router.t;
  links : Links.t;
  localBus : LocalMapper.t W;
  core : C
}.
Arguments sys : clear implicits.
#[global] Instance sys_eta {W C} : Eta (sys W C) := λ s,
  MkSys W C (self s) (localRouter s) (links s) (localBus s) (core s).

Section Nif.
  Context {W C : Type} `{RangeOps W} `{HasNif W}.
  Notation M := (Effects.M (sys W C)).

Definition get {T} (p : t → T) : M T := gets (λ s, p (self s)).
Definition set {T} (p : t → T) {P : Setter p} (v : T) : M unit := zoom self (p <~ v).

Definition on_nif {A} (m : Effects.M NetworkInterfaceConfig.t A) : M A := λ s,
  match nif_of (LocalMapper.store (localBus s)) with
  | None => None
  | Some c =>
      match m c with
      | None => None
      | Some (a, c', e) =>
          Some (a, s <| localBus ::= λ l, l <| LocalMapper.store ::= set_nif c' |> |>, e)
      end
  end.
Definition nif_config : M NetworkInterfaceConfig.t := on_nif (gets id).

Definition haveData : M bool :=
  a ← get rtRx; zoom links (zoom_key Links.slaves a Links.haveData).
Definition getData : M FLIT_t :=
  a ← get rtRx; e ← zoom links (zoom_key Links.slaves a Links.getData); mret (flit e).
Definition slaveReady (vc : Z) : M bool := a ← get rtTx; zoom links (Links.slaveReady a vc).
Definition send (f : FLIT_t) (vc : Z) : M unit := a ← get rtTx; zoom links (Links.send a f vc).
Definition bus_fetch (a : Z) : M Z := zoom localBus (LocalMapper.fetch_word a).
Definition bus_store (a d : Z) : M unit := zoom localBus (LocalMapper.store_word a d).

(** The word of the block of the current message that [dcount] counts down to. *)
Definition block_word (base : Z) (a : t) : Z := u32 (base + (packetMaxSize a - dcount a) * 4).
(** The start of the next block of a DMA. *)
Definition dma_block (base : Z) (c : NetworkInterfaceConfig.t) (a : t) : Z :=
  u32 (base + u32 (packetMaxSize a * 4) * u32 (dma_len c - remain_dma_len a)).

Definition idle_step : M unit :=
  h ← haveData;
  when h
    (f ← getData;
     when (is_head f)
       (let '(mema, mtype, vch_, src, dst) := decode_headflit f in
        set reg_mema mema;; set reg_mtype mtype;; set reg_vch vch_;; set reg_src src;; set reg_dst dst;;
        n ← get packetMaxSize;
        if mtype =? MTYPE_SW then set nif_next_state SW_DATA
        else if mtype =? MTYPE_BW then set dcount n;; set nif_next_state BW_DATA
        else if mtype =? MTYPE_SR then set nif_next_state SR_HEAD
        else if mtype =? MTYPE_BR then set dcount n;; set nif_next_state BR_HEAD
        else mret ())).

(** Send a head flit on channel [vc] when the router is ready for it. *)
Definition send_head (vc : NetworkInterfaceConfig.t → Z) (f : NetworkInterfaceConfig.t → t → FLIT_t)
    (k : M unit) : M unit :=
  c ← nif_config;
  ok ← slaveReady (vc c);
  when ok (a ← gets self; send (f c a) (vc c);; k).

Definition reply_head (block : bool) : M unit :=
  send_head vc_normal
    (λ c a, make_head_flit (reg_mema a) (if block then MTYPE_BW else MTYPE_SW) (vc_normal c)
              (reg_dst a) (reg_src a) false)
    (set nif_next_state (if block then BR_DATA else SR_DATA)).

Definition reply_word : M unit :=
  a ← get reg_mema; w ← bus_fetch a;
  c ← nif_config; send (make_data_flit w true) (vc_normal c);;
  set nif_next_state IDLE.

(** The words of a block, from [base], on channel [vc], up to [n] of them in a cycle;
    [last] follows the last one. *)
Fixpoint send_block (base : NetworkInterfaceConfig.t → t → Z) (vc : NetworkInterfaceConfig.t → Z)
    (last : M unit) (n : nat) : M unit :=
  match n with
  | O => mret ()
  | S n =>
      a ← gets self;
      c ← nif_config;
      set dcount (dcount a - 1);;
      w ← bus_fetch (block_word (base c a) a);
      c ← nif_config;
      send (make_data_flit w (dcount a - 1 =? 0)) (vc c);;
      if dcount a - 1 =? 0 then last else send_block base vc last n
  end.

Definition reply_block : nat → M unit :=
  send_block (λ _ a, reg_mema a) vc_normal (set nif_next_state IDLE).

(** A message was written: a DMA may have been kicked. *)
Definition written : M unit :=
  c ← nif_config;
  if isDMAKicked c && (0 <? dma_len c)
  then set nif_next_state DMA_HEAD;; set remain_dma_len (s32 (dma_len c))
  else set nif_next_state IDLE.

Definition write_word : M unit :=
  h ← haveData;
  when h (f ← getData; a ← get reg_mema; bus_store a (data f);; written).

Fixpoint write_block (n : nat) : M unit :=
  match n with
  | O => mret ()
  | S n =>
      h ← haveData;
      if (h : bool) then
        f ← getData;
        a ← gets self;
        bus_store (block_word (reg_mema a) a) (data f);;
        set dcount (dcount a - 1);;
        if dcount a - 1 =? 0 then written else write_block n
      else write_block n
  end.

Definition dma_head : M unit :=
  send_head vc_dma
    (λ c a, make_head_flit (dma_block (getDMADstAddr c) c a) MTYPE_BW (vc_dma c) (reg_dst a)
              (getDMADstID c) false)
    (set nif_next_state DMA_DATA;; n ← get packetMaxSize; set dcount n).

Definition dma_data : nat → M unit :=
  send_block (λ c a, dma_block (dma_src c) c a) vc_dma
    (a ← gets self;
     set remain_dma_len (remain_dma_len a - 1);;
     if remain_dma_len a - 1 =? 0 then set nif_next_state DMA_DONE;; on_nif clearDMAKicked
     else set nif_next_state DMA_HEAD).

Definition dma_done : M unit :=
  send_head vc_dmadone
    (λ c a, make_head_flit DMAC_NOTIF_ADDR MTYPE_DONE (vc_dmadone c) (reg_dst a) (reg_src a) true)
    (set nif_next_state IDLE).

Definition done : M unit :=
  send_head vc_done
    (λ c a, make_head_flit DONE_NOTIF_ADDR MTYPE_DONE (vc_done c) (u32 (node_ID a)) 0 true)
    (c ← nif_config;
     after ← get dma_after_done_en;
     (if after && (0 <? dma_len c)
      then set nif_next_state DMA_HEAD;; set remain_dma_len (s32 (dma_len c))
      else set nif_next_state IDLE);;
     set done_pending false;;
     set dma_after_done_en false).

Definition nif_step : M unit :=
  a ← gets self;
  let bw := Z.to_nat (mem_bandwidth a) in
  if bool_decide (nif_state a = ERROR) then mret () else
  (match nif_state a with
   | IDLE => idle_step
   | SR_HEAD => reply_head false
   | BR_HEAD => reply_head true
   | SR_DATA => reply_word
   | BR_DATA => reply_block bw
   | SW_DATA => write_word
   | BW_DATA => write_block bw
   | DMA_HEAD => dma_head
   | DMA_DATA => dma_data bw
   | DMA_DONE => dma_done
   | DONE => done
   | ERROR => mret ()
   end);;
  next ← get nif_next_state;
  zoom links (zoom_key Links.rdy (iready a) (id <~ replicate VCH_SIZE (bool_decide (next = IDLE))));;
  pending ← get done_pending;
  when (bool_decide (next = IDLE) && pending) (set nif_next_state DONE);;
  next ← get nif_next_state;
  set nif_state next.

Definition done_signal (dma_enable : bool) : M unit :=
  set done_pending true;; set dma_after_done_en dma_enable.

(** The router shares the ports with the accelerator. *)
Definition on_router {A} (m : Effects.M Router.sys A) : M A := λ s,
  match m (Router.MkSys (localRouter s) (links s)) with
  | None => None
  | Some (a, Router.MkSys r l, e) => Some (a, s <| localRouter := r |> <| links := l |>, e)
  end.

(** [machine->num_cycles] and the pure virtual methods of [AcceleratorBase]. *)
Section Core.
  Variable now : Z.
  Variables core_step core_reset : M unit.

Definition step : M unit :=
  bw ← get mem_bandwidth;
  for_range 0 (Z.to_nat bw) (λ _, on_router (Router.step now));;
  nif_step;;
  core_step.

Definition reset : M unit :=
  a ← get iready;
  zoom links (zoom_key Links.rdy a (id <~ replicate VCH_SIZE false));;
  on_router (Router.reset now);;
  core_reset;;
  set nif_state IDLE;; set nif_next_state IDLE;;
  on_nif clearReg;;
  set done_pending false;;
  set dma_after_done_en false.

End Core.

(** [CubeAccelerator::CubeAccelerator].  The ready array and the receiver take the
    address [b], the router those from [a] on; [raw] and the other raw values are the
    memory of the new objects, [config] is the range of the registers. *)
Definition build (vcbufsize dcachebsize mem_bandwidth_ : Z) (raw : t) (raw_ic : Z → InputChannel.t)
    (raw_oc : Z → OutputChannel.t) (raw_rdy raw_iready : list bool) (a b : Z)
    (upperRouter : option Router.t) (node_ID_ : Z) (l : Links.t) : t * Router.t * option Router.t * Links.t :=
  let l1 := Links.Mk (<[b := Links.MkSlave (Some b) []]> (Links.slaves l)) (<[b := raw_iready]> (Links.rdy l)) in
  let '(r, upper, l2) :=
    Router.Router vcbufsize dcachebsize raw_ic raw_oc raw_rdy a b upperRouter (s32 node_ID_) l1 in
  (raw <| iready := b |> <| rtRx := b |> <| rtTx := Some (Router.fromLocal r) |>
       <| node_ID := s32 node_ID_ |> <| nif_state := IDLE |> <| nif_next_state := IDLE |>
       <| packetMaxSize := dcachebsize `quot` 4 |> <| mem_bandwidth := mem_bandwidth_ |>,
   r, upper, l2).
Definition setup_config (config config_addr_base : Z) (dmac_en : bool) : Effects.M (LocalMapper.t W) Z :=
  modify (λ l, l <| LocalMapper.store ::= set_nif (NetworkInterfaceConfig dmac_en) |>);;
  LocalMapper.map_at_local_address config config_addr_base.

End Nif.
End CubeAccelerator.

(** ** The accelerator on the system bus *)

(** [SysBusInterface]: a window of the system bus on the local bus; only words pass. *)
Module SysBusInterface.
Section Window.
  Context {W : Type} `{RangeOps W}.

Definition fetch_word (offset mode client : Z) : M (LocalMapper.t W) Z := LocalMapper.fetch_word offset.
Definition fetch_halfword (offset client : Z) : M (LocalMapper.t W) Z := mret 0.
Definition fetch_byte (offset client : Z) : M (LocalMapper.t W) Z := mret 0.
Definition store_word (offset data client : Z) : M (LocalMapper.t W) unit :=
  LocalMapper.store_word offset data.
Definition store_halfword (offset data client : Z) : M (LocalMapper.t W) unit := mret ().
Definition store_byte (offset data client : Z) : M (LocalMapper.t W) unit := mret ().

End Window.
End SysBusInterface.

(** [BusConAccelerator]: the two windows of an accelerator are put on the system bus,
    the uncached one at [kseg1_addr]; a cycle is one of the core. *)
Module BusConAccelerator.
Section OnBus.
  Context {B : Type} `{RangeOps B} {S : Type}.
  Variables core_step core_reset : M S unit.

Definition step : M S unit := core_step.
Definition reset : M S unit := core_reset.
Definition connect_to_bus (if_single if_burst kseg0_addr kseg1_addr : Z) : M (Mapper.t B) unit :=
  Mapper.map_at_physical_address if_single (u32 kseg1_addr);;
  Mapper.map_at_physical_address if_burst (u32 kseg0_addr);;
  mret ().

End OnBus.
End BusConAccelerator.
