(* ===== verification/RemoteRam.v ===== *)
(** * RemoteRam: a memory on the network (remoteram.h, remoteram.cc)

    The simplest accelerator: its local bus has the registers of the network
    interface and a memory module, its core does nothing. *)

From S2P Require Import Prelude Effects Types Range Router Accel.
Import NetworkInterfaceConfig.

Module RemoteRam.

(** The objects behind the local bus. *)
Record store := Mk {
  nic_base : Z;                        (* of the Range of nif_config *)
  nic : NetworkInterfaceConfig.t;
  mem : Ram.t
}.
#[global] Instance eta : Eta store := λ w, Mk (nic_base w) (nic w) (mem w).

(** The two ranges. *)
Definition NIC : Z := 0.
Definition MEM : Z := 1.
Definition NIF_CONFIG_BASE : Z := 0x04100.
Definition NIF_CONFIG_SIZE : Z := 0x900.

Section Host.
  (** [machine->host_bigendian] *)
  Variable host : bool.

(** [NetworkInterfaceConfig] has words only: the narrow accesses of [Range] go through
    its null [address]. *)
#[local] Instance ops : RangeOps store := {|
  getBase w r := if r =? NIC then nic_base w else Ram.base (mem w);
  getExtent w r := if r =? NIC then NIF_CONFIG_SIZE else Ram.extent (mem w);
  setBase r a := if r =? NIC then nic_base <~ a else zoom mem (Ram.base <~ a);
  canRead w r o := if r =? NIC then true else Ram.can_read (mem w) o;
  canWrite w r o := if r =? NIC then true else Ram.can_write (mem w) o;
  r_fetch_word r o mode cl :=
    if r =? NIC then zoom nic (NetworkInterfaceConfig.fetch_word o mode cl)
    else zoom mem (Ram.fetch_word host o mode cl);
  r_fetch_halfword r o cl := if r =? NIC then crash else zoom mem (Ram.fetch_halfword host o cl);
  r_fetch_byte r o cl := if r =? NIC then crash else zoom mem (Ram.fetch_byte o cl);
  r_store_word r o d cl :=
    if r =? NIC then zoom nic (NetworkInterfaceConfig.store_word o d cl)
    else zoom mem (Ram.store_word host o d cl);
  r_store_halfword r o d cl := if r =? NIC then crash else zoom mem (Ram.store_halfword host o d cl);
  r_store_byte r o d cl := if r =? NIC then crash else zoom mem (Ram.store_byte o d cl);
  r_ready r a mode cl := mret true;
  r_extra_latency w r := if r =? NIC then 0 else Ram.extra_latency (mem w)
|}.
#[local] Instance has_nif : HasNif store := {| nif_of w := Some (nic w); set_nif c w := w <| nic := c |> |}.

(** [RemoteRam::RemoteRam] after [CubeAccelerator::CubeAccelerator], and [setup].
    The object of the registers is made by [setup_config]. *)
Definition RemoteRam (mem_size : Z) (raw : NetworkInterfaceConfig.t) : M (LocalMapper.t store) Z :=
  modify (λ _, LocalMapper.LocalMapper (Mk 0 raw (Ram.MemoryModule mem_size 0)));;
  CubeAccelerator.setup_config NIC NIF_CONFIG_BASE true.
Definition setup : M (LocalMapper.t store) Z := LocalMapper.map_at_local_address MEM 0.

Definition core_step : M (CubeAccelerator.sys store unit) unit := mret ().
Definition core_reset : M (CubeAccelerator.sys store unit) unit := mret ().

End Host.
End RemoteRam.
