(* ===== verification/SnaccModules.v ===== *)
(** * SnaccModules: the parts of the SNACC accelerator (snaccmodules.h,
      snaccmodules.cc, snaccAddressMap.h)

    Fixed point numbers, the arbiter of the shared buffer, the configuration registers
    and the unit that multiplies and adds. *)

From S2P Require Import Prelude Effects Types DBuf.

(** A loop over an array of objects, the field [p], whose [i]-th round changes the
    [i]-th object only. *)
Section Loop.
  Context {S T : Type} (p : S → list T) {P : Setter p}.
  Hypothesis (set_get : ∀ s, P (λ _, p s) s = s).

Lemma for_range_nth (f : Z → M S unit) (g : Z → T → T) s :
  (∀ i x l, p s !! i = Some x → l !! i = Some x → length l = length (p s) →
     f (Z.of_nat i) (P (λ _, l) s) = Some ((), P (λ _, <[i := g (Z.of_nat i) x]> l) s, [])) →
  for_range 0 (length (p s)) f s = Some ((), P (λ _, imap (λ i, g (Z.of_nat i)) (p s)) s, []).
Proof.
  intros Hf. unfold for_range.
  enough (Hgen : ∀ rest old, p s = old ++ rest →
    for_each (seqZ (Z.of_nat (length old)) (Z.of_nat (length rest))) f
      (P (λ _, imap (λ i, g (Z.of_nat i)) old ++ rest) s) =
    Some ((), P (λ _, imap (λ i, g (Z.of_nat i)) (p s)) s, [])).
  { specialize (Hgen (p s) [] eq_refl). simpl in Hgen. by rewrite set_get in Hgen. }
  induction rest as [|x rest IH]; intros old E.
  { simpl. rewrite E, !app_nil_r. done. }
  cbn [length]. rewrite Nat2Z.inj_succ, seqZ_cons by lia. cbn [for_each].
  assert (Hl : length (imap (λ i, g (Z.of_nat i)) old) = length old) by apply length_imap.
  rewrite (bind_eq _ _ _ () (P (λ _, <[length old := g (Z.of_nat (length old)) x]>
    (imap (λ i, g (Z.of_nat i)) old ++ x :: rest)) s)).
  - rewrite Z.pred_succ. replace (Z.succ (Z.of_nat (length old))) with (Z.of_nat (length (old ++ [x])))
      by (rewrite length_app; simpl; lia).
    rewrite insert_app_r_alt, Hl, Nat.sub_diag by lia. cbn [list_insert insert].
    specialize (IH (old ++ [x])). rewrite imap_app in IH. simpl in IH.
    rewrite Nat.add_0_r, <- !app_assoc in IH. apply IH. by rewrite E.
  - apply Hf.
    + rewrite E, list_lookup_middle; done.
    + rewrite <- Hl, list_lookup_middle; done.
    + rewrite E, !length_app, Hl. done.
Qed.
End Loop.

(** ** Fixed point numbers *)
Module Fixed.

(** [Fixed16] is an [int16] with 12 bits after the point, [Fixed32] an [int32] with 24.
    Signed sums and shifts wrap. *)
Definition of_uint8 (num : Z) : Z := s16 (Z.shiftl num 8).
Definition of_uint16 (num : Z) : Z := s16 num.
Definition ToFixed32 (f : Z) : Z := Z.shiftr (s32 (Z.shiftl f 16)) 4.
Definition mul (lhs rhs : Z) : Z := s32 (lhs * rhs).
(** The sum of [int32]s is taken to wrap (C++ leaves an overflow undefined). *)
Definition add (lhs rhs : Z) : Z :=
  let result := s32 (lhs + rhs) in
  let result := if (0 <? lhs) && (0 <? rhs) && (result <? 0) then 0x7FFFFFFF else result in
  if (lhs <? 0) && (rhs <? 0) && (0 <? result) then s32 0x80000000 else result.

Definition SignedClipMostSignificant4Bits (before : Z) : Z :=
  if (Z.land before 0xF8000000 =? 0) || (Z.land before 0xF8000000 =? 0xF8000000)
  then u32 (Z.shiftl before 4)
  else if nz (Z.land before 0x80000000) then 0x80000000
  else 0x7FFFFFFF.
Definition FromRegisterFormat (prev : Z) : Z := Z.shiftr (s32 prev) 4.
Definition ToRegisterFormat (f : Z) : Z := SignedClipMostSignificant4Bits (u32 f).
Definition ToLutIndex (f : Z) : Z :=
  Z.shiftl (Z.shiftr (SignedClipMostSignificant4Bits (u32 f)) 22) 1.

(** *** Properties *)

Definition is_s (w z : Z) : Prop := - 2 ^ (w - 1) ≤ z < 2 ^ (w - 1).

(** The nearest number of 32 bits. *)
Definition clamp32 (z : Z) : Z := Z.max (- 2 ^ 31) (Z.min (2 ^ 31 - 1) z).

Lemma s32_id z : is_s 32 z → s32 z = z.
Proof.
  intros Hz. unfold is_s in Hz. destruct (Z.leb_spec 0 z); [apply s32_small; lia|].
  unfold s32, swrap, wrap.
  replace (Z.testbit z (32 - 1)) with true; [rewrite <- (Z_mod_plus_full z 1), Z.mod_small; lia|].
  symmetry. apply Z.testbit_true; [lia|].
  replace (z / 2 ^ (32 - 1)) with (-1); [done|]. apply Z.div_unique with (z + 2 ^ 31); lia.
Qed.

(** The sign does not matter for the value of the low bits. *)
Lemma s32_of_u32 z : s32 (u32 z) = s32 z.
Proof.
  unfold s32, swrap. replace (Z.testbit (u32 z) (32 - 1)) with (Z.testbit z (32 - 1));
    [by rewrite wrap_idem|]. rewrite u32_spec by lia. done.
Qed.

(** The sums of numbers of 32 bits, wrapped. *)
Lemma s32_sum z : - 2 ^ 32 ≤ z ≤ 2 ^ 32 - 2 →
  s32 z = if z <? - 2 ^ 31 then z + 2 ^ 32 else if 2 ^ 31 <=? z then z - 2 ^ 32 else z.
Proof.
  intros Hz.
  assert (Hs : ∀ k, s32 (z + k * 2 ^ 32) = s32 z).
  { intros k. unfold s32, swrap. change (32 - 1) with 31. unfold wrap. rewrite Z_mod_plus_full.
    replace (Z.testbit (z + k * 2 ^ 32) 31) with (Z.testbit z 31); [done|].
    rewrite <- (Z.mod_pow2_bits_low z 32 31), <- (Z.mod_pow2_bits_low (_ + _) 32 31) by lia.
    by rewrite Z_mod_plus_full. }
  destruct (Z.ltb_spec z (- 2 ^ 31)); [rewrite <- (Hs 1), s32_id; unfold is_s; lia|].
  destruct (Z.leb_spec (2 ^ 31) z); [rewrite <- (Hs (-1)), s32_id; unfold is_s; lia|].
  apply s32_id. unfold is_s; lia.
Qed.

Lemma add_eq a b : is_s 32 a → is_s 32 b →
  add a b = if (a =? - 2 ^ 31) && (b =? - 2 ^ 31) then 0 else clamp32 (a + b).
Proof.
  intros Ha Hb. unfold is_s in *. unfold add, clamp32. rewrite s32_sum by lia.
  change (s32 0x80000000) with (- 2 ^ 31).
  repeat (case_match; rewrite ?andb_true_iff, ?andb_false_iff, ?Z.ltb_lt, ?Z.ltb_ge, ?Z.leb_le,
    ?Z.leb_gt, ?Z.eqb_eq, ?Z.eqb_neq in * ); lia.
Qed.

Lemma add_range a b : is_s 32 (add a b).
Proof.
  unfold add. change (s32 0x80000000) with (- 2 ^ 31).
  pose proof (swrap_range 32 (a + b) ltac:(lia)) as Hr. unfold is_s, s32 in *. cbv zeta.
  destruct (_ && _ && (swrap 32 (a + b) <? 0)); destruct (_ && _); lia.
Qed.

(** The top bits of a word, by division. *)
Lemma top5 x : is_u32 x → Z.land x 0xF8000000 = x / 2 ^ 27 * 2 ^ 27.
Proof.
  intros Hx. rewrite <- Z.shiftr_div_pow2, <- Z.shiftl_mul_pow2 by lia. bitblast k.
Qed.
Lemma top1 x : is_u32 x → Z.land x 0x80000000 = x / 2 ^ 31 * 2 ^ 31.
Proof.
  intros Hx. rewrite <- Z.shiftr_div_pow2, <- Z.shiftl_mul_pow2 by lia. bitblast k.
Qed.

Lemma u32_signed f : is_s 32 f → u32 f = if f <? 0 then f + 2 ^ 32 else f.
Proof.
  intros Hf. unfold is_s, u32, wrap in *. destruct (Z.ltb_spec f 0).
  - rewrite <- (Z_mod_plus_full f 1), Z.mod_small; lia.
  - rewrite Z.mod_small; lia.
Qed.

Lemma clip_eq f : is_s 32 f → SignedClipMostSignificant4Bits (u32 f) = u32 (clamp32 (f * 16)).
Proof.
  intros Hf. pose proof (u32_range f) as Hu. unfold SignedClipMostSignificant4Bits, nz.
  rewrite top5, top1 by exact Hu. rewrite (u32_signed f Hf) in *. unfold is_s in Hf.
  set (x := if f <? 0 then f + 2 ^ 32 else f) in *.
  assert (Ex : x = f ∨ x = f + 2 ^ 32) by (subst x; case_match; lia).
  assert (Es : u32 (Z.shiftl x 4) = u32 (f * 16)).
  { rewrite Z.shiftl_mul_pow2 by lia. destruct Ex as [->| ->]; [done|].
    unfold u32, wrap. replace ((f + 2 ^ 32) * 2 ^ 4) with (f * 16 + 16 * 2 ^ 32) by ring.
    apply Z_mod_plus_full. }
  rewrite Es. unfold clamp32.
  pose proof (Z.div_mod x (2 ^ 27) ltac:(lia)). pose proof (Z.mod_pos_bound x (2 ^ 27) ltac:(lia)).
  pose proof (Z.div_mod x (2 ^ 31) ltac:(lia)). pose proof (Z.mod_pos_bound x (2 ^ 31) ltac:(lia)).
  destruct (Z.eqb_spec (x / 2 ^ 27 * 2 ^ 27) 0), (Z.eqb_spec (x / 2 ^ 27 * 2 ^ 27) 0xF8000000);
    cbn [orb]; [lia|f_equal; subst x; case_match; lia..|].
  destruct (Z.eqb_spec (x / 2 ^ 31 * 2 ^ 31) 0); cbn [negb].
  - replace (Z.max _ _) with (2 ^ 31 - 1); [done|]. subst x. destruct (Z.ltb_spec f 0); lia.
  - replace (Z.max _ _) with (- 2 ^ 31); [done|]. subst x. destruct (Z.ltb_spec f 0); lia.
Qed.

Lemma clip_range x : is_u32 (SignedClipMostSignificant4Bits x).
Proof.
  unfold SignedClipMostSignificant4Bits. destruct (_ || _); [apply u32_range|]. by destruct (nz _).
Qed.
Lemma ToLutIndex_range f : 0 ≤ ToLutIndex f < 2048 ∧ ToLutIndex f mod 2 = 0.
Proof.
  unfold ToLutIndex. rewrite Z.shiftl_mul_pow2, Z.shiftr_div_pow2 by lia. split; [|apply Z.mod_mul; lia].
  destruct (clip_range (u32 f)) as [H0 H1]. set (x := SignedClipMostSignificant4Bits (u32 f)) in *.
  pose proof (Z.div_lt_upper_bound x (2 ^ 22) 1024 ltac:(lia) ltac:(lia)).
  pose proof (Z.div_pos x (2 ^ 22) ltac:(lia) ltac:(lia)). lia.
Qed.

(** Fixed point numbers: the conversion to a register multiplies by 16 and keeps the
    nearest number of 32 bits; a register that is read and written back loses its low four
    bits only; sums are the nearest number too, but for the sum of the least number with
    itself, which is 0; products of two 16-bit numbers are exact; and the index into the
    table of 2048 bytes is within it and even. *)
Theorem fixed_point (f a b x y r : Z) (Hf : is_s 32 f) (Ha : is_s 32 a) (Hb : is_s 32 b)
    (Hx : is_s 16 x) (Hy : is_s 16 y) (Hr : is_u32 r) :
  s32 (ToRegisterFormat f) = clamp32 (f * 16) ∧
  ToRegisterFormat (FromRegisterFormat r) = Z.land r 0xFFFFFFF0 ∧
  add a b = (if (a =? - 2 ^ 31) && (b =? - 2 ^ 31) then 0 else clamp32 (a + b)) ∧
  mul x y = x * y ∧ ToFixed32 x = x * 2 ^ 12 ∧
  0 ≤ ToLutIndex f < 2048 ∧ ToLutIndex f mod 2 = 0.
Proof.
  refine (conj _ (conj _ (conj _ (conj _ (conj _ (conj _ _)))))).
  - unfold ToRegisterFormat. rewrite clip_eq, s32_of_u32 by done. apply s32_id.
    unfold clamp32, is_s in *. lia.
  - unfold ToRegisterFormat, FromRegisterFormat.
    pose proof (swrap_range 32 r ltac:(lia)) as Hs. fold (s32 r) in Hs.
    rewrite clip_eq; rewrite Z.shiftr_div_pow2 by lia;
      pose proof (Z.div_mod (s32 r) 16 ltac:(lia)); pose proof (Z.mod_pos_bound (s32 r) 16 ltac:(lia)).
    + replace (clamp32 _) with (Z.shiftl (Z.shiftr (s32 r) 4) 4)
        by (unfold clamp32; rewrite Z.shiftl_mul_pow2, Z.shiftr_div_pow2 by lia; change (2 ^ 4) with 16; lia).
      rewrite <- (wrap_small 32 r Hr) at 2. rewrite <- (wrap_swrap 32 r) by lia.
      change (swrap 32 r) with (s32 r). change (wrap 32 (s32 r)) with (u32 (s32 r)). bitblast k.
    + unfold is_s. change (2 ^ 4) with 16. lia.
  - by apply add_eq.
  - unfold mul. apply s32_id. unfold is_s in *. nia.
  - unfold ToFixed32. rewrite Z.shiftl_mul_pow2, s32_id, Z.shiftr_div_pow2 by (unfold is_s in *; lia).
    replace (x * 2 ^ 16) with (x * 2 ^ 12 * 2 ^ 4) by ring. by rewrite Z.div_mul.
  - apply ToLutIndex_range.
  - apply ToLutIndex_range.
Qed.

Lemma fixed_point_witness : ToRegisterFormat 0x12345678 = 0x7FFFFFFF ∧
  add 0x7FFFFFFF 1 = 0x7FFFFFFF ∧ add (- 2 ^ 31) (- 2 ^ 31) = 0.
Proof.
  destruct (fixed_point 0x12345678 0x7FFFFFFF 1 0 0 0) as (_ & _ & E & _); [done..|].
  destruct (fixed_point 0 (- 2 ^ 31) (- 2 ^ 31) 0 0 0) as (_ & _ & E' & _); [done..|].
  split; [reflexivity|]. split; [rewrite E; reflexivity|rewrite E'; reflexivity].
Defined.

End Fixed.

(** ** The memories of a core *)
Module CoreMem.

Record t := Mk {
  dmem_u : DoubleBuffer.t; dmem_l : DoubleBuffer.t;
  rbuf_u : DoubleBuffer.t; rbuf_l : DoubleBuffer.t;
  lut : DoubleBuffer.t; imem : DoubleBuffer.t
}.
#[global] Instance eta : Eta t := λ m,
  Mk (dmem_u m) (dmem_l m) (rbuf_u m) (rbuf_l m) (lut m) (imem m).

(** The six buffers by name, and an action of one of them. *)
Inductive name := DMEM_U | DMEM_L | RBUF_U | RBUF_L | LUT | IMEM.
#[global] Instance name_eq_dec : EqDecision name.
Proof. solve_decision. Defined.

Definition buf (k : name) (m : t) : DoubleBuffer.t :=
  match k with
  | DMEM_U => dmem_u m | DMEM_L => dmem_l m | RBUF_U => rbuf_u m
  | RBUF_L => rbuf_l m | LUT => lut m | IMEM => imem m
  end.
Definition set_buf (k : name) (b : DoubleBuffer.t) (m : t) : t :=
  match k with
  | DMEM_U => m <| dmem_u := b |> | DMEM_L => m <| dmem_l := b |> | RBUF_U => m <| rbuf_u := b |>
  | RBUF_L => m <| rbuf_l := b |> | LUT => m <| lut := b |> | IMEM => m <| imem := b |>
  end.
Definition on {A} (k : name) (act : M DoubleBuffer.t A) : M t A := λ m,
  match act (buf k m) with
  | None => None
  | Some (a, b, e) => Some (a, set_buf k b m, e)
  end.

Lemma set_buf_same k b m : buf k (set_buf k b m) = b.
Proof. by destruct k. Qed.
Lemma set_buf_other k k' b m : k' ≠ k → buf k' (set_buf k b m) = buf k' m.
Proof. by destruct k, k'. Qed.
Lemma set_buf_id k m : set_buf k (buf k m) m = m.
Proof. by destruct k, m. Qed.

(** An action that only looks. *)
Lemma on_look {A} k (act : M DoubleBuffer.t A) m a :
  act (buf k m) = Some (a, buf k m, []) → on k act m = Some (a, m, []).
Proof. intros E. unfold on. by rewrite E, set_buf_id. Qed.

End CoreMem.

(** ** The arbiter of the shared buffer *)
Module WbufArb.

Definition ARB_4CORE : Z := 0.
Definition ARB_2CORE : Z := 2.
Definition ARB_1CORE : Z := 1.
Definition WBUF_LOAD : Z := 0.
Definition WBUF_STORE : Z := 1.

Record t := Mk { core_size : Z; counter : Z (* uint8 *) }.
#[global] Instance eta : Eta t := λ a, Mk (core_size a) (counter a).

Definition WbufArb (core_size_ : Z) : t := Mk core_size_ 0.

Definition isAcquired (a : t) (core_id arb_mode access_mode : Z) : bool :=
  let load_acquire := nz (Z.land (counter a) 0x1) in
  if arb_mode =? ARB_1CORE then true
  else
    let core_acquire :=
      if arb_mode =? ARB_4CORE then core_id =? Z.land (Z.shiftr (counter a) 1) 0x3
      else if arb_mode =? ARB_2CORE then core_id =? Z.land (Z.shiftr (counter a) 1) 0x1
      else false in
    if access_mode =? WBUF_LOAD then core_acquire && load_acquire
    else if access_mode =? WBUF_STORE then core_acquire
    else false.
Definition step : M t unit := modify (λ a, a <| counter ::= λ c, u8 (c + 1) |>).

(** Except in the mode without arbitration, one core at a time has the buffer. *)
Lemma isAcquired_exclusive a i j mode acc acc' : mode ≠ ARB_1CORE →
  isAcquired a i mode acc = true → isAcquired a j mode acc' = true → i = j.
Proof.
  intros Hm. unfold isAcquired. rewrite (proj2 (Z.eqb_neq _ _) Hm). cbv zeta.
  assert (Hc : ∀ c l k, (if k =? WBUF_LOAD then c && l else if k =? WBUF_STORE then c else false) = true → c = true).
  { intros c l k. destruct (k =? WBUF_LOAD); [by intros [? _]%andb_true_iff|]. by destruct (k =? WBUF_STORE). }
  intros H1%Hc H2%Hc. destruct (mode =? ARB_4CORE); [|destruct (mode =? ARB_2CORE); [|done]];
    apply Z.eqb_eq in H1, H2; congruence.
Qed.

(** And every core of the mode has it, for loads and stores, once in [2 * n] cycles. *)
Definition after (k : nat) (a : t) : t := a <| counter := u8 (counter a + Z.of_nat k) |>.
Lemma after_step k a : step (after k a) = Some ((), after (S k) a, []).
Proof.
  unfold step, modify, after. do 3 f_equal. destruct a. cbn. f_equal. unfold u8, wrap.
  rewrite Z.add_mod_idemp_l by lia. f_equal. lia.
Qed.
Lemma after_after j k a : after j (after k a) = after (k + j) a.
Proof.
  unfold after. destruct a. cbn. f_equal. unfold u8, wrap. rewrite Z.add_mod_idemp_l by lia. f_equal. lia.
Qed.
Lemma isAcquired_after_0 a i mode acc : isAcquired (after 0 a) i mode acc = isAcquired a i mode acc.
Proof.
  unfold isAcquired, after. cbn [counter upd setter_of]. rewrite Z.add_0_r.
  assert (E1 : Z.land (u8 (counter a)) 1 = Z.land (counter a) 1) by bitblast j.
  assert (E2 : Z.land (Z.shiftr (u8 (counter a)) 1) 1 = Z.land (Z.shiftr (counter a) 1) 1) by bitblast j.
  assert (E3 : Z.land (Z.shiftr (u8 (counter a)) 1) 3 = Z.land (Z.shiftr (counter a) 1) 3) by bitblast j.
  by rewrite E1, E2, E3.
Qed.
Lemma isAcquired_fair a n mode i : (n = 4 ∧ mode = ARB_4CORE ∨ n = 2 ∧ mode = ARB_2CORE) → 0 ≤ i < n →
  ∃ k, (k < Z.to_nat (2 * n))%nat ∧ ∀ acc, acc = WBUF_LOAD ∨ acc = WBUF_STORE →
    isAcquired (after k a) i mode acc = true.
Proof.
  intros Hn Hi. set (k := (2 * i + 1 - counter a) mod (2 * n)).
  assert (Hk : 0 ≤ k < 2 * n) by (apply Z.mod_pos_bound; lia).
  exists (Z.to_nat k). split; [lia|]. unfold isAcquired, after. cbn [counter upd setter_of].
  rewrite Z2Nat.id by lia. set (c := u8 (counter a + k)).
  assert (Hc : c mod (2 * n) = 2 * i + 1).
  { unfold c, u8, wrap. rewrite <- Znumtheory.Zmod_div_mod; [|lia|lia|exists (256 / (2 * n)); destruct Hn as [[-> _]|[-> _]]; done].
    unfold k. rewrite Z.add_mod_idemp_r by lia.
    replace (counter a + (2 * i + 1 - counter a)) with (2 * i + 1) by ring. apply Z.mod_small. lia. }
  assert (Hl : nz (Z.land c 1) = true).
  { unfold nz. change 1 with (Z.ones 1). rewrite Z.land_ones by lia. change (2 ^ 1) with 2.
    apply negb_true_iff, Z.eqb_neq. destruct Hn as [[-> _]|[-> _]]; Z.to_euclidean_division_equations; lia. }
  rewrite Hl. intros acc Hacc.
  destruct Hn as [[-> ->]|[-> ->]]; cbn [Z.eqb ARB_1CORE ARB_4CORE ARB_2CORE Pos.eqb].
  - replace (i =? _) with true; [by destruct Hacc as [-> | ->]|]. symmetry. apply Z.eqb_eq.
    change 3 with (Z.ones 2). rewrite Z.land_ones, Z.shiftr_div_pow2 by lia. change (2 ^ 1) with 2.
    change (2 ^ 2) with 4. change (2 * 4) with 8 in Hc. Z.to_euclidean_division_equations. lia.
  - replace (i =? _) with true; [by destruct Hacc as [-> | ->]|]. symmetry. apply Z.eqb_eq.
    change 1 with (Z.ones 1) at 2. rewrite Z.land_ones, Z.shiftr_div_pow2 by lia. change (2 ^ 1) with 2.
    change (2 * 2) with 4 in Hc. Z.to_euclidean_division_equations. lia.
Qed.

End WbufArb.

(** ** The configuration registers *)
Module ConfRegCtrl.

Definition START_OFFSET : Z := 0x0000.
Definition DONE_OFFSET : Z := 0x0004.
Definition DONEMASK_OFFSET : Z := 0x0008.
Definition DONECLR_OFFSET : Z := 0x000C.
Definition DDBSEL_OFFSET : Z := 0x0010.
Definition WDBSEL_OFFSET : Z := 0x0014.
Definition IMUXSEL_OFFSET : Z := 0x0018.
Definition LMUXSEL_OFFSET : Z := 0x001C.
Definition RBMUXSEL_OFFSET : Z := 0x0020.
Definition DQUERY_OFFSET : Z := 0x0028.
Definition RBQUERY_OFFSET : Z := 0x002C.
Definition DSTAT_OFFSET : Z := 0x0030.
Definition RBSTAT_OFFSET : Z := 0x0034.
Definition DMADONE_CLR_OFFSET : Z := 0x0038.
Definition DMA_REQ_OFFSET : Z := 0x003C.
Definition DMAINFO_OFFSET : Z := 0x0040.
Definition DMAINFO_UPPER_OFFSET : Z := 0x0.
Definition DMAINFO_LOWER_OFFSET : Z := 0x4.
Definition STAT_SIZE : Z := 0x040.
Definition DMAINFO_SIZE : Z := 0x008.

Record dmainfo_t := MkInfo { upper : Z; lower : Z }.        (* uint32 *)

Record t := Mk {
  core_count : Z;                                           (* int, as all the others *)
  bitmap_mask : Z;
  start : Z; done : Z; donemask : Z;
  data_db_sel : Z; wbuf_db_sel : Z; inst_mux_sel : Z; lut_mux_sel : Z; rbuf_mux_sel : Z;
  data_query : Z; rbuf_query : Z; data_status : Z; rbuf_status : Z;
  dma_done_clear : Z; dma_request : Z;
  pending_clr : list bool;                                  (* bool[core_count] *)
  dma_info : list dmainfo_t                                 (* dmainfo_t[core_count] *)
}.
#[global] Instance eta : Eta t := λ c,
  Mk (core_count c) (bitmap_mask c) (start c) (done c) (donemask c) (data_db_sel c) (wbuf_db_sel c)
     (inst_mux_sel c) (lut_mux_sel c) (rbuf_mux_sel c) (data_query c) (rbuf_query c) (data_status c)
     (rbuf_status c) (dma_done_clear c) (dma_request c) (pending_clr c) (dma_info c).

(** The entries of [dma_info] are not initialised, and no store reaches them. *)
Definition ConfRegCtrl (core_count_ : Z) (raw_info : list dmainfo_t) : t :=
  Mk core_count_ (Z.shiftl 1 core_count_ - 1) 0 0 0 0 0 0 0 0 0 0 0 0 0 0
     (replicate (Z.to_nat core_count_) false) raw_info.

Definition getFlag (data idx : Z) : bool := nz (Z.land (Z.shiftr data idx) 0x1).
Definition isStart (c : t) (core_idx : Z) : bool := getFlag (start c) core_idx.
Definition isDoneClr (core_idx : Z) : M t bool := aget pending_clr core_idx.
Definition negateDoneClr (core_idx : Z) : M t unit :=
  aset pending_clr core_idx false;;
  modify (λ c, c <| done ::= λ d, Z.land d (Z.lnot (Z.shiftl 0x1 core_idx)) |>).
Definition setDone (core_idx : Z) : M t unit :=
  modify (λ c, c <| done ::= λ d, Z.lor d (Z.shiftl 0x1 core_idx) |>).

Definition fetch_info (dmainfo_offset : Z) : M t Z :=
  c ← gets id;
  if dmainfo_offset <? u32 (DMAINFO_SIZE * core_count c) then
    i ← aget dma_info (dmainfo_offset / DMAINFO_SIZE);
    mret (if dmainfo_offset mod DMAINFO_SIZE =? DMAINFO_UPPER_OFFSET then upper i
          else if dmainfo_offset mod DMAINFO_SIZE =? DMAINFO_LOWER_OFFSET then lower i
          else 0)
  else mret 0.

Definition fetch_word (offset mode client : Z) : M t Z :=
  if offset =? START_OFFSET then gets start
  else if offset =? DONE_OFFSET then gets done
  else if offset =? DONEMASK_OFFSET then gets donemask
  else if offset =? DONECLR_OFFSET then mret 0
  else if offset =? DDBSEL_OFFSET then gets data_db_sel
  else if offset =? WDBSEL_OFFSET then gets wbuf_db_sel
  else if offset =? IMUXSEL_OFFSET then gets inst_mux_sel
  else if offset =? LMUXSEL_OFFSET then gets lut_mux_sel
  else if offset =? RBMUXSEL_OFFSET then gets rbuf_mux_sel
  else if offset =? DQUERY_OFFSET then gets data_query
  else if offset =? RBQUERY_OFFSET then gets rbuf_query
  else if offset =? DSTAT_OFFSET then gets data_status
  else if offset =? RBSTAT_OFFSET then gets rbuf_status
  else if offset =? DMADONE_CLR_OFFSET then gets dma_done_clear
  else if offset =? DMA_REQ_OFFSET then gets dma_request
  else fetch_info (u32 (offset - DMAINFO_OFFSET)).

(** The registers with the buffers that they switch. *)
Record sys := MkSys {
  self : t;
  cores : list CoreMem.t;
  wbuf : DoubleBuffer.t
}.
#[global] Instance sys_eta : Eta sys := λ s, MkSys (self s) (cores s) (wbuf s).

(** [dbuf_switch (dbuf, bitmap)], [k] being the buffers of the cores it gets. *)
Definition dbuf_switch (k : CoreMem.name) (bitmap : Z) : M sys unit :=
  n ← gets (λ s, core_count (self s));
  for_range 0 (Z.to_nat n) (λ i,
    when (getFlag bitmap i) (zoom_nth cores i (CoreMem.on k DoubleBuffer.buf_switch))).

Definition store_word (offset data client : Z) : M sys unit :=
  c ← gets self;
  let wdata := Z.land data (u32 (bitmap_mask c)) in
  if offset =? START_OFFSET then zoom self (start <~ wdata)
  else if offset =? DONE_OFFSET then zoom self (done <~ wdata)
  else if offset =? DONEMASK_OFFSET then zoom self (donemask <~ wdata)
  else if offset =? DONECLR_OFFSET then
    for_range 0 (Z.to_nat (core_count c)) (λ i, zoom self (aset pending_clr i (getFlag wdata i)))
  else if offset =? DDBSEL_OFFSET then
    dbuf_switch CoreMem.DMEM_U (Z.lxor (data_db_sel c) wdata);;
    dbuf_switch CoreMem.DMEM_L (Z.lxor (data_db_sel c) wdata);;
    zoom self (data_db_sel <~ wdata)
  else if offset =? WDBSEL_OFFSET then
    when (nz (Z.lxor (wbuf_db_sel c) wdata)) (zoom wbuf DoubleBuffer.buf_switch);;
    zoom self (wbuf_db_sel <~ wdata)
  else if offset =? IMUXSEL_OFFSET then
    dbuf_switch CoreMem.IMEM (Z.lxor (inst_mux_sel c) wdata);; zoom self (inst_mux_sel <~ wdata)
  else if offset =? LMUXSEL_OFFSET then
    dbuf_switch CoreMem.LUT (Z.lxor (lut_mux_sel c) wdata);; zoom self (lut_mux_sel <~ wdata)
  else if offset =? RBMUXSEL_OFFSET then
    dbuf_switch CoreMem.RBUF_U (Z.lxor (rbuf_mux_sel c) wdata);;
    dbuf_switch CoreMem.RBUF_L (Z.lxor (rbuf_mux_sel c) wdata);;
    zoom self (rbuf_mux_sel <~ wdata)
  else if offset =? DSTAT_OFFSET then zoom self (data_status <~ wdata)
  else if offset =? RBSTAT_OFFSET then zoom self (rbuf_status <~ wdata)
  else if offset =? DMADONE_CLR_OFFSET then zoom self (dma_done_clear <~ wdata)
  else mret ().

(** *** Properties *)

(** The register that selects the buffers of a name. *)
Definition selector (k : CoreMem.name) (c : t) : Z :=
  match k with
  | CoreMem.DMEM_U | CoreMem.DMEM_L => data_db_sel c
  | CoreMem.RBUF_U | CoreMem.RBUF_L => rbuf_mux_sel c
  | CoreMem.LUT => lut_mux_sel c
  | CoreMem.IMEM => inst_mux_sel c
  end.

(** The bus has the front buffer of a core where the bit of the core is clear. *)
Record agrees (s : sys) : Prop := {
  agrees_cores : core_count (self s) = Z.of_nat (length (cores s));
  agrees_pending : length (pending_clr (self s)) = length (cores s);
  agrees_shows i m k : cores s !! i = Some m →
    DoubleBuffer.front_connected (CoreMem.buf k m) = negb (Z.testbit (selector k (self s)) (Z.of_nat i))
}.

Definition switch_where (k : CoreMem.name) (bitmap i : Z) (m : CoreMem.t) : CoreMem.t :=
  if Z.testbit bitmap i then CoreMem.set_buf k (DoubleBuffer.switched (CoreMem.buf k m)) m else m.

Lemma getFlag_eq d i : 0 ≤ i → getFlag d i = Z.testbit d i.
Proof.
  intros Hi. unfold getFlag, nz. change 1 with (Z.ones 1). rewrite Z.land_ones by lia.
  rewrite Z.shiftr_div_pow2 by done. change (2 ^ 1) with 2. rewrite <- Z.testbit_spec' by done.
  by destruct (Z.testbit d i).
Qed.

Lemma dbuf_switch_eq k bitmap s : core_count (self s) = Z.of_nat (length (cores s)) →
  dbuf_switch k bitmap s =
    Some ((), s <| cores := imap (λ i, switch_where k bitmap (Z.of_nat i)) (cores s) |>, []).
Proof.
  intros Hc. unfold dbuf_switch. rewrite gets_bind, Hc, Nat2Z.id.
  rewrite (for_range_nth cores) with (g := switch_where k bitmap); [done|by intros []|].
  intros i x l Hs Hl _. rewrite getFlag_eq by lia. unfold switch_where.
  destruct (Z.testbit bitmap (Z.of_nat i)); cbn [when].
  - unfold zoom_nth. destruct (Z.ltb_spec (Z.of_nat i) 0); [lia|]. rewrite Nat2Z.id.
    destruct s as [c' l' w']. cbn in Hs |- *. by rewrite Hl.
  - rewrite list_insert_id by done. done.
Qed.

Lemma shows_switch k k' bitmap i m :
  DoubleBuffer.front_connected (CoreMem.buf k' (switch_where k bitmap i m)) =
  xorb (DoubleBuffer.front_connected (CoreMem.buf k' m)) (bool_decide (k' = k) && Z.testbit bitmap i).
Proof.
  unfold switch_where. destruct (Z.testbit bitmap i); [|by rewrite andb_false_r, xorb_false_r].
  rewrite andb_true_r. case_bool_decide; subst.
  - rewrite CoreMem.set_buf_same, xorb_true_r. by destruct (CoreMem.buf k m).
  - by rewrite CoreMem.set_buf_other, xorb_false_r.
Qed.

(** The same words in the front and in the back buffer. *)
Definition same_words (b b' : DoubleBuffer.t) : Prop :=
  DoubleBuffer.front b' = DoubleBuffer.front b ∧ DoubleBuffer.back b' = DoubleBuffer.back b.

Lemma words_switch k k' bitmap i m :
  same_words (CoreMem.buf k' m) (CoreMem.buf k' (switch_where k bitmap i m)).
Proof.
  unfold switch_where. destruct (Z.testbit bitmap i); [|done].
  destruct (decide (k' = k)) as [->|]; [|by rewrite CoreMem.set_buf_other].
  rewrite CoreMem.set_buf_same. by destruct (CoreMem.buf k m).
Qed.
Lemma same_words_trans b1 b2 b3 : same_words b1 b2 → same_words b2 b3 → same_words b1 b3.
Proof. unfold same_words. intuition congruence. Qed.

(** The registers that a store sets to the masked data. *)
Definition settable : list Z :=
  [START_OFFSET; DONE_OFFSET; DONEMASK_OFFSET; DDBSEL_OFFSET; WDBSEL_OFFSET; IMUXSEL_OFFSET;
   LMUXSEL_OFFSET; RBMUXSEL_OFFSET; DSTAT_OFFSET; RBSTAT_OFFSET; DMADONE_CLR_OFFSET].

(** What a store does: it returns, keeps the agreement, moves no word, and the register
    reads as the masked data. *)
Definition stores (off data : Z) (s s' : sys) : Prop :=
  let wdata := Z.land data (u32 (bitmap_mask (self s))) in
  agrees s' ∧
  (∀ i m, cores s !! i = Some m → ∃ m', cores s' !! i = Some m' ∧
     ∀ k, same_words (CoreMem.buf k m) (CoreMem.buf k m')) ∧
  same_words (wbuf s) (wbuf s') ∧
  DoubleBuffer.front_connected (wbuf s') =
    xorb (DoubleBuffer.front_connected (wbuf s))
         ((off =? WDBSEL_OFFSET) && negb (wdata =? wbuf_db_sel (self s))) ∧
  (∀ mode cl, off ∈ settable → fetch_word off mode cl (self s') = Some (wdata, self s', [])).

(** A store that leaves the buffers alone. *)
Lemma stores_plain off data c c' l w :
  agrees (MkSys c l w) → off ≠ WDBSEL_OFFSET →
  core_count c' = core_count c → length (pending_clr c') = length (pending_clr c) →
  (∀ k, selector k c' = selector k c) →
  (off ∈ settable → ∀ mode cl, fetch_word off mode cl c' = Some (Z.land data (u32 (bitmap_mask c)), c', [])) →
  stores off data (MkSys c l w) (MkSys c' l w).
Proof.
  intros [Hc Hp Hs] Ho Hc' Hp' Hs' Hf. cbn in *. refine (conj _ (conj _ (conj _ (conj _ _)))); cbn.
  - split; cbn; [congruence..|]. intros i m k. rewrite Hs'. apply Hs.
  - intros i m Hm. exists m. done.
  - done.
  - by rewrite (proj2 (Z.eqb_neq off WDBSEL_OFFSET) Ho), xorb_false_r.
  - auto.
Qed.

(** A store that switches the buffers of some names by their selector. *)
Lemma stores_switch off data c c' (l l' : list CoreMem.t) w (ks : list CoreMem.name) :
  let wdata := Z.land data (u32 (bitmap_mask c)) in
  agrees (MkSys c l w) → off ≠ WDBSEL_OFFSET →
  core_count c' = core_count c → pending_clr c' = pending_clr c →
  l' = imap (λ i m, fold_right (λ k, switch_where k (Z.lxor (selector k c) wdata) (Z.of_nat i)) m ks) l →
  NoDup ks →
  (∀ k, selector k c' = if bool_decide (k ∈ ks) then wdata else selector k c) →
  (∀ mode cl, fetch_word off mode cl c' = Some (wdata, c', [])) →
  stores off data (MkSys c l w) (MkSys c' l' w).
Proof.
  intros wdata [Hc Hp Hs] Ho Hc' Hp' -> Hnd Hs' Hf. cbn in *.
  assert (Hw : ∀ i m k, same_words (CoreMem.buf k m)
    (CoreMem.buf k (fold_right (λ k, switch_where k (Z.lxor (selector k c) wdata) i) m ks))).
  { intros i m k. clear. induction ks as [|k' ks IH]; simpl; [done|].
    eapply same_words_trans; [apply IH|apply words_switch]. }
  assert (Hx : ∀ i m k, DoubleBuffer.front_connected (CoreMem.buf k
      (fold_right (λ k, switch_where k (Z.lxor (selector k c) wdata) i) m ks)) =
    xorb (DoubleBuffer.front_connected (CoreMem.buf k m))
      (bool_decide (k ∈ ks) && Z.testbit (Z.lxor (selector k c) wdata) i)).
  { intros i m k. clear - Hnd. induction Hnd as [|k' ks Hk _ IH]; simpl; [by rewrite xorb_false_r|].
    rewrite shows_switch, IH, xorb_assoc_reverse. f_equal. destruct (decide (k = k')) as [->|Hne].
    - rewrite (bool_decide_eq_false_2 (k' ∈ ks)), !bool_decide_eq_true_2 by (done || set_solver). done.
    - rewrite (bool_decide_eq_false_2 (k = k')), xorb_false_r by done. f_equal. apply bool_decide_ext. set_solver. }
  refine (conj _ (conj _ (conj _ (conj _ _)))); cbn.
  - split; cbn; [rewrite length_imap; congruence..|]. intros i m k.
    rewrite list_lookup_imap. intros (m0 & Hm & ->)%fmap_Some. rewrite Hx, (Hs _ _ _ Hm), Hs'.
    case_bool_decide; [rewrite Z.lxor_spec|]; by repeat destruct (Z.testbit _ _).
  - intros i m Hm. eexists. rewrite list_lookup_imap, Hm. split; [done|]. intros k. apply Hw.
  - done.
  - by rewrite (proj2 (Z.eqb_neq off WDBSEL_OFFSET) Ho), xorb_false_r.
  - auto.
Qed.

(** The loop that notes which cores are to be reset. *)
Lemma set_pending wdata s n : length (pending_clr (self s)) = n →
  ∃ p, length p = n ∧
    for_range 0 n (λ i, zoom self (aset pending_clr i (getFlag wdata i))) s =
      Some ((), s <| self := (self s) <| pending_clr := p |> |>, []).
Proof.
  intros <-. exists (imap (λ i _, getFlag wdata (Z.of_nat i)) (pending_clr (self s))).
  split; [apply length_imap|].
  set (P := λ (f : list bool → list bool) s, s <| self := (self s) <| pending_clr := f (pending_clr (self s)) |> |>).
  apply (for_range_nth (λ s, pending_clr (self s)) (P := P)) with (g := λ i _, getFlag wdata i); [by intros [[]]|].
  intros i x l Hs Hl _. unfold zoom, aset. rewrite gets_bind. apply lookup_lt_Some in Hl.
  unfold P. cbn. rewrite setz_Some by (cbn; lia). rewrite Nat2Z.id. done.
Qed.

Lemma dbuf_switch_bind {A} k bitmap (f : () → M sys A) c l w :
  core_count c = Z.of_nat (length l) →
  bindM (dbuf_switch k bitmap) f (MkSys c l w) =
    f () (MkSys c (imap (λ i, switch_where k bitmap (Z.of_nat i)) l) w).
Proof. intros Hc. by rewrite (bind_eq _ _ _ _ _ (dbuf_switch_eq k bitmap (MkSys c l w) Hc)). Qed.

Ltac switch_buffers Hs ks :=
  rewrite !dbuf_switch_bind by (rewrite ?length_imap; exact (agrees_cores _ Hs));
  eexists; split; [reflexivity|];
  apply (stores_switch _ _ _ _ _ _ _ ks); try done; try (by intros []);
  first [apply list_eq; intros ?; cbn [cores]; rewrite !list_lookup_imap; by destruct (_ !! _)
        |by apply (bool_decide_unpack _)].

(** C27 the configuration registers and the buffers: every store to the registers returns,
    for every offset and word; afterwards the bus has the front buffer of exactly those
    cores and names whose bit in the selection register is clear, as before; no word of
    a buffer is changed; and the register reads as the data, cut to the cores there are.
    The shared buffer is switched whenever its register changes at all. *)
Theorem buffers_follow_registers (s : sys) (off data cl : Z) (Hs : agrees s) :
  ∃ s', store_word off data cl s = Some ((), s', []) ∧ stores off data s s'.
Proof.
  destruct s as [c l w]. unfold store_word. rewrite gets_bind. cbn [self].
  set (wdata := Z.land data (u32 (bitmap_mask c))).
  repeat match goal with
  | |- context [if off =? ?o then _ else _] => destruct (Z.eqb_spec off o) as [->|?]
  end;
    try (eexists; split; [reflexivity|]; apply stores_plain; (done || by intros [])).
  - pose proof (agrees_cores _ Hs) as Hc. cbn in Hc. rewrite Hc, Nat2Z.id.
    destruct (set_pending wdata (MkSys c l w) (length l) (agrees_pending _ Hs)) as (p & Hp & ->).
    eexists. split; [reflexivity|]. apply stores_plain; try done.
    + pose proof (agrees_pending _ Hs) as Hl. cbn in Hl |- *. by rewrite Hl.
    + intros Hin. by pose proof (bool_decide_eq_true_2 _ Hin).
  - switch_buffers Hs [CoreMem.DMEM_L; CoreMem.DMEM_U].
  - exists (MkSys (c <| wbuf_db_sel := wdata |>) l
              (if wdata =? wbuf_db_sel c then w else DoubleBuffer.switched w)).
    assert (Hx : nz (Z.lxor (wbuf_db_sel c) wdata) = negb (wdata =? wbuf_db_sel c)).
    { unfold nz. f_equal. apply eq_true_iff_eq. rewrite !Z.eqb_eq, Z.lxor_eq_0_iff. done. }
    rewrite Hx. destruct Hs as [Hc Hp Hs]. split; [by destruct (wdata =? wbuf_db_sel c)|].
    refine (conj _ (conj _ (conj _ (conj _ _)))); [by split| | | |done].
    + intros i m Hm. by exists m.
    + cbn. destruct (_ =? _); [done|]. by destruct w.
    + cbn. fold wdata. destruct (_ =? _); [by rewrite xorb_false_r|]. by destruct w as [? ? ? ? ? ? []].
  - switch_buffers Hs [CoreMem.IMEM].
  - switch_buffers Hs [CoreMem.LUT].
  - switch_buffers Hs [CoreMem.RBUF_L; CoreMem.RBUF_U].
  - eexists. split; [reflexivity|]. apply stores_plain; try done.
    unfold settable. rewrite !elem_of_cons, elem_of_nil. tauto.
Qed.

Definition initial : sys :=
  MkSys (ConfRegCtrl 1 [MkInfo 0 0])
    [let b := DoubleBuffer.DoubleBuffer 8 0xffffffff [] in CoreMem.Mk b b b b b b]
    (DoubleBuffer.DoubleBuffer 8 0xffffffff []).
Lemma initial_agrees : agrees initial.
Proof. split; [done..|]. intros [|[|]] m k [= <-]. by destruct k. Defined.

Lemma buffers_follow_registers_witness :
  ∃ s', store_word DDBSEL_OFFSET 1 0 initial = Some ((), s', []) ∧ stores DDBSEL_OFFSET 1 initial s'.
Proof. exact (buffers_follow_registers initial DDBSEL_OFFSET 1 0 initial_agrees). Defined.

End ConfRegCtrl.

(** ** Stores to all cores *)
Module BCastRange.

Definition fetch_word (offset mode client : Z) : M (list CoreMem.t) Z := mret 0.
Definition store_word (k : CoreMem.name) (core_count offset data client : Z) :
    M (list CoreMem.t) unit :=
  for_range 0 (Z.to_nat core_count) (λ i,
    zoom_nth id i (CoreMem.on k (DoubleBuffer.store_word offset data client))).

End BCastRange.
