(* ===== verification/SnaccMad.v ===== *)
(** * SnaccMad: the multiply-and-add unit of a SNACC core (snaccmodules.cc)

    The unit multiplies the words of two memories lane by lane, adds the products to
    its accumulators, and may look the sum up in a table; the time an access takes is
    counted before each round. *)

From S2P Require Import Prelude Effects Types DBuf SnaccModules.
Import Fixed.

Module MadUnit.

Definition SIMD_LANE_SIZE : nat := 8.
Definition HALF_LANE : nat := 4.
Definition MODE_NOLUT : Z := 0.
Definition MODE_LUT : Z := 1.
Definition MODE_POOL : Z := 2.
Definition MODE_AVGPOOL : Z := 3.

(** The registers that the unit points to. *)
Definition FR0_INDEX : Z := 11.
Definition FR1_INDEX : Z := 12.
Definition TR0_INDEX : Z := 13.
Definition TR1_INDEX : Z := 14.

Inductive mad_state := IDLE | DSTALL | EX | WB | LUTSTALL | FU.
#[global] Instance mad_state_eq_dec : EqDecision mad_state.
Proof. solve_decision. Defined.

Record t := Mk {
  state : mad_state;
  next_state : mad_state;
  mode : Z;                                   (* int *)
  eight_bit_mode : bool;
  loop_count : Z;                             (* int *)
  mask_count : Z;                             (* int *)
  simd_data_width : Z;                        (* int *)
  sram_latency : Z;                           (* uint32 *)
  wait_data_cycle : Z;                        (* uint32 *)
  dmem_step : Z; rbuf_step : Z;               (* int *)
  second_lut_done : bool;
  data_addr : Z; rbuf_addr : Z;               (* uint32 *)
  tr0_fp : Z; tr1_fp : Z; fr0_fp : Z; fr1_fp : Z    (* Fixed32 *)
}.
#[global] Instance eta : Eta t := λ m,
  Mk (state m) (next_state m) (mode m) (eight_bit_mode m) (loop_count m) (mask_count m)
     (simd_data_width m) (sram_latency m) (wait_data_cycle m) (dmem_step m) (rbuf_step m)
     (second_lut_done m) (data_addr m) (rbuf_addr m) (tr0_fp m) (tr1_fp m) (fr0_fp m) (fr1_fp m).

(** The unit, the register file and the mask of its core, which it reaches through
    pointers, and the memories. *)
Record sys := MkSys {
  mad : t;
  regs : list Z;                              (* uint32[16] *)
  mask : list bool;                           (* bool[SIMD_LANE_SIZE] *)
  mems : CoreMem.t
}.
#[global] Instance sys_eta : Eta sys := λ s, MkSys (mad s) (regs s) (mask s) (mems s).

Notation M := (Effects.M sys).
Definition get {T} (p : t → T) : M T := gets (λ s, p (mad s)).
Definition set {T} (p : t → T) {P : Setter p} (v : T) : M unit := zoom mad (p <~ v).

Definition MadUnit (sram_latency_ : Z) (raw : t) : t := raw <| sram_latency := sram_latency_ |>.
Definition reset : M unit := set next_state IDLE;; set state IDLE.
Definition running (m : t) : bool :=
  negb (bool_decide (state m = IDLE))
  || (bool_decide (state m = IDLE) && negb (bool_decide (next_state m = IDLE))).
Definition set_addr (data_addr_ rbuf_addr_ : Z) : M unit :=
  set data_addr (Z.land data_addr_ 0xFFFF);;
  set rbuf_addr (Z.land rbuf_addr_ 0xFFFF);;
  n ← get sram_latency; set wait_data_cycle n.

(** An access that crosses a boundary of eight bytes takes two fetches. *)
Definition over (addr width : Z) : bool := 8 <? u32 (addr mod 8 + width).
Definition overDmemBoundary (m : t) : bool := over (data_addr m) (simd_data_width m).
Definition overRbufBoundary (m : t) : bool := over (rbuf_addr m) (simd_data_width m).
Definition updataAddress : M unit :=
  m ← gets mad;
  set data_addr (u32 (s32 (data_addr m) + dmem_step m));;
  set rbuf_addr (u32 (s32 (rbuf_addr m) + rbuf_step m)).

(** The number of the highest lane that is not masked, counted from 1. *)
Fixpoint highest (n : nat) (mask : list bool) : option Z :=
  match n with
  | O => Some 0
  | S n' =>
      match mask !! n' with
      | Some true => Some (Z.of_nat n)
      | Some false => highest n' mask
      | None => None
      end
  end.

(** The operation and its parameters. *)
Definition configured (mode_ d_step_ r_step_ : Z) (eight_bit_mode_ : bool) (loop_count_ : Z) (m : t) : t :=
  m <| mode := mode_ |> <| eight_bit_mode := eight_bit_mode_ |> <| loop_count := s32 loop_count_ |>
    <| dmem_step := d_step_ |> <| rbuf_step := r_step_ |>.
(** The lanes up to the [n]-th are used: four of two bytes, or eight of one. *)
Definition with_lanes (n : Z) (m : t) : t :=
  if eight_bit_mode m then m <| mask_count := n |> <| simd_data_width := n |>
  else m <| mask_count := n mod Z.of_nat HALF_LANE |> <| simd_data_width := n mod Z.of_nat HALF_LANE * 2 |>.
Definition first_access (m : t) : t :=
  if 0 <? wait_data_cycle m then m <| next_state := DSTALL |>
  else if overDmemBoundary m || overRbufBoundary m
  then m <| next_state := DSTALL |> <| wait_data_cycle := 1 |>
  else m <| next_state := EX |>.
Definition load_register (i : Z) (p : t → Z) {P : Setter p} : M unit :=
  v ← aget regs i; set p (FromRegisterFormat v).
Definition update (f : t → t) : M unit := modify (λ s, s <| mad ::= f |>).

Definition start (mode_ : Z) (d_step_ r_step_ : Z) (eight_bit_mode_ : bool) (loop_count_ : Z) : M unit :=
  if 4 <=? mode_ then mret () else
  update (configured mode_ d_step_ r_step_ eight_bit_mode_ loop_count_);;
  l ← gets mask; n ← from_option (highest SIMD_LANE_SIZE l);
  update (with_lanes n);;
  update first_access;;
  load_register TR0_INDEX tr0_fp;;
  load_register TR1_INDEX tr1_fp;;
  load_register FR0_INDEX fr0_fp;;
  load_register FR1_INDEX fr1_fp.

Section Host.
  (** [machine->host_bigendian] *)
  Variable host : bool.

Definition fetch_half (k : CoreMem.name) (a : Z) : M Z :=
  zoom mems (CoreMem.on k (DoubleBuffer.fetch_half_from_inner host a)).
Definition fetch_byte (k : CoreMem.name) (a : Z) : M Z :=
  zoom mems (CoreMem.on k (DoubleBuffer.fetch_byte_from_inner host a)).

(** The address in one of the two interleaved memories, and which one it is. *)
Definition access_addr (addr : Z) : Z :=
  u32 (Z.lxor (Z.shiftl (Z.shiftr addr 3) 2 + Z.land addr 0x3) 0x3).
Definition in_upper (addr : Z) : bool := Z.rem (Z.quot addr 4) 2 =? 0.

Fixpoint lanes (n : nat) (addr step : Z) (load : Z → M Z) : M (list Z) :=
  match n with
  | O => mret []
  | S n => x ← load addr; l ← lanes n (addr + step) step load; mret (x :: l)
  end.
Definition loadWeight : M (list Z) :=
  a ← get rbuf_addr;
  lanes HALF_LANE (s32 a) 2 (λ addr,
    of_uint16 <$> (if in_upper addr then fetch_half CoreMem.RBUF_U (access_addr addr)
                   else fetch_half CoreMem.RBUF_L (access_addr addr))).
Definition loadData : M (list Z) :=
  a ← get data_addr; eight ← get eight_bit_mode;
  if (eight : bool) then
    lanes SIMD_LANE_SIZE (s32 a) 1 (λ addr,
      of_uint8 <$> (if in_upper addr then fetch_byte CoreMem.DMEM_U (access_addr addr)
                    else fetch_byte CoreMem.DMEM_L (access_addr addr)))
  else
    lanes HALF_LANE (s32 a) 2 (λ addr,
      of_uint16 <$> (if in_upper addr then fetch_half CoreMem.DMEM_U (access_addr addr)
                     else fetch_half CoreMem.DMEM_L (access_addr addr))).

(** Take the lanes from [lo] on into an accumulator, those that the mask lets. *)
Definition accumulate (f : Z → Z → Z) (mask : list bool) (xs : list Z) (acc : Z) : Z :=
  fold_left (λ acc p, if (p.1 : bool) then f acc p.2 else acc) (zip mask xs) acc.
Definition products (weight data : list Z) : list Z := zip_with mul weight data.

Definition doMad : M unit :=
  weight ← loadWeight; data ← loadData;
  m ← gets mad; l ← gets mask;
  set tr0_fp (accumulate add (take HALF_LANE l) (products weight (take HALF_LANE data)) (tr0_fp m));;
  when (eight_bit_mode m)
    (set tr1_fp (accumulate add (drop HALF_LANE l) (products weight (drop HALF_LANE data)) (tr1_fp m))).

Definition max (acc x : Z) : Z := if acc <? x then x else acc.
Definition doMaxPool : M unit :=
  data ← loadData;
  m ← gets mad; l ← gets mask;
  set tr0_fp (accumulate max (take HALF_LANE l) (ToFixed32 <$> take HALF_LANE data) (tr0_fp m));;
  when (eight_bit_mode m)
    (set tr1_fp (accumulate max (drop HALF_LANE l) (ToFixed32 <$> drop HALF_LANE data) (tr1_fp m))).

(** Not implemented in the source: it prints so. *)
Definition doAvgPool : M unit := mret ().

Definition applyFU (input : Z) : M Z :=
  v ← fetch_half CoreMem.LUT (Z.lxor (u32 (ToLutIndex input)) 0x3);
  mret (ToFixed32 (of_uint16 v)).

Definition exec (mode_ : Z) : M unit :=
  if mode_ =? MODE_NOLUT then doMad
  else if mode_ =? MODE_LUT then doMad
  else if mode_ =? MODE_POOL then doMaxPool
  else if mode_ =? MODE_AVGPOOL then doAvgPool
  else crash.

Definition ex_step : M unit :=
  md ← get mode; exec md;;
  n ← get loop_count; set loop_count (s32 (n - 1));;
  if 0 <? s32 (n - 1) then
    updataAddress;;
    m ← gets mad;
    when (1 <? sram_latency m)
      (set wait_data_cycle (u32 (sram_latency m - 1));;
       when (overDmemBoundary m || overRbufBoundary m)
         (w ← get wait_data_cycle; set wait_data_cycle (u32 (w + 1)));;
       set next_state DSTALL)
  else if md =? MODE_LUT then
    set second_lut_done false;; set next_state LUTSTALL;;
    n ← get sram_latency; set wait_data_cycle n
  else set next_state WB.

Definition fu_step : M unit :=
  m ← gets mad;
  if eight_bit_mode m && negb (second_lut_done m) then
    set wait_data_cycle (u32 (sram_latency m - 1));;
    set next_state LUTSTALL;;
    set second_lut_done true;;
    v ← applyFU (tr0_fp m); set fr0_fp v
  else
    (if eight_bit_mode m then v ← applyFU (tr1_fp m); set fr1_fp v
     else v ← applyFU (tr0_fp m); set fr0_fp v);;
    set next_state WB.

Definition wb_step : M unit :=
  set next_state IDLE;;
  m ← gets mad;
  when (eight_bit_mode m)
    (aset regs TR1_INDEX (ToRegisterFormat (tr1_fp m));;
     aset regs FR1_INDEX (ToRegisterFormat (fr1_fp m)));;
  aset regs TR0_INDEX (ToRegisterFormat (tr0_fp m));;
  aset regs FR0_INDEX (ToRegisterFormat (fr0_fp m)).

Definition step : M unit :=
  m ← gets mad;
  (match state m with
   | DSTALL => when (wait_data_cycle m =? 0) (set next_state EX)
   | LUTSTALL => when (wait_data_cycle m =? 0) (set next_state FU)
   | EX => ex_step
   | FU => fu_step
   | WB => wb_step
   | IDLE => mret ()
   end);;
  m ← gets mad;
  when (0 <? wait_data_cycle m) (set wait_data_cycle (wait_data_cycle m - 1));;
  set state (next_state m).

End Host.

(** ** Properties

    The two memories of a pair hold the even and the odd words of one memory, whose bytes
    are in big-endian order, on a little-endian host. *)

Definition word_at (u l : DoubleBuffer.t) (a : Z) : Z :=
  default 0 (nthz (DoubleBuffer.inner (if in_upper a then u else l)) (a / 8)).
Definition half_at (u l : DoubleBuffer.t) (a : Z) : Z :=
  Z.land (Z.shiftr (word_at u l a) (16 - 8 * (2 * (a / 2) mod 4))) 0xFFFF.
Definition byte_at (u l : DoubleBuffer.t) (a : Z) : Z :=
  Z.land (Z.shiftr (word_at u l a) (24 - 8 * (a mod 4))) 0xFF.

Definition MEM_SIZE : Z := 0x800.

(** The memories are the ones that the accelerator makes. *)
Definition mems_wf (ms : CoreMem.t) : Prop :=
  ∀ k, DoubleBuffer.wf (CoreMem.buf k ms) ∧ DoubleBuffer.extent (CoreMem.buf k ms) = MEM_SIZE.

Lemma part_look n k o ms : mems_wf ms → 0 < n → 0 ≤ o < MEM_SIZE →
  CoreMem.on k (DoubleBuffer.fetch_part false n o) ms =
    Some (DoubleBuffer.part_of false n (default 0 (nthz (DoubleBuffer.inner (CoreMem.buf k ms)) (o / 4)))
            (n * (o / n) mod 4), ms, []).
Proof.
  intros Hwf Hn Ho. destruct (Hwf k) as [Hb He]. apply CoreMem.on_look.
  unfold DoubleBuffer.fetch_part. rewrite gets_bind. unfold id, DoubleBuffer.exceeds.
  pose proof (DoubleBuffer.length_inner _ Hb) as Hl. rewrite He in Hl |- *. unfold MEM_SIZE in *.
  pose proof (Z.div_mod o 4 ltac:(lia)). pose proof (Z.mod_pos_bound o 4 ltac:(lia)).
  destruct (Z.leb_spec 0x800 (o / 4)); [lia|].
  destruct (nthz_is_Some (DoubleBuffer.inner (CoreMem.buf k ms)) (o / 4)) as [w ->]; [|done].
  change (2048 / 4) with 512 in Hl. lia.
Qed.

Lemma lxor_low q m : 0 ≤ q → 0 ≤ m < 4 → Z.lxor (q * 4 + m) 3 = q * 4 + (3 - m).
Proof.
  intros Hq Hm. assert (m = 0 ∨ m = 1 ∨ m = 2 ∨ m = 3) as [-> |[-> |[-> | ->]]] by lia;
    destruct q as [|p|p]; try lia; try reflexivity.
  - transitivity (Z.pos p~1~1); [by replace (Z.pos p * 4 + 0) with (Z.pos p~0~0) by lia|lia].
  - transitivity (Z.pos p~1~0); [by replace (Z.pos p * 4 + 1) with (Z.pos p~0~1) by lia|lia].
  - transitivity (Z.pos p~0~1); [by replace (Z.pos p * 4 + 2) with (Z.pos p~1~0) by lia|lia].
  - transitivity (Z.pos p~0~0); [by replace (Z.pos p * 4 + 3) with (Z.pos p~1~1) by lia|lia].
Qed.

(** The address in one of the two memories. *)
Lemma access_addr_eq a : 0 ≤ a < 4096 →
  access_addr a = a / 8 * 4 + (3 - a mod 4) ∧ 0 ≤ access_addr a < MEM_SIZE.
Proof.
  intros Ha. unfold access_addr, MEM_SIZE.
  change (Z.land a 3) with (Z.land a (Z.ones 2)).
  rewrite Z.land_ones, Z.shiftl_mul_pow2, (Z.shiftr_div_pow2 a 3) by lia.
  change (2 ^ 2) with 4. change (2 ^ 3) with 8.
  pose proof (Z.mod_pos_bound a 4 ltac:(lia)). pose proof (Z.div_mod a 8 ltac:(lia)).
  pose proof (Z.mod_pos_bound a 8 ltac:(lia)).
  rewrite lxor_low, u32_small by lia. lia.
Qed.

(** The reads of the unit. *)
Lemma fetch_pair_half u l a s : mems_wf (mems s) → 0 ≤ a < 4096 →
  (if in_upper a then fetch_half false u (access_addr a) else fetch_half false l (access_addr a)) s =
    Some (half_at (CoreMem.buf u (mems s)) (CoreMem.buf l (mems s)) a, s, []).
Proof.
  intros Hwf Ha. destruct (access_addr_eq a Ha) as [Ea Hr].
  assert (Hf : ∀ k, fetch_half false k (access_addr a) s =
    Some (Z.land (Z.shiftr (default 0 (nthz (DoubleBuffer.inner (CoreMem.buf k (mems s))) (a / 8)))
            (16 - 8 * (2 * (a / 2) mod 4))) 0xFFFF, s, [])).
  { intros k. unfold fetch_half, zoom, DoubleBuffer.fetch_half_from_inner.
    rewrite (part_look 2 k _ _ Hwf) by lia. cbn [upd setter_of]. destruct s as [m r k' ms]. cbn [mems].
    unfold DoubleBuffer.part_of, DoubleBuffer.part_shift. rewrite Ea.
    replace ((a / 8 * 4 + (3 - a mod 4)) / 4) with (a / 8) by (Z.to_euclidean_division_equations; lia).
    replace (8 * ((2 * ((a / 8 * 4 + (3 - a mod 4)) / 2)) mod 4)) with (16 - 8 * ((2 * (a / 2)) mod 4))
      by (Z.to_euclidean_division_equations; lia). done. }
  unfold half_at, word_at. destruct (in_upper a); apply Hf.
Qed.
Lemma fetch_pair_byte u l a s : mems_wf (mems s) → 0 ≤ a < 4096 →
  (if in_upper a then fetch_byte false u (access_addr a) else fetch_byte false l (access_addr a)) s =
    Some (byte_at (CoreMem.buf u (mems s)) (CoreMem.buf l (mems s)) a, s, []).
Proof.
  intros Hwf Ha. destruct (access_addr_eq a Ha) as [Ea Hr].
  assert (Hf : ∀ k, fetch_byte false k (access_addr a) s =
    Some (Z.land (Z.shiftr (default 0 (nthz (DoubleBuffer.inner (CoreMem.buf k (mems s))) (a / 8)))
            (24 - 8 * (a mod 4))) 0xFF, s, [])).
  { intros k. unfold fetch_byte, zoom, DoubleBuffer.fetch_byte_from_inner.
    rewrite (part_look 1 k _ _ Hwf) by lia. cbn [upd setter_of]. destruct s as [m r k' ms]. cbn [mems].
    unfold DoubleBuffer.part_of, DoubleBuffer.part_shift. rewrite Ea.
    replace ((a / 8 * 4 + (3 - a mod 4)) / 4) with (a / 8) by (Z.to_euclidean_division_equations; lia).
    replace (8 * ((1 * ((a / 8 * 4 + (3 - a mod 4)) / 1)) mod 4)) with (24 - 8 * (a mod 4))
      by (Z.to_euclidean_division_equations; lia). done. }
  unfold byte_at, word_at. destruct (in_upper a); apply Hf.
Qed.

Lemma fmap_eq {A B} (f : A → B) (m : M A) s a :
  m s = Some (a, s, []) → (f <$> m) s = Some (f a, s, []).
Proof. intros E. unfold fmap, M_fmap. by rewrite E. Qed.
Lemma if_fmap {A B} (b : bool) (f : A → B) (m m' : M A) :
  (f <$> (if b then m else m')) = (if b then f <$> m else f <$> m').
Proof. by destruct b. Qed.

Lemma lanes_eq n addr stp (load : Z → M Z) f s :
  (∀ i, 0 ≤ i < Z.of_nat n → load (addr + i * stp) s = Some (f (addr + i * stp), s, [])) →
  lanes n addr stp load s = Some ((λ i, f (addr + i * stp)) <$> seqZ 0 (Z.of_nat n), s, []).
Proof.
  revert addr. induction n as [|n IH]; intros addr Hl; [done|]. cbn [lanes].
  specialize (Hl 0 ltac:(lia)) as H0. rewrite Z.add_0_r in H0. rewrite (bind_eq _ _ _ _ _ H0).
  rewrite (bind_eq _ _ _ _ _ (IH (addr + stp) ltac:(intros i Hi;
    replace (addr + stp + i * stp) with (addr + (i + 1) * stp) by ring; apply Hl; lia))).
  rewrite Nat2Z.inj_succ, (seqZ_cons 0 (Z.succ _)) by lia. cbn [fmap list_fmap]. rewrite Z.add_0_r, Z.pred_succ.
  unfold mret, M_ret. change (Z.succ 0) with (1 + 0). rewrite <- (fmap_add_seqZ 1 0), <- list_fmap_compose.
  enough (E : ∀ l, (λ i, f (addr + stp + i * stp)) <$> l = ((λ i, f (addr + i * stp)) ∘ Z.add 1) <$> l)
    by (rewrite E; done).
  intros l. apply list_fmap_ext. intros _ i _. unfold compose. f_equal. ring.
Qed.

(** *** What a round does *)
Definition weights (ms : CoreMem.t) (a : Z) : list Z :=
  (λ i, of_uint16 (half_at (CoreMem.rbuf_u ms) (CoreMem.rbuf_l ms) (a + i * 2))) <$> seqZ 0 4.
Definition data_of (eight : bool) (ms : CoreMem.t) (a : Z) : list Z :=
  if eight then (λ i, of_uint8 (byte_at (CoreMem.dmem_u ms) (CoreMem.dmem_l ms) (a + i * 1))) <$> seqZ 0 8
  else (λ i, of_uint16 (half_at (CoreMem.dmem_u ms) (CoreMem.dmem_l ms) (a + i * 2))) <$> seqZ 0 4.

Lemma loadWeight_eq s : mems_wf (mems s) → 0 ≤ rbuf_addr (mad s) ≤ 4088 →
  loadWeight false s = Some (weights (mems s) (rbuf_addr (mad s)), s, []).
Proof.
  intros Hwf Ha. unfold loadWeight, get. rewrite gets_bind, s32_small by lia.
  apply (lanes_eq 4 _ 2 _ (λ a, of_uint16 (half_at (CoreMem.rbuf_u (mems s)) (CoreMem.rbuf_l (mems s)) a))).
  intros i Hi. apply fmap_eq, (fetch_pair_half CoreMem.RBUF_U CoreMem.RBUF_L); [done|lia].
Qed.
Lemma loadData_eq s : mems_wf (mems s) → 0 ≤ data_addr (mad s) ≤ 4088 →
  loadData false s = Some (data_of (eight_bit_mode (mad s)) (mems s) (data_addr (mad s)), s, []).
Proof.
  intros Hwf Ha. unfold loadData, get, data_of. rewrite !gets_bind, s32_small by lia.
  destruct (eight_bit_mode (mad s)).
  - apply (lanes_eq 8 _ 1 _ (λ a, of_uint8 (byte_at (CoreMem.dmem_u (mems s)) (CoreMem.dmem_l (mems s)) a))).
    intros i Hi. apply fmap_eq, (fetch_pair_byte CoreMem.DMEM_U CoreMem.DMEM_L); [done|lia].
  - apply (lanes_eq 4 _ 2 _ (λ a, of_uint16 (half_at (CoreMem.dmem_u (mems s)) (CoreMem.dmem_l (mems s)) a))).
    intros i Hi. apply fmap_eq, (fetch_pair_half CoreMem.DMEM_U CoreMem.DMEM_L); [done|lia].
Qed.

(** The accumulator of one half of the lanes after a round. *)
Definition lane_sum (md : Z) (ws : list Z) (l : list bool) (xs : list Z) (acc : Z) : Z :=
  if md =? MODE_AVGPOOL then acc
  else if md =? MODE_POOL then accumulate max l (ToFixed32 <$> xs) acc
  else accumulate add l (products ws xs) acc.
Definition round (md : Z) (eight : bool) (l : list bool) (ms : CoreMem.t) (da ra : Z) (acc : Z * Z) : Z * Z :=
  (lane_sum md (weights ms ra) (take HALF_LANE l) (take HALF_LANE (data_of eight ms da)) acc.1,
   if eight then lane_sum md (weights ms ra) (drop HALF_LANE l) (drop HALF_LANE (data_of eight ms da)) acc.2
   else acc.2).
Definition set_acc (acc : Z * Z) (m : t) : t := m <| tr0_fp := acc.1 |> <| tr1_fp := acc.2 |>.
Definition in_range (a : Z) : Prop := 0 ≤ a ≤ 4088.

Lemma exec_eq md m r l ms : mems_wf ms → 0 ≤ md < 4 → in_range (data_addr m) → in_range (rbuf_addr m) →
  exec false md (MkSys m r l ms) =
    Some ((), MkSys (set_acc (round md (eight_bit_mode m) l ms (data_addr m) (rbuf_addr m)
                                (tr0_fp m, tr1_fp m)) m) r l ms, []).
Proof.
  intros Hwf Hmd Hd Hr.
  assert (Hm : doMad false (MkSys m r l ms) =
    Some ((), MkSys (set_acc (round 0 (eight_bit_mode m) l ms (data_addr m) (rbuf_addr m)
                                (tr0_fp m, tr1_fp m)) m) r l ms, [])).
  { unfold doMad. rewrite (bind_eq _ _ _ _ _ (loadWeight_eq (MkSys m r l ms) Hwf Hr)).
    rewrite (bind_eq _ _ _ _ _ (loadData_eq (MkSys m r l ms) Hwf Hd)). rewrite !gets_bind. cbn [mad mask mems].
    unfold round, lane_sum. cbn [Z.eqb MODE_AVGPOOL MODE_POOL fst snd].
    destruct m as [? ? ? [] ?]; reflexivity. }
  assert (Hp : doMaxPool false (MkSys m r l ms) =
    Some ((), MkSys (set_acc (round 2 (eight_bit_mode m) l ms (data_addr m) (rbuf_addr m)
                                (tr0_fp m, tr1_fp m)) m) r l ms, [])).
  { unfold doMaxPool. rewrite (bind_eq _ _ _ _ _ (loadData_eq (MkSys m r l ms) Hwf Hd)).
    rewrite !gets_bind. cbn [mad mask mems]. unfold round, lane_sum. cbn [Z.eqb MODE_AVGPOOL MODE_POOL fst snd].
    destruct m as [? ? ? [] ?]; reflexivity. }
  assert (md = 0 ∨ md = 1 ∨ md = 2 ∨ md = 3) as [-> |[-> |[-> | ->]]] by lia; [exact Hm|exact Hm|exact Hp|].
  destruct m as [? ? ? [] ?]; reflexivity.
Qed.

(** *** The states of the unit *)
Notation cycle := (quietly (step false)).
Notation runs_to := (reaches cycle).
Definition enter (st : mad_state) (w : Z) (m : t) : t :=
  m <| state := st |> <| next_state := st |> <| wait_data_cycle := w |>.

(** The cycles of an access. *)
Lemma stall_run m r l ms st nx Q :
  (st = DSTALL ∧ nx = EX ∨ st = LUTSTALL ∧ nx = FU) → 0 ≤ wait_data_cycle m →
  state m = st → next_state m = st →
  runs_to (MkSys (enter nx 0 m) r l ms) Q → runs_to (MkSys m r l ms) Q.
Proof.
  intros Hst Hw. remember (Z.to_nat (wait_data_cycle m)) as n eqn:En. revert m Hw En.
  induction n as [|n IH]; intros m Hw En Hs Hn HQ.
  - apply (reaches_step _ _ (MkSys (enter nx 0 m) r l ms)); [|exact HQ].
    destruct m. cbn in *. subst. assert (wait_data_cycle0 = 0) as -> by lia.
    destruct Hst as [[-> ->]|[-> ->]]; reflexivity.
  - apply (reaches_step _ _ (MkSys (m <| wait_data_cycle ::= λ w, w - 1 |>) r l ms)).
    + destruct m. cbn in *. subst. unfold quietly, step. rewrite gets_bind. cbn [mad state].
      assert (Hz : wait_data_cycle0 =? 0 = false) by (apply Z.eqb_neq; lia).
      assert (Hp : 0 <? wait_data_cycle0 = true) by (apply Z.ltb_lt; lia).
      destruct Hst as [[-> ->]|[-> ->]]; cbn; rewrite Hz; cbn; rewrite Hp; reflexivity.
    + apply IH; destruct m; cbn in *; auto; lia.
Qed.

(** A cycle, when what its state does is known. *)
Lemma cycle_eq s (act : M unit) m r l ms :
  (match state (mad s) with
   | DSTALL => when (wait_data_cycle (mad s) =? 0) (set next_state EX)
   | LUTSTALL => when (wait_data_cycle (mad s) =? 0) (set next_state FU)
   | EX => ex_step false
   | FU => fu_step false
   | WB => wb_step
   | IDLE => mret ()
   end) = act →
  act s = Some ((), MkSys m r l ms, []) → 0 ≤ wait_data_cycle m →
  cycle s = Some (MkSys (enter (next_state m) (Z.max 0 (wait_data_cycle m - 1)) m) r l ms).
Proof.
  intros Ea Eq Hw. unfold quietly, step. rewrite gets_bind, Ea, (bind_eq _ _ _ _ _ Eq), gets_bind.
  cbn [mad]. destruct m. cbn in *. destruct (Z.ltb_spec 0 wait_data_cycle0).
  - rewrite Z.max_r by lia. reflexivity.
  - rewrite Z.max_l by lia. assert (wait_data_cycle0 = 0) as -> by lia. reflexivity.
Qed.

(** The accumulators after the round that [m] is to do, and the next round. *)
Definition rounded (m : t) (l : list bool) (ms : CoreMem.t) : t :=
  set_acc (round (mode m) (eight_bit_mode m) l ms (data_addr m) (rbuf_addr m) (tr0_fp m, tr1_fp m)) m
    <| loop_count ::= λ n, n - 1 |>.
Definition moved (m : t) : t :=
  m <| data_addr ::= λ a, a + dmem_step m |> <| rbuf_addr ::= λ a, a + rbuf_step m |>.

(** The unit is about to do a round, of which there are [n] left. *)
Record ready (n : Z) (m : t) (ms : CoreMem.t) : Prop := {
  ready_mems : mems_wf ms;
  ready_state : state m = EX;
  ready_next : next_state m = EX;
  ready_wait : wait_data_cycle m = 0;
  ready_mode : 0 ≤ mode m < 4;
  ready_latency : 0 ≤ sram_latency m < 2 ^ 31;
  ready_count : (loop_count m = n ∨ n = 1 ∧ loop_count m = 0) ∧ 1 ≤ n < 2 ^ 31;
  ready_addr : ∀ i, 0 ≤ i < n →
    in_range (data_addr m + i * dmem_step m) ∧ in_range (rbuf_addr m + i * rbuf_step m)
}.

Lemma ready_exec n m r l ms : ready n m ms →
  exec false (mode m) (MkSys m r l ms) =
    Some ((), MkSys (set_acc (round (mode m) (eight_bit_mode m) l ms (data_addr m) (rbuf_addr m)
                                (tr0_fp m, tr1_fp m)) m) r l ms, []).
Proof.
  intros [Hms _ _ _ Hmd _ [_ Hn] Ha]. destruct (Ha 0 ltac:(lia)) as [Hd Hr].
  rewrite Z.add_0_r in Hd, Hr. by apply exec_eq.
Qed.

Lemma updata_eq m r l ms :
  in_range (data_addr m) → in_range (rbuf_addr m) →
  in_range (data_addr m + dmem_step m) → in_range (rbuf_addr m + rbuf_step m) →
  updataAddress (MkSys m r l ms) = Some ((), MkSys (moved m) r l ms, []).
Proof.
  unfold in_range. intros. unfold updataAddress. rewrite gets_bind. cbn [mad].
  rewrite !s32_small, !u32_small by lia. by destruct m.
Qed.

(** The accesses of the next round take time. *)
Definition waits (m : t) : M unit :=
  when (1 <? sram_latency m)
    (set wait_data_cycle (u32 (sram_latency m - 1));;
     when (overDmemBoundary m || overRbufBoundary m)
       (w ← get wait_data_cycle; set wait_data_cycle (u32 (w + 1)));;
     set next_state DSTALL).
Lemma waits_eq m r l ms : 0 ≤ sram_latency m < 2 ^ 31 → next_state m = EX → wait_data_cycle m = 0 →
  ∃ st w, (st = EX ∧ w = 0 ∨ st = DSTALL ∧ 0 ≤ w) ∧
    waits m (MkSys m r l ms) =
      Some ((), MkSys (m <| next_state := st |> <| wait_data_cycle := w |>) r l ms, []).
Proof.
  intros Hl Hn Hw. unfold waits. destruct (Z.ltb_spec 1 (sram_latency m)); cbn [when].
  - destruct (overDmemBoundary m || overRbufBoundary m); cbn [when].
    + eexists DSTALL, (u32 (u32 (sram_latency m - 1) + 1)). split; [pose proof u32_range (u32 (sram_latency m - 1) + 1); auto with lia|].
      destruct m; reflexivity.
    + eexists DSTALL, (u32 (sram_latency m - 1)). split; [pose proof u32_range (sram_latency m - 1); auto with lia|].
      destruct m; reflexivity.
  - exists EX, 0. split; [auto|]. destruct m. cbn in *. by subst.
Qed.

Lemma ex_more n m r l ms Q : ready n m ms → 1 < n →
  runs_to (MkSys (moved (rounded m l ms)) r l ms) Q → runs_to (MkSys m r l ms) Q.
Proof.
  intros Hr Hn HQ. pose proof (ready_exec n m r l ms Hr) as He.
  destruct Hr as [Hms Hst Hnx Hw Hmd Hl [Hc Hn'] Ha]. assert (Hcn : loop_count m = n) by lia. clear Hc. rename Hcn into Hc.
  destruct (Ha 0 ltac:(lia)) as [Ha0 Hr0], (Ha 1 ltac:(lia)) as [Ha1 Hr1].
  rewrite ?Z.mul_0_l, ?Z.add_0_r, ?Z.mul_1_l in *.
  set (m1 := rounded m l ms) in *.
  destruct (waits_eq (moved m1) r l ms) as (st & w & Hsw & Ew); [by destruct m..|].
  assert (Ex : ex_step false (MkSys m r l ms) =
    Some ((), MkSys (moved m1 <| next_state := st |> <| wait_data_cycle := w |>) r l ms, [])).
  { unfold ex_step, get. rewrite gets_bind. cbn [mad]. rewrite (bind_eq _ _ _ _ _ He), gets_bind.
    rewrite (bind_eq _ _ _ () (MkSys m1 r l ms)); cycle 1.
    { unfold m1, rounded. destruct m. cbn in *. subst. rewrite s32_small by lia. reflexivity. }
    replace (0 <? s32 _) with true; cycle 1.
    { symmetry. apply Z.ltb_lt. destruct m. cbn in *. subst. rewrite s32_small; lia. }
    rewrite (bind_eq _ _ _ () (MkSys (moved m1) r l ms)); [|apply updata_eq; by destruct m].
    rewrite gets_bind. exact Ew. }
  eapply reaches_step; [eapply cycle_eq; [cbn [mad]; by rewrite Hst|exact Ex|]|].
  - destruct m. cbn in *. destruct Hsw as [[_ ->]|[_ ?]]; lia.
  - destruct Hsw as [[-> ->]|[-> Hw']].
    + replace (enter _ _ _) with (moved m1); [exact HQ|]. unfold m1, rounded. destruct m. cbn in *. by subst.
    + eapply (stall_run _ _ _ _ DSTALL EX); [auto|cbn; lia|by destruct m..|].
      replace (enter _ _ _) with (moved m1); [exact HQ|]. unfold m1, rounded. destruct m. cbn in *. by subst.
Qed.

Lemma ready_next_round n m l ms : ready n m ms → 1 < n → ready (n - 1) (moved (rounded m l ms)) ms.
Proof.
  intros [Hms Hst Hnx Hw Hmd Hl [Hc Hn'] Ha] Hn. assert (Hcn : loop_count m = n) by lia. clear Hc. rename Hcn into Hc.
  split; try (by destruct m); destruct m; cbn in *; [split; lia|].
  intros i Hi. specialize (Ha (i + 1) ltac:(lia)).
  rewrite !Z.mul_add_distr_r, !Z.mul_1_l in Ha. by rewrite <- !Z.add_assoc, !(Z.add_comm _ (i * _)).
Qed.

(** The state that the rounds lead to. *)
Fixpoint all_rounds (n : nat) (m : t) (l : list bool) (ms : CoreMem.t) : t :=
  match n with
  | O => m
  | S O => rounded m l ms
  | S n => all_rounds n (moved (rounded m l ms)) l ms
  end.

(** *** The table and the write back *)
Definition lut_at (ms : CoreMem.t) (f : Z) : Z :=
  let i := ToLutIndex f in
  ToFixed32 (of_uint16 (Z.land (Z.shiftr (default 0 (nthz (DoubleBuffer.inner (CoreMem.lut ms)) (i / 4)))
    (16 - 8 * (i mod 4))) 0xFFFF)).

Lemma applyFU_eq f s : mems_wf (mems s) → applyFU false f s = Some (lut_at (mems s) f, s, []).
Proof.
  intros Hwf. destruct (ToLutIndex_range f) as [Hr He]. unfold applyFU, lut_at.
  set (i := ToLutIndex f) in *. rewrite u32_small by lia.
  pose proof (Z.div_mod i 4 ltac:(lia)). pose proof (Z.mod_pos_bound i 4 ltac:(lia)).
  assert (Ex : Z.lxor i 3 = i / 4 * 4 + (3 - i mod 4)) by (rewrite <- lxor_low by lia; f_equal; lia).
  rewrite Ex. unfold fetch_half, DoubleBuffer.fetch_half_from_inner.
  rewrite (bind_eq _ _ _ (DoubleBuffer.part_of false 2
    (default 0 (nthz (DoubleBuffer.inner (CoreMem.lut (mems s))) (i / 4))) (2 - i mod 4)) s).
  - unfold DoubleBuffer.part_of, DoubleBuffer.part_shift. replace (8 * (2 - i mod 4)) with (16 - 8 * (i mod 4)) by ring.
    done.
  - unfold zoom. rewrite (part_look 2 CoreMem.LUT _ _ Hwf) by (unfold MEM_SIZE; lia). cbn [upd setter_of].
    replace ((i / 4 * 4 + (3 - i mod 4)) / 4) with (i / 4) by (Z.to_euclidean_division_equations; lia).
    replace ((2 * ((i / 4 * 4 + (3 - i mod 4)) / 2)) mod 4) with (2 - i mod 4)
      by (Z.to_euclidean_division_equations; lia).
    by destruct s.
Qed.

(** The unit is about to write back [o]: the accumulators and the table's values. *)
Definition outputs (m : t) : Z * Z * Z * Z := (tr0_fp m, tr1_fp m, fr0_fp m, fr1_fp m).
Record finishing (m : t) (eight : bool) (o : Z * Z * Z * Z) : Prop := {
  finishing_state : state m = WB;
  finishing_next : next_state m = WB;
  finishing_wait : 0 ≤ wait_data_cycle m;
  finishing_eight : eight_bit_mode m = eight;
  finishing_out : outputs m = o
}.
Definition looked_up (eight : bool) (ms : CoreMem.t) (o : Z * Z * Z * Z) : Z * Z * Z * Z :=
  let '(t0, t1, f0, f1) := o in (t0, t1, lut_at ms t0, if eight then lut_at ms t1 else f1).

Lemma fu_last m r l ms : mems_wf ms → state m = FU → next_state m = FU → wait_data_cycle m = 0 →
  eight_bit_mode m && negb (second_lut_done m) = false →
  ∃ m', cycle (MkSys m r l ms) = Some (MkSys m' r l ms) ∧
    finishing m' (eight_bit_mode m)
      (if eight_bit_mode m then (tr0_fp m, tr1_fp m, fr0_fp m, lut_at ms (tr1_fp m))
       else (tr0_fp m, tr1_fp m, lut_at ms (tr0_fp m), fr1_fp m)).
Proof.
  intros Hms Hst Hnx Hw He. destruct m as [? ? md eight]. cbn in *. subst.
  destruct eight; eexists; (split; [apply (cycle_eq _ (fu_step false)); [reflexivity| |]|]).
  1, 4: unfold fu_step; rewrite gets_bind; cbn [mad eight_bit_mode second_lut_done]; rewrite He;
    cbn [tr0_fp tr1_fp]; rewrite bind_assoc, (bind_eq _ _ _ _ _ (applyFU_eq _ (MkSys _ _ _ _) Hms)); reflexivity.
  all: done.
Qed.

Lemma fu_run m r l ms Q : mems_wf ms → state m = LUTSTALL → next_state m = LUTSTALL →
  0 ≤ wait_data_cycle m → second_lut_done m = false →
  (∀ m', finishing m' (eight_bit_mode m) (looked_up (eight_bit_mode m) ms (outputs m)) →
     runs_to (MkSys m' r l ms) Q) →
  runs_to (MkSys m r l ms) Q.
Proof.
  intros Hms Hst Hnx Hw Hsec HQ.
  apply (stall_run _ _ _ _ LUTSTALL FU); [auto|done..|]. clear Hw.
  destruct (eight_bit_mode m) eqn:He.
  - set (m1 := m <| fr0_fp := lut_at ms (tr0_fp m) |> <| second_lut_done := true |>
                 <| wait_data_cycle := u32 (sram_latency m - 1) |> <| next_state := LUTSTALL |>
                 <| state := FU |>).
    eapply reaches_step; [apply (cycle_eq _ (fu_step false) m1 r l ms); [reflexivity| |]|].
    + unfold fu_step. rewrite gets_bind. destruct m. cbn in *. subst. cbn [andb negb].
      do 3 (erewrite bind_eq; [|reflexivity]).
      rewrite (bind_eq _ _ _ _ _ (applyFU_eq _ (MkSys _ _ _ _) Hms)). reflexivity.
    + apply u32_range.
    + apply (stall_run _ _ _ _ LUTSTALL FU); [auto|cbn; lia|by destruct m..|].
      destruct (fu_last (enter FU 0 (enter (next_state m1) (Z.max 0 (wait_data_cycle m1 - 1)) m1)) r l ms Hms)
        as (m' & Hc & Hf); [by destruct m..|by destruct m; cbn; rewrite andb_false_r|].
      eapply reaches_step; [exact Hc|]. apply HQ. unfold m1 in Hf. destruct m. cbn in *. by subst.
  - destruct (fu_last (enter FU 0 m) r l ms Hms) as (m' & Hc & Hf); [by destruct m..| |].
    { destruct m. cbn in *. by subst. }
    eapply reaches_step; [exact Hc|]. apply HQ. destruct m. cbn in *. by subst.
Qed.

Definition results (md : Z) (eight : bool) (ms : CoreMem.t) (o : Z * Z * Z * Z) : Z * Z * Z * Z :=
  if md =? MODE_LUT then looked_up eight ms o else o.

(** After the last round the unit goes to the table or to the write back. *)
Definition decided (md : Z) (m : t) : t :=
  if md =? MODE_LUT
  then m <| second_lut_done := false |> <| next_state := LUTSTALL |> <| wait_data_cycle := sram_latency m |>
  else m <| next_state := WB |>.
Lemma decide_eq md m r l ms :
  (if md =? MODE_LUT then
     set second_lut_done false;; set next_state LUTSTALL;;
     n ← get sram_latency; set wait_data_cycle n
   else set next_state WB) (MkSys m r l ms) = Some ((), MkSys (decided md m) r l ms, []).
Proof. unfold decided. destruct (md =? MODE_LUT); by destruct m. Qed.

Lemma decided_run md m r l ms Q : mems_wf ms → state m = EX → 0 ≤ wait_data_cycle m → 0 ≤ sram_latency m →
  (∀ m', finishing m' (eight_bit_mode m) (results md (eight_bit_mode m) ms (outputs m)) →
     runs_to (MkSys m' r l ms) Q) →
  0 ≤ wait_data_cycle (decided md m) ∧
  runs_to (MkSys (enter (next_state (decided md m)) (Z.max 0 (wait_data_cycle (decided md m) - 1)) (decided md m))
             r l ms) Q.
Proof.
  unfold decided, results. intros Hms Hst Hw Hl HQ. destruct (md =? MODE_LUT).
  - split; [by destruct m|]. apply fu_run; [done|by destruct m..|cbn; lia|by destruct m|].
    intros m' Hm'. apply HQ. by destruct m.
  - split; [by destruct m|]. apply HQ. split; cbn; [done|done|lia|by destruct m|by destruct m].
Qed.

Lemma rounded_kept m l ms : eight_bit_mode (rounded m l ms) = eight_bit_mode m ∧
  mode (rounded m l ms) = mode m ∧ sram_latency (rounded m l ms) = sram_latency m ∧
  state (rounded m l ms) = state m ∧ wait_data_cycle (rounded m l ms) = wait_data_cycle m.
Proof. unfold rounded. set (acc := round _ _ _ _ _ _ _). clearbody acc. by destruct m. Qed.

Lemma ex_last m r l ms Q : ready 1 m ms →
  (∀ m', finishing m' (eight_bit_mode m)
           (results (mode m) (eight_bit_mode m) ms (outputs (rounded m l ms))) →
     runs_to (MkSys m' r l ms) Q) →
  runs_to (MkSys m r l ms) Q.
Proof.
  intros Hr HQ. pose proof (ready_exec 1 m r l ms Hr) as He.
  destruct Hr as [Hms Hst Hnx Hw Hmd Hl [Hc _] _].
  destruct (rounded_kept m l ms) as (E8 & Emd & El & Es & Ew). rewrite <- E8 in HQ.
  destruct (decided_run (mode m) (rounded m l ms) r l ms Q) as [H2 Hrun]; [done|congruence|lia|lia|exact HQ|].
  eapply reaches_step; [|exact Hrun].
  apply (cycle_eq _ (ex_step false)); [cbn [mad]; by rewrite Hst| |exact H2].
  unfold ex_step. unfold get at 1 2. rewrite gets_bind. cbn [mad]. rewrite (bind_eq _ _ _ _ _ He), gets_bind.
  set (acc := round _ _ _ _ _ _ _).
  rewrite (bind_eq _ _ _ () (MkSys (rounded m l ms) r l ms)); cycle 1.
  { unfold rounded. fold acc. clearbody acc. destruct m. cbn in *. by destruct Hc as [->|[_ ->]]. }
  replace (0 <? s32 _) with false; [apply decide_eq|].
  symmetry. apply Z.ltb_ge. destruct m. cbn in *. by destruct Hc as [->|[_ ->]].
Qed.

Lemma rounds_run n m r l ms Q : ready (Z.of_nat n) m ms →
  (∀ m', finishing m' (eight_bit_mode m)
           (results (mode m) (eight_bit_mode m) ms (outputs (all_rounds n m l ms))) →
     runs_to (MkSys m' r l ms) Q) →
  runs_to (MkSys m r l ms) Q.
Proof.
  revert m. induction n as [|n IH]; intros m Hr HQ; [destruct Hr as [_ _ _ _ _ _ [_ ?] _]; lia|].
  destruct n as [|n]; [by apply ex_last|].
  apply (ex_more (Z.of_nat (S (S n)))); [done|lia|].
  destruct (rounded_kept m l ms) as (E8 & Emd & _). rewrite <- E8, <- Emd in HQ.
  apply IH; [|exact HQ].
  replace (Z.of_nat (S n)) with (Z.of_nat (S (S n)) - 1) by lia. apply ready_next_round; [done|lia].
Qed.

(** *** The registers at the end *)
Definition write_back (eight : bool) (o : Z * Z * Z * Z) (r : list Z) : list Z :=
  let '(t0, t1, f0, f1) := o in
  let r := if eight then <[12%nat := ToRegisterFormat f1]> (<[14%nat := ToRegisterFormat t1]> r) else r in
  <[11%nat := ToRegisterFormat f0]> (<[13%nat := ToRegisterFormat t0]> r).

Lemma aset_reg i v m r l ms : 0 ≤ i < Z.of_nat (length r) →
  aset regs i v (MkSys m r l ms) = Some ((), MkSys m (<[Z.to_nat i := v]> r) l ms, []).
Proof. intros Hi. unfold aset. rewrite gets_bind. cbn [regs]. by rewrite setz_Some. Qed.

Lemma wb_run m r l ms eight o : length r = 16%nat → finishing m eight o →
  ∃ m', cycle (MkSys m r l ms) = Some (MkSys m' (write_back eight o r) l ms) ∧ running m' = false.
Proof.
  intros Hl [Hst Hnx Hw <- <-].
  set (m1 := m <| next_state := IDLE |>).
  assert (E : wb_step (MkSys m r l ms) =
    Some ((), MkSys m1 (write_back (eight_bit_mode m) (outputs m) r) l ms, [])).
  { unfold wb_step. rewrite (bind_eq _ _ _ () (MkSys m1 r l ms)), gets_bind by done. cbn [mad].
    unfold write_back, outputs. change (eight_bit_mode m1) with (eight_bit_mode m).
    change (tr0_fp m1) with (tr0_fp m). change (tr1_fp m1) with (tr1_fp m).
    change (fr0_fp m1) with (fr0_fp m). change (fr1_fp m1) with (fr1_fp m).
    destruct (eight_bit_mode m); cbn [when]; rewrite ?bind_assoc, ?ret_bind;
      repeat (erewrite bind_eq; [|apply aset_reg; rewrite ?length_insert, Hl; by vm_compute]);
      apply aset_reg; rewrite ?length_insert, Hl; by vm_compute. }
  eexists. split; [apply (cycle_eq _ wb_step m1); [cbn [mad]; by rewrite Hst|exact E|done]|done].
Qed.

(** *** The whole run *)

(** The accumulators after [n] rounds, from the addresses [da] and [ra] on. *)
Fixpoint accumulated (n : nat) (md : Z) (eight : bool) (l : list bool) (ms : CoreMem.t)
    (d_step r_step da ra : Z) (acc : Z * Z) : Z * Z :=
  match n with
  | O => acc
  | S n => accumulated n md eight l ms d_step r_step (da + d_step) (ra + r_step)
             (round md eight l ms da ra acc)
  end.

Lemma all_rounds_eq n m l ms :
  outputs (all_rounds (S n) m l ms) =
    let acc := accumulated (S n) (mode m) (eight_bit_mode m) l ms (dmem_step m) (rbuf_step m)
                 (data_addr m) (rbuf_addr m) (tr0_fp m, tr1_fp m) in
    (acc.1, acc.2, fr0_fp m, fr1_fp m).
Proof.
  revert m. induction n as [|n IH]; intros m.
  - cbn [all_rounds accumulated]. unfold rounded. set (acc := round _ _ _ _ _ _ _). clearbody acc. by destruct m.
  - change (all_rounds (S (S n)) m l ms) with (all_rounds (S n) (moved (rounded m l ms)) l ms).
    rewrite IH. unfold rounded. cbn [accumulated]. set (acc := round _ _ _ _ _ _ _). clearbody acc.
    destruct m. cbn -[accumulated round]. by destruct acc.
Qed.

(** What [start] leaves. *)
Record started (md d_step r_step : Z) (eight : bool) (n : Z) (r : list Z) (m m' : t) : Prop := {
  started_state : state m' = state m;
  started_next : next_state m' = DSTALL ∨ next_state m' = EX ∧ wait_data_cycle m' = 0;
  started_wait : 0 ≤ wait_data_cycle m';
  started_set : mode m' = md ∧ dmem_step m' = d_step ∧ rbuf_step m' = r_step ∧ eight_bit_mode m' = eight ∧
    loop_count m' = n;
  started_kept : sram_latency m' = sram_latency m ∧ data_addr m' = data_addr m ∧ rbuf_addr m' = rbuf_addr m;
  started_out : ∃ t0 t1 f0 f1, r !! 13%nat = Some t0 ∧ r !! 14%nat = Some t1 ∧ r !! 11%nat = Some f0 ∧
    r !! 12%nat = Some f1 ∧ outputs m' = (FromRegisterFormat t0, FromRegisterFormat t1,
                                          FromRegisterFormat f0, FromRegisterFormat f1)
}.

Lemma highest_Some n l : (n ≤ length l)%nat → is_Some (highest n l).
Proof.
  induction n as [|n IH]; intros Hl; simpl; [done|].
  destruct (lookup_lt_is_Some_2 l n ltac:(lia)) as [[] ->]; [done|]. apply IH. lia.
Qed.
Lemma aget_reg i m r l ms v : r !! i = Some v →
  aget regs (Z.of_nat i) (MkSys m r l ms) = Some (v, MkSys m r l ms, []).
Proof.
  intros E. unfold aget. rewrite gets_bind. cbn [regs]. unfold nthz.
  destruct (Z.ltb_spec (Z.of_nat i) 0); [lia|]. by rewrite Nat2Z.id, E.
Qed.

Lemma update_eq f m r l ms : update f (MkSys m r l ms) = Some ((), MkSys (f m) r l ms, []).
Proof. done. Qed.
Lemma load_register_eq i (p : t → Z) {P : Setter p} m r l ms v : r !! i = Some v →
  load_register (Z.of_nat i) p (MkSys m r l ms) =
    Some ((), MkSys (m <| p := FromRegisterFormat v |>) r l ms, []).
Proof. intros E. unfold load_register. by rewrite (bind_eq _ _ _ _ _ (aget_reg i m r l ms v E)). Qed.

Lemma first_access_eq md d_step r_step eight n h m :
  0 ≤ wait_data_cycle m → 0 ≤ n < 2 ^ 31 →
  let m1 := first_access (with_lanes h (configured md d_step r_step eight n m)) in
  (next_state m1 = DSTALL ∨ next_state m1 = EX ∧ wait_data_cycle m1 = 0) ∧ 0 ≤ wait_data_cycle m1 ∧
  (state m1 = state m ∧ mode m1 = md ∧ dmem_step m1 = d_step ∧ rbuf_step m1 = r_step ∧
   eight_bit_mode m1 = eight ∧ loop_count m1 = n ∧
   sram_latency m1 = sram_latency m ∧ data_addr m1 = data_addr m ∧ rbuf_addr m1 = rbuf_addr m).
Proof.
  intros Hw Hn. set (m0 := with_lanes h _).
  assert (H0 : wait_data_cycle m0 = wait_data_cycle m ∧ state m0 = state m ∧ mode m0 = md ∧ dmem_step m0 = d_step ∧
    rbuf_step m0 = r_step ∧ eight_bit_mode m0 = eight ∧ loop_count m0 = n ∧
    sram_latency m0 = sram_latency m ∧ data_addr m0 = data_addr m ∧ rbuf_addr m0 = rbuf_addr m).
  { unfold m0, with_lanes, configured. rewrite s32_small by lia. destruct m. cbn. by destruct eight. }
  clearbody m0. unfold first_access. destruct (overDmemBoundary m0 || overRbufBoundary m0), m0; cbn in *;
    destruct (Z.ltb_spec 0 wait_data_cycle0); cbn; intuition lia.
Qed.

Lemma start_eq md d_step r_step eight n m r l ms :
  md < 4 → length r = 16%nat → length l = 8%nat → 0 ≤ wait_data_cycle m → 0 ≤ n < 2 ^ 31 →
  ∃ m', start md d_step r_step eight n (MkSys m r l ms) = Some ((), MkSys m' r l ms, []) ∧
    started md d_step r_step eight n r m m'.
Proof.
  intros Hmd Hr Hl Hw Hn. destruct (highest_Some 8 l ltac:(lia)) as [h Hh].
  destruct (lookup_lt_is_Some_2 r 13 ltac:(lia)) as [t0 H0], (lookup_lt_is_Some_2 r 14 ltac:(lia)) as [t1 H1].
  destruct (lookup_lt_is_Some_2 r 11 ltac:(lia)) as [f0 H2], (lookup_lt_is_Some_2 r 12 ltac:(lia)) as [f1 H3].
  unfold start. destruct (Z.leb_spec 4 md); [lia|].
  rewrite (bind_eq _ _ _ _ _ (update_eq _ _ _ _ _)), gets_bind. cbn [mask].
  change SIMD_LANE_SIZE with 8%nat.
  rewrite Hh, (bind_eq (from_option (Some h)) _ _ h (MkSys _ r l ms) eq_refl),
    !(bind_eq _ _ _ _ _ (update_eq _ _ _ _ _)).
  destruct (first_access_eq md d_step r_step eight n h m) as (Hn1 & Hw1 & Hk); [done..|].
  set (m1 := first_access _) in *. clearbody m1.
  rewrite (bind_eq _ _ _ _ _ (load_register_eq 13 tr0_fp m1 r l ms t0 H0)).
  set (m2 := m1 <| tr0_fp := _ |>).
  rewrite (bind_eq _ _ _ _ _ (load_register_eq 14 tr1_fp m2 r l ms t1 H1)).
  set (m3 := m2 <| tr1_fp := _ |>).
  rewrite (bind_eq _ _ _ _ _ (load_register_eq 11 fr0_fp m3 r l ms f0 H2)).
  eexists. split; [apply (load_register_eq 12 fr1_fp), H3|]. subst m3 m2.
  destruct m1. cbn in *. destruct Hk as (? & ? & ? & ? & ? & ? & ? & ? & ?).
  split; cbn; [done..|]. by exists t0, t1, f0, f1.
Qed.

(** The registers after an operation. *)
Definition final_regs (md d_step r_step : Z) (eight : bool) (n : Z) (s : sys) : list Z :=
  let init i := FromRegisterFormat (default 0 (regs s !! i)) in
  let acc := accumulated (Z.to_nat (Z.max 1 n)) md eight (mask s) (mems s) d_step r_step
               (data_addr (mad s)) (rbuf_addr (mad s)) (init 13%nat, init 14%nat) in
  write_back eight (results md eight (mems s) (acc.1, acc.2, init 11%nat, init 12%nat)) (regs s).

Lemma started_ready md d_step r_step eight n r l m m' ms Q :
  started md d_step r_step eight n r m m' → mems_wf ms → state m = IDLE → 0 ≤ md < 4 →
  0 ≤ n < 2 ^ 31 → 0 ≤ sram_latency m < 2 ^ 31 →
  (∀ i, 0 ≤ i < Z.max 1 n → in_range (data_addr m + i * d_step) ∧ in_range (rbuf_addr m + i * r_step)) →
  (ready (Z.max 1 n) (enter EX 0 m') ms → runs_to (MkSys (enter EX 0 m') r l ms) Q) →
  runs_to (MkSys m' r l ms) Q.
Proof.
  intros [Hst Hnx Hw Hset Hkept _] Hms Hidle Hmd Hn Hlat Ha HQ.
  destruct Hset as (Emd & Ed & Er & Ee & En), Hkept as (El & Eda & Era).
  eapply reaches_step; [apply (cycle_eq _ (mret ())); [cbn [mad]; by rewrite Hst, Hidle|reflexivity|done]|].
  assert (Hr : ready (Z.max 1 n) (enter EX 0 m') ms).
  { split; try done; try (destruct m'; cbn in *; subst; lia).
    destruct m'. cbn in *. intros i Hi. subst. by apply Ha. }
  specialize (HQ Hr). destruct Hnx as [Hd|[He Hz]].
  - apply (stall_run _ _ _ _ DSTALL EX); [auto|cbn; lia|by destruct m'..|].
    replace (enter EX 0 (enter _ _ _)) with (enter EX 0 m') by (by destruct m'). exact HQ.
  - rewrite He, Hz. exact HQ.
Qed.

(** C9 the multiply-and-add unit: an operation that is started on an idle unit, in any of the
    four modes, ends, for every latency of the memories, number of rounds, steps and mask,
    as long as its addresses are in the memories; the memories are as before, and the
    result registers have what the rounds of sums or maxima over the lanes that are not
    masked, looked up in the table in that mode, leave of the accumulators.  The operation
    without a count does one round. *)
Theorem mad_run (s : sys) (md d_step r_step : Z) (eight : bool) (n : Z)
    (Hidle : running (mad s) = false) (Hms : mems_wf (mems s))
    (Hr : length (regs s) = 16%nat) (Hl : length (mask s) = 8%nat)
    (Hmd : 0 ≤ md < 4) (Hn : 0 ≤ n < 2 ^ 31)
    (Hlat : 0 ≤ sram_latency (mad s) < 2 ^ 31) (Hw : 0 ≤ wait_data_cycle (mad s))
    (Ha : ∀ i, 0 ≤ i < Z.max 1 n →
       in_range (data_addr (mad s) + i * d_step) ∧ in_range (rbuf_addr (mad s) + i * r_step)) :
  ∃ s1, start md d_step r_step eight n s = Some ((), s1, []) ∧
    reaches (quietly (step false)) s1 (λ s',
      running (mad s') = false ∧ mems s' = mems s ∧ mask s' = mask s ∧
      regs s' = final_regs md d_step r_step eight n s).
Proof.
  destruct s as [m r l ms]. cbn in *.
  destruct (start_eq md d_step r_step eight n m r l ms ltac:(lia) Hr Hl Hw Hn) as (m1 & E & Hs).
  exists (MkSys m1 r l ms). split; [exact E|].
  assert (Hst : state m = IDLE). { unfold running in Hidle. by destruct (state m). }
  eapply started_ready; [exact Hs|done..|]. intros Hready.
  apply (rounds_run (Z.to_nat (Z.max 1 n))); [by rewrite Z2Nat.id by lia|].
  intros m' Hm'. destruct (wb_run m' r l ms _ _ Hr Hm') as (m2 & Hc & Hi).
  eapply reaches_step; [exact Hc|]. apply reaches_here. refine (conj Hi (conj eq_refl (conj eq_refl _))).
  cbn [regs]. unfold final_regs. cbn [regs mask mems mad].
  destruct Hs as [_ _ _ (Emd & Ed & Er & Ee & _) (_ & Eda & Era) (t0 & t1 & f0 & f1 & -> & -> & -> & -> & Eo)].
  destruct (Z.to_nat (Z.max 1 n)) as [|k] eqn:Ek; [lia|]. rewrite all_rounds_eq.
  destruct m1. cbn -[accumulated] in *. unfold outputs in Eo. cbn in Eo. injection Eo as -> -> -> ->. by subst.
Qed.

(** Two rounds of four products, the last lane masked: 1 * 0.5 + 2 * 0.25 each. *)
Definition example_mems : CoreMem.t :=
  let b (ws : list Z) : DoubleBuffer.t :=
    DoubleBuffer.switched (DoubleBuffer.DoubleBuffer MEM_SIZE 0xFFFFFFFF ws) in
  CoreMem.Mk (b [0x08000400; 0x08000400]) (b []) (b [0x10002000; 0x10002000]) (b []) (b []) (b []).
Definition example : sys :=
  MkSys (Mk IDLE IDLE 0 false 0 0 0 3 0 0 0 false 0 0 0 0 0 0)
    (replicate 16 0) [true; true; true; false; true; true; true; true] example_mems.

Lemma mad_run_witness :
  (∃ s1, start MODE_NOLUT 8 8 false 2 example = Some ((), s1, []) ∧
     reaches (quietly (step false)) s1 (λ s',
       running (mad s') = false ∧ mems s' = mems example ∧ mask s' = mask example ∧
       regs s' = final_regs MODE_NOLUT 8 8 false 2 example)) ∧
  final_regs MODE_NOLUT 8 8 false 2 example !! 13%nat = Some 0x20000000.
Proof.
  split; [|vm_compute; reflexivity].
  apply (mad_run example MODE_NOLUT 8 8 false 2); try done.
  - intros k. by destruct k.
  - intros i Hi. unfold in_range. cbn. lia.
Defined.

End MadUnit.
