(* ===== verification/SnaccCore.v ===== *)
(** * SnaccCore: a core of the SNACC accelerator (snacccore.h, snacccore.cc)

    A core runs instructions of 16 bits in four states, one in a cycle; it waits for the
    shared buffer and for its unit that multiplies and adds. *)

From S2P Require Import Prelude Effects Types DBuf SnaccModules SnaccMad.

Module SNACCCore.

Inductive stat := IF | ID | EX | WB.
#[global] Instance stat_eq_dec : EqDecision stat.
Proof. solve_decision. Defined.

(** [stall_cause]; the source has two more that nothing sets. *)
Definition NO_STALL : Z := 0.
Definition WBUF_STALL : Z := 1.
Definition MAD_STALL : Z := 2.

(** What [access_mem] points to. *)
Inductive mem := Own (k : CoreMem.name) | WBUF.
#[global] Instance mem_eq_dec : EqDecision mem.
Proof. solve_decision. Defined.

Definition RFILE_SIZE : nat := 16.
Definition PC_INDEX : Z := 15.

(** The opcodes and functions of loads and stores, and the memories' internal addresses. *)
Definition OPCODE_RTYPE1 : Z := 1.
Definition OPCODE_BNEQ : Z := 4.
Definition OPCODE_JUMP : Z := 5.
Definition FUNC_LW : Z := 1.
Definition FUNC_SW : Z := 2.
Definition FUNC_LH : Z := 3.
Definition FUNC_SH : Z := 4.
Definition IMEM_ADDR : Z := 0x00000000.
Definition DMEM_ADDR : Z := 0x01000000.
Definition RBUF_ADDR : Z := 0x05000000.
Definition LUT_ADDR : Z := 0x07000000.
Definition WBUF_ADDR : Z := 0x09000000.
Definition MEM_SIZE : Z := 0x800.             (* of each of the memories *)

Record t := Mk {
  core_id : Z;                                (* int *)
  regs : list Z;                              (* uint32[16] *)
  pc : Z;                                     (* uint32 *)
  halt_issued : bool;
  done : bool;
  fetch_instr : Z;                            (* uint16 *)
  dec_opcode : Z; dec_rd : Z; dec_rs : Z; dec_func : Z;   (* uint8 *)
  dec_imm : Z;                                (* uint32 *)
  reg_write : bool;
  isBranch : bool;
  reg_write_data : Z;                         (* uint32 *)
  status : stat;
  stall_cause : Z;                            (* int *)
  access_address : Z;                         (* uint32 *)
  access_mem : option mem;
  mad_mode : Z; access_mode : Z; wbuf_arb_mode : Z; fp_pos : Z;   (* uint8 *)
  dmem_step : Z; rbuf_step : Z;               (* int *)
  simd_mask : list bool;                      (* bool[8] *)
  mad_unit : MadUnit.t
}.
#[global] Instance eta : Eta t := λ c,
  Mk (core_id c) (regs c) (pc c) (halt_issued c) (done c) (fetch_instr c) (dec_opcode c) (dec_rd c)
     (dec_rs c) (dec_func c) (dec_imm c) (reg_write c) (isBranch c) (reg_write_data c) (status c)
     (stall_cause c) (access_address c) (access_mem c) (mad_mode c) (access_mode c) (wbuf_arb_mode c)
     (fp_pos c) (dmem_step c) (rbuf_step c) (simd_mask c) (mad_unit c).

(** The core, its memories, and the buffer and the arbiter that the cores share. *)
Record sys := MkSys {
  self : t;
  mems : CoreMem.t;
  wbuf : DoubleBuffer.t;
  arb : WbufArb.t
}.
#[global] Instance sys_eta : Eta sys := λ s, MkSys (self s) (mems s) (wbuf s) (arb s).

Notation M := (Effects.M sys).
Definition get {T} (p : t → T) : M T := gets (λ s, p (self s)).
Definition set {T} (p : t → T) {P : Setter p} (v : T) : M unit := zoom self (p <~ v).
Definition reg (i : Z) : M Z := zoom self (aget regs i).

(** The unit shares the registers, the mask and the memories of the core. *)
Definition on_mad {A} (m : Effects.M MadUnit.sys A) : M A := λ s,
  match m (MadUnit.MkSys (mad_unit (self s)) (regs (self s)) (simd_mask (self s)) (mems s)) with
  | None => None
  | Some (a, MadUnit.MkSys u r k ms, e) =>
      Some (a, s <| self ::= λ c, c <| mad_unit := u |> <| regs := r |> <| simd_mask := k |> |>
                 <| mems := ms |>, e)
  end.

Definition on_mem {A} (m : mem) (act : Effects.M DoubleBuffer.t A) : M A :=
  match m with Own k => zoom mems (CoreMem.on k act) | WBUF => zoom wbuf act end.

(** The fields of an instruction. *)
Definition opcode (i : Z) : Z := Z.shiftr (Z.land i 0xF000) 12.
Definition reg_dst (i : Z) : Z := Z.shiftr (Z.land i 0x0F00) 8.
Definition reg_src (i : Z) : Z := Z.shiftr (Z.land i 0x00F0) 4.
Definition func (i : Z) : Z := Z.land i 0x000F.
Definition imm (i : Z) : Z := Z.land i 0x00FF.
Definition decode_imm (i : Z) : Z :=
  if (opcode i =? OPCODE_BNEQ) || (opcode i =? OPCODE_JUMP) then u32 (s8 (imm i)) else imm i.

(** The memory an internal address is in and the address in it: the words of the data
    memories and of the row buffers alternate between the lower and the upper one. *)
Definition within (addr base size : Z) : bool := (base <=? addr) && (addr <? base + size).
Definition interleaved (a : Z) : Z := Z.shiftl (Z.shiftr a 3) 2 + Z.land a 0x3.
Definition locate (addr : Z) : option (mem * Z) :=
  if within addr IMEM_ADDR MEM_SIZE then Some (Own CoreMem.IMEM, addr - IMEM_ADDR)
  else if within addr DMEM_ADDR (MEM_SIZE * 2) then
    Some (Own (if Z.land addr 0x4 =? 0 then CoreMem.DMEM_L else CoreMem.DMEM_U), interleaved (addr - DMEM_ADDR))
  else if within addr RBUF_ADDR (MEM_SIZE * 2) then
    Some (Own (if Z.land addr 0x4 =? 0 then CoreMem.RBUF_L else CoreMem.RBUF_U), interleaved (addr - RBUF_ADDR))
  else if within addr LUT_ADDR MEM_SIZE then Some (Own CoreMem.LUT, addr - LUT_ADDR)
  else if within addr WBUF_ADDR MEM_SIZE then Some (WBUF, addr - WBUF_ADDR)
  else None.

Definition is_mem_func (f : Z) : bool :=
  (f =? FUNC_LW) || (f =? FUNC_SW) || (f =? FUNC_LH) || (f =? FUNC_SH).

(** Wait on for the shared buffer when the arbiter does not give it. *)
Definition wbuf_stall (access : Z) : M unit :=
  c ← gets self; a ← gets arb;
  set stall_cause
    (if bool_decide (access_mem c = Some WBUF)
        && negb (WbufArb.isAcquired a (core_id c) (wbuf_arb_mode c) access)
     then WBUF_STALL else NO_STALL).

Definition stall_handle : M unit :=
  c ← gets self;
  if stall_cause c =? NO_STALL then mret ()
  else if stall_cause c =? WBUF_STALL then
    if (dec_func c =? FUNC_LW) || (dec_func c =? FUNC_LH) then wbuf_stall WbufArb.WBUF_LOAD
    else if (dec_func c =? FUNC_SW) || (dec_func c =? FUNC_SH) then wbuf_stall WbufArb.WBUF_STORE
    else set stall_cause NO_STALL
  else if stall_cause c =? MAD_STALL then
    when (negb (MadUnit.running (mad_unit c))) (set stall_cause NO_STALL)
  else set stall_cause NO_STALL.

Definition decode (i : Z) : M unit :=
  set dec_opcode (opcode i);; set dec_rd (reg_dst i);; set dec_rs (reg_src i);; set dec_func (func i);;
  set dec_imm (decode_imm i).

Definition address_calc : M unit :=
  c ← gets self;
  if dec_opcode c =? OPCODE_RTYPE1 then
    when (is_mem_func (dec_func c))
      (r ← reg (dec_rs c);
       match locate (s32 r) with
       | Some (m, a) =>
           set access_address a;; set access_mem (Some m);;
           when (bool_decide (m = WBUF)) (set stall_cause WBUF_STALL)
       | None => set access_mem None
       end)
  else set access_mem None.

Definition id_stage : M unit :=
  i ← get fetch_instr; decode i;; address_calc;; stall_handle.

Section Host.
  (** [machine->host_bigendian] *)
  Variable host : bool.

Definition if_stage : M unit :=
  a ← get pc;
  w ← on_mem (Own CoreMem.IMEM) (DoubleBuffer.fetch_half_from_inner host (Z.lxor a 0x3));
  set fetch_instr w.

(** ** The instructions *)
Definition write (v : Z) : M unit := set reg_write_data v;; set reg_write true.
Definition Unknown : M unit := mret ().
Definition Nop : M unit := mret ().

(** A value from the two registers of the instruction, or from [rd] and the immediate. *)
Definition binop (f : Z → Z → Z) : M unit :=
  c ← gets self; x ← reg (dec_rd c); y ← reg (dec_rs c); write (f x y).
Definition unop (f : Z → Z) : M unit := c ← gets self; y ← reg (dec_rs c); write (f y).
Definition immop (f : Z → Z → Z) : M unit :=
  c ← gets self; x ← reg (dec_rd c); write (f x (dec_imm c)).
(** A shift by as much as the width or more is undefined. *)
Definition shift (f : Z → Z → Z) : M unit :=
  c ← gets self; if 32 <=? dec_imm c then crash else immop f.

Definition Loadi : M unit := immop (λ x i, u32 (u32 (Z.shiftl (Z.land x 0x00FFFFFF) 8) + i)).
Definition Addi : M unit := immop (λ x i, u32 (x + i)).
Definition Subi : M unit := immop (λ x i, u32 (x - i)).
Definition Sll : M unit := shift (λ x i, u32 (Z.shiftl x i)).
Definition Srl : M unit := shift Z.shiftr.
Definition Sra : M unit := shift (λ x i, u32 (Z.shiftr (s32 x) i)).
Definition Mov : M unit := unop id.
Definition Add : M unit := binop (λ x y, u32 (x + y)).
Definition Sub : M unit := binop (λ x y, u32 (x - y)).
Definition Mul : M unit := binop (λ x y, u32 (x * y)).
Definition And : M unit := binop Z.land.
Definition Or : M unit := binop Z.lor.
Definition Xor : M unit := binop Z.lxor.
Definition Neg : M unit := unop lnot32.

Definition Bneq : M unit :=
  c ← gets self; x ← reg (dec_rd c); when (nz x) (set isBranch true).
Definition Jump : M unit := set isBranch true.

(** The repetition count is 0 when it is not given. *)
Definition start_mad (loop_count : Z) : M unit :=
  c ← gets self;
  on_mad (MadUnit.start (u8 (dec_imm c)) (dmem_step c) (rbuf_step c) (mad_mode c =? 0xF) loop_count);;
  set stall_cause MAD_STALL.
Definition Mad : M unit := start_mad 0.
Definition Madlp : M unit := c ← gets self; n ← reg (dec_rd c); start_mad n.
Definition Loadv : M unit :=
  c ← gets self; d ← reg (dec_rd c); r ← reg (dec_rs c); on_mad (MadUnit.set_addr d r).

(** The control registers. *)
Definition mask_of (v : Z) : list bool := Z.testbit v <$> seqZ 0 8.
Definition mask_value (l : list bool) : Z :=
  fold_right (λ p acc, (if (p.2 : bool) then Z.shiftl 0x1 p.1 else 0) + acc) 0 (zip (seqZ 0 8) l).
Definition Setcr : M unit :=
  c ← gets self;
  if dec_rd c =? 1 then set simd_mask (mask_of (dec_imm c))
  else if dec_rd c =? 2 then set dmem_step (s32 (dec_imm c))
  else if dec_rd c =? 3 then set rbuf_step (s32 (dec_imm c))
  else if dec_rd c =? 4 then set fp_pos (u8 (dec_imm c))
  else if dec_rd c =? 5 then set wbuf_arb_mode (u8 (dec_imm c))
  else if dec_rd c =? 6 then
    set mad_mode (Z.land (dec_imm c) 0xF);;
    set access_mode (Z.shiftr (Z.land (dec_imm c) 0xF0) 4)
  else mret ().
Definition Readcr : M unit :=
  c ← gets self;
  write (if dec_rs c =? 0 then u32 (core_id c)
         else if dec_rs c =? 1 then mask_value (simd_mask c)
         else if dec_rs c =? 2 then u32 (dmem_step c)
         else if dec_rs c =? 3 then u32 (rbuf_step c)
         else if dec_rs c =? 4 then fp_pos c
         else if dec_rs c =? 5 then wbuf_arb_mode c
         else if dec_rs c =? 6 then mad_mode c + Z.shiftl (access_mode c) 4
         else 0).

Definition Halt : M unit := set halt_issued true.
(** Without a memory a load writes what was written last. *)
Definition Loadw : M unit :=
  c ← gets self;
  match access_mem c with
  | Some m => w ← on_mem m (DoubleBuffer.fetch_word_from_inner (access_address c)); set reg_write_data w
  | None => mret ()
  end;;
  set reg_write true.
Definition Storew : M unit :=
  c ← gets self;
  match access_mem c with
  | Some m => x ← reg (dec_rd c); on_mem m (DoubleBuffer.store_word_from_inner (access_address c) x)
  | None => mret ()
  end.
Definition Loadh : M unit :=
  c ← gets self;
  match access_mem c with
  | Some m =>
      h ← on_mem m (DoubleBuffer.fetch_half_from_inner host (Z.lxor (access_address c) 0x2));
      set reg_write_data (if access_mode c =? 0 then u32 (Z.shiftl h 16) else h)
  | None => mret ()
  end;;
  set reg_write true.
Definition Storeh : M unit :=
  c ← gets self;
  match access_mem c with
  | Some m =>
      x ← reg (dec_rd c);
      on_mem m (DoubleBuffer.store_half_from_inner host (Z.lxor (access_address c) 0x2)
        (if access_mode c =? 0 then Z.land (Z.shiftr x 16) 0xFFFF else Z.land x 0xFFFF))
  | None => mret ()
  end.
(** Not implemented in the source: they print so. *)
Definition Dbchange : M unit := mret ().
Definition Dma : M unit := mret ().

Definition kRTypeArithmeticTable : list (M unit) :=
  [Nop; Mov; Add; Sub; Mul; And; Or; Xor; Neg; Unknown; Unknown; Unknown; Unknown; Unknown; Unknown; Unknown].
Definition kRTypeMemoryTable : list (M unit) :=
  [Halt; Loadw; Storew; Loadh; Storeh; Unknown; Unknown; Readcr; Unknown; Unknown; Dbchange; Dma;
   Unknown; Unknown; Unknown; Unknown].
Definition kRTypeSimdTable : list (M unit) :=
  [Nop; Loadv; Unknown; Unknown; Unknown; Unknown; Unknown; Unknown; Unknown; Unknown; Unknown; Unknown;
   Unknown; Unknown; Unknown; Unknown].
Definition dispatch (table : list (M unit)) (i : Z) : M unit := m ← from_option (nthz table i); m.
Definition RTypeMemory : M unit := c ← gets self; dispatch kRTypeMemoryTable (dec_func c).
Definition RTypeArithmetic : M unit := c ← gets self; dispatch kRTypeArithmeticTable (dec_func c).
Definition RTypeSimd : M unit := c ← gets self; dispatch kRTypeSimdTable (dec_func c).
Definition kOpcodeTable : list (M unit) :=
  [RTypeArithmetic; RTypeMemory; RTypeSimd; Loadi; Bneq; Jump; Mad; Madlp; Setcr; Addi; Subi; Sll; Srl; Sra;
   Unknown; Unknown].
Definition ex_stage : M unit := c ← gets self; dispatch kOpcodeTable (dec_opcode c).

Definition wb_stage : M unit :=
  c ← gets self;
  when (reg_write c && negb (dec_rd c =? PC_INDEX))
    (zoom self (aset regs (dec_rd c) (reg_write_data c)));;
  (if reg_write c && (dec_rd c =? PC_INDEX) then set pc (reg_write_data c)
   else set pc (if isBranch c then u32 (u32 (pc c + 2) + u32 (2 * dec_imm c)) else u32 (pc c + 2)));;
  set isBranch false;;
  set reg_write false.

Definition isStall (c : t) : bool := done c || negb (stall_cause c =? NO_STALL).

Definition step : M unit :=
  c ← gets self;
  (if isStall c then stall_handle
   else match status c with
        | IF => if_stage;; set status ID
        | ID => id_stage;; set status EX
        | EX => ex_stage;; set status WB
        | WB =>
            wb_stage;; set status IF;;
            h ← get halt_issued;
            when h (set done true;; set halt_issued false)
        end);;
  on_mad (MadUnit.step host).

(** [stall_cause] is not reset. *)
Definition reset : M unit :=
  set pc 0;;
  set regs (replicate RFILE_SIZE 0);;
  set done false;;
  set status IF;;
  set reg_write false;; set isBranch false;; set halt_issued false;;
  set mad_mode 0;; set access_mode 0;; set wbuf_arb_mode 0;; set dmem_step 0;; set rbuf_step 0;;
  set fp_pos 4;;
  set simd_mask (replicate MadUnit.SIMD_LANE_SIZE true);;
  on_mad MadUnit.reset.

End Host.

(** The constructor leaves all but the identifier and the unit as they are in memory. *)
Definition SNACCCore (core_id_ sram_latency : Z) (raw : t) (raw_mad : MadUnit.t) : t :=
  raw <| core_id := core_id_ |> <| mad_unit := MadUnit.MadUnit sram_latency raw_mad |>.

(** ** The instruction set

    What a program sees of a core, and what each instruction does to it, apart from those
    of the multiply-and-add unit. *)
Record arch := MkArch {
  a_id : Z;
  a_regs : list Z;
  a_pc : Z;
  a_last : Z;                    (* what was written last *)
  a_halted : bool;
  a_mask : list bool;
  a_steps : Z * Z;
  a_fp_pos : Z;
  a_wbuf_arb : Z;
  a_modes : Z * Z;               (* of the unit, of half words *)
  a_mems : CoreMem.t;
  a_wbuf : DoubleBuffer.t
}.
#[global] Instance arch_eta : Eta arch := λ a,
  MkArch (a_id a) (a_regs a) (a_pc a) (a_last a) (a_halted a) (a_mask a) (a_steps a) (a_fp_pos a) (a_wbuf_arb a)
    (a_modes a) (a_mems a) (a_wbuf a).

Definition arch_of (s : sys) : arch :=
  let c := self s in
  MkArch (core_id c) (regs c) (pc c) (reg_write_data c) (halt_issued c || done c) (simd_mask c)
    (dmem_step c, rbuf_step c) (fp_pos c) (wbuf_arb_mode c) (mad_mode c, access_mode c) (mems s) (wbuf s).

Definition reg_at (a : arch) (i : Z) : Z := default 0 (nthz (a_regs a) i).

(** An access to a memory. *)
Definition access {A} (m : mem) (act : Effects.M DoubleBuffer.t A) (a : arch) : option (A * arch) :=
  match m with
  | Own k =>
      match act (CoreMem.buf k (a_mems a)) with
      | Some (v, b, []) => Some (v, a <| a_mems ::= CoreMem.set_buf k b |>)
      | _ => None
      end
  | WBUF => match act (a_wbuf a) with Some (v, b, []) => Some (v, a <| a_wbuf := b |>) | _ => None end
  end.

Definition control (a : arch) (i : Z) : Z :=
  match i with
  | 0 => u32 (a_id a)
  | 1 => mask_value (a_mask a)
  | 2 => u32 (a_steps a).1
  | 3 => u32 (a_steps a).2
  | 4 => a_fp_pos a
  | 5 => a_wbuf_arb a
  | 6 => (a_modes a).1 + Z.shiftl (a_modes a).2 4
  | _ => 0
  end.
Definition set_control (i v : Z) (a : arch) : arch :=
  match i with
  | 1 => a <| a_mask := mask_of v |>
  | 2 => a <| a_steps ::= λ p, (v, p.2) |>
  | 3 => a <| a_steps ::= λ p, (p.1, v) |>
  | 4 => a <| a_fp_pos := v |>
  | 5 => a <| a_wbuf_arb := v |>
  | 6 => a <| a_modes := (v mod 16, v / 16) |>
  | _ => a
  end.

(** The outcome of an instruction: the value for the register [rd], if it writes one,
    whether it branches, and the rest of the state. *)
Definition outcome : Type := option Z * bool * arch.
Definition value (v : Z) (a : arch) : option outcome := Some (Some v, false, a).
Definition nothing (a : arch) : option outcome := Some (None, false, a).

Section Spec.
  Variable host : bool.

Definition memory_spec (f rd_ rs_ : Z) (a : arch) : option outcome :=
  let x := reg_at a rd_ in
  let place := locate (s32 (reg_at a rs_)) in
  match f with
  | 0 => nothing (a <| a_halted := true |>)
  | 1 =>
      match place with
      | Some (m, o) =>
          p ← access m (DoubleBuffer.fetch_word_from_inner o) a; value p.1 p.2
      | None => value (a_last a) a
      end%stdpp
  | 2 =>
      match place with
      | Some (m, o) => p ← access m (DoubleBuffer.store_word_from_inner o x) a; nothing p.2
      | None => nothing a
      end%stdpp
  | 3 =>
      match place with
      | Some (m, o) =>
          p ← access m (DoubleBuffer.fetch_half_from_inner host (Z.lxor o 2)) a;
          value (if (a_modes a).2 =? 0 then u32 (Z.shiftl p.1 16) else p.1) p.2
      | None => value (a_last a) a
      end%stdpp
  | 4 =>
      match place with
      | Some (m, o) =>
          p ← access m (DoubleBuffer.store_half_from_inner host (Z.lxor o 2)
                (if (a_modes a).2 =? 0 then Z.land (Z.shiftr x 16) 0xFFFF else Z.land x 0xFFFF)) a;
          nothing p.2
      | None => nothing a
      end%stdpp
  | 7 => value (control a rs_) a
  | _ => nothing a
  end.

Definition arith_spec (f x y : Z) (a : arch) : option outcome :=
  match f with
  | 1 => value y a
  | 2 => value (u32 (x + y)) a
  | 3 => value (u32 (x - y)) a
  | 4 => value (u32 (x * y)) a
  | 5 => value (Z.land x y) a
  | 6 => value (Z.lor x y) a
  | 7 => value (Z.lxor x y) a
  | 8 => value (u32 (Z.lnot y)) a
  | _ => nothing a
  end.

Definition exec_spec (i : Z) (a : arch) : option outcome :=
  let rd_ := reg_dst i in let rs_ := reg_src i in let x := reg_at a rd_ in let n := imm i in
  match opcode i with
  | 0 => arith_spec (func i) x (reg_at a rs_) a
  | 1 => memory_spec (func i) rd_ rs_ a
  | 3 => value (u32 (x * 256 + n)) a
  | 4 => Some (None, negb (x =? 0), a)
  | 5 => Some (None, true, a)
  | 8 => nothing (set_control rd_ n a)
  | 9 => value (u32 (x + n)) a
  | 10 => value (u32 (x - n)) a
  | 11 => if n <? 32 then value (u32 (x * 2 ^ n)) a else None
  | 12 => if n <? 32 then value (x / 2 ^ n) a else None
  | 13 => if n <? 32 then value (u32 (s32 x / 2 ^ n)) a else None
  | _ => nothing a
  end.

(** The write to register 15 is a jump; the branches are relative to the next instruction. *)
Definition finish (i : Z) (o : outcome) : arch :=
  match o with
  | (Some v, _, a) =>
      if reg_dst i =? PC_INDEX then a <| a_pc := v |> <| a_last := v |>
      else a <| a_regs ::= <[Z.to_nat (reg_dst i) := v]> |> <| a_last := v |> <| a_pc ::= λ p, u32 (p + 2) |>
  | (None, br, a) => a <| a_pc ::= λ p, u32 (p + 2 + (if (br : bool) then 2 * s8 (imm i) else 0)) |>
  end.
Definition isa_step (i : Z) (a : arch) : option arch := finish i <$> exec_spec i a.

End Spec.

(** ** Running an instruction *)

Definition idle (m : MadUnit.t) : Prop :=
  MadUnit.state m = MadUnit.IDLE ∧ MadUnit.next_state m = MadUnit.IDLE.
Definition with_mad (u : MadUnit.t) (s : sys) : sys := s <| self ::= λ c, c <| mad_unit := u |> |>.

(** The idle unit does nothing that matters. *)
Lemma idle_step host s : idle (mad_unit (self s)) →
  ∃ u, on_mad (MadUnit.step host) s = Some ((), with_mad u s, []) ∧ idle u.
Proof.
  intros [Hs Hn]. destruct s as [c ms w ar]. destruct (mad_unit c) as [st nx] eqn:Eu. cbn in Hs, Hn.
  rewrite Eu in Hs, Hn. cbn in Hs, Hn. subst.
  unfold on_mad, MadUnit.step. cbn [self mems]. rewrite Eu. cbn.
  destruct (0 <? wait_data_cycle); eexists; (split; [destruct c; reflexivity|done]).
Qed.

(** A cycle in a state that is not waiting. *)
Definition stage (host : bool) (st : stat) : M unit :=
  match st with
  | IF => if_stage host;; set status ID
  | ID => id_stage;; set status EX
  | EX => ex_stage host;; set status WB
  | WB =>
      wb_stage;; set status IF;;
      h ← get halt_issued;
      when h (set done true;; set halt_issued false)
  end.
Lemma stage_step_eq host s s' : isStall (self s) = false → stage host (status (self s)) s = Some ((), s', []) →
  idle (mad_unit (self s')) →
  ∃ u, idle u ∧ quietly (step host) s = Some (with_mad u s').
Proof.
  intros Hst Hs Hi. destruct (idle_step host s' Hi) as (u & Hu & Hi'). exists u. split; [done|].
  unfold quietly, step. rewrite gets_bind, Hst. fold (stage host (status (self s))).
  by rewrite (bind_eq _ _ _ _ _ Hs), Hu.
Qed.
Lemma step_none host s : isStall (self s) = false → stage host (status (self s)) s = None →
  quietly (step host) s = None.
Proof.
  intros Hst Hs. unfold quietly, step. rewrite gets_bind, Hst. fold (stage host (status (self s))).
  unfold bindM. by rewrite Hs.
Qed.

(** Before the instruction that [pc] points to. *)
Record at_fetch (s : sys) : Prop := {
  af_status : status (self s) = IF;
  af_stall : stall_cause (self s) = NO_STALL;
  af_running : done (self s) = false ∧ halt_issued (self s) = false;
  af_clear : reg_write (self s) = false ∧ isBranch (self s) = false;
  af_idle : idle (mad_unit (self s));
  af_regs : length (regs (self s)) = RFILE_SIZE
}.

(** The instruction is decoded and about to be executed. *)
Record decoded (i : Z) (s : sys) : Prop := {
  dc_status : status (self s) = EX;
  dc_stall : stall_cause (self s) = NO_STALL;
  dc_running : done (self s) = false ∧ halt_issued (self s) = false;
  dc_clear : reg_write (self s) = false ∧ isBranch (self s) = false;
  dc_idle : idle (mad_unit (self s));
  dc_regs : length (regs (self s)) = RFILE_SIZE;
  dc_fields : dec_opcode (self s) = opcode i ∧ dec_rd (self s) = reg_dst i ∧ dec_rs (self s) = reg_src i ∧
    dec_func (self s) = func i ∧ dec_imm (self s) = decode_imm i;
  dc_place : opcode i = 1 → is_mem_func (func i) = true →
    match locate (s32 (reg_at (arch_of s) (reg_src i))) with
    | Some (m, a) => access_mem (self s) = Some m ∧ access_address (self s) = a
    | None => access_mem (self s) = None
    end
}.

Lemma reg_eq i s : length (regs (self s)) = RFILE_SIZE → 0 ≤ i < 16 →
  reg i s = Some (reg_at (arch_of s) i, s, []).
Proof.
  intros Hl Hi. unfold reg, zoom, aget. rewrite gets_bind. unfold reg_at. cbn [arch_of a_regs].
  destruct (nthz_is_Some (regs (self s)) i) as [v ->]; [rewrite Hl; unfold RFILE_SIZE; lia|].
  by destruct s.
Qed.

Lemma instr_fields_range i : 0 ≤ i < 65536 →
  0 ≤ opcode i < 16 ∧ 0 ≤ reg_dst i < 16 ∧ 0 ≤ reg_src i < 16 ∧ 0 ≤ func i < 16 ∧ 0 ≤ imm i < 256.
Proof.
  intros Hi.
  assert (Hf : ∀ k, 0 ≤ k → 0 ≤ Z.shiftr (Z.land i (Z.shiftl (Z.ones 4) k)) k < 16).
  { intros k Hk. rewrite Z.shiftr_land, Z.shiftr_shiftl_l, Z.sub_diag, Z.shiftl_0_r, Z.land_ones by lia.
    apply Z.mod_pos_bound. lia. }
  unfold opcode, reg_dst, reg_src, func, imm.
  pose proof (Hf 12 ltac:(lia)). pose proof (Hf 8 ltac:(lia)). pose proof (Hf 4 ltac:(lia)).
  change 15 with (Z.ones 4). change 255 with (Z.ones 8). rewrite !Z.land_ones by lia.
  pose proof (Z.mod_pos_bound i (2 ^ 4) ltac:(lia)). pose proof (Z.mod_pos_bound i (2 ^ 8) ltac:(lia)).
  auto.
Qed.

(** *** The fetch and the decoding *)
Definition put {T} (p : t → T) {P : Setter p} (v : T) (s : sys) : sys := s <| self ::= P (λ _, v) |>.
Lemma set_bind {T B} (p : t → T) {P : Setter p} v (k : () → M B) s :
  bindM (set p v) k s = k () (put p v s).
Proof. by apply bind_eq. Qed.
Lemma put_set_eq {T} (p : t → T) {P : Setter p} v s : set p v s = Some ((), put p v s, []).
Proof. done. Qed.

Definition fetched (host : bool) (s : sys) : option Z :=
  match DoubleBuffer.fetch_half_from_inner host (Z.lxor (pc (self s)) 3) (CoreMem.imem (mems s)) with
  | Some (i, _, _) => Some i
  | None => None
  end.

Lemma fetch_part_look host n o b v b' e : DoubleBuffer.fetch_part host n o b = Some (v, b', e) → b' = b ∧ e = [].
Proof.
  unfold DoubleBuffer.fetch_part. rewrite gets_bind. unfold id.
  destruct (DoubleBuffer.exceeds o b); [by intros [= _ <- <-]|].
  destruct (nthz _ _); [|done]. by intros [= _ <- <-].
Qed.
Lemma fetch_half_range host o b v b' e :
  DoubleBuffer.fetch_half_from_inner host o b = Some (v, b', e) → 0 ≤ v < 65536.
Proof.
  unfold DoubleBuffer.fetch_half_from_inner, DoubleBuffer.fetch_part. rewrite gets_bind. unfold id.
  destruct (DoubleBuffer.exceeds o b); [by intros [= <- _ _]|].
  destruct (nthz _ _); [|done]. intros [= <- _ _]. unfold DoubleBuffer.part_of.
  rewrite Z.land_ones by lia. apply Z.mod_pos_bound. lia.
Qed.

Lemma if_eq host s i : fetched host s = Some i →
  stage host IF s = Some ((), put status ID (put fetch_instr i s), []).
Proof.
  unfold fetched. intros Hf. unfold stage, if_stage. rewrite bind_assoc. unfold get at 1. rewrite gets_bind.
  destruct (DoubleBuffer.fetch_half_from_inner _ _ _) as [[[v b] e]|] eqn:E; [|done]. injection Hf as ->.
  apply fetch_part_look in E as He. destruct He as [-> ->].
  rewrite bind_assoc, (bind_eq _ _ _ i s).
  - by rewrite set_bind.
  - unfold on_mem, zoom. rewrite (CoreMem.on_look CoreMem.IMEM _ _ i E). by destruct s.
Qed.
Lemma if_none host s : fetched host s = None → stage host IF s = None.
Proof.
  unfold fetched. intros Hf. unfold stage, if_stage. rewrite bind_assoc. unfold get at 1. rewrite gets_bind.
  destruct (DoubleBuffer.fetch_half_from_inner _ _ _) as [[[v b] e]|] eqn:E; [done|].
  unfold bindM, on_mem, zoom, CoreMem.on. cbn [CoreMem.buf]. by rewrite E.
Qed.

(** The arbiter lets every core in. *)
Definition grants (i : Z) (s : sys) : Prop :=
  opcode i = 1 → is_mem_func (func i) = true →
  ∀ a, locate (s32 (reg_at (arch_of s) (reg_src i))) = Some (WBUF, a) → wbuf_arb_mode (self s) = WbufArb.ARB_1CORE.

Definition decode_state (i : Z) (s : sys) : sys :=
  put dec_imm (decode_imm i) (put dec_func (func i) (put dec_rs (reg_src i)
    (put dec_rd (reg_dst i) (put dec_opcode (opcode i) s)))).

Lemma stall_handle_none s : stall_cause (self s) = NO_STALL → stall_handle s = Some ((), s, []).
Proof. intros E. unfold stall_handle. by rewrite gets_bind, E. Qed.
Lemma stall_handle_wbuf s : stall_cause (self s) = WBUF_STALL → is_mem_func (dec_func (self s)) = true →
  wbuf_arb_mode (self s) = WbufArb.ARB_1CORE →
  stall_handle s = Some ((), put stall_cause NO_STALL s, []).
Proof.
  intros E Hf Hm. unfold stall_handle. rewrite gets_bind, E. cbn [Z.eqb NO_STALL WBUF_STALL Pos.eqb].
  assert (Hw : ∀ acc, wbuf_stall acc s = Some ((), put stall_cause NO_STALL s, [])).
  { intros acc. unfold wbuf_stall. rewrite !gets_bind, Hm. unfold WbufArb.isAcquired.
    rewrite Z.eqb_refl, andb_false_r. done. }
  unfold is_mem_func in Hf.
  destruct (_ =? FUNC_LW), (_ =? FUNC_LH), (_ =? FUNC_SW), (_ =? FUNC_SH); (discriminate Hf || apply Hw).
Qed.

Lemma id_eq host i s : 0 ≤ i < 65536 → fetch_instr (self s) = i →
  stall_cause (self s) = NO_STALL → done (self s) = false ∧ halt_issued (self s) = false →
  reg_write (self s) = false ∧ isBranch (self s) = false → idle (mad_unit (self s)) →
  length (regs (self s)) = RFILE_SIZE → grants i s →
  ∃ s', stage host ID s = Some ((), s', []) ∧ decoded i s' ∧ arch_of s' = arch_of s.
Proof.
  intros Hi Hf Hn Hr Hc Hidle Hl Hg. destruct (instr_fields_range i Hi) as (_ & _ & Hrs & _).
  set (s1 := decode_state i s).
  enough (∃ s2, (address_calc;; stall_handle) s1 = Some ((), s2, []) ∧ decoded i (put status EX s2) ∧
    arch_of s2 = arch_of s) as (s2 & E & Hd & Ha).
  { exists (put status EX s2). split; [|done].
    unfold stage, id_stage. rewrite bind_assoc. unfold get at 1. rewrite gets_bind, Hf.
    rewrite bind_assoc. unfold decode. rewrite !bind_assoc, set_bind, bind_assoc, set_bind, bind_assoc, set_bind,
      bind_assoc, set_bind, set_bind. fold (decode_state i s). fold s1. by rewrite (bind_eq _ _ _ _ _ E). }
  unfold address_calc. rewrite bind_assoc, gets_bind.
  change (dec_opcode (self s1)) with (opcode i). change (dec_func (self s1)) with (func i).
  change (dec_rs (self s1)) with (reg_src i).
  destruct (Z.eqb_spec (opcode i) OPCODE_RTYPE1) as [Ho|Ho]; cycle 1.
  { rewrite set_bind, stall_handle_none by exact Hn. eexists. split; [reflexivity|].
    split; [split; try assumption; [reflexivity|by split_and!|done]|reflexivity]. }
  destruct (is_mem_func (func i)) eqn:Hm; cbn [when]; cycle 1.
  { rewrite ret_bind, stall_handle_none by exact Hn. eexists. split; [reflexivity|].
    split; [split; try assumption; [reflexivity|by split_and!|by rewrite Hm]|reflexivity]. }
  rewrite bind_assoc, (bind_eq _ _ _ _ _ (reg_eq (reg_src i) s1 Hl Hrs)).
  change (reg_at (arch_of s1) (reg_src i)) with (reg_at (arch_of s) (reg_src i)).
  specialize (Hg Ho Hm). destruct (locate (s32 (reg_at (arch_of s) (reg_src i)))) as [[m a]|] eqn:El.
  - rewrite bind_assoc, set_bind, bind_assoc, set_bind. destruct m as [k|]; cbn [when].
    + rewrite bool_decide_eq_false_2 by discriminate. cbn [when]. rewrite ret_bind, stall_handle_none by exact Hn.
      eexists. split; [reflexivity|]. split; [split; try assumption; [reflexivity|by split_and!|]|reflexivity].
      intros _ _. change (reg_at (arch_of _) (reg_src i)) with (reg_at (arch_of s) (reg_src i)). by rewrite El.
    + rewrite bool_decide_eq_true_2 by reflexivity. cbn [when].
      rewrite set_bind, stall_handle_wbuf; [|reflexivity|exact Hm|by apply (Hg a)].
      eexists. split; [reflexivity|]. split; [split; try assumption; [reflexivity|reflexivity|by split_and!|]|reflexivity].
      intros _ _. change (reg_at (arch_of _) (reg_src i)) with (reg_at (arch_of s) (reg_src i)). by rewrite El.
  - rewrite set_bind, stall_handle_none by exact Hn. eexists. split; [reflexivity|].
    split; [split; try assumption; [reflexivity|by split_and!|]|reflexivity].
    intros _ _. change (reg_at (arch_of _) (reg_src i)) with (reg_at (arch_of s) (reg_src i)). by rewrite El.
Qed.

(** *** The execution *)

(** Instructions that leave the multiply-and-add unit alone. *)
Definition plain (i : Z) : bool :=
  negb ((opcode i =? 6) || (opcode i =? 7) || (opcode i =? 2) && (func i =? 1)).

Definition with_last (w : option Z) (a : arch) : arch :=
  match w with Some v => a <| a_last := v |> | None => a end.

(** The state after the execution of [i], with its outcome. *)
Record executed (i : Z) (w : option Z) (br : bool) (a : arch) (s : sys) : Prop := {
  ex_stall : stall_cause (self s) = NO_STALL;
  ex_running : done (self s) = false;
  ex_idle : idle (mad_unit (self s));
  ex_regs : length (regs (self s)) = RFILE_SIZE;
  ex_fields : dec_rd (self s) = reg_dst i ∧ dec_imm (self s) = decode_imm i;
  ex_write : reg_write (self s) = match w with Some _ => true | None => false end;
  ex_branch : isBranch (self s) = br;
  ex_last : ∀ v, w = Some v → reg_write_data (self s) = v;
  ex_arch : arch_of s = with_last w a
}.

Definition runs_as (i : Z) (o : option outcome) (r : option (unit * sys * list exc_event)) : Prop :=
  match o with
  | Some (w, br, a) => ∃ s', r = Some ((), s', []) ∧ executed i w br a s'
  | None => r = None
  end.

Lemma dispatch_eq table i m s : nthz table i = Some m → dispatch table i s = m s.
Proof. intros E. unfold dispatch, from_option. by rewrite E, ret_bind. Qed.

Lemma decode_imm_plain i : opcode i ≠ 4 → opcode i ≠ 5 → decode_imm i = imm i.
Proof.
  intros H4 H5. unfold decode_imm, OPCODE_BNEQ, OPCODE_JUMP.
  by rewrite (proj2 (Z.eqb_neq _ _) H4), (proj2 (Z.eqb_neq _ _) H5).
Qed.

Section Executed.
  Context (host : bool) (i : Z) (s : sys).
  Hypotheses (Hi : 0 ≤ i < 65536) (Hd : decoded i s).

Lemma write_eq v : runs_as i (value v (arch_of s)) (write v s).
Proof.
  destruct Hd as [? ? [? ?] [? ?] ? ? (? & ? & ? & ? & ?) _]. unfold write. rewrite set_bind.
  eexists. split; [reflexivity|]. split; try assumption; try reflexivity; [by split|by intros ? [= <-]].
Qed.
Lemma nothing_eq : runs_as i (nothing (arch_of s)) ((mret () : M unit) s).
Proof.
  destruct Hd as [? ? [? ?] [? ?] ? ? (? & ? & ? & ? & ?) _].
  eexists. split; [reflexivity|]. split; try assumption; try reflexivity; [by split|discriminate].
Qed.
Lemma branch_eq : runs_as i (Some (None, true, arch_of s)) (set isBranch true s).
Proof.
  destruct Hd as [? ? [? ?] [? ?] ? ? (? & ? & ? & ? & ?) _].
  eexists. split; [reflexivity|]. split; try assumption; try reflexivity; [by split|discriminate].
Qed.

Lemma rd_eq : reg (dec_rd (self s)) s = Some (reg_at (arch_of s) (reg_dst i), s, []).
Proof.
  destruct Hd as [_ _ _ _ _ Hl (_ & -> & _) _]. apply reg_eq; [done|]. by apply instr_fields_range.
Qed.
Lemma rs_eq : reg (dec_rs (self s)) s = Some (reg_at (arch_of s) (reg_src i), s, []).
Proof.
  destruct Hd as [_ _ _ _ _ Hl (_ & _ & -> & _) _]. apply reg_eq; [done|]. by apply instr_fields_range.
Qed.
Lemma binop_eq f : runs_as i (value (f (reg_at (arch_of s) (reg_dst i)) (reg_at (arch_of s) (reg_src i))) (arch_of s))
  (binop f s).
Proof. unfold binop. rewrite gets_bind, (bind_eq _ _ _ _ _ rd_eq), (bind_eq _ _ _ _ _ rs_eq). apply write_eq. Qed.
Lemma unop_eq f : runs_as i (value (f (reg_at (arch_of s) (reg_src i))) (arch_of s)) (unop f s).
Proof. unfold unop. rewrite gets_bind, (bind_eq _ _ _ _ _ rs_eq). apply write_eq. Qed.
Lemma immop_eq f : opcode i ≠ 4 → opcode i ≠ 5 →
  runs_as i (value (f (reg_at (arch_of s) (reg_dst i)) (imm i)) (arch_of s)) (immop f s).
Proof.
  intros H4 H5. unfold immop. rewrite gets_bind, (bind_eq _ _ _ _ _ rd_eq).
  replace (dec_imm (self s)) with (imm i); [apply write_eq|].
  destruct Hd as [_ _ _ _ _ _ (_ & _ & _ & _ & ->) _]. by rewrite decode_imm_plain.
Qed.

Lemma shift_eq f g : opcode i ≠ 4 → opcode i ≠ 5 → (∀ x n, 0 ≤ n < 32 → f x n = g x n) →
  runs_as i (if imm i <? 32 then value (g (reg_at (arch_of s) (reg_dst i)) (imm i)) (arch_of s) else None)
    (shift f s).
Proof.
  intros H4 H5 Hfg. unfold shift. rewrite gets_bind.
  assert (E : dec_imm (self s) = imm i).
  { destruct Hd as [_ _ _ _ _ _ (_ & _ & _ & _ & ->) _]. by rewrite decode_imm_plain. }
  rewrite E. destruct (instr_fields_range i Hi) as (_ & _ & _ & _ & Hn).
  destruct (Z.leb_spec 32 (imm i)), (Z.ltb_spec (imm i) 32); try lia; [done|].
  rewrite <- Hfg by lia. by apply immop_eq.
Qed.

(** The control registers. *)
Lemma setcr_eq : opcode i = 8 →
  runs_as i (nothing (set_control (reg_dst i) (imm i) (arch_of s))) (Setcr s).
Proof.
  intros Ho. destruct (instr_fields_range i Hi) as (_ & Hrd & _ & _ & Hn).
  destruct Hd as [? ? [? ?] [? ?] ? ? (? & E & ? & ? & En) _]. unfold Setcr. rewrite gets_bind, E.
  assert (dec_imm (self s) = imm i) as -> by (by rewrite En, decode_imm_plain by lia).
  assert (Hc : reg_dst i = 1 ∨ reg_dst i = 2 ∨ reg_dst i = 3 ∨ reg_dst i = 4 ∨ reg_dst i = 5 ∨
    reg_dst i = 6 ∨ (∀ k, 1 ≤ k ≤ 6 → reg_dst i =? k = false) ∧
      set_control (reg_dst i) (imm i) (arch_of s) = arch_of s).
  { destruct (reg_dst i) as [|[[[]|[]|]|[[]|[]|]|]|]; try lia; try tauto; repeat right;
      (split; [intros k Hk; apply Z.eqb_neq; lia|done]). }
  assert (Hs : s32 (imm i) = imm i ∧ u8 (imm i) = imm i) by (rewrite s32_small, u8_small by lia; done).
  destruct Hs as [Hs Hu].
  destruct Hc as [-> |[-> |[-> |[-> |[-> |[-> |[Hk Ha]]]]]]]; cbn [Z.eqb Pos.eqb].
  all: rewrite ?Hs, ?Hu, ?set_bind, ?Ha.
  1-6: eexists; (split; [reflexivity|]); split; try assumption; try (by split); try discriminate.
  - unfold arch_of, with_last, set_control. cbn -[Z.land Z.shiftr Z.modulo Z.div].
    change 15 with (Z.ones 4). rewrite Z.land_ones by lia.
    replace (Z.shiftr (Z.land (imm i) 240) 4) with (imm i / 16); [done|].
    change 240 with (Z.shiftl (Z.ones 4) 4).
    rewrite Z.shiftr_land, Z.shiftr_shiftl_l, Z.sub_diag, Z.shiftl_0_r, Z.land_ones, Z.shiftr_div_pow2 by lia.
    change (2 ^ 4) with 16. symmetry. apply Z.mod_small. Z.to_euclidean_division_equations. lia.
  - rewrite !Hk by lia. apply nothing_eq.
Qed.

Lemma readcr_eq : runs_as i (value (control (arch_of s) (reg_src i)) (arch_of s)) (Readcr s).
Proof.
  destruct (instr_fields_range i Hi) as (_ & _ & Hrs & _).
  assert (E : dec_rs (self s) = reg_src i) by (by destruct Hd as [_ _ _ _ _ _ (_ & _ & -> & _) _]).
  unfold Readcr. rewrite gets_bind, E.
  replace (if reg_src i =? 0 then _ else _) with (control (arch_of s) (reg_src i));
    [apply write_eq|].
  destruct (reg_src i) as [|[[[]|[]|]|[[]|[]|]|]|]; try lia; reflexivity.
Qed.

(** The memory instructions. *)
Definition with_mems (a : arch) (s : sys) : sys := s <| mems := a_mems a |> <| wbuf := a_wbuf a |>.

Lemma on_mem_eq {A} m (act : Effects.M DoubleBuffer.t A) :
  quiet act →
  on_mem m act s = match access m act (arch_of s) with
                   | Some (v, a) => Some (v, with_mems a s, [])
                   | None => None
                   end.
Proof.
  intros Hq. unfold on_mem, access, zoom, CoreMem.on. cbn [arch_of a_mems a_wbuf].
  destruct m as [k|].
  - destruct (act (CoreMem.buf k (mems s))) as [[[v b] e]|] eqn:E; [|done].
    apply Hq in E as ->. by destruct s.
  - destruct (act (wbuf s)) as [[[v b] e]|] eqn:E; [|done]. apply Hq in E as ->. by destruct s.
Qed.
Lemma access_shape {A} m (act : Effects.M DoubleBuffer.t A) a v a' :
  access m act a = Some (v, a') → a' = a <| a_mems := a_mems a' |> <| a_wbuf := a_wbuf a' |>.
Proof.
  unfold access. destruct m as [k|].
  - destruct (act _) as [[[? ?] []]|]; [|done|done]. intros [= _ <-]. by destruct a.
  - destruct (act _) as [[[? ?] []]|]; [|done|done]. intros [= _ <-]. by destruct a.
Qed.

(** The end of a load: what it writes is [w], from the state [a] of the memories. *)
Lemma load_end w a : a = (arch_of s) <| a_mems := a_mems a |> <| a_wbuf := a_wbuf a |> →
  runs_as i (value w a) (Some ((), put reg_write true (put reg_write_data w (with_mems a s)), [])).
Proof.
  intros Ea. destruct Hd as [? ? [? ?] [? ?] ? ? (? & ? & ? & ? & ?) _].
  eexists. split; [reflexivity|]. split; try assumption; try reflexivity; [by split|by intros ? [= <-]|].
  rewrite Ea. reflexivity.
Qed.
Lemma store_end a : a = (arch_of s) <| a_mems := a_mems a |> <| a_wbuf := a_wbuf a |> →
  runs_as i (nothing a) (Some ((), with_mems a s, [])).
Proof.
  intros Ea. destruct Hd as [? ? [? ?] [? ?] ? ? (? & ? & ? & ? & ?) _].
  eexists. split; [reflexivity|]. split; try assumption; try reflexivity; [by split|discriminate|].
  rewrite Ea. reflexivity.
Qed.

Definition place : option (mem * Z) := locate (s32 (reg_at (arch_of s) (reg_src i))).
Lemma place_eq : opcode i = 1 → is_mem_func (func i) = true →
  match place with
  | Some (m, o) => access_mem (self s) = Some m ∧ access_address (self s) = o
  | None => access_mem (self s) = None
  end.
Proof. apply Hd. Qed.

(** A load through [act] whose register value is [f] of what is read. *)
Lemma load_instr_eq (act : Z → Effects.M DoubleBuffer.t Z) (f : Z → Z) (k : M unit) :
  (∀ o, quiet (act o)) → opcode i = 1 → is_mem_func (func i) = true →
  k s = (match access_mem (self s) with
         | Some m => w ← on_mem m (act (access_address (self s))); set reg_write_data (f w)
         | None => mret ()
         end;; set reg_write true) s →
  runs_as i (match place with
             | Some (m, o) =>
                 match access m (act o) (arch_of s) with
                 | Some (w, a) => value (f w) a
                 | None => None
                 end
             | None => value (a_last (arch_of s)) (arch_of s)
             end) (k s).
Proof.
  intros Hq Ho Hf ->. pose proof (place_eq Ho Hf) as Hp. destruct place as [[m o]|].
  - destruct Hp as [-> ->]. rewrite bind_assoc. unfold bindM at 1. rewrite (on_mem_eq m (act o) (Hq o)).
    destruct (access m (act o) (arch_of s)) as [[w a]|] eqn:E; [|done].
    rewrite set_bind, put_set_eq. apply access_shape in E. by apply (load_end (f w) a).
  - rewrite Hp, ret_bind, put_set_eq. destruct Hd as [? ? [? ?] [? ?] ? ? (? & ? & ? & ? & ?) _].
    eexists. split; [reflexivity|]. split; try assumption; try reflexivity; [by split|by intros ? [= <-]].
Qed.

(** A store of [v]. *)
Lemma store_eq (act : Z → Z → Effects.M DoubleBuffer.t unit) (f : Z → Z) (k : M unit) :
  (∀ o v, quiet (act o v)) → opcode i = 1 → is_mem_func (func i) = true →
  k s = (match access_mem (self s) with
         | Some m => x ← reg (dec_rd (self s)); on_mem m (act (access_address (self s)) (f x))
         | None => mret ()
         end) s →
  runs_as i (match place with
             | Some (m, o) =>
                 match access m (act o (f (reg_at (arch_of s) (reg_dst i)))) (arch_of s) with
                 | Some (_, a) => nothing a
                 | None => None
                 end
             | None => nothing (arch_of s)
             end) (k s).
Proof.
  intros Hq Ho Hf ->. pose proof (place_eq Ho Hf) as Hp. destruct place as [[m o]|].
  - destruct Hp as [-> ->]. rewrite (bind_eq _ _ _ _ _ rd_eq), (on_mem_eq m _ (Hq o _)).
    destruct (access m _ (arch_of s)) as [[[] a]|] eqn:E; [|done].
    apply access_shape in E. by apply store_end.
  - rewrite Hp. apply nothing_eq.
Qed.

End Executed.

Lemma quiet_fetch_part host n o : quiet (DoubleBuffer.fetch_part host n o).
Proof. intros b v b' e E. by apply fetch_part_look in E as [_ ->]. Qed.
Lemma quiet_store_part host n o v : quiet (DoubleBuffer.store_part host n o v).
Proof.
  intros b v' b' e. unfold DoubleBuffer.store_part. rewrite gets_bind. unfold id.
  destruct (DoubleBuffer.exceeds o b); [by intros [= _ <- <-]|].
  destruct (nthz _ _); [|done]. cbn [from_option]. rewrite ret_bind. destruct (setz _ _ _); [|done].
  by intros [= _ <- <-].
Qed.
Lemma quiet_fetch_word o : quiet (DoubleBuffer.fetch_word_from_inner o).
Proof.
  intros b v b' e. unfold DoubleBuffer.fetch_word_from_inner. rewrite gets_bind. unfold id.
  destruct (DoubleBuffer.exceeds o b); [by intros [= _ <- <-]|]. destruct (nthz _ _); [|done].
  by intros [= _ <- <-].
Qed.
Lemma quiet_store_word o v : quiet (DoubleBuffer.store_word_from_inner o v).
Proof.
  intros b v' b' e. unfold DoubleBuffer.store_word_from_inner. rewrite gets_bind. unfold id.
  destruct (DoubleBuffer.exceeds o b); [by intros [= _ <- <-]|]. destruct (setz _ _ _); [|done].
  by intros [= _ <- <-].
Qed.

Lemma case16 z : 0 ≤ z < 16 →
  z = 0 ∨ z = 1 ∨ z = 2 ∨ z = 3 ∨ z = 4 ∨ z = 5 ∨ z = 6 ∨ z = 7 ∨ z = 8 ∨ z = 9 ∨ z = 10 ∨ z = 11 ∨
  z = 12 ∨ z = 13 ∨ z = 14 ∨ z = 15.
Proof. lia. Qed.
Ltac case16 H := apply case16 in H;
  destruct H as [H|[H|[H|[H|[H|[H|[H|[H|[H|[H|[H|[H|[H|[H|[H|H]]]]]]]]]]]]]]].

Lemma halt_eq i s : 0 ≤ i < 65536 → decoded i s →
  runs_as i (nothing ((arch_of s) <| a_halted := true |>)) (Halt s).
Proof.
  intros Hi Hd. destruct Hd as [? ? [? ?] [? ?] ? ? (? & ? & ? & ? & ?) _].
  eexists. split; [reflexivity|]. split; try assumption; try reflexivity; [by split|discriminate].
Qed.

Lemma memory_eq host i s : 0 ≤ i < 65536 → decoded i s → opcode i = 1 →
  runs_as i (memory_spec host (func i) (reg_dst i) (reg_src i) (arch_of s))
    (RTypeMemory host s).
Proof.
  intros Hi Hd Ho. destruct (instr_fields_range i Hi) as (_ & _ & _ & Hf & _).
  unfold RTypeMemory. rewrite gets_bind.
  assert (dec_func (self s) = func i) as -> by apply Hd.
  assert (Hm : func i = 1 ∨ func i = 2 ∨ func i = 3 ∨ func i = 4 → is_mem_func (func i) = true)
    by (by intros [-> |[-> |[-> | ->]]]).
  assert (Hc : ∀ k m, func i = k → nthz (kRTypeMemoryTable host) k = Some m →
    dispatch (kRTypeMemoryTable host) (func i) s = m s) by (intros k m -> ?; by apply dispatch_eq).
  case16 Hf; rewrite (Hc _ _ Hf eq_refl), Hf; cbn [memory_spec].
  all: try exact (nothing_eq i s Hd).
  - by apply halt_eq.
  - pose proof (load_instr_eq i s Hd DoubleBuffer.fetch_word_from_inner id Loadw quiet_fetch_word Ho
      (Hm ltac:(auto)) (gets_bind _ _ _)) as H. unfold place in H. destruct (locate _) as [[m o]|]; [|exact H].
    destruct (access m _ _) as [[w a]|]; exact H.
  - pose proof (store_eq i s Hi Hd DoubleBuffer.store_word_from_inner id Storew quiet_store_word Ho
      (Hm ltac:(auto)) (gets_bind _ _ _)) as H. unfold place in H. destruct (locate _) as [[m o]|]; [|exact H].
    unfold id in H. destruct (access m _ _) as [[[] a]|]; exact H.
  - pose proof (load_instr_eq i s Hd (λ o, DoubleBuffer.fetch_half_from_inner host (Z.lxor o 2))
      (λ h, if access_mode (self s) =? 0 then u32 (Z.shiftl h 16) else h) (Loadh host)
      (λ o, quiet_fetch_part host 2 _) Ho (Hm ltac:(auto)) (gets_bind _ _ _)) as H.
    unfold place in H. destruct (locate _) as [[m o]|]; [|exact H].
    destruct (access m _ _) as [[w a]|] eqn:E; [|exact H]. apply access_shape in E.
    cbn. replace (a_modes a) with (a_modes (arch_of s)) by (by rewrite E). exact H.
  - pose proof (store_eq i s Hi Hd (λ o v, DoubleBuffer.store_half_from_inner host (Z.lxor o 2) v)
      (λ x, if access_mode (self s) =? 0 then Z.land (Z.shiftr x 16) 0xFFFF else Z.land x 0xFFFF) (Storeh host)
      (λ o v, quiet_store_part host 2 _ v) Ho (Hm ltac:(auto)) (gets_bind _ _ _)) as H.
    unfold place in H. destruct (locate _) as [[m o]|]; [|exact H].
    cbn [a_modes arch_of snd]. destruct (access m _ _) as [[[] a]|]; exact H.
  - by apply readcr_eq.
Qed.

Lemma arith_eq i s : 0 ≤ i < 65536 → decoded i s →
  runs_as i (arith_spec (func i) (reg_at (arch_of s) (reg_dst i)) (reg_at (arch_of s) (reg_src i)) (arch_of s))
    (RTypeArithmetic s).
Proof.
  intros Hi Hd. destruct (instr_fields_range i Hi) as (_ & _ & _ & Hf & _).
  unfold RTypeArithmetic. rewrite gets_bind.
  assert (dec_func (self s) = func i) as -> by apply Hd.
  assert (Hc : ∀ k m, func i = k → nthz kRTypeArithmeticTable k = Some m →
    dispatch kRTypeArithmeticTable (func i) s = m s) by (intros k m -> ?; by apply dispatch_eq).
  case16 Hf; rewrite (Hc _ _ Hf eq_refl), Hf; cbn [arith_spec];
    first [exact (nothing_eq i s Hd)
          |exact (binop_eq i s Hi Hd _)
          |exact (unop_eq i s Hi Hd _)].
Qed.

Lemma bneq_eq i s : 0 ≤ i < 65536 → decoded i s →
  runs_as i (Some (None, negb (reg_at (arch_of s) (reg_dst i) =? 0), arch_of s)) (Bneq s).
Proof.
  intros Hi Hd. unfold Bneq. rewrite gets_bind, (bind_eq _ _ _ _ _ (rd_eq i s Hi Hd)). unfold nz.
  destruct (reg_at _ _ =? 0); [exact (nothing_eq i s Hd)|exact (branch_eq i s Hd)].
Qed.

Lemma simd_eq i s : 0 ≤ i < 65536 → decoded i s → func i ≠ 1 →
  runs_as i (nothing (arch_of s)) (RTypeSimd s).
Proof.
  intros Hi Hd H1. destruct (instr_fields_range i Hi) as (_ & _ & _ & Hf & _).
  unfold RTypeSimd. rewrite gets_bind.
  assert (dec_func (self s) = func i) as -> by apply Hd.
  assert (Hc : ∀ k m, func i = k → nthz kRTypeSimdTable k = Some m →
    dispatch kRTypeSimdTable (func i) s = m s) by (intros k m -> ?; by apply dispatch_eq).
  case16 Hf; try lia; rewrite (Hc _ _ Hf eq_refl); exact (nothing_eq i s Hd).
Qed.

Lemma loadi_value x n : u32 (u32 (Z.shiftl (Z.land x 0x00FFFFFF) 8) + n) = u32 (x * 256 + n).
Proof.
  rewrite u32_add_l. change 0x00FFFFFF with (Z.ones 24). rewrite Z.land_ones, Z.shiftl_mul_pow2 by lia.
  unfold u32, wrap. change (2 ^ 8) with 256. rewrite (Z.mod_eq x) by lia.
  replace ((x - 2 ^ 24 * (x / 2 ^ 24)) * 256 + n) with (x * 256 + n + - (x / 2 ^ 24) * 2 ^ 32) by ring.
  apply Z_mod_plus_full.
Qed.

Lemma ex_eq host i s : 0 ≤ i < 65536 → decoded i s → plain i = true →
  runs_as i (exec_spec host i (arch_of s)) (ex_stage host s).
Proof.
  intros Hi Hd Hp. destruct (instr_fields_range i Hi) as (Hop & _).
  unfold ex_stage. rewrite gets_bind.
  assert (dec_opcode (self s) = opcode i) as -> by apply Hd.
  assert (Hc : ∀ k m, opcode i = k → nthz (kOpcodeTable host) k = Some m →
    dispatch (kOpcodeTable host) (opcode i) s = m s) by (intros k m -> ?; by apply dispatch_eq).
  unfold plain in Hp. unfold exec_spec. cbv zeta.
  assert (Hs : ∀ f g, opcode i ≠ 4 → opcode i ≠ 5 → (∀ x n, 0 ≤ n < 32 → f x n = g x n) → _)
    by exact (shift_eq i s Hi Hd).
  assert (Hm : ∀ f, opcode i ≠ 4 → opcode i ≠ 5 → _) by exact (immop_eq i s Hi Hd).
  case16 Hop; rewrite Hop in Hp; cbn in Hp; try discriminate; rewrite (Hc _ _ Hop eq_refl).
  all: pattern (opcode i) at 1; rewrite Hop; cbv beta iota.
  - by apply arith_eq.
  - by apply memory_eq.
  - apply simd_eq; [done..|]. intros E. by rewrite E in Hp.
  - rewrite <- loadi_value. apply (Hm (λ x i, u32 (u32 (Z.shiftl (Z.land x 0x00FFFFFF) 8) + i))); lia.
  - by apply bneq_eq.
  - exact (branch_eq i s Hd).
  - by apply setcr_eq.
  - apply (Hm (λ x i, u32 (x + i))); lia.
  - apply (Hm (λ x i, u32 (x - i))); lia.
  - apply (Hs _ (λ x i, u32 (x * 2 ^ i))); [lia..|]. intros x n Hn. by rewrite Z.shiftl_mul_pow2 by lia.
  - apply (Hs _ (λ x i, x / 2 ^ i)); [lia..|]. intros x n Hn. by rewrite Z.shiftr_div_pow2 by lia.
  - apply (Hs _ (λ x i, u32 (s32 x / 2 ^ i))); [lia..|]. intros x n Hn. by rewrite Z.shiftr_div_pow2 by lia.
  - exact (nothing_eq i s Hd).
  - exact (nothing_eq i s Hd).
Qed.

(** Only the two branches branch, and they write nothing. *)
Lemma memory_straight host f rd_ rs_ a w br a' : 0 ≤ f < 16 →
  memory_spec host f rd_ rs_ a = Some (w, br, a') → br = false.
Proof.
  intros Hf. unfold memory_spec. cbv zeta. case16 Hf; subst f; try (by intros [= _ <- _]).
  all: destruct (locate _) as [[m o]|]; [|by intros [= _ <- _]].
  all: destruct (access m _ a) as [[v a1]|]; [by intros [= _ <- _]|done].
Qed.
Lemma exec_straight host i a w a' : 0 ≤ i < 65536 →
  exec_spec host i a = Some (w, true, a') → w = None ∧ (opcode i = 4 ∨ opcode i = 5).
Proof.
  intros Hi. destruct (instr_fields_range i Hi) as (Hop & _ & _ & Hf & _). unfold exec_spec. cbv zeta.
  case16 Hop; pattern (opcode i) at 1; rewrite Hop; cbv beta iota; try discriminate.
  - unfold arith_spec. case16 Hf; rewrite Hf; discriminate.
  - intros E. apply memory_straight in E; done.
  - intros [= <- _ _]. auto.
  - intros [= <- _]. auto.
  - destruct (_ <? _); discriminate.
  - destruct (_ <? _); discriminate.
  - destruct (_ <? _); discriminate.
Qed.

(** The state after the write back. *)
Definition after_wb (s : sys) : sys :=
  let c := self s in
  let s1 := if reg_write c && negb (dec_rd c =? PC_INDEX)
            then put regs (<[Z.to_nat (dec_rd c) := reg_write_data c]> (regs c)) s else s in
  let s2 := put pc (if reg_write c && (dec_rd c =? PC_INDEX) then reg_write_data c
                    else if isBranch c then u32 (u32 (pc c + 2) + u32 (2 * dec_imm c)) else u32 (pc c + 2)) s1 in
  let s3 := put status IF (put reg_write false (put isBranch false s2)) in
  if halt_issued c then put halt_issued false (put done true s3) else s3.

Lemma wb_stage_eq host s : length (regs (self s)) = RFILE_SIZE → 0 ≤ dec_rd (self s) < 16 →
  stage host WB s = Some ((), after_wb s, []).
Proof.
  intros Hl Hrd. unfold stage, wb_stage, after_wb. rewrite bind_assoc, gets_bind, bind_assoc.
  set (s1 := if reg_write (self s) && negb (dec_rd (self s) =? PC_INDEX) then _ else s).
  rewrite (bind_eq _ _ _ () s1); cycle 1.
  { subst s1. destruct (reg_write (self s) && _); cbn [when]; [|done].
    unfold zoom, aset. rewrite gets_bind, setz_Some by (rewrite Hl; unfold RFILE_SIZE; lia). done. }
  assert (Hh : halt_issued (self s1) = halt_issued (self s)) by (subst s1; by destruct (reg_write (self s) && _)).
  rewrite <- Hh. set (c := self s). clearbody c s1.
  rewrite bind_assoc. rewrite (bind_eq _ _ _ () (put pc (if reg_write c && (dec_rd c =? PC_INDEX) then reg_write_data c
    else if isBranch c then u32 (u32 (pc c + 2) + u32 (2 * dec_imm c)) else u32 (pc c + 2)) s1));
    [|by destruct (reg_write c && _)].
  rewrite bind_assoc, set_bind, set_bind, set_bind. unfold get. rewrite gets_bind.
  set (s3 := put status IF _). change (halt_issued (self s3)) with (halt_issued (self s1)).
  destruct (halt_issued (self s1)); cbn [when]; [|done]. by rewrite set_bind.
Qed.

Lemma branch_target p z : u32 (u32 (p + 2) + u32 (2 * u32 z)) = u32 (p + 2 + 2 * z).
Proof.
  rewrite u32_add_l, u32_add_r. unfold u32, wrap.
  rewrite <- (Z.add_mod_idemp_r (p + 2) (2 * z)), <- (Z.add_mod_idemp_r (p + 2) (2 * (z mod 2 ^ 32))) by lia.
  by rewrite Z.mul_mod_idemp_r by lia.
Qed.

Lemma wb_arch i w br a s : 0 ≤ i < 65536 → executed i w br a s →
  (br = true → w = None ∧ (opcode i = 4 ∨ opcode i = 5)) →
  arch_of (after_wb s) = finish i (w, br, a).
Proof.
  intros Hi [_ Hdone _ _ [Hrd Him] Hw Hbr Hlast Harch] Hb.
  destruct a as [id_ r p last h k st fp wa md ms wb]. destruct s as [c ms' wb' ar].
  destruct c. unfold arch_of in Harch. cbn in *. subst. rewrite orb_false_r in Harch.
  unfold after_wb. cbn [self reg_write dec_rd reg_write_data isBranch halt_issued pc regs dec_imm].
  destruct w as [v|]; cbn [with_last] in Harch.
  - assert (br = false) as -> by (destruct br; [by destruct (Hb eq_refl)|done]).
    specialize (Hlast v eq_refl). subst. injection Harch; intros; subst. unfold finish.
    destruct (reg_dst i =? PC_INDEX), h; reflexivity.
  - injection Harch; intros; subst. unfold finish. destruct br.
    + destruct (Hb eq_refl) as [_ Ho].
      assert (decode_imm i = u32 (s8 (imm i))) as E.
      { unfold decode_imm, OPCODE_BNEQ, OPCODE_JUMP. by destruct Ho as [-> | ->]. }
      rewrite E. cbn [andb]. rewrite branch_target. destruct h; reflexivity.
    + rewrite Z.add_0_r. destruct h; reflexivity.
Qed.

(** *** Instructions and programs *)

(** A core that has executed [Halt]. *)
Record halted (s : sys) : Prop := {
  ha_done : done (self s) = true ∧ halt_issued (self s) = false;
  ha_stall : stall_cause (self s) = NO_STALL;
  ha_idle : idle (mad_unit (self s))
}.
Definition settled (s : sys) : Prop := if a_halted (arch_of s) then halted s else at_fetch s.

Lemma decoded_mad i u s : idle u → decoded i s → decoded i (with_mad u s).
Proof. by intros ? []. Qed.
Lemma executed_mad i w br a u s : idle u → executed i w br a s → executed i w br a (with_mad u s).
Proof. by intros ? []. Qed.
Lemma executed_status i w br a st s : executed i w br a s → executed i w br a (put status st s).
Proof. by intros []. Qed.

Lemma settled_wb i w br a u s : idle u → 0 ≤ reg_dst i < 16 → executed i w br a s →
  settled (with_mad u (after_wb s)).
Proof.
  intros Hu Hrd [Hst Hd _ Hl [Erd _] _ _ _ _].
  assert (Hn : length (regs (self (after_wb s))) = RFILE_SIZE).
  { unfold after_wb. destruct (reg_write (self s) && negb _), (halt_issued (self s)); cbn; rewrite ?length_insert; done. }
  unfold settled. change (a_halted (arch_of (with_mad u (after_wb s)))) with
    (halt_issued (self (after_wb s)) || done (self (after_wb s))).
  assert (Hs : stall_cause (self (after_wb s)) = NO_STALL ∧ status (self (after_wb s)) = IF ∧
    reg_write (self (after_wb s)) = false ∧ isBranch (self (after_wb s)) = false ∧
    halt_issued (self (after_wb s)) = false ∧ done (self (after_wb s)) = halt_issued (self s)).
  { unfold after_wb. destruct (reg_write (self s) && negb _), (halt_issued (self s)) eqn:E; cbn; auto 10. }
  destruct Hs as (Hs1 & Hs2 & Hs3 & Hs4 & Hs5 & Hs6). rewrite Hs5. cbn [orb].
  destruct (done (self (after_wb s))) eqn:E; by split.
Qed.

(** Four cycles are an instruction. *)
Lemma instruction host i s : at_fetch s → fetched host s = Some i → plain i = true → grants i s →
  match isa_step host i (arch_of s) with
  | Some a => ∃ s', cycles (quietly (step host)) 4 s = Some s' ∧ arch_of s' = a ∧ settled s'
  | None => cycles (quietly (step host)) 4 s = None
  end.
Proof.
  intros Ha Hf Hp Hg.
  assert (Hi : 0 ≤ i < 65536).
  { unfold fetched in Hf. destruct (DoubleBuffer.fetch_half_from_inner _ _ _) as [[[v b] e]|] eqn:E; [|done].
    injection Hf as <-. by apply fetch_half_range in E. }
  destruct (instr_fields_range i Hi) as (_ & Hrd & _).
  destruct Ha as [Hst Hn [Hdn Hh] Hc Hidle Hl].
  destruct (stage_step_eq host s (put status ID (put fetch_instr i s))) as (u1 & Hu1 & E1).
  { unfold isStall. by rewrite Hdn, Hn. }
  { rewrite Hst. by apply if_eq. }
  { exact Hidle. }
  set (s1 := with_mad u1 _) in E1.
  destruct (id_eq host i s1) as (s2 & E2 & Hd2 & Ha2); try assumption; try reflexivity; [by split|].
  destruct (stage_step_eq host s1 s2) as (u2 & Hu2 & E2').
  { unfold isStall. change (done (self s1)) with (done (self s)). change (stall_cause (self s1)) with (stall_cause (self s)).
    by rewrite Hdn, Hn. }
  { exact E2. }
  { apply Hd2. }
  apply (decoded_mad i u2) in Hd2; [|done]. set (s2' := with_mad u2 s2) in *.
  assert (Hs2 : isStall (self s2') = false) by (destruct Hd2 as [_ Hs [Hd _] _ _ _ _ _]; unfold isStall; by rewrite Hd, Hs).
  assert (Ha2' : arch_of s2' = arch_of s) by exact Ha2.
  unfold isa_step. rewrite <- Ha2'. pose proof (ex_eq host i s2' Hi Hd2 Hp) as Hx.
  cbn [cycles]. rewrite E1, E2'.
  pose proof (dc_status i s2' Hd2) as Hst2.
  destruct (exec_spec host i (arch_of s2')) as [[[w br] a]|] eqn:Es; cbn [fmap option_fmap option_map]; cycle 1.
  { rewrite step_none; [done|exact Hs2|]. rewrite Hst2. unfold stage, bindM. by rewrite Hx. }
  destruct Hx as (s3 & E3 & He3).
  destruct (stage_step_eq host s2' (put status WB s3)) as (u3 & Hu3 & E3').
  { exact Hs2. }
  { rewrite Hst2. unfold stage. by rewrite (bind_eq _ _ _ _ _ E3). }
  { apply He3. }
  rewrite E3'. apply (executed_status i w br a WB), (executed_mad i w br a u3) in He3; [|done].
  set (s3' := with_mad u3 (put status WB s3)) in *.
  assert (Hrd3 : 0 ≤ dec_rd (self s3') < 16) by (destruct He3 as [_ _ _ _ [-> _] _ _ _ _]; done).
  destruct (stage_step_eq host s3' (after_wb s3')) as (u4 & Hu4 & E4).
  { destruct He3 as [Hs Hd _ _ _ _ _ _ _]. unfold isStall. by rewrite Hd, Hs. }
  { apply (wb_stage_eq host); [apply He3|exact Hrd3]. }
  { unfold after_wb. destruct (_ && negb _), (halt_issued (self s3')); apply He3. }
  rewrite E4. exists (with_mad u4 (after_wb s3')). split; [done|]. split.
  - apply (wb_arch i w br a s3' Hi He3). intros ->. by eapply exec_straight.
  - by eapply settled_wb.
Qed.

(** The programs of the instruction set: from each state the instruction that [pc] points
    to, until one halts.  A program is followed while it uses the unit not at all, and the
    shared buffer only in the mode in which there is no arbitration. *)
Definition isa_fetch (host : bool) (a : arch) : option Z :=
  match DoubleBuffer.fetch_half_from_inner host (Z.lxor (a_pc a) 3) (CoreMem.imem (a_mems a)) with
  | Some (i, _, _) => Some i
  | None => None
  end.
Definition free (i : Z) (a : arch) : bool :=
  negb ((opcode i =? 1) && is_mem_func (func i)
        && match locate (s32 (reg_at a (reg_src i))) with Some (WBUF, _) => true | _ => false end)
  || (a_wbuf_arb a =? WbufArb.ARB_1CORE).
Fixpoint isa_run (host : bool) (n : nat) (a : arch) : option arch :=
  match n with
  | O => Some a
  | S n =>
      if a_halted a then Some a else
      match isa_fetch host a with
      | Some i =>
          if plain i && free i a
          then match isa_step host i a with Some a => isa_run host n a | None => None end
          else None
      | None => None
      end
  end.

Lemma free_grants i s : free i (arch_of s) = true → grants i s.
Proof.
  unfold free. intros Hf Ho Hm a Hl. rewrite Hl, Ho, Hm in Hf. cbn in Hf. by apply Z.eqb_eq in Hf.
Qed.

Lemma halted_step host s : halted s → ∃ s', quietly (step host) s = Some s' ∧ halted s' ∧ arch_of s' = arch_of s.
Proof.
  intros [[Hd Hh] Hs Hi]. destruct (idle_step host s Hi) as (u & Hu & Hi'). exists (with_mad u s).
  split; [|by split]. unfold quietly, step. rewrite gets_bind. unfold isStall. rewrite Hd. cbn [orb].
  by rewrite (bind_eq _ _ _ _ _ (stall_handle_none s Hs)), Hu.
Qed.
Lemma halted_cycles host n s : halted s →
  ∃ s', cycles (quietly (step host)) n s = Some s' ∧ halted s' ∧ arch_of s' = arch_of s.
Proof.
  revert s. induction n as [|n IH]; intros s Hs; [by exists s|].
  destruct (halted_step host s Hs) as (s1 & E1 & H1 & A1). destruct (IH s1 H1) as (s2 & E2 & H2 & A2).
  exists s2. cbn [cycles]. rewrite E1. split; [done|]. split; [done|]. by rewrite A2.
Qed.

(** C7 the core implements its instruction set: from a state between two instructions, four
    cycles for each instruction of a program lead to the state that the instruction set
    says, for every program that it follows, of arithmetic, control, memory and branch
    instructions, and on both kinds of hosts; a core that has halted stays as it is. *)
Theorem core_executes (host : bool) (n : nat) (s : sys) (a : arch)
    (Hs : settled s) (Hr : isa_run host n (arch_of s) = Some a) :
  ∃ s', cycles (quietly (step host)) (4 * n) s = Some s' ∧ arch_of s' = a ∧ settled s'.
Proof.
  revert s Hs Hr. induction n as [|n IH]; intros s Hs Hr.
  { injection Hr as <-. by exists s. }
  cbn [isa_run] in Hr. unfold settled in Hs. destruct (a_halted (arch_of s)) eqn:Eh.
  { injection Hr as <-. destruct (halted_cycles host (4 * S n) s Hs) as (s' & E & H' & A').
    exists s'. split; [done|]. split; [done|]. unfold settled. by rewrite A', Eh. }
  destruct (isa_fetch host (arch_of s)) as [i|] eqn:Ef; [|done].
  destruct (plain i && free i (arch_of s)) eqn:Ep; [|done]. apply andb_true_iff in Ep as [Hp Hf].
  pose proof (instruction host i s Hs Ef Hp (free_grants i s Hf)) as Hi.
  destruct (isa_step host i (arch_of s)) as [a1|]; [|done]. destruct Hi as (s1 & E1 & <- & H1).
  destruct (IH s1 H1 Hr) as (s' & E' & A' & H'). exists s'. split; [|done].
  replace (4 * S n)%nat with (4 + 4 * n)%nat by lia. by rewrite cycles_add, E1.
Qed.

(** The sum of the numbers to three, stored to the data memory:
    loadi r1, 3; add r2, r1; subi r1, 1; bneq r1, -3; loadi r3, 1; sll r3, 24;
    storew r2, r3; halt. *)
Definition example : sys :=
  let b ws := DoubleBuffer.switched (DoubleBuffer.DoubleBuffer MEM_SIZE 0xFFFFFFFF ws) in
  MkSys (Mk 0 (replicate 16 0) 0 false false 0 0 0 0 0 0 false false 0 IF NO_STALL 0 None 0 0 0 4 0 0
           (replicate 8 true) (MadUnit.Mk MadUnit.IDLE MadUnit.IDLE 0 false 0 0 0 1 0 0 0 false 0 0 0 0 0 0))
    (CoreMem.Mk (b []) (b []) (b []) (b []) (b []) (b [0x31030212; 0xA10141FD; 0x3301B318; 0x12321000]))
    (b []) (WbufArb.WbufArb 4).
Lemma example_settled : settled example.
Proof. unfold settled. cbn [example arch_of a_halted self halt_issued done orb]. by split. Qed.

Lemma core_executes_witness :
  ∃ s' a, cycles (quietly (step false)) 56 example = Some s' ∧ arch_of s' = a ∧ a_halted a = true ∧
    a_regs a !! 2%nat = Some 6 ∧ DoubleBuffer.inner (CoreMem.dmem_l (a_mems a)) !! 0%nat = Some 6.
Proof.
  destruct (isa_run false 14 (arch_of example)) as [a|] eqn:E; [|by vm_compute in E].
  destruct (core_executes false 14 example a example_settled E) as (s' & Hc & Ha & _).
  exists s', a. split; [exact Hc|]. split; [exact Ha|].
  clear - E. vm_compute in E. injection E as <-. by vm_compute.
Defined.

(** ** The shared buffer *)

(** The core is about to access the shared buffer, and how. *)
Definition accesses_wbuf (c : t) : bool :=
  negb (isStall c) && bool_decide (status c = EX) && (dec_opcode c =? OPCODE_RTYPE1)
  && is_mem_func (dec_func c) && bool_decide (access_mem c = Some WBUF).
Definition access_kind (c : t) : Z :=
  if (dec_func c =? FUNC_LW) || (dec_func c =? FUNC_LH) then WbufArb.WBUF_LOAD else WbufArb.WBUF_STORE.
Definition granted (a : WbufArb.t) (c : t) : Prop :=
  WbufArb.isAcquired a (core_id c) (wbuf_arb_mode c) (access_kind c) = true.

(** A core that is to execute does not wait for anything else than the buffer. *)
Definition waits_well (c : t) : Prop :=
  status c = EX → stall_cause c = NO_STALL ∨ stall_cause c = WBUF_STALL.

(** What a cycle promises: the identity and the arbiter are kept, the core waits well, and
    the arbiter has granted an access that is about to be made. *)
Record cycled (s s' : sys) : Prop := {
  cy_id : core_id (self s') = core_id (self s);
  cy_arb : arb s' = arb s;
  cy_waits : waits_well (self s');
  cy_granted : accesses_wbuf (self s') = true → granted (arb s) (self s')
}.

(** The fields that these depend on. *)
Definition view (c : t) : Z * bool * Z * stat * (Z * Z) * option mem * Z :=
  (core_id c, done c, stall_cause c, status c, (dec_opcode c, dec_func c), access_mem c, wbuf_arb_mode c).
Lemma view_eq c c' : view c' = view c → core_id c' = core_id c ∧ (waits_well c → waits_well c') ∧
  accesses_wbuf c' = accesses_wbuf c ∧ (∀ a, granted a c → granted a c').
Proof.
  intros [= E1 E2 E3 E4 E5 E6 E7 E8]. unfold waits_well, accesses_wbuf, granted, access_kind, isStall.
  by rewrite E1, E2, E3, E4, E5, E6, E7, E8.
Qed.

(** The identity of the core and the arbiter never change. *)
Definition same_id (s s' : sys) : Prop := core_id (self s') = core_id (self s) ∧ arb s' = arb s.
#[local] Instance same_id_preorder : PreOrder same_id.
Proof. split; [done|]. intros s1 s2 s3 [] []. split; congruence. Qed.

Lemma on_mad_view {A} (m : Effects.M MadUnit.sys A) s a s' e : on_mad m s = Some (a, s', e) →
  arb s' = arb s ∧ view (self s') = view (self s).
Proof.
  unfold on_mad. destruct (m _) as [[[x [u r k ms]] e']|]; [|done]. by intros [= <- <- <-].
Qed.
Lemma keeps_on_mad {A} (m : Effects.M MadUnit.sys A) : keeps same_id (on_mad m).
Proof. intros s a s' e E. apply on_mad_view in E as [Ha Hv]. apply view_eq in Hv as [Hc _]. by split. Qed.
Lemma keeps_on_mem {A} m (act : Effects.M DoubleBuffer.t A) : keeps same_id (on_mem m act).
Proof. intros s a s' e. unfold on_mem. destruct m; intros E; apply zoom_Some in E as (t & _ & ->); done. Qed.
Lemma keeps_reg i : keeps same_id (reg i).
Proof.
  unfold reg. apply (keeps_zoom same_id self (λ c c', core_id c' = core_id c)); [|by intros s t ?; split].
  intros c a c' e. unfold aget. rewrite gets_bind. destruct (nthz _ _); [|done]. by intros [= _ <- _].
Qed.
Lemma keeps_set {T} (p : t → T) {P : Setter p} v : (∀ c, core_id (P (λ _, v) c) = core_id c) →
  keeps same_id (set p v).
Proof. intros Hp s a s' e [= <- <- <-]. split; [apply Hp|done]. Qed.
Lemma keeps_get {T} (p : t → T) : keeps same_id (get p).
Proof. apply (keeps_gets _). Qed.
Lemma keeps_dispatch table i : Forall (keeps same_id) table → keeps same_id (dispatch table i).
Proof.
  intros Ht s a s' e. unfold dispatch. destruct (nthz table i) as [m|] eqn:E; [|done].
  cbn [from_option]. rewrite ret_bind. apply nthz_Some in E as [_ E].
  by apply (Forall_lookup_1 _ _ _ _ Ht E).
Qed.
#[local] Hint Resolve keeps_on_mad keeps_on_mem keeps_reg keeps_get keeps_dispatch : keeps.
Ltac ids :=
  keeps_tac; first [apply keeps_set; done | apply keeps_on_mad | apply keeps_on_mem | apply keeps_reg
                   | apply (keeps_gets _) | apply keeps_dispatch | idtac].

Ltac each_entry := repeat first [apply Forall_nil_2 | apply Forall_cons_2].

Lemma keeps_ex host : keeps same_id (ex_stage host).
Proof.
  assert (Hw : ∀ v, keeps same_id (write v)) by (intros v; unfold write; ids).
  assert (Hb : ∀ f, keeps same_id (binop f)) by (intros f; unfold binop; ids; apply Hw).
  assert (Hu : ∀ f, keeps same_id (unop f)) by (intros f; unfold unop; ids; apply Hw).
  assert (Hi : ∀ f, keeps same_id (immop f)) by (intros f; unfold immop; ids; apply Hw).
  assert (Hs : ∀ f, keeps same_id (shift f)) by (intros f; unfold shift; ids; apply Hi).
  assert (Hm : ∀ n, keeps same_id (start_mad n)) by (intros n; unfold start_mad; ids).
  assert (H0 : Forall (keeps same_id) kRTypeArithmeticTable).
  { each_entry; first [apply (keeps_ret _) | apply Hb | apply Hu]. }
  assert (H1 : Forall (keeps same_id) (kRTypeMemoryTable host)).
  { each_entry; first [apply (keeps_ret _) | unfold Halt, Loadw, Storew, Loadh, Storeh, Readcr; ids; apply Hw]. }
  assert (H2 : Forall (keeps same_id) kRTypeSimdTable).
  { each_entry; first [apply (keeps_ret _) | unfold Loadv; ids]. }
  unfold ex_stage. apply (keeps_bind _); [apply (keeps_gets _)|]. intros c. apply keeps_dispatch.
  each_entry; try apply (keeps_ret _); try apply Hi; try apply Hs.
  - unfold RTypeArithmetic. ids.
  - unfold RTypeMemory. ids.
  - unfold RTypeSimd. ids.
  - unfold Bneq. ids.
  - unfold Jump. ids.
  - apply Hm.
  - unfold Madlp. ids.
  - unfold Setcr. ids.
Qed.

Lemma keeps_wb : keeps same_id wb_stage.
Proof.
  unfold wb_stage. ids. apply (keeps_zoom same_id self (λ c c', core_id c' = core_id c)); [|by intros s t ?; split].
  intros c u c' e. unfold aset. rewrite gets_bind. destruct (setz _ _ _); [|done]. by intros [= _ <- _].
Qed.
Lemma keeps_stall : keeps same_id stall_handle.
Proof. unfold stall_handle, wbuf_stall. ids. Qed.

(** What waiting leads to: another cause [q], and not to the shared buffer unless it is
    granted. *)
Lemma put_stall_same s : put stall_cause (stall_cause (self s)) s = s.
Proof. by destruct s as [[] ? ? ?]. Qed.
Lemma wbuf_stall_eq acc s : ∃ q, wbuf_stall acc s = Some ((), put stall_cause q s, []) ∧
  (q = NO_STALL ∨ q = WBUF_STALL) ∧
  (q = NO_STALL → access_mem (self s) = Some WBUF →
     WbufArb.isAcquired (arb s) (core_id (self s)) (wbuf_arb_mode (self s)) acc = true).
Proof.
  unfold wbuf_stall. rewrite !gets_bind, put_set_eq. eexists. split; [reflexivity|].
  destruct (WbufArb.isAcquired _ _ _ _); [rewrite andb_false_r; auto|]. cbn [negb]. rewrite andb_true_r.
  case_bool_decide as Hb; (split; [auto|]); [discriminate|]. intros _ Hx. by rewrite Hx in Hb.
Qed.
Lemma stall_handle_eq s : ∃ q, stall_handle s = Some ((), put stall_cause q s, []) ∧
  (stall_cause (self s) = NO_STALL → q = NO_STALL) ∧
  (stall_cause (self s) = WBUF_STALL → (q = NO_STALL ∨ q = WBUF_STALL) ∧
     (q = NO_STALL → is_mem_func (dec_func (self s)) = true → access_mem (self s) = Some WBUF →
        granted (arb s) (self s))).
Proof.
  unfold stall_handle. rewrite gets_bind.
  destruct (Z.eqb_spec (stall_cause (self s)) NO_STALL) as [E|E].
  { exists NO_STALL. split; [|split; [done|rewrite E; discriminate]]. by rewrite <- E, put_stall_same. }
  destruct (Z.eqb_spec (stall_cause (self s)) WBUF_STALL) as [E'|E'].
  - unfold granted, access_kind, is_mem_func. destruct (_ =? FUNC_LW) eqn:E1, (_ =? FUNC_LH) eqn:E3; cbn [orb].
    1-3: destruct (wbuf_stall_eq WbufArb.WBUF_LOAD s) as (q & -> & Hq & Hg); exists q; split; [done|]; split; [tauto|]; auto.
    destruct (_ =? FUNC_SW) eqn:E2, (_ =? FUNC_SH) eqn:E4; cbn [orb].
    1-3: destruct (wbuf_stall_eq WbufArb.WBUF_STORE s) as (q & -> & Hq & Hg); exists q; split; [done|]; split; [tauto|]; auto.
    exists NO_STALL. split; [done|]. split; [done|]. split; [auto|discriminate].
  - destruct (_ =? MAD_STALL).
    + destruct (negb _); cbn [when].
      * exists NO_STALL. split; [done|]. split; [done|tauto].
      * exists (stall_cause (self s)). split; [by rewrite put_stall_same|]. split; [done|tauto].
    + exists NO_STALL. split; [done|]. split; [done|tauto].
Qed.

(** The decoding: the core executes next, and waits at most for the buffer. *)
Lemma id_end i s s2 s' e : core_id (self s2) = core_id (self s) → arb s2 = arb s →
  dec_opcode (self s2) = opcode i → dec_func (self s2) = func i →
  (stall_cause (self s2) = NO_STALL ∨ stall_cause (self s2) = WBUF_STALL) →
  (access_mem (self s2) = Some WBUF → opcode i = 1 → is_mem_func (func i) = true →
     stall_cause (self s2) = WBUF_STALL) →
  (stall_handle;; set status EX) s2 = Some ((), s', e) → cycled s s'.
Proof.
  intros Hid Har Ho Hf Hq Hw Hx. destruct (stall_handle_eq s2) as (q & Eq & Hno & Hwb).
  rewrite (bind_eq _ _ _ _ _ Eq), put_set_eq in Hx. injection Hx as <- _. split; [exact Hid|exact Har|..].
  - intros _. cbn. destruct Hq as [Hq|Hq]; [left; auto|]. by destruct (Hwb Hq).
  - unfold accesses_wbuf. cbn. rewrite !andb_true_iff, !bool_decide_eq_true, Ho, Hf.
    intros [[[[Hs _] Hop] Hm] Ha]. apply Z.eqb_eq in Hop. specialize (Hw Ha Hop Hm).
    destruct (Hwb Hw) as [_ Hg]. rewrite <- Har. rewrite Hf in Hg.
    unfold isStall in Hs. cbn in Hs. rewrite negb_orb, negb_involutive in Hs. apply andb_true_iff in Hs as [_ Hs].
    apply Z.eqb_eq in Hs. unfold granted, access_kind in *. rewrite ?Hf in Hg. exact (Hg Hs Hm Ha).
Qed.

Lemma id_cycled host s s' e : stall_cause (self s) = NO_STALL → stage host ID s = Some ((), s', e) → cycled s s'.
Proof.
  intros Hn. unfold stage, id_stage. rewrite bind_assoc. unfold get at 1. rewrite gets_bind.
  set (i := fetch_instr (self s)). rewrite bind_assoc. unfold decode.
  rewrite !bind_assoc, set_bind, bind_assoc, set_bind, bind_assoc, set_bind, bind_assoc, set_bind, set_bind.
  fold (decode_state i s). set (s1 := decode_state i s). rewrite bind_assoc.
  unfold address_calc. rewrite bind_assoc, gets_bind.
  change (dec_opcode (self s1)) with (opcode i). change (dec_func (self s1)) with (func i).
  destruct (Z.eqb_spec (opcode i) OPCODE_RTYPE1) as [Ho|Ho]; cycle 1.
  { rewrite set_bind. apply (id_end i); try done; by left. }
  destruct (is_mem_func (func i)) eqn:Hm; cbn [when]; cycle 1.
  { rewrite ret_bind. apply (id_end i); try done; [by left|]. by rewrite Hm. }
  rewrite bind_assoc. intros (r & s1' & e1 & e2 & Er & E & _)%mbind_Some. revert E.
  assert (s1' = s1) as ->.
  { unfold reg in Er. apply zoom_Some in Er as (c & Er & ->). unfold aget in Er. rewrite gets_bind in Er.
    destruct (nthz _ _); [|done]. injection Er as _ <- _. reflexivity. }
  destruct (locate (s32 r)) as [[m a]|]; cycle 1.
  { rewrite set_bind. apply (id_end i); try done; by left. }
  rewrite bind_assoc, set_bind, bind_assoc, set_bind. destruct m as [k|].
  - rewrite bool_decide_eq_false_2 by discriminate. cbn [when]. rewrite ret_bind.
    apply (id_end i); try done; by left.
  - rewrite bool_decide_eq_true_2 by reflexivity. cbn [when]. rewrite set_bind.
    apply (id_end i); try done. by right.
Qed.

(** A cycle never lets a core access the shared buffer that the arbiter has not granted. *)
Lemma cycled_mad host s0 s s' u e : cycled s0 s → on_mad (MadUnit.step host) s = Some (u, s', e) → cycled s0 s'.
Proof.
  intros [Hid Har Hw Hg] E. apply on_mad_view in E as [Ha Hv]. apply view_eq in Hv as (Hc & Hw' & Hacc & Hg').
  split; [congruence..|auto|]. rewrite Hacc. auto.
Qed.
Lemma cycled_other s s' : same_id s s' → status (self s') ≠ EX → cycled s s'.
Proof.
  intros [Hid Har] Hs. split; [done..| |].
  - by intros Hx.
  - unfold accesses_wbuf. by rewrite (bool_decide_eq_false_2 _ Hs), andb_false_r.
Qed.
Lemma then_status (m : M unit) st s u s' e : keeps same_id m → (m;; set status st) s = Some (u, s', e) →
  same_id s s' ∧ status (self s') = st.
Proof.
  intros Hm E. apply mbind_Some in E as (v & s1 & e1 & e2 & E1 & [= _ <- _] & _).
  apply Hm in E1. split; [|done]. exact E1.
Qed.
Lemma wb_cycled host s u s' e : stage host WB s = Some (u, s', e) → same_id s s' ∧ status (self s') = IF.
Proof.
  unfold stage. intros E. apply mbind_Some in E as (v & s1 & e1 & e2 & E1 & E2 & _).
  apply keeps_wb in E1. rewrite set_bind in E2. unfold get in E2. rewrite gets_bind in E2.
  destruct (halt_issued _); cbn [when] in E2; [rewrite set_bind in E2|];
    (injection E2 as _ <- _; split; [exact E1|done]).
Qed.

Lemma step_cycled host s u s' e : waits_well (self s) → step host s = Some (u, s', e) → cycled s s'.
Proof.
  intros Hw. unfold step. rewrite gets_bind. intros E.
  apply mbind_Some in E as (v & s1 & e1 & e2 & E1 & E2 & _). apply (cycled_mad host s s1 s' u e2); [|exact E2].
  clear E2. destruct (isStall (self s)) eqn:Hst.
  - destruct (stall_handle_eq s) as (q & Eq & Hno & Hwb). rewrite Eq in E1. injection E1 as <- <- _.
    split; [done..| |].
    + intros Hs. destruct (Hw Hs) as [Hq|Hq]; [left; auto|]. by destruct (Hwb Hq).
    + unfold accesses_wbuf. cbn. rewrite !andb_true_iff, !bool_decide_eq_true.
      intros [[[[Hs He] _] Hm] Ha]. unfold isStall in *. cbn in Hs.
      rewrite negb_orb, negb_involutive in Hs. apply andb_true_iff in Hs as [Hd Hq]. apply Z.eqb_eq in Hq.
      apply negb_true_iff in Hd. rewrite Hd in Hst. cbn [orb] in Hst.
      destruct (Hw He) as [Hn|Hn]; [by rewrite Hn in Hst|]. by apply (proj2 (Hwb Hn)).
  - assert (Hn : stall_cause (self s) = NO_STALL).
    { unfold isStall in Hst. apply orb_false_iff in Hst as [_ Hst]. by apply negb_false_iff, Z.eqb_eq in Hst. }
    fold (stage host (status (self s))) in E1.
    destruct (status (self s)).
    + assert (Hk : keeps same_id (if_stage host)) by (unfold if_stage; ids).
      destruct (then_status _ _ _ _ _ _ Hk E1) as [Hid Hs]. apply cycled_other; [done|by rewrite Hs].
    + by destruct v; apply (id_cycled host s s1 e1 Hn).
    + destruct (then_status _ _ _ _ _ _ (keeps_ex host) E1) as [Hid Hs]. apply cycled_other; [done|by rewrite Hs].
    + destruct (wb_cycled _ _ _ _ _ E1) as [Hid Hs]. apply cycled_other; [done|by rewrite Hs].
Qed.

(** A core that waits for the shared buffer goes on to access it in the cycle after the one in
    which the arbiter is ready for it, and waits on until then. *)
Definition waits_wbuf (c : t) : bool :=
  negb (done c) && (stall_cause c =? WBUF_STALL) && bool_decide (status c = EX) && (dec_opcode c =? OPCODE_RTYPE1)
  && is_mem_func (dec_func c) && bool_decide (access_mem c = Some WBUF).
Record waited (a : WbufArb.t) (c c' : t) : Prop := {
  wd_id : core_id c' = core_id c;
  wd_mode : wbuf_arb_mode c' = wbuf_arb_mode c;
  wd_kind : access_kind c' = access_kind c;
  wd_next : if WbufArb.isAcquired a (core_id c) (wbuf_arb_mode c) (access_kind c)
            then accesses_wbuf c' = true else waits_wbuf c' = true
}.

Lemma stall_handle_waiting s : waits_wbuf (self s) = true → ∃ q, stall_handle s = Some ((), put stall_cause q s, []) ∧
  q = if WbufArb.isAcquired (arb s) (core_id (self s)) (wbuf_arb_mode (self s)) (access_kind (self s))
      then NO_STALL else WBUF_STALL.
Proof.
  unfold waits_wbuf. rewrite !andb_true_iff, Z.eqb_eq, !bool_decide_eq_true. intros [[[[[_ Es] _] _] Hm] Ha].
  unfold stall_handle, access_kind. rewrite gets_bind, Es. cbn [Z.eqb NO_STALL WBUF_STALL Pos.eqb].
  assert (Hw : ∀ acc, wbuf_stall acc s = Some ((), put stall_cause
    (if WbufArb.isAcquired (arb s) (core_id (self s)) (wbuf_arb_mode (self s)) acc then NO_STALL else WBUF_STALL) s, [])).
  { intros acc. unfold wbuf_stall. rewrite !gets_bind, put_set_eq, Ha, bool_decide_eq_true_2 by done. cbn [andb].
    by destruct (WbufArb.isAcquired _ _ _ _). }
  unfold is_mem_func in Hm. destruct (_ =? FUNC_LW), (_ =? FUNC_LH); cbn [orb] in *; try (eexists; split; [apply Hw|done]).
  destruct (_ =? FUNC_SW), (_ =? FUNC_SH); cbn [orb] in *; try (eexists; split; [apply Hw|done]). done.
Qed.
Lemma step_waiting host s u s' e : waits_wbuf (self s) = true → step host s = Some (u, s', e) → waited (arb s) (self s) (self s').
Proof.
  intros Hw. destruct (stall_handle_waiting s Hw) as (q & Eq & Hq). revert Hw.
  unfold waits_wbuf at 1. rewrite !andb_true_iff, negb_true_iff, Z.eqb_eq, !bool_decide_eq_true. intros [[[[[Hd Es] Hst] Ho] Hm] Ha].
  unfold step. rewrite gets_bind. unfold isStall at 1. rewrite Es, orb_true_r, (bind_eq _ _ _ _ _ Eq).
  intros [_ Hv]%on_mad_view. injection Hv as E1 E2 E3 E4 E5 E6 E7 E8.
  assert (Hk : access_kind (self s') = access_kind (self s)) by (unfold access_kind; by rewrite E6).
  split; [exact E1|exact E8|exact Hk|]. subst q.
  unfold accesses_wbuf, waits_wbuf, isStall. rewrite E2, E3, E4, E5, E6, E7. cbn. rewrite Hd, Hst, Ho, Hm, Ha.
  by destruct (WbufArb.isAcquired _ _ _ _).
Qed.

Lemma reset_cycled s u s' e : reset s = Some (u, s', e) → cycled s s'.
Proof.
  unfold reset. rewrite !set_bind. intros E. apply on_mad_view in E as [Ha Hv].
  apply view_eq in Hv as Hc. destruct Hc as (Hc & _). apply cycled_other; [split; [exact Hc|exact Ha]|].
  unfold view in Hv. injection Hv as _ _ _ Hs _ _ _. rewrite Hs. discriminate.
Qed.

End SNACCCore.
