(* ===== verification/Snacc.v ===== *)
(** * Snacc: the SNACC accelerator (snacc.h, snacc.cc)

    Four cores with their memories, the shared buffer with its arbiter and the
    configuration registers, behind the local bus of an accelerator. *)

From S2P Require Import Prelude Effects Types Range Router Accel DBuf SnaccModules SnaccMad SnaccCore.
Import NetworkInterfaceConfig.

Module SNACC.

(** The objects behind the local bus, and those that only the cores reach.  The ranges
    without a record of their own have their bases in [bases]. *)
Record store := MkStore {
  mems : list CoreMem.t;
  wbuf : DoubleBuffer.t;
  confReg : ConfRegCtrl.t;
  nic : NetworkInterfaceConfig.t;
  bases : gmap Z Z
}.
#[global] Instance store_eta : Eta store := λ w,
  MkStore (mems w) (wbuf w) (confReg w) (nic w) (bases w).

Record chip := MkChip {
  core_count : Z;                             (* int *)
  cores : list SNACCCore.t;
  wbuf_arb : WbufArb.t
}.
#[global] Instance chip_eta : Eta chip := λ c, MkChip (core_count c) (cores c) (wbuf_arb c).

(** ** The address map *)
Definition CORE_ADDR_SIZE : Z := 0x04000.
Definition BCASE_OFFSET : Z := 0x10000.
Definition WBUF_OFFSET : Z := 0x14000.
Definition CONF_REG_OFFSET : Z := 0x18000.
Definition OUTOFRANGE : Z := 0x40000.
Definition NIF_CONFIG_SIZE : Z := 0x900.
Definition offset_of (k : CoreMem.name) : Z :=
  match k with
  | CoreMem.IMEM => 0x00000 | CoreMem.LUT => 0x00800
  | CoreMem.DMEM_U => 0x01000 | CoreMem.DMEM_L => 0x01800
  | CoreMem.RBUF_U => 0x03000 | CoreMem.RBUF_L => 0x03800
  end.

(** The ranges and their numbers. *)
Inductive range := Nic | Conf | Wbuf | BCast (k : CoreMem.name) | Buf (i : Z) (k : CoreMem.name).
#[global] Instance range_eq_dec : EqDecision range.
Proof. solve_decision. Defined.
Definition names : list CoreMem.name :=
  [CoreMem.DMEM_U; CoreMem.DMEM_L; CoreMem.RBUF_U; CoreMem.RBUF_L; CoreMem.IMEM; CoreMem.LUT].
Definition index (k : CoreMem.name) : Z :=
  match k with
  | CoreMem.DMEM_U => 0 | CoreMem.DMEM_L => 1 | CoreMem.RBUF_U => 2
  | CoreMem.RBUF_L => 3 | CoreMem.IMEM => 4 | CoreMem.LUT => 5
  end.
Definition number (r : range) : Z :=
  match r with
  | Nic => 0 | Conf => 1 | Wbuf => 2
  | BCast k => 8 + index k
  | Buf i k => 16 + 8 * i + index k
  end.
Definition range_of (r : Z) : option range :=
  if r =? 0 then Some Nic else if r =? 1 then Some Conf else if r =? 2 then Some Wbuf
  else (λ k, if r <? 16 then BCast k else Buf (r / 8 - 2) k) <$> nthz names (r mod 8).

Definition buffer (w : store) (i : Z) (k : CoreMem.name) : option DoubleBuffer.t :=
  CoreMem.buf k <$> nthz (mems w) i.

(** The configuration registers switch the buffers. *)
Definition on_conf {A} (m : Effects.M ConfRegCtrl.sys A) : M store A := λ w,
  match m (ConfRegCtrl.MkSys (confReg w) (mems w) (wbuf w)) with
  | None => None
  | Some (a, ConfRegCtrl.MkSys c l b, e) =>
      Some (a, w <| confReg := c |> <| mems := l |> <| wbuf := b |>, e)
  end.
Definition on_buf {A} (i : Z) (k : CoreMem.name) (m : Effects.M DoubleBuffer.t A) : M store A :=
  zoom_nth mems i (CoreMem.on k m).

Definition fetch_word (r : Z) (offset mode client : Z) : M store Z :=
  match range_of r with
  | Some Nic => zoom nic (NetworkInterfaceConfig.fetch_word offset mode client)
  | Some Conf => zoom confReg (ConfRegCtrl.fetch_word offset mode client)
  | Some Wbuf => zoom wbuf (DoubleBuffer.fetch_word offset mode client)
  | Some (BCast k) => zoom mems (BCastRange.fetch_word offset mode client)
  | Some (Buf i k) => on_buf i k (DoubleBuffer.fetch_word offset mode client)
  | None => crash
  end.
Definition store_word (r : Z) (offset data client : Z) : M store unit :=
  match range_of r with
  | Some Nic => zoom nic (NetworkInterfaceConfig.store_word offset data client)
  | Some Conf => on_conf (ConfRegCtrl.store_word offset data client)
  | Some Wbuf => zoom wbuf (DoubleBuffer.store_word offset data client)
  | Some (BCast k) =>
      n ← gets (λ w, ConfRegCtrl.core_count (confReg w));
      zoom mems (BCastRange.store_word k n offset data client)
  | Some (Buf i k) => on_buf i k (DoubleBuffer.store_word offset data client)
  | None => crash
  end.

(** The local bus makes accesses of words only. *)
#[local] Instance ops : RangeOps store := {|
  getBase w r :=
    match range_of r with
    | Some Wbuf => DoubleBuffer.base (wbuf w)
    | Some (Buf i k) => default 0 (DoubleBuffer.base <$> buffer w i k)
    | _ => default 0 (bases w !! r)
    end;
  getExtent w r :=
    match range_of r with
    | Some Nic => NIF_CONFIG_SIZE
    | Some Conf =>
        ConfRegCtrl.STAT_SIZE + ConfRegCtrl.DMAINFO_SIZE * ConfRegCtrl.core_count (confReg w)
    | Some Wbuf => DoubleBuffer.extent (wbuf w)
    | Some (BCast k) => SNACCCore.MEM_SIZE
    | Some (Buf i k) => default 0 (DoubleBuffer.extent <$> buffer w i k)
    | None => 0
    end;
  setBase r a :=
    match range_of r with
    | Some Wbuf => zoom wbuf (DoubleBuffer.base <~ a)
    | Some (Buf i k) => on_buf i k (DoubleBuffer.base <~ a)
    | _ => modify (λ w, w <| bases ::= <[r := a]> |>)
    end;
  canRead w r o := negb (bool_decide (range_of r = Some Conf));
  canWrite w r o := true;
  r_fetch_word := fetch_word;
  r_fetch_halfword r o cl := crash;
  r_fetch_byte r o cl := crash;
  r_store_word := store_word;
  r_store_halfword r o d cl := crash;
  r_store_byte r o d cl := crash;
  r_ready r a mode cl := mret true;
  r_extra_latency w r := 0
|}.
#[local] Instance has_nif : HasNif store := {| nif_of w := Some (nic w); set_nif c w := w <| nic := c |> |}.

(** ** Building it *)
Section Setup.
  (** The option [snacc_sram_latency], and what the memory of new objects holds. *)
  Context (core_count_ sram_latency : Z) (raw_core : SNACCCore.t) (raw_mad : MadUnit.t)
    (raw_info : list ConfRegCtrl.dmainfo_t).

Definition new_buffer : DoubleBuffer.t := DoubleBuffer.DoubleBuffer SNACCCore.MEM_SIZE 0xFFFFFFFF [].
Definition new_mems : CoreMem.t :=
  CoreMem.Mk new_buffer new_buffer new_buffer new_buffer new_buffer new_buffer.
Definition new_store (nic_ : NetworkInterfaceConfig.t) : store :=
  MkStore (replicate (Z.to_nat core_count_) new_mems) new_buffer
    (ConfRegCtrl.ConfRegCtrl core_count_ raw_info) nic_ ∅.
Definition new_chip : chip :=
  MkChip core_count_ ((λ i, SNACCCore.SNACCCore i sram_latency raw_core raw_mad) <$> seqZ 0 core_count_)
    (WbufArb.WbufArb core_count_).

(** [SNACC::SNACC] after [CubeAccelerator::CubeAccelerator], with no DMA; and the
    address map of [setup].  The ranges that overlap are left out, with a message. *)
Definition SNACC (raw_nic : NetworkInterfaceConfig.t) : M (LocalMapper.t store) Z :=
  modify (λ _, LocalMapper.LocalMapper (new_store raw_nic));;
  CubeAccelerator.setup_config (number Nic) OUTOFRANGE false.
Definition map_at (r : range) (a : Z) : M (LocalMapper.t store) unit :=
  LocalMapper.map_at_local_address (number r) (u32 a);; mret ().
Definition bcast_order : list CoreMem.name :=
  [CoreMem.DMEM_L; CoreMem.DMEM_U; CoreMem.RBUF_L; CoreMem.RBUF_U; CoreMem.IMEM; CoreMem.LUT].
Definition setup : M (LocalMapper.t store) unit :=
  for_range 0 (Z.to_nat core_count_) (λ i,
    for_each names (λ k, map_at (Buf i k) (CORE_ADDR_SIZE * i + offset_of k)));;
  map_at Wbuf WBUF_OFFSET;;
  map_at Conf CONF_REG_OFFSET;;
  for_each bcast_order (λ k, map_at (BCast k) (BCASE_OFFSET + offset_of k)).

End Setup.

(** ** The cycle of the cores *)
Notation sys := (CubeAccelerator.sys store chip).

Definition on_core {A} (i : Z) (m : Effects.M SNACCCore.sys A) : M sys A := λ s,
  let w := LocalMapper.store (CubeAccelerator.localBus s) in
  let c := CubeAccelerator.core s in
  match nthz (cores c) i, nthz (mems w) i with
  | Some k, Some ms =>
      match m (SNACCCore.MkSys k ms (wbuf w) (wbuf_arb c)) with
      | None => None
      | Some (a, SNACCCore.MkSys k ms b ar, e) =>
          Some (a, s <| CubeAccelerator.core ::= λ c,
                          c <| cores := <[Z.to_nat i := k]> (cores c) |> <| wbuf_arb := ar |> |>
                     <| CubeAccelerator.localBus ::= λ l, l <| LocalMapper.store ::= λ w,
                          w <| mems := <[Z.to_nat i := ms]> (mems w) |> <| wbuf := b |> |> |>, e)
      end
  | _, _ => None
  end.
Definition conf {A} (m : Effects.M ConfRegCtrl.t A) : M sys A :=
  zoom CubeAccelerator.localBus (zoom LocalMapper.store (zoom confReg m)).

Section Host.
  (** [machine->host_bigendian] *)
  Variable host : bool.

Definition step_one (i : Z) : M sys unit :=
  b ← conf (gets (λ c, ConfRegCtrl.isStart c i));
  if (b : bool) then
    on_core i (SNACCCore.step host);;
    d ← on_core i (SNACCCore.get SNACCCore.done);
    when d (conf (ConfRegCtrl.setDone i))
  else
    clr ← conf (ConfRegCtrl.isDoneClr i);
    when clr (on_core i SNACCCore.reset;; conf (ConfRegCtrl.negateDoneClr i)).

Definition core_step : M sys unit :=
  n ← gets (λ s, core_count (CubeAccelerator.core s));
  for_range 0 (Z.to_nat n) step_one;;
  zoom CubeAccelerator.core (zoom wbuf_arb WbufArb.step).

Definition core_reset : M sys unit :=
  n ← gets (λ s, core_count (CubeAccelerator.core s));
  for_range 0 (Z.to_nat n) (λ i, on_core i SNACCCore.reset).

End Host.
(** ** Properties *)

Definition chip_of (s : sys) : chip := CubeAccelerator.core s.
Definition conf_of (s : sys) : ConfRegCtrl.t := confReg (LocalMapper.store (CubeAccelerator.localBus s)).
Definition started (s : sys) (i : Z) : bool := ConfRegCtrl.isStart (conf_of s) i.

(** Every core has its number and waits well. *)
Definition well (s : sys) : Prop :=
  ∀ i c, cores (chip_of s) !! i = Some c →
    SNACCCore.core_id c = Z.of_nat i ∧ SNACCCore.waits_well c.

(** After the cores below [k] have been stepped, the arbiter being [a] and the started
    cores being those of [on]. *)
Record stepped (a : WbufArb.t) (on : Z → bool) (k : nat) (s : sys) : Prop := {
  sd_arb : wbuf_arb (chip_of s) = a;
  sd_on i : started s i = on i;
  sd_cores i c : cores (chip_of s) !! i = Some c →
    SNACCCore.core_id c = Z.of_nat i ∧ SNACCCore.waits_well c ∧
    ((i < k)%nat → on (Z.of_nat i) = true → SNACCCore.accesses_wbuf c = true → SNACCCore.granted a c)
}.

Lemma on_core_Some {A} i (m : Effects.M SNACCCore.sys A) s x s' e : on_core i m s = Some (x, s', e) →
  ∃ c ms c' ms' b' a', nthz (cores (chip_of s)) i = Some c ∧
    m (SNACCCore.MkSys c ms (wbuf (LocalMapper.store (CubeAccelerator.localBus s))) (wbuf_arb (chip_of s))) =
      Some (x, SNACCCore.MkSys c' ms' b' a', e) ∧
    cores (chip_of s') = <[Z.to_nat i := c']> (cores (chip_of s)) ∧ wbuf_arb (chip_of s') = a' ∧
    conf_of s' = conf_of s ∧ core_count (chip_of s') = core_count (chip_of s).
Proof.
  unfold on_core, chip_of. destruct (nthz (cores _) i) as [c|] eqn:Ec; [|done].
  destruct (nthz (mems _) i) as [ms|]; [|done].
  destruct (m _) as [[[x1 [c' ms' b' a']] e1]|] eqn:Em; [|done]. intros [= <- <- <-].
  exists c, ms, c', ms', b', a'. by rewrite Em.
Qed.
Lemma conf_Some {A} (m : Effects.M ConfRegCtrl.t A) s x s' e : conf m s = Some (x, s', e) →
  ∃ c, m (conf_of s) = Some (x, c, e) ∧ conf_of s' = c ∧ chip_of s' = chip_of s.
Proof.
  unfold conf. intros E. apply zoom_Some in E as (l & E & ->). apply zoom_Some in E as (w & E & ->).
  apply zoom_Some in E as (c & E & ->). by exists c.
Qed.

(** An action of the registers that starts and stops nothing. *)
Lemma stepped_conf {A} (m : Effects.M ConfRegCtrl.t A) a on k s x s' e :
  (∀ c x c' e, m c = Some (x, c', e) → ConfRegCtrl.start c' = ConfRegCtrl.start c) →
  stepped a on k s → conf m s = Some (x, s', e) → stepped a on k s'.
Proof.
  intros Hm [Ha Ho Hc] E. apply conf_Some in E as (c & E & Ec & Ech). split; [by rewrite Ech| |by rewrite Ech].
  intros i. unfold started, ConfRegCtrl.isStart. rewrite Ec, (Hm _ _ _ _ E). apply Ho.
Qed.

(** An action of core [k] that keeps its number and the arbiter, and after which an access
    is granted. *)
Lemma stepped_core {A} (m : Effects.M SNACCCore.sys A) a on k j s x s' e :
  (∀ t x t' e, SNACCCore.waits_well (SNACCCore.self t) → SNACCCore.arb t = a → m t = Some (x, t', e) →
     SNACCCore.core_id (SNACCCore.self t') = SNACCCore.core_id (SNACCCore.self t) ∧ SNACCCore.arb t' = a ∧
     SNACCCore.waits_well (SNACCCore.self t') ∧
     ((k < j)%nat → on (Z.of_nat k) = true → SNACCCore.accesses_wbuf (SNACCCore.self t') = true →
        SNACCCore.granted a (SNACCCore.self t'))) →
  (k ≤ j)%nat → (j ≤ S k)%nat →
  stepped a on k s → on_core (Z.of_nat k) m s = Some (x, s', e) → stepped a on j s'.
Proof.
  intros Hm Hkj Hjk [Ha Ho Hc] E.
  apply on_core_Some in E as (c & ms & c' & ms' & b' & a' & Ek & Em & Ecs & Ea & Econf & _).
  apply nthz_Some in Ek as [Hk Ek]. rewrite Nat2Z.id in Ek.
  destruct (Hc k c Ek) as (Hid & Hw & _).
  destruct (Hm (SNACCCore.MkSys c ms _ _) _ _ _ Hw Ha Em) as (Hid' & Ha' & Hw' & Hg). cbn in *.
  split; [congruence| |].
  - intros i. unfold started. rewrite Econf. apply Ho.
  - intros i ci. rewrite Ecs, Nat2Z.id. destruct (decide (i = k)) as [->|Hne].
    + rewrite list_lookup_insert_eq by (by eapply lookup_lt_Some). intros [= <-].
      split; [congruence|]. split; [done|]. exact Hg.
    + rewrite list_lookup_insert_ne by done. intros Hi. destruct (Hc i ci Hi) as (? & ? & Hgi).
      split; [done|]. split; [done|]. intros ?. apply Hgi. lia.
Qed.

Lemma on_core_get {T} i (p : SNACCCore.t → T) s x s' e : on_core i (SNACCCore.get p) s = Some (x, s', e) →
  chip_of s' = chip_of s ∧ conf_of s' = conf_of s.
Proof.
  intros E. pose proof E as E'. unfold on_core in E'. unfold chip_of, conf_of.
  destruct (nthz (cores _) i) as [c|] eqn:Ec; [|done]. destruct (nthz (mems _) i) as [ms|] eqn:Em; [|done].
  injection E' as <- <- <-. cbn. apply nthz_Some in Ec as [_ Ec]. rewrite list_insert_id by done.
  by destruct (CubeAccelerator.core s).
Qed.
Lemma stepped_get {T} i (p : SNACCCore.t → T) a on k s x s' e :
  stepped a on k s → on_core i (SNACCCore.get p) s = Some (x, s', e) → stepped a on k s'.
Proof.
  intros [Ha Ho Hc] E. apply on_core_get in E as [Ech Ecf]. split; [by rewrite Ech| |by rewrite Ech].
  intros j. unfold started. rewrite Ecf. apply Ho.
Qed.
Lemma stepped_skip a on k s : on (Z.of_nat k) = false → stepped a on k s → stepped a on (S k) s.
Proof.
  intros Hk [Ha Ho Hc]. split; [done..|]. intros i c Hi. destruct (Hc i c Hi) as (? & ? & Hg).
  split; [done|]. split; [done|]. intros Hl Hon. apply Hg; [|done]. destruct (decide (i = k)); [congruence|lia].
Qed.

Lemma stepped_cycled (m : Effects.M SNACCCore.sys unit) a on k s u s' e :
  (∀ t u t' e, SNACCCore.waits_well (SNACCCore.self t) → m t = Some (u, t', e) → SNACCCore.cycled t t') →
  stepped a on k s → on_core (Z.of_nat k) m s = Some (u, s', e) → stepped a on (S k) s'.
Proof.
  intros Hm. apply stepped_core; [|lia..]. intros t x t' e' Hw <- E.
  destruct (Hm _ _ _ _ Hw E) as [Hid Har Hw' Hg]. auto.
Qed.

Lemma step_one_stepped host a on k s u s' e :
  stepped a on k s → step_one host (Z.of_nat k) s = Some (u, s', e) → stepped a on (S k) s'.
Proof.
  intros Hs E. unfold step_one in E. apply mbind_Some in E as (b & s1 & e1 & e2 & E1 & E & _).
  pose proof E1 as Eb. apply conf_Some in Eb as (c & Eb & _). injection Eb as Eb _ _.
  apply (stepped_conf _ a on k) in E1; [|by intros ? ? ? ? [= _ <- _]|done].
  assert (Hon : on (Z.of_nat k) = b) by (rewrite <- Eb; symmetry; apply Hs).
  destruct b.
  - apply mbind_Some in E as (v & s2 & e3 & e4 & E2 & E & _).
    apply (stepped_cycled _ a on k) in E2; [|intros; by eapply SNACCCore.step_cycled|done].
    apply mbind_Some in E as (d & s3 & e5 & e6 & E3 & E & _).
    apply (stepped_get _ _ a on (S k)) in E3; [|done].
    destruct d; cbn [when] in E; [|by injection E as _ <- _].
    eapply stepped_conf; [|exact E3|exact E]. by intros ? ? ? ? [= _ <- _].
  - apply mbind_Some in E as (clr & s2 & e3 & e4 & E2 & E & _).
    apply (stepped_conf _ a on k) in E2; [|intros ? ? ? ?; unfold ConfRegCtrl.isDoneClr, aget; rewrite gets_bind;
      destruct (nthz _ _); [by intros [= _ <- _]|done]|done].
    destruct clr; cbn [when] in E; [|injection E as _ <- _; by apply stepped_skip].
    apply mbind_Some in E as (v & s3 & e5 & e6 & E3 & E & _).
    apply (stepped_cycled _ a on k) in E3; [|intros; by eapply SNACCCore.reset_cycled|done].
    eapply stepped_conf; [|exact E3|exact E]. intros c' x c'' e'. unfold ConfRegCtrl.negateDoneClr, aset.
    rewrite bind_assoc, gets_bind. destruct (setz _ _ _); [|done]. by intros [= _ <- _].
Qed.

Lemma loop_stepped host a on n k s u s' e : stepped a on k s →
  for_each (seqZ (Z.of_nat k) (Z.of_nat n)) (step_one host) s = Some (u, s', e) → stepped a on (k + n) s'.
Proof.
  revert k s e. induction n as [|n IH]; intros k s e Hs E.
  { injection E as _ <- _. by rewrite Nat.add_0_r. }
  rewrite Nat2Z.inj_succ, seqZ_cons, Z.pred_succ in E by lia. cbn [for_each] in E.
  apply mbind_Some in E as (v & s1 & e1 & e2 & E1 & E & _).
  apply (step_one_stepped host a on k) in E1; [|done].
  replace (k + S n)%nat with (S k + n)%nat by lia. apply (IH (S k) s1 e2 E1).
  rewrite Nat2Z.inj_succ. exact E.
Qed.

(** Nothing of it makes or drops a core. *)
Definition same_cores (s s' : sys) : Prop := length (cores (chip_of s')) = length (cores (chip_of s)).
#[local] Instance same_cores_po : PreOrder same_cores.
Proof. split; [by intros ?|]. unfold same_cores. intros ? ? ?. congruence. Qed.
Lemma keeps_cores_conf {A} (m : Effects.M ConfRegCtrl.t A) : keeps same_cores (conf m).
Proof. intros s x s' e E. apply conf_Some in E as (c & _ & _ & E). unfold same_cores. by rewrite E. Qed.
Lemma keeps_cores_core {A} i (m : Effects.M SNACCCore.sys A) : keeps same_cores (on_core i m).
Proof.
  intros s x s' e E. apply on_core_Some in E as (c & ms & c' & ms' & b' & a' & _ & _ & E & _).
  unfold same_cores. rewrite E. apply length_insert.
Qed.
#[local] Hint Resolve keeps_cores_conf keeps_cores_core : keeps.
Lemma keeps_step_one host i : keeps same_cores (step_one host i).
Proof. unfold step_one. apply keeps_bind; [apply _|apply keeps_cores_conf|]. intros []; keeps_tac. Qed.

(** A core that waits for the buffer, before and after the step of the cores below [k]. *)
Definition others (j : Z) (s s' : sys) : Prop :=
  ∀ i, Z.of_nat i ≠ j → cores (chip_of s') !! i = cores (chip_of s) !! i.
#[local] Instance others_po j : PreOrder (others j).
Proof. split; [by intros ? ?|]. intros ? ? ? H1 H2 i Hi. by rewrite H2, H1. Qed.
Lemma keeps_others_conf {A} j (m : Effects.M ConfRegCtrl.t A) : keeps (others j) (conf m).
Proof. intros s x s' e E i _. apply conf_Some in E as (c & _ & _ & E). by rewrite E. Qed.
Lemma keeps_others_core {A} j (m : Effects.M SNACCCore.sys A) : keeps (others j) (on_core j m).
Proof.
  intros s x s' e E i Hi. apply on_core_Some in E as (c & ms & c' & ms' & b' & a' & Ec & _ & E & _).
  apply nthz_Some in Ec as [Hj _]. rewrite E. apply list_lookup_insert_ne. lia.
Qed.
#[local] Hint Resolve keeps_others_conf keeps_others_core : keeps.
Lemma keeps_others_step host j : keeps (others j) (step_one host j).
Proof. unfold step_one. apply keeps_bind; [apply _|apply keeps_others_conf|]. intros []; keeps_tac. Qed.

Definition waiting_at (a : WbufArb.t) (i : nat) (c : SNACCCore.t) (k : nat) (s : sys) : Prop :=
  if decide (k ≤ i)%nat then cores (chip_of s) !! i = Some c
  else ∃ c', cores (chip_of s) !! i = Some c' ∧ SNACCCore.waited a c c'.

Lemma step_one_waiting host a on i c k s u s' e : SNACCCore.waits_wbuf c = true → on (Z.of_nat i) = true →
  stepped a on k s → waiting_at a i c k s → step_one host (Z.of_nat k) s = Some (u, s', e) → waiting_at a i c (S k) s'.
Proof.
  intros Hc Hon Hs Hw E. unfold waiting_at in *. destruct (decide (i = k)) as [->|Hne].
  - destruct (decide (k ≤ k)%nat) as [_|]; [|lia]. destruct (decide (S k ≤ k)%nat) as [|_]; [lia|].
    unfold step_one in E. apply mbind_Some in E as (b & s1 & e1 & e2 & E1 & E & _).
    apply conf_Some in E1 as (r & E1 & _ & Ech). injection E1 as Eb _ _.
    assert (b = true) as -> by (rewrite <- Eb, <- Hon; apply Hs).
    apply mbind_Some in E as (v & s2 & e3 & e4 & E2 & E & _).
    apply on_core_Some in E2 as (c1 & ms & c' & ms' & b' & a' & Ek & E2 & Ecs & _).
    apply nthz_Some in Ek as [_ Ek]. rewrite Nat2Z.id, Ech, Hw in Ek. injection Ek as <-. rewrite Ech in E2, Ecs.
    assert (Hd := SNACCCore.step_waiting host (SNACCCore.MkSys c ms _ _) _ _ _ Hc E2). cbn in Hd. rewrite (sd_arb _ _ _ _ Hs) in Hd.
    exists c'. split; [|exact Hd]. rewrite Nat2Z.id in Ecs.
    apply mbind_Some in E as (d & s3 & e5 & e6 & E3 & E & _). apply on_core_get in E3 as [E3 _].
    assert (E4 : chip_of s' = chip_of s3).
    { destruct d; cbn [when] in E; [by apply conf_Some in E as (? & _ & _ & E)|by injection E as _ <- _]. }
    rewrite E4, E3, Ecs. apply list_lookup_insert_eq. by eapply lookup_lt_Some.
  - pose proof (keeps_others_step host _ _ _ _ _ E i ltac:(lia)) as Eo. rewrite Eo.
    destruct (decide (k ≤ i)%nat), (decide (S k ≤ i)%nat); done || lia.
Qed.
Lemma loop_waiting host a on i c n : SNACCCore.waits_wbuf c = true → on (Z.of_nat i) = true → ∀ k s u s' e,
  stepped a on k s → waiting_at a i c k s →
  for_each (seqZ (Z.of_nat k) (Z.of_nat n)) (step_one host) s = Some (u, s', e) → waiting_at a i c (k + n) s'.
Proof.
  intros Hc Hon. induction n as [|n IH]; intros k s u s' e Hs Hw E.
  { injection E as _ <- _. by rewrite Nat.add_0_r. }
  rewrite Nat2Z.inj_succ, seqZ_cons, Z.pred_succ in E by lia. cbn [for_each] in E.
  apply mbind_Some in E as (v & s1 & e1 & e2 & E1 & E & _).
  pose proof (step_one_waiting host a on i c k s v s1 e1 Hc Hon Hs Hw E1) as Hw1.
  apply (step_one_stepped host a on k) in E1; [|done].
  replace (k + S n)%nat with (S k + n)%nat by lia. apply (IH (S k) s1 u s' e2 E1 Hw1).
  rewrite Nat2Z.inj_succ. exact E.
Qed.

(** A cycle of all cores. *)
Definition ready (s : sys) : Prop := well s ∧ core_count (chip_of s) = Z.of_nat (length (cores (chip_of s))).
Definition same_count (s s' : sys) : Prop := core_count (chip_of s') = core_count (chip_of s).
#[local] Instance same_count_po : PreOrder same_count.
Proof. split; [by intros ?|]. unfold same_count. intros ? ? ?. congruence. Qed.
Lemma keeps_count_conf {A} (m : Effects.M ConfRegCtrl.t A) : keeps same_count (conf m).
Proof. intros s x s' e E. apply conf_Some in E as (c & _ & _ & E). unfold same_count. by rewrite E. Qed.
Lemma keeps_count_core {A} i (m : Effects.M SNACCCore.sys A) : keeps same_count (on_core i m).
Proof. intros s x s' e E. apply on_core_Some in E as (c & ms & c' & ms' & b' & a' & _ & _ & _ & _ & _ & E). exact E. Qed.
#[local] Hint Resolve keeps_count_conf keeps_count_core : keeps.
Lemma keeps_count_step host i : keeps same_count (step_one host i).
Proof. unfold step_one. apply keeps_bind; [apply _|apply keeps_count_conf|]. intros []; keeps_tac. Qed.

Lemma core_step_run host s u s' e : ready s → core_step host s = Some (u, s', e) →
  ∃ s1, stepped (wbuf_arb (chip_of s)) (started s) (length (cores (chip_of s))) s1 ∧ same_cores s s1 ∧ same_count s s1 ∧
    (∀ i c, cores (chip_of s) !! i = Some c → SNACCCore.waits_wbuf c = true → started s (Z.of_nat i) = true →
       waiting_at (wbuf_arb (chip_of s)) i c (length (cores (chip_of s))) s1) ∧
    cores (chip_of s') = cores (chip_of s1) ∧ core_count (chip_of s') = core_count (chip_of s1) ∧
    wbuf_arb (chip_of s') = WbufArb.after 1 (wbuf_arb (chip_of s)) ∧ ∀ i, started s' i = started s i.
Proof.
  intros [Hw Hn] E. unfold core_step in E. rewrite gets_bind in E.
  apply mbind_Some in E as (v & s1 & e1 & e2 & E1 & E & _).
  assert (H0 : stepped (wbuf_arb (chip_of s)) (started s) 0 s).
  { split; [done..|]. intros i c Hi. destruct (Hw i c Hi). split; [done|]. split; [done|lia]. }
  fold (chip_of s) in E1. rewrite Hn, Nat2Z.id in E1.
  pose proof (keeps_for_range _ _ _ _ (keeps_step_one host) _ _ _ _ E1) as Hl.
  pose proof (keeps_for_range _ _ _ _ (keeps_count_step host) _ _ _ _ E1) as Hc.
  pose proof (loop_stepped host _ _ (length (cores (chip_of s))) 0 s _ s1 e1 H0 E1) as Hs1.
  exists s1. split; [exact Hs1|]. split; [done|]. split; [done|]. split.
  { intros i c Hi Hwi Hoi. apply (loop_waiting host _ (started s) i c _ Hwi Hoi 0 s v s1 e1 H0); [|exact E1].
    unfold waiting_at. by destruct (decide (0 ≤ i)%nat); [|lia]. }
  apply zoom_Some in E as (c & E & ->). apply zoom_Some in E as (a & E & ->). injection E as _ <- _.
  split; [done|]. split; [done|]. split; [|intros i; exact (sd_on _ _ _ _ Hs1 i)].
  pose proof (sd_arb _ _ _ _ Hs1) as Ea. unfold chip_of in Ea |- *. cbn in Ea |- *. by rewrite Ea.
Qed.
Lemma core_step_ready host s u s' e : ready s → core_step host s = Some (u, s', e) → ready s'.
Proof.
  intros Hr E. destruct (core_step_run host s u s' e Hr E) as (s1 & [_ _ Hc] & Hl & Hk & _ & Ec & En & _).
  destruct Hr as [_ Hn]. split.
  - intros i c. rewrite Ec. intros Hi. destruct (Hc i c Hi) as (? & ? & _). by split.
  - unfold same_cores, same_count in *. rewrite Ec, En. congruence.
Qed.

(** [n] cycles, in which the machine does not touch the accelerator. *)
Fixpoint core_run (host : bool) (n : nat) (s : sys) : option sys :=
  match n with
  | O => Some s
  | S n => match core_step host s with Some (_, s', _) => core_run host n s' | None => None end
  end.

Lemma core_run_granted host i mode acc k : ∀ n s s' c, (k < n)%nat → ready s → started s (Z.of_nat i) = true →
  cores (chip_of s) !! i = Some c → SNACCCore.waits_wbuf c = true →
  SNACCCore.wbuf_arb_mode c = mode → SNACCCore.access_kind c = acc →
  WbufArb.isAcquired (WbufArb.after k (wbuf_arb (chip_of s))) (Z.of_nat i) mode acc = true →
  core_run host n s = Some s' →
  ∃ j s1 c1, (0 < j ≤ S k)%nat ∧ core_run host j s = Some s1 ∧ started s1 (Z.of_nat i) = true ∧
    cores (chip_of s1) !! i = Some c1 ∧ SNACCCore.accesses_wbuf c1 = true.
Proof.
  induction k as [|k IH]; intros n s s' c Hn Hr Ho Hc Hw Hm Ha Hg E; (destruct n as [|n]; [lia|]); cbn [core_run] in E;
    (destruct (core_step host s) as [[[u s1] e]|] eqn:E1; [|done]);
    destruct (core_step_run host s u s1 e Hr E1) as (s2 & _ & _ & _ & Hwait & Ec & _ & Ear & Hon);
    specialize (Hwait i c Hc Hw Ho); unfold waiting_at in Hwait;
    (destruct (decide _) as [Hlt|_]; [apply lookup_lt_Some in Hc; lia|]);
    destruct Hwait as (c1 & Hc1 & [W1 W2 W3 W4]); rewrite <- Ec in Hc1;
    (assert (Hid : SNACCCore.core_id c = Z.of_nat i) by (by destruct (proj1 Hr i c Hc)));
    rewrite Hid, Hm, Ha in W4.
  - rewrite WbufArb.isAcquired_after_0 in Hg. rewrite Hg in W4. exists 1%nat, s1, c1. cbn [core_run]. rewrite E1.
    split_and!; [lia|lia|done|by rewrite Hon|done|done].
  - destruct (WbufArb.isAcquired (wbuf_arb (chip_of s)) _ _ _).
    { exists 1%nat, s1, c1. cbn [core_run]. rewrite E1. split_and!; [lia|lia|done|by rewrite Hon|done|done]. }
    destruct (IH n s1 s' c1) as (j & s3 & c3 & Hj & E3 & H3);
      [lia|by eapply core_step_ready|by rewrite Hon|done|done|by rewrite W2|by rewrite W3| |done|].
    + rewrite Ear, WbufArb.after_after. exact Hg.
    + exists (S j), s3, c3. split; [lia|]. cbn [core_run]. by rewrite E1.
Qed.



End SNACC.
