(* ===== verification/AccDebug.v ===== *)
(** * AccDebug: the debugger of an accelerator (debugutils.h, debugutils.cc)

    A device of four words: a command, its argument, a word that sends them to the
    accelerator, and the accelerator's answer. *)

From S2P Require Import Prelude Effects Types.

(** ** The debugger's client *)
Module DebuggerClient.

Definition CMD_SETTRG_OP : Z := 1.
Definition CMD_WRITE_OP : Z := 2.
Definition CMD_READ_OP : Z := 3.
Definition CMD_NOP : Z := 0.

(** [__cmd_parser]: operation, function, module, offset. *)
Definition cmd_parser (cmd : Z) : Z * Z * Z * Z :=
  (Z.land (Z.shiftr cmd 24) 0xFF, Z.land (Z.shiftr cmd 16) 0xFF, Z.land (Z.shiftr cmd 8) 0xFF, Z.land cmd 0xFF).
(** [__compare] *)
Definition compare (a b comparator : Z) : bool :=
  if comparator =? 0 then a =? b
  else if comparator =? 1 then negb (a =? b)
  else if comparator =? 2 then b <? a
  else if comparator =? 3 then a <? b
  else if comparator =? 4 then b <=? a
  else if comparator =? 5 then a <=? b
  else false.

End DebuggerClient.

(** ** The device *)
Module AcceleratorDebugger.

Definition ACDBGR_SIZE : Z := 16.
Definition CMD_OFFSET : Z := 0.
Definition ARG_OFFSET : Z := 4.
Definition SEND_OFFSET : Z := 8.
Definition RPLY_OFFSET : Z := 12.

Record t := Mk {
  cmd : Z; arg : Z;                                   (* uint32 *)
  prev_fetch_addr : Z; fetch_buf : Z                  (* uint32 *)
}.
#[global] Instance eta : Eta t := λ d, Mk (cmd d) (arg d) (prev_fetch_addr d) (fetch_buf d).
Definition AcceleratorDebugger (raw_fetch_buf : Z) : t := Mk 0 0 0x3 raw_fetch_buf.

(** The device and the accelerator that [acdebugger] points to. *)
Record sys {S : Type} := MkSys { self : t; client : S }.
Arguments sys : clear implicits.
#[global] Instance sys_eta {S} : Eta (sys S) := λ s, MkSys S (self s) (client s).

Section Device.
  Context {S : Type}.
  (** The virtual methods of the accelerator. *)
  Variables (send_commnad : Z → Z → M S unit) (get_dbg_data : M S Z).
  (** [machine->physmem->byteswapped] and [machine->cpu->is_bigendian()]. *)
  Variables byteswapped is_bigendian : bool.
  Notation M := (Effects.M (sys S)).

Definition fetch_word (offset mode cl : Z) : M Z :=
  if offset =? RPLY_OFFSET then zoom client get_dbg_data
  else if offset =? CMD_OFFSET then gets (λ s, cmd (self s))
  else if offset =? ARG_OFFSET then gets (λ s, arg (self s))
  else mret 0.
Definition store_word (offset data cl : Z) : M unit :=
  if offset =? CMD_OFFSET then zoom self (cmd <~ data)
  else if offset =? ARG_OFFSET then zoom self (arg <~ data)
  else if offset =? SEND_OFFSET then d ← gets self; zoom client (send_commnad (cmd d) (arg d))
  else mret ().

(** The place of a byte in a word, from the most significant one. *)
Definition byte_offset (offset : Z) : Z :=
  let k := Z.land offset 0x03 in if negb is_bigendian then u32 (3 - k) else k.
Definition fetch_byte (offset cl : Z) : M Z :=
  let a := Z.land offset (lnot32 0x3) in
  d ← gets self;
  when (negb (prev_fetch_addr d =? a))
    (zoom self (prev_fetch_addr <~ a);;
     w ← fetch_word a DATALOAD cl;
     zoom self (fetch_buf <~ host_to_mips_word byteswapped w));;
  b ← gets (λ s, fetch_buf (self s));
  let k := byte_offset offset in
  mret (if k =? 0 then Z.land (Z.shiftr b 24) 0xff
        else if k =? 1 then Z.land (Z.shiftr b 16) 0xff
        else if k =? 2 then Z.land (Z.shiftr b 8) 0xff
        else if k =? 3 then Z.land b 0xff else 0).
(** [w] with the byte at place [k]. *)
Definition with_byte (w k data : Z) : Z :=
  if k =? 0 then Z.lor (Z.land (u32 (Z.shiftl data 24)) 0xff000000) (Z.land w (lnot32 0xff000000))
  else if k =? 1 then Z.lor (Z.land (Z.shiftl data 16) 0x00ff0000) (Z.land w (lnot32 0x00ff0000))
  else if k =? 2 then Z.lor (Z.land (Z.shiftl data 8) 0x0000ff00) (Z.land w (lnot32 0x0000ff00))
  else Z.lor (Z.land data 0x000000ff) (Z.land w (lnot32 0x000000ff)).
Definition store_byte (offset data cl : Z) : M unit :=
  let a := Z.land offset (lnot32 0x3) in
  w ← fetch_word a DATALOAD cl;
  store_word a (with_byte (host_to_mips_word byteswapped w) (byte_offset offset) data) cl.

(** ** Properties *)

(** The bytes of [w] in the order of the target's addresses. *)
Definition target_byte (w k : Z) : Z :=
  Z.land (Z.shiftr w (8 * if is_bigendian then 3 - k else k)) 0xff.
Definition store_bytes (a w : Z) : M unit :=
  for_range 0 4 (λ k, store_byte (a + k) (target_byte w k) 0).

Lemma with_bytes_big v w : is_u32 w →
  with_byte (with_byte (with_byte (with_byte v 0 (Z.land (Z.shiftr w 24) 0xff)) 1 (Z.land (Z.shiftr w 16) 0xff))
    2 (Z.land (Z.shiftr w 8) 0xff)) 3 (Z.land (Z.shiftr w 0) 0xff) = w.
Proof. intros Hw. cbv [with_byte]. cbn [Z.eqb Pos.eqb]. unfold lnot32. bitblast k. Qed.
Lemma with_bytes_little v w : is_u32 w →
  with_byte (with_byte (with_byte (with_byte v 3 (Z.land (Z.shiftr w 0) 0xff)) 2 (Z.land (Z.shiftr w 8) 0xff))
    1 (Z.land (Z.shiftr w 16) 0xff)) 0 (Z.land (Z.shiftr w 24) 0xff) = w.
Proof. intros Hw. cbv [with_byte]. cbn [Z.eqb Pos.eqb]. unfold lnot32. bitblast k. Qed.

(** On a host with the byte order of the target, the bytes of a command that are stored one
    by one arrive as the command. *)
Lemma store_bytes_eq w (s : sys S) : is_u32 w → byteswapped = false →
  store_bytes CMD_OFFSET w s = Some ((), s <| self ::= λ d, d <| cmd := w |> |>, []) ∧
  store_bytes ARG_OFFSET w s = Some ((), s <| self ::= λ d, d <| arg := w |> |>, []).
Proof.
  intros Hw Hs. unfold store_bytes, store_byte, byte_offset, target_byte. rewrite Hs. destruct s as [[c a p b] cl].
  pose proof (with_bytes_big c w Hw) as B1. pose proof (with_bytes_big a w Hw) as B2.
  pose proof (with_bytes_little c w Hw) as L1. pose proof (with_bytes_little a w Hw) as L2.
  destruct is_bigendian; split.
  - by refine (eq_trans _ (f_equal (λ v, Some ((), MkSys S (Mk v a p b) cl, [])) B1)).
  - by refine (eq_trans _ (f_equal (λ v, Some ((), MkSys S (Mk c v p b) cl, [])) B2)).
  - by refine (eq_trans _ (f_equal (λ v, Some ((), MkSys S (Mk v a p b) cl, [])) L1)).
  - by refine (eq_trans _ (f_equal (λ v, Some ((), MkSys S (Mk c v p b) cl, [])) L2)).
Qed.

(** Of the bytes of a word that are fetched in turn, all but the first come from the buffer,
    whatever has been sent since. *)
Lemma fetch_byte_buffered o o' cl (s : sys S) : prev_fetch_addr (self s) = Z.land o' (lnot32 0x3) →
  Z.land o (lnot32 0x3) = Z.land o' (lnot32 0x3) → ∃ v, fetch_byte o cl s = Some (v, s, []).
Proof.
  intros Hp Ho. unfold fetch_byte. rewrite gets_bind, Hp, Ho, Z.eqb_refl. cbn [negb when]. rewrite ret_bind, gets_bind.
  by eexists.
Qed.

End Device.

(** On a host with the other byte order the word is turned around by every store. *)
Example store_bytes_swapped :
  match store_bytes (S := unit) (λ _ _, mret ()) (mret 0) true true CMD_OFFSET 0x01020304 (MkSys unit (AcceleratorDebugger 0) ()) with
  | Some (_, s, _) => cmd (self s) = 0x01020304
  | None => False
  end → False.
Proof. vm_compute. discriminate. Qed.

End AcceleratorDebugger.
