(* ===== verification/CmaSort.v ===== *)
(** * CmaSort: the order of execution of the CMA array (cmamodules.cc, [PEArray::analyze_dataflow])

    The nodes of a data flow are ordered by repeated passes over the map of their
    in-degrees.  The map is ordered by the addresses of the nodes, which the program does
    not choose: they are an argument here, and the theorem holds for every order. *)

From S2P Require Import Prelude Effects.

Module Sort.

Section Sort.
  Context {N : Type} `{Countable N}.
  (** The nodes in the order of their addresses, and [PENodeBase::use_successors]. *)
  Variables (addresses : list N) (use_successors : N → option (list N)).

Record t := Mk { in_degrees : gmap N Z; tsorted_list : list N; del_list : list N }.
#[local] Instance eta : Eta t := λ s, Mk (in_degrees s) (tsorted_list s) (del_list s).

(** [in_degrees[j]--], where [operator[]] makes an entry of 0 if there is none. *)
Definition decrement (j : N) : M t unit :=
  modify (λ s, s <| in_degrees ::= λ m, <[j := default 0 (m !! j) - 1]> m |>).

(** The body of the loop over the map, for the entry of [p] if there is one. *)
Definition visit (p : N) : M t unit :=
  m ← gets in_degrees;
  when (bool_decide (m !! p = Some 0))
    (modify (λ s, s <| del_list ::= λ l, l ++ [p] |>);;
     l ← from_option (use_successors p);
     when (0 <? Z.of_nat (length l))
       (modify (λ s, s <| tsorted_list ::= λ l, l ++ [p] |>);; for_each l decrement)).

Definition erase (p : N) : M t unit := modify (λ s, s <| in_degrees ::= delete p |>).
Definition pass : M t unit :=
  for_each addresses visit;;
  l ← gets del_list;
  for_each l erase.

(** [do ... while (in_degrees.size() < prev_size)] *)
Fixpoint passes (fuel : nat) : M t unit :=
  match fuel with
  | O => crash
  | S fuel =>
      prev_size ← gets (λ s, size (in_degrees s));
      pass;;
      n ← gets (λ s, size (in_degrees s));
      when (n <? prev_size)%nat (passes fuel)
  end.

(** ** The order it finds *)

(** What the order depends on: the nodes that use the datum of each node, and the
    in-degrees that the map starts with. *)
Variables (users : N → list N) (deg : N → Z).
Definition used (n : N) : list N := filter (λ p, n ∈ users p) addresses.

Record laws : Prop := {
  addresses_nodup : NoDup addresses;
  users_eq p : p ∈ addresses → use_successors p = Some (users p);
  users_nodup p : p ∈ addresses → NoDup (users p);
  users_nodes p n : p ∈ addresses → n ∈ users p → n ∈ addresses;
  used_deg n : n ∈ addresses → Z.of_nat (length (used n)) ≤ deg n
}.

(** The nodes that only depend on nodes without inputs, and have all the inputs their
    in-degrees count. *)
Inductive grounded (n : N) : Prop :=
| Grounded : n ∈ addresses → deg n = Z.of_nat (length (used n)) →
    (∀ p, p ∈ used n → grounded p) → grounded n.

Definition starts (m : gmap N Z) : Prop :=
  ∀ n, m !! n = if decide (n ∈ addresses) then Some (deg n) else None.

Record sorted (l : list N) : Prop := {
  sorted_nodup : NoDup l;
  sorted_before l1 n l2 p : l = l1 ++ n :: l2 → p ∈ used n → p ∈ l1;
  sorted_nodes n : n ∈ l ↔ grounded n ∧ users n ≠ []
}.

(** ** Proof *)

Section Proof.
  Hypothesis L : laws.

Definition count (d : list N) (n : N) : nat := length (filter (λ p, n ∈ users p) d).

(** The map with the nodes [e] erased. *)
Record inv (e : list N) (s : t) : Prop := {
  inv_tsorted : tsorted_list s = filter (λ p, users p ≠ []) (del_list s);
  inv_nodup : NoDup (del_list s);
  inv_nodes p : p ∈ del_list s → p ∈ addresses;
  inv_erased p : p ∈ e → p ∈ del_list s;
  inv_deg n : in_degrees s !! n =
    if decide (n ∈ addresses ∧ n ∉ e) then Some (deg n - Z.of_nat (count (del_list s) n)) else None;
  inv_order l1 n l2 : del_list s = l1 ++ n :: l2 →
    deg n = Z.of_nat (length (used n)) ∧ ∀ p, p ∈ used n → p ∈ l1
}.

Lemma count_app d p n : count (d ++ [p]) n = (count d n + if decide (n ∈ users p) then 1 else 0)%nat.
Proof.
  unfold count. rewrite filter_app, length_app. f_equal. cbn. by destruct (decide (n ∈ users p)).
Qed.

(** The visited inputs of a node are at most its inputs, and if they are as many they are all. *)
Lemma count_used d n : NoDup d → (∀ p, p ∈ d → p ∈ addresses) →
  (count d n ≤ length (used n))%nat ∧
  (count d n = length (used n) → ∀ p, p ∈ used n → p ∈ d).
Proof using Type.
  intros Hd Hs.
  assert (Hsub : filter (λ p, n ∈ users p) d ⊆+ used n).
  { apply NoDup_submseteq; [by apply NoDup_filter|]. intros p. unfold used.
    rewrite !list_elem_of_filter. intros [? ?]. auto. }
  split; [by apply submseteq_length|]. intros E p Hp.
  assert (Hpm : filter (λ p, n ∈ users p) d ≡ₚ used n).
  { apply submseteq_length_Permutation; [done|]. unfold count in E. lia. }
  rewrite <- Hpm in Hp. by apply list_elem_of_filter in Hp as [_ ?].
Qed.

Lemma decrements l s : NoDup l → (∀ j, j ∈ l → is_Some (in_degrees s !! j)) →
  ∃ m, for_each l decrement s = Some ((), s <| in_degrees := m |>, []) ∧
    ∀ n, m !! n = if decide (n ∈ l) then (λ d, d - 1) <$> in_degrees s !! n else in_degrees s !! n.
Proof using Type.
  revert s. induction l as [|j l IH]; intros s Hl Hs.
  { exists (in_degrees s). split; [by destruct s|]. intros n. by rewrite decide_False by apply not_elem_of_nil. }
  apply NoDup_cons in Hl as [Hj Hl]. destruct (Hs j) as [d Hd]; [by left|].
  destruct (IH (s <| in_degrees ::= λ m, <[j := default 0 (m !! j) - 1]> m |>)) as (m & E & Hm); [done|..].
  { intros k Hk. cbn. rewrite lookup_insert_ne by (by intros ->). apply Hs. by right. }
  exists m. cbn [for_each]. split.
  { unfold decrement at 1. by rewrite modify_bind, E. }
  intros n. rewrite Hm. cbn. destruct (decide (n = j)) as [->|Hn].
  - rewrite decide_False by done. rewrite decide_True by (by left). by rewrite lookup_insert_eq, Hd.
  - rewrite lookup_insert_ne by done. destruct (decide (n ∈ l)); [rewrite decide_True by (by right)|
      rewrite decide_False by (rewrite elem_of_cons; tauto)]; done.
Qed.

Lemma visit_skip e s p : inv e s → in_degrees s !! p ≠ Some 0 → visit p s = Some ((), s, []).
Proof using Type.
  intros _ Hp. unfold visit. rewrite gets_bind. by rewrite bool_decide_eq_false_2.
Qed.

(** A node is ready when all its inputs have been visited. *)
Lemma ready e s p : inv e s → in_degrees s !! p = Some 0 →
  p ∈ addresses ∧ p ∉ e ∧ deg p = Z.of_nat (length (used p)) ∧ ∀ q, q ∈ used p → q ∈ del_list s.
Proof using L.
  intros I E. rewrite (inv_deg e s I) in E. destruct (decide _) as [[Ha He]|]; [|done].
  injection E as E. destruct (count_used (del_list s) p) as [Hle Hall]; [apply I..|].
  pose proof (used_deg L p Ha). refine (conj Ha (conj He (conj _ (Hall _)))); lia.
Qed.

Lemma visit_ready e s p : inv e s → in_degrees s !! p = Some 0 → p ∉ del_list s →
  ∃ s', visit p s = Some ((), s', []) ∧ del_list s' = del_list s ++ [p] ∧ inv e s'.
Proof using L.
  intros I E Hp. destruct (ready e s p I E) as (Ha & He & Hd & Hu).
  unfold visit. rewrite gets_bind, bool_decide_eq_true_2 by done. cbn [when].
  set (s1 := s <| del_list ::= λ l, l ++ [p] |>).
  rewrite modify_bind. fold s1. rewrite (users_eq L p Ha). cbn [from_option]. rewrite ret_bind.
  destruct (decrements (users p) (s1 <| tsorted_list ::= λ l, l ++ [p] |>)) as (m & Em & Hm).
  { by apply (users_nodup L). }
  { intros j Hj. cbn. rewrite (inv_deg e s I), decide_True; [by eexists|].
    split; [by eapply (users_nodes L)|]. intros Hje%(inv_erased e s I).
    apply list_elem_of_split in Hje as (l1 & l2 & Ej). destruct (inv_order e s I l1 j l2 Ej) as [_ Hall].
    apply Hp. rewrite Ej. apply elem_of_app. left. apply Hall. unfold used. by apply list_elem_of_filter. }
  assert (Hs1 : ∀ ts m', ts = filter (λ q, users q ≠ []) (del_list s ++ [p]) →
     (∀ n, m' !! n = if decide (n ∈ users p) then (λ d, d - 1) <$> in_degrees s !! n else in_degrees s !! n) →
     inv e (Mk m' ts (del_list s ++ [p]))).
  { intros ts m' -> Hm'. split; cbn [in_degrees tsorted_list del_list].
    - done.
    - apply NoDup_app. split; [apply I|]. split; [|apply NoDup_singleton].
      intros q Hq ->%list_elem_of_singleton. done.
    - intros q [Hq| ->%list_elem_of_singleton]%elem_of_app; [by apply (inv_nodes e s I)|done].
    - intros q Hq. apply elem_of_app. left. by apply (inv_erased e s I).
    - intros n. rewrite Hm', (inv_deg e s I n), count_app.
      destruct (decide (n ∈ addresses ∧ n ∉ e)), (decide (n ∈ users p)); cbn; try done; f_equal; lia.
    - intros l1 n l2 El. destruct l2 as [|q l2 _] using rev_ind.
      + apply app_inj_tail in El as [<- <-]. done.
      + rewrite app_comm_cons, app_assoc in El. apply app_inj_tail in El as [El _].
        by apply (inv_order e s I l1 n l2). }
  destruct (users p) as [|j l] eqn:El; cbn [length Z.of_nat Z.ltb Z.compare when].
  - exists s1. split; [done|]. split; [done|].
    replace s1 with (Mk (in_degrees s) (tsorted_list s) (del_list s ++ [p])) by done.
    apply Hs1; [|by intros n; rewrite decide_False by apply not_elem_of_nil].
    rewrite filter_app, (inv_tsorted e s I). cbn. rewrite decide_False by (rewrite El; tauto). by rewrite app_nil_r.
  - replace (0 <? Z.of_nat (S (length l))) with true by (symmetry; apply Z.ltb_lt; lia). cbn [when].
    rewrite modify_bind, Em.
    eexists. split; [done|]. split; [done|]. cbn. apply Hs1; [|done].
    rewrite filter_app, (inv_tsorted e s I). cbn. rewrite decide_True; [done|]. by rewrite El.
Qed.

(** One turn of the loop over the map: [vs] is visited, [l] is not yet. *)
Lemma visit_all e l s : inv e s → NoDup l → (∀ p, p ∈ l → p ∈ del_list s → p ∈ e) →
  ∃ s' k, for_each l visit s = Some ((), s', []) ∧ inv e s' ∧ del_list s' = del_list s ++ k ∧
    (∀ p, p ∈ k → p ∈ l) ∧ (k = [] → s' = s ∧ ∀ p, p ∈ l → in_degrees s !! p ≠ Some 0).
Proof using L.
  revert s. induction l as [|p l IH]; intros s I Hl Hp; cbn [for_each].
  { exists s, []. rewrite app_nil_r. refine (conj eq_refl (conj I (conj eq_refl (conj _ _)))); [done|].
    intros _. split; [done|]. by intros p Hn%not_elem_of_nil. }
  apply NoDup_cons in Hl as [Hpl Hl].
  destruct (decide (in_degrees s !! p = Some 0)) as [E|E].
  - assert (Hd : p ∉ del_list s).
    { intros Hd. destruct (ready e s p I E) as (_ & He & _). apply He, Hp; [by left|done]. }
    destruct (visit_ready e s p I E Hd) as (s1 & E1 & D1 & I1). rewrite (bind_eq _ _ _ _ _ E1).
    destruct (IH s1 I1 Hl) as (s2 & k & E2 & I2 & D2 & Hk & _).
    { intros q Hq. rewrite D1. intros [Hd'| ->%list_elem_of_singleton]%elem_of_app; [|done].
      apply Hp; [by right|done]. }
    exists s2, (p :: k). rewrite D2, D1, <- app_assoc. refine (conj E2 (conj I2 (conj eq_refl (conj _ _)))); [|done].
    intros q [->|Hq]%elem_of_cons; [by left|right; auto].
  - rewrite (bind_eq _ _ _ _ _ (visit_skip e s p I E)).
    destruct (IH s I Hl) as (s2 & k & E2 & I2 & D2 & Hk & H0); [intros q Hq; apply Hp; by right|].
    exists s2, k. refine (conj E2 (conj I2 (conj D2 (conj _ _)))); [intros q Hq; right; auto|].
    intros Hn. destruct (H0 Hn) as [-> Hz]. split; [done|]. intros q [->|Hq]%elem_of_cons; auto.
Qed.

Lemma erase_all l s : for_each l erase s = Some ((), s <| in_degrees ::= λ m, foldr delete m (reverse l) |>, []).
Proof using Type.
  revert s. induction l as [|p l IH]; intros s; cbn [for_each]; [by destruct s|].
  unfold erase at 1. rewrite modify_bind, IH. cbn -[reverse]. by rewrite reverse_cons, foldr_app.
Qed.
Lemma erased_lookup (m : gmap N Z) l n :
  foldr delete m l !! n = if decide (n ∈ l) then None else m !! n.
Proof using Type.
  induction l as [|p l IH]; cbn; [by rewrite decide_False by apply not_elem_of_nil|].
  destruct (decide (n = p)) as [->|Hn].
  - by rewrite lookup_delete_eq, decide_True by (by left).
  - rewrite lookup_delete_ne, IH by done.
    destruct (decide (n ∈ l)); [rewrite decide_True by (by right)|rewrite decide_False by (by rewrite elem_of_cons; tauto)]; done.
Qed.

(** After a pass all visited nodes are erased; a pass that visits none changes nothing. *)
Lemma pass_eq e s : inv e s → (∀ p, p ∈ del_list s → p ∈ e) →
  ∃ s', pass s = Some ((), s', []) ∧ inv (del_list s') s' ∧
    ((size (in_degrees s') < size (in_degrees s))%nat ∨
     in_degrees s' = in_degrees s ∧ ∀ p, p ∈ addresses → in_degrees s !! p ≠ Some 0).
Proof using L.
  intros I He. destruct (visit_all e addresses s I (addresses_nodup L)) as (s1 & k & E1 & I1 & D1 & Hk & H0); [auto|].
  unfold pass. rewrite (bind_eq _ _ _ _ _ E1), gets_bind, erase_all.
  eexists. split; [done|]. split.
  - destruct I1. split; cbn; try done. intros n. rewrite erased_lookup, inv_deg0.
    destruct (decide (n ∈ reverse (del_list s1))) as [Hn|Hn]; rewrite elem_of_reverse in Hn.
    + rewrite decide_False; [done|tauto].
    + destruct (decide (n ∈ addresses ∧ n ∉ e)) as [[]|Hx].
      * by rewrite decide_True.
      * rewrite decide_False; [done|]. intros [? ?]. apply Hx. split; [done|]. auto.
  - cbn. destruct k as [|p k].
    + right. destruct (H0 eq_refl) as [-> Hz]. split; [|done]. apply map_eq. intros n.
      rewrite erased_lookup. destruct (decide _) as [Hn|]; [|done]. rewrite elem_of_reverse in Hn.
      rewrite (inv_deg e s I), decide_False; [done|]. intros [_ Hx]. auto.
    + left. rewrite <- !(size_dom (D := gset N)). apply subset_size.
      assert (Hp : p ∈ del_list s1) by (rewrite D1; apply elem_of_app; right; by left).
      assert (Hs : p ∉ e).
      { intros Hx%(inv_erased e s I). pose proof (inv_nodup e s1 I1) as Hn. rewrite D1 in Hn.
        apply NoDup_app in Hn as (_ & Hn & _). apply (Hn p Hx). by left. }
      split.
      * intros n. rewrite !elem_of_dom, erased_lookup. destruct (decide _); [by intros []|].
        intros Hn. rewrite (inv_deg e s1 I1 n) in Hn. rewrite (inv_deg e s I n). destruct (decide _); [by eexists|by destruct Hn].
      * intros Hx. assert (Hd : p ∈ dom (in_degrees s)).
        { rewrite elem_of_dom, (inv_deg e s I), decide_True; [by eexists|]. split; [apply Hk; by left|done]. }
        apply Hx in Hd. rewrite elem_of_dom, erased_lookup, decide_True in Hd by (by rewrite elem_of_reverse). by destruct Hd.
Qed.

Lemma passes_eq n s : inv (del_list s) s → (size (in_degrees s) < n)%nat →
  ∃ s', passes n s = Some ((), s', []) ∧ inv (del_list s') s' ∧
    ∀ p, p ∈ addresses → in_degrees s' !! p ≠ Some 0.
Proof using L.
  revert s. induction n as [|n IH]; intros s I Hn; [lia|]. cbn [passes]. rewrite gets_bind.
  destruct (pass_eq _ s I) as (s1 & E1 & I1 & Hs); [done|]. rewrite (bind_eq _ _ _ _ _ E1), gets_bind.
  destruct Hs as [Hs|[Hs Hz]].
  - rewrite (proj2 (Nat.ltb_lt _ _) Hs). cbn [when]. apply IH; [done|lia].
  - rewrite Hs, Nat.ltb_irrefl. exists s1. split; [done|]. split; [done|]. by rewrite Hs.
Qed.

Lemma visited_grounded s n : inv (del_list s) s → n ∈ del_list s → grounded n.
Proof using Type.
  intros I. revert n.
  assert (Hall : ∀ l2 l1, del_list s = l1 ++ l2 → (∀ n, n ∈ l1 → grounded n) → ∀ n, n ∈ del_list s → grounded n).
  { induction l2 as [|p l2 IH]; intros l1 E Hg.
    - rewrite E, app_nil_r. exact Hg.
    - apply (IH (l1 ++ [p])); [by rewrite <- app_assoc|].
      intros n [Hn| ->%list_elem_of_singleton]%elem_of_app; [auto|].
      destruct (inv_order _ _ I _ _ _ E) as [Hd Hu]. constructor; [|done|auto].
      apply (inv_nodes _ _ I). rewrite E. apply elem_of_app. right. by left. }
  apply (Hall (del_list s) []); [done|]. by intros n Hn%not_elem_of_nil.
Qed.

Lemma grounded_visited s n : inv (del_list s) s → (∀ p, p ∈ addresses → in_degrees s !! p ≠ Some 0) →
  grounded n → n ∈ del_list s.
Proof using L.
  intros I Hz. induction 1 as [n Ha Hd Hu IH].
  destruct (decide (n ∈ del_list s)) as [|Hn]; [done|]. exfalso. apply (Hz n Ha).
  rewrite (inv_deg _ _ I), decide_True by done. f_equal.
  assert (Hc : count (del_list s) n = length (used n)); [|lia].
  apply Nat.le_antisymm; [apply count_used; apply I|].
  apply submseteq_length, NoDup_submseteq; [apply NoDup_filter, (addresses_nodup L)|].
  intros p Hp. apply list_elem_of_filter. split; [|by apply IH]. by apply list_elem_of_filter in Hp as [? _].
Qed.

Lemma split_unique (n : N) l1 l2 d1 d2 : NoDup (l1 ++ n :: l2) → d1 ++ n :: d2 = l1 ++ n :: l2 → l1 = d1.
Proof using Type.
  revert l1. induction d1 as [|x d1 IH]; intros l1 Hnd E; destruct l1 as [|y l1]; [done| | |].
  - injection E as <- _. apply NoDup_cons in Hnd as [Hn _]. exfalso. apply Hn, elem_of_app. right. by left.
  - injection E as -> E. exfalso. apply NoDup_cons in Hnd as [Hn _]. apply Hn. rewrite <- E.
    apply elem_of_app. right. by left.
  - injection E as -> E. f_equal. apply NoDup_cons in Hnd as [_ Hnd]. by apply IH.
Qed.

(** The loop ends, and what it finds is sorted. *)
Lemma passes_sorted m : starts m →
  ∃ s', passes (S (size m)) (Mk m [] []) = Some ((), s', []) ∧ sorted (tsorted_list s').
Proof using L.
  intros Hm.
  assert (I0 : inv [] (Mk m [] [])).
  { split; cbn -[lookup decide]; try done; [by apply NoDup_nil|by intros p ?%not_elem_of_nil|..].
    - intros n. rewrite Hm. unfold count. cbn -[decide].
      destruct (decide (n ∈ addresses)) as [Ha|Ha].
      + rewrite decide_True by (split; [done|apply not_elem_of_nil]). f_equal. lia.
      + rewrite decide_False; [done|tauto].
    - intros l1 n l2 E. by destruct l1. }
  destruct (passes_eq (S (size m)) (Mk m [] []) I0) as (s' & E & I & Hz); [cbn; lia|].
  exists s'. split; [done|]. rewrite (inv_tsorted _ _ I). split.
  - apply NoDup_filter, I.
  - intros l1 n l2 p El Hp.
    assert (Hn : n ∈ del_list s' ∧ users n ≠ []).
    { assert (Hx : n ∈ filter (λ p, users p ≠ []) (del_list s')) by (rewrite El; apply elem_of_app; right; by left).
      apply list_elem_of_filter in Hx as [? ?]. done. }
    destruct Hn as [Hn Hun]. apply list_elem_of_split in Hn as (d1 & d2 & Ed).
    destruct (inv_order _ _ I _ _ _ Ed) as [_ Hu]. specialize (Hu p Hp).
    assert (Hd : l1 = filter (λ p, users p ≠ []) d1).
    { assert (Hnd : NoDup (l1 ++ n :: l2)) by (rewrite <- El; apply NoDup_filter, I).
      rewrite Ed, filter_app, filter_cons, decide_True in El by done. by eapply split_unique. }
    rewrite Hd. apply list_elem_of_filter. split; [|done].
    apply list_elem_of_filter in Hp as [Hp _]. by intros E0; rewrite E0 in Hp; apply not_elem_of_nil in Hp.
  - intros n. rewrite list_elem_of_filter. split.
    + intros [Hu Hn]. split; [|done]. by apply (visited_grounded s').
    + intros [Hg Hu]. split; [done|]. by apply grounded_visited.
Qed.

End Proof.
End Sort.
End Sort.
