(* ===== verification/CmaArray.v ===== *)
(** * CmaArray: the array of processing elements of the CMA (cmamodules.h, cmamodules.cc)

    The objects of the array form a data flow: multiplexers, ALUs and pipeline registers
    that read the data of their predecessors through pointers. *)

From S2P Require Import Prelude Effects CmaSort.

(** Reads that may go through a pointer or an index that is not valid. *)
Declare Scope partial_scope.
Notation "'let?' x := m 'in' k" := (match m with Some x => k | None => None end)
  (at level 200, x name, m at level 100, k at level 200) : partial_scope.
#[global] Open Scope partial_scope.

(** ** The operations of an ALU, on words of 24 bits with a carry *)
Module PEOps.

Definition DWORD_MASK : Z := 0x1FFFFFF.
Definition CARRY_MASK : Z := 0x1000000.
Definition DATA_MASK : Z := Z.lxor DWORD_MASK CARRY_MASK.
Definition CARRY_LSB : Z := 24.

Definition exec_nop (inA inB : Z) : option Z := Some 0.
Definition exec_add (inA inB : Z) : option Z := Some (Z.land DWORD_MASK (u32 (inA + inB))).
Definition exec_sub (inA inB : Z) : option Z :=
  let tmpA := Z.land inA DWORD_MASK in
  let tmpB := Z.land (lnot32 (Z.land inB DWORD_MASK)) DWORD_MASK in
  Some (Z.land (u32 (u32 (tmpA + tmpB) + 1)) DATA_MASK).
Definition exec_mult (inA inB : Z) : option Z :=
  let tmpA := Z.land inA DATA_MASK in let carryA := Z.land inA CARRY_MASK in
  let tmpB := Z.land inB DATA_MASK in let carryB := Z.land inB CARRY_MASK in
  Some (Z.lor (Z.lxor carryA carryB) (Z.land (u32 (tmpA * tmpB)) DATA_MASK)).
(** Shifting a word by 32 or more is undefined. *)
Definition shifted (f : Z → Z → Z) (inA inB : Z) : option Z :=
  if 32 <=? inB then None else Some (f inA inB).
Definition exec_sl (inA inB : Z) : option Z :=
  shifted (λ a b, Z.land DWORD_MASK (u32 (Z.shiftl a b))) inA inB.
Definition exec_sr (inA inB : Z) : option Z := shifted (λ a b, Z.land DWORD_MASK (Z.shiftr a b)) inA inB.
Definition exec_sra (inA inB : Z) : option Z :=
  if nz (Z.land inA CARRY_MASK) then
    if CARRY_LSB <? inB then Some 0
    else
      let upper := u32 (Z.shiftl (s32 (Z.shiftl 1 inB) - 1) (CARRY_LSB - inB)) in
      Some (Z.lor (Z.lor (Z.shiftr inA inB) upper) (Z.shiftl 1 CARRY_LSB))
  else exec_sr inA inB.
Definition exec_sel (inA inB : Z) : option Z :=
  Some (if Z.land inA CARRY_MASK =? 0 then inA else inB).
Definition exec_cat (inA inB : Z) : option Z := Some inA.
Definition exec_not (inA inB : Z) : option Z := Some (lnot32 inA).
Definition exec_and (inA inB : Z) : option Z := Some (Z.land inA inB).
Definition exec_or (inA inB : Z) : option Z := Some (Z.lor inA inB).
Definition exec_xor (inA inB : Z) : option Z := Some (Z.lxor inA inB).
Definition exec_eql (inA inB : Z) : option Z :=
  let tmpA := Z.land inA DATA_MASK in let tmpB := Z.land inB DATA_MASK in
  Some (if tmpA =? tmpB then Z.lor (Z.shiftl 1 CARRY_LSB) tmpA else 0).
Definition greater (inA inB : Z) : bool :=
  let tmpA := Z.land inA DATA_MASK in let carryA := nz (Z.land inA CARRY_MASK) in
  let tmpB := Z.land inB DATA_MASK in let carryB := nz (Z.land inB CARRY_MASK) in
  ((negb carryA && negb carryB) && (tmpB <? tmpA)) || (negb carryA && carryB) ||
    ((carryA && carryB) && (tmpA <? tmpB)).
Definition exec_gt (inA inB : Z) : option Z := Some (if greater inA inB then Z.shiftl 1 CARRY_LSB else 0).
Definition exec_lt (inA inB : Z) : option Z :=
  let? tmp := exec_gt inA inB in if negb (tmp =? 0) then Some 0 else Some (Z.shiftl 1 CARRY_LSB).

Definition PE_op_table : list (Z → Z → option Z) :=
  [exec_nop; exec_add; exec_sub; exec_mult; exec_sl; exec_sr; exec_sra; exec_sel;
   exec_cat; exec_not; exec_and; exec_or; exec_xor; exec_eql; exec_gt; exec_lt].
Definition OP_SIZE : Z := 16.

End PEOps.

Module PEArray.

(** ** The objects *)

(** The pointers to the objects: the elements of the arrays of [PEArray]. *)
Inductive node :=
| ALU (x y : Z)                   (* alus[x][y] *)
| SEL (x y i : Z)                 (* alu_sels[x][y][i] *)
| CH (x y se ch : Z)              (* channels[x][y][se][ch] *)
| CREG (i : Z)                    (* cregs[i] *)
| PREG (x y i : Z)                (* pregs[x][y][i] *)
| LAUNCH (x : Z)                  (* launch_regs[x] *)
| GATHER (x : Z).                 (* gather_regs[x] *)
#[global] Instance node_eq_dec : EqDecision node.
Proof. solve_decision. Defined.
Definition encode_node (n : node) : Z * list Z :=
  match n with
  | ALU x y => (0, [x; y]) | SEL x y i => (1, [x; y; i]) | CH x y se ch => (2, [x; y; se; ch])
  | CREG i => (3, [i]) | PREG x y i => (4, [x; y; i]) | LAUNCH x => (5, [x]) | GATHER x => (6, [x])
  end.
Definition decode_node (e : Z * list Z) : option node :=
  match e with
  | (0, [x; y]) => Some (ALU x y) | (1, [x; y; i]) => Some (SEL x y i)
  | (2, [x; y; se; ch]) => Some (CH x y se ch) | (3, [i]) => Some (CREG i)
  | (4, [x; y; i]) => Some (PREG x y i) | (5, [x]) => Some (LAUNCH x) | (6, [x]) => Some (GATHER x)
  | _ => None
  end.
#[global] Instance node_countable : Countable node.
Proof. refine (inj_countable encode_node decode_node _). by intros []. Defined.

(** The class of an object with its own fields; [PENodeBase] has the others. *)
Inductive class :=
| MUXc (config_data : Z)
| ALUc (opcode : Z)
| PREGc (activated : bool) (latch : Z)
| ConstRegc (const_data : Z)
| MemLoadUnitc
| MemStoreUnitc.
Record obj := Obj {
  cls : class;
  predecessors : list (option node);        (* with null pointers *)
  successors : list node;
  obuf : list Z                             (* std::queue<uint32> *)
}.
#[global] Instance obj_eta : Eta obj := λ o, Obj (cls o) (predecessors o) (successors o) (obuf o).
Notation heap := (gmap node obj).

Definition CONST_MASK : Z := 0x001FFFF.

(** [getData] *)
Definition getData_of (o : obj) : Z :=
  match cls o with
  | ConstRegc const_data =>
      if Z.shiftr CONST_MASK 1 <? const_data
      then Z.lor (Z.lxor PEOps.DWORD_MASK CONST_MASK) const_data else const_data
  | _ => match obuf o with [] => 0 | d :: _ => d end
  end.
Definition getData (h : heap) (n : node) : option Z := getData_of <$> h !! n.

(** [isUse]; a pipeline register asks its successors, which are multiplexers here and not
    pipeline registers again: [fuel] bounds the nesting. *)
Fixpoint isUse (fuel : nat) (h : heap) (this pred : node) : option bool :=
  match fuel with
  | O => None
  | S fuel =>
      let? o := h !! this in
      match cls o with
      | MUXc config_data => let? p := nthz (predecessors o) config_data in Some (bool_decide (p = Some pred))
      | ALUc opcode => Some (negb (opcode =? 0))
      | PREGc _ _ => let? l := mapM (λ s, isUse fuel h s this) (successors o) in Some (existsb id l)
      | ConstRegc _ | MemLoadUnitc => Some false
      | MemStoreUnitc => Some true
      end
  end.
Definition NESTING : nat := 2.

Definition in_degree_of (o : obj) : Z :=
  match cls o with
  | MUXc _ | PREGc _ _ | MemStoreUnitc => 1
  | ALUc _ => 2
  | ConstRegc _ | MemLoadUnitc => 0
  end.

Fixpoint used_of (h : heap) (this : node) (l : list node) : option (list node) :=
  match l with
  | [] => Some []
  | s :: l => let? b := isUse NESTING h s this in let? k := used_of h this l in Some (if (b : bool) then s :: k else k)
  end.
Definition use_successors (h : heap) (this : node) : option (list node) :=
  let? o := h !! this in used_of h this (successors o).

(** ** The array *)
Record t := Mk {
  height : Z; width : Z;                     (* int *)
  se_count : Z; se_channels : Z;
  preg_channels : Z;
  nodes : heap;
  config_changed : bool;
  tsorted_list : list node
}.
#[global] Instance eta : Eta t := λ a,
  Mk (height a) (width a) (se_count a) (se_channels a) (preg_channels a) (nodes a)
     (config_changed a) (tsorted_list a).
Notation M := (Effects.M t).

Definition each (n : t → Z) (f : Z → M unit) : M unit := k ← gets n; for_range 0 (Z.to_nat k) f.

(** [new C()] and [connect] *)
Definition new (n : node) (c : class) (q : list Z) : M unit :=
  modify (λ a, a <| nodes ::= <[n := Obj c [] [] q]> |>).
Definition connect (this : node) (pred : option node) : M unit :=
  zoom_key nodes this (modify (λ o, o <| predecessors ::= λ l, l ++ [pred] |>));;
  match pred with
  | None => mret ()
  | Some p => zoom_key nodes p (modify (λ o, o <| successors ::= λ l, l ++ [this] |>))
  end.

Definition new_MUX (n : node) : M unit := new n (MUXc 1) [].
Definition make_ALUs : M unit :=
  each width (λ x, each height (λ y,
    new (ALU x y) (ALUc 0) [];; new_MUX (SEL x y 0);; new_MUX (SEL x y 1);;
    connect (ALU x y) (Some (SEL x y 0));; connect (ALU x y) (Some (SEL x y 1)))).
Definition make_SEs : M unit :=
  each width (λ x, each height (λ y, each se_count (λ se, each se_channels (λ ch, new_MUX (CH x y se ch))))).
Definition make_const_regs : M unit := each (λ a, height a * 2) (λ i, new (CREG i) (ConstRegc 0) []).
Definition make_pregs : M unit :=
  each width (λ x, each (λ a, height a - 1) (λ y, each preg_channels (λ i,
    new (PREG x y i) (PREGc false 0) []))).
Definition make_memports : M unit :=
  each width (λ x, new (LAUNCH x) MemLoadUnitc [0];; new (GATHER x) MemStoreUnitc [0]).
Definition PEArray (height_ width_ preg_channels_ se_count_ se_channels_ : Z) : M unit :=
  modify (λ _, Mk height_ width_ se_count_ se_channels_ preg_channels_ ∅ false []);;
  make_ALUs;; make_SEs;; make_const_regs;;
  when (0 <? preg_channels_) make_pregs;;
  make_memports;;
  config_changed <~ false.

(** ** The connections of [CCSOTB2_PEArray] *)
Definition IN_SE_NORTH : Z := 0.
Definition IN_SE_SOUTH : Z := 1.
Definition IN_SE_EAST : Z := 2.
Definition IN_SE_WEST : Z := 3.
Definition IN_DL_S : Z := 4.
Definition IN_DL_SE : Z := 5.
Definition IN_DL_SW : Z := 6.
Definition OUT_SE_NORTH : Z := 0.
Definition OUT_SE_SOUTH : Z := 1.
Definition OUT_SE_EAST : Z := 2.
Definition OUT_SE_WEST : Z := 3.
Definition OPPOSITE_CHANNEL (ch : Z) : Z :=
  if ch =? IN_SE_NORTH then OUT_SE_SOUTH else if ch =? IN_SE_SOUTH then OUT_SE_NORTH
  else if ch =? IN_SE_EAST then OUT_SE_WEST else OUT_SE_EAST.
Definition CONNECT_COORD (ch : Z) : Z * Z :=
  if ch =? IN_SE_NORTH then (0, 1) else if ch =? IN_SE_SOUTH then (0, -1)
  else if ch =? IN_SE_EAST then (1, 0) else if ch =? IN_SE_WEST then (-1, 0)
  else if ch =? IN_DL_S then (0, -1) else if ch =? IN_DL_SE then (1, -1) else (-1, -1).

(** The calls of [connect] for the element [x], [y], in their order. *)
Section Connections.
  Variables (h w x y : Z).

Definition connection : Type := node * option node.
Definition inside (px py : Z) : bool := (0 <=? px) && (px <? w) && ((0 <=? py) && (py <? h)).
Definition both_sels (p : option node) : list connection := [(SEL x y 0, p); (SEL x y 1, p)].
Definition se_to_alu (ch : Z) : list connection :=
  let px := (CONNECT_COORD ch).1 + x in let py := (CONNECT_COORD ch).2 + y in
  both_sels
    (if inside px py then
       Some (if ch =? IN_SE_SOUTH then PREG px py 1 else CH px py 0 (OPPOSITE_CHANNEL ch))
     else if py =? -1 then Some (LAUNCH x) else None).
Definition dl_to_alu (ch : Z) : list connection :=
  let px := (CONNECT_COORD ch).1 + x in let py := (CONNECT_COORD ch).2 + y in
  both_sels (if inside px py then Some (PREG px py 0) else None).
Definition to_outs (outs : list Z) (p : option node) : list connection :=
  (λ o, (CH x y 0 o, p)) <$> outs.
Definition pe_connections : list connection :=
  (* SE to ALU *)
  (seqZ IN_SE_SOUTH 3 ≫= se_to_alu) ++
  (* ALU to ALU *)
  (if y <? h - 1 then [(PREG x y 0, Some (ALU x y))] else []) ++
  (seqZ IN_DL_S 3 ≫= dl_to_alu) ++
  (* constants to ALU *)
  [(SEL x y 0, Some (CREG y)); (SEL x y 0, Some (CREG (y + h)));
   (SEL x y 1, Some (CREG y)); (SEL x y 1, Some (CREG (y + h)))] ++
  (* own ALU *)
  to_outs [OUT_SE_NORTH; OUT_SE_SOUTH; OUT_SE_EAST] (Some (ALU x y)) ++
  (* from the south, north, east and west *)
  to_outs [OUT_SE_NORTH; OUT_SE_EAST; OUT_SE_WEST]
    (if 0 <? y then Some (PREG x (y - 1) 1) else Some (LAUNCH x)) ++
  to_outs [OUT_SE_SOUTH]
    (if y <? h - 1 then Some (CH x (y + 1) 0 (OPPOSITE_CHANNEL IN_SE_NORTH)) else None) ++
  to_outs [OUT_SE_NORTH; OUT_SE_SOUTH; OUT_SE_WEST]
    (if x <? w - 1 then Some (CH (x + 1) y 0 (OPPOSITE_CHANNEL IN_SE_EAST)) else None) ++
  to_outs [OUT_SE_NORTH; OUT_SE_SOUTH; OUT_SE_EAST]
    (if 0 <? x then Some (CH (x - 1) y 0 (OPPOSITE_CHANNEL IN_SE_WEST)) else None) ++
  (* direct links from the south, southeast and southwest *)
  to_outs [OUT_SE_NORTH; OUT_SE_EAST; OUT_SE_WEST]
    (if 0 <? y then Some (PREG x (y - 1) 0) else None) ++
  to_outs [OUT_SE_NORTH; OUT_SE_EAST; OUT_SE_WEST]
    (if (0 <? y) && (x <? w - 1) then Some (PREG (x + 1) (y - 1) 0) else None) ++
  to_outs [OUT_SE_NORTH; OUT_SE_EAST]
    (if (0 <? y) && (0 <? x) then Some (PREG (x - 1) (y - 1) 0) else None) ++
  (* constants to SE, SE to pipeline register *)
  to_outs [OUT_SE_NORTH] (Some (CREG y)) ++
  (if y <? h - 1 then [(PREG x y 1, Some (CH x y 0 OUT_SE_NORTH))] else []).

End Connections.

Definition make_connection : M unit :=
  each width (λ x,
    each height (λ y,
      h ← gets height; w ← gets width;
      for_each (pe_connections h w x y) (λ '(n, p), connect n p));;
    connect (GATHER x) (Some (CH x 0 0 OUT_SE_SOUTH))).
Definition CCSOTB2_PEArray (height_ width_ : Z) : M unit :=
  PEArray height_ width_ 2 1 4;; make_connection.

(** ** Configuration *)
Definition on (n : node) (m : Effects.M obj unit) : M unit := zoom_key nodes n m.
Definition config (data : Z) : Effects.M obj unit :=
  o ← gets id;
  match cls o with
  | MUXc _ =>
      when (data <? Z.of_nat (length (predecessors o))) (cls <~ MUXc data)
  | ALUc _ => when (data <? PEOps.OP_SIZE) (cls <~ ALUc data)
  | _ => crash
  end.
Definition activate (b : bool) : Effects.M obj unit :=
  o ← gets id; match cls o with PREGc _ l => cls <~ PREGc b l | _ => crash end.

Definition load_const (addr : Z) : M Z :=
  h ← gets height;
  let index := Z.shiftr addr 2 in
  if h * 2 <=? index then mret 0
  else a ← gets nodes; from_option (getData a (CREG index)).
Definition store_const (addr data : Z) : M unit :=
  h ← gets height;
  let index := Z.shiftr addr 2 in
  when (index <? h * 2) (on (CREG index) (cls <~ ConstRegc (Z.land data CONST_MASK))).
Definition config_PREG (data : Z) : M unit :=
  each (λ a, height a - 1) (λ y,
    each width (λ x, each preg_channels (λ i, on (PREG x y i) (activate (Z.testbit data y)))));;
  config_changed <~ true.

Definition opcode_field (data : Z) : Z := Z.shiftr (Z.land data 0x3C0) 6.
Definition sel_a_field (data : Z) : Z := Z.shiftr (Z.land data 0x038) 3.
Definition sel_b_field (data : Z) : Z := Z.land data 0x007.
Definition se_north_field (data : Z) : Z := Z.shiftr (Z.land data 0x380) 7.
Definition se_south_field (data : Z) : Z := Z.shiftr (Z.land data 0x060) 5.
Definition se_east_field (data : Z) : Z := Z.shiftr (Z.land data 0x01C) 2.
Definition se_west_field (data : Z) : Z := Z.land data 0x003.
Definition config_ALU_at (x y data : Z) : M unit :=
  on (ALU x y) (config (opcode_field data));;
  on (SEL x y 0) (config (sel_a_field data));;
  on (SEL x y 1) (config (sel_b_field data)).
Definition config_SE_at (x y data : Z) : M unit :=
  on (CH x y 0 0) (config (se_north_field data));;
  on (CH x y 0 1) (config (se_south_field data));;
  on (CH x y 0 2) (config (se_east_field data));;
  on (CH x y 0 3) (config (se_west_field data)).
(** Row multicast: the elements in the rows and columns of the bitmaps. *)
Definition multicast (col_bitmap row_bitmap : Z) (f : Z → Z → M unit) : M unit :=
  each width (λ x, each height (λ y,
    when (Z.testbit col_bitmap x && Z.testbit row_bitmap y) (f x y)));;
  config_changed <~ true.
Definition config_ALU_RMC (col_bitmap row_bitmap data : Z) : M unit :=
  multicast col_bitmap row_bitmap (λ x y, config_ALU_at x y data).
Definition config_SE_RMC (col_bitmap row_bitmap data : Z) : M unit :=
  multicast col_bitmap row_bitmap (λ x y, config_SE_at x y data).
Definition config_PE_at (x y data : Z) : M unit :=
  config_ALU_at x y (Z.land data 0x000003FF);;
  config_SE_at x y (Z.shiftr (Z.land data 0x000FFC00) 10);;
  config_changed <~ true.
Definition config_PE (pe_addr data : Z) : M unit :=
  w ← gets width; config_PE_at (Z.rem pe_addr w) (Z.quot pe_addr w) data.

(** ** Execution *)

(** The objects whose in-degrees [analyze_dataflow] enters into its map. *)
Definition range (n : Z) : list Z := seqZ 0 n.
Definition array_nodes (a : t) : list node :=
  (range (width a) ≫= λ x,
    (range (height a) ≫= λ y,
      [ALU x y; SEL x y 0; SEL x y 1] ++
      (range (se_count a) ≫= λ se, (λ ch, CH x y se ch) <$> range (se_channels a))) ++
    [LAUNCH x; GATHER x]) ++
  (range (height a) ≫= λ y, [CREG y; CREG (y + height a)]) ++
  (if 0 <? preg_channels a then
     range (width a) ≫= λ x, range (height a - 1) ≫= λ y, PREG x y <$> range (preg_channels a)
   else []).
Fixpoint enter_degrees (h : heap) (l : list node) (m : gmap node Z) : option (gmap node Z) :=
  match l with
  | [] => Some m
  | n :: l => let? o := h !! n in enter_degrees h l (<[n := in_degree_of o]> m)
  end.

Section Addresses.
  (** All objects in the order of their addresses. *)
  Variable addresses : list node.

Definition analyze_dataflow : M unit :=
  a ← gets id;
  m ← from_option (enter_degrees (nodes a) (array_nodes a) ∅);
  match Sort.passes addresses (use_successors (nodes a)) (S (size m)) (Sort.Mk m [] []) with
  | Some (_, s, _) => tsorted_list <~ Sort.tsorted_list s;; config_changed <~ false
  | None => crash
  end.

(** [exec] and [update] of an object. *)
Definition input (h : heap) (o : obj) (i : Z) : option Z :=
  let? p := nthz (predecessors o) i in let? n := p in getData h n.
Definition push (d : Z) (o : obj) : obj := o <| obuf ::= λ l, l ++ [d] |>.
Definition pop (o : obj) : option obj :=
  match obuf o with [] => None | _ :: l => Some (o <| obuf := l |>) end.
Definition exec_of (h : heap) (o : obj) : option obj :=
  match cls o with
  | MUXc config_data => let? d := input h o config_data in Some (push d o)
  | ALUc opcode =>
      let? a := input h o 0 in let? b := input h o 1 in
      let? f := nthz PEOps.PE_op_table opcode in let? d := f a b in Some (push d o)
  | PREGc true latch => let? d := input h o 0 in Some (push latch o <| cls := PREGc true d |>)
  | PREGc false latch => let? d := input h o 0 in Some (push d o)
  | ConstRegc _ | MemLoadUnitc => Some o
  | MemStoreUnitc => let? o' := pop o in let? d := input h o 0 in Some (push d o')
  end.
Definition update_of (o : obj) : option obj :=
  match cls o with
  | ConstRegc _ => Some o
  | MemLoadUnitc => if 1 <? Z.of_nat (length (obuf o)) then pop o else Some o
  | _ => pop o
  end.
Definition exec_node (n : node) : M unit :=
  a ← gets nodes; o ← from_option (a !! n); o' ← from_option (exec_of a o);
  modify (λ s, s <| nodes ::= <[n := o']> |>).
Definition update_node (n : node) : M unit :=
  a ← gets nodes; o ← from_option (a !! n); o' ← from_option (update_of o);
  modify (λ s, s <| nodes ::= <[n := o']> |>).

Definition exec : M unit :=
  c ← gets config_changed;
  when c analyze_dataflow;;
  l ← gets tsorted_list; for_each l exec_node;;
  each width (λ i, exec_node (GATHER i));;
  l ← gets tsorted_list; for_each l update_node.

End Addresses.

(** ** The ports *)
Definition launch (input_data : list Z) : M unit :=
  each width (λ i,
    d ← from_option (nthz input_data i);
    on (LAUNCH i) (modify (push d))).
Definition load_gather (i : Z) (h : heap) : option Z := let? o := h !! GATHER i in head (obuf o).
Definition gather : M (list Z) :=
  a ← gets id; from_option (mapM (λ i, load_gather i (nodes a)) (range (width a))).

(** ** The debugger's view *)

(** [debug_push_data] discards the first data and loops for ever while data are left; the
    first [pop] needs one. *)
Definition debug_push_data (data : Z) : Effects.M obj unit :=
  q ← gets obuf;
  match q with
  | [_] => obuf <~ [data]
  | _ => crash
  end.
Definition debug_fetch (n : node) : M Z := a ← gets nodes; from_option (getData a n).
Definition debug_store (n : node) (data : Z) : M unit :=
  on n (debug_push_data (Z.land data PEOps.DWORD_MASK)).
(** [col] is compared as an unsigned number. *)
Definition debug_fetch_launch (col : Z) : M Z :=
  w ← gets width; if col <? u32 w then debug_fetch (LAUNCH col) else mret 0.
Definition debug_store_launch (col data : Z) : M unit :=
  w ← gets width; when (col <? u32 w) (debug_store (LAUNCH col) data).
Definition debug_fetch_gather (col : Z) : M Z :=
  w ← gets width; if col <? u32 w then debug_fetch (GATHER col) else mret 0.
Definition debug_store_gather (col data : Z) : M unit :=
  w ← gets width; when (col <? u32 w) (debug_store (GATHER col) data).
Definition MOD_ALU_L : Z := 4.
Definition MOD_ALU_R : Z := 5.
Definition MOD_ALU_O : Z := 6.
(** The object that a part of the element at [pe_addr] is. *)
Definition debug_node (a : t) (pe_addr type : Z) : option node :=
  let x := Z.rem pe_addr (width a) in
  let y := Z.quot pe_addr (width a) in
  if height a <=? y then None
  else if type =? MOD_ALU_L then Some (SEL x y 0)
  else if type =? MOD_ALU_R then Some (SEL x y 1)
  else if type =? MOD_ALU_O then Some (ALU x y)
  else None.
Definition debug_fetch_ALU (pe_addr type : Z) : M Z :=
  n ← gets (λ a, debug_node a pe_addr type);
  match n with Some n => debug_fetch n | None => mret 0 end.
Definition debug_store_ALU (pe_addr type data : Z) : M unit :=
  n ← gets (λ a, debug_node a pe_addr type);
  match n with Some n => debug_store n data | None => mret () end.

End PEArray.

(** ** The arithmetic of the operations *)
Module PEWords.
Import PEOps.

(** The words of the array; the number that a word is in two's complement, and the one that
    it is as a sign and a magnitude. *)
Definition word (a : Z) : Prop := is_u 25 a.
Definition twos (a : Z) : Z := if Z.testbit a 24 then a - 2 ^ 25 else a.
Definition magnitude (a : Z) : Z := a mod 2 ^ 24.
Definition number (a : Z) : Z := if Z.testbit a 24 then - magnitude a else magnitude a.
Definition flag (b : bool) : Z := if b then 2 ^ 24 else 0.

Lemma land_data a : Z.land a DATA_MASK = a mod 2 ^ 24.
Proof. change DATA_MASK with (Z.ones 24). by rewrite Z.land_ones by lia. Qed.
Lemma land_dword a : Z.land DWORD_MASK a = a mod 2 ^ 25.
Proof. rewrite Z.land_comm. change DWORD_MASK with (Z.ones 25). by rewrite Z.land_ones by lia. Qed.
Lemma land_carry a : Z.land a CARRY_MASK = flag (Z.testbit a 24).
Proof.
  apply Z.bits_inj'. intros i Hi. change CARRY_MASK with (2 ^ 24). rewrite Z.land_spec, Z.pow2_bits_eqb by lia.
  unfold flag. destruct (Z.eqb_spec 24 i) as [<-|Hn].
  - destruct (Z.testbit a 24); [by rewrite Z.pow2_bits_eqb|by rewrite Z.bits_0].
  - rewrite andb_false_r. destruct (Z.testbit a 24); [|by rewrite Z.bits_0].
    rewrite Z.pow2_bits_eqb by lia. symmetry. by apply Z.eqb_neq.
Qed.
Lemma nz_carry a : nz (Z.land a CARRY_MASK) = Z.testbit a 24.
Proof. rewrite land_carry. by destruct (Z.testbit a 24). Qed.
Lemma word_split a : word a → a = flag (Z.testbit a 24) + magnitude a ∧ 0 ≤ magnitude a < 2 ^ 24.
Proof.
  unfold word, is_u, magnitude, flag. intros Ha. rewrite Z.testbit_eqb by lia.
  pose proof (Z.div_mod a (2 ^ 24) ltac:(lia)). pose proof (Z.mod_pos_bound a (2 ^ 24) ltac:(lia)).
  assert (a / 2 ^ 24 = 0 ∨ a / 2 ^ 24 = 1) as [Hq|Hq] by lia; rewrite Hq.
  - change (0 mod 2 =? 1) with false. lia.
  - change (1 mod 2 =? 1) with true. lia.
Qed.
Lemma flag_data c d : 0 ≤ d < 2 ^ 24 →
  Z.lor (flag c) d = flag c + d ∧ Z.testbit (flag c + d) 24 = c ∧ magnitude (flag c + d) = d ∧ word (flag c + d).
Proof.
  intros Hd. assert (Hw : word (flag c + d)) by (unfold word, is_u, flag; destruct c; lia).
  assert (Hm : magnitude (flag c + d) = d).
  { unfold magnitude, flag. destruct c; [|by apply Z.mod_small].
    rewrite Z.add_comm, <- (Z.mul_1_l (2 ^ 24)) at 1. by rewrite Z_mod_plus_full, Z.mod_small. }
  assert (Hb : Z.testbit (flag c + d) 24 = c).
  { pose proof (proj1 (word_split _ Hw)) as E. rewrite Hm in E. unfold flag in *. destruct c, (Z.testbit _ 24); lia || done. }
  split; [|done]. symmetry. rewrite <- Z.lxor_lor, Z.add_nocarry_lxor; [done|..].
  all: apply Z.bits_inj'; intros i Hi; rewrite Z.land_spec, Z.bits_0; unfold flag; destruct c; [|by rewrite Z.bits_0].
  all: rewrite Z.pow2_bits_eqb by lia; destruct (Z.eqb_spec 24 i) as [<-|]; [|done].
  all: cbn [andb]; apply (testbit_high 24); unfold is_u; lia.
Qed.
Lemma word_magnitude a : word a → number a = (if Z.testbit a 24 then - (a - 2 ^ 24) else a).
Proof. intros Ha. destruct (word_split a Ha) as [E _]. unfold number, flag in *. destruct (Z.testbit a 24); lia. Qed.

Lemma greater_number a b : word a → word b →
  greater a b = true ↔ number b < number a ∨ a = 0 ∧ b = 2 ^ 24.
Proof.
  intros Ha Hb. destruct (word_split a Ha) as [Ea Ma], (word_split b Hb) as [Eb Mb].
  unfold greater. rewrite !nz_carry, !land_data. fold (magnitude a) (magnitude b). unfold number, flag in *.
  destruct (Z.testbit a 24), (Z.testbit b 24); cbn [negb andb orb]; rewrite ?orb_false_r, ?Z.ltb_lt; split; (lia || done || (intros; lia)).
Qed.

(** The bits of a negative word, and those that an arithmetic shift brings in. *)
Lemma twos_bits a i : word a → 0 ≤ i → Z.testbit (twos a) i = Z.testbit a (Z.min i 24).
Proof.
  unfold word, is_u, twos. intros Ha Hi. destruct (Z.testbit a 24) eqn:E.
  - replace (a - 2 ^ 25) with (Z.lnot (Z.lxor (Z.ones 25) a)).
    + rewrite Z.lnot_spec, Z.lxor_spec by done. destruct (Z.le_gt_cases i 24).
      * rewrite Z.ones_spec_low, Z.min_l by lia. by destruct (Z.testbit a i).
      * rewrite Z.ones_spec_high, Z.min_r, E, (testbit_high 25 a) by (done || lia). done.
    + rewrite Z.lxor_comm. assert (Hx : Z.lxor a (Z.ones 25) = Z.ones 25 - a).
      { rewrite (Z.sub_nocarry_ldiff (Z.ones 25) a).
        - apply Z.bits_inj'. intros k Hk. rewrite Z.lxor_spec, Z.ldiff_spec. destruct (Z.le_gt_cases 25 k).
          + rewrite (testbit_high 25 a), Z.ones_spec_high by (done || lia). done.
          + rewrite Z.ones_spec_low by lia. by destruct (Z.testbit a k).
        - apply Z.bits_inj'. intros k Hk. rewrite Z.ldiff_spec, Z.bits_0. destruct (Z.le_gt_cases 25 k).
          + by rewrite (testbit_high 25 a) by (done || lia).
          + rewrite Z.ones_spec_low by lia. by destruct (Z.testbit a k). }
      rewrite Hx. unfold Z.lnot. change (Z.ones 25) with (2 ^ 25 - 1). lia.
  - destruct (Z.le_gt_cases i 24); [by rewrite Z.min_l by lia|]. by rewrite Z.min_r, E, (testbit_high 25 a) by (done || lia).
Qed.
Lemma sra_twos a b : word a → 0 ≤ b ≤ 24 → exec_sra a b = Some (wrap 25 (Z.shiftr (twos a) b)).
Proof.
  intros Ha Hb. unfold exec_sra, exec_sr, shifted. rewrite nz_carry. destruct (Z.testbit a 24) eqn:E.
  - rewrite (proj2 (Z.ltb_ge _ _)) by (unfold CARRY_LSB; lia). f_equal. unfold CARRY_LSB.
    assert (Hp : 0 < 2 ^ b ≤ 2 ^ 24) by (split; [apply Z.pow_pos_nonneg; lia|apply Z.pow_le_mono_r; lia]).
    replace (s32 (Z.shiftl 1 b) - 1) with (Z.ones b).
    2: { rewrite Z.ones_equiv, Z.shiftl_1_l. rewrite s32_small; lia. }
    apply Z.bits_inj'. intros i Hi.
    rewrite !Z.lor_spec, wrap_spec, u32_spec, tb_mask, !Z.shiftr_spec, twos_bits by (done || lia).
    change (Z.shiftl 1 24) with (2 ^ 24). rewrite Z.pow2_bits_eqb by lia.
    destruct (Z.ltb_spec i 25); cbn [andb].
    + destruct (Z.le_gt_cases (i + b) 24).
      * rewrite Z.min_l by lia. destruct (Z.testbit a (i + b)) eqn:Ei; [done|].
        rewrite (proj2 (Z.ltb_lt i 32)) by lia. destruct (Z.eqb_spec 24 i), (Z.leb_spec (24 - b) i); try done; exfalso.
        -- replace (i + b) with 24 in Ei by lia. congruence.
        -- replace (i + b) with 24 in Ei by lia. congruence.
        -- replace (i + b) with 24 in Ei by lia. congruence.
      * rewrite Z.min_r, E by lia. rewrite (testbit_high 25 a), (proj2 (Z.ltb_lt i 32)), (proj2 (Z.leb_le (24 - b) i)) by (done || lia).
        destruct (Z.eqb_spec 24 i); [by rewrite orb_true_r|]. by rewrite (proj2 (Z.ltb_lt i (24 - b + b))) by lia.
    + rewrite (testbit_high 25 a) by (done || lia). destruct (Z.eqb_spec 24 i); [lia|].
      rewrite (proj2 (Z.ltb_ge i (24 - b + b))) by lia. by rewrite !andb_false_r.
  - rewrite (proj2 (Z.leb_gt _ _)) by lia. f_equal. rewrite land_dword. unfold twos. by rewrite E.
Qed.

Lemma words_mod x : word (x mod 2 ^ 25) ∧ word (x mod 2 ^ 24).
Proof.
  pose proof (Z.mod_pos_bound x (2 ^ 24) ltac:(lia)). pose proof (Z.mod_pos_bound x (2 ^ 25) ltac:(lia)).
  unfold word, is_u. lia.
Qed.
Lemma ops_words a b k f r : word a → word b → exec_add a b = Some ((a + b) mod 2 ^ 25) →
  exec_sub a b = Some ((a - b) mod 2 ^ 24) →
  exec_mult a b = Some (flag (xorb (Z.testbit a 24) (Z.testbit b 24)) + (magnitude a * magnitude b) mod 2 ^ 24) →
  PE_op_table !! k = Some f → k ≠ 9%nat → f a b = Some r → word r.
Proof.
  intros Ha Hb Hadd Hsub Hmul Hf Hk Hr. pose proof (proj2 (word_split a Ha)) as Ma.
  assert (Hsr : exec_sr a b = Some r → word r).
  { unfold exec_sr, shifted. destruct (32 <=? b); [done|]. rewrite land_dword. intros [= <-]. apply words_mod. }
  do 16 (try (destruct k as [|k]; [injection Hf as <-|])); [..|done].
  - by injection Hr as <-.
  - rewrite Hadd in Hr. injection Hr as <-. apply words_mod.
  - rewrite Hsub in Hr. injection Hr as <-. apply words_mod.
  - rewrite Hmul in Hr. injection Hr as <-. apply flag_data, Z.mod_pos_bound. lia.
  - unfold exec_sl, shifted in Hr. destruct (32 <=? b); [done|]. rewrite land_dword in Hr. injection Hr as <-. apply words_mod.
  - by apply Hsr.
  - destruct (Z.le_gt_cases b 24) as [Hb'|Hb'].
    + rewrite sra_twos in Hr by (done || unfold word, is_u in Hb; lia). injection Hr as <-. apply words_mod.
    + unfold exec_sra in Hr. destruct (nz _); [|by apply Hsr].
      rewrite (proj2 (Z.ltb_lt _ _)) in Hr by (unfold CARRY_LSB; lia). by injection Hr as <-.
  - unfold exec_sel in Hr. destruct (_ =? _); by injection Hr as <-.
  - by injection Hr as <-.
  - done.
  - injection Hr as <-. by apply land_is_u.
  - injection Hr as <-. by apply lor_is_u.
  - injection Hr as <-. by apply lxor_is_u.
  - unfold exec_eql in Hr. rewrite !land_data in Hr. destruct (_ =? _); injection Hr as <-; [|done].
    destruct (flag_data true (a mod 2 ^ 24) Ma) as (E & _ & _ & Hw). change (Z.shiftl 1 CARRY_LSB) with (flag true).
    by rewrite E.
  - unfold exec_gt in Hr. destruct (greater a b); by injection Hr as <-.
  - unfold exec_lt, exec_gt in Hr. destruct (greater a b); by injection Hr as <-.
Qed.

(** C40 the operations of the array: on words of 25 bits every operation but the complement
    gives a word; addition is modulo 2^25, subtraction and the product of the magnitudes
    modulo 2^24, with the sign of the product; the arithmetic shift is that of two's
    complement, the comparisons are those of signed magnitudes, and less-or-equal is the
    negation of greater. *)
Theorem pe_ops (a b : Z) (Ha : word a) (Hb : word b) :
  (∀ op f r, nthz PE_op_table op = Some f → op ≠ 9 → f a b = Some r → word r) ∧
  exec_add a b = Some ((a + b) mod 2 ^ 25) ∧
  exec_sub a b = Some ((a - b) mod 2 ^ 24) ∧
  exec_mult a b = Some (flag (xorb (Z.testbit a 24) (Z.testbit b 24)) + (magnitude a * magnitude b) mod 2 ^ 24) ∧
  (b ≤ 24 → exec_sra a b = Some (wrap 25 (Z.shiftr (twos a) b))) ∧
  (exec_gt a b = Some (2 ^ 24) ↔ number b < number a ∨ a = 0 ∧ b = 2 ^ 24) ∧
  (exec_lt a b = Some (2 ^ 24) ↔ exec_gt a b = Some 0).
Proof.
  assert (Hmod : ∀ x k, 0 ≤ k ≤ 32 → u32 x mod 2 ^ k = x mod 2 ^ k).
  { intros x k Hk. change (u32 x) with (x mod 2 ^ 32). symmetry. apply Znumtheory.Zmod_div_mod; [lia..|].
    exists (2 ^ (32 - k)). rewrite <- Z.pow_add_r by lia. f_equal. lia. }
  assert (Hadd : exec_add a b = Some ((a + b) mod 2 ^ 25)).
  { unfold exec_add. by rewrite land_dword, Hmod by lia. }
  assert (Hsub : exec_sub a b = Some ((a - b) mod 2 ^ 24)).
  { unfold exec_sub. rewrite land_data, Hmod by lia. rewrite !(Z.land_comm _ DWORD_MASK), !land_dword.
    unfold word, is_u in Ha, Hb. rewrite (Z.mod_small a), (Z.mod_small b) by done. unfold lnot32. rewrite Hmod by lia.
    f_equal. replace (Z.lnot b) with (2 ^ 25 - 1 - b + (-1) * 2 ^ 25) by (unfold Z.lnot; lia).
    rewrite Z_mod_plus_full, (Z.mod_small (2 ^ 25 - 1 - b)), Zplus_mod, Hmod, <- Zplus_mod by lia.
    replace (a + (2 ^ 25 - 1 - b) + 1) with (a - b + 2 * 2 ^ 24) by lia. by rewrite Z_mod_plus_full. }
  assert (Hmul : exec_mult a b =
    Some (flag (xorb (Z.testbit a 24) (Z.testbit b 24)) + (magnitude a * magnitude b) mod 2 ^ 24)).
  { unfold exec_mult. rewrite !land_carry, !land_data, Hmod by lia. f_equal.
    replace (Z.lxor (flag _) (flag _)) with (flag (xorb (Z.testbit a 24) (Z.testbit b 24)))
      by (by destruct (Z.testbit a 24), (Z.testbit b 24)).
    apply flag_data. apply Z.mod_pos_bound. lia. }
  split; [|split; [done|split; [done|split; [done|]]]].
  - intros op f r Hf Hn Hr. apply nthz_Some in Hf as [Hop Hf].
    by eapply (ops_words a b _ f r Ha Hb Hadd Hsub Hmul Hf); [lia|].
  - split; [intros; apply sra_twos; [done|]; unfold word, is_u in *; lia|].
    rewrite <- (greater_number a b Ha Hb). unfold exec_lt, exec_gt. change (Z.shiftl 1 CARRY_LSB) with (2 ^ 24).
    destruct (greater a b); by vm_compute.
Qed.

(** -6 as a two's complement word, shifted by one, and 5 greater than minus 3. *)
Lemma pe_ops_witness : exec_sra 0x1FFFFFA 1 = Some 0x1FFFFFD ∧ exec_gt 5 0x1000003 = Some (2 ^ 24).
Proof.
  assert (Hw : word 0x1FFFFFA ∧ word 1 ∧ word 5 ∧ word 0x1000003) by (unfold word, is_u; lia). destruct Hw as (H1 & H2 & H3 & H4).
  split.
  - rewrite (proj1 (proj2 (proj2 (proj2 (proj2 (pe_ops _ _ H1 H2))))) ltac:(lia)). reflexivity.
  - apply (pe_ops _ _ H3 H4). left. reflexivity.
Defined.

End PEWords.
