(* ===== verification/CmaFlow.v ===== *)
(** * CmaFlow: what a cycle of the CMA array computes

    The array that [CMA::setup] builds, with any configuration, is a synchronous circuit:
    a cycle evaluates every data path that is not part of a loop, whatever the addresses
    of the objects, and moves the pipeline registers and the ports on. *)

From S2P Require Import Prelude Effects CmaSort CmaArray.
Import PEArray.

Module Flow.

(** ** The array as it is built *)
Definition HEIGHT : Z := 8.
Definition WIDTH : Z := 12.
Definition blank : t := Mk 0 0 0 0 0 ∅ false [].
Definition computed : t :=
  match CCSOTB2_PEArray HEIGHT WIDTH blank with Some (_, a, _) => a | None => blank end.

(** An object of the array and its neighbours, as the classes need them. *)
Definition neighbours_ok (h : heap) (n : node) (o : obj) : bool :=
  bool_decide (NoDup (successors o)) &&
  forallb (λ s, match h !! s with
    | Some os => bool_decide (Some n ∈ predecessors os) | None => false end) (successors o) &&
  forallb (λ p, match p with
    | Some p => match h !! p with Some op => bool_decide (n ∈ successors op) | None => false end
    | None => true end) (predecessors o).
Definition is_mux (o : obj) : bool := match cls o with MUXc _ => true | _ => false end.
Definition obj_ok (h : heap) (n : node) (o : obj) : bool :=
  neighbours_ok h n o &&
  match n, o with
  | ALU x y, Obj (ALUc 0) p _ [] => bool_decide (p = [Some (SEL x y 0); Some (SEL x y 1)])
  | SEL _ _ _, Obj (MUXc 1) p _ [] | CH _ _ _ _, Obj (MUXc 1) p _ [] => 1 <? Z.of_nat (length p)
  | CREG _, Obj (ConstRegc 0) p _ [] => bool_decide (p = [])
  | PREG _ _ _, Obj (PREGc false 0) [Some _] s [] =>
      forallb (λ s, match h !! s with Some os => is_mux os | None => false end) s
  | LAUNCH _, Obj MemLoadUnitc p _ [0] => bool_decide (p = [])
  | GATHER x, Obj MemStoreUnitc p s [0] => bool_decide (p = [Some (CH x 0 0 1)]) && bool_decide (s = [])
  | _, _ => false
  end.

(** What the rest needs of the objects as they are built. *)
Record laws (h0 : heap) (dom : list node) : Prop := {
  dom_nodup : NoDup dom;
  dom_objs n : n ∈ dom ↔ is_Some (h0 !! n);
  objs_ok n o : h0 !! n = Some o → obj_ok h0 n o = true
}.

Lemma computed_objs_ok : forallb (λ '(n, o), obj_ok (nodes computed) n o) (map_to_list (nodes computed)) = true.
Proof. vm_compute. reflexivity. Qed.
Lemma computed_nodup : bool_decide (NoDup (array_nodes computed)) = true.
Proof. vm_compute. reflexivity. Qed.
Lemma computed_has : forallb (λ n, bool_decide (is_Some (nodes computed !! n))) (array_nodes computed) = true.
Proof. vm_compute. reflexivity. Qed.
Lemma computed_size : size (nodes computed) = length (array_nodes computed).
Proof. vm_compute. reflexivity. Qed.
Lemma computed_dims : height computed = 8 ∧ width computed = 12 ∧ se_count computed = 1 ∧ se_channels computed = 4 ∧
  preg_channels computed = 2 ∧ config_changed computed = false ∧ tsorted_list computed = [].
Proof. vm_compute. done. Qed.
Lemma computed_quiet :
  match CCSOTB2_PEArray HEIGHT WIDTH blank with Some (_, _, []) => true | _ => false end = true.
Proof. vm_compute. reflexivity. Qed.

Lemma computed_laws : laws (nodes computed) (array_nodes computed).
Proof.
  pose proof computed_objs_ok as Ho. pose proof computed_nodup as Hn. pose proof computed_has as Hh.
  pose proof computed_size as Hs. revert Ho Hn Hh Hs.
  generalize (nodes computed) as h. generalize (array_nodes computed) as l. intros l h Ho Hn Hh Hs.
  apply bool_decide_eq_true in Hn. rewrite forallb_forall in Ho, Hh.
  assert (Hsub : ∀ n, n ∈ l → is_Some (h !! n)).
  { intros n Hl%list_elem_of_In. apply Hh in Hl. by apply bool_decide_eq_true in Hl. }
  split; [done| |].
  - intros n. split; [apply Hsub|]. intros Hx.
    assert (E : (list_to_set l : gset node) = dom h).
    { apply set_subseteq_size_eq.
      - intros m. rewrite elem_of_list_to_set, elem_of_dom. apply Hsub.
      - rewrite size_list_to_set, size_dom, Hs by done. done. }
    apply elem_of_dom in Hx. rewrite <- E in Hx. by apply elem_of_list_to_set in Hx.
  - intros n o E. apply (Ho (n, o)). by apply list_elem_of_In, elem_of_map_to_list.
Qed.

(** The array of the CMA; only the facts that follow are known of it. *)
Lemma array_built : { a : t | (∀ a0, CCSOTB2_PEArray HEIGHT WIDTH a0 = Some ((), a, [])) ∧
  laws (nodes a) (array_nodes a) ∧
  height a = 8 ∧ width a = 12 ∧ se_count a = 1 ∧ se_channels a = 4 ∧ preg_channels a = 2 ∧
  config_changed a = false ∧ tsorted_list a = [] }.
Proof.
  exists computed. split; [|split; [apply computed_laws|apply computed_dims]]. intros a0.
  transitivity (CCSOTB2_PEArray HEIGHT WIDTH blank).
  { unfold CCSOTB2_PEArray, PEArray. by rewrite !bind_assoc, !modify_bind. }
  pose proof computed_quiet as H. unfold computed.
  destruct (CCSOTB2_PEArray HEIGHT WIDTH blank) as [[[[] a'] []]|]; [done|discriminate..].
Qed.
Definition built : t := proj1_sig array_built.
Lemma building a : CCSOTB2_PEArray HEIGHT WIDTH a = Some ((), built, []).
Proof. apply (proj2_sig array_built). Qed.
Lemma built_laws : laws (nodes built) (array_nodes built).
Proof. apply (proj2_sig array_built). Qed.
Lemma built_dims : height built = 8 ∧ width built = 12 ∧ se_count built = 1 ∧ se_channels built = 4 ∧
  preg_channels built = 2 ∧ config_changed built = false ∧ tsorted_list built = [].
Proof. apply (proj2_sig array_built). Qed.

(** ** The data flow of a configuration *)
Definition users (h : heap) (n : node) : list node := default [] (use_successors h n).
Definition deg (h : heap) (n : node) : Z := default 0 (in_degree_of <$> h !! n).

(** The inputs that the configuration connects to an object. *)
Definition inputs (h : heap) (n : node) : list node :=
  match h !! n with
  | None => []
  | Some o =>
      match cls o with
      | MUXc c => match nthz (predecessors o) c with Some (Some p) => [p] | _ => [] end
      | ALUc op => if op =? 0 then [] else omap id (predecessors o)
      | PREGc _ _ => if decide (users h n = []) then [] else omap id (predecessors o)
      | MemStoreUnitc => omap id (predecessors o)
      | _ => []
      end
  end.

(** The datum on the wire that leaves an object in this cycle.  There is none on a wire
    that depends on a loop, on an input that is not connected or on an ALU without an
    operation. *)
Inductive carries (h : heap) : node → Z → Prop :=
| carries_const n o c : h !! n = Some o → cls o = ConstRegc c → carries h n (getData_of o)
| carries_launch n o : h !! n = Some o → cls o = MemLoadUnitc → carries h n (getData_of o)
| carries_mux n o c p d : h !! n = Some o → cls o = MUXc c →
    nthz (predecessors o) c = Some (Some p) → carries h p d → carries h n d
| carries_alu n o op p q f a b d : h !! n = Some o → cls o = ALUc op → op ≠ 0 →
    predecessors o = [Some p; Some q] → carries h p a → carries h q b →
    nthz PEOps.PE_op_table op = Some f → f a b = Some d → carries h n d
| carries_preg n o act latch p d : h !! n = Some o → cls o = PREGc act latch → users h n ≠ [] →
    predecessors o = [Some p] → carries h p d → carries h n (if act then latch else d).

(** What a reader of the wire gets. *)
Definition reads (h : heap) (n : node) (d : Z) : Prop :=
  carries h n d ∨ (∀ d', ¬ carries h n d') ∧ d = 0.

Lemma carries_det h n d d' : carries h n d → carries h n d' → d = d'.
Proof.
  intros H. revert d'. induction H as [n o c E Ec|n o E Ec|n o c p d E Ec Ep Hp IH
    |n o op p q f a b d E Ec Ho Epr Hp IHp Hq IHq Ef Ed|n o act latch p d E Ec Hu Epr Hp IH];
    intros d' Hd; inversion Hd; simplify_map_eq; try congruence.
  - apply IH. congruence.
  - assert (a = a0) by (apply IHp; congruence). assert (b = b0) by (apply IHq; congruence). congruence.
  - assert (act0 = act ∧ latch0 = latch) as [-> ->] by (split; congruence). assert (d = d0) by (apply IH; congruence). by subst.
Qed.

(** ** The arrays with the objects of [h0] *)
Section Array.
  Context (h0 : heap) (dom : list node) (L : laws h0 dom).

(** An object with any configuration, between two cycles. *)
Definition like (o0 o : obj) : Prop :=
  predecessors o = predecessors o0 ∧ successors o = successors o0 ∧
  match cls o0, cls o with
  | MUXc _, MUXc c => 0 ≤ c < Z.of_nat (length (predecessors o0)) ∧ obuf o = []
  | ALUc _, ALUc op => 0 ≤ op < 16 ∧ obuf o = []
  | PREGc _ _, PREGc _ _ => obuf o = []
  | ConstRegc _, ConstRegc _ => True
  | MemLoadUnitc, MemLoadUnitc => obuf o ≠ []
  | MemStoreUnitc, MemStoreUnitc => ∃ d, obuf o = [d]
  | _, _ => False
  end.
Definition all_like (h : heap) : Prop := ∀ n,
  match h0 !! n, h !! n with
  | Some o0, Some o => like o0 o
  | None, None => True
  | _, _ => False
  end.

Inductive shape (h : heap) (n : node) (o : obj) : Prop :=
| ShapeMux c : cls o = MUXc c → 0 ≤ c < Z.of_nat (length (predecessors o)) → obuf o = [] → shape h n o
| ShapeAlu op p q : cls o = ALUc op → 0 ≤ op < 16 → predecessors o = [Some p; Some q] → p ≠ q →
    obuf o = [] → shape h n o
| ShapePreg act latch p : cls o = PREGc act latch → predecessors o = [Some p] → obuf o = [] →
    (∀ s, s ∈ successors o → ∃ os c, h !! s = Some os ∧ cls os = MUXc c ∧
       0 ≤ c < Z.of_nat (length (predecessors os))) → shape h n o
| ShapeConst c : cls o = ConstRegc c → predecessors o = [] → shape h n o
| ShapeLaunch d l : cls o = MemLoadUnitc → predecessors o = [] → obuf o = d :: l → shape h n o
| ShapeGather x d : n = GATHER x → cls o = MemStoreUnitc → predecessors o = [Some (CH x 0 0 1)] →
    successors o = [] → obuf o = [d] → shape h n o.

Record links (h : heap) (n : node) (o : obj) : Prop := {
  links_nodup : NoDup (successors o);
  links_succ s : s ∈ successors o → ∃ os, h !! s = Some os ∧ Some n ∈ predecessors os;
  links_pred p : Some p ∈ predecessors o → ∃ op, h !! p = Some op ∧ n ∈ successors op
}.

Lemma like_of h n o : all_like h → h !! n = Some o → ∃ o0, h0 !! n = Some o0 ∧ like o0 o.
Proof using Type.
  intros A E. specialize (A n). rewrite E in A. destruct (h0 !! n) as [o0|] eqn:E0; [|done]. eauto.
Qed.
Lemma like_at h n o0 : all_like h → h0 !! n = Some o0 → ∃ o, h !! n = Some o ∧ like o0 o.
Proof using Type.
  intros A E. specialize (A n). rewrite E in A. destruct (h !! n) as [o|] eqn:E0; [|done]. eauto.
Qed.
Lemma all_like_dom h n : all_like h → n ∈ dom ↔ is_Some (h !! n).
Proof using L.
  intros A. rewrite (dom_objs _ _ L). specialize (A n).
  destruct (h0 !! n), (h !! n); try done; split; eauto; by intros [].
Qed.

Lemma links_of h n o : all_like h → h !! n = Some o → links h n o.
Proof using L.
  intros A E. destruct (like_of h n o A E) as (o0 & E0 & Hp & Hs & _).
  pose proof (objs_ok _ _ L n o0 E0) as Hok. unfold obj_ok, neighbours_ok in Hok.
  apply andb_prop in Hok as [Hok _]. apply andb_prop in Hok as [Hok Hpred]. apply andb_prop in Hok as [Hnd Hsucc].
  apply bool_decide_eq_true in Hnd. rewrite forallb_forall in Hsucc, Hpred.
  split; rewrite ?Hs, ?Hp; [done|..].
  - intros s Hin%list_elem_of_In. apply Hsucc in Hin. destruct (h0 !! s) as [os0|] eqn:Es; [|done].
    destruct (like_at h s os0 A Es) as (os & Es' & Hps & _). exists os. rewrite Hps.
    by apply bool_decide_eq_true in Hin.
  - intros p Hin%list_elem_of_In. apply Hpred in Hin. destruct (h0 !! p) as [op0|] eqn:Ep; [|done].
    destruct (like_at h p op0 A Ep) as (op & Ep' & _ & Hsp & _). exists op. rewrite Hsp.
    by apply bool_decide_eq_true in Hin.
Qed.

Lemma shape_of h n o : all_like h → h !! n = Some o → shape h n o.
Proof using L.
  intros A E. destruct (like_of h n o A E) as (o0 & E0 & Hp & Hs & Hc).
  pose proof (objs_ok _ _ L n o0 E0) as Hok. unfold obj_ok in Hok.
  apply andb_prop in Hok as [_ Hok]. rewrite <- Hp in Hc.
  destruct o0 as [c0 p0 s0 q0]. cbn in Hp, Hs, Hc.
  destruct n; destruct c0; try discriminate; destruct (cls o) eqn:Ec; try done;
    repeat (match type of Hok with context [match ?x with _ => _ end] => is_var x; destruct x end; try discriminate).
  all: try (apply bool_decide_eq_true in Hok; rewrite Hok in Hp).
  - eapply ShapeAlu; [exact Ec|apply Hc|exact Hp|by intros [=]|apply Hc].
  - eapply ShapeMux; [exact Ec|apply Hc..].
  - eapply ShapeMux; [exact Ec|apply Hc..].
  - by eapply ShapeConst.
  - eapply ShapePreg; [exact Ec|exact Hp|exact Hc|].
    rewrite forallb_forall in Hok. intros s Hin. rewrite Hs in Hin. apply list_elem_of_In in Hin. apply Hok in Hin.
    destruct (h0 !! s) as [os0|] eqn:Es; [|done].
    destruct (like_at h s os0 A Es) as (os & Es' & Hps & _ & Hcs). exists os.
    unfold is_mux in Hin. destruct (cls os0); try done. destruct (cls os) as [c| | | | |] eqn:Ecs; try done.
    exists c. rewrite Hps. split; [done|]. split; [done|]. apply Hcs.
  - destruct (obuf o) as [|d l] eqn:Eq; [done|]. by eapply ShapeLaunch.
  - apply andb_prop in Hok as [Hok1 Hok2]. apply bool_decide_eq_true in Hok1, Hok2. rewrite Hok1 in Hp. rewrite Hok2 in Hs.
    destruct Hc as [d Hd]. by eapply ShapeGather.
Qed.

Lemma gather_shape h x o : all_like h → h !! GATHER x = Some o →
  cls o = MemStoreUnitc ∧ predecessors o = [Some (CH x 0 0 1)] ∧ successors o = [] ∧ ∃ d, obuf o = [d].
Proof using L.
  intros A E. destruct (like_of h _ o A E) as (o0 & E0 & Hp & Hs & Hc).
  pose proof (objs_ok _ _ L _ o0 E0) as Hok. unfold obj_ok in Hok. apply andb_prop in Hok as [_ Hok].
  destruct o0 as [c0 p0 s0 q0]. cbn in Hp, Hs, Hc. destruct c0; try discriminate.
  destruct q0 as [|[] []]; try discriminate. apply andb_prop in Hok as [H1 H2].
  apply bool_decide_eq_true in H1, H2. rewrite Hp, Hs, H1, H2. by destruct (cls o).
Qed.

(** ** Who uses the datum of whom *)
Definition U (h : heap) (n p : node) : Prop := isUse NESTING h n p = Some true.

Lemma isUse_mux fuel h n o c p : h !! n = Some o → cls o = MUXc c → 0 ≤ c < Z.of_nat (length (predecessors o)) →
  isUse (S fuel) h n p = Some (bool_decide (nthz (predecessors o) c = Some (Some p))).
Proof using Type.
  intros E Ec Hc. cbn. rewrite E, Ec. destruct (nthz_is_Some (predecessors o) c Hc) as [q Hq].
  rewrite Hq. f_equal. apply bool_decide_ext. split; congruence.
Qed.

Lemma used_of_eq h p l (f : node → bool) : (∀ s, s ∈ l → isUse NESTING h s p = Some (f s)) →
  used_of h p l = Some (filter (λ s, f s = true) l).
Proof using Type.
  induction l as [|s l IH]; intros Hf; [done|]. cbn [used_of]. rewrite Hf by (by left).
  rewrite IH by (intros; apply Hf; by right). rewrite filter_cons. destruct (f s); by cbn.
Qed.

Lemma isUse_total h n p o : all_like h → h !! n = Some o → ∃ b, isUse NESTING h n p = Some b.
Proof using L.
  intros A E. destruct (shape_of h n o A E) as
    [c Ec Hc _|op q r Ec _ _ _ _|act latch q Ec _ _ Hs|c Ec _|d l Ec _ _|x d _ Ec _ _ _].
  - unfold NESTING. rewrite (isUse_mux _ h n o c) by done. eauto.
  - cbn. rewrite E, Ec. eauto.
  - cbn [isUse NESTING]. rewrite E, Ec.
    assert (Hm : ∃ l, mapM (λ s, isUse 1 h s n) (successors o) = Some l).
    { induction (successors o) as [|s l IH]; [by eexists|]. cbn.
      destruct (Hs s) as (os & c & Es & Ecs & Hcs); [by left|].
      rewrite Es, Ecs. destruct (nthz_is_Some (predecessors os) c Hcs) as [q' ->]. cbn.
      destruct IH as [k Hk]; [intros; apply Hs; by right|]. cbn in Hk. rewrite Hk. by eexists. }
    destruct Hm as [l Hm]. cbn [isUse] in Hm |- *. rewrite Hm. eauto.
  - cbn. rewrite E, Ec. eauto.
  - cbn. rewrite E, Ec. eauto.
  - cbn. rewrite E, Ec. eauto.
Qed.

Lemma users_eq h p o : all_like h → h !! p = Some o →
  use_successors h p = Some (users h p) ∧ NoDup (users h p) ∧
  ∀ s, s ∈ users h p ↔ s ∈ successors o ∧ U h s p.
Proof using L.
  intros A E. pose proof (links_of h p o A E) as K.
  set (f s := default false (isUse NESTING h s p)).
  assert (Hf : ∀ s, s ∈ successors o → isUse NESTING h s p = Some (f s)).
  { intros s Hs. destruct (links_succ _ _ _ K s Hs) as (os & Es & _).
    destruct (isUse_total h s p os A Es) as [b Hb]. unfold f. by rewrite Hb. }
  pose proof (used_of_eq h p (successors o) f Hf) as Eu.
  unfold users, use_successors. rewrite E, Eu. set (k := filter _ _). cbn. subst k.
  split; [done|]. split; [apply NoDup_filter, K|]. intros s. rewrite list_elem_of_filter. unfold U.
  split; intros [H1 H2]; split; try done; [rewrite Hf by done; by rewrite H1|]. rewrite Hf in H2 by done. congruence.
Qed.

Lemma U_preg h n o act latch p : all_like h → h !! n = Some o → cls o = PREGc act latch →
  U h n p ↔ users h n ≠ [].
Proof using L.
  intros A E Ec. destruct (users_eq h n o A E) as (_ & _ & Hu).
  destruct (shape_of h n o A E) as [|?|act' latch' q Ec' _ _ Hs|?|?|]; try congruence.
  assert (Hone : ∀ s, s ∈ successors o → isUse 1 h s n = isUse NESTING h s n).
  { intros s Hin. destruct (Hs s Hin) as (os & c & Es & Ecs & Hcs). unfold NESTING.
    by rewrite !(isUse_mux _ h s os c). }
  unfold U at 1. unfold NESTING at 1. remember 1%nat as one eqn:H1. cbn [isUse]. rewrite E, Ec.
  assert (Hm : ∃ l, mapM (λ s, isUse one h s n) (successors o) = Some l ∧
     (existsb id l = true ↔ ∃ s, s ∈ successors o ∧ U h s n)).
  { clear Hu. assert (Hsub : ∀ s, s ∈ successors o → ∃ os, h !! s = Some os) by
      (intros s Hin; destruct (Hs s Hin) as (os & _ & Es & _); eauto). clear Hs.
    revert Hone Hsub. induction (successors o) as [|s l IH]; intros Hone Hsub.
    { exists []. split; [done|]. split; [done|]. by intros (s & Hs%not_elem_of_nil & _). }
    destruct IH as (k & Hk & Hex); [intros; apply Hone; by right|intros; apply Hsub; by right|].
    destruct (Hsub s) as [os Es]; [by left|]. destruct (isUse_total h s n os A Es) as [b Hb].
    exists (b :: k). cbn [mapM]. rewrite (Hone s) by (by left). rewrite Hb. cbn. cbn in Hk. rewrite Hk.
    split; [done|]. rewrite orb_true_iff, Hex. unfold U. split.
    - intros [Hid|(s' & Hs' & HU)]; [exists s; split; [by left|]; rewrite Hb; by f_equal|].
      exists s'. split; [by right|done].
    - intros (s' & [->|Hs']%elem_of_cons & HU); [left; rewrite Hb in HU; congruence|]. right. eauto. }
  destruct Hm as (l & -> & Hex). split.
  - intros [= Hl]. apply Hex in Hl as (s & Hs' & HU). intros Hn.
    assert (Hin : s ∈ users h n) by (by apply Hu). rewrite Hn in Hin. by apply not_elem_of_nil in Hin.
  - intros Hn. f_equal. apply Hex. destruct (users h n) as [|s k]; [done|]. exists s. apply Hu. by left.
Qed.

(** ** The order of execution *)
Context (addresses : list node) (Haddr : addresses ≡ₚ dom).

Lemma elem_used h n o p : all_like h → h !! n = Some o →
  p ∈ Sort.used addresses (users h) n ↔ Some p ∈ predecessors o ∧ U h n p.
Proof using L Haddr.
  intros A E. unfold Sort.used. rewrite list_elem_of_filter, Haddr, (all_like_dom h p A). split.
  - intros [Hn [op Ep]]. destruct (users_eq h p op A Ep) as (_ & _ & Hu). destruct (proj1 (Hu n) Hn) as [Hs HU].
    split; [|done]. destruct (links_succ _ _ _ (links_of h p op A Ep) n Hs) as (os & Es & Hp). congruence.
  - intros [Hp HU]. destruct (links_pred _ _ _ (links_of h n o A E) p Hp) as (op & Ep & Hs).
    split; [|by exists op]. destruct (users_eq h p op A Ep) as (_ & _ & Hu). by apply Hu.
Qed.

Lemma used_inputs h n : all_like h → n ∈ dom → Sort.used addresses (users h) n ≡ₚ inputs h n.
Proof using L Haddr.
  intros A Hn. apply (all_like_dom h n A) in Hn as [o E].
  assert (Hnd : NoDup (Sort.used addresses (users h) n)).
  { apply NoDup_filter. rewrite Haddr. apply L. }
  assert (Hin : ∀ l, NoDup l → (∀ p, p ∈ l ↔ Some p ∈ predecessors o ∧ U h n p) →
            Sort.used addresses (users h) n ≡ₚ l).
  { intros l Hl Hp. apply NoDup_Permutation; [done..|]. intros p. by rewrite (elem_used h n o p A E), Hp. }
  unfold inputs. rewrite E.
  destruct (shape_of h n o A E) as
    [c Ec Hc _|op q r Ec _ Ep Hne _|act latch q Ec Ep _ Hs|c Ec Ep|d l Ec Ep _|x d _ Ec Ep _ _]; rewrite Ec.
  - apply Hin.
    + destruct (nthz (predecessors o) c) as [[p|]|]; [apply NoDup_singleton|apply NoDup_nil; done..].
    + intros p. unfold U, NESTING. rewrite (isUse_mux _ h n o c) by done. split.
      * intros Hp. destruct (nthz (predecessors o) c) as [[p'|]|] eqn:En; [|by apply not_elem_of_nil in Hp..].
        apply list_elem_of_singleton in Hp as ->. split; [|by rewrite bool_decide_eq_true_2].
        apply nthz_Some in En as [_ En]. by apply list_elem_of_lookup_2 in En.
      * intros [_ [= Hp%bool_decide_eq_true]]. rewrite Hp. by left.
  - rewrite Ep. destruct (op =? 0) eqn:Eop; apply Hin.
    + by apply NoDup_nil.
    + intros p. unfold U. cbn. rewrite E, Ec, Eop. split; [by intros ?%not_elem_of_nil|by intros [_ ?]].
    + cbn. apply NoDup_cons_2; [by rewrite list_elem_of_singleton|apply NoDup_singleton].
    + intros p. unfold U. cbn. rewrite E, Ec, Eop, Ep, !elem_of_cons. cbn. split.
      * intros [->|[->|?%not_elem_of_nil]]; [tauto|tauto|done].
      * intros [[[= ->]|[[= ->]|?%not_elem_of_nil]] _]; [tauto|tauto|done].
  - rewrite Ep. cbn. pose proof (U_preg h n o act latch q A E Ec) as HU. destruct (decide (users h n = [])) as [Hu|Hu]; apply Hin.
    + by apply NoDup_nil.
    + intros p. split; [by intros ?%not_elem_of_nil|]. intros [Hp Hx]. rewrite Ep in Hp.
      apply list_elem_of_singleton in Hp as [= ->]. by apply HU in Hx.
    + apply NoDup_singleton.
    + intros p. rewrite Ep, !list_elem_of_singleton. split; [intros ->; split; [done|by apply HU]|by intros [[= ->] _]].
  - apply Hin; [by apply NoDup_nil|]. intros p. rewrite Ep.
    split; [by intros ?%not_elem_of_nil|by intros [?%not_elem_of_nil _]].
  - apply Hin; [by apply NoDup_nil|]. intros p. rewrite Ep.
    split; [by intros ?%not_elem_of_nil|by intros [?%not_elem_of_nil _]].
  - rewrite Ep. cbn. apply Hin; [apply NoDup_singleton|]. intros p. unfold U. cbn. rewrite E, Ec, Ep, !list_elem_of_singleton.
    split; [by intros ->|by intros [[= ->] _]].
Qed.

Lemma inputs_deg h n : all_like h → n ∈ dom → Z.of_nat (length (inputs h n)) ≤ deg h n.
Proof using L.
  intros A Hn. apply (all_like_dom h n A) in Hn as [o E]. unfold inputs, deg. rewrite E. cbn. unfold in_degree_of.
  destruct (shape_of h n o A E) as
    [c Ec Hc _|op q r Ec _ Ep Hne _|act latch q Ec Ep _ Hs|c Ec Ep|d l Ec Ep _|x d _ Ec Ep _ _]; rewrite Ec, ?Ep; cbn.
  - destruct (nthz (predecessors o) c) as [[p|]|]; cbn; lia.
  - destruct (op =? 0); cbn; lia.
  - destruct (decide _); cbn; lia.
  - lia.
  - lia.
  - lia.
Qed.

Lemma sort_laws h : all_like h → Sort.laws addresses (use_successors h) (users h) (deg h).
Proof using L Haddr.
  intros A. split.
  - rewrite Haddr. apply L.
  - intros p. rewrite Haddr, (all_like_dom h p A). intros [o E]. by apply (users_eq h p o A E).
  - intros p. rewrite Haddr, (all_like_dom h p A). intros [o E]. by apply (users_eq h p o A E).
  - intros p n. rewrite !Haddr, (all_like_dom h p A), (all_like_dom h n A). intros [o E] Hu.
    apply (users_eq h p o A E) in Hu as [Hs _].
    destruct (links_succ _ _ _ (links_of h p o A E) n Hs) as (os & Es & _). by exists os.
  - intros n Hn. rewrite Haddr in Hn. rewrite (used_inputs h n A Hn). by apply inputs_deg.
Qed.

Definition grounded (h : heap) : node → Prop := Sort.grounded addresses (users h) (deg h).
Lemma grounded_eq h n o : all_like h → h !! n = Some o →
  grounded h n ↔ deg h n = Z.of_nat (length (inputs h n)) ∧ ∀ p, p ∈ inputs h n → grounded h p.
Proof using L Haddr.
  intros A E. assert (Hn : n ∈ dom) by (apply (all_like_dom h n A); by exists o).
  pose proof (used_inputs h n A Hn) as Hp. split.
  - intros [Ha Hd Hu]. rewrite <- Hp. split; [done|]. intros p Hin. rewrite <- Hp in Hin. by apply Hu.
  - intros [Hd Hu]. constructor; [by rewrite Haddr|by rewrite Hp|]. intros p Hin. rewrite Hp in Hin. by apply Hu.
Qed.

(** A wire with a datum is executed. *)
Lemma carries_grounded h n d : all_like h → carries h n d → grounded h n.
Proof using L Haddr.
  intros A. induction 1 as [n o c E Ec|n o E Ec|n o c p d E Ec Ep Hp IH
    |n o op p q f a b d E Ec Ho Ep Hp IHp Hq IHq Ef Ed|n o act latch p d E Ec Hu Ep Hp IH];
    apply (grounded_eq h n o A E); unfold deg, inputs, in_degree_of; rewrite E; cbn; rewrite Ec.
  - split; [done|]. by intros ? ?%not_elem_of_nil.
  - split; [done|]. by intros ? ?%not_elem_of_nil.
  - rewrite Ep. split; [done|]. by intros ? ->%list_elem_of_singleton.
  - rewrite (proj2 (Z.eqb_neq op 0) Ho), Ep. split; [done|]. cbn.
    intros r [->|Hr]%elem_of_cons; [done|]. by apply list_elem_of_singleton in Hr as ->.
  - rewrite decide_False, Ep by done. split; [done|]. by intros ? ->%list_elem_of_singleton.
Qed.

(** ** The execution of the objects *)

(** No ALU shifts by 32 or more. *)
Definition defined_ops (h : heap) : Prop := ∀ n o op p q a b f,
  h !! n = Some o → cls o = ALUc op → predecessors o = [Some p; Some q] →
  carries h p a → carries h q b → nthz PEOps.PE_op_table op = Some f → f a b ≠ None.

(** An object before and after its [exec]. *)
Definition ran (h : heap) (n : node) (o o1 : obj) : Prop :=
  match cls o with
  | MUXc _ | ALUc _ => ∃ d, carries h n d ∧ o1 = push d o
  | PREGc act latch => ∃ p d, predecessors o = [Some p] ∧ carries h p d ∧
      o1 = (push (if act then latch else d) o) <| cls := PREGc act (if act then d else latch) |>
  | ConstRegc _ | MemLoadUnitc => o1 = o
  | MemStoreUnitc => False
  end.
Record executed (h : heap) (l : list node) (h' : heap) : Prop := {
  executed_in n : n ∈ l → ∃ o o1, h !! n = Some o ∧ h' !! n = Some o1 ∧ ran h n o o1;
  executed_out n : n ∉ l → h' !! n = h !! n
}.

Lemma ran_reads h n o o1 : all_like h → h !! n = Some o → users h n ≠ [] → ran h n o o1 →
  carries h n (getData_of o1).
Proof using L.
  intros A E Hu Hr. unfold ran in Hr.
  destruct (shape_of h n o A E) as
    [c Ec Hc Hq|op p q Ec _ Ep Hne Hq|act latch p Ec Ep Hq Hs|c Ec Ep|d l Ec Ep _|x d _ Ec Ep _ _]; rewrite Ec in Hr.
  - destruct Hr as (d & Hd & ->). unfold getData_of. cbn. by rewrite Ec, Hq.
  - destruct Hr as (d & Hd & ->). unfold getData_of. cbn. by rewrite Ec, Hq.
  - destruct Hr as (p' & d & Ep' & Hd & ->). unfold getData_of. cbn. rewrite Hq. exact (carries_preg h n o act latch p' d E Ec Hu Ep' Hd).
  - subst o1. by eapply carries_const.
  - subst o1. by eapply carries_launch.
  - done.
Qed.

Lemma executed_reads h l h' p : all_like h → executed h l h' → p ∈ l → users h p ≠ [] →
  ∃ d, getData h' p = Some d ∧ carries h p d.
Proof using L.
  intros A X Hp Hu. destruct (executed_in _ _ _ X p Hp) as (o & o1 & E & E1 & Hr).
  exists (getData_of o1). unfold getData. rewrite E1. split; [done|]. by eapply ran_reads.
Qed.

Lemma exec_ready h l h' n o : all_like h → defined_ops h → executed h l h' → h !! n = Some o →
  grounded h n → users h n ≠ [] → (∀ p, p ∈ inputs h n → p ∈ l ∧ users h p ≠ []) →
  ∃ o1, exec_of h' o = Some o1 ∧ ran h n o o1.
Proof using L Haddr.
  intros A D X E G Hu Hin. apply (grounded_eq h n o A E) in G as [Hd _].
  assert (Hread : ∀ p, p ∈ inputs h n → ∃ d, getData h' p = Some d ∧ carries h p d).
  { intros p Hp. destruct (Hin p Hp). by apply (executed_reads h l). }
  clear Hin. unfold deg, inputs, in_degree_of in Hd, Hread. rewrite E in Hd, Hread. cbn in Hd.
  unfold exec_of, ran, input.
  destruct (shape_of h n o A E) as
    [c Ec Hc Hq|op p q Ec Hop Ep Hne Hq|act latch p Ec Ep Hq Hs|c Ec Ep|d l' Ec Ep _|x d Hx Ec Ep Es _];
    rewrite Ec in *.
  - destruct (nthz (predecessors o) c) as [[p|]|] eqn:En; [|cbn in Hd; discriminate..].
    destruct (Hread p) as (d & -> & Hc'); [by left|]. exists (push d o). split; [done|]. exists d. split; [|done].
    by eapply carries_mux.
  - destruct (Z.eqb_spec op 0) as [|Hz]; [cbn in Hd; discriminate|]. rewrite Ep in Hread |- *. cbn in Hread.
    destruct (Hread p) as (a & Ha & Ca); [by left|]. destruct (Hread q) as (b & Hb & Cb); [right; by left|].
    change (nthz [Some p; Some q] 0) with (Some (Some p)). change (nthz [Some p; Some q] 1) with (Some (Some q)).
    cbn. rewrite Ha, Hb. destruct (nthz_is_Some PEOps.PE_op_table op) as [f Hf]; [done|]. rewrite Hf.
    destruct (f a b) as [d|] eqn:Ed; [|by destruct (D n o op p q a b f)].
    exists (push d o). split; [done|]. exists d. split; [|done]. by eapply carries_alu.
  - destruct (decide (users h n = [])) as [|_]; [cbn in Hd; discriminate|]. rewrite Ep in Hread |- *. cbn in Hread.
    destruct (Hread p) as (d & Hg & Cd); [by left|]. change (nthz [Some p] 0) with (Some (Some p)). cbn. rewrite Hg.
    destruct act; eexists; (split; [done|]); exists p, d; (split; [done|]); (split; [done|]); [done|].
    unfold push. cbn. destruct o; cbn in *. by subst.
  - by eexists.
  - by eexists.
  - destruct (users_eq h n o A E) as (_ & _ & Hus). destruct (users h n) as [|s k]; [done|].
    destruct (proj1 (Hus s)) as [Hs _]; [by left|]. rewrite Es in Hs. by apply not_elem_of_nil in Hs.
Qed.

(** The same data flow, with other data. *)
Definition same_flow (h h' : heap) : Prop := ∀ n,
  match h !! n, h' !! n with
  | Some o, Some o' => predecessors o' = predecessors o ∧ successors o' = successors o ∧
      match cls o with PREGc act _ => ∃ l, cls o' = PREGc act l | c => cls o' = c end
  | None, None => True
  | _, _ => False
  end.

Lemma isUse_same fuel h h' n p : same_flow h h' → isUse fuel h' n p = isUse fuel h n p.
Proof using Type.
  intros F. revert n p. induction fuel as [|fuel IH]; intros n p; [done|]. cbn. specialize (F n).
  destruct (h !! n) as [o|], (h' !! n) as [o'|]; try done. destruct F as (Hp & Hs & Hc).
  destruct (cls o); try (by rewrite Hc, ?Hp). destruct Hc as [l' ->]. rewrite Hs.
  assert (E : mapM (λ s, isUse fuel h' s n) (successors o) = mapM (λ s, isUse fuel h s n) (successors o)); [|by rewrite E].
  clear -IH. induction (successors o) as [|s l IHl]; cbn; [done|]. by rewrite IH, IHl.
Qed.
Lemma same_users h h' n : same_flow h h' → use_successors h' n = use_successors h n ∧ deg h' n = deg h n.
Proof using Type.
  intros F. pose proof (F n) as Fn. unfold use_successors, deg, in_degree_of.
  destruct (h !! n) as [o|], (h' !! n) as [o'|]; try done. destruct Fn as (Hp & Hs & Hc). rewrite Hs. cbn. split.
  - generalize (successors o). intros l. induction l as [|s l IH]; [done|]. cbn [used_of].
    by rewrite (isUse_same _ h h'), IH.
  - destruct (cls o); try (by rewrite Hc). by destruct Hc as [? ->].
Qed.

Lemma same_flow_sorted h h' ts : same_flow h h' →
  Sort.sorted addresses (users h) (deg h) ts → Sort.sorted addresses (users h') (deg h') ts.
Proof using Type.
  intros F [Hnd Hb Hn].
  assert (Eu : ∀ n, users h' n = users h n) by (intros n; unfold users; by rewrite (proj1 (same_users h h' n F))).
  assert (Ed : ∀ n, deg h' n = deg h n) by (intros n; apply (same_users h h' n F)).
  assert (Es : ∀ n, Sort.used addresses (users h') n = Sort.used addresses (users h) n).
  { intros n. unfold Sort.used. apply list_filter_iff. intros p. by rewrite Eu. }
  assert (Eg : ∀ n, Sort.grounded addresses (users h) (deg h) n ↔ Sort.grounded addresses (users h') (deg h') n).
  { intros n. split; induction 1 as [n Ha Hd Hu IH]; constructor; rewrite ?Es, ?Ed in *; auto. }
  split; [done|..].
  - intros l1 n l2 p E. rewrite Es. by apply Hb with l2.
  - intros n. by rewrite Hn, Eu, Eg.
Qed.

(** ** The cycle *)
Record wf (a : t) : Prop := {
  wf_nodes : array_nodes a = dom;
  wf_like : all_like (nodes a)
}.
Definition current (a : t) : Prop :=
  Sort.sorted addresses (users (nodes a)) (deg (nodes a)) (tsorted_list a).

Lemma enter_degrees_eq h l m : (∀ n, n ∈ l → is_Some (h !! n)) →
  ∃ m', enter_degrees h l m = Some m' ∧ ∀ n, m' !! n = if decide (n ∈ l) then Some (deg h n) else m !! n.
Proof using Type.
  revert m. induction l as [|n l IH]; intros m Hl; cbn.
  { exists m. split; [done|]. intros n. by rewrite decide_False by apply not_elem_of_nil. }
  destruct (Hl n) as [o E]; [by left|]. rewrite E.
  destruct (IH (<[n := in_degree_of o]> m)) as (m' & Em & Hm); [intros; apply Hl; by right|].
  exists m'. split; [done|]. intros k. rewrite Hm. destruct (decide (k ∈ l)) as [Hk|Hk].
  - by rewrite decide_True by (by right).
  - destruct (decide (k = n)) as [->|Hne].
    + rewrite decide_True by (by left). by rewrite lookup_insert_eq; unfold deg; rewrite E.
    + rewrite decide_False by (by rewrite elem_of_cons; tauto). by rewrite lookup_insert_ne.
Qed.

Lemma analyze_eq a : wf a → ∃ ts,
  analyze_dataflow addresses a = Some ((), a <| tsorted_list := ts |> <| config_changed := false |>, []) ∧
  Sort.sorted addresses (users (nodes a)) (deg (nodes a)) ts.
Proof using L Haddr.
  intros [Hn A]. unfold analyze_dataflow. rewrite gets_bind. unfold id. rewrite Hn.
  destruct (enter_degrees_eq (nodes a) dom ∅) as (m & Em & Hm).
  { intros n Hd. by apply (all_like_dom (nodes a)). }
  rewrite Em. cbn [from_option]. rewrite ret_bind.
  destruct (Sort.passes_sorted addresses _ _ _ (sort_laws (nodes a) A) m) as (s & Es & Hs).
  { intros n. rewrite Hm. destruct (decide (n ∈ addresses)) as [Ha|Ha]; rewrite Haddr in Ha.
    - by rewrite decide_True.
    - by rewrite decide_False. }
  rewrite Es. eexists. split; [reflexivity|done].
Qed.

Lemma exec_node_eq n a o o1 : nodes a !! n = Some o → exec_of (nodes a) o = Some o1 →
  exec_node n a = Some ((), a <| nodes ::= <[n := o1]> |>, []).
Proof using Type.
  intros E X. unfold exec_node. rewrite gets_bind, E. cbn [from_option]. rewrite ret_bind, X. cbn [from_option].
  by rewrite ret_bind.
Qed.
Lemma update_node_eq n a o o1 : nodes a !! n = Some o → update_of o = Some o1 →
  update_node n a = Some ((), a <| nodes ::= <[n := o1]> |>, []).
Proof using Type.
  intros E X. unfold update_node. rewrite gets_bind, E. cbn [from_option]. rewrite ret_bind, X. cbn [from_option].
  by rewrite ret_bind.
Qed.

Section Cycle.
  Context (h : heap) (A : all_like h) (D : defined_ops h) (ts : list node)
    (T : Sort.sorted addresses (users h) (deg h) ts).

Lemma exec_list l2 l1 a : l1 ++ l2 = ts → executed h l1 (nodes a) →
  ∃ h', for_each l2 exec_node a = Some ((), a <| nodes := h' |>, []) ∧ executed h ts h'.
Proof using All.
  revert l1 a. induction l2 as [|n l2 IH]; intros l1 a El X; cbn [for_each].
  { rewrite app_nil_r in El. subst l1. exists (nodes a). split; [by destruct a|done]. }
  assert (Hn : n ∈ ts) by (rewrite <- El; apply elem_of_app; right; by left).
  destruct (proj1 (Sort.sorted_nodes _ _ _ _ T n) Hn) as [G Hu].
  assert (Hnd : n ∉ l1).
  { pose proof (Sort.sorted_nodup _ _ _ _ T) as Hnd. rewrite <- El in Hnd. apply NoDup_app in Hnd as (_ & Hd & _).
    intros Hl. apply (Hd n Hl). by left. }
  assert (Hdom : n ∈ dom) by (destruct G as [Ha _ _]; by rewrite Haddr in Ha).
  destruct (proj1 (all_like_dom h n A) Hdom) as [o E].
  destruct (exec_ready h l1 (nodes a) n o A D X E G Hu) as (o1 & E1 & Hr).
  { intros p Hp. rewrite <- (used_inputs h n A Hdom) in Hp.
    assert (Hl1 : p ∈ l1) by (by apply (Sort.sorted_before _ _ _ _ T l1 n l2 p)).
    split; [done|]. apply (Sort.sorted_nodes _ _ _ _ T p). rewrite <- El. apply elem_of_app. by left. }
  assert (En : nodes a !! n = Some o) by (by rewrite (executed_out _ _ _ X n Hnd)).
  rewrite (bind_eq _ _ _ _ _ (exec_node_eq n a o o1 En E1)).
  destruct (IH (l1 ++ [n]) (a <| nodes ::= <[n := o1]> |>)) as (h' & E' & X').
  - by rewrite <- app_assoc.
  - split; cbn; intros k; rewrite elem_of_app, list_elem_of_singleton.
    + intros [Hk| ->].
      * rewrite lookup_insert_ne by (by intros ->). by apply (executed_in _ _ _ X).
      * rewrite lookup_insert_eq. eauto.
    + intros Hk. rewrite lookup_insert_ne by (intros ->; tauto). apply (executed_out _ _ _ X). tauto.
  - exists h'. by rewrite E'.
Qed.

(** The ports to the memory take what arrives at the bottom of the array. *)
Record gathered (k : Z) (h1 h2 : heap) : Prop := {
  gathered_in x : 0 ≤ x < k → ∃ o d, h !! GATHER x = Some o ∧ reads h (CH x 0 0 1) d ∧
    h2 !! GATHER x = Some (o <| obuf := [d] |>);
  gathered_out n : (∀ x, n = GATHER x → ¬ 0 ≤ x < k) → h2 !! n = h1 !! n
}.

Lemma gather_reads h1 x o : executed h ts h1 → h !! GATHER x = Some o →
  ∃ d, getData h1 (CH x 0 0 1) = Some d ∧ reads h (CH x 0 0 1) d.
Proof using L Haddr A T.
  intros X E.
  destruct (gather_shape h x o A E) as (Ec & Ep & _).
  destruct (links_pred _ _ _ (links_of h _ o A E) (CH x 0 0 1)) as (oc & Eoc & Hs); [rewrite Ep; by left|].
  assert (Hu : users h (CH x 0 0 1) ≠ []).
  { intros Hn. destruct (users_eq h _ oc A Eoc) as (_ & _ & Hx).
    assert (Hin : GATHER x ∈ users h (CH x 0 0 1)); [|rewrite Hn in Hin; by apply not_elem_of_nil in Hin].
    apply Hx. split; [done|]. unfold U. cbn. by rewrite E, Ec. }
  destruct (decide (CH x 0 0 1 ∈ ts)) as [Hin|Hout].
  { destruct (executed_reads h ts h1 _ A X Hin Hu) as (d & Hg & Hc). exists d. split; [done|by left]. }
  assert (Hno : ∀ d, ¬ carries h (CH x 0 0 1) d).
  { intros d Hc%carries_grounded; [|done]. apply Hout. by apply (Sort.sorted_nodes _ _ _ _ T). }
  exists 0. split; [|by right]. unfold getData. rewrite (executed_out _ _ _ X _ Hout), Eoc. cbn. f_equal.
  unfold getData_of.
  destruct (shape_of h _ oc A Eoc) as [c Hc _ ->|op p q Hc _ _ _ ->|act latch p Hc _ -> _|c Hc _|d l Hc _ _|x' d Hx]; rewrite ?Hc; try done.
  - by destruct (Hno _ (carries_const h _ oc c Eoc Hc)).
  - by destruct (Hno _ (carries_launch h _ oc Eoc Hc)).
Qed.

Lemma gather_one k h1 a : executed h ts h1 → 0 ≤ k → is_Some (h !! GATHER k) → gathered k h1 (nodes a) →
  ∃ h2, exec_node (GATHER k) a = Some ((), a <| nodes := h2 |>, []) ∧ gathered (k + 1) h1 h2.
Proof using L Haddr A T.
  intros X Hk [o E] G. destruct (gather_reads h1 k o X E) as (d & Hg & Hr).
  destruct (gather_shape h k o A E) as (Ec & Ep & Es & d0 & Eq).
  assert (En : nodes a !! GATHER k = Some o).
  { rewrite (gathered_out _ _ _ G) by (intros x [= <-]; lia). rewrite (executed_out _ _ _ X); [done|].
    intros Hin. apply (Sort.sorted_nodes _ _ _ _ T) in Hin as [_ Hu]. destruct (users_eq h _ o A E) as (_ & _ & Hx).
    destruct (users h (GATHER k)) as [|s l]; [done|]. destruct (proj1 (Hx s)) as [Hs _]; [by left|].
    rewrite Es in Hs. by apply not_elem_of_nil in Hs. }
  assert (Ex : exec_of (nodes a) o = Some (o <| obuf := [d] |>)).
  { unfold exec_of, input. rewrite Ec, Ep. unfold pop. rewrite Eq.
    change (nthz [Some (CH k 0 0 1)] 0) with (Some (Some (CH k 0 0 1))). cbn.
    replace (getData (nodes a) (CH k 0 0 1)) with (Some d); [done|]. rewrite <- Hg. unfold getData.
    by rewrite (gathered_out _ _ _ G). }
  exists (<[GATHER k := o <| obuf := [d] |>]> (nodes a)). split; [by apply (exec_node_eq _ _ o)|]. split.
  - intros x Hx. destruct (decide (x = k)) as [->|Hne].
    + exists o, d. by rewrite lookup_insert_eq.
    + rewrite lookup_insert_ne by congruence. apply (gathered_in _ _ _ G). lia.
  - intros n Hn. rewrite lookup_insert_ne by (intros <-; apply (Hn k); [done|lia]).
    apply (gathered_out _ _ _ G). intros x -> Hx. apply (Hn x); [done|lia].
Qed.

Lemma gather_list h1 n k a : executed h ts h1 → 0 ≤ k → (∀ x, k ≤ x < k + Z.of_nat n → is_Some (h !! GATHER x)) →
  gathered k h1 (nodes a) →
  ∃ h2, for_each (seqZ k (Z.of_nat n)) (λ i, exec_node (GATHER i)) a = Some ((), a <| nodes := h2 |>, []) ∧
    gathered (k + Z.of_nat n) h1 h2.
Proof using L Haddr A T.
  intros X. revert k a. induction n as [|n IH]; intros k a Hk Hs G.
  { exists (nodes a). rewrite Z.add_0_r. split; [by destruct a|done]. }
  rewrite Nat2Z.inj_succ, seqZ_cons, Z.pred_succ by lia. cbn [for_each].
  destruct (gather_one k h1 a X Hk (Hs k ltac:(lia)) G) as (h2 & E2 & G2). rewrite (bind_eq _ _ _ _ _ E2).
  destruct (IH (Z.succ k) (a <| nodes := h2 |>)) as (h3 & E3 & G3); [lia|intros; apply Hs; lia|exact G2|].
  exists h3. rewrite E3. split; [done|]. by replace (k + Z.succ (Z.of_nat n)) with (Z.succ k + Z.of_nat n) by lia.
Qed.

End Cycle.

Lemma update_list l a : NoDup l → (∀ n, n ∈ l → ∃ o o1, nodes a !! n = Some o ∧ update_of o = Some o1) →
  ∃ h', for_each l update_node a = Some ((), a <| nodes := h' |>, []) ∧
    (∀ n, n ∈ l → ∃ o, nodes a !! n = Some o ∧ h' !! n = update_of o) ∧ (∀ n, n ∉ l → h' !! n = nodes a !! n).
Proof using Type.
  revert a. induction l as [|n l IH]; intros a Hnd Hl; cbn [for_each].
  { exists (nodes a). split; [by destruct a|]. split; [by intros n ?%not_elem_of_nil|done]. }
  apply NoDup_cons in Hnd as [Hn Hnd]. destruct (Hl n) as (o & o1 & E & E1); [by left|].
  rewrite (bind_eq _ _ _ _ _ (update_node_eq n a o o1 E E1)).
  assert (Hne : ∀ k, k ∈ l → (<[n := o1]> (nodes a) : heap) !! k = nodes a !! k)
    by (intros k Hk; rewrite lookup_insert_ne; [done|by intros ->]).
  destruct (IH (a <| nodes ::= <[n := o1]> |>) Hnd) as (h' & E' & Hin & Hout).
  { intros k Hk. cbn. rewrite Hne by done. apply Hl. by right. }
  exists h'. split; [by rewrite E'|]. cbn in Hin, Hout. split.
  - intros k [->|Hk]%elem_of_cons; [exists o; by rewrite Hout, lookup_insert_eq|].
    destruct (Hin k Hk) as (ok & Ek & Hk'). exists ok. by rewrite <- (Hne k Hk).
  - intros k Hk. rewrite elem_of_cons in Hk. rewrite Hout by tauto. apply lookup_insert_ne. intros ->. tauto.
Qed.

Lemma elem_array_gather a x : GATHER x ∈ array_nodes a ↔ 0 ≤ x < width a.
Proof using Type.
  unfold array_nodes, range. rewrite !elem_of_app, list_elem_of_bind. split.
  - intros [(x' & Hin & Hx)|[Hin|Hin]].
    + rewrite elem_of_seqZ in Hx. rewrite elem_of_app, list_elem_of_bind in Hin. destruct Hin as [(y & Hin & _)|Hin].
      * rewrite elem_of_app, !elem_of_cons, list_elem_of_bind in Hin.
        destruct Hin as [[?|[?|[?|?%not_elem_of_nil]]]|(se & Hin & _)]; try done.
        by apply list_elem_of_fmap in Hin as (? & ? & _).
      * rewrite !elem_of_cons in Hin. destruct Hin as [?|[[= ->]|?%not_elem_of_nil]]; [done|lia|done].
    + apply list_elem_of_bind in Hin as (y & Hin & _). rewrite !elem_of_cons in Hin.
      by destruct Hin as [?|[?|?%not_elem_of_nil]].
    + destruct (0 <? preg_channels a); [|by apply not_elem_of_nil in Hin].
      apply list_elem_of_bind in Hin as (y & Hin & _). apply list_elem_of_bind in Hin as (i & Hin & _).
      by apply list_elem_of_fmap in Hin as (? & ? & _).
  - intros Hx. left. exists x. rewrite elem_of_seqZ. split; [|lia]. apply elem_of_app. right. right. by left.
Qed.

(** What a cycle does to an object. *)
Definition advance (q : list Z) : list Z := match q with _ :: (_ :: _) as l => l | _ => q end.
Definition next (h : heap) (n : node) (o o' : obj) : Prop :=
  match cls o with
  | PREGc act latch => ∃ p l', predecessors o = [Some p] ∧ o' = o <| cls := PREGc act l' |> ∧
      ((users h n ≠ [] ∧ ∃ d, carries h p d ∧ l' = if act then d else latch) ∨
       (users h n = [] ∨ ∀ d, ¬ carries h p d) ∧ l' = latch)
  | MemLoadUnitc => o' = if decide (users h n = []) then o else o <| obuf ::= advance |>
  | MemStoreUnitc => ∃ p d, predecessors o = [Some p] ∧ reads h p d ∧ o' = o <| obuf := [d] |>
  | _ => o' = o
  end.

Lemma ran_next h n o o1 : all_like h → h !! n = Some o → users h n ≠ [] → ran h n o o1 →
  ∃ o', update_of o1 = Some o' ∧ next h n o o'.
Proof using L.
  intros A E Hu Hr. unfold ran in Hr. unfold next, update_of.
  destruct (shape_of h n o A E) as
    [c Ec Hc Hq|op p q Ec _ Ep Hne Hq|act latch p Ec Ep Hq Hs|c Ec Ep|d l Ec Ep Hq|x d Hx Ec Ep Es _]; rewrite Ec in Hr |- *.
  - destruct Hr as (d & _ & ->). exists o. cbn. rewrite Ec. unfold pop. cbn. rewrite Hq. split; [|done].
    destruct o; cbn in *. by subst.
  - destruct Hr as (d & _ & ->). exists o. cbn. rewrite Ec. unfold pop. cbn. rewrite Hq. split; [|done].
    destruct o; cbn in *. by subst.
  - destruct Hr as (p' & d & Ep' & Hd & ->). exists (o <| cls := PREGc act (if act then d else latch) |>).
    unfold pop. cbn. rewrite Hq. cbn. split; [destruct o; cbn in *; by subst|]. exists p'. eexists.
    split; [done|]. split; [done|]. left. eauto.
  - subst o1. exists o. by rewrite Ec.
  - subst o1. rewrite Ec, decide_False by done. unfold pop. rewrite Hq. destruct l as [|d' l].
    + exists o. split; [done|]. destruct o; cbn in *. by subst.
    + destruct (Z.ltb_spec 1 (Z.of_nat (length (d :: d' :: l)))) as [_|Hl]; [|cbn [length] in Hl; lia].
      eexists. split; [done|]. destruct o; cbn in *. by subst.
  - done.
Qed.

(** An object that is not executed keeps its data. *)
Lemma idle_next h n o : all_like h → h !! n = Some o → (∀ x, n ≠ GATHER x) →
  ¬ (grounded h n ∧ users h n ≠ []) → next h n o o.
Proof using L Haddr.
  intros A E Hg Hi. unfold next. destruct (cls o) as [| |act latch| | |] eqn:Ec; try done.
  - destruct (shape_of h n o A E) as [| |? ? p ? Ep| | |]; try congruence.
    exists p, latch. split; [done|]. split; [destruct o; cbn in *; by subst|]. right. split; [|done].
    destruct (decide (users h n = [])) as [|Hu]; [by left|]. right. intros d Hd. destruct Hi. split; [|done].
    exact (carries_grounded h n _ A (carries_preg h n o act latch p d E Ec Hu Ep Hd)).
  - rewrite decide_True; [done|]. destruct (decide (users h n = [])) as [|Hu]; [done|]. destruct Hi. split; [|done].
    exact (carries_grounded h n _ A (carries_launch h n o E Ec)).
  - destruct (shape_of h n o A E) as [| | | | |x]; try congruence.
Qed.

Lemma next_like h n o o' o0 : like o0 o → h !! n = Some o → next h n o o' → like o0 o'.
Proof using Type.
  intros (Hp & Hs & Hc) _ Hn. unfold next, like in *.
  destruct (cls o0) eqn:Ec0, (cls o) eqn:Ec; try done; subst.
  1-2, 4: subst; by rewrite Ec.
  - destruct Hn as (p & l' & _ & -> & _). by cbn.
  - destruct (decide (users h n = [])); subst; [by rewrite Ec|]. cbn. rewrite Ec. split; [done|]. split; [done|].
    by destruct (obuf o) as [|? []].
  - destruct Hn as (p & d & _ & _ & ->). cbn. rewrite Ec. eauto.
Qed.

Lemma next_flow h n o o' : next h n o o' → predecessors o' = predecessors o ∧ successors o' = successors o ∧
  match cls o with PREGc act _ => ∃ l, cls o' = PREGc act l | c => cls o' = c end.
Proof using Type.
  unfold next. destruct (cls o) eqn:Ec.
  1-2, 4: by intros ->.
  - intros (p & l' & _ & -> & _). eauto.
  - destruct (decide _); by intros ->.
  - by intros (p & d & _ & _ & ->).
Qed.

Lemma cycle_objects (h : heap) ts (h1 h2 h3 : heap) w n o :
  all_like h → Sort.sorted addresses (users h) (deg h) ts → executed h ts h1 → gathered h w h1 h2 →
  (∀ n, n ∈ ts → ∃ o, h2 !! n = Some o ∧ h3 !! n = update_of o) → (∀ n, n ∉ ts → h3 !! n = h2 !! n) →
  (∀ x, GATHER x ∈ dom → 0 ≤ x < w) → h !! n = Some o →
  ∃ o', h3 !! n = Some o' ∧ next h n o o'.
Proof using L Haddr.
  intros A T X G Hin Hout Hw E. destruct (decide (n ∈ ts)) as [Hn|Hn].
  - destruct (executed_in _ _ _ X n Hn) as (o' & o1 & E' & E1 & Hr). rewrite E in E'. injection E' as <-.
    apply (Sort.sorted_nodes _ _ _ _ T) in Hn as Hu. destruct Hu as [_ Hu].
    destruct (ran_next h n o o1 A E Hu Hr) as (o3 & E3 & Hx). exists o3. split; [|done].
    destruct (Hin n Hn) as (o2 & E2 & ->). rewrite <- E3. f_equal.
    enough (Some o2 = Some o1) by congruence. rewrite <- E2, <- E1. apply (gathered_out _ _ _ _ G).
    intros x -> _. destruct (gather_shape h x o A E) as (Ec & _). unfold ran in Hr. by rewrite Ec in Hr.
  - rewrite (Hout n Hn).
    assert (Hcase : (∃ x, n = GATHER x) ∨ ∀ x, n ≠ GATHER x) by (destruct n; eauto).
    destruct Hcase as [[x ->]|Hg].
    + destruct (gathered_in _ _ _ _ G x) as (o' & d & E' & Hr & ->).
      { apply Hw, (all_like_dom h _ A). by exists o. }
      rewrite E in E'. injection E' as <-. eexists. split; [done|].
      destruct (gather_shape h x o A E) as (Ec & Ep & _). unfold next. rewrite Ec. eauto.
    + exists o. rewrite (gathered_out _ _ _ _ G) by (intros x ->; by destruct (Hg x)).
      rewrite (executed_out _ _ _ X) by done. split; [done|]. apply idle_next; [done..|].
      by rewrite <- (Sort.sorted_nodes _ _ _ _ T n).
Qed.

Lemma next_all (h h' : heap) : all_like h → (∀ n, h' !! n = None ↔ h !! n = None) →
  (∀ n o, h !! n = Some o → ∃ o', h' !! n = Some o' ∧ next h n o o') → all_like h' ∧ same_flow h h'.
Proof using Type.
  intros A Hd Hx. split; intros n.
  - specialize (A n). destruct (h !! n) as [o|] eqn:E.
    + destruct (Hx n o E) as (o' & -> & Hn). destruct (h0 !! n); [|done]. by eapply next_like.
    + by rewrite (proj2 (Hd n) E).
  - destruct (h !! n) as [o|] eqn:E.
    + destruct (Hx n o E) as (o' & -> & Hn). by eapply next_flow.
    + by rewrite (proj2 (Hd n) E).
Qed.

Lemma array_cycle_eq a : wf a → defined_ops (nodes a) → config_changed a = true ∨ current a →
  ∃ a', exec addresses a = Some ((), a', []) ∧ wf a' ∧ current a' ∧ config_changed a' = false ∧
    (height a', width a', se_count a', se_channels a', preg_channels a') =
      (height a, width a, se_count a, se_channels a, preg_channels a) ∧
    (∀ n, nodes a' !! n = None ↔ nodes a !! n = None) ∧
    ∀ n o, nodes a !! n = Some o → ∃ o', nodes a' !! n = Some o' ∧ next (nodes a) n o o'.
Proof using L Haddr.
  intros [Hnd A] D Hc.
  assert (Ha : ∃ ts, when (config_changed a) (analyze_dataflow addresses) a =
      Some ((), a <| tsorted_list := ts |> <| config_changed := false |>, []) ∧
      Sort.sorted addresses (users (nodes a)) (deg (nodes a)) ts).
  { destruct (config_changed a) eqn:Ecc; [by apply analyze_eq|]. destruct Hc as [|Hc]; [done|].
    exists (tsorted_list a). split; [|done]. cbn. destruct a. cbn in *. by subst. }
  destruct Ha as (ts & Ea & T). set (a1 := a <| tsorted_list := ts |> <| config_changed := false |>) in *.
  unfold exec. rewrite gets_bind, (bind_eq _ _ _ _ _ Ea), gets_bind.
  assert (Hw : ∀ x, 0 ≤ x < width a ↔ GATHER x ∈ dom) by (intros x; by rewrite <- Hnd, elem_array_gather).
  destruct (exec_list (nodes a) A D ts T ts [] a1 eq_refl) as (h1 & E1 & X).
  { split; [by intros n ?%not_elem_of_nil|done]. }
  change (tsorted_list a1) with ts. rewrite (bind_eq _ _ _ _ _ E1). unfold each. rewrite bind_assoc, gets_bind.
  change (width (a1 <| nodes := h1 |>)) with (width a).
  destruct (gather_list (nodes a) A ts T h1 (Z.to_nat (width a)) 0 (a1 <| nodes := h1 |>) X) as (h2 & E2 & G); [done|..].
  { intros x Hx. apply (all_like_dom (nodes a) _ A), Hw. lia. }
  { split; [lia|done]. }
  unfold for_range. rewrite (bind_eq _ _ _ _ _ E2), gets_bind.
  change (tsorted_list (a1 <| nodes := h1 |> <| nodes := h2 |>)) with ts.
  destruct (update_list ts (a1 <| nodes := h1 |> <| nodes := h2 |>)) as (h3 & E3 & Hin & Hout).
  { apply T. }
  { intros n Hn. destruct (executed_in _ _ _ X n Hn) as (o & o1 & Eo & Eo1 & Hr).
    apply (Sort.sorted_nodes _ _ _ _ T) in Hn as [_ Hu]. destruct (ran_next _ n o o1 A Eo Hu Hr) as (o3 & Eo3 & _).
    exists o1, o3. split; [|done]. rewrite <- Eo1. apply (gathered_out _ _ _ _ G).
    intros x -> _. destruct (gather_shape _ x o A Eo) as (Ec & _). unfold ran in Hr. by rewrite Ec in Hr. }
  eexists. split; [exact E3|].
  assert (Hobj : ∀ n o, nodes a !! n = Some o → ∃ o', h3 !! n = Some o' ∧ next (nodes a) n o o').
  { intros n o. apply (cycle_objects (nodes a) ts h1 h2 h3 _ n o A T X G Hin Hout). intros x Hx%Hw. lia. }
  assert (Hnone : ∀ n, h3 !! n = None ↔ nodes a !! n = None).
  { intros n. split; [|intros E].
    - intros E. destruct (nodes a !! n) as [o|] eqn:Eo; [|done]. destruct (Hobj n o Eo) as (o' & Eo' & _). congruence.
    - assert (Hn : n ∉ dom) by (rewrite (all_like_dom _ n A), E; by intros []).
      rewrite Hout. 2: { intros Ht. apply (Sort.sorted_nodes _ _ _ _ T) in Ht as [[Ht _ _] _]. by rewrite Haddr in Ht. }
      cbn. rewrite (gathered_out _ _ _ _ G). 2: { intros x -> Hx. apply Hn, Hw. lia. }
      rewrite (executed_out _ _ _ X); [done|]. intros Ht. apply (Sort.sorted_nodes _ _ _ _ T) in Ht as [[Ht _ _] _].
      by rewrite Haddr in Ht. }
  destruct (next_all (nodes a) h3 A Hnone Hobj) as [A3 F]. split; [by split|].
  split; [exact (same_flow_sorted _ _ ts F T)|]. done.
Qed.

(** The objects that are executed are those whose wires have a datum, and the ports. *)
Lemma grounded_carries h n o : all_like h → defined_ops h → h !! n = Some o → grounded h n →
  (∃ d, carries h n d) ∨ users h n = [].
Proof using L Haddr.
  intros A D E G. revert o E. induction G as [n Ha Hd Hu IH]. intros o E.
  assert (Hn : n ∈ dom) by (by rewrite Haddr in Ha).
  assert (G : grounded h n) by (by constructor). apply (grounded_eq h n o A E) in G as [Hdeg _].
  assert (Hin : ∀ p, p ∈ inputs h n → users h p ≠ [] ∧ ∃ op, h !! p = Some op ∧ (∀ o, h !! p = Some o → (∃ d, carries h p d) ∨ users h p = [])).
  { intros p Hp. rewrite <- (used_inputs h n A Hn) in Hp. unfold Sort.used in Hp. pose proof Hp as Hp'.
    apply list_elem_of_filter in Hp' as [Hx Hpa]. split; [by intros E0; rewrite E0 in Hx; apply not_elem_of_nil in Hx|].
    rewrite Haddr in Hpa. apply (all_like_dom h p A) in Hpa as [op Ep]. exists op. split; [done|]. by apply IH. }
  assert (Hval : ∀ p, p ∈ inputs h n → ∃ d, carries h p d).
  { intros p Hp. destruct (Hin p Hp) as (Hup & op & Ep & Hc). by destruct (Hc op Ep). }
  clear Hin IH Hu Hd. unfold inputs in Hval, Hdeg. unfold deg, in_degree_of in Hdeg. rewrite E in Hval, Hdeg. cbn in Hdeg.
  destruct (shape_of h n o A E) as
    [c Ec Hc Hq|op p q Ec Hop Ep Hne Hq|act latch p Ec Ep Hq Hs|c Ec Ep|d l Ec Ep Hq|x d Hx Ec Ep Es _]; rewrite Ec in Hval, Hdeg.
  - left. destruct (nthz (predecessors o) c) as [[p|]|] eqn:En; [|cbn in Hdeg; discriminate..].
    destruct (Hval p) as [d Hc']; [by left|]. exists d. by eapply carries_mux.
  - left. destruct (Z.eqb_spec op 0) as [|Hz]; [cbn in Hdeg; discriminate|]. rewrite Ep in Hval. cbn in Hval.
    destruct (Hval p) as [va Ca]; [by left|]. destruct (Hval q) as [vb Cb]; [right; by left|].
    destruct (nthz_is_Some PEOps.PE_op_table op) as [f Hf]; [done|].
    destruct (f va vb) as [d|] eqn:Ed; [|by destruct (D n o op p q va vb f)]. exists d. by eapply carries_alu.
  - destruct (decide (users h n = [])) as [|Hu]; [by right|left]. rewrite Ep in Hval. cbn in Hval.
    destruct (Hval p) as [d Cd]; [by left|]. eexists. by eapply carries_preg.
  - left. eexists. by eapply carries_const.
  - left. eexists. by eapply carries_launch.
  - right. destruct (users_eq h n o A E) as (_ & _ & Hus). destruct (users h n) as [|s k]; [done|].
    destruct (proj1 (Hus s)) as [Hs _]; [by left|]. rewrite Es in Hs. by apply not_elem_of_nil in Hs.
Qed.

Lemma next_det h n o o1 o2 : next h n o o1 → next h n o o2 → o1 = o2.
Proof using Type.
  unfold next. destruct (cls o) as [| |act latch| | |]; try congruence.
  - intros (p & l1 & Ep & -> & H1) (p2 & l2 & Ep2 & -> & H2). do 2 f_equal. rewrite Ep in Ep2. injection Ep2 as <-.
    destruct H1 as [(Hu1 & d1 & C1 & ->)|[N1 ->]], H2 as [(Hu2 & d2 & C2 & ->)|[N2 ->]]; try done.
    + by rewrite (carries_det h p d1 d2 C1 C2).
    + destruct N2 as [|N2]; [done|]. by destruct (N2 d1).
    + destruct N1 as [|N1]; [done|]. by destruct (N1 d2).
  - intros (p & d1 & Ep & H1 & ->) (p2 & d2 & Ep2 & H2 & ->). rewrite Ep in Ep2. injection Ep2 as <-.
    destruct H1 as [C1|[N1 ->]], H2 as [C2|[N2 ->]]; try done.
    + by rewrite (carries_det h p d1 d2 C1 C2).
    + by destruct (N2 d1).
    + by destruct (N1 d2).
Qed.

Lemma analysis_eq a : wf a → defined_ops (nodes a) → ∃ ts,
  analyze_dataflow addresses a = Some ((), a <| tsorted_list := ts |> <| config_changed := false |>, []) ∧
  NoDup ts ∧ (∀ l1 n l2 p, ts = l1 ++ n :: l2 → p ∈ inputs (nodes a) n → p ∈ l1) ∧
  ∀ n, n ∈ ts ↔ (∃ d, carries (nodes a) n d) ∧ users (nodes a) n ≠ [].
Proof using L Haddr.
  intros W D. destruct (analyze_eq a W) as (ts & E & T). exists ts. split; [done|]. destruct W as [_ A].
  assert (Hts : ∀ n, n ∈ ts → ∃ o, nodes a !! n = Some o).
  { intros n Hn. apply (Sort.sorted_nodes _ _ _ _ T) in Hn as [[Ha _ _] _]. rewrite Haddr in Ha.
    by apply (all_like_dom _ n A) in Ha as [o Eo]; exists o. }
  split; [apply T|]. split.
  - intros l1 n l2 p El Hp. apply (Sort.sorted_before _ _ _ _ T l1 n l2 p El).
    rewrite (used_inputs _ n A); [done|]. apply (all_like_dom _ n A). apply Hts. rewrite El.
    apply elem_of_app. right. by left.
  - intros n. split.
    + intros Hn. destruct (Hts n Hn) as [o Eo]. apply (Sort.sorted_nodes _ _ _ _ T) in Hn as [G Hu].
      split; [|done]. by destruct (grounded_carries _ n o A D Eo G).
    + intros [[d C] Hu]. apply (Sort.sorted_nodes _ _ _ _ T). split; [|done]. by eapply carries_grounded.
Qed.

Lemma current_perm l h ts : addresses ≡ₚ l → Sort.sorted addresses (users h) (deg h) ts →
  Sort.sorted l (users h) (deg h) ts.
Proof using Type.
  intros Hl [Hnd Hb Hn].
  assert (Hu : ∀ n, Sort.used addresses (users h) n ≡ₚ Sort.used l (users h) n)
    by (intros n; unfold Sort.used; by rewrite Hl).
  assert (Hg : ∀ n, Sort.grounded addresses (users h) (deg h) n ↔ Sort.grounded l (users h) (deg h) n).
  { intros n. split; induction 1 as [n Ha Hd Hx IH]; constructor.
    - by rewrite <- Hl.
    - by rewrite <- Hu.
    - intros p. rewrite <- Hu. apply IH.
    - by rewrite Hl.
    - by rewrite Hu.
    - intros p. rewrite Hu. apply IH. }
  split; [done|..].
  - intros l1 n l2 p E. rewrite <- Hu. by apply Hb with l2.
  - intros n. by rewrite Hn, Hg.
Qed.

End Array.

End Flow.
