(* ===== verification/CmaConfig.v ===== *)
(** * CmaConfig: the configuration of the CMA array, and its cycles

    Every store to the configuration registers leaves a well-formed array; what a cycle of
    such an array does. *)

From S2P Require Import Prelude Effects CmaSort CmaArray CmaFlow.
Import PEArray Flow.

Module Config.

(** The array of the CMA with any configuration and data. *)
Record array (a : t) : Prop := {
  array_dims : height a = HEIGHT ∧ width a = WIDTH ∧ se_count a = 1 ∧ se_channels a = 4 ∧ preg_channels a = 2;
  array_like : all_like (nodes built) (nodes a)
}.

Lemma array_nodes_built a : array a → array_nodes a = array_nodes built.
Proof.
  intros [(Hh & Hw & Hs & Hc & Hp) _]. destruct built_dims as (Hh' & Hw' & Hs' & Hc' & Hp' & _).
  unfold array_nodes. by rewrite Hh, Hw, Hs, Hc, Hp, Hh', Hw', Hs', Hc', Hp'.
Qed.
Lemma array_wf a : array a → wf (nodes built) (array_nodes built) a.
Proof. intros A. split; [by apply array_nodes_built|apply A]. Qed.

Lemma built_array : array built.
Proof.
  split; [destruct built_dims as (-> & -> & -> & -> & -> & _); done|]. intros n.
  destruct (nodes built !! n) as [o|] eqn:E; [|done].
  pose proof (objs_ok _ _ built_laws n o E) as Hok. unfold obj_ok in Hok. apply andb_prop in Hok as [_ Hok].
  split; [done|]. split; [done|]. destruct o as [c p s q]. cbn.
  destruct n; destruct c; try discriminate;
    repeat (match type of Hok with context [match ?x with _ => _ end] => is_var x; destruct x end; try discriminate);
    try (apply bool_decide_eq_true in Hok; subst p); cbn; try done; try (split; [lia|done]); try (by eexists).
  all: split; [|done]; apply Z.ltb_lt in Hok; lia.
Qed.

(** ** The objects by their names *)
Definition named (n : node) (o : obj) : Prop :=
  match n with
  | ALU _ _ => ∃ op, cls o = ALUc op
  | SEL _ _ _ | CH _ _ _ _ => ∃ c, cls o = MUXc c
  | CREG _ => ∃ c, cls o = ConstRegc c
  | PREG _ _ _ => ∃ b l, cls o = PREGc b l
  | LAUNCH _ => cls o = MemLoadUnitc
  | GATHER _ => cls o = MemStoreUnitc
  end.
Lemma named_obj a n o : array a → nodes a !! n = Some o → named n o.
Proof.
  intros A E. destruct (like_of _ _ n o (array_like a A) E) as (o0 & E0 & _ & _ & Hc).
  pose proof (objs_ok _ _ built_laws n o0 E0) as Hok. unfold obj_ok in Hok. apply andb_prop in Hok as [_ Hok].
  destruct o0 as [c0 p0 s0 q0]. cbn in Hc. unfold named.
  destruct n; destruct c0; try discriminate; destruct (cls o) eqn:Ec; try done; eauto.
Qed.

Lemma array_has a n : array a → n ∈ array_nodes a → ∃ o, nodes a !! n = Some o.
Proof.
  intros A. rewrite array_nodes_built by done. intros Hn.
  by apply (all_like_dom _ _ built_laws (nodes a) n (array_like a A)) in Hn as [o E]; exists o.
Qed.

Section Elements.
  Variables (a : t) (x y : Z).
  Hypotheses (A : array a) (Hx : 0 ≤ x < width a) (Hy : 0 ≤ y < height a).

Lemma in_pe n : n ∈ [ALU x y; SEL x y 0; SEL x y 1; CH x y 0 0; CH x y 0 1; CH x y 0 2; CH x y 0 3] →
  n ∈ array_nodes a.
Proof using All.
  intros Hn. unfold array_nodes, range. destruct (array_dims a A) as (_ & _ & -> & -> & _).
  rewrite elem_of_app. left. rewrite list_elem_of_bind. exists x. rewrite elem_of_seqZ. split; [|lia].
  rewrite elem_of_app. left. rewrite list_elem_of_bind. exists y. rewrite elem_of_seqZ. split; [exact Hn|lia].
Qed.
Lemma in_launch : LAUNCH x ∈ array_nodes a.
Proof using Hx.
  unfold array_nodes, range. rewrite elem_of_app. left. rewrite list_elem_of_bind. exists x.
  rewrite elem_of_seqZ. split; [|lia]. rewrite elem_of_app. right. by left.
Qed.
Lemma in_preg i : y < height a - 1 → 0 ≤ i < preg_channels a → PREG x y i ∈ array_nodes a.
Proof using All.
  intros Hy' Hi. destruct (array_dims a A) as (_ & _ & _ & _ & Hp). unfold array_nodes, range.
  rewrite !elem_of_app. right. right. rewrite (proj2 (Z.ltb_lt 0 (preg_channels a))) by lia.
  rewrite list_elem_of_bind. exists x. rewrite elem_of_seqZ. split; [|lia].
  rewrite list_elem_of_bind. exists y. rewrite elem_of_seqZ. split; [|lia].
  apply list_elem_of_fmap. exists i. by rewrite elem_of_seqZ.
Qed.
Lemma in_creg i : 0 ≤ i < height a * 2 → CREG i ∈ array_nodes a.
Proof using Type.
  intros Hi. unfold array_nodes, range. rewrite !elem_of_app. right. left. rewrite list_elem_of_bind.
  destruct (decide (i < height a)).
  - exists i. rewrite elem_of_seqZ. split; [by left|lia].
  - exists (i - height a). rewrite elem_of_seqZ. split; [|lia]. right. rewrite list_elem_of_singleton. f_equal. lia.
Qed.
End Elements.

(** ** Actions that return and keep the array *)
Definition good (m : M unit) : Prop := ∀ a, array a → ∃ a', m a = Some ((), a', []) ∧ array a'.

Lemma good_bind (m k : M unit) : good m → good k → good (m;; k).
Proof.
  intros Hm Hk a A. destruct (Hm a A) as (a1 & E1 & A1). destruct (Hk a1 A1) as (a2 & E2 & A2).
  exists a2. by rewrite (bind_eq _ _ _ _ _ E1).
Qed.
Lemma good_when b m : (b = true → good m) → good (when b m).
Proof. intros Hm. destruct b; [by apply Hm|]. intros a A. by exists a. Qed.
Lemma good_each_of (l : list Z) (f : Z → M unit) : (∀ x, x ∈ l → good (f x)) → good (for_each l f).
Proof.
  induction l as [|x l IH]; intros Hf; [intros a A; by exists a|].
  apply good_bind; [apply Hf; by left|]. apply IH. intros y Hy. apply Hf. by right.
Qed.
Lemma good_each (n : t → Z) k (f : Z → M unit) : (∀ a, array a → n a = k) → (∀ x, 0 ≤ x < k → good (f x)) → good (each n f).
Proof.
  intros Hn Hf a A. unfold each. rewrite gets_bind, (Hn a A). apply good_each_of; [|done].
  intros x Hx%elem_of_seqZ. apply Hf. lia.
Qed.
Lemma good_changed b : good (config_changed <~ b).
Proof. intros a [Hd Hl]. eexists. split; [done|]. by split. Qed.

Lemma good_on n (m : Effects.M obj unit) : (∀ a, array a → n ∈ array_nodes a) →
  (∀ o0 o, like o0 o → named n o → ∃ o', m o = Some ((), o', []) ∧ like o0 o') → good (on n m).
Proof.
  intros Hn Hm a A. destruct (array_has a n A (Hn a A)) as [o E].
  destruct (like_of _ _ n o (array_like a A) E) as (o0 & E0 & Hl).
  destruct (Hm o0 o Hl (named_obj a n o A E)) as (o' & Em & Hl').
  exists (a <| nodes ::= <[n := o']> |>). unfold on, zoom_key. rewrite E, Em. split; [done|].
  split; [apply A|]. intros k. cbn. destruct (decide (k = n)) as [->|Hk].
  - by rewrite E0, lookup_insert_eq.
  - rewrite lookup_insert_ne by done. apply (array_like a A).
Qed.

Lemma config_like d o0 o : 0 ≤ d → like o0 o → (∃ c, cls o = MUXc c) ∨ (∃ op, cls o = ALUc op) →
  ∃ o', config d o = Some ((), o', []) ∧ like o0 o'.
Proof.
  intros Hd Hl Hc. unfold config. rewrite gets_bind. unfold id. destruct Hl as (Hp & Hs & Hk).
  destruct Hc as [[c Ec]|[op Ec]]; rewrite Ec in Hk |- *.
  - destruct (Z.ltb_spec d (Z.of_nat (length (predecessors o)))) as [Hx|Hx]; cbn [when].
    + eexists. split; [done|]. split; [done|]. split; [done|]. cbn. destruct (cls o0); try done.
      split; [rewrite <- Hp; lia|apply Hk].
    + exists o. split; [done|]. split; [done|]. split; [done|]. by rewrite Ec.
  - destruct (Z.ltb_spec d PEOps.OP_SIZE) as [Hx|Hx]; cbn [when].
    + eexists. split; [done|]. split; [done|]. split; [done|]. cbn. destruct (cls o0); try done.
      split; [unfold PEOps.OP_SIZE in Hx; lia|apply Hk].
    + exists o. split; [done|]. split; [done|]. split; [done|]. by rewrite Ec.
Qed.

Lemma config_good n d : 0 ≤ d → (∀ a, array a → n ∈ array_nodes a) →
  (∀ o, named n o → (∃ c, cls o = MUXc c) ∨ (∃ op, cls o = ALUc op)) → good (on n (config d)).
Proof. intros Hd Hn Hc. apply good_on; [done|]. intros o0 o Hl Ho. apply config_like; auto. Qed.

Lemma fields_nonneg d : 0 ≤ opcode_field d ∧ 0 ≤ sel_a_field d ∧ 0 ≤ sel_b_field d ∧ 0 ≤ se_north_field d ∧
  0 ≤ se_south_field d ∧ 0 ≤ se_east_field d ∧ 0 ≤ se_west_field d.
Proof.
  unfold opcode_field, sel_a_field, sel_b_field, se_north_field, se_south_field, se_east_field, se_west_field.
  rewrite !Z.shiftr_nonneg. repeat split; apply Z.land_nonneg; right; lia.
Qed.

Section At.
  Variables (x y d : Z).
  Hypotheses (Hx : 0 ≤ x < WIDTH) (Hy : 0 ≤ y < HEIGHT).

Lemma pe_has n a : array a →
  n ∈ [ALU x y; SEL x y 0; SEL x y 1; CH x y 0 0; CH x y 0 1; CH x y 0 2; CH x y 0 3] → n ∈ array_nodes a.
Proof using All.
  intros A Hn. destruct (array_dims a A) as (Hh & Hw & _). by apply (in_pe a x y A); rewrite ?Hw, ?Hh.
Qed.
Lemma config_at n v : 0 ≤ v →
  n ∈ [ALU x y; SEL x y 0; SEL x y 1; CH x y 0 0; CH x y 0 1; CH x y 0 2; CH x y 0 3] → good (on n (config v)).
Proof using All.
  intros Hv Hn. apply config_good; [done|intros a A; by apply pe_has|]. intros o Ho.
  rewrite !elem_of_cons, elem_of_nil in Hn. by destruct Hn as [->|[->|[->|[->|[->|[->|[->|[]]]]]]]]; eauto.
Qed.
Lemma config_ALU_at_good : good (config_ALU_at x y d).
Proof using All.
  destruct (fields_nonneg d) as (? & ? & ? & _).
  unfold config_ALU_at. repeat apply good_bind; apply config_at; try done; rewrite !elem_of_cons; tauto.
Qed.
Lemma config_SE_at_good : good (config_SE_at x y d).
Proof using All.
  destruct (fields_nonneg d) as (_ & _ & _ & ? & ? & ? & ?).
  unfold config_SE_at. repeat apply good_bind; apply config_at; try done; rewrite !elem_of_cons; tauto.
Qed.
End At.

Lemma multicast_good c r f : (∀ x y, 0 ≤ x < WIDTH → 0 ≤ y < HEIGHT → good (f x y)) → good (multicast c r f).
Proof.
  intros Hf. apply good_bind; [|apply good_changed].
  apply (good_each width WIDTH); [intros a A; apply A|]. intros x Hx.
  apply (good_each height HEIGHT); [intros a A; apply A|]. intros y Hy. apply good_when. auto.
Qed.

(** The stores to the ranges of the array, and the port that the load unit writes. *)
Inductive store :=
| StoreConst (addr data : Z)
| ConfigPREG (data : Z)
| ConfigALU (col_bitmap row_bitmap data : Z)
| ConfigSE (col_bitmap row_bitmap data : Z)
| ConfigPE (pe_addr data : Z)
| Launch (input_data : list Z).
Definition perform (s : store) : M unit :=
  match s with
  | StoreConst a d => store_const a d
  | ConfigPREG d => config_PREG d
  | ConfigALU c r d => config_ALU_RMC c r d
  | ConfigSE c r d => config_SE_RMC c r d
  | ConfigPE p d => config_PE p d
  | Launch l => launch l
  end.
(** The addresses and words that the ranges let through. *)
Definition valid (s : store) : Prop :=
  match s with
  | StoreConst a _ => 0 ≤ a
  | ConfigPE p _ => 0 ≤ p < HEIGHT * WIDTH
  | Launch l => WIDTH ≤ Z.of_nat (length l)
  | _ => True
  end.

Lemma store_const_good a d : 0 ≤ a → good (store_const a d).
Proof.
  intros Ha b A. unfold store_const. rewrite gets_bind.
  assert (Hi : 0 ≤ Z.shiftr a 2) by (by apply Z.shiftr_nonneg).
  destruct (Z.ltb_spec (Z.shiftr a 2) (height b * 2)) as [Hlt|]; cbn [when]; [|by exists b].
  revert b A Hlt. assert (Hg : Z.shiftr a 2 < HEIGHT * 2 → good (on (CREG (Z.shiftr a 2)) (cls <~ ConstRegc (Z.land d CONST_MASK)))).
  { intros Hlt. apply good_on.
    - intros b A. apply in_creg. destruct (array_dims b A) as (-> & _). lia.
    - intros o0 o (Hp & Hs & Hc) [c Ec]. eexists. split; [done|]. split; [done|]. split; [done|].
      rewrite Ec in Hc. cbn. by destruct (cls o0). }
  intros b A Hlt. apply Hg; [|done]. by destruct (array_dims b A) as (<- & _).
Qed.

Lemma config_PREG_good d : good (config_PREG d).
Proof.
  apply good_bind; [|apply good_changed].
  apply (good_each (λ a, height a - 1) (HEIGHT - 1)); [intros a A; by destruct (array_dims a A) as (-> & _)|]. intros y Hy.
  apply (good_each width WIDTH); [intros a A; apply A|]. intros x Hx.
  apply (good_each preg_channels 2); [intros a A; apply A|]. intros i Hi. apply good_on.
  - intros a A. destruct (array_dims a A) as (Hh & Hw & _ & _ & Hp).
    unfold HEIGHT, WIDTH in *. apply in_preg; rewrite ?Hh, ?Hw, ?Hp; try done; lia.
  - intros o0 o (Hp & Hs & Hc) (b & l & Ec). unfold activate. rewrite gets_bind. unfold id. rewrite Ec.
    eexists. split; [done|]. split; [done|]. split; [done|]. rewrite Ec in Hc. cbn. by destruct (cls o0).
Qed.

Lemma launch_good l : WIDTH ≤ Z.of_nat (length l) → good (launch l).
Proof.
  intros Hl. apply (good_each width WIDTH); [intros a A; apply A|]. intros i Hi.
  destruct (nthz_is_Some l i) as [v Hv]; [lia|]. intros a A. rewrite Hv. cbn [from_option]. rewrite ret_bind.
  revert a A. apply good_on.
  - intros a A. apply in_launch. by destruct (array_dims a A) as (_ & -> & _).
  - intros o0 o (Hp & Hs & Hc) Ec. eexists. split; [done|]. split; [done|]. split; [done|]. cbn in Ec |- *.
    rewrite Ec in Hc |- *. destruct (cls o0); try done. by destruct (obuf o).
Qed.

Lemma perform_good s : valid s → good (perform s).
Proof.
  destruct s as [a d|d|c r d|c r d|p d|l]; cbn [valid perform]; intros Hv.
  - by apply store_const_good.
  - apply config_PREG_good.
  - apply multicast_good. intros. by apply config_ALU_at_good.
  - apply multicast_good. intros. by apply config_SE_at_good.
  - intros a A. unfold config_PE. rewrite gets_bind. destruct (array_dims a A) as (_ & -> & _).
    unfold HEIGHT, WIDTH in *. assert (H : 0 ≤ Z.quot p 12 < 8 ∧ 0 ≤ Z.rem p 12 < 12).
    { rewrite Z.quot_div_nonneg, Z.rem_mod_nonneg by lia. split; [|apply Z.mod_pos_bound; lia].
      split; [apply Z.div_pos; lia|apply Z.div_lt_upper_bound; lia]. }
    revert a A. unfold config_PE_at. apply good_bind; [|apply good_bind].
    + apply config_ALU_at_good; apply H.
    + apply config_SE_at_good; apply H.
    + apply good_changed.
  - by apply launch_good.
Qed.

(** ** Properties *)

(** C39 configuration: the array that is built is well formed, and every store to the ranges
    of the array returns and leaves it well formed: the selection of a multiplexer never
    leaves its inputs, an ALU never has an operation that there is not, and no object
    gains or loses a connection. *)
Theorem configured (a0 : t) (l : list store) (Hl : ∀ s, s ∈ l → valid s) :
  ∃ a, (CCSOTB2_PEArray HEIGHT WIDTH;; for_each l perform) a0 = Some ((), a, []) ∧ array a.
Proof.
  rewrite (bind_eq _ _ _ _ _ (building a0)).
  assert (G : good (for_each l perform)); [|apply G, built_array].
  induction l as [|s l IH]; [intros a A; by exists a|]. apply good_bind; [apply perform_good, Hl; by left|].
  apply IH. intros s' Hs. apply Hl. by right.
Qed.

(** C14 the analysis of the data flow ends for every configuration and every order of the
    addresses; the list that it makes has each object once, after all the inputs that its
    configuration selects, and it has exactly the objects whose wires carry a datum that
    some object uses. *)
Theorem dataflow_analysis (addresses : list node) (a : t) (Ha : addresses ≡ₚ array_nodes built) (A : array a)
    (D : defined_ops (nodes a)) :
  ∃ a', analyze_dataflow addresses a = Some ((), a', []) ∧ nodes a' = nodes a ∧ config_changed a' = false ∧
    NoDup (tsorted_list a') ∧
    (∀ l1 n l2 p, tsorted_list a' = l1 ++ n :: l2 → p ∈ inputs (nodes a) n → p ∈ l1) ∧
    ∀ n, n ∈ tsorted_list a' ↔ (∃ d, carries (nodes a) n d) ∧ users (nodes a) n ≠ [].
Proof.
  destruct (analysis_eq _ _ built_laws addresses Ha a (array_wf a A) D) as (ts & E & H).
  eexists. split; [exact E|]. split; [done|]. split; [done|]. exact H.
Qed.

(** C10 the array is a synchronous circuit: whatever the configuration and the addresses of
    the objects, a cycle returns; the ports to the memory get the data of the wires to
    them, or 0 where a wire carries none; each active pipeline register that is used takes
    the datum of its input and gives the old one; the ports from the memory that are used
    move on; and everything else is as before.  The result does not depend on the
    addresses. *)
Theorem array_cycle (addresses : list node) (a : t) (Ha : addresses ≡ₚ array_nodes built) (A : array a)
    (D : defined_ops (nodes a)) (Hc : config_changed a = true ∨ current addresses a) :
  ∃ a', exec addresses a = Some ((), a', []) ∧ array a' ∧ current addresses a' ∧
    (∀ n o, nodes a !! n = Some o → ∃ o', nodes a' !! n = Some o' ∧ next (nodes a) n o o') ∧
    ∀ addresses', addresses' ≡ₚ addresses →
      ∃ a'', exec addresses' a = Some ((), a'', []) ∧ nodes a'' = nodes a'.
Proof.
  destruct (array_cycle_eq _ _ built_laws addresses Ha a (array_wf a A) D Hc) as (a' & E & W & C & _ & Hd & Hn & Hx).
  injection Hd as Hh Hwd Hs Hch Hp.
  exists a'. split; [done|]. split.
  { split; [rewrite Hh, Hwd, Hs, Hch, Hp; apply A|apply W]. }
  split; [done|]. split; [done|]. intros l Hl.
  assert (Hc' : config_changed a = true ∨ current l a).
  { destruct Hc as [|Hc]; [by left|right]. by apply (current_perm addresses). }
  destruct (array_cycle_eq _ _ built_laws l ltac:(by rewrite Hl) a (array_wf a A) D Hc') as (a2 & E2 & _ & _ & _ & _ & Hn2 & Hx2).
  exists a2. split; [done|]. apply map_eq. intros n. destruct (nodes a !! n) as [o|] eqn:Eo.
  - destruct (Hx n o Eo) as (o1 & -> & N1), (Hx2 n o Eo) as (o2 & -> & N2). by rewrite (next_det _ _ _ _ _ N1 N2).
  - by rewrite (proj2 (Hn n) Eo), (proj2 (Hn2 n) Eo).
Qed.

(** ** An example: the sum of the first port and a constant *)
Definition program : list store :=
  [StoreConst 0 5; ConfigALU 1 1 0x46; ConfigSE 1 1 0; Launch (37 :: replicate 11 0)].
Lemma program_valid s : s ∈ program → valid s.
Proof. unfold program. rewrite !elem_of_cons, elem_of_nil. by intros [->|[->|[->|[->|[]]]]]. Qed.
Definition outcome (m : M unit) (a : t) : t := match m a with Some (_, a', _) => a' | None => blank end.
Definition ready : t := outcome (CCSOTB2_PEArray HEIGHT WIDTH;; for_each program perform) blank.
Definition order : list node := array_nodes computed.
Lemma order_built : order ≡ₚ array_nodes built.
Proof.
  unfold order, array_nodes. destruct built_dims as (-> & -> & -> & -> & -> & _).
  by destruct computed_dims as (-> & -> & -> & -> & -> & _).
Qed.

Definition no_shifts (h : heap) : bool :=
  forallb (λ '(_, o), match cls o with ALUc op => negb ((4 <=? op) && (op <=? 6)) | _ => true end) (map_to_list h).
Lemma no_shifts_defined h : no_shifts h = true → defined_ops h.
Proof.
  intros H n o op p q a b f E Ec _ _ _ Hf. unfold no_shifts in H. rewrite forallb_forall in H.
  specialize (H (n, o) (proj1 (list_elem_of_In _ _) (proj2 (elem_of_map_to_list h n o) E))). cbn in H. rewrite Ec in H.
  apply nthz_Some in Hf as [Hop Hf]. destruct (Z.to_nat op) as [|[|[|[|k]]]] eqn:Ek;
    [by injection Hf as <-..|]. destruct k as [|[|[|k]]]; [exfalso; lia..|].
  do 9 (destruct k as [|k]; [injection Hf as <-; first [done|unfold PEOps.exec_lt, PEOps.exec_gt; by destruct (PEOps.greater a b)]|]). done.
Qed.

Lemma seq_eq (m k : M unit) a a1 a2 : m a = Some ((), a1, []) → k a1 = Some ((), a2, []) →
  (m;; k) a = Some ((), a2, []).
Proof. intros E1 E2. by rewrite (bind_eq _ _ _ _ _ E1). Qed.
Lemma outcome_eq m a a' : m a = Some ((), a', []) → outcome m a = a'.
Proof. unfold outcome. by intros ->. Qed.

Lemma ready_array : array ready ∧ config_changed ready = true ∧ no_shifts (nodes ready) = true.
Proof.
  split; [|split; vm_compute; reflexivity].
  assert (G : good (for_each program perform)).
  { assert (Hp : ∀ s, s ∈ program → good (perform s)) by (intros s Hs; by apply perform_good, program_valid).
    revert Hp. generalize program. intros l. induction l as [|s l IH]; intros Hp; [intros a A; by exists a|].
    apply good_bind; [apply Hp; by left|]. apply IH. intros s' Hs. apply Hp. by right. }
  destruct (G built built_array) as (a & E & Aa). unfold ready.
  by rewrite (outcome_eq _ _ a (seq_eq _ _ _ _ _ (building blank) E)).
Qed.

Lemma configured_witness : ∃ a, (CCSOTB2_PEArray HEIGHT WIDTH;; for_each program perform) blank = Some ((), a, []) ∧
  array a.
Proof. exact (configured blank program program_valid). Defined.

Lemma dataflow_analysis_witness :
  ∃ a', analyze_dataflow order ready = Some ((), a', []) ∧ NoDup (tsorted_list a').
Proof.
  destruct ready_array as (A & _ & Hs).
  destruct (dataflow_analysis order ready order_built A (no_shifts_defined _ Hs)) as (a' & E & _ & _ & Hn & _).
  exists a'. by split.
Defined.

Lemma array_cycle_witness : ∃ a', (exec order;; exec order) ready = Some ((), a', []) ∧ array a' ∧
  getData (nodes a') (GATHER 0) = Some 42.
Proof.
  destruct ready_array as (A & Hc & Hs).
  assert (H1 : match exec order ready with Some (_, a, _) => no_shifts (nodes a) | None => false end = true)
    by (vm_compute; reflexivity).
  assert (H2 : match (exec order;; exec order) ready with Some (_, a, _) => getData (nodes a) (GATHER 0) | None => None end =
    Some 42) by (vm_compute; reflexivity).
  destruct (array_cycle order ready order_built A (no_shifts_defined _ Hs) (or_introl Hc)) as (a1 & E1 & A1 & C1 & _).
  rewrite E1 in H1.
  destruct (array_cycle order a1 order_built A1 (no_shifts_defined _ H1) (or_intror C1)) as (a2 & E2 & A2 & _).
  pose proof (seq_eq _ _ _ _ _ E1 E2) as E. rewrite E in H2. exists a2. split; [exact E|]. by split.
Defined.

End Config.
