(* ===== verification/CmaControl.v ===== *)
(** * CmaControl: the control of the CMA (cmamodules.h, cmamodules.cc)

    The control register, the tables and units that move data between the memory and the
    array, the delayed stores and the microcontroller. *)

From S2P Require Import Prelude Effects DBuf CmaArray.

(** ** The control register *)
Module ControlReg.

Record t := Mk { donedma : bool; run : bool; bank_sel : Z (* int *); done : bool }.
#[global] Instance eta : Eta t := λ c, Mk (donedma c) (run c) (bank_sel c) (done c).

Definition DONEDMA_BIT : Z := 0x10.
Definition DONEDMA_LSB : Z := 4.
Definition BANKSEL_MASK : Z := 0x04.
Definition BANKSEL_LSB : Z := 2.
Definition RUN_BIT : Z := 0x02.
Definition RUN_LSB : Z := 1.
Definition DONE_BIT : Z := 0x01.

(** [done] is not initialised. *)
Definition ControlReg (raw_done : bool) : t := Mk false false 0 raw_done.
Definition assertDone : M t unit := done <~ true.
Definition negateDone : M t unit := done <~ false.
Definition store_word (offset data client : Z) : M t unit :=
  donedma <~ nz (Z.land data DONEDMA_BIT);;
  run <~ nz (Z.land data RUN_BIT);;
  bank_sel <~ Z.shiftr (Z.land data BANKSEL_MASK) BANKSEL_LSB;;
  done <~ nz (Z.land data DONE_BIT).
Definition fetch_word (offset mode client : Z) : M t Z :=
  gets (λ c, Z.lor (Z.lor (Z.lor (Z.shiftl (Z.b2z (donedma c)) DONEDMA_LSB) (Z.shiftl (bank_sel c) BANKSEL_LSB))
    (Z.shiftl (Z.b2z (run c)) RUN_LSB)) (Z.b2z (done c))).

End ControlReg.

(** ** The tables of the load and store units *)
Module DataManipulator.

Definition TABLE_ENTRY_SIZE : Z := 0x10.
Record t := Mk { bitmap : list (list bool); table : list (list Z); interleave_size : Z (* int *) }.
#[global] Instance eta : Eta t := λ m, Mk (bitmap m) (table m) (interleave_size m).

Section New.
  (** What the memory of the new tables holds. *)
  Variables (raw_bitmap : list (list bool)) (raw_table : list (list Z)).
Definition DataManipulator (interleave_size_ : Z) : t := Mk raw_bitmap raw_table interleave_size_.
End New.

Definition set2 {A} (p : t → list (list A)) {P : Setter p} (index pos : Z) (v : A) : M t unit :=
  when (index <? TABLE_ENTRY_SIZE)
    (row ← aget p index; row' ← from_option (setz row pos v); aset p index row').
Definition get2 {A} (p : t → list (list A)) (d : A) (index pos : Z) : M t A :=
  if index <? TABLE_ENTRY_SIZE then row ← aget p index; from_option (nthz row pos) else mret d.
Definition setBitmap (index pos : Z) (flag : bool) : M t unit := set2 bitmap index pos flag.
Definition setTable (index pos data : Z) : M t unit := set2 table index pos data.
Definition getBitmap (index pos : Z) : M t bool := get2 bitmap false index pos.
Definition getTable (index pos : Z) : M t Z := get2 table 0 index pos.

End DataManipulator.

Module DManuTableCtrl.
Import DataManipulator.

Definition INTERLEAVE_SIZE : Z := 12.
Definition ELEMENT_MASK : Z := 0xF.
Definition ELEMENT_BITW : Z := 0x4.
Definition SEL_LSB : Z := 0x2.
Definition SEL_MASK : Z := 0x0C.
Definition INDEX_LSB : Z := 0x4.
Definition INDEX_MASK : Z := 0xF0.
Definition FORMAR_OFFSET : Z := 0x1.
Definition LATTER_OFFSET : Z := 0x2.
Definition BITMAP_OFFSET : Z := 0x3.
Definition HALF : nat := 6.

(** [for (i = 0; i < n; i++) ret_data |= f(i)] *)
Fixpoint gather_bits (n : nat) (i : Z) (f : Z → M t Z) (ret_data : Z) : M t Z :=
  match n with
  | O => mret ret_data
  | S n => v ← f i; gather_bits n (i + 1) f (Z.lor ret_data v)
  end.
Definition fetch_word (offset mode client : Z) : M t Z :=
  let table_index := Z.shiftr (Z.land offset SEL_MASK) INDEX_LSB in
  let table_sel := Z.shiftr (Z.land offset SEL_MASK) INDEX_LSB in
  if table_sel =? BITMAP_OFFSET then
    gather_bits (Z.to_nat INTERLEAVE_SIZE) 0 (λ i, b ← getBitmap table_index i; mret (Z.shiftl (Z.b2z b) i)) 0
  else if table_sel =? FORMAR_OFFSET then
    gather_bits HALF 0 (λ i, v ← getTable table_index i; mret (u32 (Z.shiftl v (i * ELEMENT_BITW)))) 0
  else if table_sel =? LATTER_OFFSET then
    gather_bits HALF 0
      (λ i, v ← getTable table_index (i + INTERLEAVE_SIZE / 2); mret (u32 (Z.shiftl v (i * ELEMENT_BITW)))) 0
  else mret 0.
Definition element (data i : Z) : Z := Z.land (Z.shiftr data (i * ELEMENT_BITW)) ELEMENT_MASK.
Definition store_word (offset data client : Z) : M t unit :=
  let table_index := Z.shiftr (Z.land offset INDEX_MASK) INDEX_LSB in
  let table_sel := Z.shiftr (Z.land offset SEL_MASK) SEL_LSB in
  if table_sel =? BITMAP_OFFSET then
    for_range 0 (Z.to_nat INTERLEAVE_SIZE) (λ i, setBitmap table_index i (nz (Z.land (Z.shiftr data i) 0x1)))
  else if table_sel =? FORMAR_OFFSET then
    for_range 0 HALF (λ i, setTable table_index i (element data i))
  else if table_sel =? LATTER_OFFSET then
    for_range 0 HALF (λ i, setTable table_index (i + INTERLEAVE_SIZE / 2) (element data i))
  else mret ().

End DManuTableCtrl.

(** ** The ranges that configure the array *)
Module ConfigCtrl.

Definition RMC_ROW_BITMAP (data : Z) : Z := Z.shiftr (Z.land data 0x3FC00000) 22.
Definition RMC_COL_BITMAP (data : Z) : Z := Z.shiftr (Z.land data 0x003FFC00) 10.
Definition RMC_CONFIG (data : Z) : Z := Z.land data 0x000003FF.
Definition PE_ADDR_LSB : Z := 0x9.

(** [ConfigCtrl::fetch_word]: the ranges are for writing only *)
Definition fetch_word (offset mode client : Z) : M PEArray.t Z := mret 0.
Definition rmc_alu_store_word (offset data client : Z) : M PEArray.t unit :=
  PEArray.config_ALU_RMC (RMC_COL_BITMAP data) (RMC_ROW_BITMAP data) (RMC_CONFIG data).
Definition rmc_se_store_word (offset data client : Z) : M PEArray.t unit :=
  PEArray.config_SE_RMC (RMC_COL_BITMAP data) (RMC_ROW_BITMAP data) (RMC_CONFIG data).
Definition preg_store_word (offset data client : Z) : M PEArray.t unit := PEArray.config_PREG data.
Definition pe_store_word (offset data client : Z) : M PEArray.t unit :=
  PEArray.config_PE (Z.shiftr offset PE_ADDR_LSB) data.
Definition const_fetch_word (offset mode client : Z) : M PEArray.t Z := PEArray.load_const offset.
Definition const_store_word (offset data client : Z) : M PEArray.t unit := PEArray.store_const offset data.

End ConfigCtrl.

(** ** Moving data and delaying stores *)
Module STUnit.

Record st_signal_t := Signal { enable : bool; table_sel : Z; store_addr : Z }.
Definition none : st_signal_t := Signal false 0 0.
Record t := Mk {
  manu : DataManipulator.t;                  (* the base class *)
  max_delay : Z;
  late_signal : list st_signal_t;            (* std::deque *)
  pending_count : Z;
  delay : Z
}.
#[global] Instance eta : Eta t := λ u,
  Mk (manu u) (max_delay u) (late_signal u) (pending_count u) (delay u).
Definition STUnit (manu_ : DataManipulator.t) (max_delay_ : Z) : t :=
  Mk manu_ max_delay_ (replicate (Z.to_nat max_delay_) none) 0 0.

Definition issue (store_addr table_index : Z) : M t unit :=
  late_signal ← gets late_signal;
  STUnit.late_signal <~ Signal true table_index store_addr :: late_signal;;
  n ← gets pending_count; pending_count <~ n + 1.
Definition setDelay (d : Z) : M t unit := delay <~ d.
Definition isWorking (u : t) : bool := 0 <? pending_count u.

End STUnit.

(** The units, the array and the memory bank that [dbank] points to. *)
Module Datapath.
Import DataManipulator STUnit.

Record sys := MkSys {
  ld_unit : DataManipulator.t;
  st_unit : STUnit.t;
  pearray : PEArray.t;
  bank : DoubleBuffer.t
}.
#[global] Instance sys_eta : Eta sys := λ s, MkSys (ld_unit s) (st_unit s) (pearray s) (bank s).
Notation M := (Effects.M sys).

(** The data of the lanes [i ..] of a table entry. *)
Fixpoint launch_data (n : nat) (i : Z) (use_bitmap : list bool) (use_table : list Z) (load_addr : Z) :
    Effects.M DoubleBuffer.t (list Z) :=
  match n with
  | O => mret []
  | S n =>
      b ← from_option (nthz use_bitmap i);
      d ← (if (b : bool)
           then p ← from_option (nthz use_table i);
                DoubleBuffer.fetch_word_from_inner (u32 (load_addr + p * 4))
           else mret 0);
      l ← launch_data n (i + 1) use_bitmap use_table load_addr; mret (d :: l)
  end.
Definition toPEArray (load_addr table_index : Z) : M unit :=
  m ← gets ld_unit;
  when (table_index <? TABLE_ENTRY_SIZE)
    (use_bitmap ← from_option (nthz (bitmap m) table_index);
     use_table ← from_option (nthz (table m) table_index);
     l ← zoom bank (launch_data (Z.to_nat (interleave_size m)) 0 use_bitmap use_table load_addr);
     zoom pearray (PEArray.launch l)).

Definition fromPEArray (store_addr table_index : Z) : M unit :=
  u ← gets st_unit; let m := manu u in
  when (table_index <? TABLE_ENTRY_SIZE)
    (use_bitmap ← from_option (nthz (bitmap m) table_index);
     use_table ← from_option (nthz (table m) table_index);
     gather_data ← zoom pearray PEArray.gather;
     for_range 0 (Z.to_nat (interleave_size m)) (λ i,
       b ← from_option (nthz use_bitmap i);
       when b
         (p ← from_option (nthz use_table i);
          d ← from_option (nthz gather_data p);
          zoom bank (DoubleBuffer.store_word_from_inner (u32 (store_addr + i * 4)) d)))).

(** [STUnit::step] *)
Definition pop_back (l : list st_signal_t) : option (list st_signal_t) :=
  match l with [] => None | _ => Some (removelast l) end.
Definition st_step : M unit :=
  u ← gets st_unit;
  l ← from_option (pop_back (late_signal u));
  let l := if Z.of_nat (length l) <? max_delay u then none :: l else l in
  zoom st_unit (late_signal <~ l);;
  current_signal ← from_option (nthz l (delay u + 1));
  when (enable current_signal)
    (fromPEArray (store_addr current_signal) (table_sel current_signal);;
     n ← gets (λ s, pending_count (st_unit s));
     zoom st_unit (pending_count <~ n - 1)).

End Datapath.

(** ** The microcontroller *)
Module MicroController.
Import Datapath.

Definition REG_SIZE : nat := 16.
Record t := Mk {
  regfile : list Z;                          (* uint16[16] *)
  pc : Z;                                    (* uint32, as those below *)
  launch_addr : Z; launch_incr : Z;
  gather_addr : Z; gather_incr : Z
}.
#[global] Instance eta : Eta t := λ m,
  Mk (regfile m) (pc m) (launch_addr m) (launch_incr m) (gather_addr m) (gather_incr m).

Definition opcode (i : Z) : Z := Z.shiftr (Z.land i 0xF000) 12.
Definition reg_dst (i : Z) : Z := Z.shiftr (Z.land i 0x0F00) 8.
Definition reg_src (i : Z) : Z := Z.shiftr (Z.land i 0x00F0) 4.
Definition func (i : Z) : Z := Z.land i 0x000F.
Definition imm (i : Z) : Z := Z.land i 0x00FF.
Definition s_imm (i : Z) : Z := s8 (Z.land i 0x00FF).
Definition addr (i : Z) : Z := Z.shiftr (Z.land i 0x0FF0) 4.

(** The memory of the instructions and the flag that [done_ptr] points to. *)
Record sys := MkSys { self : t; imem : DoubleBuffer.t; done : bool; path : Datapath.sys }.
#[global] Instance sys_eta : Eta sys := λ s, MkSys (self s) (imem s) (done s) (path s).
Notation M := (Effects.M sys).
Definition get {T} (p : t → T) : M T := gets (λ s, p (self s)).
Definition set {T} (p : t → T) {P : Setter p} (v : T) : M unit := zoom self (p <~ v).
Definition reg (i : Z) : M Z := zoom self (aget regfile i).
Definition set_reg (i v : Z) : M unit := zoom self (aset regfile i v).

Definition reset : M unit :=
  for_range 0 REG_SIZE (λ i, set_reg i 0);;
  set pc 0;; set launch_addr 0;; set launch_incr 0;; set gather_addr 0;; set gather_incr 0.

(** The register instructions; the result is the next [pc]. *)
Definition register_instr (i pc_ next_pc : Z) : M Z :=
  let f := func i in let dst := reg_dst i in let src := reg_src i in
  if f =? 0x1 then a ← reg dst; b ← reg src; set_reg dst (u16 (a + b));; mret next_pc
  else if f =? 0x2 then a ← reg dst; b ← reg src; set_reg dst (u16 (a - b));; mret next_pc
  else if f =? 0x3 then b ← reg src; set_reg dst b;; mret next_pc
  else if f =? 0xE then
    u ← gets (λ s, st_unit (path s));
    if STUnit.isWorking u then mret pc_ else done <~ true;; mret next_pc
  else if f =? 0xF then zoom path (zoom st_unit (STUnit.setDelay dst));; mret next_pc
  else mret next_pc.

(** BEZ, BEZD, BNZ and BNZD. *)
Definition branch (i pc_ next_pc : Z) (on_zero decrement : bool) : M Z :=
  let dst := reg_dst i in
  v ← reg dst;
  if Bool.eqb (v =? 0) on_zero then
    when decrement (v ← reg dst; set_reg dst (u16 (v - 1)));;
    mret (u32 (s16 pc_ + 4 + s_imm i * 4))
  else mret next_pc.

Definition launch_and_store (i : Z) : M unit :=
  la ← get launch_addr; zoom path (toPEArray (u32 (Z.shiftl la 2)) (reg_src i));;
  ga ← get gather_addr; zoom path (zoom st_unit (STUnit.issue (u32 (Z.shiftl ga 2)) (func i)));;
  c ← gets self;
  set launch_addr (u32 (launch_addr c + launch_incr c));;
  set gather_addr (u32 (gather_addr c + gather_incr c)).

Definition step : M unit :=
  p ← get pc;
  let next_pc := u32 (p + 4) in
  w ← zoom imem (DoubleBuffer.fetch_word_from_inner p);
  let i := u16 w in
  let op := opcode i in let dst := reg_dst i in
  next ← (
    if op =? 0x0 then register_instr i p next_pc
    else if op =? 0x3 then set_reg dst (imm i);; mret next_pc
    else if op =? 0x4 then v ← reg dst; set_reg dst (u16 (s16 v + s_imm i));; mret next_pc
    else if op =? 0x7 then launch_and_store i;; mret next_pc
    else if op =? 0x8 then branch i p next_pc true false
    else if op =? 0x9 then branch i p next_pc true true
    else if op =? 0xA then branch i p next_pc false false
    else if op =? 0xB then branch i p next_pc false true
    else if op =? 0xC then set launch_incr (func i);; set launch_addr (addr i);; mret next_pc
    else if op =? 0xD then set gather_incr (func i);; set gather_addr (addr i);; mret next_pc
    else mret next_pc);
  set pc next.

(** The debugger; [sel] is unsigned. *)
Definition debug_fetch_pc : M Z := get pc.
Definition debug_store_pc (data : Z) : M unit := set pc data.
Definition debug_fetch_regfile (sel : Z) : M Z := if sel <? 16 then reg sel else mret 0.
Definition debug_store_regfile (sel data : Z) : M unit := when (sel <? 16) (set_reg sel (u16 data)).

End MicroController.

(** ** The delay of the stores *)
Module Delay.
Import STUnit Datapath.

(** One cycle of the store unit, in which a store may be issued. *)
Definition cycle (i : option (Z * Z)) : M unit :=
  match i with
  | Some (store_addr, table_index) => zoom st_unit (issue store_addr table_index)
  | None => mret ()
  end;;
  st_step.
Definition signal (i : option (Z * Z)) : st_signal_t :=
  match i with Some (a, k) => Signal true k a | None => none end.

Definition LENGTH : nat := 16.
(** What the queue holds after the cycles [hist], the last one first. *)
Definition line (hist : list st_signal_t) : list st_signal_t := take LENGTH (hist ++ replicate LENGTH none).
Definition enabled (l : list st_signal_t) : Z := Z.of_nat (length (filter (λ g, enable g = true) l)).

(** The queue after the cycles [hist]. *)
Record queued (hist : list st_signal_t) (u : t) : Prop := {
  queued_line : late_signal u = line hist;
  queued_max : max_delay u = 16
}.

(** The signal that reaches the memory. *)
Definition due (d : nat) (hist : list st_signal_t) : st_signal_t := default none (hist !! S d).
Definition perform (g : st_signal_t) : M unit := when (enable g) (fromPEArray (store_addr g) (table_sel g)).

Lemma line_length hist : length (line hist) = LENGTH.
Proof. unfold line. rewrite length_take, length_app, length_replicate. unfold LENGTH. lia. Qed.
Lemma line_cons g hist : line (g :: hist) = g :: removelast (line hist).
Proof.
  unfold line at 2. change LENGTH with (S 15) at 1. rewrite removelast_firstn.
  - done.
  - rewrite length_app, length_replicate. unfold LENGTH. lia.
Qed.
Lemma line_nth hist k : (k < 16)%nat → nthz (line hist) (Z.of_nat k) = Some (default none (hist !! k)).
Proof.
  intros Hk. unfold nthz. rewrite (proj2 (Z.ltb_ge _ _)), Nat2Z.id by lia. unfold line.
  rewrite lookup_take_lt by (unfold LENGTH; lia). destruct (decide (k < length hist)%nat) as [Hl|Hl].
  - rewrite lookup_app_l by done. destruct (lookup_lt_is_Some_2 hist k Hl) as [g ->]. done.
  - rewrite lookup_app_r, (lookup_ge_None_2 hist k) by lia. cbn [default].
    rewrite lookup_replicate_2 by (unfold LENGTH; lia). done.
Qed.

Lemma line_out hist k : (16 ≤ k)%nat → nthz (line hist) (Z.of_nat k) = None.
Proof.
  intros Hk. unfold nthz. rewrite (proj2 (Z.ltb_ge _ _)), Nat2Z.id by lia. apply lookup_ge_None.
  rewrite line_length. unfold LENGTH. lia.
Qed.

Lemma enabled_cons g l : enabled (g :: l) = Z.b2z (enable g) + enabled l.
Proof. unfold enabled. rewrite filter_cons. destruct (enable g); cbn [length decide]; case_decide; cbn; lia || done. Qed.
Lemma enabled_app l k : enabled (l ++ k) = enabled l + enabled k.
Proof. unfold enabled. by rewrite filter_app, length_app, Nat2Z.inj_add. Qed.
Lemma enabled_take d g hist :
  enabled (take (S d) (g :: hist)) = enabled (take (S d) hist) + Z.b2z (enable g) - Z.b2z (enable (due d (g :: hist))).
Proof.
  unfold due. cbn [lookup list_lookup take]. change (take (S d) (g :: hist)) with (g :: take d hist). rewrite enabled_cons.
  destruct (hist !! d) as [x|] eqn:E; cbn [default].
  - rewrite (take_S_r _ _ _ E), enabled_app, enabled_cons. change (enabled []) with 0. unfold id. lia.
  - apply lookup_ge_None in E. rewrite !take_ge by lia. cbn. lia.
Qed.

(** The store that a cycle performs reads the array and writes the bank; the unit keeps its
    tables and its queue. *)
Lemma fromPEArray_unit a k : keeps (λ s s', st_unit s' = st_unit s) (fromPEArray a k).
Proof.
  assert (HR : PreOrder (λ s s' : sys, st_unit s' = st_unit s)) by (split; [done|intros ? ? ?; congruence]).
  unfold fromPEArray. repeat keeps1; try (apply (keeps_zoom _ _ (λ _ _, True)); by intros).
  all: intros; repeat keeps1; try (apply (keeps_zoom _ _ (λ _ _, True)); by intros).
Qed.

(** The queue after a cycle's store, if any, is issued. *)
Definition issued (g : st_signal_t) (l : list st_signal_t) : list st_signal_t := if enable g then g :: l else l.
Lemma issued_pop g hist : enable g = true ∨ g = none → ∃ l, pop_back (issued g (line hist)) = Some l ∧
  (if Z.of_nat (length l) <? 16 then none :: l else l) = line (g :: hist).
Proof.
  pose proof (line_length hist) as Hl. rewrite line_cons. unfold issued.
  assert (Hr : length (removelast (line hist)) = 15%nat) by (rewrite removelast_firstn_len, length_take, Hl; done).
  destruct (line hist) as [|x l]; [done|]. intros [Hg| ->].
  - rewrite Hg. exists (g :: removelast (x :: l)). split; [done|].
    cbn [length]. by rewrite Hr.
  - exists (removelast (x :: l)). cbn [enable none]. split; [done|]. by rewrite Hr.
Qed.

(** What one cycle does to the queue, the counter and the array. *)
Lemma delay_cycle_eq d hist s i : queued hist (st_unit s) → delay (st_unit s) = Z.of_nat d →
  let hist' := signal i :: hist in
  let g := due d hist' in
  let s1 := s <| st_unit ::= λ u, u <| late_signal := line hist' |>
                                    <| pending_count ::= λ n, n + Z.b2z (enable (signal i)) |> |> in
  cycle i s = if (d <? 15)%nat then
    match perform g s1 with
    | Some (_, s2, e) => Some ((), s2 <| st_unit ::= λ u, u <| pending_count ::= λ n, n - Z.b2z (enable g) |> |>, e)
    | None => None end
  else None.
Proof.
  intros Q Hd hist' g s1.
  unfold cycle. rewrite (bind_eq _ _ _ () (s <| st_unit ::= λ u, u <| late_signal := issued (signal i) (late_signal u) |>
                               <| pending_count ::= λ n, n + Z.b2z (enable (signal i)) |> |>)).
  2: { destruct i as [[a k]|]; [done|]. destruct s as [? u ? ?]. destruct u. cbn. by rewrite Z.add_0_r. }
  unfold st_step. rewrite gets_bind. cbn [st_unit upd setter_of late_signal max_delay].
  destruct Q as [-> Hm]. rewrite Hm.
  destruct (issued_pop (signal i) hist) as (l & -> & El); [by destruct i as [[]|]; [left|right]|].
  cbn [from_option]. rewrite ret_bind, El. fold hist'.
  erewrite bind_eq; [|reflexivity]. cbn [delay]. rewrite Hd.
  replace (Z.of_nat d + 1) with (Z.of_nat (S d)) by lia.
  destruct (Nat.ltb_spec d 15) as [Hb|Hb]; [rewrite (line_nth hist' (S d)) by lia|rewrite line_out by lia; done].
  cbn [from_option]. rewrite ret_bind. fold (due d hist'). fold g. unfold perform.
  match goal with |- when _ _ ?t = _ => replace t with s1 by (subst s1; cbn; by rewrite Hm, Hd) end. clearbody s1. unfold perform.
  destruct (enable g); cbn [when Z.b2z].
  - unfold bindM at 1. destruct (fromPEArray _ _ s1) as [[[[] s2] e]|]; [|done].
    rewrite gets_bind. cbn. by rewrite app_nil_r.
  - destruct s1 as [? u ? ?]. destruct u. cbn. by rewrite Z.sub_0_r.
Qed.

Lemma working_enabled u l : pending_count u = enabled l →
  isWorking u = false ↔ ∀ g', g' ∈ l → enable g' = false.
Proof.
  unfold isWorking. intros ->. rewrite Z.ltb_ge. split.
  - intros Hn g' Hin. destruct (enable g') eqn:Eg; [|done]. exfalso. unfold enabled in Hn.
    assert (Hf : g' ∈ filter (λ g, enable g = true) l) by (by apply list_elem_of_filter).
    destruct (filter _ l); [by apply not_elem_of_nil in Hf|]. cbn in Hn. lia.
  - intros Hall. unfold enabled. induction l as [|x l IH]; [done|]. rewrite filter_cons, (Hall x) by (by left).
    apply IH. intros g' Hg'. apply Hall. by right.
Qed.

(** C13 delayed stores: in a cycle in which the delay is [d] < 15, exactly the store that was
    issued [d] + 1 cycles before is performed, if there was one, with the data of the array at
    that time and whatever was issued meanwhile; with a delay of 15 or more the cycle reads out
    of the queue and is undefined. As long as the delay does not change (the counter then holds
    the stores of the last [d] + 1 cycles, which a cycle keeps), the unit counts as working
    exactly while a store that was issued is not performed. A delay that changes while stores
    wait repeats or drops some of them, since the queue is read at another place. *)
Theorem delayed_stores (d : nat) (hist : list st_signal_t) (s : sys) (i : option (Z * Z))
    (Q : queued hist (st_unit s)) (D : delay (st_unit s) = Z.of_nat d) :
  let hist' := signal i :: hist in
  let g := due d hist' in
  let s1 := s <| st_unit ::= λ u, u <| late_signal := line hist' |>
                                    <| pending_count ::= λ n, n + Z.b2z (enable (signal i)) |> |> in
  (cycle i s = if (d <? 15)%nat then
     match perform g s1 with
     | Some (_, s2, e) => Some ((), s2 <| st_unit ::= λ u, u <| pending_count ::= λ n, n - Z.b2z (enable g) |> |>, e)
     | None => None end
   else None) ∧
  ∀ u s' e, cycle i s = Some (u, s', e) → queued hist' (st_unit s') ∧ delay (st_unit s') = delay (st_unit s) ∧
    (pending_count (st_unit s) = enabled (take (S d) hist) →
       pending_count (st_unit s') = enabled (take (S d) hist') ∧
       (isWorking (st_unit s') = false ↔ ∀ g', g' ∈ take (S d) hist' → enable g' = false)).
Proof.
  intros hist' g s1. pose proof (delay_cycle_eq d hist s i Q D) as E. cbv zeta in E. fold hist' in E. fold g in E. fold s1 in E.
  split; [exact E|]. intros u s' e Es. rewrite E in Es. destruct (d <? 15)%nat; [|done].
  destruct (perform g s1) as [[[[] s2] e2]|] eqn:Ep; [|done]. injection Es as _ Es _.
  assert (Hu : st_unit s2 = st_unit s1).
  { unfold perform in Ep. destruct (enable g); [by apply (fromPEArray_unit _ _ _ _ _ _ Ep)|by injection Ep as <-]. }
  assert (Hs : st_unit s' = (st_unit s1) <| pending_count ::= λ n, n - Z.b2z (enable g) |>)
    by (rewrite <- Es; cbn; by rewrite Hu).
  rewrite Hs. destruct Q as [_ Hm]. split; [by split|]. split; [done|]. intros Hp.
  assert (Hp' : pending_count ((st_unit s1) <| pending_count ::= λ n, n - Z.b2z (enable g) |>) =
    enabled (take (S d) hist')).
  { pose proof (enabled_take d (signal i) hist) as Ht. fold hist' g in Ht. subst s1 g; cbn in *. lia. }
  split; [exact Hp'|by apply working_enabled].
Qed.

Lemma initial_queued m : queued [] (STUnit m 16).
Proof. done. Qed.

Lemma outcome_Some (r : option (unit * sys * list exc_event)) (Q : sys → Prop) :
  match r with Some (_, s', e) => e = [] ∧ Q s' | None => False end → ∃ s', r = Some ((), s', []) ∧ Q s'.
Proof. destruct r as [[[[] s'] e]|]; [|done]. intros [-> ?]. by exists s'. Qed.

(** A store is issued three cycles before the cycle that performs it. *)
Lemma delayed_stores_witness :
  let m := DataManipulator.DataManipulator (replicate 16 (replicate 12 true)) (replicate 16 (seqZ 0 12)) 12 in
  let b := DoubleBuffer.DoubleBuffer 64 0x1FFFFFF [] in
  let o i := PEArray.Obj PEArray.MemStoreUnitc [] [] [100 + i] in
  let a := PEArray.Mk 8 12 1 4 2 (list_to_map ((λ i, (PEArray.GATHER i, o i)) <$> seqZ 0 12)) false [] in
  let hist := [none; none; Signal true 3 4] in
  let u := (STUnit m 16) <| delay := 2 |> <| late_signal := line hist |> <| pending_count := 1 |> in
  let s := MkSys m u a b in
  due 2 (none :: hist) = Signal true 3 4 ∧
  ∃ s', cycle None s = Some ((), s', []) ∧ isWorking (st_unit s') = false ∧
    DoubleBuffer.inner (bank s') = 0 :: ((λ i, 100 + i) <$> seqZ 0 12) ++ [0; 0; 0].
Proof.
  intros m b o a hist u s. split; [reflexivity|].
  assert (Q : queued hist (st_unit s)) by (split; reflexivity).
  assert (H : match cycle None s with Some (_, s', e) => e = [] ∧ DoubleBuffer.inner (bank s') =
      0 :: ((λ i, 100 + i) <$> seqZ 0 12) ++ [0; 0; 0] | None => False end) by (vm_compute; by split).
  destruct (delayed_stores 2 hist s None Q eq_refl) as [_ Hf].
  apply outcome_Some in H as (s' & E & H).
  exists s'. split; [exact E|]. split; [|exact H].
  apply (Hf () s' [] E); [reflexivity|]. intros g Hg. change (g ∈ [none; none; none]) in Hg. rewrite !elem_of_cons in Hg.
  destruct Hg as [->|[->|[->|Hg]]]; [reflexivity..|]. exfalso. exact (not_elem_of_nil _ Hg).
Defined.

End Delay.
