(* ===== verification/Cma.v ===== *)
(** * Cma: the CMA accelerator (cma.h, cma.cc, cmaAddressMap.h)

    The array, its units and microcontroller, two banks of data and the memory of the
    instructions, behind the local bus of an accelerator. *)

From S2P Require Import Prelude Effects Types Range Router Accel DBuf AccDebug CmaArray CmaControl.
Import NetworkInterfaceConfig.

(** ** The accelerator *)
Module CMA.

(** The objects behind the local bus, and those that only the core reaches.  The ranges
    without a record of their own have their bases in [bases]. *)
Record store := MkStore {
  dmem_front : DoubleBuffer.t;
  dmem_back : DoubleBuffer.t;
  imem : DoubleBuffer.t;
  ld_unit : DataManipulator.t;
  st_unit : STUnit.t;
  pearray : PEArray.t;
  ctrl_reg : ControlReg.t;
  nic : NetworkInterfaceConfig.t;
  bases : gmap Z Z
}.
#[global] Instance store_eta : Eta store := λ w,
  MkStore (dmem_front w) (dmem_back w) (imem w) (ld_unit w) (st_unit w) (pearray w) (ctrl_reg w)
    (nic w) (bases w).

(** [dbank] points to [dmem_front] or to [dmem_back]. *)
Record chip := MkChip {
  mc : MicroController.t;
  mc_done : bool; mc_working : bool; done_notif : bool;
  dbank_front : bool;
  trgr_cnd : Z; trgr_mod : Z; trgr_offset : Z;        (* uint8 *)
  debug_op : Z;                                       (* uint8 *)
  trgr_arg : Z; resp_data : Z                         (* uint32 *)
}.
#[global] Instance chip_eta : Eta chip := λ c,
  MkChip (mc c) (mc_done c) (mc_working c) (done_notif c) (dbank_front c) (trgr_cnd c) (trgr_mod c)
    (trgr_offset c) (debug_op c) (trgr_arg c) (resp_data c).

(** ** The address map *)
Definition DWORD_MASK : Z := 0x1FFFFFF.
Definition IWORD_MASK : Z := 0xFFFF.
Definition DBANK0_ADDR : Z := 0x000000.
Definition DBANK1_ADDR : Z := 0x001000.
Definition IMEM_ADDR : Z := 0x002000.
Definition CONST_ADDR : Z := 0x003000.
Definition CTRL_ADDR : Z := 0x004000.
Definition LD_TABLE_ADDR : Z := 0x005000.
Definition ST_TABLE_ADDR : Z := 0x006000.
Definition ALU_RMC_ADDR : Z := 0x200000.
Definition SE_RMC_ADDR : Z := 0x210000.
Definition PREG_CONF_ADDR : Z := 0x260000.
Definition PE_CONF_ADDR : Z := 0x280000.
Definition NIF_CONFIG_SIZE : Z := 0x900.

(** The ranges and their numbers. *)
Inductive range := Nic | DMemFront | DMemBack | IMem | Const | LdTbl | StTbl | Ctrl | RmcAlu | RmcSe | PeConf | PregConf.
#[global] Instance range_eq_dec : EqDecision range.
Proof. solve_decision. Defined.
Definition ranges : list range :=
  [Nic; DMemFront; DMemBack; IMem; Const; LdTbl; StTbl; Ctrl; RmcAlu; RmcSe; PeConf; PregConf].
Definition number (r : range) : Z :=
  match r with
  | Nic => 0 | DMemFront => 1 | DMemBack => 2 | IMem => 3 | Const => 4 | LdTbl => 5
  | StTbl => 6 | Ctrl => 7 | RmcAlu => 8 | RmcSe => 9 | PeConf => 10 | PregConf => 11
  end.
Definition range_of (r : Z) : option range := nthz ranges r.
Definition size_of (r : range) : Z :=
  match r with
  | Nic => NIF_CONFIG_SIZE | DMemFront => 0x1000 | DMemBack => 0x1000 | IMem => 0x400
  | Const => 0x40 * 2 | LdTbl => 0x100 | StTbl => 0x100 | Ctrl => 0x4
  | RmcAlu => 0x100 | RmcSe => 0x100 | PeConf => 0xC000 | PregConf => 0x4
  end.

Definition fetch_word (r : Z) (offset mode client : Z) : M store Z :=
  match range_of r with
  | Some Nic => zoom nic (NetworkInterfaceConfig.fetch_word offset mode client)
  | Some DMemFront => zoom dmem_front (DoubleBuffer.fetch_word offset mode client)
  | Some DMemBack => zoom dmem_back (DoubleBuffer.fetch_word offset mode client)
  | Some IMem => zoom imem (DoubleBuffer.fetch_word offset mode client)
  | Some Const => zoom pearray (ConfigCtrl.const_fetch_word offset mode client)
  | Some LdTbl => zoom ld_unit (DManuTableCtrl.fetch_word offset mode client)
  | Some StTbl => zoom st_unit (zoom STUnit.manu (DManuTableCtrl.fetch_word offset mode client))
  | Some Ctrl => zoom ctrl_reg (ControlReg.fetch_word offset mode client)
  | Some (RmcAlu | RmcSe | PeConf | PregConf) => zoom pearray (ConfigCtrl.fetch_word offset mode client)
  | None => crash
  end.
Definition store_word (r : Z) (offset data client : Z) : M store unit :=
  match range_of r with
  | Some Nic => zoom nic (NetworkInterfaceConfig.store_word offset data client)
  | Some DMemFront => zoom dmem_front (DoubleBuffer.store_word offset data client)
  | Some DMemBack => zoom dmem_back (DoubleBuffer.store_word offset data client)
  | Some IMem => zoom imem (DoubleBuffer.store_word offset data client)
  | Some Const => zoom pearray (ConfigCtrl.const_store_word offset data client)
  | Some LdTbl => zoom ld_unit (DManuTableCtrl.store_word offset data client)
  | Some StTbl => zoom st_unit (zoom STUnit.manu (DManuTableCtrl.store_word offset data client))
  | Some Ctrl => zoom ctrl_reg (ControlReg.store_word offset data client)
  | Some RmcAlu => zoom pearray (ConfigCtrl.rmc_alu_store_word offset data client)
  | Some RmcSe => zoom pearray (ConfigCtrl.rmc_se_store_word offset data client)
  | Some PeConf => zoom pearray (ConfigCtrl.pe_store_word offset data client)
  | Some PregConf => zoom pearray (ConfigCtrl.preg_store_word offset data client)
  | None => crash
  end.

(** The local bus makes accesses of words only. *)
#[local] Instance ops : RangeOps store := {|
  getBase w r :=
    match range_of r with
    | Some DMemFront => DoubleBuffer.base (dmem_front w)
    | Some DMemBack => DoubleBuffer.base (dmem_back w)
    | Some IMem => DoubleBuffer.base (imem w)
    | _ => default 0 (bases w !! r)
    end;
  getExtent w r :=
    match range_of r with
    | Some DMemFront => DoubleBuffer.extent (dmem_front w)
    | Some DMemBack => DoubleBuffer.extent (dmem_back w)
    | Some IMem => DoubleBuffer.extent (imem w)
    | Some r => size_of r
    | None => 0
    end;
  setBase r a :=
    match range_of r with
    | Some DMemFront => zoom dmem_front (DoubleBuffer.base <~ a)
    | Some DMemBack => zoom dmem_back (DoubleBuffer.base <~ a)
    | Some IMem => zoom imem (DoubleBuffer.base <~ a)
    | _ => modify (λ w, w <| bases ::= <[r := a]> |>)
    end;
  canRead w r o :=
    match range_of r with Some (RmcAlu | RmcSe | PeConf | PregConf) => false | _ => true end;
  canWrite w r o := true;
  r_fetch_word := fetch_word;
  r_fetch_halfword r o cl := crash;
  r_fetch_byte r o cl := crash;
  r_store_word := store_word;
  r_store_halfword r o d cl := crash;
  r_store_byte r o d cl := crash;
  r_ready r a mode cl := mret true;
  r_extra_latency w r := 0
|}.
#[local] Instance has_nif : HasNif store := {| nif_of w := Some (nic w); set_nif c w := w <| nic := c |> |}.

(** ** Building it *)
Section Setup.
  (** What the memory of new objects holds. *)
  Context (raw_bitmap : bool → list (list bool)) (raw_table : bool → list (list Z)) (raw_done : bool)
    (raw_array : PEArray.t) (raw_nic : NetworkInterfaceConfig.t) (raw_chip : chip).

Definition WIDTH : Z := 12.
Definition HEIGHT : Z := 8.
Definition new_unit (store_side : bool) : DataManipulator.t :=
  DataManipulator.DataManipulator (raw_bitmap store_side) (raw_table store_side) WIDTH.
Definition new_store : store :=
  MkStore (DoubleBuffer.DoubleBuffer (size_of DMemFront) DWORD_MASK [])
    (DoubleBuffer.DoubleBuffer (size_of DMemBack) DWORD_MASK [])
    (DoubleBuffer.DoubleBuffer (size_of IMem) IWORD_MASK [])
    (new_unit false) (STUnit.STUnit (new_unit true) 16) raw_array (ControlReg.ControlReg raw_done) raw_nic ∅.
Definition new_chip : chip :=
  raw_chip <| dbank_front := true |> <| debug_op := DebuggerClient.CMD_NOP |> <| resp_data := 0 |>.

(** [CMA::CMA] after [CubeAccelerator::CubeAccelerator], with its DMA; and the address map
    of [setup].  The ranges that overlap are left out, with a message. *)
Definition NIF_CONFIG_BASE : Z := 0x04100.
Definition CMA : M (LocalMapper.t store) Z :=
  modify (λ _, LocalMapper.LocalMapper new_store);;
  CubeAccelerator.setup_config (number Nic) NIF_CONFIG_BASE true.
Definition map_at (r : range) (a : Z) : M (LocalMapper.t store) unit :=
  LocalMapper.map_at_local_address (number r) (u32 a);; mret ().
Definition address_map : list (range * Z) :=
  [(DMemFront, DBANK0_ADDR); (DMemBack, DBANK1_ADDR); (IMem, IMEM_ADDR); (Const, CONST_ADDR);
   (LdTbl, LD_TABLE_ADDR); (StTbl, ST_TABLE_ADDR); (Ctrl, CTRL_ADDR);
   (RmcAlu, ALU_RMC_ADDR); (RmcSe, SE_RMC_ADDR); (PeConf, PE_CONF_ADDR); (PregConf, PREG_CONF_ADDR)].
Definition setup : M (LocalMapper.t store) unit :=
  zoom LocalMapper.store (zoom pearray (PEArray.CCSOTB2_PEArray HEIGHT WIDTH));;
  for_each address_map (λ r, map_at r.1 r.2).

End Setup.

(** ** The cycle of the core *)
Notation sys := (CubeAccelerator.sys store chip).
Notation M := (Effects.M sys).

Definition store_of (s : sys) : store := LocalMapper.store (CubeAccelerator.localBus s).
Definition chip_of (s : sys) : chip := CubeAccelerator.core s.
Definition on_store {A} (m : Effects.M store A) : M A := zoom CubeAccelerator.localBus (zoom LocalMapper.store m).
Definition on_chip {A} (m : Effects.M chip A) : M A := zoom CubeAccelerator.core m.
Definition ctrl {A} (m : Effects.M ControlReg.t A) : M A := on_store (zoom ctrl_reg m).

(** The objects that the microcontroller points to. *)
Definition view (c : chip) (w : store) : MicroController.sys :=
  MicroController.MkSys (mc c) (imem w) (mc_done c)
    (Datapath.MkSys (ld_unit w) (st_unit w) (pearray w) (if dbank_front c then dmem_front w else dmem_back w)).
Definition put_chip (m : MicroController.sys) (c : chip) : chip :=
  c <| mc := MicroController.self m |> <| mc_done := MicroController.done m |>.
Definition put_store (front : bool) (m : MicroController.sys) (w : store) : store :=
  let p := MicroController.path m in
  let w := w <| imem := MicroController.imem m |> <| ld_unit := Datapath.ld_unit p |>
             <| st_unit := Datapath.st_unit p |> <| pearray := Datapath.pearray p |> in
  if front then w <| dmem_front := Datapath.bank p |> else w <| dmem_back := Datapath.bank p |>.
Definition put (m : MicroController.sys) (s : sys) : sys :=
  s <| CubeAccelerator.core ::= put_chip m |>
    <| CubeAccelerator.localBus ::= λ l, l <| LocalMapper.store ::= put_store (dbank_front (chip_of s)) m |> |>.
Definition on_mc {A} (m : Effects.M MicroController.sys A) : M A := λ s,
  match m (view (chip_of s) (store_of s)) with
  | None => None
  | Some (a, m', e) => Some (a, put m' s, e)
  end.

Definition dmem_switch : M unit :=
  b ← ctrl (gets ControlReg.bank_sel);
  if b =? 0 then on_store (zoom dmem_front DoubleBuffer.buf_switch)
  else on_store (zoom dmem_back DoubleBuffer.buf_switch).

Section Addresses.
  (** All objects of the array in the order of their addresses. *)
  Variable addresses : list PEArray.node.

(** A cycle of the microcontroller, the array and the delayed stores. *)
Definition work : Effects.M MicroController.sys unit :=
  MicroController.step;;
  zoom MicroController.path (zoom Datapath.pearray (PEArray.exec addresses));;
  zoom MicroController.path Datapath.st_step.

Definition kick : M unit :=
  on_store (zoom imem DoubleBuffer.buf_switch);;
  dmem_switch;;
  b ← ctrl (gets ControlReg.bank_sel);
  on_chip (dbank_front <~ (b =? 0));;
  on_chip (mc_working <~ true);;
  on_chip (done_notif <~ false);;
  ctrl ControlReg.negateDone.
Definition finish : M unit :=
  dmem_switch;;
  on_store (zoom imem DoubleBuffer.buf_switch);;
  d ← ctrl (gets ControlReg.donedma);
  CubeAccelerator.done_signal d;;
  ctrl ControlReg.assertDone;;
  on_chip (done_notif <~ true).
Definition stop : M unit :=
  on_chip (mc_done <~ false);;
  on_chip (mc_working <~ false);;
  on_mc MicroController.reset.

Definition core_step : M unit :=
  run ← ctrl (gets ControlReg.run);
  if (run : bool) then
    working ← on_chip (gets mc_working);
    when (negb working) kick;;
    d ← on_chip (gets mc_done);
    if (d : bool) then
      n ← on_chip (gets done_notif);
      when (negb n) finish
    else on_mc work
  else stop.

Definition core_reset : M unit :=
  on_chip (mc_working <~ false);;
  on_mc MicroController.reset.

(** ** The debugger *)
Definition MOD_PC : Z := 0.
Definition MOD_RF : Z := 1.
Definition MOD_LR : Z := 2.
Definition MOD_GR : Z := 3.
Definition on_array {A} (m : Effects.M PEArray.t A) : M A := on_store (zoom pearray m).
Definition alu_part (mod_ : Z) : bool :=
  (mod_ =? PEArray.MOD_ALU_L) || (mod_ =? PEArray.MOD_ALU_R) || (mod_ =? PEArray.MOD_ALU_O).
Definition debug_fetch (mod_ offset : Z) : M Z :=
  if mod_ =? MOD_PC then on_mc MicroController.debug_fetch_pc
  else if mod_ =? MOD_RF then on_mc (MicroController.debug_fetch_regfile offset)
  else if mod_ =? MOD_LR then on_array (PEArray.debug_fetch_launch offset)
  else if mod_ =? MOD_GR then on_array (PEArray.debug_fetch_gather offset)
  else if alu_part mod_ then on_array (PEArray.debug_fetch_ALU offset mod_)
  else mret 0.
Definition debug_store (mod_ offset data : Z) : M unit :=
  if mod_ =? MOD_PC then on_mc (MicroController.debug_store_pc data)
  else if mod_ =? MOD_RF then on_mc (MicroController.debug_store_regfile offset data)
  else if mod_ =? MOD_LR then on_array (PEArray.debug_store_launch offset data)
  else if mod_ =? MOD_GR then on_array (PEArray.debug_store_gather offset data)
  else if alu_part mod_ then on_array (PEArray.debug_store_ALU offset mod_ data)
  else mret ().

Definition send_commnad (cmd arg : Z) : M unit :=
  let '(op, func, mod_, offset) := DebuggerClient.cmd_parser cmd in
  on_chip (debug_op <~ op);;
  if op =? DebuggerClient.CMD_SETTRG_OP then
    on_chip (trgr_arg <~ arg;; trgr_cnd <~ func;; trgr_mod <~ mod_;; trgr_offset <~ offset)
  else if op =? DebuggerClient.CMD_WRITE_OP then debug_store mod_ offset arg
  else if op =? DebuggerClient.CMD_READ_OP then
    d ← debug_fetch mod_ offset; on_chip (resp_data <~ d)
  else on_chip (debug_op <~ DebuggerClient.CMD_NOP).
Definition isTriggered : M bool :=
  c ← gets chip_of;
  mod_val ← debug_fetch (trgr_mod c) (trgr_offset c);
  mret (DebuggerClient.compare mod_val (trgr_arg c) (trgr_cnd c)).
Definition get_dbg_data : M Z := gets (λ s, resp_data (chip_of s)).

(** ** Properties *)

(** [k] cycles of a program that has not finished before the last of them, and [n] cycles of
    the core. *)
Fixpoint program (k : nat) : Effects.M MicroController.sys unit :=
  match k with
  | O => mret ()
  | S k => program k;; d ← gets MicroController.done; if (d : bool) then crash else work
  end.
Fixpoint steps (n : nat) : M unit :=
  match n with O => mret () | S n => steps n;; core_step end.

Definition switched := DoubleBuffer.switched.
Definition front_selected (s : sys) : bool := ControlReg.bank_sel (ctrl_reg (store_of s)) =? 0.
Definition bank_of (front : bool) (w : store) : DoubleBuffer.t := if front then dmem_front w else dmem_back w.
Definition set_bank (front : bool) (b : DoubleBuffer.t) (w : store) : store :=
  if front then w <| dmem_front := b |> else w <| dmem_back := b |>.

(** A program sees the units, the array and the instructions and data that the bus wrote. *)
Definition started (s : sys) : MicroController.sys :=
  let w := store_of s in
  MicroController.MkSys (mc (chip_of s)) (switched (imem w)) false
    (Datapath.MkSys (ld_unit w) (st_unit w) (pearray w) (switched (bank_of (front_selected s) w))).

(** The accelerator with the program of [s] in the state [m], and after its end. *)
Definition running (s : sys) (m : MicroController.sys) : sys :=
  s <| CubeAccelerator.core ::= λ c, put_chip m c <| mc_working := true |> <| done_notif := false |>
                                       <| dbank_front := front_selected s |> |>
    <| CubeAccelerator.localBus ::= λ l, l <| LocalMapper.store ::= λ w,
         put_store (front_selected s) m w <| ctrl_reg ::= λ c, c <| ControlReg.done := false |> |> |> |>.
Definition finished (s : sys) (m : MicroController.sys) : sys :=
  let p := MicroController.path m in
  s <| CubeAccelerator.core ::= λ c, c <| mc := MicroController.self m |> <| mc_done := true |> <| mc_working := true |>
                                       <| done_notif := true |> <| dbank_front := front_selected s |> |>
    <| CubeAccelerator.self ::= λ a, a <| CubeAccelerator.done_pending := true |>
         <| CubeAccelerator.dma_after_done_en := ControlReg.donedma (ctrl_reg (store_of s)) |> |>
    <| CubeAccelerator.localBus ::= λ l, l <| LocalMapper.store ::= λ w,
         set_bank (front_selected s) (switched (Datapath.bank p))
           (w <| ld_unit := Datapath.ld_unit p |> <| st_unit := Datapath.st_unit p |> <| pearray := Datapath.pearray p |>
              <| ctrl_reg ::= λ c, c <| ControlReg.done := true |> |>) |> |>.
Definition idle (s : sys) : Prop := mc_working (chip_of s) = false ∧ mc_done (chip_of s) = false.
Definition run_bit (s : sys) : bool := ControlReg.run (ctrl_reg (store_of s)).

Definition same_imem (s s' : MicroController.sys) : Prop := MicroController.imem s' = MicroController.imem s.
#[local] Instance same_imem_po : PreOrder same_imem.
Proof. split; [done|]. unfold same_imem. intros ? ? ?. congruence. Qed.
Lemma fetch_inner_eq o : keeps eq (DoubleBuffer.fetch_word_from_inner o).
Proof. unfold DoubleBuffer.fetch_word_from_inner. keeps_tac. Qed.
Lemma keeps_imem_zoom {A} (m : Effects.M DoubleBuffer.t A) : keeps eq m → keeps same_imem (zoom MicroController.imem m).
Proof. intros Hm. apply (keeps_zoom _ _ _ _ Hm). by intros s t <-. Qed.
Lemma keeps_imem_self {A} (m : Effects.M MicroController.t A) : keeps same_imem (zoom MicroController.self m).
Proof. by apply (keeps_zoom _ _ (λ _ _, True)). Qed.
Lemma keeps_imem_path {A} (m : Effects.M Datapath.sys A) : keeps same_imem (zoom MicroController.path m).
Proof. by apply (keeps_zoom _ _ (λ _ _, True)). Qed.
#[local] Hint Resolve keeps_imem_self keeps_imem_path fetch_inner_eq keeps_imem_zoom : keeps.

Lemma imem_work : keeps same_imem work.
Proof.
  unfold work, MicroController.step, MicroController.register_instr, MicroController.branch, MicroController.launch_and_store,
    MicroController.set_reg, MicroController.reg, MicroController.set, MicroController.get.
  keeps_tac.
Qed.
Lemma imem_program k : keeps same_imem (program k).
Proof. induction k as [|k IH]; cbn [program]; [apply keeps_ret; apply _|]. pose proof imem_work. keeps_tac. Qed.

Ltac open_sys s :=
  destruct s as [? ? ? [? ? [? ? ? ? ? ? [? ? b ?] ? ?]] []];
  cbv delta [run_bit front_selected view running finished started put put_store put_chip set_bank bank_of store_of chip_of] in *;
  cbn in *; destruct (b =? 0) eqn:Hsel; cbn in *.
Lemma ctrl_gets {A} (f : ControlReg.t → A) s : ctrl (gets f) s = Some (f (ctrl_reg (store_of s)), s, []).
Proof. by open_sys s. Qed.
Lemma chip_gets {A} (f : chip → A) s : on_chip (gets f) s = Some (f (chip_of s), s, []).
Proof. by open_sys s. Qed.

(** What the cycles of a program do not change. *)
Lemma running_eq s m :
  view (chip_of (running s m)) (store_of (running s m)) = m ∧ run_bit (running s m) = run_bit s ∧
  mc_working (chip_of (running s m)) = true ∧ mc_done (chip_of (running s m)) = MicroController.done m ∧
  done_notif (chip_of (running s m)) = false.
Proof.
  destruct m as [? ? ? []]. by open_sys s.
Qed.
Lemma put_running s m m' : put m' (running s m) = running s m'.
Proof.
  destruct m as [? ? ? []], m' as [? ? ? []]. by open_sys s.
Qed.

(** A cycle before the end of the program. *)
Lemma core_step_work s m m' e : MicroController.done m = false → run_bit s = true → work m = Some ((), m', e) →
  core_step (running s m) = Some ((), running s m', e).
Proof.
  intros Hd Hr E. destruct (running_eq s m) as (Hv & Hr' & Hw & Hc & _). rewrite <- Hr' in Hr. unfold run_bit in Hr.
  unfold core_step. rewrite (bind_eq _ _ _ _ _ (ctrl_gets _ _)), Hr, (bind_eq _ _ _ _ _ (chip_gets _ _)), Hw.
  cbn [negb when]. rewrite ret_bind, (bind_eq _ _ _ _ _ (chip_gets _ _)), Hc, Hd. unfold on_mc.
  by rewrite Hv, E, put_running.
Qed.

(** The first cycle hands the memories over. *)
Lemma kick_eq s : idle s → kick s = Some ((), running s (started s), []).
Proof.
  intros [Hw Hd]. unfold kick, dmem_switch, ctrl, on_store, on_chip.
  open_sys s; subst; unfold zoom, bindM, gets, modify, assign, mret, M_ret; cbn; repeat (rewrite Hsel; cbn); reflexivity.
Qed.
Lemma core_step_kick s m' e : idle s → run_bit s = true → work (started s) = Some ((), m', e) →
  core_step s = Some ((), running s m', e).
Proof.
  intros Hi Hr E. destruct (running_eq s (started s)) as (Hv & _ & _ & Hc & _). unfold run_bit in Hr.
  unfold core_step. rewrite (bind_eq _ _ _ _ _ (ctrl_gets _ _)), Hr, (bind_eq _ _ _ _ _ (chip_gets _ _)), (proj1 Hi).
  cbn [negb when]. rewrite (bind_eq _ _ _ _ _ (kick_eq s Hi)), (bind_eq _ _ _ _ _ (chip_gets _ _)), Hc.
  cbn [started MicroController.done]. unfold on_mc. by rewrite Hv, E, put_running.
Qed.

(** The end hands them back and notifies. *)
Lemma core_step_finish s m : MicroController.done m = true → run_bit s = true → 
  MicroController.imem m = switched (imem (store_of s)) →
  core_step (running s m) = Some ((), finished s m, []).
Proof.
  intros Hd Hr Hm. destruct (running_eq s m) as (_ & Hr' & Hw & Hc & Hn). rewrite <- Hr' in Hr. unfold run_bit in Hr.
  unfold core_step. rewrite (bind_eq _ _ _ _ _ (ctrl_gets _ _)), Hr, (bind_eq _ _ _ _ _ (chip_gets _ _)), Hw.
  cbn [negb when]. rewrite ret_bind, (bind_eq _ _ _ _ _ (chip_gets _ _)), Hc, Hd, (bind_eq _ _ _ _ _ (chip_gets _ _)), Hn.
  cbn [negb when]. clear Hr Hr' Hw Hc Hn.
  unfold finish, dmem_switch, ctrl, on_store, on_chip, CubeAccelerator.done_signal, CubeAccelerator.set.
  destruct m as [? im ? []]. open_sys s; subst; unfold zoom, bindM, gets, modify, assign, mret, M_ret; cbn; repeat (rewrite Hsel; cbn).
  all: rewrite negb_involutive; by destruct imem0.
Qed.

Definition fresh_mc : MicroController.t := MicroController.Mk (replicate 16 0) 0 0 0 0 0.
Lemma reset_eq m : length (MicroController.regfile (MicroController.self m)) = 16%nat →
  MicroController.reset m = Some ((), m <| MicroController.self := fresh_mc |>, []).
Proof.
  destruct m as [[l ? ? ? ? ?] ? ? ?]. cbn [MicroController.self MicroController.regfile]. intros Hl.
  do 16 (destruct l as [|? l]; [discriminate|]). destruct l; [reflexivity|discriminate].
Qed.
(** A cleared run bit resets the microcontroller and touches nothing else. *)
Definition stopped (s : sys) : sys :=
  s <| CubeAccelerator.core ::= λ c, c <| mc := fresh_mc |> <| mc_done := false |> <| mc_working := false |> |>.
Lemma core_step_stop s : run_bit s = false → length (MicroController.regfile (mc (chip_of s))) = 16%nat →
  core_step s = Some ((), stopped s, []).
Proof.
  intros Hr Hl. unfold core_step, run_bit in *. rewrite (bind_eq _ _ _ _ _ (ctrl_gets _ _)), Hr. unfold stop, on_chip, on_mc.
  do 2 (erewrite bind_eq; [|reflexivity]). rewrite reset_eq by exact Hl.
  unfold stopped, put, put_store, view. destruct s as [? ? ? [? ? []] []]. cbn. by destruct dbank_front0.
Qed.

Lemma program_running s k m e : idle s → run_bit s = true → (0 < k)%nat → program k (started s) = Some ((), m, e) →
  steps k s = Some ((), running s m, e).
Proof.
  intros Hi Hr. revert m e. induction k as [|k IH]; [lia|]. intros m e _ E. cbn [program] in E.
  apply mbind_Some in E as ([] & m1 & e1 & e2 & E1 & E & ->). rewrite gets_bind in E.
  destruct (MicroController.done m1) eqn:Hd; [done|].
  change (bindM (steps k) (λ _, core_step) s = Some ((), running s m, e1 ++ e2)). destruct k as [|k].
  - injection E1 as <- <-. cbn [steps]. rewrite ret_bind. exact (core_step_kick s m e2 Hi Hr E).
  - unfold bindM. rewrite (IH m1 e1 ltac:(lia) E1). by rewrite (core_step_work s m1 m e2 Hd Hr E).
Qed.

(** C11 runs of the CMA: when the run bit is set, the microcontroller, the array and the
    delayed stores work, cycle by cycle, on the instructions and on the data of the selected
    bank that the bus has written, and nothing else changes; in the cycle after the program's
    end the memories are handed back, the done register is set and exactly one
    notification is raised, with the DMA that the control register asks for; then nothing
    changes until the run bit is cleared, which makes the accelerator ready for the next
    program. *)
Theorem cma_runs (s : sys) (k : nat) (m : MicroController.sys) (e : list exc_event)
    (Hi : idle s) (Hr : run_bit s = true) (Hk : (0 < k)%nat) (E : program k (started s) = Some ((), m, e)) :
  steps k s = Some ((), running s m, e) ∧
  CubeAccelerator.self (running s m) = CubeAccelerator.self s ∧
  (MicroController.done m = true →
     core_step (running s m) = Some ((), finished s m, []) ∧
     core_step (finished s m) = Some ((), finished s m, []) ∧
     imem (store_of (finished s m)) = imem (store_of s) ∧
     DoubleBuffer.outer (bank_of (front_selected s) (store_of (finished s m))) =
       DoubleBuffer.inner (Datapath.bank (MicroController.path m)) ∧
     bank_of (negb (front_selected s)) (store_of (finished s m)) = bank_of (negb (front_selected s)) (store_of s)) ∧
  (∀ s', run_bit s' = false → length (MicroController.regfile (mc (chip_of s'))) = 16%nat →
     core_step s' = Some ((), stopped s', []) ∧ idle (stopped s')).
Proof.
  split; [by apply program_running|]. split; [done|]. split.
  - intros Hd. split.
    { apply core_step_finish; [done..|]. by rewrite (imem_program k _ _ _ _ E). }
    split.
    { unfold core_step. rewrite (bind_eq _ _ _ _ _ (ctrl_gets _ _)).
      replace (ControlReg.run _) with true by (rewrite <- Hr; by open_sys s).
      rewrite (bind_eq _ _ _ _ _ (chip_gets _ _)). change (mc_working (chip_of (finished s m))) with true.
      cbn [negb when]. rewrite ret_bind, (bind_eq _ _ _ _ _ (chip_gets _ _)).
      change (mc_done (chip_of (finished s m))) with true. cbn [negb].
      by rewrite (bind_eq _ _ _ _ _ (chip_gets _ _)). }
    clear. split; [by open_sys s|]. destruct (DoubleBuffer.switched_eq (Datapath.bank (MicroController.path m))) as [<- _].
    by open_sys s.
  - intros s' Hr' Hl. split; [by apply core_step_stop|]. by open_sys s'.
Qed.

End Addresses.

(** A program of two instructions, on an array without columns. *)
Lemma cma_runs_witness :
  let b := DoubleBuffer.DoubleBuffer 8 DWORD_MASK [0x3105; 0x000E] in
  let d := DataManipulator.DataManipulator (replicate 16 []) (replicate 16 []) 0 in
  let w := MkStore b b b d (STUnit.STUnit d 16) (PEArray.Mk 8 0 1 4 2 ∅ false [])
    (ControlReg.Mk true true 4 true) (NetworkInterfaceConfig.Mk 0 0 0 0 0 0 0 false false) ∅ in
  let s := CubeAccelerator.MkSys store chip
    (CubeAccelerator.Mk 0 0 None 0 0 0 0 0 0 0 0 CubeAccelerator.IDLE CubeAccelerator.IDLE 0 0 false false)
    (Router.Mk 0 ∅ (Crossbar.Mk ∅ 0 ∅ ∅) 0 0 0 0) (Links.Mk ∅ ∅) (LocalMapper.LocalMapper w)
    (MkChip fresh_mc false false true true 0 0 0 0 0 0) in
  ∃ m, MicroController.regfile (MicroController.self m) !! 1%nat = Some 5 ∧
    steps [] 2 s = Some ((), running s m, []) ∧ core_step [] (running s m) = Some ((), finished s m, []) ∧
    CubeAccelerator.dma_after_done_en (CubeAccelerator.self (finished s m)) = true.
Proof.
  intros b d w s.
  assert (H : ∃ m, program [] 2 (started s) = Some ((), m, []) ∧ MicroController.done m = true ∧
    MicroController.regfile (MicroController.self m) !! 1%nat = Some 5) by (eexists; by vm_compute).
  destruct H as (m & E & Hd & Hm). exists m. split; [exact Hm|].
  destruct (cma_runs [] s 2 m [] ltac:(by split) eq_refl ltac:(lia) E) as (H1 & _ & H2 & _).
  split; [exact H1|]. split; [exact (proj1 (H2 Hd))|reflexivity].
Defined.

End CMA.
