(* ===== verification/NifServe.v ===== *)
(** * NifServe: the messages an accelerator serves

    The network interface takes a message flit by flit and answers it over many
    cycles; [serve] is what a whole message does at once to the local bus, and the
    flits it is answered with. *)

From S2P Require Import Prelude Effects Types Range Router Accel RemoteRam.
Import RouterUtils NetworkInterfaceConfig CubeAccelerator.

Module NifServe.

(** ** The specification *)
Section Spec.
  Context {W : Type} `{RangeOps W} `{HasNif W}.
  Notation LB := (LocalMapper.t W).

Definition config_at (lb : LB) : option NetworkInterfaceConfig.t := nif_of (LocalMapper.store lb).
Definition the_config : M LB NetworkInterfaceConfig.t :=
  lb ← gets id; from_option (config_at lb).

(** The words at [base], one after the other; word [i] is the next. *)
Fixpoint fetches (base i : Z) (n : nat) : M LB (list Z) :=
  match n with
  | O => mret []
  | S n =>
      w ← LocalMapper.fetch_word (u32 (base + i * 4));
      ws ← fetches base (i + 1) n; mret (w :: ws)
  end.
Fixpoint stores (base i : Z) (ds : list Z) : M LB unit :=
  match ds with
  | [] => mret ()
  | d :: ds => LocalMapper.store_word (u32 (base + i * 4)) d;; stores base (i + 1) ds
  end.

(** The data flits of a message; the last one is its tail. *)
Fixpoint data_flits (ws : list Z) : list FLIT_t :=
  match ws with
  | [] => []
  | w :: ws => make_data_flit w (bool_decide (ws = [])) :: data_flits ws
  end.
Definition on_vc (vc : Z) (fs : list FLIT_t) : list FLIT_ENTRY_t := (λ f, MkEntry f vc) <$> fs.

(** The blocks of a DMA from block [k] on: each is written to the other node. *)
Fixpoint dma_blocks (size dst : Z) (k : Z) (n : nat) : M LB (list FLIT_ENTRY_t) :=
  match n with
  | O => mret []
  | S n =>
      c ← the_config;
      ws ← fetches (u32 (dma_src c + u32 (size * 4) * k)) 0 (Z.to_nat size);
      rest ← dma_blocks size dst (k + 1) n;
      mret (on_vc (vc_dma c)
        (make_head_flit (u32 (getDMADstAddr c + u32 (size * 4) * k)) MTYPE_BW (vc_dma c) dst (getDMADstID c) false
         :: data_flits ws) ++ rest)
  end.

(** After a write: a kicked DMA is run and reported to the writer. *)
Definition kicked_dma (size src dst : Z) : M LB (list FLIT_ENTRY_t) :=
  c ← the_config;
  if isDMAKicked c && (0 <? dma_len c) then
    fs ← dma_blocks size dst 0 (Z.to_nat (dma_len c));
    modify (λ lb, lb <| LocalMapper.store ::= set_nif (c <| dmaKicked := false |>) |>);;
    mret (fs ++ on_vc (vc_dmadone c) [make_head_flit DMAC_NOTIF_ADDR MTYPE_DONE (vc_dmadone c) dst src true])
  else mret [].

(** The message with head [f] and data [ds], for blocks of [size] words. *)
Definition serve (size : Z) (f : FLIT_t) (ds : list Z) : M LB (list FLIT_ENTRY_t) :=
  let '(mema, mtype, _, src, dst) := decode_headflit f in
  let reply mt ws :=
    c ← the_config;
    mret (on_vc (vc_normal c) (make_head_flit mema mt (vc_normal c) dst src false :: data_flits ws)) in
  if mtype =? MTYPE_SW then
    match ds with [d] => LocalMapper.store_word mema d;; kicked_dma size src dst | _ => crash end
  else if mtype =? MTYPE_BW then stores mema 0 ds;; kicked_dma size src dst
  else if mtype =? MTYPE_SR then w ← LocalMapper.fetch_word mema; reply MTYPE_SW [w]
  else if mtype =? MTYPE_BR then ws ← fetches mema 0 (Z.to_nat size); reply MTYPE_BW ws
  else mret [].

(** The data that belong to a head. *)
Definition well_formed (size : Z) (f : FLIT_t) (ds : list FLIT_t) : Prop :=
  is_head f = true ∧
  let '(_, mtype, _, _, _) := decode_headflit f in
  Z.of_nat (length ds) =
    if mtype =? MTYPE_SW then 1 else if mtype =? MTYPE_BW then size else 0.

End Spec.

(** Registers as the stores leave them: channels of three bits, a length that fits. *)
Record cfg_ok (c : NetworkInterfaceConfig.t) : Prop := {
  ok_normal : 0 ≤ vc_normal c < 8;
  ok_dma : 0 ≤ vc_dma c < 8;
  ok_dmadone : 0 ≤ vc_dmadone c < 8;
  ok_len : 0 ≤ dma_len c < 2 ^ 31
}.

(** What a local bus promises to the network interface: an invariant that gives the
    registers, and that a read leaves them alone. *)
Class NifLaws (W : Type) `{RangeOps W} `{HasNif W} := {
  bus_inv : LocalMapper.t W → Prop;
  inv_config : ∀ lb, bus_inv lb → ∃ c, config_at lb = Some c ∧ cfg_ok c;
  fetch_inv : ∀ a lb lb' w, bus_inv lb → LocalMapper.fetch_word a lb = Some (w, lb', []) →
    bus_inv lb' ∧ config_at lb' = config_at lb;
  store_inv : ∀ a d lb lb', bus_inv lb → LocalMapper.store_word a d lb = Some ((), lb', []) → bus_inv lb';
  nif_same : ∀ c (w : W), nif_of w = Some c → set_nif c w = w;
  clear_inv : ∀ c lb, bus_inv lb → config_at lb = Some c →
    let lb' := lb <| LocalMapper.store ::= set_nif (c <| dmaKicked := false |>) |> in
    bus_inv lb' ∧ config_at lb' = Some (c <| dmaKicked := false |>)
}.

Section Serve.
  Context {W C : Type} `{NifLaws W}.
  Notation LB := (LocalMapper.t W).
  Notation SYS := (sys W C).

(** The network interface in consecutive cycles. *)
Notation reaches := (Effects.reaches (quietly (S := SYS) nif_step)).

(** *** The ports *)

(** The queues of the two ports; the router is ready on every channel. *)
Record ports_are (ir rx tx : Z) (lk : Links.t) (rxq txq : list FLIT_ENTRY_t) : Prop := {
  po_ne : rx ≠ tx;
  po_rx : ∃ rs, Links.slaves lk !! rx = Some (Links.MkSlave rs rxq);
  po_tx : ∃ ts, Links.slaves lk !! tx = Some (Links.MkSlave ts txq) ∧
    ∀ p, ts = Some p → p ≠ ir ∧ Links.rdy lk !! p = Some (replicate 8 true);
  po_ir : is_Some (Links.rdy lk !! ir)
}.

Context (ro : Router.t) (co : C) (ir rx tx nid size bw : Z).
Context (Hsize : 0 < size < 2 ^ 30) (Hbw : 0 < bw).
Local Notation ports := (ports_are ir rx tx).

(** The interface with the fields that a message changes. *)
Record regs := MkRegs { g_mema : Z; g_mtype : Z; g_vch : Z; g_src : Z; g_dst : Z }.
Definition nif (st nx : cnif) (g : regs) (dc rem : Z) : t :=
  Mk ir rx (Some tx) nid (g_mema g) (g_mtype g) (g_vch g) (g_src g) (g_dst g) dc size st nx bw rem
     false false.
Definition at_ (st nx : cnif) (g : regs) (dc rem : Z) (lk : Links.t) (lb : LB) : SYS :=
  MkSys W C (nif st nx g dc rem) ro lk lb co.

Lemma have_eq lk rxq txq st nx g dc rem lb : ports lk rxq txq →
  haveData (at_ st nx g dc rem lk lb) = Some (negb (bool_decide (rxq = [])), at_ st nx g dc rem lk lb, []).
Proof using Type.
  intros [_ [rs Hr] _ _]. unfold haveData, get. rewrite gets_bind. unfold zoom, zoom_key. cbn.
  rewrite Hr. cbn. unfold at_. do 3 f_equal. destruct lk; cbn in *. by rewrite insert_id.
Qed.

Lemma getData_eq lk e rxq txq st nx g dc rem lb : ports lk (e :: rxq) txq →
  ∃ lk', getData (at_ st nx g dc rem lk lb) = Some (flit e, at_ st nx g dc rem lk' lb, []) ∧
    ports lk' rxq txq.
Proof using Type.
  intros [Hne [rs Hr] [ts [Ht Hts]] Hi]. eexists (Links.Mk (<[rx := Links.MkSlave rs rxq]> (Links.slaves lk)) (Links.rdy lk)).
  split.
  - unfold getData, get. rewrite gets_bind.
    rewrite (bind_eq _ _ _ e (at_ st nx g dc rem (Links.Mk (<[rx := Links.MkSlave rs rxq]> (Links.slaves lk)) (Links.rdy lk)) lb));
      [reflexivity|]. unfold zoom, zoom_key. cbn. by rewrite Hr.
  - split; cbn; [done| |exists ts|done]; [rewrite lookup_insert_eq; by exists rs|].
    by rewrite lookup_insert_ne.
Qed.

Lemma nif_send_eq lk rxq txq st nx g dc rem lb f vc : ports lk rxq txq →
  ∃ lk', send f vc (at_ st nx g dc rem lk lb) = Some ((), at_ st nx g dc rem lk' lb, []) ∧
    ports lk' rxq (txq ++ [MkEntry f vc]).
Proof using Type.
  intros [Hne [rs Hr] [ts [Ht Hts]] Hi].
  eexists (Links.Mk (<[tx := Links.MkSlave ts (txq ++ [MkEntry f vc])]> (Links.slaves lk)) (Links.rdy lk)). split.
  - unfold send, get. rewrite gets_bind. unfold zoom, Links.send, zoom_key. cbn. by rewrite Ht.
  - split; cbn; [done|exists rs|exists ts|done]; [by rewrite lookup_insert_ne|].
    by rewrite lookup_insert_eq.
Qed.

Lemma nif_ready_eq lk rxq txq st nx g dc rem lb vc : ports lk rxq txq → 0 ≤ vc < 8 →
  slaveReady vc (at_ st nx g dc rem lk lb) = Some (true, at_ st nx g dc rem lk lb, []).
Proof using Type.
  intros [_ _ [ts [Ht Hts]] _] Hvc. unfold slaveReady, get. rewrite gets_bind.
  unfold zoom. cbn [self links at_ nif rtTx Links.slaveReady].
  assert (E : Links.isReady tx vc lk = Some (true, lk, [])).
  { unfold Links.isReady. rewrite (bind_eq _ _ _ ts lk).
    - destruct ts as [p|]; [|done]. destruct (Hts p eq_refl) as [_ Hp]. rewrite gets_bind, Hp.
      unfold from_option. rewrite ret_bind.
      destruct (nthz_is_Some (replicate 8 true) vc) as [b Eb]; [rewrite length_replicate; lia|].
      rewrite Eb. apply nthz_Some in Eb as [_ Eb]. apply lookup_replicate in Eb as [-> _]. done.
    - unfold zoom_key. rewrite Ht. cbn. destruct lk; cbn in *. by rewrite insert_id. }
  rewrite E. done.
Qed.

(** *** The local bus *)

Lemma config_eq st nx g dc rem lk lb c : config_at lb = Some c →
  nif_config (at_ st nx g dc rem lk lb) = Some (c, at_ st nx g dc rem lk lb, []).
Proof using H1.
  intros Hc. unfold nif_config, on_nif. cbn [at_ localBus]. unfold config_at in Hc. rewrite Hc. cbn.
  unfold at_. do 3 f_equal. destruct lb; cbn in *. by rewrite nif_same.
Qed.

Lemma bus_eq {A} (m : M LB A) st nx g dc rem lk lb x lb' : m lb = Some (x, lb', []) →
  zoom (S := SYS) localBus m (at_ st nx g dc rem lk lb) = Some (x, at_ st nx g dc rem lk lb', []).
Proof using Type. unfold zoom. cbn [at_ localBus]. by intros ->. Qed.

(** An action that raises nothing, first of a sequence. *)
Lemma quiet_bind {T A B} (m : M T A) (f : A → M T B) s b s2 : bindM m f s = Some (b, s2, []) →
  ∃ a s1, m s = Some (a, s1, []) ∧ f a s1 = Some (b, s2, []).
Proof using Type.
  intros (a & s1 & e1 & e2 & E1 & E2 & [-> ->]%eq_sym%app_eq_nil)%mbind_Some. eauto.
Qed.

Lemma set_nx nx' st nx g dc rem lk lb :
  set nif_next_state nx' (at_ st nx g dc rem lk lb) = Some ((), at_ st nx' g dc rem lk lb, []).
Proof using Type. done. Qed.
Lemma set_dc dc' st nx g dc rem lk lb :
  set dcount dc' (at_ st nx g dc rem lk lb) = Some ((), at_ st nx g dc' rem lk lb, []).
Proof using Type. done. Qed.
Lemma set_rem rem' st nx g dc rem lk lb :
  set remain_dma_len rem' (at_ st nx g dc rem lk lb) = Some ((), at_ st nx g dc rem' lk lb, []).
Proof using Type. done. Qed.

Lemma set_block st nx g dc rem lk lb :
  (set nif_next_state DMA_DATA;; n ← get packetMaxSize; set dcount n) (at_ st nx g dc rem lk lb)
  = Some ((), at_ st DMA_DATA g size rem lk lb, []).
Proof using Type. done. Qed.

(** *** One cycle *)

Definition body (st : cnif) : M SYS unit :=
  match st with
  | IDLE => idle_step
  | SR_HEAD => reply_head false
  | BR_HEAD => reply_head true
  | SR_DATA => reply_word
  | BR_DATA => reply_block (Z.to_nat bw)
  | SW_DATA => write_word
  | BW_DATA => write_block (Z.to_nat bw)
  | DMA_HEAD => dma_head
  | DMA_DATA => dma_data (Z.to_nat bw)
  | DMA_DONE => dma_done
  | DONE => done
  | ERROR => mret ()
  end.

Lemma step_eq st nx g dc rem lk lb st1 nx1 g1 dc1 rem1 lk1 lb1 rxq txq : st ≠ ERROR →
  body st (at_ st nx g dc rem lk lb) = Some ((), at_ st1 nx1 g1 dc1 rem1 lk1 lb1, []) →
  ports lk1 rxq txq →
  ∃ lk2, nif_step (at_ st nx g dc rem lk lb) = Some ((), at_ nx1 nx1 g1 dc1 rem1 lk2 lb1, []) ∧
    ports lk2 rxq txq.
Proof using Type.
  intros Hst E [Hne Hr [ts [Ht Hts]] [arr Hi]].
  set (lk2 := Links.Mk (Links.slaves lk1)
    (<[ir := replicate VCH_SIZE (bool_decide (nx1 = IDLE))]> (Links.rdy lk1))).
  exists lk2. split.
  - unfold nif_step. rewrite gets_bind. cbn [self at_ nif nif_state mem_bandwidth].
    rewrite bool_decide_eq_false_2 by done.
    rewrite (bind_eq _ _ _ () (at_ st1 nx1 g1 dc1 rem1 lk1 lb1)) by (rewrite <- E; by destruct st).
    unfold get. rewrite gets_bind. cbn [self at_ nif nif_next_state iready].
    rewrite (bind_eq _ _ _ () (at_ st1 nx1 g1 dc1 rem1 lk2 lb1)).
    2:{ unfold zoom, zoom_key. cbn. by rewrite Hi. }
    rewrite gets_bind. cbn [self at_ nif done_pending]. rewrite andb_false_r. cbn [when].
    rewrite ret_bind, gets_bind. reflexivity.
  - split; cbn; [done|done| |rewrite lookup_insert_eq; by eexists].
    exists ts. split; [done|]. intros p Hp. destruct (Hts p Hp) as [Hpi Hp8].
    split; [done|]. by rewrite lookup_insert_ne.
Qed.

(** *** Replies *)

Lemma fetch_config base n : ∀ i lb ws lb', bus_inv lb → fetches base i n lb = Some (ws, lb', []) →
  bus_inv lb' ∧ config_at lb' = config_at lb ∧ length ws = n.
Proof using Type.
  induction n as [|n IH]; intros i lb ws lb' Hi E; cbn [fetches] in E; [by injection E as <- <-|].
  apply quiet_bind in E as (w & lb1 & E1 & E). apply quiet_bind in E as (ws1 & lb2 & E2 & [= <- <-]).
  destruct (fetch_inv _ _ _ _ Hi E1) as [Hi1 Ec1]. destruct (IH _ _ _ _ Hi1 E2) as (Hi2 & Ec & <-).
  split; [done|]. by rewrite Ec.
Qed.

Lemma head_ready (vc : NetworkInterfaceConfig.t → Z) f k st nx g dc rem lk lb c rxq txq s' :
  ports lk rxq txq → config_at lb = Some c → 0 ≤ vc c < 8 →
  (∀ lk', ports lk' rxq (txq ++ [MkEntry (f c (nif st nx g dc rem)) (vc c)]) →
     k (at_ st nx g dc rem lk' lb) = Some ((), s' lk', [])) →
  ∃ lk', send_head vc f k (at_ st nx g dc rem lk lb) = Some ((), s' lk', []) ∧
    ports lk' rxq (txq ++ [MkEntry (f c (nif st nx g dc rem)) (vc c)]).
Proof using H1.
  intros Hp Hc Hvc Hk. unfold send_head. rewrite (bind_eq _ _ _ _ _ (config_eq st nx g dc rem lk lb c Hc)).
  rewrite (bind_eq _ _ _ _ _ (nif_ready_eq lk rxq txq st nx g dc rem lb (vc c) Hp Hvc)). cbn [when].
  rewrite gets_bind. cbn [self at_].
  destruct (nif_send_eq lk rxq txq st nx g dc rem lb (f c (nif st nx g dc rem)) (vc c) Hp) as (lk' & E & Hp').
  exists lk'. rewrite (bind_eq _ _ _ _ _ E). auto.
Qed.

(** A cycle, and what follows. *)
Lemma reaches_cycle st nx g dc rem lk lb st1 nx1 g1 dc1 rem1 lk1 lb1 rxq txq Q : st ≠ ERROR →
  body st (at_ st nx g dc rem lk lb) = Some ((), at_ st1 nx1 g1 dc1 rem1 lk1 lb1, []) →
  ports lk1 rxq txq →
  (∀ lk2, ports lk2 rxq txq → reaches (at_ nx1 nx1 g1 dc1 rem1 lk2 lb1) Q) →
  reaches (at_ st nx g dc rem lk lb) Q.
Proof using Type.
  intros Hst E Hp HQ. destruct (step_eq _ _ _ _ _ _ _ _ _ _ _ _ _ _ _ _ Hst E Hp) as (lk2 & Es & Hp2).
  eapply reaches_step; [unfold quietly; by rewrite Es|]. by apply HQ.
Qed.

(** The words that are still to be sent: the next one is word [size - dc] from [B]. *)
Section Block.
  Context (base : NetworkInterfaceConfig.t → t → Z) (vc : NetworkInterfaceConfig.t → Z) (last : M SYS unit).
  Context (B : Z) (st nx1 : cnif) (g : regs) (c : NetworkInterfaceConfig.t) (rem rem1 : Z).
  Context (rxq : list FLIT_ENTRY_t) (lbE lb1 : LB).
  Hypothesis Hbase : ∀ dc, base c (nif st st g dc rem) = B.
  Hypothesis Hlast : ∀ lk, last (at_ st st g 0 rem lk lbE) = Some ((), at_ st nx1 g 0 rem1 lk lb1, []).

Lemma send_block_ok n : ∀ dc lk lb ws txq, 0 < dc ≤ size →
  fetches B (size - dc) (Z.to_nat dc) lb = Some (ws, lbE, []) → config_at lb = Some c →
  bus_inv lb → ports lk rxq txq →
  ∃ nx dc' rem' lk' lb' txq', send_block base vc last n (at_ st st g dc rem lk lb) =
      Some ((), at_ st nx g dc' rem' lk' lb', []) ∧ ports lk' rxq txq' ∧
    (nx = nx1 ∧ dc' = 0 ∧ rem' = rem1 ∧ lb' = lb1 ∧ txq' = txq ++ on_vc (vc c) (data_flits ws) ∨
     nx = st ∧ rem' = rem ∧ 0 < dc' ≤ dc ∧ ((0 < n)%nat → dc' < dc) ∧ config_at lb' = Some c ∧
     bus_inv lb' ∧
     ∃ ws', fetches B (size - dc') (Z.to_nat dc') lb' = Some (ws', lbE, []) ∧
       txq' ++ on_vc (vc c) (data_flits ws') = txq ++ on_vc (vc c) (data_flits ws)).
Proof using H1 Hbase Hlast.
  induction n as [|n IH]; intros dc lk lb ws txq Hdc E Hc Hinv Hp.
  { exists st, dc, rem, lk, lb, txq. split; [done|]. split; [done|]. right. split_and!; try done; try lia. eauto. }
  replace (Z.to_nat dc) with (S (Z.to_nat (dc - 1))) in E by lia. cbn [fetches] in E.
  apply quiet_bind in E as (w & lb2 & E1 & E). apply quiet_bind in E as (ws1 & lb3 & E2 & [= <- E3]).
  rewrite E3 in E2. clear lb3 E3.
  destruct (fetch_inv _ _ _ _ Hinv E1) as [Hinv2 Hc2]. rewrite Hc in Hc2.
  destruct (fetch_config _ _ _ _ _ _ Hinv2 E2) as (_ & _ & Hlen).
  cbn [send_block]. rewrite gets_bind. cbn [self at_].
  rewrite (bind_eq _ _ _ _ _ (config_eq _ _ _ _ _ _ _ c Hc)), Hbase. unfold block_word. cbn [nif packetMaxSize dcount].
  rewrite (bind_eq _ _ _ _ _ (set_dc (dc - 1) st st g dc rem lk lb)).
  unfold bus_fetch at 1.
  rewrite (bind_eq _ _ _ _ _ (bus_eq _ st st g (dc - 1) rem lk lb w lb2 E1)).
  rewrite (bind_eq _ _ _ _ _ (config_eq _ _ _ _ _ _ _ c Hc2)).
  destruct (nif_send_eq lk rxq txq st st g (dc - 1) rem lb2 (make_data_flit w (dc - 1 =? 0)) (vc c) Hp)
    as (lk1 & Es & Hp1).
  rewrite (bind_eq _ _ _ _ _ Es).
  assert (Eflits : data_flits (w :: ws1) = make_data_flit w (dc - 1 =? 0) :: data_flits ws1).
  { cbn [data_flits]. do 2 f_equal. apply eq_true_iff_eq. rewrite bool_decide_eq_true, Z.eqb_eq.
    rewrite <- length_zero_iff_nil. lia. }
  rewrite Eflits. destruct (Z.eqb_spec (dc - 1) 0) as [Ez|Hnz].
  - rewrite Ez in E2 |- *. injection E2 as <- ->. rewrite Hlast.
    eexists nx1, 0, rem1, lk1, lb1, _. split; [done|]. split; [exact Hp1|]. left. done.
  - replace (size - dc + 1) with (size - (dc - 1)) in E2 by lia.
    destruct (IH (dc - 1) lk1 lb2 ws1 _ ltac:(lia) E2 Hc2 Hinv2 Hp1)
      as (nx & dc' & rem' & lk' & lb' & txq' & Eb & Hp' & Hcase).
    exists nx, dc', rem', lk', lb', txq'. split; [exact Eb|]. split; [done|].
    destruct Hcase as [(-> & -> & -> & -> & ->)|(-> & -> & Hdc' & _ & Hc' & Hinv' & ws' & E' & Etx)].
    + left. by rewrite <- app_assoc.
    + right. split_and!; try done; try lia. exists ws'. split; [done|]. by rewrite Etx, <- app_assoc.
Qed.

(** The whole block, over as many cycles as it takes. *)
Lemma nif_block_cycles : st ≠ ERROR → body st = send_block base vc last (Z.to_nat bw) →
  ∀ dc lk lb ws txq Q, 0 < dc ≤ size →
  fetches B (size - dc) (Z.to_nat dc) lb = Some (ws, lbE, []) → config_at lb = Some c →
  bus_inv lb → ports lk rxq txq →
  (∀ lk', ports lk' rxq (txq ++ on_vc (vc c) (data_flits ws)) →
     reaches (at_ nx1 nx1 g 0 rem1 lk' lb1) Q) →
  reaches (at_ st st g dc rem lk lb) Q.
Proof using H1 Hbase Hlast Hbw.
  intros Hst Hbody dc. remember (Z.to_nat dc) as m eqn:Em. revert dc Em.
  induction m as [m IH] using lt_wf_ind; intros dc -> lk lb ws txq Q Hdc E Hc Hinv Hp HQ.
  destruct (send_block_ok (Z.to_nat bw) dc lk lb ws txq Hdc E Hc Hinv Hp)
    as (nx & dc' & rem' & lk' & lb' & txq' & Eb & Hp' & Hcase).
  rewrite <- Hbody in Eb. eapply reaches_cycle; [done|exact Eb|exact Hp'|]. intros lk2 Hp2.
  destruct Hcase as [(-> & -> & -> & -> & ->)|(-> & -> & Hdc' & Hlt & Hc' & Hinv' & ws' & E' & Etx)].
  - by apply HQ.
  - eapply (IH (Z.to_nat dc')); [lia|done|lia|exact E'|done|done|exact Hp2|].
    intros lk3 Hp3. apply HQ. by rewrite <- Etx.
Qed.

End Block.

(** *** The messages *)

(** Idle, with what is served taken and answered. *)
Definition served (lb : LB) (rxq txq : list FLIT_ENTRY_t) (s : SYS) : Prop :=
  ∃ g dc rem lk, s = at_ IDLE IDLE g dc rem lk lb ∧ ports lk rxq txq.

Lemma served_here g dc rem lk lb rxq txq : ports lk rxq txq →
  reaches (at_ IDLE IDLE g dc rem lk lb) (served lb rxq txq).
Proof using Type. intros Hp. apply reaches_here. by exists g, dc, rem, lk. Qed.

Lemma app_snoc_cons {A} (l : list A) x l' : (l ++ [x]) ++ l' = l ++ x :: l'.
Proof using Type. by rewrite <- app_assoc. Qed.

(** A state that sends a head flit and goes on to [nx]. *)
Lemma head_cycle vc f k st nx g dc rem lk lb c rxq txq dc' Q : st ≠ ERROR → body st = send_head vc f k →
  ports lk rxq txq → config_at lb = Some c → 0 ≤ vc c < 8 →
  (∀ lk, k (at_ st st g dc rem lk lb) = Some ((), at_ st nx g dc' rem lk lb, [])) →
  (∀ lk', ports lk' rxq (txq ++ [MkEntry (f c (nif st st g dc rem)) (vc c)]) →
     reaches (at_ nx nx g dc' rem lk' lb) Q) →
  reaches (at_ st st g dc rem lk lb) Q.
Proof using H1.
  intros Hst Hb Hp Hc Hvc Hk HQ.
  destruct (head_ready vc f k st st g dc rem lk lb c rxq txq (λ lk, at_ st nx g dc' rem lk lb) Hp Hc Hvc)
    as (lk' & E & Hp'); [auto|].
  rewrite <- Hb in E. eapply reaches_cycle; [done|exact E|exact Hp'|]. auto.
Qed.

Lemma read_word_ok g dc rem lk lb c rxq txq w lbE : ports lk rxq txq → bus_inv lb → config_at lb = Some c →
  LocalMapper.fetch_word (g_mema g) lb = Some (w, lbE, []) →
  reaches (at_ SR_HEAD SR_HEAD g dc rem lk lb)
    (served lbE rxq (txq ++ on_vc (vc_normal c)
       (make_head_flit (g_mema g) MTYPE_SW (vc_normal c) (g_dst g) (g_src g) false :: data_flits [w]))).
Proof using H1.
  intros Hp Hinv Hc E. destruct (inv_config _ Hinv) as (c0 & Hc0 & Hok). simplify_eq.
  eapply (head_cycle vc_normal); [done|reflexivity|exact Hp|exact Hc|apply Hok|intros; apply set_nx|].
  intros lk1 Hp1. destruct (fetch_inv _ _ _ _ Hinv E) as [_ Hc']. rewrite Hc in Hc'.
  destruct (nif_send_eq lk1 rxq _ SR_DATA SR_DATA g dc rem lbE (make_data_flit w true) (vc_normal c) Hp1) as (lk2 & Es & Hp2).
  eapply (reaches_cycle _ _ _ _ _ _ _ SR_DATA IDLE); [done| |exact Hp2|].
  - cbn [body]. unfold reply_word, get. rewrite gets_bind. cbn [self at_ nif reg_mema]. unfold bus_fetch.
    rewrite (bind_eq _ _ _ _ _ (bus_eq _ SR_DATA SR_DATA g dc rem lk1 lb w lbE E)).
    rewrite (bind_eq _ _ _ _ _ (config_eq _ _ _ _ _ _ _ c Hc')). rewrite (bind_eq _ _ _ _ _ Es). reflexivity.
  - intros lk3 Hp3. rewrite <- app_assoc in Hp3. by apply served_here.
Qed.

Lemma read_block_ok g rem lk lb c rxq txq ws lbE : ports lk rxq txq → bus_inv lb → config_at lb = Some c →
  fetches (g_mema g) 0 (Z.to_nat size) lb = Some (ws, lbE, []) →
  reaches (at_ BR_HEAD BR_HEAD g size rem lk lb)
    (served lbE rxq (txq ++ on_vc (vc_normal c)
       (make_head_flit (g_mema g) MTYPE_BW (vc_normal c) (g_dst g) (g_src g) false :: data_flits ws))).
Proof using H1 Hsize Hbw.
  intros Hp Hinv Hc E. destruct (inv_config _ Hinv) as (c0 & Hc0 & Hok). simplify_eq.
  eapply (head_cycle vc_normal); [done|reflexivity|exact Hp|exact Hc|apply Hok|intros; apply set_nx|].
  intros lk1 Hp1. eapply (nif_block_cycles (λ _ a, reg_mema a) vc_normal (set nif_next_state IDLE) (g_mema g)
    BR_DATA IDLE g c rem rem rxq lbE lbE); try done.
  - lia.
  - rewrite Z.sub_diag. exact E.
  - intros lk2 Hp2. rewrite app_snoc_cons in Hp2. by apply served_here.
Qed.

Lemma dma_block_config size0 dst c : ∀ n k lb fs lbE, bus_inv lb → config_at lb = Some c →
  dma_blocks size0 dst k n lb = Some (fs, lbE, []) → bus_inv lbE ∧ config_at lbE = Some c.
Proof using Type.
  induction n as [|n IH]; intros k lb fs lbE Hinv Hc E; [by injection E as <- <-|]. cbn [dma_blocks] in E.
  apply quiet_bind in E as (c0 & lb0 & E0 & E). unfold the_config in E0. rewrite gets_bind in E0. cbn [id] in E0.
  rewrite Hc in E0. injection E0 as <- <-.
  apply quiet_bind in E as (ws & lb1 & E1 & E). apply quiet_bind in E as (rest & lb2 & E2 & [= <- <-]).
  destruct (fetch_config _ _ _ _ _ _ Hinv E1) as (Hi1 & Hc1 & _). rewrite Hc in Hc1. eauto.
Qed.

(** A DMA from block [dma_len c - m] on. *)
Lemma dma_cycles g c rxq m : ∀ dc lk lb fs lbE txq Q, 0 < Z.of_nat m ≤ dma_len c →
  ports lk rxq txq → bus_inv lb → config_at lb = Some c →
  dma_blocks size (g_dst g) (dma_len c - Z.of_nat m) m lb = Some (fs, lbE, []) →
  (∀ lk', ports lk' rxq (txq ++ fs) → reaches (at_ DMA_DONE DMA_DONE g 0 0 lk'
     (lbE <| LocalMapper.store ::= set_nif (c <| dmaKicked := false |>) |>)) Q) →
  reaches (at_ DMA_HEAD DMA_HEAD g dc (Z.of_nat m) lk lb) Q.
Proof using H1 Hsize Hbw.
  induction m as [|m IH]; intros dc lk lb fs lbE txq Q Hm Hp Hinv Hc E HQ; [lia|]. cbn [dma_blocks] in E.
  destruct (inv_config _ Hinv) as (c0 & Hc0 & Hok). simplify_eq.
  apply quiet_bind in E as (c1 & lb0 & E0 & E). unfold the_config in E0. rewrite gets_bind in E0. cbn [id] in E0.
  rewrite Hc in E0. injection E0 as <- <-.
  apply quiet_bind in E as (ws & lb1 & E1 & E). apply quiet_bind in E as (rest & lb2 & E2 & [= <- <-]).
  destruct (fetch_config _ _ _ _ _ _ Hinv E1) as (Hi1 & Hc1 & _). rewrite Hc in Hc1.
  assert (Ek : u32 (dma_len c - Z.of_nat (S m)) = dma_len c - Z.of_nat (S m)).
  { destruct Hok. apply Z.mod_small. lia. }
  eapply (head_cycle vc_dma); [done|reflexivity|exact Hp|exact Hc|apply Hok|intros; apply set_block|].
  intros lk1 Hp1. cbn [nif dma_block remain_dma_len packetMaxSize reg_dst] in Hp1. unfold dma_block in Hp1.
  cbn [nif remain_dma_len packetMaxSize] in Hp1. rewrite Ek in Hp1.
  set (last := a ← gets self; set remain_dma_len (remain_dma_len a - 1);;
     if remain_dma_len a - 1 =? 0 then set nif_next_state DMA_DONE;; on_nif clearDMAKicked
     else set nif_next_state DMA_HEAD : M SYS unit).
  set (base := λ (c : NetworkInterfaceConfig.t) (a : t), dma_block (dma_src c) c a).
  assert (Hbase : ∀ dc, base c (nif DMA_DATA DMA_DATA g dc (Z.of_nat (S m))) =
    u32 (dma_src c + u32 (size * 4) * (dma_len c - Z.of_nat (S m)))).
  { intros dc'. unfold base, dma_block. cbn [nif packetMaxSize remain_dma_len]. by rewrite Ek. }
  replace (Z.of_nat (S m) - 1) with (Z.of_nat m) in * by lia.
  replace (dma_len c - Z.of_nat (S m) + 1) with (dma_len c - Z.of_nat m) in E2 by lia.
  destruct m as [|m'].
  - injection E2 as <- <-.
    eapply (nif_block_cycles base vc_dma last _ DMA_DATA DMA_DONE g c 1 0 rxq lb1
      (lb1 <| LocalMapper.store ::= set_nif (c <| dmaKicked := false |>) |>) Hbase);
      [|done|done|split; [apply Hsize|reflexivity]|by rewrite Z.sub_diag; exact E1|done|done|exact Hp1|].
    + intros lk'. unfold last. rewrite gets_bind. cbn [self at_ nif remain_dma_len Z.sub Z.eqb].
      rewrite (bind_eq _ _ _ _ _ (set_rem 0 _ _ _ _ _ _ _)).
      change (1 - 1 =? 0) with true. cbv iota.
      rewrite (bind_eq _ _ _ _ _ (set_nx DMA_DONE _ _ _ _ _ _ _)).
      unfold on_nif. cbn [at_ localBus]. unfold config_at in Hc1. rewrite Hc1. reflexivity.
    + intros lk2 Hp2. apply HQ. rewrite app_nil_r. by rewrite app_snoc_cons in Hp2.
  - eapply (nif_block_cycles base vc_dma last _ DMA_DATA DMA_HEAD g c (Z.of_nat (S (S m'))) (Z.of_nat (S m')) rxq lb1 lb1 Hbase);
      [|done|done|split; [apply Hsize|reflexivity]|by rewrite Z.sub_diag; exact E1|done|done|exact Hp1|].
    + intros lk'. unfold last. rewrite gets_bind. cbn [self at_ nif remain_dma_len].
      replace (Z.of_nat (S (S m')) - 1) with (Z.of_nat (S m')) by lia.
      by rewrite (bind_eq _ _ _ _ _ (set_rem (Z.of_nat (S m')) _ _ _ _ _ _ _)).
    + intros lk2 Hp2. rewrite app_snoc_cons in Hp2.
      eapply (IH 0 lk2 lb1 rest lb2); [lia|exact Hp2|done|done|exact E2|].
      intros lk3 Hp3. apply HQ. by rewrite <- app_assoc in Hp3.
Qed.

(** What follows a write. *)
Lemma written_ok st n0 g rem lb c rxq fs lbE : bus_inv lb → config_at lb = Some c →
  kicked_dma size (g_src g) (g_dst g) lb = Some (fs, lbE, []) →
  ∃ nx rem', (∀ dc lk, written (at_ st n0 g dc rem lk lb) = Some ((), at_ st nx g dc rem' lk lb, [])) ∧
    (∀ dc lk txq, ports lk rxq txq → reaches (at_ nx nx g dc rem' lk lb) (served lbE rxq (txq ++ fs))).
Proof using H1 Hsize Hbw.
  intros Hinv Hc E. destruct (inv_config _ Hinv) as (c0 & Hc0 & Hok). simplify_eq.
  unfold kicked_dma in E. apply quiet_bind in E as (c1 & lb0 & E0 & E).
  unfold the_config in E0. rewrite gets_bind in E0. cbn [id] in E0. rewrite Hc in E0. injection E0 as <- <-.
  unfold written. setoid_rewrite bind_eq; [|intros; by apply config_eq].
  destruct (isDMAKicked c && (0 <? dma_len c)) eqn:Ek.
  2:{ injection E as <- <-. exists IDLE, rem. split; [done|]. intros dc lk txq Hp. rewrite app_nil_r. by apply served_here. }
  apply andb_true_iff in Ek as [_ Hlen%Z.ltb_lt].
  apply quiet_bind in E as (fs1 & lb1 & E1 & E). injection E as <- <-.
  destruct (dma_block_config _ _ _ _ _ _ _ _ Hinv Hc E1) as [Hinv1 Hc1].
  destruct (clear_inv _ _ Hinv1 Hc1) as [Hinv2 Hc2].
  exists DMA_HEAD, (dma_len c). split.
  - intros dc' lk. rewrite (bind_eq _ _ _ _ _ (set_nx _ _ _ _ _ _ _ _)), set_rem. rewrite s32_small by (destruct Hok; lia). done.
  - intros dc lk txq Hp. rewrite <- (Z2Nat.id (dma_len c)) at 1 by lia.
    eapply dma_cycles; [|exact Hp|done|exact Hc| |]; [lia|by rewrite Z2Nat.id, Z.sub_diag by lia|].
    intros lk1 Hp1. destruct (inv_config _ Hinv2) as (c2 & Hc2' & Hok2). rewrite Hc2 in Hc2'. injection Hc2' as <-.
    eapply (head_cycle vc_dmadone); [done|reflexivity|exact Hp1|exact Hc2|apply Hok2|intros; apply set_nx|].
    intros lk2 Hp2. rewrite <- app_assoc in Hp2. by apply served_here.
Qed.

Lemma write_block_ok g rem txq rxq lb1 nx1 rem1 n : 
  (∀ dc lk, written (at_ BW_DATA BW_DATA g dc rem lk lb1) = Some ((), at_ BW_DATA nx1 g dc rem1 lk lb1, [])) →
  ∀ dc lk lb es, 0 < dc ≤ size → length es = Z.to_nat dc →
  stores (g_mema g) (size - dc) ((λ e, data (flit e)) <$> es) lb = Some ((), lb1, []) → bus_inv lb →
  ports lk (es ++ rxq) txq →
  ∃ nx dc' rem' lk' lb' rxq', write_block n (at_ BW_DATA BW_DATA g dc rem lk lb) =
      Some ((), at_ BW_DATA nx g dc' rem' lk' lb', []) ∧ ports lk' rxq' txq ∧
    (nx = nx1 ∧ dc' = 0 ∧ rem' = rem1 ∧ lb' = lb1 ∧ rxq' = rxq ∨
     nx = BW_DATA ∧ rem' = rem ∧ 0 < dc' ≤ dc ∧ ((0 < n)%nat → dc' < dc) ∧ bus_inv lb' ∧
     ∃ es', rxq' = es' ++ rxq ∧ length es' = Z.to_nat dc' ∧
       stores (g_mema g) (size - dc') ((λ e, data (flit e)) <$> es') lb' = Some ((), lb1, [])).
Proof using H1.
  intros Hw. induction n as [|n IH]; intros dc lk lb es Hdc Hlen E Hinv Hp.
  { exists BW_DATA, dc, rem, lk, lb, (es ++ rxq). split; [done|]. split; [done|]. right. split_and!; try done; try lia. eauto. }
  destruct es as [|e es]; cbn [length fmap list_fmap] in Hlen; [lia|]. cbn [fmap list_fmap stores] in E.
  apply quiet_bind in E as ([] & lb2 & E1 & E2). pose proof (store_inv _ _ _ _ Hinv E1) as Hinv2.
  cbn [write_block]. rewrite (bind_eq _ _ _ _ _ (have_eq _ _ _ _ _ _ _ _ _ Hp)). cbn [app].
  rewrite bool_decide_eq_false_2 by done. cbn [negb].
  destruct (getData_eq lk e (es ++ rxq) txq BW_DATA BW_DATA g dc rem lb Hp) as (lk1 & Eg & Hp1).
  rewrite (bind_eq _ _ _ _ _ Eg), gets_bind. cbn [self at_ nif reg_mema]. unfold block_word, bus_store.
  cbn [nif packetMaxSize dcount].
  rewrite (bind_eq _ _ _ _ _ (bus_eq _ BW_DATA BW_DATA g dc rem lk1 lb () lb2 E1)).
  rewrite (bind_eq _ _ _ _ _ (set_dc (dc - 1) BW_DATA BW_DATA g dc rem lk1 lb2)).
  destruct (Z.eqb_spec (dc - 1) 0) as [Ez|Hnz].
  - destruct es; cbn [length] in Hlen; [|lia]. injection E2 as ->. rewrite Ez, Hw.
    exists nx1, 0, rem1, lk1, lb1, rxq. split; [done|]. split; [exact Hp1|]. by left.
  - replace (size - dc + 1) with (size - (dc - 1)) in E2 by lia.
    destruct (IH (dc - 1) lk1 lb2 es ltac:(lia) ltac:(lia) E2 Hinv2 Hp1)
      as (nx & dc' & rem' & lk' & lb' & rxq' & Eb & Hp' & Hcase).
    exists nx, dc', rem', lk', lb', rxq'. split; [exact Eb|]. split; [done|].
    destruct Hcase as [?|(-> & -> & ? & _ & ? & ?)]; [by left|right]. split_and!; try done; lia.
Qed.

Lemma nif_write_cycles g rem txq rxq lb1 nx1 rem1 Q :
  (∀ dc lk, written (at_ BW_DATA BW_DATA g dc rem lk lb1) = Some ((), at_ BW_DATA nx1 g dc rem1 lk lb1, [])) →
  (∀ lk', ports lk' rxq txq → reaches (at_ nx1 nx1 g 0 rem1 lk' lb1) Q) →
  ∀ dc lk lb es, 0 < dc ≤ size → length es = Z.to_nat dc →
  stores (g_mema g) (size - dc) ((λ e, data (flit e)) <$> es) lb = Some ((), lb1, []) → bus_inv lb →
  ports lk (es ++ rxq) txq →
  reaches (at_ BW_DATA BW_DATA g dc rem lk lb) Q.
Proof using H1 Hbw.
  intros Hw HQ dc. remember (Z.to_nat dc) as m eqn:Em. revert dc Em.
  induction m as [m IH] using lt_wf_ind; intros dc -> lk lb es Hdc Hlen E Hinv Hp.
  destruct (write_block_ok g rem txq rxq lb1 nx1 rem1 (Z.to_nat bw) Hw dc lk lb es Hdc Hlen E Hinv Hp)
    as (nx & dc' & rem' & lk' & lb' & rxq' & Eb & Hp' & Hcase).
  eapply reaches_cycle; [done|exact Eb|exact Hp'|]. intros lk2 Hp2.
  destruct Hcase as [(-> & -> & -> & -> & ->)|(-> & -> & Hdc' & Hlt & Hinv' & es' & -> & Hlen' & E')];
    [by apply HQ|].
  eapply (IH (Z.to_nat dc')); [lia|done|lia|exact Hlen'|exact E'|done|exact Hp2].
Qed.

Lemma stores_inv base ds : ∀ i lb lb', bus_inv lb → stores base i ds lb = Some ((), lb', []) → bus_inv lb'.
Proof using Type.
  induction ds as [|d ds IH]; intros i lb lb' Hinv E; [by injection E as <-|].
  cbn [stores] in E. apply quiet_bind in E as ([] & lb2 & Ea & Eb). eauto using store_inv.
Qed.

(** The head of a message is taken. *)
Definition head_regs (f : FLIT_t) : regs :=
  let '(mema, mtype, vch_, src, dst) := decode_headflit f in MkRegs mema mtype vch_ src dst.
Definition after_head (f : FLIT_t) : cnif :=
  let mtype := g_mtype (head_regs f) in
  if mtype =? MTYPE_SW then SW_DATA else if mtype =? MTYPE_BW then BW_DATA
  else if mtype =? MTYPE_SR then SR_HEAD else if mtype =? MTYPE_BR then BR_HEAD else IDLE.

Lemma idle_ok g dc rem lk lb f vc rxq txq Q : ports lk (MkEntry f vc :: rxq) txq → is_head f = true →
  (∀ dc' lk', (g_mtype (head_regs f) = MTYPE_BW ∨ g_mtype (head_regs f) = MTYPE_BR → dc' = size) →
     ports lk' rxq txq → reaches (at_ (after_head f) (after_head f) (head_regs f) dc' rem lk' lb) Q) →
  reaches (at_ IDLE IDLE g dc rem lk lb) Q.
Proof using Type.
  intros Hp Hh HQ. destruct (getData_eq lk _ rxq txq IDLE IDLE g dc rem lb Hp) as (lk1 & Eg & Hp1).
  set (dc' := if (g_mtype (head_regs f) =? MTYPE_BW) || (g_mtype (head_regs f) =? MTYPE_BR) then size else dc).
  eapply (reaches_cycle _ _ _ _ _ _ _ IDLE (after_head f) (head_regs f) dc' rem lk1 lb); [done| |exact Hp1|].
  - cbn [body]. unfold idle_step. rewrite (bind_eq _ _ _ _ _ (have_eq _ _ _ _ _ _ _ _ _ Hp)).
    rewrite bool_decide_eq_false_2 by done. cbn [negb when flit]. rewrite (bind_eq _ _ _ _ _ Eg). cbn [flit].
    rewrite Hh. cbn [when]. unfold dc', after_head, head_regs.
    destruct (decode_headflit f) as [[[[mema mtype] vch_] src] dst]. cbn [g_mtype]. 
    destruct (Z.eqb_spec mtype MTYPE_SW) as [->|]; [reflexivity|].
    destruct (Z.eqb_spec mtype MTYPE_BW) as [->|]; [reflexivity|].
    destruct (Z.eqb_spec mtype MTYPE_SR) as [->|]; [reflexivity|].
    destruct (Z.eqb_spec mtype MTYPE_BR) as [->|]; reflexivity.
  - intros lk2 Hp2. apply HQ; [|done]. unfold dc'. by intros [->| ->].
Qed.

(** C37 The network interface does what a message asks: starting idle, with the head of
    a message and its data in the receive queue, it comes after finitely many cycles
    back to idle with the message gone from the queue, the local bus exactly as [serve]
    leaves it and exactly the flits of [serve] sent: a read is answered with the words
    in order, a write is stored in order, and a write that kicks the DMA makes it send
    every block, clear the kick bit and notify the writer. *)
Theorem nif_serves g dc rem lk lb f vc es rxq txq fs lbE :
  ports lk (MkEntry f vc :: es ++ rxq) txq → bus_inv lb → well_formed size f (flit <$> es) →
  serve size f ((λ e, data (flit e)) <$> es) lb = Some (fs, lbE, []) →
  reaches (at_ IDLE IDLE g dc rem lk lb) (served lbE rxq (txq ++ fs)).
Proof using H1 Hsize Hbw.
  intros Hp Hinv [Hh Hlen] E. eapply idle_ok; [exact Hp|done|]. intros dc' lk1 Hdc Hp1.
  destruct (inv_config _ Hinv) as (c & Hc & Hok). unfold serve in E. unfold after_head, head_regs in Hdc |- *.
  destruct (decode_headflit f) as [[[[mema mtype] vch_] src] dst]. cbn [g_mtype] in Hdc |- *.
  rewrite length_fmap in Hlen.
  set (g1 := MkRegs mema mtype vch_ src dst).
  destruct (Z.eqb_spec mtype MTYPE_SW) as [->|].
  { destruct es as [|e [|]]; cbn [length] in Hlen; [lia| |lia]. cbn [fmap list_fmap] in E.
    apply quiet_bind in E as ([] & lb1 & E1 & E2). pose proof (store_inv _ _ _ _ Hinv E1) as Hinv1.
    destruct (inv_config _ Hinv1) as (c1 & Hc1 & _).
    destruct (written_ok SW_DATA SW_DATA g1 rem lb1 c1 rxq fs lbE Hinv1 Hc1 E2) as (nx & rem' & Hw & Hr).
    destruct (getData_eq lk1 e rxq txq SW_DATA SW_DATA g1 dc' rem lb Hp1) as (lk2 & Eg & Hp2).
    eapply reaches_cycle; [done| |exact Hp2|intros lk3 Hp3; by apply Hr].
    cbn [body]. unfold write_word. rewrite (bind_eq _ _ _ _ _ (have_eq _ _ _ _ _ _ _ _ _ Hp1)). cbn [app].
    rewrite bool_decide_eq_false_2 by done. cbn [negb when]. rewrite (bind_eq _ _ _ _ _ Eg).
    unfold get. rewrite gets_bind. cbn [self at_ nif reg_mema]. unfold bus_store.
    rewrite (bind_eq _ _ _ _ _ (bus_eq _ SW_DATA SW_DATA g1 dc' rem lk2 lb () lb1 E1)). apply Hw. }
  destruct (Z.eqb_spec mtype MTYPE_BW) as [->|].
  { rewrite (Hdc (or_introl eq_refl)). apply quiet_bind in E as ([] & lb1 & E1 & E2).
    pose proof (stores_inv _ _ _ _ _ Hinv E1) as Hinv1.
    destruct (inv_config _ Hinv1) as (c1 & Hc1 & _).
    destruct (written_ok BW_DATA BW_DATA g1 rem lb1 c1 rxq fs lbE Hinv1 Hc1 E2) as (nx & rem' & Hw & Hr).
    eapply nif_write_cycles; [exact Hw|intros lk3 Hp3; by apply Hr|split; [apply Hsize|reflexivity]| | |done|exact Hp1];
      [lia|by rewrite Z.sub_diag]. }
  destruct es; [|cbn [length] in Hlen; lia]. cbn [app] in Hp1.
  destruct (Z.eqb_spec mtype MTYPE_SR) as [->|].
  { apply quiet_bind in E as (w & lb1 & E1 & E2). apply quiet_bind in E2 as (c1 & lb2 & E2 & [= <- ->]).
    unfold the_config in E2. rewrite gets_bind in E2. cbn [id] in E2.
    destruct (fetch_inv _ _ _ _ Hinv E1) as [_ Hc1]. rewrite Hc1, Hc in E2. injection E2 as <- ->.
    eapply (read_word_ok g1); done. }
  destruct (Z.eqb_spec mtype MTYPE_BR) as [->|].
  { rewrite (Hdc (or_intror eq_refl)).
    apply quiet_bind in E as (ws & lb1 & E1 & E2). apply quiet_bind in E2 as (c1 & lb2 & E2 & [= <- ->]).
    unfold the_config in E2. rewrite gets_bind in E2. cbn [id] in E2.
    destruct (fetch_config _ _ _ _ _ _ Hinv E1) as (_ & Hc1 & _). rewrite Hc1, Hc in E2. injection E2 as <- ->.
    eapply (read_block_ok g1); done. }
  injection E as <- <-. rewrite app_nil_r. by apply served_here.
Qed.

End Serve.

(** ** What an access of the local bus does to the objects behind it *)
Section Local.
  Context {W : Type} `{RangeOps W}.
  Implicit Types lb : LocalMapper.t W.

Lemma find_mapping_store a lb l lb1 e : LocalMapper.find_mapping_range a lb = Some (l, lb1, e) →
  LocalMapper.store lb1 = LocalMapper.store lb.
Proof.
  unfold LocalMapper.find_mapping_range. rewrite !gets_bind. intros E.
  destruct (LocalMapper.last_used_mapping lb) as [r|]; [destruct (incorporates _ r a)|];
    try (by injection E as _ <- _);
    destruct (LocalMapper.find_range _ _ _); by injection E as _ <- _.
Qed.

Lemma local_fetch a lb w lb' : LocalMapper.fetch_word a lb = Some (w, lb', []) →
  LocalMapper.store lb' = LocalMapper.store lb ∨
  ∃ r o, r_fetch_word r o DATALOAD 0 (LocalMapper.store lb) = Some (w, LocalMapper.store lb', []).
Proof.
  intros (l & lb1 & E1 & E2)%quiet_bind. rewrite <- (find_mapping_store _ _ _ _ _ E1).
  destruct l as [l|]; [|injection E2 as _ <-; by left].
  right. exists l. rewrite gets_bind in E2. unfold zoom in E2. eexists.
  destruct (r_fetch_word _ _ _ _ _) as [[[w1 s1] e1]|] eqn:Ef; [|done]. injection E2 as <- <- ->. exact Ef.
Qed.

Lemma local_store a d lb lb' : LocalMapper.store_word a d lb = Some ((), lb', []) →
  LocalMapper.store lb' = LocalMapper.store lb ∨
  ∃ r o, r_store_word r o d 0 (LocalMapper.store lb) = Some ((), LocalMapper.store lb', []).
Proof.
  intros (l & lb1 & E1 & E2)%quiet_bind. rewrite <- (find_mapping_store _ _ _ _ _ E1).
  destruct l as [l|]; [|injection E2 as <-; by left].
  right. exists l. rewrite gets_bind in E2. unfold zoom in E2. eexists.
  destruct (r_store_word _ _ _ _ _) as [[[[] s1] e1]|] eqn:Ef; [|done]. injection E2 as <- ->. exact Ef.
Qed.
End Local.

(** ** The local bus of [RemoteRam] keeps the promise *)

(** Stores leave the registers within their fields. *)
Lemma nic_store_ok off d cl c c' : cfg_ok c →
  NetworkInterfaceConfig.store_word off d cl c = Some ((), c', []) → cfg_ok c'.
Proof.
  intros Hok E.
  assert (Hf : ∀ x lsb m, 0 ≤ lsb → m = Z.shiftl 7 lsb → 0 ≤ Z.shiftr (Z.land x m) lsb < 8).
  { intros x lsb m Hl ->. rewrite Z.shiftr_land, Z.shiftr_shiftl_l, Z.sub_diag, Z.shiftl_0_r by done.
    change 7 with (Z.ones 3). rewrite Z.land_ones by done. apply Z.mod_pos_bound. done. }
  unfold NetworkInterfaceConfig.store_word in E.
  repeat case_match; injection E as <-; try exact Hok; destruct Hok; split; cbn; try done; try (by apply Hf).
  change DMA_LEN_MASK with (Z.ones 4). rewrite Z.land_ones by done.
  pose proof (Z.mod_pos_bound d (2 ^ 4) eq_refl). lia.
Qed.

Section Remote.
  Variable host : bool.
  #[local] Existing Instance RemoteRam.ops.
  #[local] Existing Instance RemoteRam.has_nif.
#[local] Instance remote_ops : RangeOps RemoteRam.store := RemoteRam.ops host.
  Import RemoteRam.

Lemma remote_fetch r o w1 (w w' : store) : r_fetch_word r o DATALOAD 0 w = Some (w1, w', []) → nic w' = nic w.
Proof.
  cbn -[NetworkInterfaceConfig.fetch_word Ram.fetch_word]. destruct (r =? NIC); unfold zoom.
  - unfold NetworkInterfaceConfig.fetch_word. rewrite gets_bind. by intros [= _ <-].
  - destruct (Ram.fetch_word _ _ _ _ _) as [[[]]|]; [|done]. by intros [= _ <- _].
Qed.
Lemma remote_store r o d (w w' : store) : r_store_word r o d 0 w = Some ((), w', []) →
  cfg_ok (nic w) → cfg_ok (nic w').
Proof.
  cbn -[NetworkInterfaceConfig.store_word Ram.store_word]. destruct (r =? NIC); unfold zoom.
  - destruct (NetworkInterfaceConfig.store_word _ _ _ _) as [[[[] c] e]|] eqn:E; [|done].
    intros [= <- ->] Hok. eapply nic_store_ok; [exact Hok|exact E].
  - destruct (Ram.store_word _ _ _ _ _) as [[[]]|]; [|done]. by intros [= _ <- _].
Qed.

#[local] Instance remote_laws : NifLaws store.
Proof.
  refine {| bus_inv lb := cfg_ok (nic (LocalMapper.store lb)) |}.
  - intros lb Hok. eexists. split; [reflexivity|exact Hok].
  - intros a lb lb' w Hok E.
    assert (En : nic (LocalMapper.store lb') = nic (LocalMapper.store lb)).
    { apply local_fetch in E as [->|(r & o & E)]; [done|by apply remote_fetch in E]. }
    unfold config_at. cbn. by rewrite En.
  - intros a d lb lb' Hok E. apply local_store in E as [->|(r & o & E)]; [done|by apply remote_store in E].
  - by intros c [] [= <-].
  - intros c lb Hok [= <-]. split; [|done]. destruct Hok. by split.
Defined.
End Remote.

(** A memory of 8 words is asked for the block of 4 at 8; the message came through
    port 1 and the answer leaves through port 2. *)
Definition demo_bus : LocalMapper.t RemoteRam.store :=
  LocalMapper.Mk _ [0; 1] None
    (RemoteRam.Mk 0x4100 (NetworkInterfaceConfig.Mk 0 0 0 3 0 0 0 false true)
       (Ram.Mk 0 32 (concat ((λ w, [w; 0; 0; 0]) <$> [10; 11; 12; 13; 14; 15; 16; 17])) MEM_READ_WRITE 0 0 0)).
Definition demo_links (rxq txq : list FLIT_ENTRY_t) : Links.t :=
  Links.Mk (<[1 := Links.MkSlave None rxq]> (<[2 := Links.MkSlave None txq]> ∅))
    (<[0 := replicate 8 true]> ∅).
Definition demo_router : Router.t := Router.Mk 7 ∅ (Crossbar.Mk ∅ 0 ∅ ∅) 0 3 4 5.
Definition demo_read : FLIT_t := make_head_flit 8 MTYPE_BR 3 5 7 true.

Lemma nif_serves_witness : ∃ lbE,
  reaches (quietly (nif_step (H := RemoteRam.ops false) (H0 := RemoteRam.has_nif))) (at_ demo_router () 0 1 2 7 4 1 IDLE IDLE (MkRegs 0 0 0 0 0) 0 0
      (demo_links [MkEntry demo_read 3] []) demo_bus)
    (served demo_router () 0 1 2 7 4 1 lbE []
       (on_vc 3 [make_head_flit 8 MTYPE_BW 3 7 5 false; make_data_flit 12 false;
          make_data_flit 13 false; make_data_flit 14 false; make_data_flit 15 true])).
Proof.
  eexists. eapply (nif_serves (H1 := remote_laws false) demo_router () 0 1 2 7 4 1 ltac:(lia) ltac:(lia) _ _ _ _ _
    demo_read 3 [] [] [] _ _).
  - split; [done|by eexists| |by eexists]. exists None. split; [done|]. by intros p [=].
  - apply Build_cfg_ok; by cbn.
  - by split.
  - vm_compute. reflexivity.
Defined.

End NifServe.
