(* ===== verification/RtIf.v ===== *)
(** * RtIf: the processor's side of the network (routerinterface.h,
      routerinterface.cc)

    Loads and stores in two windows of the address space become messages: the
    mapper asks a window ([RouterRange]) whether it is ready, which starts a
    message, and the data pass through two queues.  A third range ([RouterIOReg])
    has the registers, in which completion messages also leave their marks. *)

From S2P Require Import Prelude Effects Types Interrupts Router.
Import RouterUtils.

Definition REMOTE_NODE_COUNT : nat := 3.

(** ** The interface *)
Module RouterInterface.

(** [bool iready[VCH_SIZE]] is the ready array of the receiver: it is reached through
    its address. *)
Record RTConfig_t := MkConfig {
  router_id : Z;                     (* uint32 *)
  data_vch : list Z;                 (* uint32[3] *)
  iready : Z;
  int_vch : list Z;                  (* uint32[3] *)
  done_status : list bool;           (* bool[REMOTE_NODE_COUNT] *)
  dmac_status : list bool;
  done_mask : list bool;
  dmac_mask : list bool
}.
#[global] Instance config_eta : Eta RTConfig_t := λ c,
  MkConfig (router_id c) (data_vch c) (iready c) (int_vch c) (done_status c) (dmac_status c)
    (done_mask c) (dmac_mask c).

Inductive rt_state :=
  IDLE | SW_SETUP | BW_SETUP | SR_HEAD | SW_HEAD | BR_HEAD | BW_HEAD | SW_DATA | BW_DATA
| SR_WAIT | BR_WAIT | DATA_RDY.
#[global] Instance rt_state_eq_dec : EqDecision rt_state.
Proof. solve_decision. Defined.

Record t := Mk {
  registed_router_id : Z;            (* int *)
  packet_size : Z;                   (* int *)
  mem_bandwidth : Z;                 (* int *)
  send_fifo : list Z;
  recv_fifo : list Z;
  req_addr : Z;                      (* uint32 *)
  use_vch : Z;                       (* uint32 *)
  state : rt_state;
  next_state : rt_state;
  rtRx : Z;                          (* the slave *)
  rtTx : option Z;                   (* connectedSlave of the master *)
  lines : DeviceInt.t                (* the base class [DeviceInt] *)
}.
#[global] Instance t_eta : Eta t := λ r,
  Mk (registed_router_id r) (packet_size r) (mem_bandwidth r) (send_fifo r) (recv_fifo r)
     (req_addr r) (use_vch r) (state r) (next_state r) (rtRx r) (rtTx r) (lines r).

(** The interface, the registers its [config] points to, its router and the ports. *)
Record sys := MkSys {
  self : t;
  config : option RTConfig_t;        (* None: not yet set *)
  localRouter : Router.t;
  links : Links.t
}.
#[global] Instance sys_eta : Eta sys := λ s, MkSys (self s) (config s) (localRouter s) (links s).

Notation M := (Effects.M sys).
Definition get {T} (p : t → T) : M T := gets (λ s, p (self s)).
Definition set {T} (p : t → T) {P : Setter p} (v : T) : M unit := zoom self (p <~ v).

Definition on_config {A} (m : Effects.M RTConfig_t A) : M A := λ s,
  match config s with
  | None => None
  | Some c =>
      match m c with
      | None => None
      | Some (a, c', e) => Some (a, s <| config := Some c' |>, e)
      end
  end.
Definition on_router {A} (m : Effects.M Router.sys A) : M A := λ s,
  match m (Router.MkSys (localRouter s) (links s)) with
  | None => None
  | Some (a, Router.MkSys r l, e) => Some (a, s <| localRouter := r |> <| links := l |>, e)
  end.

Definition isBusy (r : t) : bool := negb (bool_decide (next_state r = IDLE)).
Definition isDataArrived (r : t) : bool := bool_decide (state r = DATA_RDY).
Definition isUnderSetup (r : t) : bool :=
  bool_decide (state r = SW_SETUP) || bool_decide (state r = BW_SETUP)
  || bool_decide (next_state r = SW_SETUP) || bool_decide (next_state r = BW_SETUP).

Definition DONE_NOTIF_ADDR : Z := 0x00000.
Definition DMAC_NOTIF_ADDR : Z := 0x00001.
Definition ROUTER_NODE0_OFFSET : Z := 0x000000.
Definition ROUTER_NODE1_OFFSET : Z := 0x400000.
Definition ROUTER_NODE2_OFFSET : Z := 0x800000.

Definition getNodeID (addr : Z) : Z :=
  if (addr <? ROUTER_NODE1_OFFSET) && (ROUTER_NODE0_OFFSET <=? addr) then 1
  else if (addr <? ROUTER_NODE2_OFFSET) && (ROUTER_NODE1_OFFSET <=? addr) then 2
  else if ROUTER_NODE2_OFFSET <=? addr then 3
  else -1.

Definition clear_send_fifo : M unit := set send_fifo [].
Definition clear_recv_fifo : M unit := set recv_fifo [].

Definition start (offset mode : Z) (block_mode : bool) : M unit :=
  set req_addr offset;;
  if (mode =? DATALOAD) && block_mode then set next_state BR_HEAD;; clear_recv_fifo
  else if (mode =? DATALOAD) && negb block_mode then set next_state SR_HEAD;; clear_recv_fifo
  else if (mode =? DATASTORE) && block_mode then set next_state BW_SETUP;; clear_send_fifo
  else if (mode =? DATASTORE) && negb block_mode then set next_state SW_SETUP;; clear_send_fifo
  else mret ().

Definition enqueue (data : Z) : M unit := zoom self (modify (λ r, r <| send_fifo ::= λ l, l ++ [data] |>)).
(** [front] and [pop] of an empty queue are undefined. *)
Definition pop (fifo : t → list Z) {P : Setter fifo} : M Z :=
  l ← get fifo;
  match l with [] => crash | d :: l => set fifo l;; mret d end.
Definition dequeue : M Z := pop recv_fifo.

Definition haveData : M bool :=
  a ← get rtRx; zoom links (zoom_key Links.slaves a Links.haveData).
Definition getData : M FLIT_t :=
  a ← get rtRx; e ← zoom links (zoom_key Links.slaves a Links.getData); mret (flit e).
Definition slaveReady (vc : Z) : M bool := a ← get rtTx; zoom links (Links.slaveReady a vc).
Definition send (f : FLIT_t) (vc : Z) : M unit := a ← get rtTx; zoom links (Links.send a f vc).

(** A received flit. *)
Definition mark (status : RTConfig_t → list bool) {P : Setter status} (src : Z) : M unit :=
  on_config (aset status (u32 (src - 1)) true).
Definition receive : M unit :=
  h ← haveData;
  when h
    (f ← getData;
     if (ftype f =? FTYPE_DATA) || (ftype f =? FTYPE_TAIL) then
       zoom self (modify (λ r, r <| recv_fifo ::= λ l, l ++ [data f] |>))
     else if ftype f =? FTYPE_HEADTAIL then
       let '(addr, mtype, vch_, src, dst) := decode_headflit f in
       when (mtype =? MTYPE_DONE)
         (if addr =? DONE_NOTIF_ADDR then mark done_status src
          else if addr =? DMAC_NOTIF_ADDR then mark dmac_status src
          else mret ())
     else mret ()).

Definition checkHWint (c : RTConfig_t) : bool :=
  existsb id (zip_with andb (done_status c) (done_mask c))
  || existsb id (zip_with andb (dmac_status c) (dmac_mask c)).

(** Send the head of a message when the router is ready for it. *)
Definition send_head (mtype : Z) (tail : bool) (next : rt_state) : M unit :=
  a ← get req_addr;
  let node_id := getNodeID a in
  vs ← on_config (gets data_vch); v ← from_option (nthz vs (node_id - 1));
  set use_vch v;;
  ok ← slaveReady v;
  when ok
    (id_ ← on_config (gets router_id);
     send (make_head_flit a mtype v id_ (u32 node_id) tail) v;;
     set next_state next).

Fixpoint send_block (n : nat) : M unit :=
  match n with
  | O => mret ()
  | S n =>
      d ← pop send_fifo;
      l ← get send_fifo; v ← get use_vch;
      send (make_data_flit d (bool_decide (l = []))) v;;
      if bool_decide (l = []) then set next_state IDLE else send_block n
  end.

(** One cycle of the state machine. *)
Definition work (st : rt_state) (bandwidth : nat) : M unit :=
  match st with
  | IDLE => mret ()
  | SW_SETUP => l ← get send_fifo; when (Nat.eqb (length l) 1) (set next_state SW_HEAD)
  | BW_SETUP =>
      l ← get send_fifo; n ← get packet_size;
      when (Z.of_nat (length l) =? n) (set next_state BW_HEAD)
  | SR_HEAD => send_head MTYPE_SR true SR_WAIT
  | SW_HEAD => send_head MTYPE_SW false SW_DATA
  | BR_HEAD => send_head MTYPE_BR true BR_WAIT
  | BW_HEAD => send_head MTYPE_BW false BW_DATA
  | SW_DATA =>
      d ← pop send_fifo; v ← get use_vch;
      send (make_data_flit d true) v;; set next_state IDLE
  | BW_DATA => send_block bandwidth
  | SR_WAIT => l ← get recv_fifo; when (Nat.eqb (length l) 1) (set next_state DATA_RDY)
  | BR_WAIT =>
      l ← get recv_fifo; n ← get packet_size;
      when (Z.of_nat (length l) =? n) (set next_state DATA_RDY)
  | DATA_RDY => l ← get recv_fifo; when (Nat.eqb (length l) 0) (set next_state IDLE)
  end.

Section Cycle.
  (** [machine->num_cycles] *)
  Variable now : Z.

(** The identifier is never marked as registered. *)
Definition step : M unit :=
  c ← on_config (gets id); reg ← get registed_router_id;
  when (negb (u32 reg =? router_id c)) (on_router (zoom Router.self (Router.setID (router_id c))));;
  n ← get mem_bandwidth;
  for_range 0 (Z.to_nat n) (λ _, on_router (Router.step now);; receive);;
  c ← on_config (gets id);
  zoom self (zoom lines
    (if checkHWint c then DeviceInt.assertInt DeviceInt.IRQ7 else DeviceInt.deassertInt DeviceInt.IRQ7));;
  st ← get next_state;
  set state st;;
  work st (Z.to_nat n).

Definition reset : M unit :=
  set next_state IDLE;; set state IDLE;;
  c ← on_config (gets id); a ← get rtRx;
  zoom links (zoom_key Links.slaves a (Links.setReadyStat (Some (iready c))));;
  on_router (Router.reset now);;
  clear_send_fifo;; clear_recv_fifo.

End Cycle.

Definition abort : M unit := set next_state IDLE;; set state IDLE.
Definition setConfig (c : RTConfig_t) : M unit := modify (λ s, s <| config := Some c |>).

(** [RouterInterface::RouterInterface].  The receiver takes the address [b], the router
    those from [a] on; the raw values are the memory of the new objects. *)
Definition RouterInterface (vcbufsize dcachebsize mem_bandwidth_ : Z) (raw : t)
    (raw_ic : Z → InputChannel.t) (raw_oc : Z → OutputChannel.t) (raw_rdy : list bool) (a b : Z)
    (l : Links.t) : sys :=
  let l1 := Links.Mk (<[b := Links.MkSlave None []]> (Links.slaves l)) (Links.rdy l) in
  let '(r, _, l2) := Router.Router vcbufsize dcachebsize raw_ic raw_oc raw_rdy a b None 0 l1 in
  MkSys
    (raw <| next_state := IDLE |> <| state := IDLE |> <| packet_size := dcachebsize `quot` 4 |>
         <| registed_router_id := 0 |> <| rtRx := b |> <| rtTx := Some (Router.fromLocal r) |>
         <| mem_bandwidth := mem_bandwidth_ |> <| send_fifo := [] |> <| recv_fifo := [] |>
         <| lines := DeviceInt.DeviceInt |>)
    None r l2.

End RouterInterface.

(** ** The registers *)
Module RouterIOReg.
Import RouterInterface.

Definition ROUTER_ID_OFFSET : Z := 0x0000.
Definition ROUTER_DVCH_NODE0_OFFSET : Z := 0x0004.
Definition ROUTER_DVCH_NODE1_OFFSET : Z := 0x0008.
Definition ROUTER_DVCH_NODE2_OFFSET : Z := 0x000C.
Definition ROUTER_IREADY_OFFSET : Z := 0x0010.
Definition ROUTER_INTVCH_NODE0_OFFSET : Z := 0x0014.
Definition ROUTER_INTVCH_NODE1_OFFSET : Z := 0x0018.
Definition ROUTER_INTVCH_NODE2_OFFSET : Z := 0x001C.
Definition ROUTER_DONE_STAT_OFFSET : Z := 0x0020.
Definition ROUTER_DONE_MASK_OFFSET : Z := 0x0024.
Definition ROUTER_DMAC_STAT_OFFSET : Z := 0x0028.
Definition ROUTER_DMAC_MASK_OFFSET : Z := 0x002C.
Definition ROUTER_ABORT_OFFSET : Z := 0x0030.
Definition ROUTER_RESET_BIT : Z := 0x1.
Definition ROUTER_ID_BITMASK : Z := 0x3.
Definition ROUTER_VCH_BITMASK : Z := 0x7.           (* ROUTER_DVCH_NODE*, ROUTER_INTVCH_NODE* *)
Definition ROUTER_IREADY_BITMASK : Z := 0xFF.
Definition ROUTER_STAT_BITMASK : Z := 0x7.          (* ROUTER_DONE_*, ROUTER_DMAC_* *)
Definition ROUTER_ABORT_BITMASK : Z := 0x7.

(** The registers, with the interface that they belong to; the others are in its
    [config]. *)
Record t := Mk { abort : Z (* uint32 *); rtif : sys }.
#[global] Instance eta : Eta t := λ r, Mk (abort r) (rtif r).
Notation M := (Effects.M t).

(** [INIT_IREADY] and the others are all false; the array keeps its address. *)
Definition clear_reg : M unit :=
  abort <~ 0;;
  c ← zoom rtif (on_config (gets id));
  zoom rtif (on_config (modify (λ _, MkConfig 0 [0; 0; 0] (iready c) [0; 0; 0]
    (replicate REMOTE_NODE_COUNT false) (replicate REMOTE_NODE_COUNT false)
    (replicate REMOTE_NODE_COUNT false) (replicate REMOTE_NODE_COUNT false))));;
  zoom rtif (zoom links (zoom_key Links.rdy (iready c) (id <~ replicate VCH_SIZE false))).

(** [RouterIOReg::RouterIOReg]: the ready array takes the address [a]. *)
Definition RouterIOReg (a : Z) : M unit :=
  zoom rtif (setConfig (MkConfig 0 [0; 0; 0] a [0; 0; 0]
    (replicate REMOTE_NODE_COUNT false) (replicate REMOTE_NODE_COUNT false)
    (replicate REMOTE_NODE_COUNT false) (replicate REMOTE_NODE_COUNT false)));;
  zoom rtif (zoom links (modify (λ l, Links.Mk (Links.slaves l)
    (<[a := replicate VCH_SIZE false]> (Links.rdy l)))));;
  clear_reg.

Definition bin2bool (bindata : Z) (len : nat) : list bool :=
  (λ i, nz (Z.land (u32 (Z.shiftl 1 (Z.of_nat i))) bindata)) <$> seq 0 len.
Fixpoint bool2bin_from (i : Z) (boolarray : list bool) (bindata : Z) : Z :=
  match boolarray with
  | [] => bindata
  | b :: l => bool2bin_from (i + 1) l (if b then u32 (bindata + Z.shiftl 1 i) else bindata)
  end.
Definition bool2bin (boolarray : list bool) : Z := bool2bin_from 0 boolarray 0.

(** The mapper passes the physical address, not the offset. *)
Definition ready (offset mode client : Z) : M bool :=
  r ← gets (λ s, self (rtif s));
  mret ((offset =? ROUTER_ABORT_OFFSET) || negb (isBusy r)).

Definition conf {A} (m : Effects.M RTConfig_t A) : M A := zoom rtif (on_config m).
Definition on_iready {A} (m : Effects.M (list bool) A) : M A :=
  a ← conf (gets iready); zoom rtif (zoom links (zoom_key Links.rdy a m)).

Definition fetch_word (offset mode client : Z) : M Z :=
  if offset =? ROUTER_ID_OFFSET then conf (gets router_id)
  else if offset =? ROUTER_DVCH_NODE0_OFFSET then conf (aget data_vch 0)
  else if offset =? ROUTER_DVCH_NODE1_OFFSET then conf (aget data_vch 1)
  else if offset =? ROUTER_DVCH_NODE2_OFFSET then conf (aget data_vch 2)
  else if offset =? ROUTER_IREADY_OFFSET then on_iready (gets bool2bin)
  else if offset =? ROUTER_INTVCH_NODE0_OFFSET then conf (aget int_vch 0)
  else if offset =? ROUTER_INTVCH_NODE1_OFFSET then conf (aget int_vch 1)
  else if offset =? ROUTER_INTVCH_NODE2_OFFSET then conf (aget int_vch 2)
  else if offset =? ROUTER_DONE_STAT_OFFSET then conf (gets (λ c, bool2bin (done_status c)))
  else if offset =? ROUTER_DONE_MASK_OFFSET then conf (gets (λ c, bool2bin (done_mask c)))
  else if offset =? ROUTER_DMAC_STAT_OFFSET then conf (gets (λ c, bool2bin (dmac_status c)))
  else if offset =? ROUTER_DMAC_MASK_OFFSET then conf (gets (λ c, bool2bin (dmac_mask c)))
  else if offset =? ROUTER_ABORT_OFFSET then gets abort
  else raise client DBE DATALOAD (-1);; mret 0xFFFFFFFF.

(** Ones clear the marks. *)
Definition clear_marks (data : Z) (l : list bool) : list bool :=
  zip_with (λ clear mark, mark && negb clear) (bin2bool (Z.land data ROUTER_STAT_BITMASK) REMOTE_NODE_COUNT) l.

Section Store.
  Variable now : Z.

(** The falling edge of the reset bit.  By the precedence of [==] the first condition
    of the source is [data & ROUTER_ABORT_BITMASK & 0]. *)
Definition store_abort (data : Z) : M unit :=
  a ← gets abort;
  (if nz (Z.land a ROUTER_RESET_BIT)
      && nz (Z.land (Z.land data ROUTER_ABORT_BITMASK) (Z.b2z (ROUTER_RESET_BIT =? 0)))
   then zoom rtif (reset now)
   else if nz (Z.land a ROUTER_RESET_BIT)
      && (Z.land (Z.land data ROUTER_ABORT_BITMASK) ROUTER_RESET_BIT =? 0)
   then zoom rtif RouterInterface.abort
   else mret ());;
  abort <~ Z.land data ROUTER_ABORT_BITMASK.

Definition store_word (offset data client : Z) : M unit :=
  let vch_ := Z.land data ROUTER_VCH_BITMASK in
  let mask_ := bin2bool (Z.land data ROUTER_STAT_BITMASK) REMOTE_NODE_COUNT in
  if offset =? ROUTER_ID_OFFSET then conf (router_id <~ Z.land data ROUTER_ID_BITMASK)
  else if offset =? ROUTER_DVCH_NODE0_OFFSET then conf (aset data_vch 0 vch_)
  else if offset =? ROUTER_DVCH_NODE1_OFFSET then conf (aset data_vch 1 vch_)
  else if offset =? ROUTER_DVCH_NODE2_OFFSET then conf (aset data_vch 2 vch_)
  else if offset =? ROUTER_IREADY_OFFSET then
    on_iready (id <~ bin2bool (Z.land data ROUTER_IREADY_BITMASK) VCH_SIZE)
  else if offset =? ROUTER_INTVCH_NODE0_OFFSET then conf (aset int_vch 0 vch_)
  else if offset =? ROUTER_INTVCH_NODE1_OFFSET then conf (aset int_vch 1 vch_)
  else if offset =? ROUTER_INTVCH_NODE2_OFFSET then conf (aset int_vch 2 vch_)
  else if offset =? ROUTER_DONE_STAT_OFFSET then
    conf (modify (λ c, c <| done_status ::= clear_marks data |>))
  else if offset =? ROUTER_DONE_MASK_OFFSET then conf (done_mask <~ mask_)
  else if offset =? ROUTER_DMAC_STAT_OFFSET then
    conf (modify (λ c, c <| dmac_status ::= clear_marks data |>))
  else if offset =? ROUTER_DMAC_MASK_OFFSET then conf (dmac_mask <~ mask_)
  else if offset =? ROUTER_ABORT_OFFSET then store_abort data
  else raise client DBE DATASTORE (-1).

End Store.
End RouterIOReg.

(** ** The windows *)
Module RouterRange.
Import RouterInterface.

Record t := Mk { base : Z (* uint32, of Range *); block_mode : bool }.

(** [DeviceMap (0xC10000)] *)
Definition RouterRange (block_en : bool) : t := Mk 0 block_en.

Definition ready (r : t) (offset mode client : Z) : M bool :=
  i ← gets self;
  if mode =? DATALOAD then
    if negb (isBusy i) then start (u32 (offset - base r)) mode (block_mode r);; mret false
    else mret (isDataArrived i)
  else if mode =? DATASTORE then
    if negb (isBusy i) then start (u32 (offset - base r)) mode (block_mode r);; mret true
    else mret (isUnderSetup i)
  else
    raise client (if mode =? INSTFETCH then IBE else DBE) mode (-1);; mret false.

Definition fetch_word (offset mode client : Z) : M Z := dequeue.
Definition store_word (offset data client : Z) : M unit := enqueue data.

End RouterRange.

(** ** Properties of the registers *)
Module IORegs.
Import RouterInterface RouterIOReg.

(** The arrays have the lengths of the source. *)
Record config_ok (c : RTConfig_t) : Prop := {
  ok_data : length (data_vch c) = 3%nat;
  ok_int : length (int_vch c) = 3%nat;
  ok_done : length (done_status c) = REMOTE_NODE_COUNT;
  ok_dmac : length (dmac_status c) = REMOTE_NODE_COUNT
}.

(** The registers that keep what is stored, cut to their masks. *)
Definition plain : list (Z * Z) :=
  [(ROUTER_ID_OFFSET, ROUTER_ID_BITMASK);
   (ROUTER_DVCH_NODE0_OFFSET, ROUTER_VCH_BITMASK); (ROUTER_DVCH_NODE1_OFFSET, ROUTER_VCH_BITMASK);
   (ROUTER_DVCH_NODE2_OFFSET, ROUTER_VCH_BITMASK); (ROUTER_INTVCH_NODE0_OFFSET, ROUTER_VCH_BITMASK);
   (ROUTER_INTVCH_NODE1_OFFSET, ROUTER_VCH_BITMASK); (ROUTER_INTVCH_NODE2_OFFSET, ROUTER_VCH_BITMASK);
   (ROUTER_IREADY_OFFSET, ROUTER_IREADY_BITMASK);
   (ROUTER_DONE_MASK_OFFSET, ROUTER_STAT_BITMASK); (ROUTER_DMAC_MASK_OFFSET, ROUTER_STAT_BITMASK)].
Definition statuses : list Z := [ROUTER_DONE_STAT_OFFSET; ROUTER_DMAC_STAT_OFFSET].

Lemma low_bits d n : 0 ≤ n → Z.land d (Z.ones n) = d mod 2 ^ n ∧ 0 ≤ d mod 2 ^ n < 2 ^ n.
Proof. intros. rewrite Z.land_ones by done. split; [done|]. apply Z.mod_pos_bound, Z.pow_pos_nonneg; lia. Qed.

Lemma all_below (P : Z → bool) n x : forallb P (seqZ 0 n) = true → 0 ≤ x < n → P x = true.
Proof. rewrite forallb_forall. intros H Hx. apply H, list_elem_of_In, elem_of_seqZ. lia. Qed.

(** [bool2bin] undoes [bin2bool]. *)
Lemma bool2bin_bin2bool3 d : bool2bin (bin2bool (Z.land d 7) 3) = Z.land d 7.
Proof.
  change 7 with (Z.ones 3). destruct (low_bits d 3 ltac:(lia)) as [-> Hd].
  apply Z.eqb_eq. revert Hd. generalize (d mod 2 ^ 3). intros x.
  by apply (all_below (λ x, bool2bin (bin2bool x 3) =? x) (2 ^ 3)).
Qed.
Lemma bool2bin_bin2bool8 d : bool2bin (bin2bool (Z.land d 255) 8) = Z.land d 255.
Proof.
  change 255 with (Z.ones 8). destruct (low_bits d 8 ltac:(lia)) as [-> Hd].
  apply Z.eqb_eq. revert Hd. generalize (d mod 2 ^ 8). intros x.
  by apply (all_below (λ x, bool2bin (bin2bool x 8) =? x) (2 ^ 8)).
Qed.
Lemma bool2bin_clear d (a b c : bool) :
  bool2bin (clear_marks d [a; b; c]) = Z.ldiff (bool2bin [a; b; c]) (Z.land d 7).
Proof.
  unfold clear_marks. change ROUTER_STAT_BITMASK with 7.
  change 7 with (Z.ones 3). destruct (low_bits d 3 ltac:(lia)) as [-> Hd].
  apply Z.eqb_eq. revert Hd. generalize (d mod 2 ^ 3). intros x.
  apply (all_below (λ x, bool2bin (zip_with (λ clear mark, mark && negb clear) (bin2bool x 3) [a; b; c])
    =? Z.ldiff (bool2bin [a; b; c]) x) (2 ^ 3)).
  by destruct a, b, c.
Qed.

Lemma bit0 x : nz (Z.land x 1) = Z.testbit x 0.
Proof.
  change 1 with (Z.ones 1) at 1. rewrite Z.land_ones, Z.bit0_odd by lia. change (2 ^ 1) with 2.
  rewrite Zmod_odd. by destruct (Z.odd x).
Qed.

(** The accesses of the ready array. *)
Definition set_iready (a : Z) (l : list bool) (r : RouterIOReg.t) : RouterIOReg.t :=
  r <| rtif ::= λ s, s <| links ::= λ k, Links.Mk (Links.slaves k) (<[a := l]> (Links.rdy k)) |> |>.
Lemma on_iready_eq {A} (m : Effects.M (list bool) A) r c arr x arr' : config (rtif r) = Some c →
  Links.rdy (links (rtif r)) !! iready c = Some arr → m arr = Some (x, arr', []) →
  on_iready m r = Some (x, set_iready (iready c) arr' r, []).
Proof.
  destruct r as [ab [i cf rt [sl rd]]]. cbn. intros -> Ha Em.
  unfold on_iready, conf. rewrite (bind_eq _ _ _ (iready c) (Mk ab (MkSys i (Some c) rt (Links.Mk sl rd)))) by reflexivity.
  unfold zoom, zoom_key. cbn. rewrite Ha, Em. reflexivity.
Qed.

Lemma iready_register r c arr now d mode cl : config (rtif r) = Some c →
  Links.rdy (links (rtif r)) !! iready c = Some arr →
  ∃ r', store_word now ROUTER_IREADY_OFFSET d cl r = Some ((), r', []) ∧
    fetch_word ROUTER_IREADY_OFFSET mode cl r' = Some (Z.land d ROUTER_IREADY_BITMASK, r', []).
Proof.
  intros Hc Ha. set (l := bin2bool (Z.land d ROUTER_IREADY_BITMASK) VCH_SIZE).
  exists (set_iready (iready c) l r). split.
  - change (store_word now ROUTER_IREADY_OFFSET d cl r) with (on_iready (id <~ l) r).
    by apply (on_iready_eq _ r c arr).
  - change (fetch_word ROUTER_IREADY_OFFSET mode cl) with (on_iready (gets bool2bin)).
    rewrite (on_iready_eq _ _ c l (bool2bin l) l); [|done|by apply lookup_insert_eq|done].
    unfold l at 1. rewrite bool2bin_bin2bool8. do 3 f_equal. destruct r as [ab [i cf rt [sl rd]]].
    unfold set_iready. cbn. by rewrite insert_insert_eq.
Qed.

Ltac open_config c Hok :=
  destruct Hok as [H1 H2 H3 H4]; destruct c as [id_ dv ir iv ds ms dm mm]; cbn in H1, H2, H3, H4;
  destruct dv as [|dv0 [|dv1 [|dv2 [|]]]]; try discriminate H1;
  destruct iv as [|iv0 [|iv1 [|iv2 [|]]]]; try discriminate H2;
  destruct ds as [|ds0 [|ds1 [|ds2 [|]]]]; try discriminate H3;
  destruct ms as [|ms0 [|ms1 [|ms2 [|]]]]; try discriminate H4; clear H1 H2 H3 H4.

(** The registers of the router interface: a plain register keeps the bits of the datum
    under its mask; ones clear the marks of finished work and zeros leave them; the
    falling edge of the reset bit does what abort is for (the interface goes idle, its
    queues and its router keep what they hold, which a reset would clear) and the abort
    bit does nothing; any other offset is a bus error that changes nothing. *)
Theorem io_registers (r : RouterIOReg.t) c (now d mode cl : Z) (Hc : config (rtif r) = Some c)
    (Hok : config_ok c) (Ha : is_Some (Links.rdy (links (rtif r)) !! iready c)) :
  (∀ off mask, (off, mask) ∈ plain → ∃ r', store_word now off d cl r = Some ((), r', []) ∧
     fetch_word off mode cl r' = Some (Z.land d mask, r', [])) ∧
  (∀ off, off ∈ statuses → ∃ st r', fetch_word off mode cl r = Some (st, r, []) ∧
     store_word now off d cl r = Some ((), r', []) ∧
     fetch_word off mode cl r' = Some (Z.ldiff st (Z.land d 7), r', [])) ∧
  store_word now ROUTER_ABORT_OFFSET d cl r =
    Some ((), (if Z.testbit (abort r) 0 && negb (Z.testbit d 0)
               then r <| rtif ::= λ s, s <| self ::= λ i, i <| next_state := IDLE |> <| state := IDLE |> |> |>
               else r) <| abort := Z.land d 7 |>, []) ∧
  (∀ off, off ∉ (plain.*1 ++ statuses ++ [ROUTER_ABORT_OFFSET]) →
     fetch_word off mode cl r = Some (0xFFFFFFFF, r, [ExcEvent cl DBE DATALOAD (-1)]) ∧
     store_word now off d cl r = Some ((), r, [ExcEvent cl DBE DATASTORE (-1)])).
Proof.
  destruct Ha as [arr Ha]. split; [|split; [|split]].
  - intros off mask H. unfold plain in H.
    repeat (apply elem_of_cons in H as [[= -> ->]|H]); [..|by apply elem_of_nil in H].
    8: by apply (iready_register r c arr).
    all: clear Ha; destruct r as [ab [i cf rtr k]]; cbn in Hc; subst cf; open_config c Hok; eexists;
      (split; [reflexivity|]); first [reflexivity|exact (f_equal (λ z, Some (z, _, _)) (bool2bin_bin2bool3 d))].
  - intros off H. clear Ha. destruct r as [ab [i cf rtr k]]; cbn in Hc; subst cf; open_config c Hok. unfold statuses in H.
    repeat (apply elem_of_cons in H as [->|H]); [..|by apply elem_of_nil in H].
    all: do 2 eexists; split; [reflexivity|]; split; [reflexivity|]; exact (f_equal (λ z, Some (z, _, _)) (bool2bin_clear d _ _ _)).
  - clear. change (store_word now ROUTER_ABORT_OFFSET d cl r) with (store_abort now d r). unfold store_abort.
    rewrite gets_bind. change (Z.b2z (ROUTER_RESET_BIT =? 0)) with 0. rewrite Z.land_0_r, andb_false_r.
    change ROUTER_RESET_BIT with 1. rewrite bit0. rewrite <- (negb_involutive (Z.land _ 1 =? 0)).
    change (negb (Z.land (Z.land d ROUTER_ABORT_BITMASK) 1 =? 0)) with (nz (Z.land (Z.land d ROUTER_ABORT_BITMASK) 1)).
    rewrite bit0, Z.land_spec. change (Z.testbit ROUTER_ABORT_BITMASK 0) with true. rewrite andb_true_r.
    by destruct (Z.testbit (abort r) 0 && negb (Z.testbit d 0)).
  - intros off H. clear -H. unfold fetch_word, store_word.
    repeat match goal with |- context [off =? ?x] =>
      destruct (Z.eqb_spec off x) as [->|_]; [destruct H; apply (bool_decide_unpack _); by vm_compute|] end.
    done.
Qed.

(** After a reset of the machine; the interface waits for an answer that never comes, and
    the program gives up. *)
Definition demo_regs : RouterIOReg.t :=
  RouterIOReg.Mk 1 (MkSys (RouterInterface.Mk 0 4 1 [] [7] 8 0 SR_WAIT SR_WAIT 8 (Some 0) DeviceInt.DeviceInt)
    (Some (MkConfig 0 [0; 0; 0] 8 [0; 0; 0] [true; false; true] [false; false; false]
       [false; false; false] [false; false; false]))
    (Router.Mk 0 ∅ (Crossbar.Mk ∅ 0 ∅ ∅) 0 0 0 0) (Links.Mk ∅ {[ 8 := replicate VCH_SIZE false ]})).

Lemma io_registers_witness :
  (∃ r', store_word 5 ROUTER_DONE_STAT_OFFSET 1 0 demo_regs = Some ((), r', []) ∧
     fetch_word ROUTER_DONE_STAT_OFFSET DATALOAD 0 r' = Some (4, r', [])) ∧
  (∃ r', store_word 5 ROUTER_ABORT_OFFSET 0 0 demo_regs = Some ((), r', []) ∧
     state (self (rtif r')) = IDLE ∧ recv_fifo (self (rtif r')) = [7]).
Proof.
  split.
  - destruct (io_registers demo_regs _ 5 1 DATALOAD 0 eq_refl) as (_ & H & _ & _);
      [by split|by eexists|].
    destruct (H ROUTER_DONE_STAT_OFFSET) as (st & r' & E & E1 & E2); [by constructor|].
    exists r'. split; [exact E1|]. rewrite E2. injection E as <-. reflexivity.
  - destruct (io_registers demo_regs _ 5 0 DATALOAD 0 eq_refl) as (_ & _ & E & _); [by split|by eexists|].
    eexists. split; [exact E|]. by split.
Defined.

End IORegs.
