(* ===== verification/Cube.v ===== *)
(** * Cube: the stacked system (vmips.cc in cube mode)

    The processor's interface to the network, the routers and the accelerators below
    it, in the order in which the machine builds, resets and steps them.  The class of
    the accelerators is a parameter: the objects [W] behind their local buses and the
    state [C] of their cores. *)

From S2P Require Import Prelude Effects Types Interrupts Range Mapper Router Accel RtIf.

Module Cube.
Import RouterInterface.

Record node {W C : Type} := MkNode {
  acc : CubeAccelerator.t;
  router : Router.t;
  bus : LocalMapper.t W;
  core : C
}.
Arguments node : clear implicits.
#[global] Instance node_eta {W C} : Eta (node W C) := λ n, MkNode W C (acc n) (router n) (bus n) (core n).

(** What is behind the system bus: the windows and registers of vmips.cc, [rtif] with all
    the ports, and the accelerators. *)
Record t {W C : Type} := Mk {
  io : RouterIOReg.t;                (* rtIO, rtif *)
  io_base : Z;
  rtrange_kseg0 : RouterRange.t;
  rtrange_kseg1 : RouterRange.t;
  nodes : list (node W C);           (* ac0, ac1, ac2 as far as they exist *)
  num_cycles : Z                     (* uint32 *)
}.
Arguments t : clear implicits.
#[global] Instance t_eta {W C} : Eta (t W C) := λ m,
  Mk W C (io m) (io_base m) (rtrange_kseg0 m) (rtrange_kseg1 m) (nodes m) (num_cycles m).

Section Cube.
Context {W C : Type}.
Notation t := (t W C).

Definition rt {A} (m : Effects.M RouterInterface.sys A) : Effects.M t A := zoom io (zoom RouterIOReg.rtif m).
Definition ports (m : t) : Links.t := links (RouterIOReg.rtif (io m)).
Definition set_ports (l : Links.t) (m : t) : t :=
  m <| io ::= λ i, i <| RouterIOReg.rtif ::= λ r, r <| links := l |> |> |>.

(** ** The ranges of the router on the system bus *)
Definition RT_IO : Z := 0.
Definition RT_KSEG0 : Z := 1.
Definition RT_KSEG1 : Z := 2.

Section Bus.
  (** [machine->physmem->byteswapped] and [machine->cpu->is_bigendian()]. *)
  Variable byteswapped is_bigendian : bool.

(** The word accesses of the two classes; the narrow ones are those of [DeviceMap]. *)
Definition fetch_word (r offset mode client : Z) : Effects.M t Z :=
  if r =? RT_IO then zoom io (RouterIOReg.fetch_word offset mode client)
  else rt (RouterRange.fetch_word offset mode client).
Definition store_word (r offset data client : Z) : Effects.M t unit :=
  if r =? RT_IO then now ← gets num_cycles; zoom io (RouterIOReg.store_word now offset data client)
  else rt (RouterRange.store_word offset data client).

#[local] Instance bus_ops : RangeOps t := {|
  getBase m r :=
    if r =? RT_IO then io_base m
    else RouterRange.base (if r =? RT_KSEG0 then rtrange_kseg0 m else rtrange_kseg1 m);
  getExtent m r := if r =? RT_IO then 0x3F0000 else 0xC10000;
  setBase r a :=
    if r =? RT_IO then io_base <~ a
    else if r =? RT_KSEG0 then modify (λ m, m <| rtrange_kseg0 ::= λ w, RouterRange.Mk a (RouterRange.block_mode w) |>)
    else modify (λ m, m <| rtrange_kseg1 ::= λ w, RouterRange.Mk a (RouterRange.block_mode w) |>);
  canRead m r o := true;
  canWrite m r o := true;
  r_fetch_word r o mode cl := fetch_word r o mode cl;
  r_fetch_halfword r o cl := DeviceMap.fetch_halfword (fetch_word r) byteswapped is_bigendian o cl;
  r_fetch_byte r o cl := DeviceMap.fetch_byte (fetch_word r) byteswapped is_bigendian o cl;
  r_store_word r o d cl := store_word r o d cl;
  r_store_halfword r o d cl := DeviceMap.store_halfword (store_word r) byteswapped is_bigendian o d cl;
  r_store_byte r o d cl := DeviceMap.store_byte (store_word r) byteswapped is_bigendian o d cl;
  r_ready r a mode cl :=
    if r =? RT_IO then zoom io (RouterIOReg.ready a mode cl)
    else w ← gets (if r =? RT_KSEG0 then rtrange_kseg0 else rtrange_kseg1); rt (RouterRange.ready w a mode cl);
  r_extra_latency m r := 0
|}.
End Bus.

Section Machine.
  Context `{RangeOps W} `{HasNif W}.
  Notation ac := (CubeAccelerator.sys W C).

Definition on_node {A} (i : nat) (m : Effects.M ac A) : Effects.M t A := λ s,
  match nodes s !! i with
  | None => None
  | Some n =>
      match m (CubeAccelerator.MkSys _ _ (acc n) (router n) (ports s) (bus n) (core n)) with
      | None => None
      | Some (a, s', e) =>
          Some (a, set_ports (CubeAccelerator.links s')
            (s <| nodes ::= <[i := MkNode _ _ (CubeAccelerator.self s') (CubeAccelerator.localRouter s')
                                 (CubeAccelerator.localBus s') (CubeAccelerator.core s')]> |>), e)
      end
  end.
Definition each_node (m : nat → Effects.M t unit) : Effects.M t unit :=
  n ← gets (λ s, length (nodes s)); for_each (seq 0 n) m.

(** The virtual methods of the accelerators. *)
Variables core_step core_reset : Effects.M ac unit.

(** [vmips::step_cube], on the memory system.  The other components of the machine are
    arguments. *)
Notation SYS := (Mapper.t t).
Definition step_cube (cpu_step dmac_step increment_time : Effects.M SYS unit) : Effects.M SYS unit :=
  cpu_step;;
  dmac_step;;
  now ← gets (λ s, num_cycles (Mapper.store s));
  zoom Mapper.store (rt (RouterInterface.step now));;
  zoom Mapper.store (each_node (λ i, on_node i (CubeAccelerator.step now core_step)));;
  increment_time;;
  zoom Mapper.store (num_cycles <~ u32 (now + 1)).

(** The resets of [vmips::run] in cube mode. *)
Definition reset : Effects.M t unit :=
  now ← gets num_cycles;
  rt (RouterInterface.reset now);;
  each_node (λ i, on_node i (CubeAccelerator.reset now core_reset)).

(** *** Building the machine

    The options [vcbufsize], [dcachebsize], [mem_bandwidth] and [bus_latency], and what
    the memory of new objects holds. *)
Section Setup.
  Context (bigendian host : bool) (bus_latency vcbufsize dcachebsize mem_bandwidth_ : Z).
  Context (raw_rt : RouterInterface.t) (raw_acc : CubeAccelerator.t).
  Context (raw_ic : Z → InputChannel.t) (raw_oc : Z → OutputChannel.t) (raw_rdy : list bool).
#[local] Instance sys_ops : RangeOps t := bus_ops (byteswapped_of bigendian host) bigendian.

Definition ROUTER_IO_ADDR_TOP : Z := 0xba010000.
Definition AC_KSEG0_TOP : Z := 0x9A400000.
Definition AC_KSEG1_TOP : Z := 0xBA400000.

(** [vmips::setup_router], on a new memory system.  The objects of the interface have the
    addresses below 16, those of node [i] the 16 from [16 * i] on. *)
Definition setup_router : Effects.M SYS bool :=
  l ← gets (λ s, ports (Mapper.store s));
  let r := RouterInterface.RouterInterface vcbufsize dcachebsize mem_bandwidth_ raw_rt raw_ic raw_oc
             raw_rdy 0 8 l in
  zoom Mapper.store (io <~ RouterIOReg.Mk 0 r);;
  zoom Mapper.store (zoom io (RouterIOReg.RouterIOReg 8));;
  zoom Mapper.store (rtrange_kseg0 <~ RouterRange.RouterRange true);;
  zoom Mapper.store (rtrange_kseg1 <~ RouterRange.RouterRange false);;
  e ← Mapper.map_at_physical_address RT_IO ROUTER_IO_ADDR_TOP;
  if negb (e =? 0) then mret false else
  e ← Mapper.map_at_physical_address RT_KSEG0 AC_KSEG0_TOP;
  if negb (e =? 0) then mret false else
  e ← Mapper.map_at_physical_address RT_KSEG1 AC_KSEG1_TOP;
  if negb (e =? 0) then mret false else
  zoom Mapper.store (rt (zoom self (zoom lines (modify (λ l, l <| DeviceInt.lines_connected ::= λ c, Z.lor c DeviceInt.IRQ7 |>)))));;
  mret true.

(** [new] of the accelerator [i + 1] below the last one; [b] is its local bus after
    [setup], [x] the state of its core. *)
Definition upper_router (m : t) : Router.t :=
  match last (nodes m) with
  | Some n => router n
  | None => localRouter (RouterIOReg.rtif (io m))
  end.
Definition set_upper_router (r : Router.t) (m : t) : t :=
  match nodes m with
  | [] => m <| io ::= λ i, i <| RouterIOReg.rtif ::= λ x, x <| localRouter := r |> |> |>
  | _ => m <| nodes ::= alter (λ n, n <| router := r |>) (pred (length (nodes m))) |>
  end.
Definition add_node (b : LocalMapper.t W) (x : C) (m : t) : option t :=
  let id_ := Z.of_nat (length (nodes m)) + 1 in
  let '(c, r, up, l) := CubeAccelerator.build vcbufsize dcachebsize mem_bandwidth_ raw_acc raw_ic raw_oc
    raw_rdy raw_rdy (16 * id_) (16 * id_ + 8) (Some (upper_router m)) id_ (ports m) in
  match up with
  | Some up => Some ((set_ports l (set_upper_router up m)) <| nodes ::= λ ns, ns ++ [MkNode _ _ c r b x] |>)
  | None => None
  end.

(** A machine with the accelerators [acs] in the stack. *)
Definition blank : t :=
  Mk _ _ (RouterIOReg.Mk 0 (MkSys raw_rt None (Router.Mk 0 ∅ (Crossbar.Mk ∅ 0 ∅ ∅) 0 0 0 0) (Links.Mk ∅ ∅))) 0
     (RouterRange.Mk 0 true) (RouterRange.Mk 0 false) [] 0.
Fixpoint add_nodes (acs : list (LocalMapper.t W * C)) (m : t) : option t :=
  match acs with
  | [] => Some m
  | (b, x) :: acs => match add_node b x m with Some m => add_nodes acs m | None => None end
  end.
Definition machine (acs : list (LocalMapper.t W * C)) : option SYS :=
  match setup_router (Mapper.Mapper bigendian host bus_latency blank) with
  | Some (true, m, []) =>
      match add_nodes acs (Mapper.store m) with
      | Some w => Some (m <| Mapper.store := w |>)
      | None => None
      end
  | _ => None
  end.

(** *** A client: the data cache or the uncached accesses of the processor

    The words are requested at first, and moved one in a cycle when they are ready. *)

(** One cycle of everything else. *)
Definition cycle : Effects.M SYS unit := step_cube (mret ()) (mret ()) (mret ()).
Definition cycle_no : Effects.M SYS Z := gets (λ s, num_cycles (Mapper.store s)).

Definition request (a mode : Z) (n : nat) : Effects.M SYS unit :=
  now ← cycle_no; for_range 0 n (λ i, Mapper.request_word now (u32 (a + 4 * i)) mode 0).
Fixpoint wait (a mode : Z) (fuel : nat) : Effects.M SYS unit :=
  match fuel with
  | O => crash
  | S fuel =>
      now ← cycle_no; b ← Mapper.ready now a mode 0;
      if (b : bool) then mret () else cycle;; wait a mode fuel
  end.
Fixpoint loads (a : Z) (n fuel : nat) : Effects.M SYS (list Z) :=
  match n with
  | O => mret []
  | S n =>
      wait a DATALOAD fuel;; now ← cycle_no; d ← Mapper.fetch_word now a DATALOAD 0; cycle;;
      ds ← loads (u32 (a + 4)) n fuel; mret (d :: ds)
  end.
Fixpoint stores (a : Z) (ds : list Z) (fuel : nat) : Effects.M SYS unit :=
  match ds with
  | [] => mret ()
  | d :: ds =>
      wait a DATASTORE fuel;; now ← cycle_no; Mapper.store_word now a d 0;; cycle;;
      stores (u32 (a + 4)) ds fuel
  end.
Definition load_words (a : Z) (n fuel : nat) : Effects.M SYS (list Z) :=
  request a DATALOAD n;; loads a n fuel.
Definition store_words (a : Z) (ds : list Z) (fuel : nat) : Effects.M SYS unit :=
  request a DATASTORE (length ds);; stores a ds fuel.

End Setup.
End Machine.
End Cube.
End Cube.
