(* ===== verification/Vmips.v ===== *)
(** * Vmips: the machine around its components (vmips.h, vmips.cc)

    What the machine takes from its options, how it puts its devices on the bus and on the
    interrupt lines, which accelerators it builds, the cycle of the modes without a network,
    and the loop that runs it.  The cube mode itself is in Cube.v. *)

From Stdlib Require Import (notations) String.
From S2P Require Import Prelude Effects Types Range Mapper Interrupts CStrings Options BoardDev Cube AccDebug.
Import CString.

(** ** The options the machine uses *)
Module Config.

Inductive mode := Mode_cube | Mode_cpu_only | Mode_bus_conn.
#[global] Instance mode_eq_dec : EqDecision mode.
Proof. solve_decision. Defined.
(** The cached versions of the options. *)
Record t := Mk {
  opt_bootmsg : bool; opt_clockdevice : bool; opt_debug : bool; opt_dumpcpu : bool; opt_dumpcp0 : bool;
  opt_haltdevice : bool; opt_haltdumpcpu : bool; opt_haltdumpcp0 : bool; opt_instcounts : bool; opt_memdump : bool;
  opt_realtime : bool; opt_cache_prof : bool; opt_router_prof : bool; opt_exmem_prof : bool;
  opt_clockspeed : Z; clock_nanos : Z;
  opt_clockintr : Z; opt_clockdeviceirq : Z; opt_loadaddr : Z; opt_bootaddr : Z; opt_debuggeraddr : Z;
  opt_memsize : Z; opt_progmemsize : Z; opt_timeratio : Z;
  opt_memdumpfile : list Z; opt_image : list Z; opt_boot : list Z; opt_execname : list Z; opt_ttydev : list Z; opt_ttydev2 : list Z;
  opt_decrtc : bool; opt_deccsr : bool; opt_decstat : bool; opt_decserial : bool; opt_spimconsole : bool; opt_testdev : bool;
  mem_bandwidth : Z; bus_latency : Z; vcbufsize : Z; exmem_latency : Z;
  system_mode : mode
}.
#[global] Instance eta : Eta t := λ c,
  Mk (opt_bootmsg c) (opt_clockdevice c) (opt_debug c) (opt_dumpcpu c) (opt_dumpcp0 c)
    (opt_haltdevice c) (opt_haltdumpcpu c) (opt_haltdumpcp0 c) (opt_instcounts c)
    (opt_memdump c) (opt_realtime c) (opt_cache_prof c) (opt_router_prof c)
    (opt_exmem_prof c) (opt_clockspeed c) (clock_nanos c) (opt_clockintr c)
    (opt_clockdeviceirq c) (opt_loadaddr c) (opt_bootaddr c) (opt_debuggeraddr c)
    (opt_memsize c) (opt_progmemsize c) (opt_timeratio c) (opt_memdumpfile c)
    (opt_image c) (opt_boot c) (opt_execname c) (opt_ttydev c) (opt_ttydev2 c)
    (opt_decrtc c) (opt_deccsr c) (opt_decstat c) (opt_decserial c) (opt_spimconsole c)
    (opt_testdev c) (mem_bandwidth c) (bus_latency c) (vcbufsize c) (exmem_latency c)
    (system_mode c).
Notation M := (Effects.M Options.t).

(** [opt->option(name)->flag], [num] and [str]; the table has a value of the option's own
    type. *)
Definition flag (name : String.string) : M bool :=
  v ← Options.option (chars name); match v with Options.Flag b => mret b | _ => crash end.
Definition num (name : String.string) : M Z :=
  v ← Options.option (chars name); match v with Options.Num n => mret n | _ => crash end.
Definition str (name : String.string) : M (list Z) :=
  v ← Options.option (chars name); match v with Options.Str s => mret s | _ => crash end.

(** An unknown mode is a fatal error. *)
Definition check_mode : M mode :=
  m ← str "system_mode";
  if bool_decide (m = chars "cube"%string) then mret Mode_cube
  else if bool_decide (m = chars "cpu_only"%string) then mret Mode_cpu_only
  else if bool_decide (m = chars "bus_conn"%string) then mret Mode_bus_conn
  else crash.
Definition refresh_options : M t :=
  bootmsg ← flag "bootmsg"; clockdevice ← flag "clockdevice"; debug ← flag "debug"; dumpcpu ← flag "dumpcpu";
  dumpcp0 ← flag "dumpcp0"; haltdevice ← flag "haltdevice"; haltdumpcpu ← flag "haltdumpcpu"; haltdumpcp0 ← flag "haltdumpcp0";
  instcounts ← flag "instcounts"; memdump ← flag "memdump"; realtime ← flag "realtime"; cacheprof ← flag "cacheprof";
  routerprof ← flag "routerprof"; exmemprof ← flag "exmemprof";
  clockspeed ← num "clockspeed";
  nanos ← (if clockspeed =? 0 then crash else mret (1000000000 / clockspeed));
  clockintr ← num "clockintr"; clockdeviceirq ← num "clockdeviceirq"; loadaddr ← num "loadaddr"; bootaddr ← num "bootaddr";
  debuggeraddr ← num "debuggeraddr"; memsize ← num "memsize"; progmemsize ← num "progmemsize"; timeratio ← num "timeratio";
  memdumpfile ← str "memdumpfile"; romfile ← str "romfile"; bootfile ← str "bootfile"; execname ← str "execname";
  ttydev ← str "ttydev"; ttydev2 ← str "ttydev2";
  decrtc ← flag "decrtc"; deccsr ← flag "deccsr"; decstat ← flag "decstat"; decserial ← flag "decserial";
  spimconsole ← flag "spimconsole"; testdev ← flag "testdev";
  bandwidth ← num "mem_bandwidth"; latency ← num "bus_latency"; vcbuf ← num "vcbufsize"; exmem ← num "exmem_latency";
  m ← check_mode;
  mret (Mk bootmsg clockdevice debug dumpcpu dumpcp0 haltdevice haltdumpcpu haltdumpcp0 instcounts memdump realtime cacheprof
    routerprof exmemprof clockspeed nanos clockintr clockdeviceirq loadaddr bootaddr debuggeraddr memsize progmemsize timeratio
    memdumpfile romfile bootfile execname ttydev ttydev2 decrtc deccsr decstat decserial spimconsole testdev bandwidth latency
    vcbuf exmem m).

(** *** A complete table is enough *)
Section Complete.
  Variable o : Options.t.
  Hypothesis Ho : Options.complete (Options.table o).

Lemma flag_run n : Options.find_option_type (chars n) = Some Options.FLAG → ∃ b, flag n o = Some (b, o, []).
Proof.
  intros Hn. destruct (Ho _ _ Hn) as (v & Hv & Ht). unfold flag, Options.option. rewrite bind_assoc, gets_bind, Hv.
  cbn [from_option]. rewrite ret_bind. destruct v; [by eexists|done..].
Qed.
Lemma num_run n : Options.find_option_type (chars n) = Some Options.NUM → ∃ x, num n o = Some (x, o, []) ∧ Options.table o !! chars n = Some (Options.Num x).
Proof.
  intros Hn. destruct (Ho _ _ Hn) as (v & Hv & Ht). unfold num, Options.option. rewrite bind_assoc, gets_bind, Hv.
  cbn [from_option]. rewrite ret_bind. destruct v; [done|by eexists|done].
Qed.
Lemma str_run n : Options.find_option_type (chars n) = Some Options.STR → ∃ x, str n o = Some (x, o, []) ∧ Options.table o !! chars n = Some (Options.Str x).
Proof.
  intros Hn. destruct (Ho _ _ Hn) as (v & Hv & Ht). unfold str, Options.option. rewrite bind_assoc, gets_bind, Hv.
  cbn [from_option]. rewrite ret_bind. destruct v; [done..|by eexists].
Qed.
Definition mode_of (m : list Z) : option mode :=
  if bool_decide (m = chars "cube"%string) then Some Mode_cube else if bool_decide (m = chars "cpu_only"%string) then Some Mode_cpu_only
  else if bool_decide (m = chars "bus_conn"%string) then Some Mode_bus_conn else None.

Ltac read_option :=
  match goal with
  | |- context [bindM (flag ?n) _ o] =>
      let b := fresh "b" in let E := fresh in destruct (flag_run n ltac:(by vm_compute)) as (b & E); rewrite (bind_eq _ _ _ _ _ E); clear E
  | |- context [bindM (num ?n) _ o] =>
      let x := fresh "n" in let E := fresh in let H := fresh "Hn" in
      destruct (num_run n ltac:(by vm_compute)) as (x & E & H); rewrite (bind_eq _ _ _ _ _ E); clear E
  | |- context [bindM (str ?n) _ o] =>
      let x := fresh "s" in let E := fresh in let H := fresh "Hs" in
      destruct (str_run n ltac:(by vm_compute)) as (x & E & H); rewrite (bind_eq _ _ _ _ _ E); clear E
  end.

(** The machine starts from every complete table whose clock speed is not zero and whose mode
    is one of the three; the length of a cycle is zero above one gigahertz, and then the
    clock's assertion fails in the first one. *)
Theorem options_used (speed : Z) (m : list Z)
    (Hspeed : Options.table o !! chars "clockspeed"%string = Some (Options.Num speed))
    (Hm : Options.table o !! chars "system_mode"%string = Some (Options.Str m)) :
  match mode_of m with
  | Some md => if speed =? 0 then refresh_options o = None
      else ∃ c, refresh_options o = Some (c, o, []) ∧ system_mode c = md ∧ clock_nanos c = 1000000000 / speed
  | None => refresh_options o = None
  end.
Proof.
  unfold refresh_options. do 15 read_option. assert (n = speed) as -> by congruence.
  destruct (Z.eqb_spec speed 0) as [->|Hne]; [rewrite crash_bind; by destruct (mode_of m)|]. rewrite ret_bind.
  do 24 read_option. unfold check_mode. rewrite !bind_assoc. read_option. assert (s5 = m) as -> by congruence.
  unfold mode_of. repeat case_bool_decide; try (by rewrite crash_bind); rewrite ret_bind; by eexists.
Qed.
End Complete.

End Config.

(** ** The devices on the bus and on the interrupt lines *)
Module Devices.
Import Config.

(** The ranges that the machine makes: base and extent.  Nothing is read or written before
    the machine runs. *)
Notation places := (gmap Z (Z * Z)).
Definition place (w : places) (r : Z) : Z * Z := default (0, 0) (w !! r).
#[global] Instance place_ops : RangeOps places := {|
  getBase w r := (place w r).1;
  getExtent w r := (place w r).2;
  setBase r b := modify (λ w, <[r := (b, (place w r).2)]> w);
  canRead _ _ _ := true; canWrite _ _ _ := true;
  r_fetch_word _ _ _ _ := crash; r_fetch_halfword _ _ _ := crash; r_fetch_byte _ _ _ := crash;
  r_store_word _ _ _ _ := crash; r_store_halfword _ _ _ _ := crash; r_store_byte _ _ _ _ := crash;
  r_ready _ _ _ _ := crash;
  r_extra_latency _ _ := 0
|}.

(** The objects. *)
Definition ROM : Z := 0.
Definition PROG : Z := 1.
Definition RAM : Z := 2.
Definition HALTDEV : Z := 3.
Definition CLOCKDEV : Z := 4.
Definition RTC : Z := 5.
Definition CSR : Z := 6.
Definition STAT : Z := 7.
Definition SERIAL : Z := 8.
Definition RS232C : Z := 9.
Definition RT_DUMMY : Z := 11.
Definition DMAC_ : Z := 10.

Definition HALT_BASE : Z := 0x01010024.
Definition CLOCK_BASE : Z := 0x01010000.
Definition DECRTC_BASE : Z := 0x1fe80000.
Definition DECCSR_BASE : Z := 0x1ff00000.
Definition DECSTAT_BASE : Z := 0x1fd00000.
Definition DECSERIAL_BASE : Z := 0x1fe00000.

Record t := Mk { physmem : Mapper.t places; intc : IntCtrl.t }.
#[global] Instance eta : Eta t := λ b, Mk (physmem b) (intc b).
Notation M := (Effects.M t).

(** A new range of [extent] bytes, mapped at [base]; whether that succeeds. *)
Definition map_new (r extent base : Z) : M Z :=
  zoom physmem (zoom Mapper.store (modify (<[r := (0, extent)]>)));; zoom physmem (Mapper.map_at_physical_address r base).
(** A new device on an interrupt line. *)
Definition connect_new (dev line : Z) : M unit :=
  zoom intc (modify (λ c, c <| IntCtrl.devices ::= <[dev := DeviceInt.DeviceInt]> |>));; zoom intc (IntCtrl.connectLine line dev).

Section Setup.
  (** The options, the sizes of the files of the boot ROM and of the program, when they can
      be opened, and whether the debugger can wait for a connection. *)
  Variables (c : Config.t) (rom_size image_size : option Z) (debugger : bool).

(** What the calls of the mapper return is looked at by the serial output only. *)
Definition setup_bootrom : M bool :=
  match rom_size with Some n => _ ← map_new ROM n (opt_bootaddr c); mret (negb (opt_debug c) || debugger) | None => mret false end.
Definition setup_prog : M bool :=
  match image_size with
  | Some n => if opt_progmemsize c <? n then mret false else _ ← map_new PROG (opt_progmemsize c) (opt_loadaddr c); mret true
  | None => mret false
  end.
Definition setup_ram : M bool := _ ← map_new RAM (opt_memsize c) 0; mret true.
Definition setup_haltdevice : M bool :=
  if negb (opt_haltdevice c) then mret true else _ ← map_new HALTDEV 4 HALT_BASE; mret true.
Definition setup_clockdevice : M bool :=
  if negb (opt_clockdevice c) then mret true else
  let clock_irq := DeviceInt.num2irq (opt_clockdeviceirq c) in
  if clock_irq =? 0 then mret false else
  _ ← map_new CLOCKDEV 20 CLOCK_BASE; connect_new CLOCKDEV clock_irq;; mret true.
Definition setup_decrtc : M bool :=
  if negb (opt_decrtc c) then mret true else
  _ ← map_new RTC 0x80000 DECRTC_BASE; connect_new RTC (DeviceInt.num2irq 3);; mret true.
Definition setup_deccsr : M bool :=
  if negb (opt_deccsr c) then mret true else
  _ ← map_new CSR 0x80000 DECCSR_BASE; connect_new CSR (DeviceInt.num2irq 2);; mret true.
Definition setup_decstat : M bool :=
  if negb (opt_decstat c) then mret true else _ ← map_new STAT 0x100000 DECSTAT_BASE; mret true.
(** The terminal of its console line is left out. *)
Definition setup_decserial : M bool :=
  if negb (opt_decserial c) then mret true else _ ← map_new SERIAL 0x80000 DECSERIAL_BASE; mret true.
Definition setup_rs232c : M bool := e ← map_new RS232C 0x10000 0xb4000000; mret (e =? 0).
Definition setup_dmac (dmac : bool) : M bool := when dmac (connect_new DMAC_ DeviceInt.IRQ5);; mret true.
Definition setup_rt_dummy : M bool := _ ← map_new RT_DUMMY 0x3F0000 0xba010000; mret true.

(** One after the other, until one fails. *)
Fixpoint all_set_up (l : list (M bool)) : M bool :=
  match l with [] => mret true | m :: l => ok ← m; if ok : bool then all_set_up l else mret false end.
(** The part of [vmips::run] up to the network and the masters. *)
Definition setup (dmac : bool) : M bool :=
  all_set_up [setup_bootrom; setup_prog; setup_ram; setup_haltdevice; setup_clockdevice; setup_decrtc; setup_deccsr;
    setup_decstat; setup_decserial; setup_rs232c; setup_dmac dmac;
    if bool_decide (system_mode c = Mode_cube) then mret true else setup_rt_dummy].
End Setup.

(** *** Where everything is *)
Definition empty_board : t := Mk (Mapper.Mapper false false 0 ∅) (IntCtrl.Mk [] ∅).
(** The machine of the compiled-in options, with all devices of the board. *)
Definition default_config (devices : bool) (memsize : Z) : option Config.t :=
  match refresh_options (Options.Mk Options.compiled_in []) with
  | Some (c, _, _) => Some (c <| opt_decrtc := devices |> <| opt_deccsr := devices |> <| opt_decstat := devices |>
      <| opt_decserial := devices |> <| opt_memsize := memsize |>)
  | None => None
  end.

(** No two ranges have an address in common, as far as the mapper's test can tell. *)
Definition apart (b : t) : Prop :=
  ∀ i j r r2, (i < j)%nat → Mapper.ranges (physmem b) !! i = Some r2 → Mapper.ranges (physmem b) !! j = Some r →
    overlaps (Mapper.store (physmem b)) r r2 = false.
(** The objects up to [k] are set up. *)
Definition up_to (k : Z) (b : t) : Prop := apart b ∧ ∀ r, r ∈ Mapper.ranges (physmem b) → r < k.
Definition sets_up (k : Z) (m : M bool) : Prop :=
  ∀ b, up_to k b → ∃ ok b', m b = Some (ok, b', []) ∧ up_to (k + 1) b'.

Lemma overlaps_place (w w' : places) r r2 : place w' r = place w r → place w' r2 = place w r2 → overlaps w' r r2 = overlaps w r r2.
Proof. intros E1 E2. unfold overlaps. cbn. by rewrite E1, E2. Qed.
Lemma up_to_mono k b : up_to k b → up_to (k + 1) b.
Proof. intros [H1 H2]. split; [done|]. intros r Hr. apply H2 in Hr. lia. Qed.
Lemma map_new_run k extent base b : up_to k b →
  ∃ e b', map_new k extent base b = Some (e, b', []) ∧ up_to (k + 1) b' ∧ intc b' = intc b.
Proof.
  intros [Ha Hk]. set (w := <[k := (base, extent)]> (Mapper.store (physmem b))).
  assert (Hw : ∀ r, r ≠ k → place w r = place (Mapper.store (physmem b)) r).
  { intros r Hr. unfold place, w. by rewrite lookup_insert_ne. }
  assert (E : map_new k extent base b =
    (if existsb (overlaps w k) (Mapper.ranges (physmem b))
     then Some (-1, b <| physmem ::= λ p, p <| Mapper.store := w |> |>, [])
     else Some (0, b <| physmem ::= λ p, p <| Mapper.store := w |> <| Mapper.ranges := Mapper.ranges p ++ [k] |> |>, []))).
  { assert (Ew : <[k := (base, (place (<[k := (0, extent)]> (Mapper.store (physmem b))) k).2)]> (<[k := (0, extent)]> (Mapper.store (physmem b))) = w).
    { unfold place, w. by rewrite lookup_insert_eq, insert_insert_eq. }
    unfold map_new, Mapper.map_at_physical_address, Mapper.add_range. munfold. cbn. rewrite Ew.
    destruct (existsb _ _); by destruct b as [[] ?]. }
  rewrite E. destruct (existsb (overlaps w k) (Mapper.ranges (physmem b))) eqn:Ho.
  - eexists _, _. split; [reflexivity|]. split; [|done]. apply up_to_mono. split; [|exact Hk].
    intros i j r r2 Hij H1 H2. cbn in H1, H2 |- *. rewrite (overlaps_place (Mapper.store (physmem b))); [by apply (Ha i j)| |];
      apply Hw; intros ->; [apply list_elem_of_lookup_2, Hk in H2|apply list_elem_of_lookup_2, Hk in H1]; lia.
  - eexists _, _. split; [reflexivity|]. split; [|done]. split.
    + intros i j r r2 Hij H1 H2. cbn in H1, H2 |- *. set (l := Mapper.ranges (physmem b)) in *.
      assert (Hi : (i < length l)%nat).
      { apply lookup_lt_Some in H2. rewrite length_app in H2. cbn in H2. lia. }
      rewrite lookup_app_l in H1 by done. apply list_elem_of_lookup_2 in H1 as Hr2.
      destruct (decide (j < length l)%nat) as [Hj|Hj].
      * rewrite lookup_app_l in H2 by done. apply list_elem_of_lookup_2 in H2 as Hr.
        rewrite (overlaps_place (Mapper.store (physmem b))); [by apply (Ha i j)| |]; apply Hw; intros ->; [apply Hk in Hr|apply Hk in Hr2]; lia.
      * assert (j = length l) as -> by (apply lookup_lt_Some in H2; rewrite length_app in H2; cbn in H2; lia).
        rewrite lookup_app_r, Nat.sub_diag in H2 by lia. injection H2 as <-.
        destruct (overlaps w k r2) eqn:Eo; [|done]. rewrite <- Ho. symmetry. apply existsb_exists. exists r2.
        split; [by apply list_elem_of_In|done].
    + intros r. cbn. rewrite elem_of_app, list_elem_of_singleton. intros [Hr| ->]; [apply Hk in Hr|]; lia.
Qed.
Lemma connect_new_run dev line b : ∃ b', connect_new dev line b = Some ((), b', []) ∧ physmem b' = physmem b.
Proof.
  unfold connect_new, IntCtrl.connectLine. munfold. cbn. rewrite lookup_insert_eq. cbn.
  case_bool_decide; eexists; (split; [reflexivity|done]).
Qed.
Lemma up_to_connected k b b' : physmem b' = physmem b → up_to k b → up_to k b'.
Proof. intros E [H1 H2]. unfold up_to, apart. by rewrite E. Qed.

(** A component that maps one range, and perhaps connects itself. *)
Lemma sets_up_skip k ok : sets_up k (mret ok).
Proof. intros b Hb. exists ok, b. split; [done|by apply up_to_mono]. Qed.
Lemma sets_up_map k extent base (f : Z → M bool) :
  (∀ e b, ∃ ok b', f e b = Some (ok, b', []) ∧ physmem b' = physmem b) → sets_up k (e ← map_new k extent base; f e).
Proof.
  intros Hf b Hb. destruct (map_new_run k extent base b Hb) as (e & b1 & E & Hb1 & _).
  destruct (Hf e b1) as (ok & b2 & E2 & Hp). exists ok, b2. rewrite (bind_eq _ _ _ _ _ E). split; [done|]. by eapply up_to_connected.
Qed.
Lemma plain_result (ok : bool) b : ∃ x b', (mret ok : M bool) b = Some (x, b', []) ∧ physmem b' = physmem b.
Proof. by exists ok, b. Qed.
Lemma connect_result dev line b : ∃ ok b', (connect_new dev line;; mret true)%m b = Some (ok, b', []) ∧ physmem b' = physmem b.
Proof. destruct (connect_new_run dev line b) as (b' & E & Hp). exists true, b'. by rewrite (bind_eq _ _ _ _ _ E). Qed.
Lemma sets_up_connect k dev line (c : bool) : sets_up k (when c (connect_new dev line);; mret true)%m.
Proof.
  intros b Hb. destruct c; cbn [when]; [|exists true, b; split; [done|by apply up_to_mono]].
  destruct (connect_result dev line b) as (ok & b' & E & Hp). exists ok, b'. split; [done|]. eapply up_to_connected; [done|by apply up_to_mono].
Qed.
Lemma all_set_up_run l k b : (∀ i m, l !! i = Some m → sets_up (k + Z.of_nat i) m) → up_to k b →
  ∃ ok b', all_set_up l b = Some (ok, b', []) ∧ apart b'.
Proof.
  revert k b. induction l as [|m l IH]; intros k b Hl Hb; [exists true, b; split; [done|apply Hb]|]. cbn [all_set_up].
  destruct (Hl 0%nat m eq_refl b) as (ok & b1 & E & Hb1); [by rewrite Z.add_0_r|]. rewrite Z.add_0_r in Hb1.
  rewrite (bind_eq _ _ _ _ _ E). destruct ok; [|exists false, b1; split; [done|apply Hb1]].
  apply (IH (k + 1)); [|done]. intros i m' Hi. replace (k + 1 + Z.of_nat i) with (k + Z.of_nat (S i)) by lia. by apply Hl.
Qed.

Ltac sets_up :=
  match goal with |- sets_up ?k _ => let k' := eval vm_compute in k in change k with k' end;
  first [ apply sets_up_skip | apply sets_up_connect
        | match goal with |- sets_up _ (bindM (map_new ?r ?n ?b) ?f) => apply (sets_up_map r n b f) end;
          intros; (apply plain_result || apply connect_result) ].

(** The board: whatever the options and the files are, every set-up returns, and no two
    ranges that are mapped afterwards share an address. *)
Theorem board_apart (c : Config.t) (rom_size image_size : option Z) (debugger dmac : bool) :
  ∃ ok b, setup c rom_size image_size debugger dmac empty_board = Some (ok, b, []) ∧ apart b.
Proof.
  apply (all_set_up_run _ 0); [|split; [intros i j r r2 _ H; by destruct i|intros r Hr; by apply not_elem_of_nil in Hr]].
  intros i m Hm. destruct i as [|[|[|[|[|[|[|[|[|[|[|[|i]]]]]]]]]]]]; try done; injection Hm as <-.
  - unfold setup_bootrom. destruct rom_size; sets_up.
  - unfold setup_prog. destruct image_size; [destruct (_ <? _)|]; sets_up.
  - unfold setup_ram. sets_up.
  - unfold setup_haltdevice. destruct (negb _); sets_up.
  - unfold setup_clockdevice. destruct (negb _); [|destruct (_ =? _)]; sets_up.
  - unfold setup_decrtc. destruct (negb _); sets_up.
  - unfold setup_deccsr. destruct (negb _); sets_up.
  - unfold setup_decstat. destruct (negb _); sets_up.
  - unfold setup_decserial. destruct (negb _); sets_up.
  - unfold setup_rs232c. sets_up.
  - unfold setup_dmac. sets_up.
  - destruct (bool_decide _); [|unfold setup_rt_dummy]; sets_up.
Qed.

(** The compiled-in options with all devices: everything is mapped. *)
Definition mapped (devices : bool) (memsize : Z) : option (bool * list Z) :=
  match default_config devices memsize with
  | Some c => match setup c (Some 0x10000) (Some 0x1000) true true empty_board with
              | Some (ok, b, _) => Some (ok, Mapper.ranges (physmem b)) | None => None end
  | None => None
  end.
Example all_mapped : mapped true 0x100000 = Some (true, [ROM; PROG; RAM; HALTDEV; CLOCKDEV; RTC; CSR; STAT; SERIAL; RS232C]).
Proof. by vm_compute. Qed.
(** A memory of 32 megabytes lies over the clock and the halt device, which are left out
    without a word. *)
Example big_memory : mapped false 0x2000000 = Some (true, [ROM; PROG; RAM; RS232C]).
Proof. by vm_compute. Qed.

End Devices.

(** ** The accelerators that the machine builds *)
Module Accelerators.

(** The class, with the number of cores or the size of the memory. *)
Inductive class := CMA | SNACC (cores : Z) | RemoteRam (size : Z).
#[global] Instance class_eq_dec : EqDecision class.
Proof. solve_decision. Defined.
(** Below which router it is put: that of the processor's interface, or of an accelerator. *)
Record node := Node { node_class : class; node_ID : Z; upper : option Z }.
(** What the building is about: the accelerators of the two modes, the cores whose tracing
    and debugging are switched on, the debuggers' devices, and what is connected to the
    bus; whether the options of SNACC were not used. *)
Inductive master := Cpu | Dmac | Ac (i : Z).
Record t := Mk {
  ac : list (option node);                (* ac0, ac1, ac2 *)
  bus_ac : list (option class);           (* bus_ac0, bus_ac1, bus_ac2 *)
  inst_dump : list (Z * Z); mad_debug : list (Z * Z);       (* accelerator, core *)
  debuggers : list (Z * Z);               (* accelerator, address *)
  windows : list (Z * (Z * Z));           (* accelerator, KSEG0 and KSEG1 address *)
  bus_masters : list master;
  snacc_inst_dump_fail : bool; snacc_mad_debug_fail : bool
}.
#[global] Instance eta : Eta t := λ b,
  Mk (ac b) (bus_ac b) (inst_dump b) (mad_debug b) (debuggers b) (windows b) (bus_masters b)
     (snacc_inst_dump_fail b) (snacc_mad_debug_fail b).
Notation M := (Effects.M t).
Definition nothing : t := Mk [None; None; None] [None; None; None] [] [] [] [] [] false false.

Definition is_name (name : list Z) (s : String.string) : bool := bool_decide (name = chars s).
(** [get_tuple] of an option of SNACC, unless it is disabled; and whether it is used. *)
Definition snacc_option (text : list Z) : option ((Z * Z) * bool) :=
  if is_name text "disabled" then Some ((-1, -1), false)
  else match Options.get_tuple text 2 with Some [a; b] => Some ((a, b), true) | _ => None end.

Section Build.
  (** [accelerator0] and the others, and the tuples of the two options. *)
  Variables (ac0_name ac1_name ac2_name : list Z) (snacc_inst snacc_mad : Z * Z) (opt_debug : bool) (opt_debuggeraddr : Z).

(** *** Cube mode *)
Definition class_of (name : list Z) : option class :=
  if is_name name "CMA" then Some CMA else if is_name name "SNACC" then Some (SNACC 4)
  else if is_name name "RemoteRam" then Some (RemoteRam 0x2048) else None.
Definition put_ac (i : Z) (n : node) : M unit := modify (λ b, b <| ac ::= <[Z.to_nat i := Some n]> |>).
Definition ac_exists (i : Z) : M bool := gets (λ b, match nthz (ac b) i with Some (Some _) => true | _ => false end).
(** The options and the debugger of accelerator [i]: [mad] is the number that its block
    compares with. *)
Definition equip (i : Z) (name : list Z) (mad : Z) : M unit :=
  e ← ac_exists i;
  when e (
    when (is_name name "SNACC") (
      when (snacc_inst.1 =? i) (modify (λ b, b <| inst_dump ::= λ l, l ++ [(i, snacc_inst.2)] |> <| snacc_inst_dump_fail := false |>));;
      when (snacc_mad.1 =? mad) (modify (λ b, b <| mad_debug ::= λ l, l ++ [(i, snacc_mad.2)] |> <| snacc_mad_debug_fail := false |>)));;
    when opt_debug (modify (λ b, b <| debuggers ::= λ l, l ++ [(i, u32 (opt_debuggeraddr + AcceleratorDebugger.ACDBGR_SIZE * i))] |>))).
Definition setup_ac0 : M bool :=
  match class_of ac0_name with
  | Some k => put_ac 0 (Node k 1 None);; equip 0 ac0_name 0;; mret true
  | None => if is_name ac0_name "none" then equip 0 ac0_name 0;; mret true else mret false
  end.
Definition setup_ac1 : M bool :=
  ok ← (if is_name ac1_name "none" then mret true else
    e ← ac_exists 0;
    if negb e then mret false else
    match class_of ac1_name with Some k => put_ac 1 (Node k 2 (Some 0));; mret true | None => mret false end);
  if ok : bool then equip 1 ac1_name 1;; mret true else mret false.
(** The class of the third accelerator is read from the name of the second. *)
Definition setup_ac2 : M bool :=
  ok ← (if is_name ac2_name "none" then mret true else
    e ← ac_exists 1;
    if negb e then mret false else
    match class_of ac1_name with Some k => put_ac 2 (Node k 3 (Some 1));; mret true | None => mret false end);
  if ok : bool then equip 2 ac2_name 0;; mret true else mret false.
Definition setup_cube : M bool :=
  a ← setup_ac0; if negb a then mret false else b ← setup_ac1; if negb b then mret false else setup_ac2.

(** *** Accelerators on the bus *)
Definition bus_class_of (name : list Z) : option class :=
  if is_name name "CMA" then Some CMA else if is_name name "SNACC" then Some (SNACC 4) else None.
(** The options of SNACC are set through [ac0], which is null in this mode, when their
    number is zero. *)
Definition setup_bus_ac (i : Z) (name : list Z) : M bool :=
  match bus_class_of name with
  | Some k =>
      modify (λ b, b <| bus_ac ::= <[Z.to_nat i := Some k]> |>
        <| windows ::= λ l, l ++ [(i, (Cube.AC_KSEG0_TOP + 0x400000 * i, Cube.AC_KSEG1_TOP + 0x400000 * i))] |>
        <| bus_masters ::= λ l, l ++ [Ac i] |>);;
      when (is_name name "SNACC" && ((snacc_inst.1 =? 0) || (snacc_mad.1 =? 0))) crash;;
      mret true
  | None => mret (is_name name "none")
  end.
Definition setup_bus_master (dmac : bool) : M bool :=
  modify (λ b, b <| bus_masters ::= λ l, l ++ [Cpu] |>);;
  when dmac (modify (λ b, b <| bus_masters ::= λ l, l ++ [Dmac] |>));;
  a ← setup_bus_ac 0 ac0_name; if negb a then mret false else
  b ← setup_bus_ac 1 ac1_name; if negb b then mret false else
  setup_bus_ac 2 ac2_name.

(** *** What is built *)
Lemma equip_ac i name mad b : ∃ b', equip i name mad b = Some ((), b', []) ∧ ac b' = ac b.
Proof.
  unfold equip, ac_exists. rewrite gets_bind. destruct (match nthz _ _ with Some (Some _) => true | _ => false end); cbn [when]; [|by exists b].
  destruct (is_name _ _); cbn [when]; [destruct (_ =? _), (_ =? _)|]; destruct opt_debug; eexists; (split; [reflexivity|done]).
Qed.
Definition none (name : list Z) : bool := is_name name "none".
Definition classes (b : t) : list (option class) := option_map node_class <$> ac b.
Lemma none_class name : none name = true → class_of name = None.
Proof. unfold none, is_name. intros ->%bool_decide_eq_true. by vm_compute. Qed.

Lemma setup_ac0_run : match class_of ac0_name with
    | Some k => ∃ b, setup_ac0 nothing = Some (true, b, []) ∧ ac b = [Some (Node k 1 None); None; None]
    | None => ∃ b, setup_ac0 nothing = Some (none ac0_name, b, []) ∧ ac b = [None; None; None]
    end.
Proof.
  unfold setup_ac0. destruct (class_of ac0_name) as [k|].
  - rewrite (bind_eq _ _ _ () (nothing <| ac := [Some (Node k 1 None); None; None] |>)) by done.
    match goal with |- context [bindM _ _ ?b] => destruct (equip_ac 0 ac0_name 0 b) as (b' & E & Ha) end.
    exists b'. by rewrite (bind_eq _ _ _ _ _ E).
  - fold (none ac0_name). destruct (none ac0_name); [|by exists nothing].
    destruct (equip_ac 0 ac0_name 0 nothing) as (b' & E & Ha). exists b'. by rewrite (bind_eq _ _ _ _ _ E).
Qed.
Lemma setup_ac1_run b n : ac b = [n; None; None] → ∃ b', setup_ac1 b =
      Some (match n, class_of ac1_name with _, None => none ac1_name | Some _, Some _ => true | None, Some _ => false end, b', []) ∧
      ac b' = [n; if n then (λ k, Node k 2 (Some 0)) <$> class_of ac1_name else None; None].
Proof.
  intros Hb. unfold setup_ac1. fold (none ac1_name). destruct (none ac1_name) eqn:Hn.
  - rewrite (none_class _ Hn), ret_bind. destruct (equip_ac 1 ac1_name 1 b) as (b' & E & Ha). exists b'.
    rewrite (bind_eq _ _ _ _ _ E). rewrite Ha, Hb. by destruct n.
  - assert (Ee : ac_exists 0 b = Some (if n then true else false, b, [])) by (unfold ac_exists, gets; rewrite Hb; by destruct n).
    rewrite bind_assoc, (bind_eq _ _ _ _ _ Ee).
    destruct n as [n|]; cbn [negb].
    + destruct (class_of ac1_name) as [k|]; cbn [fmap option_fmap option_map]; [|exists b; by rewrite ret_bind].
      rewrite bind_assoc, (bind_eq _ _ _ () (b <| ac := [Some n; Some (Node k 2 (Some 0)); None] |>)) by (unfold put_ac, modify; cbn; by rewrite Hb).
      rewrite ret_bind. match goal with |- context [bindM _ _ ?b] => destruct (equip_ac 1 ac1_name 1 b) as (b' & E & Ha) end.
      exists b'. by rewrite (bind_eq _ _ _ _ _ E).
    + exists b. rewrite ret_bind. by destruct (class_of ac1_name).
Qed.
Lemma setup_ac2_run b n m : ac b = [n; m; None] → (m = None ∨ ∃ k, class_of ac1_name = Some k) → ∃ b', setup_ac2 b =
      Some (if m then true else none ac2_name, b', []) ∧
      ac b' = [n; m; if none ac2_name then None else if m then (λ k, Node k 3 (Some 1)) <$> class_of ac1_name else None].
Proof.
  intros Hb Hm. unfold setup_ac2. fold (none ac2_name). destruct (none ac2_name) eqn:Hn.
  - rewrite ret_bind. destruct (equip_ac 2 ac2_name 0 b) as (b' & E & Ha). exists b'.
    rewrite (bind_eq _ _ _ _ _ E). rewrite Ha, Hb. by destruct m.
  - assert (Ee : ac_exists 1 b = Some (if m then true else false, b, [])) by (unfold ac_exists, gets; rewrite Hb; by destruct m).
    rewrite bind_assoc, (bind_eq _ _ _ _ _ Ee).
    destruct m as [m|]; cbn [negb]; [|exists b; by rewrite ret_bind].
    destruct Hm as [Hm|[k ->]]; [done|]. cbn [fmap option_fmap option_map].
    rewrite bind_assoc, (bind_eq _ _ _ () (b <| ac := [n; Some m; Some (Node k 3 (Some 1))] |>)) by (unfold put_ac, modify; cbn; by rewrite Hb).
    rewrite ret_bind. match goal with |- context [bindM _ _ ?b] => destruct (equip_ac 2 ac2_name 0 b) as (b' & E & Ha) end.
    exists b'. by rewrite (bind_eq _ _ _ _ _ E).
Qed.
(** The stack of accelerators: it is built when the names in use come before the others and
    are known; an accelerator is below the one before it.  The third one is of the class of
    the second, whatever it is called. *)
Theorem stack_built :
  ∃ ok b, setup_cube nothing = Some (ok, b, []) ∧
    ok = match class_of ac0_name, class_of ac1_name with
         | None, _ => none ac0_name && none ac1_name && none ac2_name
         | Some _, None => none ac1_name && none ac2_name
         | Some _, Some _ => true
         end ∧
    (ok = true → ac b = [(λ k, Node k 1 None) <$> class_of ac0_name; (λ k, Node k 2 (Some 0)) <$> class_of ac1_name;
      if none ac2_name then None else (λ k, Node k 3 (Some 1)) <$> class_of ac1_name]).
Proof.
  unfold setup_cube.
  pose proof setup_ac0_run as H0. pose proof setup_ac1_run as H1. pose proof setup_ac2_run as H2.
  destruct (class_of ac0_name) as [k0|] eqn:E0; destruct H0 as (b0 & R0 & A0); rewrite (bind_eq _ _ _ _ _ R0).
  - destruct (H1 _ _ A0) as (b1 & R1 & A1). cbn [negb]. rewrite (bind_eq _ _ _ _ _ R1).
    destruct (class_of ac1_name) as [k1|] eqn:E1; cbn [negb fmap option_fmap option_map] in *.
    + destruct (H2 _ _ _ A1 ltac:(right; by exists k1)) as (b2 & R2 & A2). eexists _, b2. split; [exact R2|]. by rewrite A2.
    + destruct (none ac1_name); cbn [negb andb]; [|by eexists _, b1].
      destruct (H2 _ _ _ A1 ltac:(by left)) as (b2 & R2 & A2). eexists _, b2. split; [exact R2|]. split; [done|]. intros Hn. rewrite A2. by destruct (none ac2_name).
  - destruct (none ac0_name); cbn [negb andb]; [|by eexists _, b0].
    destruct (H1 _ _ A0) as (b1 & R1 & A1). rewrite (bind_eq _ _ _ _ _ R1).
    destruct (class_of ac1_name) as [k1|] eqn:E1.
    + assert (Hn1 : none ac1_name = false) by (destruct (none ac1_name) eqn:Hn; [by rewrite none_class in E1|done]).
      rewrite Hn1. cbn [negb andb]. by eexists _, b1.
    + destruct (none ac1_name); cbn [negb andb]; [|by eexists _, b1].
      destruct (H2 _ _ _ A1 ltac:(by left)) as (b2 & R2 & A2). eexists _, b2. split; [exact R2|]. split; [done|]. intros Hn. rewrite A2. by destruct (none ac2_name).
Qed.
End Build.

(** Three different accelerators are asked for. *)
Example third_like_second :
  match setup_cube (chars "SNACC"%string) (chars "CMA"%string) (chars "RemoteRam"%string) (-1, -1) (-1, -1) false 0 nothing with
  | Some (ok, b, _) => ok = true ∧ classes b = [Some (SNACC 4); Some CMA; Some CMA]
  | None => False
  end.
Proof. by vm_compute. Qed.
(** Tracing the cores of a SNACC on the bus goes through a null pointer. *)
Example bus_trace_crashes :
  setup_bus_master (chars "SNACC"%string) (chars "none"%string) (chars "none"%string) (0, 1) (-1, -1) true nothing = None.
Proof. by vm_compute. Qed.

End Accelerators.

(** ** The cycles of the modes without a network *)
Module Modes.

(** Looking up every index of a list gives the list. *)
Lemma omap_lookup_seqZ {A} (l : list A) : omap (λ i, l !! Z.to_nat i) (seqZ 0 (Z.of_nat (length l))) = l.
Proof.
  enough (∀ k n, (n + k = length l)%nat → omap (λ i, l !! Z.to_nat i) (seqZ (Z.of_nat n) (Z.of_nat k)) = drop n l) as H.
  { apply (H (length l) 0%nat). lia. }
  induction k as [|k IH]; intros n Hn.
  - by rewrite drop_ge by lia.
  - rewrite seqZ_cons by lia. cbn [omap list_omap]. rewrite Nat2Z.id.
    destruct (lookup_lt_is_Some_2 l n ltac:(lia)) as [x Hx]. rewrite Hx, (drop_S _ x) by done. f_equal.
    replace (Z.succ (Z.of_nat n)) with (Z.of_nat (S n)) by lia. replace (Z.pred (Z.of_nat (S k))) with (Z.of_nat k) by lia.
    apply IH. lia.
Qed.

Section Cycle.
  (** The machine's state, with the two counters; the components that are stepped, the
      clock, and the options. *)
  Context {W : Type} (master_start num_cycles : W → Z) {PS : Setter master_start} {PN : Setter num_cycles}.
  Notation M := (Effects.M W).
  Variables (cpu_step : M unit) (dmac_step : option (M unit)) (bus_masters : list (M unit))
    (increment_time pass_realtime : Z → M unit) (opt_realtime : bool) (clock_nanos opt_timeratio : Z).

(** The tail that the cycles share; the dumps only print. *)
Definition end_of_cycle : M unit :=
  (if negb opt_realtime then increment_time clock_nanos else pass_realtime opt_timeratio);;
  n ← gets num_cycles; num_cycles <~ u32 (n + 1).
Definition step_cpu_only : M unit :=
  cpu_step;; (match dmac_step with Some m => m | None => mret () end);; end_of_cycle.
Definition master_count : Z := Z.of_nat (length bus_masters).
Definition step_master (i : Z) : M unit :=
  start ← gets master_start; m ← from_option (nthz bus_masters ((start + i) mod master_count)); m.
Definition next_start : M unit :=
  start ← gets master_start; if master_count =? 0 then crash else master_start <~ (start + 1) mod master_count.
Definition step_bus_conn : M unit :=
  for_range 0 (Z.to_nat master_count) step_master;; next_start;; end_of_cycle.

(** The masters in the order of a cycle. *)
Definition order (start : Z) : list (M unit) := drop (Z.to_nat start) bus_masters ++ take (Z.to_nat start) bus_masters.

Lemma order_lookup start i : 0 ≤ start < master_count → 0 ≤ i < master_count →
  nthz bus_masters ((start + i) mod master_count) = order start !! Z.to_nat i.
Proof.
  unfold master_count, order. intros Hs Hi. unfold nthz.
  destruct (Z.ltb_spec ((start + i) mod Z.of_nat (length bus_masters)) 0) as [H|_];
    [pose proof (Z.mod_pos_bound (start + i) (Z.of_nat (length bus_masters)) ltac:(lia)); lia|].
  destruct (Z.lt_ge_cases (start + i) (Z.of_nat (length bus_masters))) as [H|H].
  - rewrite Z.mod_small, lookup_app_l, lookup_drop by (rewrite ?length_drop; lia). f_equal. lia.
  - rewrite lookup_app_r, length_drop by (rewrite length_drop; lia).
    replace ((start + i) mod Z.of_nat (length bus_masters)) with (start + i - Z.of_nat (length bus_masters))
      by (rewrite <- (Z.mod_small (start + i - Z.of_nat (length bus_masters)) (Z.of_nat (length bus_masters))) by lia;
          rewrite <- (Z_mod_plus_full _ 1); f_equal; lia).
    rewrite lookup_take_lt by lia. f_equal. lia.
Qed.

Lemma order_perm start : order start ≡ₚ bus_masters.
Proof. unfold order. by rewrite Permutation_app_comm, take_drop. Qed.

(** The masters do not know of the rotation. *)
Hypothesis masters_keep : ∀ m w w' e, m ∈ bus_masters → m w = Some ((), w', e) → master_start w' = master_start w.

Lemma masters_in_order l start w : master_start w = start → (∀ i, i ∈ l → 0 ≤ i < master_count) → 0 ≤ start < master_count →
  for_each l step_master w = for_each (omap (λ i, order start !! Z.to_nat i) l) (λ m, m) w.
Proof.
  intros Hw Hl Hs. revert w Hw. induction l as [|i l IH]; intros w Hw; [done|]. cbn [omap list_omap for_each].
  assert (Hi : 0 ≤ i < master_count) by (apply Hl; by left).
  assert (Hm : ∃ m, order start !! Z.to_nat i = Some m ∧ m ∈ bus_masters).
  { destruct (lookup_lt_is_Some_2 (order start) (Z.to_nat i)) as [m Hm].
    { unfold order. rewrite length_app, length_drop, length_take. unfold master_count in *. lia. }
    exists m. split; [done|]. rewrite <- (order_perm start). by eapply list_elem_of_lookup_2. }
  destruct Hm as (m & Hm & Hin). rewrite Hm. cbn [for_each].
  assert (E : step_master i w = m w).
  { unfold step_master. rewrite gets_bind, Hw, order_lookup, Hm by done. cbn [from_option]. by rewrite ret_bind. }
  unfold bindM. rewrite E. destruct (m w) as [[[[] w1] e1]|] eqn:Em; [|done].
  rewrite (IH (λ j Hj, Hl j (list_elem_of_further _ _ _ Hj)) w1); [done|]. by rewrite (masters_keep m w w1 e1).
Qed.

(** The bus: in a cycle every master is stepped once, the one at [master_start] first, and
    the next cycle begins with the master after it. *)
Theorem masters_rotate (w : W) (Hs : 0 ≤ master_start w < master_count) :
  order (master_start w) ≡ₚ bus_masters ∧
  head (order (master_start w)) = nthz bus_masters (master_start w) ∧
  for_range 0 (Z.to_nat master_count) step_master w = for_each (order (master_start w)) (λ m, m) w ∧
  next_start w = Some ((), PS (λ _, (master_start w + 1) mod master_count) w, []).
Proof.
  split_and!.
  - apply order_perm.
  - pose proof (order_lookup (master_start w) 0 Hs ltac:(lia)) as H. rewrite Z.add_0_r, Z.mod_small in H by done.
    rewrite H. by destruct (order (master_start w)).
  - unfold for_range. rewrite Z2Nat.id by lia.
    rewrite (masters_in_order _ (master_start w)); [|done|intros i Hi; apply elem_of_seqZ in Hi; lia|done].
    replace master_count with (Z.of_nat (length (order (master_start w))))
      by (rewrite (Permutation_length (order_perm _)); reflexivity).
    by rewrite omap_lookup_seqZ.
  - unfold next_start. rewrite gets_bind. by rewrite (proj2 (Z.eqb_neq _ _)) by lia.
Qed.
End Cycle.

End Modes.

(** ** The loop of the run *)
Module MainLoop.
Import MachineState.

Section Loop.
  (** The machine, the state it is in, a cycle, the debugger's loop, the prompt itself, and
      the two calls of the terminal controller that has the console, if there is one. *)
  Context {W : Type} (state_of : W → state) {PS : Setter state_of}.
  Notation M := (Effects.M W).
  Variables (step serverloop prompt : M unit) (controller : option (M unit * M unit)).

(** Whether the machine goes on after the prompt. *)
Definition interact : M bool :=
  (match controller with Some (suspend, _) => suspend | None => mret () end);;
  prompt;;
  s ← gets state_of; when (bool_decide (s = INTERACT)) (state_of <~ RUN);;
  s ← gets state_of;
  (match controller with Some (_, reinitialize_terminals) => reinitialize_terminals | None => mret () end);;
  mret (negb (bool_decide (s = HALT))).

(** A while loop that ends, with the exceptions its rounds raise. *)
Inductive while (c : W → bool) (body : W → W → list exc_event → Prop) : W → W → list exc_event → Prop :=
  | while_done w : c w = false → while c body w w []
  | while_round w w1 w2 e1 e2 : c w = true → body w w1 e1 → while c body w1 w2 e2 → while c body w w2 (e1 ++ e2).
Definition is_in (s : state) (w : W) : bool := bool_decide (state_of w = s).
Definition once (m : M unit) (w w' : W) (e : list exc_event) : Prop := m w = Some ((), w', e).
Definition action (s : state) : M unit :=
  match s with HALT => mret () | RUN => step | DEBUG => serverloop | INTERACT => _ ← interact; mret () end.
(** The switch: each case has a loop of its own. *)
Definition round (w w' : W) (e : list exc_event) : Prop :=
  match state_of w with
  | HALT => w' = w ∧ e = []
  | s => while (is_in s) (once (action s)) w w' e
  end.
Definition run : W → W → list exc_event → Prop := while (λ w, negb (is_in HALT w)) round.

(** The abstract machine: one action after another, chosen by the state, until it halts. *)
Inductive steps : W → W → list exc_event → Prop :=
  | steps_halt w : state_of w = HALT → steps w w []
  | steps_act w w1 w2 e1 e2 : state_of w ≠ HALT → action (state_of w) w = Some ((), w1, e1) → steps w1 w2 e2 → steps w w2 (e1 ++ e2).

Lemma steps_inner s w w1 e1 : s ≠ HALT → while (is_in s) (once (action s)) w w1 e1 →
  ∀ w2 e2, steps w1 w2 e2 → steps w w2 (e1 ++ e2).
Proof.
  intros Hs. induction 1 as [|w w1 w2 e1 e2 Hc Hb _ IH]; intros w3 e3 H3; [done|].
  rewrite <- app_assoc. unfold is_in in Hc. apply bool_decide_eq_true in Hc.
  eapply steps_act; [congruence|rewrite Hc; exact Hb|]. by apply IH.
Qed.
Lemma run_steps w w' e : run w w' e → steps w w' e.
Proof.
  induction 1 as [w Hc|w w1 w2 e1 e2 Hc Hb _ IH].
  - apply steps_halt. apply negb_false_iff in Hc. by apply bool_decide_eq_true in Hc.
  - apply negb_true_iff, bool_decide_eq_false in Hc. unfold round in Hb.
    destruct (state_of w) eqn:E; [done| | |]; eapply steps_inner; eauto.
Qed.
(** A run of the outer loop is left inside the inner loop of its state. *)
Lemma inner_run s w w1 w2 e1 e2 : state_of w = s → s ≠ HALT → action s w = Some ((), w1, e1) → run w1 w2 e2 → run w w2 (e1 ++ e2).
Proof.
  intros Hw Hs Ha Hr.
  assert (Hin : is_in s w = true) by by apply bool_decide_eq_true.
  assert (Hout : negb (is_in HALT w) = true) by (apply negb_true_iff, bool_decide_eq_false; congruence).
  assert (Hround : ∀ w' e, while (is_in s) (once (action s)) w w' e → round w w' e) by (intros; unfold round; rewrite Hw; by destruct s).
  destruct (decide (state_of w1 = s)) as [E|E].
  - inversion Hr as [w' Hc|w' wm w'' em er Hc Hb Hk]; subst; [apply negb_false_iff, bool_decide_eq_true in Hc; congruence|].
    rewrite app_assoc. apply while_round with wm; [done| |done]. apply Hround.
    apply while_round with w1; [done|exact Ha|]. unfold round in Hb. rewrite E in Hb. by destruct (state_of w).
  - apply while_round with w1; [done| |done]. apply Hround. rewrite <- (app_nil_r e1).
    apply while_round with w1; [done|exact Ha|]. apply while_done. by apply bool_decide_eq_false.
Qed.
(** The loops in a loop run the machine one action at a time, whatever state each action
    leaves it in, and a run ends only in a machine that is halted. *)
Theorem runs_one_by_one w w' e : run w w' e ↔ steps w w' e.
Proof.
  split; [apply run_steps|]. induction 1 as [w Hw|w w1 w2 e1 e2 Hw Ha _ IH].
  - apply while_done. apply negb_false_iff. by apply bool_decide_eq_true.
  - by eapply inner_run.
Qed.
(** A prompt that leaves the state alone lets the machine run on. *)
Lemma interact_runs w w1 : controller = None → (∀ w, state_of (PS (λ _, RUN) w) = RUN) →
  prompt w = Some ((), w1, []) → state_of w1 = INTERACT → interact w = Some (true, PS (λ _, RUN) w1, []).
Proof.
  intros Hc Hset Hp Hi. unfold interact. rewrite Hc, ret_bind, (bind_eq _ _ _ _ _ Hp).
  rewrite gets_bind, Hi, bool_decide_true by done. cbn [when].
  rewrite (bind_eq _ _ _ () (PS (λ _, RUN) w1)) by done. rewrite gets_bind, ret_bind. by rewrite Hset.
Qed.
Lemma runs_halted w w' e : run w w' e → state_of w' = HALT.
Proof. intros H%run_steps. by induction H. Qed.
End Loop.

End MainLoop.
