(* ===== verification/Remote.v ===== *)
(** * Remote: loads, stores and transfers across the whole network

    The theorems of this file run a machine of three memories below the processor's
    interface, every router, port and state machine included, on data that are
    variables. *)

From S2P Require Import Prelude Effects Types Interrupts Range Mapper Router Accel RemoteRam RtIf Cube.
Import RouterUtils RouterInterface Cube.

Module Remote.

(** ** The machine

    Blocks of four words, buffers of 64 flits; the fields that no constructor sets hold 0. *)
Definition raw_vc : InputChannel.vc := InputChannel.MkVC 0 0 0 false [] 0.
Definition raw_ic (p : Z) : InputChannel.t :=
  InputChannel.Mk 0 None (replicate VCH_SIZE raw_vc) 0 0 false 0 0.
Definition raw_oc (p : Z) : OutputChannel.t :=
  OutputChannel.Mk (replicate VCH_SIZE true) None [] false [] (replicate VCH_SIZE 0) (replicate VCH_SIZE 0) 0 0 0.
Definition raw_rt : RouterInterface.t :=
  RouterInterface.Mk 0 0 0 [] [] 0 0 IDLE IDLE 0 None DeviceInt.DeviceInt.
Definition raw_acc : CubeAccelerator.t :=
  CubeAccelerator.Mk 0 0 None 0 0 0 0 0 0 0 0 CubeAccelerator.IDLE CubeAccelerator.IDLE 0 0 false false.
Definition raw_nic : NetworkInterfaceConfig.t := NetworkInterfaceConfig.Mk 0 0 0 0 0 0 0 false false.

Definition VCBUFSIZE : Z := 64.
Definition DCACHEBSIZE : Z := 16.
Definition MEM_SIZE : Z := 16.

Section Machine.
  (** The word accesses of the memories, the byte order of the machine, [bus_latency] and
      [mem_bandwidth]. *)
  Context (ops : RangeOps RemoteRam.store) (big : bool) (bus_latency bandwidth : Z).
  #[local] Existing Instance ops.
  #[local] Existing Instance RemoteRam.has_nif.
  Notation Cube := (Cube.t RemoteRam.store unit).
  Notation M := (Effects.M (Mapper.t Cube)).

Definition new_memory : option (LocalMapper.t RemoteRam.store) :=
  match (RemoteRam.RemoteRam big MEM_SIZE raw_nic;; RemoteRam.setup big)
          (LocalMapper.LocalMapper (RemoteRam.Mk 0 raw_nic (Ram.MemoryModule 0 0))) with
  | Some (0, b, []) => Some b
  | _ => None
  end.
Definition three_memories : option (Mapper.t Cube) :=
  match new_memory with
  | Some b => machine big big bus_latency VCBUFSIZE DCACHEBSIZE bandwidth raw_rt raw_acc
      raw_ic raw_oc (replicate VCH_SIZE false) (replicate 3 (b, ()))
  | None => None
  end.

Definition load (a : Z) (n : nat) : M (list Z) :=
  load_words RemoteRam.core_step big big a n 400.
Definition store (a : Z) (ds : list Z) : M unit :=
  store_words RemoteRam.core_step big big a ds 400.

(** Reset, then the registers that a program sets first: the receiver is ready, messages
    to node [i] use channel [i], the interrupts of finished transfers are enabled. *)
Definition registers : list (Z * Z) :=
  [(RouterIOReg.ROUTER_IREADY_OFFSET, 0xFF); (RouterIOReg.ROUTER_DVCH_NODE0_OFFSET, 1);
   (RouterIOReg.ROUTER_DVCH_NODE1_OFFSET, 2); (RouterIOReg.ROUTER_DVCH_NODE2_OFFSET, 3);
   (RouterIOReg.ROUTER_DMAC_MASK_OFFSET, 0x7)].
Definition boot : M unit :=
  zoom Mapper.store (Cube.reset RemoteRam.core_reset);;
  for_each registers (λ r, store (ROUTER_IO_ADDR_TOP + r.1) [r.2]).

(** The two windows: cached accesses move blocks. *)
Definition cached (node a : Z) : Z := AC_KSEG0_TOP + 0x400000 * (node - 1) + a.
Definition uncached (node a : Z) : Z := AC_KSEG1_TOP + 0x400000 * (node - 1) + a.

(** A block is stored, two of its words are stored again, and the block and each of its
    words are loaded. *)
Definition memory_test (node d1 d2 : Z) (ws : list Z) : M (list Z * list Z) :=
  store (cached node 0) ws;;
  store (uncached node 4) [d1];;
  store (uncached node 8) [d2];;
  l ← load (cached node 0) 4;
  w0 ← load (uncached node 0) 1; w1 ← load (uncached node 4) 1;
  w2 ← load (uncached node 8) 1; w3 ← load (uncached node 12) 1;
  mret (l, w0 ++ w1 ++ w2 ++ w3).

(** Node [src] is told to send the block at 0 to node [dst]; the processor waits for the
    interrupt, loads the block from there and reads the status. *)
Definition dma_register (node off : Z) : Z := uncached node (RemoteRam.NIF_CONFIG_BASE + off).
Definition irq_raised (m : Mapper.t Cube) : bool :=
  nz (Z.land DeviceInt.IRQ7
        (DeviceInt.lines_asserted (lines (self (RouterIOReg.rtif (io (Mapper.store m))))))).
Fixpoint wait_irq (fuel : nat) : M unit :=
  match fuel with
  | O => crash
  | S fuel => i ← gets irq_raised; if (i : bool) then mret () else cycle RemoteRam.core_step;; wait_irq fuel
  end.
Definition dma_test (src dst : Z) (ws : list Z) : M (list Z * list Z) :=
  store (cached src 0) ws;;
  store (dma_register src NetworkInterfaceConfig.DMA_DST_OFFSET) [Z.shiftl dst 22];;
  store (dma_register src NetworkInterfaceConfig.DMA_SRC_OFFSET) [0];;
  store (dma_register src NetworkInterfaceConfig.DMA_LEN_OFFSET) [1];;
  store (dma_register src NetworkInterfaceConfig.DMA_KICK_OFFSET) [1];;
  wait_irq 400;;
  l ← load (cached dst 0) 4;
  st ← load (ROUTER_IO_ADDR_TOP + RouterIOReg.ROUTER_DMAC_STAT_OFFSET) 1;
  mret (l, st).

(** The result of a run from the start, without the machine. *)
Definition result {A} (p : M A) : option (A * list exc_event) :=
  match three_memories with
  | Some m => match (boot;; p) m with Some (a, _, e) => Some (a, e) | None => None end
  | None => None
  end.

End Machine.

(** ** Accesses to the memories, with the bytes of a word as parameters

    What a run does with data is to move them; on the words of the memories it is
    parametric. *)
Section Words.
  Context (big : bool) (byte : Z → Z → Z) (word : Z → Z → Z → Z → Z).

Definition load_with (r : Ram.t) (i : Z) : option Z :=
  (b0 ← nthz (Ram.address r) i; b1 ← nthz (Ram.address r) (i + 1);
  b2 ← nthz (Ram.address r) (i + 2); b3 ← nthz (Ram.address r) (i + 3);
  Some (word b0 b1 b2 b3))%stdpp.
Definition put_with (l : list Z) (i w : Z) : option (list Z) :=
  (l ← setz l i (byte w 0); l ← setz l (i + 1) (byte w 1);
  l ← setz l (i + 2) (byte w 2); setz l (i + 3) (byte w 3))%stdpp.
Definition fetch_with (offset mode client : Z) : Effects.M Ram.t Z :=
  modify (λ r, r <| Ram.read_count ::= λ n, s32 (n + 1) |>);;
  r ← gets id; from_option (load_with r (4 * (offset / 4))).
Definition store_with (offset d client : Z) : Effects.M Ram.t unit :=
  modify (λ r, r <| Ram.write_count ::= λ n, s32 (n + 1) |>);;
  l ← gets Ram.address; l' ← from_option (put_with l (4 * (offset / 4)) d);
  assign Ram.address l'.

Definition ops_with : RangeOps RemoteRam.store :=
  let o := RemoteRam.ops big in {|
  getBase := getBase; getExtent := getExtent; setBase := setBase;
  canRead := canRead; canWrite := canWrite;
  r_fetch_word r o mode cl :=
    if r =? RemoteRam.NIC then zoom RemoteRam.nic (NetworkInterfaceConfig.fetch_word o mode cl)
    else zoom RemoteRam.mem (fetch_with o mode cl);
  r_fetch_halfword := r_fetch_halfword; r_fetch_byte := r_fetch_byte;
  r_store_word r o d cl :=
    if r =? RemoteRam.NIC then zoom RemoteRam.nic (NetworkInterfaceConfig.store_word o d cl)
    else zoom RemoteRam.mem (store_with o d cl);
  r_store_halfword := r_store_halfword; r_store_byte := r_store_byte;
  r_ready := r_ready; r_extra_latency := r_extra_latency
|}.
End Words.

Lemma ops_bytes big : RemoteRam.ops big = ops_with big (byte_of big 4) (word_of_bytes big).
Proof. reflexivity. Qed.

(** A word that went through the memory of a node. *)
Definition through (big : bool) (x : Z) : Z :=
  word_of_bytes big (byte_of big 4 x 0) (byte_of big 4 x 1) (byte_of big 4 x 2) (byte_of big 4 x 3).
Lemma through_words big ws : Forall is_u32 ws → through big <$> ws = ws.
Proof.
  intros H. rewrite <- (list_fmap_id ws) at 2. apply Forall_fmap_ext_1.
  eapply Forall_impl; [exact H|]. intros w Hw. by apply word_of_byte_of.
Qed.

Lemma one_of_three x : 1 ≤ x ≤ 3 → x = 1 ∨ x = 2 ∨ x = 3.
Proof. lia. Qed.

(** The two runs, whatever a byte of a word is. *)
Lemma memory_runs b w node d1 d2 w0 w1 w2 w3 : 1 ≤ node ≤ 3 →
  let o := ops_with false b w in let l := (λ x, w (b x 0) (b x 1) (b x 2) (b x 3)) <$> [w0; d1; d2; w3] in
  result o false 1 1 (memory_test o false node d1 d2 [w0; w1; w2; w3]) = Some ((l, l), []).
Proof. cbv zeta. intros [->|[->| ->]]%one_of_three; vm_compute; reflexivity. Qed.

Lemma dma_runs b w src dst w0 w1 w2 w3 : 1 ≤ src ≤ 3 → 1 ≤ dst ≤ 3 → src ≠ dst →
  let o := ops_with false b w in let rb x := w (b x 0) (b x 1) (b x 2) (b x 3) in
  result o false 1 1 (dma_test o false src dst [w0; w1; w2; w3]) =
  Some ((rb <$> (rb <$> [w0; w1; w2; w3]), [2 ^ (src - 1)]), []).
Proof.
  cbv zeta. intros [->|[->| ->]]%one_of_three [->|[->| ->]]%one_of_three Hne;
    first [exact (False_ind _ (Hne eq_refl))|clear; vm_compute; reflexivity].
Qed.

(** C4 Remote memory: on a machine with three memories in the stack, reset and with its
    router registers programmed, and for all data: after the processor has stored a
    block in a node and two of its words over it, it loads from the node the block with
    these words, as a block and word by word, without any exception.  The run goes
    through the mapper, the windows and state machine of the interface, every router on
    the way and the network interface of the node. *)
Theorem remote_memory node d1 d2 ws (Hn : 1 ≤ node ≤ 3) (Hl : length ws = 4%nat)
    (H1 : is_u32 d1) (H2 : is_u32 d2) (Hws : Forall is_u32 ws) :
  let l := <[2%nat := d2]> (<[1%nat := d1]> ws) in
  result (RemoteRam.ops false) false 1 1 (memory_test (RemoteRam.ops false) false node d1 d2 ws) =
  Some ((l, l), []).
Proof.
  cbv zeta. rewrite ops_bytes.
  destruct ws as [|w0 [|w1 [|w2 [|w3 [|]]]]]; try discriminate Hl. rewrite memory_runs by done.
  change (λ x, word_of_bytes false (byte_of false 4 x 0) _ _ _) with (through false).
  rewrite through_words; [done|]. change [w0; d1; d2; w3] with (<[2%nat := d2]> (<[1%nat := d1]> [w0; w1; w2; w3])).
  by repeat apply Forall_insert.
Qed.

(** C8 Remote transfers: told through its registers to send a block to another node, a node
    does so and reports it; the processor sees the interrupt of the router, finds exactly
    the bit of the sender set in the status register, and loads the block from the other
    node; for every pair of nodes and all data. *)
Theorem remote_dma src dst ws (Hs : 1 ≤ src ≤ 3) (Hd : 1 ≤ dst ≤ 3) (Hne : src ≠ dst)
    (Hl : length ws = 4%nat) (Hws : Forall is_u32 ws) :
  result (RemoteRam.ops false) false 1 1 (dma_test (RemoteRam.ops false) false src dst ws) =
  Some ((ws, [2 ^ (src - 1)]), []).
Proof.
  rewrite ops_bytes. destruct ws as [|w0 [|w1 [|w2 [|w3 [|]]]]]; try discriminate Hl.
  rewrite dma_runs by done.
  change (λ x, word_of_bytes false (byte_of false 4 x 0) _ _ _) with (through false).
  by rewrite !(through_words false [w0; w1; w2; w3]) by done.
Qed.

Ltac small_words := repeat (apply Forall_cons_2; [by split|]); apply Forall_nil_2.

Lemma remote_memory_witness :
  result (RemoteRam.ops false) false 1 1 (memory_test (RemoteRam.ops false) false 3 0xabcdef 5 [1; 2; 3; 4]) =
  Some (([1; 0xabcdef; 5; 4], [1; 0xabcdef; 5; 4]), []).
Proof.
  apply (remote_memory 3 0xabcdef 5 [1; 2; 3; 4]); [lia|reflexivity|by split|by split|small_words].
Defined.

Lemma remote_dma_witness :
  result (RemoteRam.ops false) false 1 1 (dma_test (RemoteRam.ops false) false 3 1 [1; 2; 3; 4]) =
  Some (([1; 2; 3; 4], [4]), []).
Proof. apply (remote_dma 3 1 [1; 2; 3; 4]); [lia|lia|lia|reflexivity|small_words]. Defined.

End Remote.
